(* ===== verification/_CoqProject ===== *)
-Q . S2P
Prelude.v
Bytes.v
CString.v
RingBuf.v
LogQueue.v
LogNet.v
NlmManager.v
PsmLog.v
Deobf.v
Arzl.v
Reloc.v
Yaml.v
VitaImport.v
Sha256.v
ElfTools.v
ErrResolver.v
ImageExtract.v
Atoi.v
Hoare.v
Utf16.v
SettingsApp.v
IoPlus.v
SysLibTrace.v
Nids.v
Thgn.v
VitaModule.v
Translate.v
Decompiler.v
DecompMain.v
KdumpExtract.v
ShipLog.v
FagMenu.v
Kentente.v
Zlib.v
ElfBuilder.v
UnarzlMain.v
DebugFont.v
DebugScreen.v
Kdumper.v
Plugins.v
FagGame.v
FagScan.v
FagDump.v
FagFinish.v
FagSync.v
FagQueue.v
FagPaths.v
FagThread.v
