(* ===== verification/Prelude.v ===== *)
(** * PSVita RE tools: verification development

    The repository is a collection of independent C and C++ programs for the PS Vita:
    kernel plugins that log or dump, and PC tools that take firmware files
    apart or put them together.  This library models the programs that carry
    logic of their own, one file per program or part, and proves what makes
    each of them correct.

    ** Files and what they model (paths under src/)

    - [Prelude]: fixed-width integers ([u8] to [u64], [s32]), C operators,
      bit-by-bit proofs ([bits32]), hint databases.
    - [Bytes]: the result type [run] (a value, a fault, out of fuel), the
      state monad [SM] on it, byte buffers with little-endian loads and
      stores, and the lemmas on [ends] (no fuel needed).
    - [CString]: strings read out of buffers, [strncmp], [strncpy], [strstr].
    - [Hoare]: partial-correctness triples and preserved invariants of the
      state monad, for the interactive programs; [Atoi]: decimal numbers.
    - [RingBuf]: PrincessLog/.../kernel_module/src/ringbuf.c (and
      PSMLogUSB/src/ringbuf.c), over the interface [KernelSync] of event
      flags, mutexes and memory blocks.
    - [LogQueue]: what the loggers need from a queue, as the class [LogQueue]
      with its laws; the debug-print callbacks of both loggers, proved
      against the class.
    - [LogNet]: the network thread of PrincessLog/.../kernel_module/src/main.c
      as a step function over the interfaces [LogQueue] and [KernelNet], run
      together with the callbacks as a step relation.
    - [NlmManager]: configuration, hooks, start-up and shut-down of the same
      file, with the roll-back of every partial failure.
    - [PsmLog]: PSMLogUSB/src/main.c, the USB thread and the start hook.
    - [Deobf], [Arzl]: unarzl/src/unarzl.c, the branch filter
      [arzl_deobfuscate] and the range decoder [arzl_decompress] with its
      driver [unarzl].
    - [Reloc]: vitadecompiler-mod/src/relocate.c, [uvl_relocate].
    - [Yaml], [VitaImport]: THGN/src/import/, the tree reader over libyaml
      (yamltree.c), the node utilities (yamltreeutil.c), the import database
      (vita-import.c) and its parser (vita-import-parse.c).
    - [Sha256]: elf_injector/src/sha256.c (and FAGDec/src/app/sha256.c).
    - [ElfTools]: vita-unmake-fself/src/main.c ([Unmake]) and
      elf_injector/src/main.c ([Inject]), on shared file and header layouts.
    - [ErrResolver]: PSVita-error-code-resolver/src/main.c.
    - [ImageExtract]: psp2-kbl-elf-extract/src/ ([Kbl]),
      psp2-kernel-bootimage-extract/src/ ([BootImage]) and their module
      information parsers ([ModuleInfo]).
    - [Utf16]: the conversions between UTF-16 and UTF-8 of three programs.
    - [SettingsApp]: PrincessLog/.../settings_app/src/main.c, the application
      that edits the logger's configuration.
    - [IoPlus]: ioPlus/ioPlus-0.2/src/ioplus.c and ioPlus-0.1.
    - [SysLibTrace]: psp2-syslibtrace-nids-extract/src/main.c.
    - [Nids]: what THGN and the decompiler share: the lookup of names in a
      database, the tables of exports and imports in both formats, and the
      loops over them.
    - [Thgn]: THGN/src/main.cpp, the generator of hooks.
    - vitadecompiler-mod/src/: [VitaModule] (vita.cpp, the table of symbols
      and the database of a module), [Translate] (instructions.h, utils.cpp
      and main.cpp, the text of one instruction), [Decompiler] (main.cpp, the
      passes over the code) and [DecompMain] (main.cpp, options, segments,
      relocation and the search for the module information).
    - [KdumpExtract]: kdump-extract/src/main.c.
    - [ShipLog]: ShipLog2.0/src/, the older logger: buffer and handlers
      ([Log]), standard output ([Stdout]), network thread ([Net]), settings
      ([Settings]) and the menu of its application ([Menu]).
    - [FagMenu]: FAGDec/src/app/menu.c, the linked menus on a heap, with the
      input handlers of main.c and the scrolling of draw.c.
    - [Kentente]: FAGDec/src/kplugin/kentente.c, the kernel plugin that
      decrypts a module and hands its blocks to the application.
    - [ElfBuilder]: PSVita-ELF-builder/src/main.c and file.c, the pipes
      through zlib and the building of an ELF from dumped segments.
    - [UnarzlMain]: unarzl/src/main.c, the command line around [unarzl].
    - [Zlib]: what the programs rely on of zlib and of the C library's
      streams: the classes [Zlib] and their laws.
    - FAGDec/src/app/, the application: [FagGame] (the parameter file, the
      list of games and the menus built from it), [FagScan] (dump.c, the
      recursive search for modules in a folder), [FagDump] (inflate.c and
      the decompressing thread's work on one segment), [FagFinish] (dump.c,
      the end of a module: stripping, comparing, headers), [FagSync] (the
      three threads of a dump as a step relation), [FagQueue] (the queue of
      games, dumpAllCB, status.c), [FagPaths] (the names of folders,
      licences and outputs) and [FagThread] (dumpThread, from the list of
      modules to the requests to the plugin).
    - [DebugFont], [DebugScreen]: Kdumper/src/debugScreenFont.c and
      debugScreen.c, text drawn into a frame buffer.
    - [Kdumper]: Kdumper/src/main.c, the reading of kernel memory through the
      sound library and the dump over the network.
    - [Plugins]: physmem-dumper, noASLR, unity_debug, base_hooker,
      PSVita-RTC-set and vitadecompiler-mod/src/asprintf.c.

    The programs interact little: the loggers call the ring buffer (through
    [LogQueue]); the boot loader extractor calls [unarzl]; the import parser
    calls the tree reader; THGN and the decompiler look names up in the
    database it loads, and the decompiler relocates with [uvl_relocate];
    elf_injector calls SHA-256; the settings
    application calls the system calls of the logger, which
    [UpdateConfig_reaches_logger] runs together.  The files require each other
    along the same lines.

    The interactive programs take what the user does as data: [SettingsApp]
    the list of pad samples and keyboard polls still to come, [ShipLog] the
    buttons and the state of the dialog of each frame.

    ** How the code is modelled

    A function of the code is a definition of the same name where Rocq allows
    it; loops whose body is worth naming are definitions of their own, named
    after the function, and [main] is split where its parts are.  Integers
    are [Z] with the wrap-around of their C type written out.  Memory is a
    list of bytes, or the cells of one block; an access outside of it, a use
    of unset bytes, a null pointer or an overflowing fixed array is a [Fault],
    never a default value.  State that outlives a call (ring buffer, decoder,
    parser context, relocation value) is a record passed along.  Code outside
    the repository (kernel calls, libyaml, zlib, file contents) is a parameter
    or a class; what is relied on of it is a law of the class or a named
    hypothesis, and every theorem with such a hypothesis has a witness on a
    concrete instance.  Allocation does not fail unless a file says
    otherwise; progress messages of the PC tools are left out.

    ** What the theorems show

    - The log path, end to end: the ring buffer implements a bounded queue
      ([ringbuf_simulates_fifo]), and the network and USB threads deliver a subsequence of what was
      produced, all of it while the buffer does not overflow, whatever the
      interleaving ([log_delivered_in_order], [log_delivered_completely],
      [usb_delivered_in_order]); a finite log is drained
      ([net_thread_drains]).  Start-up failures leave nothing behind, a
      configuration update does what its flags say.
    - The decompressor: memory safety and termination for every input into a
      buffer below 2 GiB up to the table overrun, and an outcome and output
      that do not depend on what the buffer held before
      ([arzl_decompress_safe]); the overrun happens exactly for the distance
      classes from 29 on ([distance_class_overruns_table]); the meaning of a
      match, the ranges of its codes, stored streams as a round trip, and both
      versions of the branch filter as inverses of filters that are defined on
      the fields of the instructions (the second one knows MOVT, not MOVW).
    - The relocations: every entry type patches its instruction to what the
      architecture's decoding of it says, the walk ends, and an out-of-range
      call stores a stale word.
    - The import database: the tree reader inverts the event stream of a
      tree ([parse_yaml_stream_roundtrip]), the loader inverts the document of a database, lookups find the
      first entry; literals are truncated to 32 bits.
    - The image tools: SHA-256 equals the hash of the padded message,
      unpacking a SELF restores its header, every segment (that is not an ELF
      file of its own) and its program headers ([unmake_restores]), injection
      into a SELF with as many segments writes the digest of the ELF, whatever
      becomes of segments that do not compress ([inject_writes_digest]), the
      extractors save whole modules, unpacking inverts packing,
      short codes and error codes determine each other.
    - The applications: no pad input, and no text from a keyboard that gives
      text only for a dialog that was opened, makes the settings application
      go wrong ([main_well_formed]), its menu is a cursor on a list, what it saves it
      reads back, and what it sends reaches the logger; the menu of ShipLog
      stays on its pages ([frame_menu_ok]).  The conversions between UTF-16
      and UTF-8 are inverses below U+10000.
    - The plugins: ShipLog's buffer is never overrun, and file and buffer hold
      what was produced, in order, with NUL bytes where the buffer was
      emptied; only a log file that does not open loses bytes
      ([producers_keep_everything]); ioPlus opens a decrypted path as the
      process of its device ([open_decrypts]).
    - FAGDec: the menus implement a list with a cursor and a number of
      selected entries, and deleting an empty one reads a null pointer
      ([menu_implements_list]); the kernel plugin frees
      whatever it allocated, whatever fails ([request_frees_all]), and hands
      over the decrypted blocks as they are in the file
      ([blocks_decrypted]), but takes a short read for a whole header
      ([short_read_truncates]) and never ends on a full disk
      ([full_disk_diverges]).
      The search for modules lists the modules of a folder once and in
      order ([scan_lists_modules]), a game's menu stays in step with its
      system folders ([game_menu_agrees]).  When every non-empty segment is
      a zlib stream and no call fails, a pass collects the finished segments
      into one file without gaps ([segments_collected]), which finishing turns
      into an ELF ([module_dumped]); a segment that is not compressed stops
      the pass ([raw_segment_blocks]).  The headers are written only after the
      plugin is done and, when the last request woke the decompressing
      thread, after the pass that followed, which took every segment up to
      the one it broke off at ([handshake_safe]); but the last report can be
      lost ([done_report_lost]), a request can be dropped between the wait
      and the clearing of the flag ([request_dropped]), and a module without
      segments waits for ever as the first one ([first_module_waits]).
    - The ELF builder: a file that went through zlib and back is the same
      ([zlib_roundtrip]), and for segment files that are there and whole the
      segments of the built ELF stand where its own program headers say
      ([makeElf_places_segments]); a truncated segment is
      taken for an uncompressed one ([truncated_segment_taken_raw]), and a
      missing one makes it close a null stream ([missing_segment_crashes]).
      The command line of unarzl gives back filtered and stored code
      ([main_unpacks]) but waits for ever for the rest of a file that has
      become shorter ([read_loop_waits]).
    - FAGDec's dump thread hands the modules whose game could be mounted to
      the plugin, in the order of the list, when every request is answered
      ([queue_requested_in_order]).
    - Kdumper: what the frame buffer shows is a terminal
      ([printf_shows_text]) unless an escape sequence comes late
      ([late_escape_overruns]); of every page the PC gets what its last
      transmission took, once and in order, which is all of it where sends are
      refused or whole ([kernel_dumped_in_order]), behind a line of text that kdump-extract
      does not expect ([dump_begins_with_text]).
    - The small plugins: a dump of physical memory is complete however its
      writes are cut up ([physical_memory_dumped]), except that a failing
      write passes for a complete one ([write_error_unnoticed]); patches are
      taken back to the byte ([patches_taken_back]).
    - The C++ tools: an import is read the same in both formats
      ([formats_read_alike]); the generated source lists every hook asked for,
      unless the name of an import has no room for its NUL in the block that
      was asked for without it ([hooker_lists_hooks],
      [first_import_overruns]).  The decompiler loads the segments as they
      stand in memory ([elf_segments_loaded]), knows every function of the
      tables of a module and keeps the symbols there were
      ([module_symbols]), writes a database that its own reader takes for
      exactly the named exports ([database_loads]), finds a symbol for every
      target ([targets_have_symbols]), gives a subroutine the number of
      arguments it is called with most often ([arguments_by_majority]),
      declares in the header what it met unless the translation of an
      instruction fails or hangs, or the code starts with bytes that are none
      ([header_declares]), and composes the halves of a word
      ([movt_composes]) by substitution in patterns
      ([replaceAll_substitutes]).
    - The extractors: the tables and modules they find are printed and saved
      whole ([table_loop_prints], [extract_module_saves]).
    - Several theorems state defects: a table of ten devices of which one is
      used, a port taken modulo 65536, a partial send that reads on behind the
      text, a stop request that is not seen while the server cannot be
      reached, a ready flag that survives its clearing, error codes taken for
      sizes, endless loops, streams of two documents, surrogate pairs.

    ** Fuel

    Loops that the code bounds by data run on structural recursion.  The
    others take fuel, and the theorems give an amount that is enough:
    the length of the event stream for the tree reader, the length of the
    segment for the branch filter, the number of table entries for the
    relocations and the extractors, one more than the half words of the code
    for the passes of the decompiler ([listing_total]), the input and buffer lengths for the
    decompressor.  [OutOfFuel] is a third outcome, so that no theorem can
    confuse running out of it with a result; the loops that really diverge
    are theorems about every amount of fuel.

    ** Not modelled

    The set-up calls of the applications and the start of ShipLog as a
    plugin, which only call the system; the setting up of the sound library
    and the two test commands of Kdumper, whose effect is that of kernel
    defects the sources do not define; drawing through the GPU, its fonts and
    the dialogs (output only); the pages of FAGDec's credits; log files of the
    small plugins; the log client for the PC (a loop over sockets); what
    capstone remembers from one instruction to the next, IT blocks above all
    ([Decompiler] takes it for a function of offset, bytes left and
    address).  The headers that only describe the ELF
    format are used through the fields the code reads. *)

From stdpp Require Import prelude gmap strings.
From Stdlib Require Export ZArith Znumtheory Lia ZifyBool.

#[global] Open Scope Z_scope.

(** [lia] with the equations of division *)
Ltac div_lia := Z.to_euclidean_division_equations; lia.

(** ** Fixed-width integers

    A [w]-bit C integer is a [Z]; the wrap-around of the C type is written
    out with [u8], [u16], [u32], [u64] (unsigned) and [s32] (two's
    complement). *)

Definition u8 (x : Z) : Z := x mod 2 ^ 8.
Definition u16 (x : Z) : Z := x mod 2 ^ 16.
Definition u32 (x : Z) : Z := x mod 2 ^ 32.
Definition u64 (x : Z) : Z := x mod 2 ^ 64.

(** Conversion of any integer to a C [int]. *)
Definition s32 (x : Z) : Z :=
  if u32 x <? 2 ^ 31 then u32 x else u32 x - 2 ^ 32.

Declare Scope c_scope.
Delimit Scope c_scope with c.
Infix "&&." := Z.land (at level 42, left associativity) : c_scope.
Infix "||." := Z.lor (at level 44, left associativity) : c_scope.
Infix "^^." := Z.lxor (at level 43, left associativity) : c_scope.
Infix "<<." := Z.shiftl (at level 41, left associativity) : c_scope.
Infix ">>." := Z.shiftr (at level 41, left associativity) : c_scope.

Create HintDb cint.
Create Rewrite HintDb cint.

Lemma u8_range x : 0 <= u8 x < 2 ^ 8.
Proof. apply Z.mod_pos_bound; lia. Qed.
Lemma u16_range x : 0 <= u16 x < 2 ^ 16.
Proof. apply Z.mod_pos_bound; lia. Qed.
Lemma u32_range x : 0 <= u32 x < 2 ^ 32.
Proof. apply Z.mod_pos_bound; lia. Qed.
Lemma u64_range x : 0 <= u64 x < 2 ^ 64.
Proof. apply Z.mod_pos_bound; lia. Qed.

Lemma u8_small x : 0 <= x < 2 ^ 8 -> u8 x = x.
Proof. apply Z.mod_small. Qed.
Lemma u16_small x : 0 <= x < 2 ^ 16 -> u16 x = x.
Proof. apply Z.mod_small. Qed.
Lemma u32_small x : 0 <= x < 2 ^ 32 -> u32 x = x.
Proof. apply Z.mod_small. Qed.
Lemma u64_small x : 0 <= x < 2 ^ 64 -> u64 x = x.
Proof. apply Z.mod_small. Qed.

Lemma u32_idem x : u32 (u32 x) = u32 x.
Proof. apply u32_small, u32_range. Qed.
Lemma u8_idem x : u8 (u8 x) = u8 x.
Proof. apply u8_small, u8_range. Qed.

Lemma u32_add_l x y : u32 (u32 x + y) = u32 (x + y).
Proof. apply Zplus_mod_idemp_l. Qed.
Lemma u32_add_r x y : u32 (x + u32 y) = u32 (x + y).
Proof. apply Zplus_mod_idemp_r. Qed.
Lemma u32_sub_l x y : u32 (u32 x - y) = u32 (x - y).
Proof. apply Zminus_mod_idemp_l. Qed.
Lemma u32_sub_r x y : u32 (x - u32 y) = u32 (x - y).
Proof. apply Zminus_mod_idemp_r. Qed.

Lemma mod_mod_pow2 x n m : 0 <= n <= m -> (x mod 2 ^ m) mod 2 ^ n = x mod 2 ^ n.
Proof.
  intros Hn. apply Z.mod_mod_divide.
  exists (2 ^ (m - n)). rewrite <- Z.pow_add_r by lia. f_equal. lia.
Qed.

Lemma s32_range x : - 2 ^ 31 <= s32 x < 2 ^ 31.
Proof. unfold s32. pose proof (u32_range x). case_match; lia. Qed.

Lemma s32_small x : - 2 ^ 31 <= x < 2 ^ 31 -> s32 x = x.
Proof.
  intros H. unfold s32, u32.
  destruct (decide (0 <= x)) as [Hx|Hx].
  - rewrite Z.mod_small by lia. case_match; lia.
  - replace (x mod 2 ^ 32) with (x + 2 ^ 32).
    + case_match; lia.
    + symmetry. rewrite <- (Z_mod_plus_full x 1), Z.mod_small; lia.
Qed.

Lemma u32_s32 x : u32 (s32 x) = u32 x.
Proof.
  unfold s32. case_match; [apply u32_idem|].
  replace (u32 x - 2 ^ 32) with (u32 x + (-1) * 2 ^ 32) by lia.
  unfold u32 at 1. rewrite Z_mod_plus_full. apply u32_idem.
Qed.

#[export] Hint Resolve u8_range u16_range u32_range u64_range s32_range : cint.
#[export] Hint Rewrite u8_idem u32_idem u32_add_l u32_add_r u32_sub_l u32_sub_r
  u32_s32 : cint.

(** ** Bitwise reasoning

    [bitwise n] proves an equality of integers bit by bit: bits from [n] up
    are decided by size hypotheses, the bits below [n] one at a time. *)

Lemma testbit_high x n i : 0 <= x < 2 ^ n -> 0 <= n <= i -> Z.testbit x i = false.
Proof.
  intros Hx Hi. rewrite <- (Z.mod_small x (2 ^ n)) by lia.
  apply Z.mod_pow2_bits_high; lia.
Qed.

Lemma land_range x n m : 0 <= n < 2 ^ m -> 0 <= m -> 0 <= Z.land x n < 2 ^ m.
Proof.
  intros Hn Hm.
  assert (Z.land x n = Z.land x n mod 2 ^ m) as ->.
  { apply Z.bits_inj'; intros i Hi. rewrite Z.land_spec.
    destruct (decide (i < m)).
    - by rewrite Z.mod_pow2_bits_low, Z.land_spec by lia.
    - rewrite Z.mod_pow2_bits_high by lia.
      rewrite (testbit_high n m) by lia. apply andb_false_r. }
  apply Z.mod_pos_bound. lia.
Qed.

Lemma lor_range x y m : 0 <= x < 2 ^ m -> 0 <= y < 2 ^ m -> 0 <= m ->
  0 <= Z.lor x y < 2 ^ m.
Proof.
  intros Hx Hy Hm.
  assert (Z.lor x y = Z.lor x y mod 2 ^ m) as ->.
  { apply Z.bits_inj'; intros i Hi. rewrite Z.lor_spec.
    destruct (decide (i < m)).
    - by rewrite Z.mod_pow2_bits_low, Z.lor_spec by lia.
    - rewrite Z.mod_pow2_bits_high by lia.
      by rewrite (testbit_high x m), (testbit_high y m) by lia. }
  apply Z.mod_pos_bound. lia.
Qed.

Lemma shiftr_range x n m : 0 <= x < 2 ^ m -> 0 <= n <= m ->
  0 <= Z.shiftr x n < 2 ^ (m - n).
Proof.
  intros Hx Hn. rewrite Z.shiftr_div_pow2 by lia. split.
  - apply Z.div_pos; lia.
  - apply Z.div_lt_upper_bound; [lia|]. rewrite <- Z.pow_add_r by lia.
    replace (n + (m - n)) with m by lia. lia.
Qed.

Lemma shiftl_range x n m : 0 <= x < 2 ^ (m - n) -> 0 <= n <= m -> 0 <= Z.shiftl x n < 2 ^ m.
Proof.
  intros Hx Hn. rewrite Z.shiftl_mul_pow2 by lia.
  replace m with (m - n + n) by lia. rewrite Z.pow_add_r by lia.
  pose proof (Z.pow_pos_nonneg 2 n ltac:(lia) ltac:(lia)). nia.
Qed.

(** Disjoint bits add up. *)
Lemma lor_mul_pow2 x y n : 0 <= n -> 0 <= y < 2 ^ n -> Z.lor (x * 2 ^ n) y = x * 2 ^ n + y.
Proof.
  intros Hn Hy. assert (Z.land (x * 2 ^ n) y = 0) as Hl.
  { apply Z.bits_inj'. intros i Hi. rewrite Z.land_spec, Z.bits_0.
    destruct (decide (i < n)).
    - by rewrite Z.mul_pow2_bits_low by lia.
    - rewrite (testbit_high y n) by lia. apply andb_false_r. }
  rewrite <- Z.lxor_lor by done. symmetry. by apply Z.add_nocarry_lxor.
Qed.

(** Every [Z.testbit] of a closed constant at a closed index computes. *)
Ltac bit_specs :=
  repeat first
    [ rewrite Z.land_spec | rewrite Z.lor_spec | rewrite Z.lxor_spec
    | rewrite Z.shiftl_spec by lia | rewrite Z.shiftr_spec by lia
    | rewrite Z.ldiff_spec | rewrite Z.lnot_spec by lia
    | rewrite Z.mod_pow2_bits_low by lia | rewrite Z.mod_pow2_bits_high by lia ].

(** Equality of 32-bit words, bit by bit. *)
Lemma bits32_eq x y : 0 <= x < 2 ^ 32 -> 0 <= y < 2 ^ 32 ->
  Forall (fun i => Z.testbit x i = Z.testbit y i) (seqZ 0 32) -> x = y.
Proof.
  intros Hx Hy H. apply Z.bits_inj'. intros i Hi.
  destruct (decide (i < 32)).
  - rewrite Forall_forall in H. apply H, elem_of_seqZ. lia.
  - by rewrite !(testbit_high _ 32) by lia.
Qed.

(** [bits32] reduces an equation of 32-bit words built from masks and shifts
    by constants to its two range goals and one boolean equation per bit;
    [bit_norm] computes the bits of constants and the shifted indices. *)
Ltac bit_norm :=
  repeat match goal with
  | |- context[Z.testbit ?x (?a + ?b)] =>
      let i := eval vm_compute in (a + b) in change (Z.testbit x (a + b)) with (Z.testbit x i)
  | |- context[Z.testbit ?x (?a - ?b)] =>
      let i := eval vm_compute in (a - b) in change (Z.testbit x (a - b)) with (Z.testbit x i)
  | |- context[Z.testbit ?x (Zneg ?p)] =>
      rewrite (Z.testbit_neg_r x (Zneg p) eq_refl)
  | |- context[Z.testbit (Zpos ?p) ?i] =>
      let b := eval vm_compute in (Z.testbit (Zpos p) i) in
      change (Z.testbit (Zpos p) i) with b
  end;
  rewrite ?andb_true_r, ?andb_false_r, ?orb_false_r, ?orb_true_r,
    ?andb_true_l, ?andb_false_l, ?orb_false_l, ?orb_true_l.
Ltac range32 :=
  repeat first
    [ assumption | apply u32_range | apply lor_range; [ | | lia]
    | apply (land_range _ _ 32); lia
    | apply (shiftl_range _ _ 32); [apply land_range; lia|lia] | apply (Z.mod_pos_bound _ (2 ^ 32)); lia
    | match goal with |- 0 <= ?x mod ?y < _ => pose proof (Z.mod_pos_bound x y); lia end
    | lia ].
Ltac bits32 :=
  unfold u32; apply bits32_eq;
  [ range32 | range32
  | let l := eval vm_compute in (seqZ 0 32) in change (seqZ 0 32) with l;
    repeat apply List.Forall_cons; try apply List.Forall_nil;
    do 4 (bit_specs; bit_norm); try reflexivity ].

(** Bits of a masked comparison: [Z.land w m = c] fixes the bits of [w] in [m]. *)
Lemma land_eq_testbit w m c i : Z.land w m = c -> Z.testbit m i = true ->
  Z.testbit w i = Z.testbit c i.
Proof. intros <- Hm. by rewrite Z.land_spec, Hm, andb_true_r. Qed.

(** [masked H]: the goal fixes a bit that [H : Z.land w m = c] fixes. *)
Ltac masked H :=
  match goal with
  | |- _ = Z.testbit ?w ?i => exact (eq_sym (land_eq_testbit w _ _ i H eq_refl))
  | |- Z.testbit ?w ?i = _ => exact (land_eq_testbit w _ _ i H eq_refl)
  end.
