(* ===== verification/Bytes.v ===== *)
(** * Runs, faults and byte-addressed memory

    The C tools read and write raw buffers.  A computation that may leave the
    buffer it was given, divide by zero or need more fuel than it was given is
    a [run]: [Done v], [Fault f] (what C leaves undefined) or [OutOfFuel].  A
    buffer is the list of its bytes; multi-byte accesses are little endian, as
    on the ARM and x86 hosts the tools run on. *)

From stdpp Require Import prelude.
From S2P Require Import Prelude.

(** ** Faults and runs *)

Inductive fault : Set :=
  | FMem      (** access outside a buffer *)
  | FInput    (** read past the input stream *)
  | FTable    (** access outside a fixed-size local array *)
  | FDivZero  (** division or remainder by zero *)
  | FNull     (** call through, or access to, a null pointer *)
  | FUninit   (** use of an uninitialised variable *)
  | FAssert.  (** a failed assertion *)

#[export] Instance fault_eq_dec : EqDecision fault.
Proof. solve_decision. Defined.

Inductive run (A : Type) : Type :=
  | Done (a : A)
  | Fault (f : fault)
  | OutOfFuel.
Arguments Done {A} a.
Arguments Fault {A} f.
Arguments OutOfFuel {A}.

#[export] Instance run_ret : MRet run := fun A a => Done a.
#[export] Instance run_bind : MBind run := fun A B f m =>
  match m with Done a => f a | Fault e => Fault e | OutOfFuel => OutOfFuel end.
#[export] Instance run_fmap : FMap run := fun A B f m =>
  match m with Done a => Done (f a) | Fault e => Fault e | OutOfFuel => OutOfFuel end.

(** The run ended with a value. *)
Definition is_done {A} (m : run A) : bool :=
  match m with Done _ => true | _ => false end.

Lemma is_done_Done {A} (m : run A) : is_done m = true -> exists a, m = Done a.
Proof. destruct m; [by eexists|done..]. Qed.

Lemma run_bind_Done {A B} (m : run A) (f : A -> run B) b :
  (m ≫= f) = Done b <-> exists a, m = Done a /\ f a = Done b.
Proof.
  destruct m; cbn; [|by split; [|intros (? & ? & ?)]..].
  split; [by eauto|]. by intros (? & [= <-] & ?).
Qed.

Lemma run_bind_assoc {A B C} (m : run A) (f : A -> run B) (g : B -> run C) :
  (m ≫= f) ≫= g = m ≫= (fun a => f a ≫= g).
Proof. by destruct m. Qed.

(** [run_inv] takes apart every bind that is known to have ended. *)
Ltac run_inv :=
  repeat match goal with
  | H : (_ ≫= _) = Done _ |- _ =>
      apply run_bind_Done in H; destruct H as (? & ? & ?)
  | H : Done _ = Done _ |- _ => injection H as H
  | H : Fault _ = Done _ |- _ => discriminate H
  | H : OutOfFuel = Done _ |- _ => discriminate H
  | H : mret _ = Done _ |- _ => unfold mret, run_ret in H
  end; subst.

(** ** State passing on top of runs *)

Definition SM (S A : Type) : Type := S -> run (A * S).

#[export] Instance sm_ret S : MRet (SM S) := fun A a s => Done (a, s).
#[export] Instance sm_bind S : MBind (SM S) := fun A B f m s =>
  match m s with
  | Done (a, s') => f a s'
  | Fault e => Fault e
  | OutOfFuel => OutOfFuel
  end.

Definition sm_get {S} : SM S S := fun s => Done (s, s).
Definition sm_put {S} (s : S) : SM S unit := fun _ => Done (tt, s).
Definition sm_gets {S A} (f : S -> A) : SM S A := fun s => Done (f s, s).
Definition sm_modify {S} (f : S -> S) : SM S unit := fun s => Done (tt, f s).
Definition sm_lift {S A} (m : run A) : SM S A := fun s => a ← m; Done (a, s).

Lemma sm_bind_Done {S A B} (m : SM S A) (f : A -> SM S B) s a s' :
  m s = Done (a, s') -> (m ≫= f) s = f a s'.
Proof. intros H. unfold mbind, sm_bind. by rewrite H. Qed.

(** ** Buffers *)

Abbreviation mem := (list Z).

(** Every cell of a buffer holds a byte. *)
Definition bytes_ok (m : mem) : Prop := Forall (fun b => 0 <= b < 256) m.

Definition mlen (m : mem) : Z := Z.of_nat (length m).

Definition load8 (m : mem) (off : Z) : run Z :=
  if off <? 0 then Fault FMem
  else match m !! Z.to_nat off with Some b => Done b | None => Fault FMem end.

Definition store8 (m : mem) (off v : Z) : run mem :=
  if (0 <=? off) && (off <? mlen m) then Done (<[Z.to_nat off := u8 v]> m)
  else Fault FMem.

(** Little-endian value of [n] bytes. *)
Fixpoint load_le (n : nat) (m : mem) (off : Z) : run Z :=
  match n with
  | O => Done 0
  | S n' => b ← load8 m off; r ← load_le n' m (off + 1); Done (b + 256 * r)
  end.

Fixpoint store_le (n : nat) (m : mem) (off v : Z) : run mem :=
  match n with
  | O => Done m
  | S n' => m' ← store8 m off v; store_le n' m' (off + 1) (v / 256)
  end.

Abbreviation load16 := (load_le 2).
Abbreviation load32 := (load_le 4).
Abbreviation load64 := (load_le 8).
Abbreviation store16 := (store_le 2).
Abbreviation store32 := (store_le 4).

(** The [n] bytes of a number. *)
Definition le (n : nat) (x : Z) : mem := (fun i => x / 256 ^ Z.of_nat i mod 256) <$> seq 0 n.

(** [n] bytes from [off] on. *)
Definition slice (m : mem) (off : Z) (n : nat) : run mem :=
  if (0 <=? off) && (off + Z.of_nat n <=? mlen m)
  then Done (take n (drop (Z.to_nat off) m)) else Fault FMem.

(** [memcpy(m + off, bs, length bs)]. *)
Definition blit (m : mem) (off : Z) (bs : mem) : run mem :=
  if (0 <=? off) && (off + mlen bs <=? mlen m)
  then Done (take (Z.to_nat off) m ++ bs ++ drop (Z.to_nat off + length bs) m)
  else Fault FMem.

(** Big-endian read of four bytes, [__builtin_bswap32] of a 32-bit load. *)
Definition bswap32 (v : Z) : Z :=
  (v mod 256) * 2 ^ 24 + (v / 256 mod 256) * 2 ^ 16
  + (v / 2 ^ 16 mod 256) * 2 ^ 8 + (v / 2 ^ 24 mod 256).

(** ** Lemmas *)

Lemma load8_inv m off b :
  load8 m off = Done b <-> 0 <= off /\ m !! Z.to_nat off = Some b.
Proof.
  unfold load8. destruct (Z.ltb_spec off 0).
  - split; [done|]. intros [? _]. lia.
  - destruct (m !! Z.to_nat off) eqn:E; split; intros H1.
    + injection H1 as ->. by split.
    + destruct H1 as [_ H1]. congruence.
    + done.
    + by destruct H1.
Qed.

Lemma load8_total m off : 0 <= off < mlen m -> exists b, load8 m off = Done b.
Proof.
  unfold mlen. intros H.
  destruct (lookup_lt_is_Some_2 m (Z.to_nat off)) as [b Hb]; [lia|].
  exists b. apply load8_inv. split; [lia|done].
Qed.

Lemma load8_byte m off b : bytes_ok m -> load8 m off = Done b -> 0 <= b < 256.
Proof.
  intros Hm [_ H]%load8_inv. by apply (Forall_lookup_1 _ _ _ _ Hm H).
Qed.

Lemma store8_total m off v :
  0 <= off < mlen m -> store8 m off v = Done (<[Z.to_nat off := u8 v]> m).
Proof. intros H. unfold store8. case_match; [done|]. lia. Qed.

Lemma store8_inv m off v m' :
  store8 m off v = Done m' ->
  0 <= off < mlen m /\ m' = <[Z.to_nat off := u8 v]> m.
Proof.
  unfold store8. case_match; [|done]. intros [= <-]. split; [lia|done].
Qed.

Lemma store8_mlen m off v m' : store8 m off v = Done m' -> mlen m' = mlen m.
Proof. intros [_ ->]%store8_inv. unfold mlen. by rewrite length_insert. Qed.

Lemma store8_bytes_ok m off v m' :
  bytes_ok m -> store8 m off v = Done m' -> bytes_ok m'.
Proof.
  intros Hm [_ ->]%store8_inv. apply Forall_insert; [done|].
  apply (u8_range v).
Qed.

Lemma load8_store8_same m off v m' :
  store8 m off v = Done m' -> load8 m' off = Done (u8 v).
Proof.
  intros [Hr ->]%store8_inv. apply load8_inv. split; [lia|].
  apply list_lookup_insert_eq. unfold mlen in Hr. lia.
Qed.

Lemma load8_store8_other m off v m' off' :
  store8 m off v = Done m' -> off' <> off -> load8 m' off' = load8 m off'.
Proof.
  intros [Hr ->]%store8_inv Hne. unfold load8.
  destruct (Z.ltb_spec off' 0); [done|].
  rewrite list_lookup_insert_ne by lia. done.
Qed.

Lemma store_le_mlen n m off v m' : store_le n m off v = Done m' -> mlen m' = mlen m.
Proof.
  revert m off v; induction n as [|n IH]; simpl; intros m off v H; run_inv; [done|].
  erewrite IH by eassumption. by eapply store8_mlen.
Qed.

Lemma store_le_bytes_ok n m off v m' :
  bytes_ok m -> store_le n m off v = Done m' -> bytes_ok m'.
Proof.
  revert m off v; induction n as [|n IH]; simpl; intros m off v Hm H; run_inv; [done|].
  eapply IH; [|eassumption]. by eapply store8_bytes_ok.
Qed.

Lemma store_le_total n m off v :
  0 <= off -> off + Z.of_nat n <= mlen m -> exists m', store_le n m off v = Done m'.
Proof.
  revert m off v; induction n as [|n IH]; simpl; intros m off v H0 Hn; [eauto|].
  rewrite store8_total by lia. simpl. apply IH; [lia|].
  unfold mlen in *. rewrite length_insert. lia.
Qed.

Lemma load_le_total n m off :
  0 <= off -> off + Z.of_nat n <= mlen m -> exists v, load_le n m off = Done v.
Proof.
  revert off; induction n as [|n IH]; simpl; intros off H0 Hn; [eauto|].
  destruct (load8_total m off) as [b ->]; [lia|]. simpl.
  destruct (IH (off + 1)) as [r ->]; [lia..|]. simpl. eauto.
Qed.

(** Bytes outside the stored range are untouched. *)
Lemma load8_store_le n m off v m' off' :
  store_le n m off v = Done m' -> off' < off \/ off + Z.of_nat n <= off' ->
  load8 m' off' = load8 m off'.
Proof.
  revert m off v; induction n as [|n IH]; simpl; intros m off v H Ho; run_inv; [done|].
  erewrite IH; [|eassumption|lia].
  eapply load8_store8_other; [eassumption|lia].
Qed.

Lemma load_le_ext n m m' off :
  (forall o, off <= o < off + Z.of_nat n -> load8 m' o = load8 m o) ->
  load_le n m' off = load_le n m off.
Proof.
  revert off; induction n as [|n IH]; simpl; intros off H; [done|].
  rewrite H by lia. rewrite (IH (off + 1)); [done|]. intros o Ho. apply H. lia.
Qed.

Lemma load_le_store_le_other k n m off v m' off' :
  store_le n m off v = Done m' ->
  off' + Z.of_nat k <= off \/ off + Z.of_nat n <= off' ->
  load_le k m' off' = load_le k m off'.
Proof.
  intros H Ho. apply load_le_ext. intros o Hr.
  eapply load8_store_le; [eassumption|lia].
Qed.

Lemma load_le_store_le_same n m off v m' :
  store_le n m off v = Done m' -> load_le n m' off = Done (v mod 256 ^ Z.of_nat n).
Proof.
  revert m off v; induction n as [|n IH]; cbn [load_le store_le]; intros m off v H.
  - run_inv. by rewrite Z.mod_1_r.
  - run_inv. erewrite load8_store_le; [|eassumption|lia].
    erewrite load8_store8_same by eassumption. simpl.
    erewrite IH by eassumption. simpl. f_equal. unfold u8.
    rewrite Nat2Z.inj_succ, Z.pow_succ_r by lia.
    pose proof (Z.pow_pos_nonneg 256 (Z.of_nat n) ltac:(lia) ltac:(lia)).
    change (2 ^ 8) with 256. rewrite Z.rem_mul_r by lia. reflexivity.
Qed.

Lemma load_le_range n m off v :
  bytes_ok m -> load_le n m off = Done v -> 0 <= v < 256 ^ Z.of_nat n.
Proof.
  intros Hm. revert off v; induction n as [|n IH]; cbn [load_le]; intros off v H; run_inv.
  - simpl. lia.
  - match goal with H : load8 _ _ = _ |- _ => apply load8_byte in H; [|done] end.
    match goal with H : load_le _ _ _ = _ |- _ => apply IH in H end.
    rewrite Nat2Z.inj_succ, Z.pow_succ_r by lia. lia.
Qed.

Lemma load32_range m off v : bytes_ok m -> load32 m off = Done v -> 0 <= v < 2 ^ 32.
Proof. apply (load_le_range 4). Qed.

Lemma load32_store32_same m off v m' :
  store32 m off v = Done m' -> load32 m' off = Done (u32 v).
Proof. apply (load_le_store_le_same 4). Qed.

(** Reading behind a prefix, and the bytes of a number. *)
Lemma load8_app_r pre l i : 0 <= i -> load8 (pre ++ l) (mlen pre + i) = load8 l i.
Proof.
  intros Hi. unfold load8, mlen. destruct (Z.ltb_spec i 0); [lia|].
  destruct (Z.ltb_spec (Z.of_nat (length pre) + i) 0); [lia|].
  replace (Z.to_nat (Z.of_nat (length pre) + i)) with (length pre + Z.to_nat i)%nat by lia.
  rewrite lookup_app_r by lia. by replace (length pre + Z.to_nat i - length pre)%nat with (Z.to_nat i) by lia.
Qed.

Lemma load_le_app_r n pre l i : 0 <= i ->
  load_le n (pre ++ l) (mlen pre + i) = load_le n l i.
Proof.
  revert i; induction n as [|n IH]; intros i Hi; cbn [load_le]; [done|].
  rewrite load8_app_r by done. rewrite <- Z.add_assoc, IH by lia. done.
Qed.

Lemma le_succ k x : le (S k) x = x mod 256 :: le k (x / 256).
Proof.
  unfold le. cbn [seq fmap list_fmap]. rewrite <- seq_shift. f_equal.
  - by rewrite Z.pow_0_r, Z.div_1_r.
  - rewrite <- list_fmap_compose. apply list_fmap_ext. intros i y Hy. cbn.
    rewrite Nat2Z.inj_succ, Z.pow_succ_r, Z.div_div by lia. done.
Qed.

Lemma length_le k x : length (le k x) = k.
Proof. unfold le. by rewrite length_fmap, length_seq. Qed.

(** A store is a copy of the bytes of the number. *)
Lemma store_le_blit n m off v : 0 <= off -> off + Z.of_nat n <= mlen m ->
  store_le n m off v = blit m off (le n v).
Proof.
  revert m off v. induction n as [|n IH]; intros m off v H0 Hn; cbn [store_le].
  - unfold blit, mlen in *. change (le 0 v) with ([] : mem). cbn [length app].
    replace (_ && _) with true by lia. by rewrite Nat.add_0_r, take_drop.
  - rewrite store8_total by lia. cbn [mbind run_bind].
    assert (Z.to_nat off < length m)%nat as Hlt by (unfold mlen in Hn; lia).
    rewrite IH by (unfold mlen in *; rewrite ?length_insert; lia). unfold blit, mlen in *.
    rewrite length_insert, le_succ. cbn [length]. rewrite length_le.
    replace (_ && _) with true by lia. replace (_ && _) with true by lia. f_equal.
    assert (take (Z.to_nat (off + 1)) (<[Z.to_nat off:=u8 v]> m) = take (Z.to_nat off) m ++ [v mod 256]) as ->.
    { replace (Z.to_nat (off + 1)) with (S (Z.to_nat off)) by lia.
      rewrite (take_S_r _ _ (u8 v)) by by apply list_lookup_insert_eq. by rewrite take_insert_ge by lia. }
    rewrite drop_insert_lt by lia. rewrite <- app_assoc. cbn [app]. do 4 f_equal. lia.
Qed.

Lemma load_le_le k pre x post : load_le k (pre ++ le k x ++ post) (mlen pre) = Done (x mod 256 ^ Z.of_nat k).
Proof.
  revert pre x. induction k as [|k IH]; intros pre x; cbn [load_le]; [by rewrite Z.mod_1_r|].
  rewrite le_succ. replace (mlen pre) with (mlen pre + 0) at 1 by lia. rewrite load8_app_r by lia.
  cbn [app load8]. change (load8 (_ :: ?l) 0) with (Done (x mod 256)). cbn [mbind run_bind].
  specialize (IH (pre ++ [x mod 256]) (x / 256)).
  rewrite <- app_assoc in IH. replace (mlen (pre ++ [x mod 256])) with (mlen pre + 1) in IH
    by (unfold mlen; rewrite length_app; cbn; lia).
  cbn [app] in IH. rewrite IH. cbn [mbind run_bind]. f_equal.
  rewrite Nat2Z.inj_succ, Z.pow_succ_r by lia.
  pose proof (Z.pow_pos_nonneg 256 (Z.of_nat k)). rewrite Z.rem_mul_r by lia. lia.
Qed.

(** Slices and block copies inside the buffer. *)
Lemma slice_inv m off n bs : slice m off n = Done bs ->
  0 <= off /\ off + Z.of_nat n <= mlen m /\ bs = take n (drop (Z.to_nat off) m).
Proof. unfold slice. case_match; [|done]. intros [= <-]. split; [lia|]. split; [lia|done]. Qed.

Lemma slice_all bs : slice bs 0 (length bs) = Done bs.
Proof.
  unfold slice. replace (_ && _) with true by (unfold mlen; lia).
  cbn. by rewrite drop_0, firstn_all.
Qed.

Lemma blit_total m off bs : 0 <= off -> off + mlen bs <= mlen m -> exists m', blit m off bs = Done m'.
Proof. intros H0 Hn. unfold blit. replace (_ && _) with true by lia. eauto. Qed.

Lemma slice_total m off n : 0 <= off -> off + Z.of_nat n <= mlen m -> exists bs, slice m off n = Done bs.
Proof. intros H0 Hn. unfold slice. replace (_ && _) with true by lia. eauto. Qed.

(** Loads and stores need no fuel. *)
Definition ends {A} (m : run A) : Prop := m <> OutOfFuel.

Lemma ends_bind {A B} (m : run A) (f : A -> run B) :
  ends m -> (forall a, ends (f a)) -> ends (m ≫= f).
Proof. intros Hm Hf. destruct m; [apply Hf|done|done]. Qed.
Lemma ends_done {A} (a : A) : ends (Done a).
Proof. done. Qed.
Lemma ends_fault {A} f : ends (Fault (A := A) f).
Proof. done. Qed.
Lemma ends_load8 m off : ends (load8 m off).
Proof. unfold load8. by repeat case_match. Qed.
Lemma ends_store8 m off v : ends (store8 m off v).
Proof. unfold store8. by case_match. Qed.
Lemma ends_load_le n m off : ends (load_le n m off).
Proof.
  revert off; induction n as [|n IH]; intros off; cbn [load_le]; [done|].
  apply ends_bind; [apply ends_load8|]. intros b. apply ends_bind; [apply IH|done].
Qed.
Lemma ends_store_le n m off v : ends (store_le n m off v).
Proof.
  revert m off v; induction n as [|n IH]; intros m off v; cbn [store_le]; [done|].
  apply ends_bind; [apply ends_store8|]. intros m'. apply IH.
Qed.

Create HintDb ends.
#[export] Hint Resolve ends_done ends_fault ends_load8 ends_store8 ends_load_le ends_store_le : ends.
(** Discharges [ends] of a computation made of binds and tests. *)
Ltac solve_ends :=
  repeat first
    [ progress auto with ends
    | apply ends_bind; [|intros ?]
    | match goal with |- ends (if ?b then _ else _) => destruct b end
    | match goal with |- ends (match ?x with _ => _ end) => destruct x end ].

#[export] Hint Resolve store8_bytes_ok store_le_bytes_ok : cint.
