(* ===== verification/CString.v ===== *)
(** * C strings

    A C string is a Rocq [string] without its NUL.  Reading one out of a
    buffer stops at the first NUL and faults when there is none; [strstr] is
    the search of the C library. *)

From stdpp Require Import prelude strings.
From Stdlib Require Import Ascii.
From S2P Require Import Prelude Bytes.

Open Scope Z_scope.

(** The characters up to the first NUL *)
Fixpoint cstr (fuel : nat) (m : mem) (off : Z) : run string :=
  match fuel with
  | O => Fault FMem
  | S fuel' =>
      b ← load8 m off;
      if b =? 0 then Done ""%string
      else s ← cstr fuel' m (off + 1); Done (String (ascii_of_nat (Z.to_nat b)) s)
  end.

Definition read_str (m : mem) (off : Z) : run string := cstr (S (length m)) m off.

(** [strncmp] or [strcmp] of the bytes at [off] with [pat], whose NUL, if
    compared, is its last element: the first difference ends it. *)
Fixpoint str_matches (m : mem) (off : Z) (pat : list Z) : run bool :=
  match pat with
  | [] => Done true
  | p :: pat' => b ← load8 m off; if b =? p then str_matches m (off + 1) pat' else Done false
  end.

(** [strstr]: the index of the first occurrence of [rep] *)
Fixpoint strstr (s rep : string) : option nat :=
  if String.prefix rep s then Some 0%nat
  else match s with
       | String _ s' => match strstr s' rep with Some k => Some (S k) | None => None end
       | EmptyString => None
       end.

(** The first [k] characters, and the rest *)
Fixpoint str_take (k : nat) (s : string) : string :=
  match k, s with
  | S k', String c s' => String c (str_take k' s')
  | _, _ => EmptyString
  end.
Fixpoint str_drop (k : nat) (s : string) : string :=
  match k, s with
  | S k', String c s' => str_drop k' s'
  | _, _ => s
  end.

(** The bytes before the first NUL *)
Fixpoint until_nul (m : mem) : mem :=
  match m with
  | [] => []
  | b :: m' => if b =? 0 then [] else b :: until_nul m'
  end.

(** [strncpy(dst, src, n)] into an array of [n] bytes *)
Definition strncpy (src : mem) (n : nat) : mem :=
  let s := take n (until_nul src) in s ++ replicate (n - length s) 0.

(** ** Lemmas *)

Lemma string_app_cons x (a b : string) : String x a +:+ b = String x (a +:+ b).
Proof. done. Qed.
Lemma string_app_assoc (a b c : string) : (a +:+ b) +:+ c = a +:+ (b +:+ c).
Proof. induction a as [|x a IH]; [done|exact (f_equal (String x) IH)]. Qed.
Lemma string_app_nil_r (a : string) : a +:+ "" = a.
Proof. induction a as [|x a IH]; [done|exact (f_equal (String x) IH)]. Qed.
Lemma string_length_app (a b : string) :
  String.length (a +:+ b) = (String.length a + String.length b)%nat.
Proof. induction a as [|x a IH]; [done|]. rewrite string_app_cons. cbn. by rewrite IH. Qed.

Lemma str_take_drop k s : str_take k s +:+ str_drop k s = s.
Proof.
  revert s. induction k as [|k IH]; intros [|c s]; cbn [str_take str_drop]; try done.
  by rewrite string_app_cons, IH.
Qed.

Lemma str_drop_app pre s : str_drop (String.length pre) (pre +:+ s)%string = s.
Proof. induction pre as [|c pre IH]; [done|]. exact IH. Qed.

Lemma str_take_app pre s : str_take (String.length pre) (pre +:+ s)%string = pre.
Proof.
  induction pre as [|c pre IH]; [by destruct s|].
  change (String c (str_take (String.length pre) (pre +:+ s)%string) = String c pre). by rewrite IH.
Qed.

Lemma str_drop_length k s : String.length (str_drop k s) = (String.length s - k)%nat.
Proof. revert s. induction k as [|k IH]; intros [|c s]; cbn; done. Qed.

Lemma str_take_length k s : (k <= String.length s)%nat -> String.length (str_take k s) = k.
Proof.
  revert s. induction k as [|k IH]; intros [|c s] Hk; cbn in *; try done; try lia.
  rewrite IH; lia.
Qed.

Lemma prefix_true rep s : String.prefix rep s = true <-> exists t, s = rep +:+ t.
Proof.
  revert s. induction rep as [|c rep IH]; intros s.
  - cbn. split; [by exists s|by destruct s].
  - destruct s as [|d s]; cbn.
    + split; [done|]. intros (t & Ht). by rewrite string_app_cons in Ht.
    + destruct (ascii_dec c d) as [->|Hne].
      * rewrite IH. split; intros (t & Ht); exists t.
        -- by rewrite string_app_cons, Ht.
        -- rewrite string_app_cons in Ht. by injection Ht.
      * split; [done|]. intros (t & Ht). rewrite string_app_cons in Ht. by injection Ht as <-.
Qed.

(** [strstr] finds the first occurrence. *)
Lemma strstr_Some s rep k : strstr s rep = Some k ->
  s = str_take k s +:+ rep +:+ str_drop (k + String.length rep) s /\
  (k + String.length rep <= String.length s)%nat.
Proof.
  revert k. induction s as [|c s IH]; intros k; cbn [strstr];
    destruct (String.prefix rep _) eqn:E.
  - intros [= <-]. apply prefix_true in E as (t & Et). destruct rep; [|by rewrite string_app_cons in Et]. done.
  - done.
  - intros [= <-]. apply prefix_true in E as (t & Et). rewrite Et. cbn [str_take Nat.add].
    change ("" +:+ ?x) with x. split; [|rewrite string_length_app; lia]. f_equal.
    clear. induction rep as [|d rep IH]; [done|]. rewrite string_app_cons. done.
  - destruct (strstr s rep) as [k'|]; [|done]. intros [= <-].
    destruct (IH k' eq_refl) as [E1 E2]. cbn [str_take str_drop Nat.add String.length].
    rewrite string_app_cons, <- E1. split; [done|lia].
Qed.

Lemma strstr_first s rep k j : strstr s rep = Some k -> (j < k)%nat ->
  ~ exists t, str_drop j s = rep +:+ t.
Proof.
  revert k j. induction s as [|c s IH]; intros k j; cbn [strstr];
    destruct (String.prefix rep _) eqn:E.
  - intros [= <-]. lia.
  - done.
  - intros [= <-]. lia.
  - destruct (strstr s rep) as [k'|]; [|done]. intros [= <-] Hj.
    destruct j as [|j].
    + cbn [str_drop]. rewrite <- prefix_true. congruence.
    + cbn [str_drop]. apply (IH k' j eq_refl). lia.
Qed.

Lemma strstr_None s rep j : strstr s rep = None -> (j <= String.length s)%nat ->
  ~ exists t, str_drop j s = rep +:+ t.
Proof.
  revert j. induction s as [|c s IH]; intros j; cbn [strstr];
    destruct (String.prefix rep _) eqn:E; try done.
  - intros _ Hj. cbn in Hj. assert (j = 0%nat) as -> by lia. cbn [str_drop].
    rewrite <- prefix_true. congruence.
  - destruct (strstr s rep) as [k'|] eqn:Es; [done|]. intros _ Hj. destruct j as [|j].
    + cbn [str_drop]. rewrite <- prefix_true. congruence.
    + cbn [str_drop]. apply IH; [done|]. cbn in Hj. lia.
Qed.

(** The string that a list of bytes spells *)
Definition chars (l : mem) : string :=
  String.string_of_list_ascii ((fun b => ascii_of_nat (Z.to_nat b)) <$> l).

(** The bytes of a string *)
Definition str_bytes (s : string) : mem :=
  (fun c => Z.of_nat (nat_of_ascii c)) <$> String.list_ascii_of_string s.

Lemma cstr_chars l fuel pre post : Forall (fun b => b <> 0) l -> (length l < fuel)%nat ->
  cstr fuel (pre ++ l ++ 0 :: post) (mlen pre) = Done (chars l).
Proof.
  intros Hl. revert fuel pre. induction Hl as [|b l Hb _ IH]; intros [|fuel] pre Hf;
    try (cbn in Hf; lia); cbn [cstr].
  - replace (mlen pre) with (mlen pre + 0) by lia. by rewrite load8_app_r by lia.
  - replace (mlen pre) with (mlen pre + 0) at 1 by lia. rewrite load8_app_r by lia.
    change (load8 ((b :: l) ++ 0 :: post) 0) with (Done b). cbn [mbind run_bind].
    replace (b =? 0) with false by lia.
    specialize (IH fuel (pre ++ [b]) ltac:(cbn in Hf; lia)).
    rewrite <- app_assoc in IH. cbn [app] in IH.
    replace (mlen (pre ++ [b])) with (mlen pre + 1) in IH
      by (unfold mlen; rewrite length_app; cbn; lia).
    cbn [app]. rewrite IH. done.
Qed.

Lemma read_str_chars l post : Forall (fun b => b <> 0) l ->
  read_str (l ++ 0 :: post) 0 = Done (chars l).
Proof.
  intros Hl. unfold read_str. apply (cstr_chars l _ [] post Hl).
  rewrite length_app. cbn. lia.
Qed.

Lemma until_nul_app l t : Forall (fun b => b <> 0) l -> until_nul (l ++ 0 :: t) = l.
Proof.
  induction 1 as [|b l Hb _ IH]; [done|]. cbn. by replace (b =? 0) with false by lia; rewrite IH.
Qed.

Lemma until_nul_id l : Forall (fun b => b <> 0) l -> until_nul l = l.
Proof. induction 1 as [|b l Hb _ IH]; [done|]. cbn. by replace (b =? 0) with false by lia; rewrite IH. Qed.

Lemma until_nul_length l : (length (until_nul l) <= length l)%nat.
Proof. induction l as [|b l IH]; cbn; [done|]. case_match; cbn; lia. Qed.

Lemma until_nul_nonzero l : Forall (fun b => b <> 0) (until_nul l).
Proof.
  induction l as [|b l IH]; cbn; [constructor|]. destruct (Z.eqb_spec b 0); [constructor|].
  by constructor.
Qed.

Lemma strncpy_length src n : length (strncpy src n) = n.
Proof. unfold strncpy. rewrite length_app, length_replicate, length_take. lia. Qed.
