(* ===== verification/RingBuf.v ===== *)
(** * The log ring buffer (ringbuf.c)

    [put], [put_clobber], [get] and the locked entry points [ringbuf_put],
    [ringbuf_put_clobber], [ringbuf_get], [ringbuf_get_wait] of
    PrincessLog/.../ringbuf.c (PSMLogUSB carries the same file).  The kernel
    objects the file uses (event flag, mutex, memory block) are an interface,
    [KernelSync], with the documented behaviour the file relies on as its laws.

    The abstract specification is [Fifo], a bounded queue.  The refinement
    theorems hold for every block base and length for which the buffer has a
    capacity ([geometry]): [inc] advances a pointer by [base + 1] modulo the
    length, so the capacity depends on the alignment of the block. *)

From stdpp Require Import prelude gmap.
From Stdlib Require Import Zdiv.
From S2P Require Import Prelude Bytes.

(** ** What ringbuf.c needs from the kernel *)

Class KernelSync (K : Type) := {
  ksceKernelCreateEventFlag : Z -> K -> Z * K;
  ksceKernelCreateMutex : K -> Z * K;
  ksceKernelAllocMemBlock : Z -> K -> Z * K;
  ksceKernelGetMemBlockBase : Z -> K -> Z;
  ksceKernelDeleteEventFlag : Z -> K -> K;
  ksceKernelDeleteMutex : Z -> K -> K;
  ksceKernelFreeMemBlock : Z -> K -> K;
  ksceKernelSetEventFlag : Z -> Z -> K -> K;
  ksceKernelClearEventFlag : Z -> Z -> K -> K;
  ksceKernelLockMutex : Z -> K -> K;
  ksceKernelUnlockMutex : Z -> K -> K;
  (** the value returned by a wait for all the bits given, without clearing *)
  ksceKernelWaitEventFlag : Z -> Z -> K -> Z;
  (** observations: the bit pattern of a flag, the cells of a block *)
  evf_pattern : Z -> K -> option Z;
  memblock_cells : Z -> K -> gmap Z Z;
}.

Class KernelSyncLaws (K : Type) `{KernelSync K} := {
  evf_create_ok : forall init k u k', ksceKernelCreateEventFlag init k = (u, k') ->
    0 <= u -> evf_pattern u k' = Some init;
  evf_set_ok : forall u bits k p, evf_pattern u k = Some p ->
    evf_pattern u (ksceKernelSetEventFlag u bits k) = Some (Z.lor p bits);
  evf_clear_ok : forall u bits k p, evf_pattern u k = Some p ->
    evf_pattern u (ksceKernelClearEventFlag u bits k) = Some (Z.land p bits);
  evf_lock_frame : forall u m k, evf_pattern u (ksceKernelLockMutex m k) = evf_pattern u k;
  evf_unlock_frame : forall u m k, evf_pattern u (ksceKernelUnlockMutex m k) = evf_pattern u k;
  evf_mutex_frame : forall u k m k', ksceKernelCreateMutex k = (m, k') ->
    evf_pattern u k' = evf_pattern u k;
  evf_alloc_frame : forall u n k m k', ksceKernelAllocMemBlock n k = (m, k') ->
    evf_pattern u k' = evf_pattern u k;
  (** a wait succeeds at once when the bits are set, and a wait that
      succeeded found them set *)
  evf_wait_ok : forall u bits k p, evf_pattern u k = Some p ->
    0 <= ksceKernelWaitEventFlag u bits k <-> Z.land p bits = bits;
  (** a block of [n] bytes maps [n] cells at its base, inside the address space *)
  memblock_ok : forall n k m k', ksceKernelAllocMemBlock n k = (m, k') -> 0 <= m ->
    let base := ksceKernelGetMemBlockBase m k' in
    0 <= base /\ base + n < 2 ^ 32 /\
    forall a, base <= a < base + n -> is_Some (memblock_cells m k' !! a);
}.

Definition RINGBUF_EVF_NON_EMPTY : Z := 1.

(** ** The module's static state *)

Record ringbuf (K : Type) := RingBuf {
  evf_uid : Z;
  mtx_uid : Z;
  memblock_uid : Z;
  buf_len : Z;
  base_ptr : Z;
  get_ptr : Z;
  put_ptr : Z;
  cells : gmap Z Z;  (** memory the pointers point into *)
  kern : K;          (** the kernel objects *)
}.
Arguments RingBuf {K}. Arguments evf_uid {K}. Arguments mtx_uid {K}.
Arguments memblock_uid {K}. Arguments buf_len {K}. Arguments base_ptr {K}.
Arguments get_ptr {K}. Arguments put_ptr {K}. Arguments cells {K}.
Arguments kern {K}.

Definition set_get_ptr {K} (p : Z) (s : ringbuf K) : ringbuf K :=
  RingBuf (evf_uid s) (mtx_uid s) (memblock_uid s) (buf_len s) (base_ptr s)
    p (put_ptr s) (cells s) (kern s).
Definition set_put_ptr {K} (p : Z) (s : ringbuf K) : ringbuf K :=
  RingBuf (evf_uid s) (mtx_uid s) (memblock_uid s) (buf_len s) (base_ptr s)
    (get_ptr s) p (cells s) (kern s).
Definition set_cells {K} (m : gmap Z Z) (s : ringbuf K) : ringbuf K :=
  RingBuf (evf_uid s) (mtx_uid s) (memblock_uid s) (buf_len s) (base_ptr s)
    (get_ptr s) (put_ptr s) m (kern s).
Definition set_kern {K} (k : K) (s : ringbuf K) : ringbuf K :=
  RingBuf (evf_uid s) (mtx_uid s) (memblock_uid s) (buf_len s) (base_ptr s)
    (get_ptr s) (put_ptr s) (cells s) k.

(** The state before [ringbuf_init]. *)
Definition ringbuf_static {K} (k : K) : ringbuf K :=
  RingBuf (-1) (-1) (-1) 0 0 0 0 ∅ k.

Section Operations.
Context {K : Type} `{!KernelSync K}.
Abbreviation M := (SM (ringbuf K)).

(** [(unsigned int)ptr % buf_len] *)
Definition idx (ptr : Z) : M Z := fun s =>
  if u32 (buf_len s) =? 0 then Fault FDivZero
  else Done (u32 ptr mod u32 (buf_len s), s).

Definition deref (ptr : Z) : M Z := fun s =>
  match cells s !! ptr with Some b => Done (b, s) | None => Fault FMem end.

Definition assign (ptr c : Z) : M unit := fun s =>
  match cells s !! ptr with
  | Some _ => Done (tt, set_cells (<[ptr := c]> (cells s)) s)
  | None => Fault FMem
  end.

(** [inc(&get_ptr)] and [inc(&put_ptr)] *)
Definition inc_get : M unit :=
  p ← sm_gets get_ptr; i ← idx (p + 1);
  sm_modify (fun s => set_get_ptr (base_ptr s + i) s).
Definition inc_put : M unit :=
  p ← sm_gets put_ptr; i ← idx (p + 1);
  sm_modify (fun s => set_put_ptr (base_ptr s + i) s).

Definition empty : M bool := sm_gets (fun s => get_ptr s =? put_ptr s).

Definition full : M bool :=
  p ← sm_gets put_ptr; g ← sm_gets get_ptr;
  i ← idx (p + 1); j ← idx g; mret (i =? j).

Definition put (c : Z) : M Z :=
  f ← full;
  if f : bool then mret (-1)
  else p ← sm_gets put_ptr; _ ← assign p c; _ ← inc_put; mret 0.

Definition put_clobber (c : Z) : M Z :=
  f ← full;
  _ ← (if f : bool then inc_get else mret tt);
  p ← sm_gets put_ptr; _ ← assign p c; _ ← inc_put; mret 0.

(** [get(c)]: the return value and, when it is 0, the byte stored in [*c] *)
Definition get : M (Z * Z) :=
  e ← empty;
  if e : bool then mret (-1, 0)
  else p ← sm_gets get_ptr; c ← deref p; _ ← inc_get; mret (0, c).

Definition kernel_call (f : K -> K) : M unit :=
  sm_modify (fun s => set_kern (f (kern s)) s).
Definition lock : M unit :=
  m ← sm_gets mtx_uid; kernel_call (ksceKernelLockMutex m).
Definition unlock : M unit :=
  m ← sm_gets mtx_uid; kernel_call (ksceKernelUnlockMutex m).
Definition flag_set : M unit :=
  u ← sm_gets evf_uid; kernel_call (ksceKernelSetEventFlag u RINGBUF_EVF_NON_EMPTY).
(** [~RINGBUF_EVF_NON_EMPTY] as an unsigned int *)
Definition flag_clear : M unit :=
  u ← sm_gets evf_uid;
  kernel_call (ksceKernelClearEventFlag u (u32 (Z.lnot RINGBUF_EVF_NON_EMPTY))).

(** [while (size-- > 0) if (put( *c++) == 0) n_put++; else break;] *)
Fixpoint put_loop (cs : list Z) (n_put : Z) : M Z :=
  match cs with
  | [] => mret n_put
  | c :: cs' => r ← put c; if r =? 0 then put_loop cs' (n_put + 1) else mret n_put
  end.

Fixpoint put_clobber_loop (cs : list Z) (n_put : Z) : M Z :=
  match cs with
  | [] => mret n_put
  | c :: cs' => _ ← put_clobber c; put_clobber_loop cs' (n_put + 1)
  end.

(** [size] iterations at most; the bytes read so far, oldest first *)
Fixpoint get_loop (size : nat) (acc : list Z) : M (list Z) :=
  match size with
  | O => mret acc
  | S size' =>
      rc ← get;
      if fst rc =? 0 then get_loop size' (acc ++ [snd rc]) else mret acc
  end.

(** [cs] is the [size] bytes at [c] *)
Definition ringbuf_put (cs : list Z) : M Z :=
  _ ← lock; n_put ← put_loop cs 0;
  _ ← (if 0 <? n_put then flag_set else mret tt);
  _ ← unlock; mret n_put.

Definition ringbuf_put_clobber (cs : list Z) : M Z :=
  _ ← lock; n_put ← put_clobber_loop cs 0;
  _ ← (if 0 <? n_put then flag_set else mret tt);
  _ ← unlock; mret n_put.

(** the bytes stored at [c]; [n_get] is their number *)
Definition ringbuf_get (size : Z) : M (list Z) :=
  _ ← lock; got ← get_loop (Z.to_nat size) [];
  e ← empty; _ ← (if e : bool then flag_clear else mret tt);
  _ ← unlock; mret got.

Definition ringbuf_get_wait (size : Z) : M (list Z) :=
  u ← sm_gets evf_uid;
  ret ← sm_gets (fun s => ksceKernelWaitEventFlag u RINGBUF_EVF_NON_EMPTY (kern s));
  if ret <? 0 then mret []
  else
    _ ← lock; got ← get_loop (Z.to_nat size) [];
    e ← empty; _ ← (if e : bool then flag_clear else mret tt);
    _ ← unlock; mret got.

Definition ringbuf_init (size : Z) : M Z := fun s =>
  let '(evf, k1) := ksceKernelCreateEventFlag 0 (kern s) in
  let s1 := RingBuf evf (mtx_uid s) (memblock_uid s) (buf_len s) (base_ptr s)
              (get_ptr s) (put_ptr s) (cells s) k1 in
  if evf <? 0 then Done (evf, s1) else
  let '(mtx, k2) := ksceKernelCreateMutex k1 in
  let s2 := RingBuf evf mtx (memblock_uid s) (buf_len s) (base_ptr s)
              (get_ptr s) (put_ptr s) (cells s) k2 in
  if mtx <? 0 then
    Done (mtx, set_kern (ksceKernelDeleteEventFlag evf k2) s2) else
  let '(blk, k3) := ksceKernelAllocMemBlock size k2 in
  let s3 := RingBuf evf mtx blk (buf_len s) (base_ptr s)
              (get_ptr s) (put_ptr s) (cells s) k3 in
  if blk <? 0 then
    Done (blk, set_kern
      (ksceKernelDeleteEventFlag evf (ksceKernelDeleteMutex mtx k3)) s3) else
  let base := ksceKernelGetMemBlockBase blk k3 in
  Done (0, RingBuf evf mtx blk size base base base (memblock_cells blk k3 ∪ cells s) k3).

Definition ringbuf_term : M Z := fun s =>
  let k1 := ksceKernelDeleteEventFlag (evf_uid s) (kern s) in
  let k2 := ksceKernelDeleteMutex (mtx_uid s) k1 in
  let k3 := ksceKernelFreeMemBlock (memblock_uid s) k2 in
  Done (0, RingBuf (evf_uid s) (-1) (-1) 0 0 0 0
             (cells s ∖ memblock_cells (memblock_uid s) k2) k3).
End Operations.

(** ** Specification: a bounded first-in first-out queue *)

Module Fifo.
Section Spec.
Context (cap : nat).
Definition put (c : Z) (q : list Z) : Z * list Z :=
  if decide (length q = cap) then (-1, q) else (0, q ++ [c]).
Definition put_clobber (c : Z) (q : list Z) : list Z :=
  (if decide (length q = cap) then tail q else q) ++ [c].
Definition get (q : list Z) : Z * option Z * list Z :=
  match q with [] => (-1, None, []) | c :: q' => (0, Some c, q') end.
(** as many of [cs] as fit *)
Definition put_all (cs q : list Z) : list Z := q ++ take (cap - length q) cs.
(** the newest [cap] bytes *)
Definition put_clobber_all (cs q : list Z) : list Z :=
  drop (length q + length cs - cap) (q ++ cs).
End Spec.
End Fifo.

(** ** Geometry of the block

    With [L = buf_len] and [b = base_ptr], [inc] maps offset [r] to
    [(b + r + 1) mod L].  The [k]-th position after the base is therefore
    [slot k = b + ((b + 1) * k) mod L], and the buffer is full exactly at the
    count [cap] with [(b + 1) * cap = -1 (mod L)]. *)

Record geometry (b L cap : Z) : Prop := {
  geo_base : 0 <= b;
  geo_top : b + L < 2 ^ 32;
  geo_cap : 0 <= cap < L;
  geo_full : (L | (b + 1) * cap + 1);
}.

Definition slot (b L k : Z) : Z := b + ((b + 1) * k) mod L.

(** A block aligned to its length holds [L - 1] bytes ... *)
Lemma geometry_aligned b L :
  0 <= b -> b + L < 2 ^ 32 -> 0 < L -> (L | b) -> geometry b L (L - 1).
Proof.
  intros Hb Ht HL [d ->]. split; [done..|lia|].
  exists (d * (L - 1) + 1). nia.
Qed.

(** ... and a block aligned to half its length (of a multiple of 4) only
    [L / 2 - 1]. *)
Lemma geometry_half_aligned b h :
  0 <= b -> b + 2 * h < 2 ^ 32 -> 0 < h -> (2 | h) -> (2 * h | b - h) ->
  geometry b (2 * h) (h - 1).
Proof.
  intros Hb Ht Hh [d ->] [e He]. split; [done..|lia|].
  assert (b = 2 * (d * 2) * e + d * 2) as -> by lia.
  exists (2 * d * e + d - e). nia.
Qed.

Section Geometry.
Context (b L cap : Z) (G : geometry b L cap).

Lemma geo_L_pos : 0 < L.
Proof. destruct G. lia. Qed.

Lemma geo_L_u32 : u32 L = L.
Proof. destruct G. apply u32_small. lia. Qed.

Lemma slot_range k : b <= slot b L k < b + L.
Proof.
  unfold slot. pose proof geo_L_pos.
  pose proof (Z.mod_pos_bound ((b + 1) * k) L). lia.
Qed.

Lemma slot_u32 k : u32 (slot b L k) = slot b L k.
Proof. destruct G. pose proof (slot_range k). apply u32_small. lia. Qed.

Lemma slot_u32_succ k : u32 (slot b L k + 1) = slot b L k + 1.
Proof. destruct G. pose proof (slot_range k). apply u32_small. lia. Qed.

(** [inc] steps from one slot to the next. *)
Lemma slot_succ k : b + (slot b L k + 1) mod L = slot b L (k + 1).
Proof.
  unfold slot. f_equal. pose proof geo_L_pos.
  replace (b + ((b + 1) * k) mod L + 1) with (((b + 1) * k) mod L + (b + 1)) by lia.
  rewrite Zplus_mod_idemp_l. f_equal. lia.
Qed.

Lemma mod_eq_divide x y : x mod L = y mod L <-> (L | x - y).
Proof.
  pose proof geo_L_pos. split.
  - intros E. apply Z.mod_divide; [lia|].
    rewrite Zminus_mod, E, Z.sub_diag. apply Z.mod_0_l. lia.
  - intros [q Hq]. replace x with (y + q * L) by lia. apply Z_mod_plus_full.
Qed.

Lemma divide_small n : (L | n) -> - L < n < L -> n = 0.
Proof. intros [q ->] ?. pose proof geo_L_pos. assert (q = 0) by nia. lia. Qed.

(** [b + 1] is invertible modulo [L]. *)
Lemma step_cancel n : (L | (b + 1) * n) -> (L | n).
Proof.
  destruct G as [_ _ _ [a Ha]]. intros [c Hc].
  exists (a * n - cap * c).
  transitivity (((b + 1) * cap + 1) * n - cap * ((b + 1) * n)); [ring|].
  rewrite Ha, Hc. ring.
Qed.

Lemma slot_eq j k : - L < j - k < L -> slot b L j = slot b L k <-> j = k.
Proof.
  intros Hr. split; [|by intros ->]. unfold slot. intros E.
  assert (((b + 1) * j) mod L = ((b + 1) * k) mod L) as E' by lia.
  apply mod_eq_divide in E'.
  assert (L | (b + 1) * (j - k)) as D by (by replace ((b+1)*(j-k)) with ((b+1)*j-(b+1)*k) by lia).
  apply step_cancel, divide_small in D; lia.
Qed.

(** The test of [full]. *)
Lemma slot_full g n : 0 <= n <= cap ->
  (slot b L (g + n) + 1) mod L = slot b L g mod L <-> n = cap.
Proof.
  intros Hn. destruct G as [_ _ Hc Hf]. unfold slot.
  assert ((b + ((b + 1) * (g + n)) mod L + 1) mod L = ((b + 1) * (g + n) + (b + 1)) mod L) as ->.
  { replace (b + ((b + 1) * (g + n)) mod L + 1)
      with (((b + 1) * (g + n)) mod L + (b + 1)) by lia.
    apply Zplus_mod_idemp_l. }
  rewrite Zplus_mod_idemp_r, mod_eq_divide.
  replace ((b + 1) * (g + n) + (b + 1) - (b + (b + 1) * g)) with ((b + 1) * n + 1) by lia.
  split.
  - intros D. assert (L | (b + 1) * (n - cap)) as D'.
    { replace ((b + 1) * (n - cap)) with (((b + 1) * n + 1) - ((b + 1) * cap + 1)) by lia.
      by apply Z.divide_sub_r. }
    apply step_cancel, divide_small in D'; lia.
  - intros ->. done.
Qed.
End Geometry.

(** ** Refinement: the buffer holds a queue *)

Section Refinement.
Context {K : Type} `{!KernelSync K}.
Implicit Types (s : ringbuf K) (q cs : list Z).

(** [rb_rep cap q s]: [s] holds the bytes [q], oldest first. *)
Record rb_rep_at (cap g : Z) q s : Prop := {
  rep_geo : geometry (base_ptr s) (buf_len s) cap;
  rep_get : get_ptr s = slot (base_ptr s) (buf_len s) g;
  rep_put : put_ptr s = slot (base_ptr s) (buf_len s) (g + Z.of_nat (length q));
  rep_len : Z.of_nat (length q) <= cap;
  rep_cells : forall a, base_ptr s <= a < base_ptr s + buf_len s -> is_Some (cells s !! a);
  rep_data : forall i c, q !! i = Some c ->
    cells s !! slot (base_ptr s) (buf_len s) (g + Z.of_nat i) = Some c;
}.
Definition rb_rep (cap : Z) q s : Prop := exists g, rb_rep_at cap g q s.

(** What the byte operations leave alone. *)
Definition statics s : Z * Z * Z * Z * Z * K :=
  (evf_uid s, mtx_uid s, memblock_uid s, buf_len s, base_ptr s, kern s).

Lemma rb_rep_kern cap q s k : rb_rep cap q (set_kern k s) <-> rb_rep cap q s.
Proof. split; intros [g []]; exists g; by constructor. Qed.

Lemma rb_rep_length cap q s : rb_rep cap q s -> Z.of_nat (length q) <= cap.
Proof. by intros [g []]. Qed.

Lemma idx_eq cap g q s p :
  rb_rep_at cap g q s -> idx p s = Done (u32 p mod buf_len s, s).
Proof.
  intros []. unfold idx. erewrite geo_L_u32 by eassumption.
  pose proof (geo_L_pos _ _ _ rep_geo0).
  destruct (Z.eqb_spec (buf_len s) 0); [lia|done].
Qed.

Lemma empty_eq cap g q s :
  rb_rep_at cap g q s -> empty s = Done (bool_decide (q = []), s).
Proof.
  intros []. unfold empty, sm_gets. do 3 f_equal. rewrite rep_get0, rep_put0.
  pose proof (geo_cap _ _ _ rep_geo0).
  pose proof (slot_eq _ _ _ rep_geo0 g (g + Z.of_nat (length q)) ltac:(lia)) as E.
  case_bool_decide as Hq.
  - subst q. apply Z.eqb_eq, E. simpl. lia.
  - apply Z.eqb_neq. intros ?%E. destruct q; [done|simpl in *; lia].
Qed.

Lemma full_eq cap g q s :
  rb_rep_at cap g q s -> full s = Done (bool_decide (Z.of_nat (length q) = cap), s).
Proof.
  intros R. pose proof R as []. unfold full, mbind, sm_bind, sm_gets, mret, sm_ret.
  rewrite !(idx_eq _ _ _ _ _ R), rep_put0, rep_get0.
  erewrite slot_u32_succ, slot_u32 by eassumption. do 3 f_equal.
  pose proof (slot_full _ _ _ rep_geo0 g (Z.of_nat (length q)) ltac:(lia)) as E.
  case_bool_decide; [apply Z.eqb_eq | apply Z.eqb_neq]; tauto.
Qed.

(** Moving [get_ptr] on drops the oldest byte. *)
Lemma inc_get_rep cap g c q s :
  rb_rep_at cap g (c :: q) s ->
  exists s', inc_get s = Done (tt, s') /\ rb_rep_at cap (g + 1) q s' /\
    statics s' = statics s.
Proof.
  intros R. pose proof R as []. unfold inc_get, mbind, sm_bind, sm_gets, sm_modify.
  rewrite (idx_eq _ _ _ _ _ R), rep_get0.
  erewrite slot_u32_succ by eassumption. eexists; split; [done|]. split; [|done].
  simpl in *. constructor; simpl; try done; try lia.
  - eapply slot_succ; eassumption.
  - rewrite rep_put0. f_equal. lia.
  - intros i x Hi. rewrite <- (rep_data0 (S i) x Hi). do 2 f_equal. lia.
Qed.

(** Storing at [put_ptr] and moving it on appends a byte. *)
Definition append (c : Z) : SM (ringbuf K) Z :=
  p ← sm_gets put_ptr; _ ← assign p c; _ ← inc_put; mret 0.

Lemma append_rep cap g q s c :
  rb_rep_at cap g q s -> Z.of_nat (length q) < cap ->
  exists s', append c s = Done (0, s') /\ rb_rep_at cap g (q ++ [c]) s' /\
    statics s' = statics s.
Proof.
  intros R Hlt. pose proof R as [].
  pose proof (slot_range _ _ _ rep_geo0 (g + Z.of_nat (length q))) as Hr.
  destruct (rep_cells0 (put_ptr s)) as [x Hx]; [by rewrite rep_put0|].
  unfold append, assign, inc_put, mbind, sm_bind, sm_gets, sm_modify. rewrite Hx.
  unfold idx; simpl. erewrite geo_L_u32 by eassumption.
  pose proof (geo_L_pos _ _ _ rep_geo0).
  destruct (Z.eqb_spec (buf_len s) 0); [lia|].
  eexists; split; [done|]. split; [|done].
  pose proof (geo_cap _ _ _ rep_geo0).
  constructor; simpl; try done.
  - rewrite rep_put0. erewrite slot_u32_succ, slot_succ by eassumption.
    f_equal. rewrite length_app. simpl. lia.
  - rewrite length_app. simpl. lia.
  - intros a Ha. destruct (decide (a = put_ptr s)) as [->|Hne].
    + rewrite lookup_insert_eq. eauto.
    + rewrite lookup_insert_ne by done. auto.
  - intros i y Hi. rewrite rep_put0. apply lookup_app_Some in Hi as [Hi|[Hi1 Hi]].
    + pose proof (lookup_lt_Some _ _ _ Hi).
      rewrite lookup_insert_ne; [auto|].
      intros E. rewrite (slot_eq _ _ _ rep_geo0) in E by lia. lia.
    + assert (i = length q) as ->.
      { apply lookup_lt_Some in Hi. simpl in Hi. lia. }
      rewrite Nat.sub_diag in Hi. injection Hi as ->. apply lookup_insert_eq.
Qed.

(** *** The byte operations implement the queue's *)

Lemma put_spec cap q s c :
  rb_rep cap q s ->
  exists s', put c s = Done (fst (Fifo.put (Z.to_nat cap) c q), s') /\
    rb_rep cap (snd (Fifo.put (Z.to_nat cap) c q)) s' /\ statics s' = statics s.
Proof.
  intros [g R]. pose proof (rep_len _ _ _ _ R) as Hl.
  unfold put. rewrite (sm_bind_Done _ _ _ _ _ (full_eq _ _ _ _ R)).
  unfold Fifo.put. case_bool_decide as Hf; case_decide; try lia; simpl.
  - exists s. split; [done|]. split; [by exists g|done].
  - destruct (append_rep _ _ _ _ c R) as (s' & E & R' & S'); [lia|].
    exists s'. split; [exact E|]. split; [by exists g|done].
Qed.

Lemma put_clobber_spec cap q s c :
  0 < cap -> rb_rep cap q s ->
  exists s', put_clobber c s = Done (0, s') /\
    rb_rep cap (Fifo.put_clobber (Z.to_nat cap) c q) s' /\ statics s' = statics s.
Proof.
  intros Hc [g R]. pose proof (rep_len _ _ _ _ R) as Hl.
  unfold put_clobber. rewrite (sm_bind_Done _ _ _ _ _ (full_eq _ _ _ _ R)).
  unfold Fifo.put_clobber. case_bool_decide as Hf; case_decide; try lia.
  - destruct q as [|x q]; [simpl in *; lia|].
    destruct (inc_get_rep _ _ _ _ _ R) as (s1 & E1 & R1 & S1).
    rewrite (sm_bind_Done _ _ _ _ _ E1).
    destruct (append_rep _ _ _ _ c R1) as (s' & E & R' & S'); [simpl in *; lia|].
    exists s'. split; [exact E|]. split; [by eexists|congruence].
  - destruct (append_rep _ _ _ _ c R) as (s' & E & R' & S'); [lia|].
    exists s'. split; [exact E|]. split; [by eexists|done].
Qed.

Lemma get_spec cap q s :
  rb_rep cap q s ->
  match q with
  | [] => get s = Done ((-1, 0), s)
  | c :: q' => exists s', get s = Done ((0, c), s') /\ rb_rep cap q' s' /\
      statics s' = statics s
  end.
Proof.
  intros [g R]. unfold get. rewrite (sm_bind_Done _ _ _ _ _ (empty_eq _ _ _ _ R)).
  destruct q as [|c q']; [done|]. rewrite bool_decide_eq_false_2 by done.
  destruct (inc_get_rep _ _ _ _ _ R) as (s' & E & R' & S').
  assert (deref (get_ptr s) s = Done (c, s)) as D.
  { unfold deref. rewrite (rep_get _ _ _ _ R).
    pose proof (rep_data _ _ _ _ R 0 c eq_refl) as H. rewrite Z.add_0_r in H. by rewrite H. }
  exists s'. unfold mbind at 1, sm_bind at 1, sm_gets.
  rewrite (sm_bind_Done _ _ _ _ _ D), (sm_bind_Done _ _ _ _ _ E).
  split; [done|]. split; [by eexists|done].
Qed.

(** *** The loops under the lock *)

Lemma put_loop_spec cap q s cs n :
  rb_rep cap q s ->
  exists s', put_loop cs n s =
      Done (n + Z.of_nat (length (take (Z.to_nat cap - length q) cs)), s') /\
    rb_rep cap (Fifo.put_all (Z.to_nat cap) cs q) s' /\ statics s' = statics s.
Proof.
  unfold Fifo.put_all.
  revert q s n; induction cs as [|c cs IH]; intros q s n R.
  - exists s. rewrite take_nil, app_nil_r. simpl. by rewrite Z.add_0_r.
  - destruct (put_spec _ _ _ c R) as (s1 & E1 & R1 & S1).
    simpl put_loop. rewrite (sm_bind_Done _ _ _ _ _ E1).
    unfold Fifo.put in *. case_decide as Hf; simpl in *.
    + exists s1. rewrite Hf, Nat.sub_diag. simpl.
      rewrite Z.add_0_r, app_nil_r. done.
    + pose proof (rb_rep_length _ _ _ R) as Hl.
      destruct (IH _ _ (n + 1) R1) as (s' & E & R' & S').
      rewrite length_app in *. simpl in *.
      replace (Z.to_nat cap - length q)%nat
        with (S (Z.to_nat cap - (length q + 1)))%nat by lia.
      simpl. rewrite <- app_assoc in R'. exists s'. rewrite E.
      split; [do 2 f_equal; lia|]. split; [done|congruence].
Qed.

Lemma put_clobber_loop_spec cap q s cs n :
  0 < cap -> rb_rep cap q s ->
  exists s', put_clobber_loop cs n s = Done (n + Z.of_nat (length cs), s') /\
    rb_rep cap (Fifo.put_clobber_all (Z.to_nat cap) cs q) s' /\
    statics s' = statics s.
Proof.
  intros Hc. revert q s n; induction cs as [|c cs IH]; intros q s n R.
  - exists s. pose proof (rb_rep_length _ _ _ R).
    unfold Fifo.put_clobber_all. simpl. rewrite app_nil_r, Z.add_0_r.
    replace (length q + 0 - Z.to_nat cap)%nat with 0%nat by lia. done.
  - destruct (put_clobber_spec _ _ _ c Hc R) as (s1 & E1 & R1 & S1).
    simpl put_clobber_loop. rewrite (sm_bind_Done _ _ _ _ _ E1).
    destruct (IH _ _ (n + 1) R1) as (s' & E & R' & S').
    exists s'. rewrite E. split; [do 2 f_equal; simpl; lia|].
    split; [|congruence]. pose proof (rb_rep_length _ _ _ R) as Hl.
    replace (Fifo.put_clobber_all (Z.to_nat cap) (c :: cs) q)
      with (Fifo.put_clobber_all (Z.to_nat cap) cs (Fifo.put_clobber (Z.to_nat cap) c q));
      [done|].
    unfold Fifo.put_clobber_all, Fifo.put_clobber. case_decide as Hf.
    + destruct q as [|x q]; [simpl in *; lia|]. rewrite length_app. simpl in *.
      rewrite <- app_assoc. simpl.
      replace (S (length q + S (length cs)) - Z.to_nat cap)%nat
        with (S (length q + 1 + length cs - Z.to_nat cap)) by lia. done.
    + rewrite length_app, <- app_assoc. simpl. f_equal. lia.
Qed.

Lemma get_loop_spec cap q s n acc :
  rb_rep cap q s ->
  exists s', get_loop n acc s = Done (acc ++ take n q, s') /\
    rb_rep cap (drop n q) s' /\ statics s' = statics s.
Proof.
  revert q s acc; induction n as [|n IH]; intros q s acc R.
  - exists s. simpl. by rewrite app_nil_r.
  - pose proof (get_spec _ _ _ R) as G. simpl get_loop. destruct q as [|c q].
    + rewrite (sm_bind_Done _ _ _ _ _ G). exists s. simpl. by rewrite app_nil_r.
    + destruct G as (s1 & E1 & R1 & S1). rewrite (sm_bind_Done _ _ _ _ _ E1).
      destruct (IH _ _ (acc ++ [c]) R1) as (s' & E & R' & S').
      exists s'. simpl. rewrite E, <- app_assoc. split; [done|]. split; [done|congruence].
Qed.

(** *** The entry points *)

Context `{!KernelSyncLaws K}.

(** The event flag is raised exactly while there is something to read. *)
Definition flag_of q : Z := match q with [] => 0 | _ => RINGBUF_EVF_NON_EMPTY end.

Definition rb_ok (cap : Z) q s : Prop :=
  rb_rep cap q s /\ evf_pattern (evf_uid s) (kern s) = Some (flag_of q).

Lemma lock_eq s : lock s = Done (tt, set_kern (ksceKernelLockMutex (mtx_uid s) (kern s)) s).
Proof. done. Qed.
Lemma unlock_eq s :
  unlock s = Done (tt, set_kern (ksceKernelUnlockMutex (mtx_uid s) (kern s)) s).
Proof. done. Qed.

(** After the loop of a put: raise the flag when something was written. *)
Lemma put_epilogue cap q q' s (n : Z) :
  rb_rep cap q' s -> evf_pattern (evf_uid s) (kern s) = Some (flag_of q) ->
  (0 < n -> q' <> []) -> (n <= 0 -> flag_of q' = flag_of q) ->
  exists s', (_ ← (if 0 <? n then flag_set else mret tt); _ ← unlock; mret n) s
      = Done (n, s') /\ rb_ok cap q' s'.
Proof.
  intros R P Hn Hq. destruct (Z.ltb_spec 0 n).
  - eexists. split; [done|]. split; [by rewrite !rb_rep_kern|]. simpl.
    rewrite evf_unlock_frame. erewrite evf_set_ok by done.
    destruct q'; [by destruct Hn|]. by destruct q.
  - eexists. split; [done|]. split; [by rewrite rb_rep_kern|]. simpl.
    rewrite evf_unlock_frame, P, Hq by lia. done.
Qed.

Lemma get_epilogue cap q s (got : list Z) q' :
  rb_rep cap q' s -> evf_pattern (evf_uid s) (kern s) = Some (flag_of q) ->
  (q' <> [] -> q <> []) ->
  exists s', (e ← empty; _ ← (if e : bool then flag_clear else mret tt);
              _ ← unlock; mret got) s = Done (got, s') /\ rb_ok cap q' s'.
Proof.
  intros R P Hq. destruct R as [g R].
  rewrite (sm_bind_Done _ _ _ _ _ (empty_eq _ _ _ _ R)).
  assert (rb_rep cap q' s) as R' by (by exists g).
  case_bool_decide as Hq'.
  - eexists. split; [done|]. split; [by rewrite !rb_rep_kern|]. simpl.
    rewrite evf_unlock_frame. erewrite evf_clear_ok by done.
    subst q'. by destruct q.
  - eexists. split; [done|]. split; [by rewrite !rb_rep_kern|]. simpl.
    rewrite evf_unlock_frame, P. specialize (Hq Hq'). by destruct q, q'.
Qed.

Lemma lock_rep cap q s :
  rb_ok cap q s -> exists s1, lock s = Done (tt, s1) /\ rb_ok cap q s1 /\
    evf_uid s1 = evf_uid s.
Proof.
  intros [R P]. eexists. split; [apply lock_eq|]. split; [|done].
  split; [by rewrite rb_rep_kern|]. simpl. by rewrite evf_lock_frame.
Qed.

Lemma statics_pattern s s' : statics s' = statics s ->
  evf_pattern (evf_uid s') (kern s') = evf_pattern (evf_uid s) (kern s).
Proof. unfold statics. by intros [= -> _ _ _ _ ->]. Qed.

(** [ringbuf_put] appends as many of the bytes as fit, in order, and
    returns their number; the event flag stays in step with the contents. *)
Lemma ringbuf_put_spec cap q s cs :
  rb_ok cap q s ->
  exists s', ringbuf_put cs s =
      Done (Z.of_nat (length (take (Z.to_nat cap - length q) cs)), s') /\
    rb_ok cap (Fifo.put_all (Z.to_nat cap) cs q) s'.
Proof.
  intros Hok. destruct (lock_rep _ _ _ Hok) as (s1 & E1 & [R1 P1] & _).
  unfold ringbuf_put. rewrite (sm_bind_Done _ _ _ _ _ E1).
  destruct (put_loop_spec _ _ _ cs 0 R1) as (s2 & E2 & R2 & S2).
  rewrite (sm_bind_Done _ _ _ _ _ E2).
  set (w := take _ cs) in *. unfold Fifo.put_all in *. fold w in R2 |- *.
  apply (put_epilogue cap q); [done|by rewrite (statics_pattern s1 s2)|..].
  - intros Hn Hnil. apply app_nil in Hnil as [_ Hw]. rewrite Hw in Hn. simpl in Hn. lia.
  - intros Hn. destruct w; [by rewrite app_nil_r|simpl in Hn; lia].
Qed.

(** [ringbuf_put_clobber] never refuses: afterwards the buffer holds the
    newest [cap] bytes of the old contents followed by the new ones. *)
Lemma ringbuf_put_clobber_spec cap q s cs :
  0 < cap -> rb_ok cap q s ->
  exists s', ringbuf_put_clobber cs s = Done (Z.of_nat (length cs), s') /\
    rb_ok cap (Fifo.put_clobber_all (Z.to_nat cap) cs q) s'.
Proof.
  intros Hc Hok. destruct (lock_rep _ _ _ Hok) as (s1 & E1 & [R1 P1] & _).
  unfold ringbuf_put_clobber. rewrite (sm_bind_Done _ _ _ _ _ E1).
  destruct (put_clobber_loop_spec _ _ _ cs 0 Hc R1) as (s2 & E2 & R2 & S2).
  rewrite (sm_bind_Done _ _ _ _ _ E2), Z.add_0_l.
  pose proof (rb_rep_length _ _ _ R1).
  apply (put_epilogue cap q); [done|by rewrite (statics_pattern s1 s2)|..];
    unfold Fifo.put_clobber_all.
  - intros Hn Hnil. apply (f_equal length) in Hnil.
    rewrite length_drop, length_app in Hnil. simpl in Hnil. lia.
  - intros Hn. destruct cs; [|simpl in Hn; lia]. simpl. rewrite app_nil_r.
    by replace (length q + 0 - Z.to_nat cap)%nat with 0%nat by lia.
Qed.

(** The body shared by [ringbuf_get] and [ringbuf_get_wait]. *)
Lemma get_locked_spec cap q s (size : Z) :
  rb_ok cap q s ->
  exists s', (_ ← lock; got ← get_loop (Z.to_nat size) [];
      e ← empty; _ ← (if e : bool then flag_clear else mret tt);
      _ ← unlock; mret got) s = Done (take (Z.to_nat size) q, s') /\
    rb_ok cap (drop (Z.to_nat size) q) s'.
Proof.
  intros Hok. destruct (lock_rep _ _ _ Hok) as (s1 & E1 & [R1 P1] & _).
  rewrite (sm_bind_Done _ _ _ _ _ E1).
  destruct (get_loop_spec _ _ _ (Z.to_nat size) [] R1) as (s2 & E2 & R2 & S2).
  rewrite (sm_bind_Done _ _ _ _ _ E2).
  apply (get_epilogue cap q); [done|by rewrite (statics_pattern s1 s2)|].
  intros Hd ->. by rewrite drop_nil in Hd.
Qed.

(** [ringbuf_get] takes at most [size] bytes off the front, in order. *)
Lemma ringbuf_get_spec cap q s (size : Z) :
  rb_ok cap q s ->
  exists s', ringbuf_get size s = Done (take (Z.to_nat size) q, s') /\
    rb_ok cap (drop (Z.to_nat size) q) s'.
Proof. apply get_locked_spec. Qed.

(** [ringbuf_get_wait] is a no-op returning 0 bytes while the buffer is
    empty, and behaves as [ringbuf_get] otherwise. *)
Lemma ringbuf_get_wait_spec cap q s (size : Z) :
  rb_ok cap q s ->
  exists s', ringbuf_get_wait size s = Done (take (Z.to_nat size) q, s') /\
    rb_ok cap (drop (Z.to_nat size) q) s' /\ (q = [] -> s' = s).
Proof.
  intros Hok. pose proof Hok as [R P].
  pose proof (evf_wait_ok _ RINGBUF_EVF_NON_EMPTY _ _ P) as W.
  unfold ringbuf_get_wait, mbind at 1, sm_bind at 1, sm_gets at 1.
  unfold mbind at 1, sm_bind at 1, sm_gets at 1.
  case_match eqn:E.
  - exists s. assert (q = []) as ->.
    { destruct q; [done|]. simpl in W.
      destruct W as [_ W]. specialize (W eq_refl). lia. }
    by rewrite take_nil, drop_nil.
  - destruct (get_locked_spec _ _ _ size Hok) as (s' & E' & Hok').
    exists s'. split; [exact E'|]. split; [done|].
    intros ->. destruct W as [W _]. simpl in W. specialize (W ltac:(lia)). done.
Qed.

(** When it succeeds, [ringbuf_init] leaves an empty buffer with its
    flag down, of the capacity the block's geometry gives. *)
Lemma ringbuf_init_spec k (size cap : Z) s' :
  ringbuf_init size (ringbuf_static k) = Done (0, s') ->
  geometry (base_ptr s') size cap -> rb_ok cap [] s'.
Proof.
  unfold ringbuf_init. simpl.
  destruct (ksceKernelCreateEventFlag 0 k) as [u k1] eqn:E1.
  destruct (Z.ltb_spec u 0); [intros [=]; lia|].
  destruct (ksceKernelCreateMutex k1) as [m k2] eqn:E2.
  destruct (Z.ltb_spec m 0); [intros [=]; lia|].
  destruct (ksceKernelAllocMemBlock size k2) as [a k3] eqn:E3.
  destruct (Z.ltb_spec a 0); [intros [=]; lia|].
  intros [= <-] G. simpl in G.
  destruct (memblock_ok _ _ _ _ E3 ltac:(lia)) as (_ & _ & Hc).
  split.
  - exists 0. constructor; simpl; try done.
    + unfold slot. rewrite Z.mul_0_r, Z.mod_0_l; [lia|].
      pose proof (geo_L_pos _ _ _ G). lia.
    + unfold slot. rewrite Z.mul_0_r, Z.mod_0_l; [lia|].
      pose proof (geo_L_pos _ _ _ G). lia.
    + apply geo_cap in G. lia.
    + intros x Hx. rewrite (right_id_L ∅ (∪)). auto.
  - simpl. rewrite (evf_alloc_frame _ _ _ _ _ E3), (evf_mutex_frame _ _ _ _ E2).
    by apply (evf_create_ok _ _ _ _ E1).
Qed.

(** *** Sequences of calls *)

Inductive rb_op : Type :=
  | OpPut (cs : list Z)
  | OpPutClobber (cs : list Z)
  | OpGet (size : Z)
  | OpGetWait (size : Z).

(** What a caller sees of one call: the return value and the bytes read. *)
Definition exec_op (op : rb_op) : SM (ringbuf K) (Z * list Z) :=
  match op with
  | OpPut cs => n ← ringbuf_put cs; mret (n, [])
  | OpPutClobber cs => n ← ringbuf_put_clobber cs; mret (n, [])
  | OpGet size => got ← ringbuf_get size; mret (Z.of_nat (length got), got)
  | OpGetWait size => got ← ringbuf_get_wait size; mret (Z.of_nat (length got), got)
  end.

Definition fifo_op (cap : nat) (op : rb_op) (q : list Z) : (Z * list Z) * list Z :=
  match op with
  | OpPut cs => ((Z.of_nat (length (take (cap - length q) cs)), []), Fifo.put_all cap cs q)
  | OpPutClobber cs => ((Z.of_nat (length cs), []), Fifo.put_clobber_all cap cs q)
  | OpGet size | OpGetWait size =>
      let got := take (Z.to_nat size) q in
      ((Z.of_nat (length got), got), drop (Z.to_nat size) q)
  end.

Fixpoint exec_ops (ops : list rb_op) : SM (ringbuf K) (list (Z * list Z)) :=
  match ops with
  | [] => mret []
  | op :: ops' => o ← exec_op op; os ← exec_ops ops'; mret (o :: os)
  end.

Fixpoint fifo_ops (cap : nat) (ops : list rb_op) (q : list Z)
  : list (Z * list Z) * list Z :=
  match ops with
  | [] => ([], q)
  | op :: ops' =>
      let '(o, q') := fifo_op cap op q in
      let '(os, q'') := fifo_ops cap ops' q' in (o :: os, q'')
  end.

Lemma exec_op_spec cap q s op :
  0 < cap -> rb_ok cap q s ->
  exists s', exec_op op s = Done (fst (fifo_op (Z.to_nat cap) op q), s') /\
    rb_ok cap (snd (fifo_op (Z.to_nat cap) op q)) s'.
Proof.
  intros Hc Hok. destruct op as [cs|cs|size|size]; simpl.
  - destruct (ringbuf_put_spec _ _ _ cs Hok) as (s' & E & Hok').
    exists s'. by rewrite (sm_bind_Done _ _ _ _ _ E).
  - destruct (ringbuf_put_clobber_spec _ _ _ cs Hc Hok) as (s' & E & Hok').
    exists s'. by rewrite (sm_bind_Done _ _ _ _ _ E).
  - destruct (ringbuf_get_spec _ _ _ size Hok) as (s' & E & Hok').
    exists s'. by rewrite (sm_bind_Done _ _ _ _ _ E).
  - destruct (ringbuf_get_wait_spec _ _ _ size Hok) as (s' & E & Hok' & _).
    exists s'. by rewrite (sm_bind_Done _ _ _ _ _ E).
Qed.

(** C1: every sequence of calls on a well-formed buffer ends without a fault
    and shows its callers exactly what a bounded queue of capacity [cap]
    would: the same return values and the same bytes in the same order. *)
Theorem ringbuf_simulates_fifo cap q s ops :
  0 < cap -> rb_ok cap q s ->
  exists s', exec_ops ops s = Done (fst (fifo_ops (Z.to_nat cap) ops q), s') /\
    rb_ok cap (snd (fifo_ops (Z.to_nat cap) ops q)) s'.
Proof.
  intros Hc. revert q s; induction ops as [|op ops IH]; intros q s Hok; simpl.
  - by exists s.
  - destruct (exec_op_spec _ _ _ op Hc Hok) as (s1 & E1 & Hok1).
    rewrite (sm_bind_Done _ _ _ _ _ E1).
    destruct (fifo_op (Z.to_nat cap) op q) as [o q'] eqn:Eo. simpl in *.
    destruct (IH _ _ Hok1) as (s' & E & Hok'). rewrite (sm_bind_Done _ _ _ _ _ E).
    destruct (fifo_ops (Z.to_nat cap) ops q') as [os q''] eqn:Eos.
    by exists s'.
Qed.

(** after a successful [ringbuf_init(0x2000)] on a page-aligned block the
    buffer is empty with its flag down and holds 8191 bytes if the block is
    aligned to 0x2000, and only 4095 otherwise. *)
Theorem ringbuf_init_capacity k s' :
  ringbuf_init 0x2000 (ringbuf_static k) = Done (0, s') ->
  (0x1000 | base_ptr s') ->
  rb_ok (if (base_ptr s' mod 0x2000 =? 0) then 0x1fff else 0xfff) [] s'.
Proof.
  intros E [d Hd]. apply (ringbuf_init_spec k 0x2000); [done|].
  pose proof E as E'. revert E'. unfold ringbuf_init. simpl.
  destruct (ksceKernelCreateEventFlag 0 k) as [u k1].
  destruct (Z.ltb_spec u 0); [intros [=]; lia|].
  destruct (ksceKernelCreateMutex k1) as [m k2].
  destruct (Z.ltb_spec m 0); [intros [=]; lia|].
  destruct (ksceKernelAllocMemBlock 0x2000 k2) as [a k3] eqn:E3.
  destruct (Z.ltb_spec a 0); [intros [=]; lia|].
  intros [= <-]. simpl in *.
  destruct (memblock_ok _ _ _ _ E3 ltac:(lia)) as (Hb0 & Hb1 & _).
  destruct (Z.eqb_spec (ksceKernelGetMemBlockBase a k3 mod 0x2000) 0) as [Hz|Hz].
  - apply (geometry_aligned _ 0x2000); [lia..|]. by apply Z.mod_divide.
  - apply (geometry_half_aligned _ 0x1000); [lia..|by exists 0x800|].
    exists (d / 2). rewrite Hd in *. clear - Hz.
    pose proof (Z.div_mod d 2 ltac:(lia)). pose proof (Z.mod_pos_bound d 2 ltac:(lia)).
    assert (d mod 2 <> 0); [|lia]. intros E. apply Hz.
    apply Z.mod_divide; [lia|]. exists (d / 2). lia.
Qed.

End Refinement.

(** ** A concrete kernel *)

Module SimKernel.
(** One event flag and one memory block of zeroes at a chosen base. *)
Record simk := Sim { sim_pat : Z; sim_base : Z; sim_size : Z }.

Definition sim_cells (k : simk) : gmap Z Z :=
  list_to_map ((fun a => (a, 0)) <$> seqZ (sim_base k) (sim_size k)).

#[export] Instance sim_sync : KernelSync simk := {
  ksceKernelCreateEventFlag init k := (1, Sim init (sim_base k) (sim_size k));
  ksceKernelCreateMutex k := (2, k);
  ksceKernelAllocMemBlock n k :=
    (if (0 <=? sim_base k) && (sim_base k + n <? 2 ^ 32) then 3 else -1,
     Sim (sim_pat k) (sim_base k) n);
  ksceKernelGetMemBlockBase _ k := sim_base k;
  ksceKernelDeleteEventFlag _ k := k;
  ksceKernelDeleteMutex _ k := k;
  ksceKernelFreeMemBlock _ k := k;
  ksceKernelSetEventFlag _ bits k := Sim (Z.lor (sim_pat k) bits) (sim_base k) (sim_size k);
  ksceKernelClearEventFlag _ bits k := Sim (Z.land (sim_pat k) bits) (sim_base k) (sim_size k);
  ksceKernelLockMutex _ k := k;
  ksceKernelUnlockMutex _ k := k;
  ksceKernelWaitEventFlag _ bits k := if Z.land (sim_pat k) bits =? bits then 0 else -1;
  evf_pattern _ k := Some (sim_pat k);
  memblock_cells _ k := sim_cells k;
}.

#[export] Instance sim_sync_laws : KernelSyncLaws simk.
Proof.
  split; simpl; try (intros; simplify_eq; done).
  - intros u bits k p [= <-]. destruct (Z.eqb_spec (Z.land (sim_pat k) bits) bits);
      split; intros; try done; lia.
  - intros n k m k' [= <- <-]. case_match; [intros _|lia]. simpl.
    split; [lia|]. split; [lia|]. intros a Ha. unfold sim_cells; simpl.
    destruct (_ !! a) eqn:E; [eauto|]. apply not_elem_of_list_to_map_2 in E.
    destruct E. rewrite <- list_fmap_compose. apply list_elem_of_fmap.
    exists a. split; [done|]. apply elem_of_seqZ. lia.
Qed.

Definition ready (base size : Z) : ringbuf simk :=
  match ringbuf_init size (ringbuf_static (Sim 0 base 0)) with
  | Done (_, s) => s
  | _ => ringbuf_static (Sim 0 base 0)
  end.

(** A four-byte buffer at address 8. *)
Lemma ready_ok : rb_ok 3 [] (ready 8 4).
Proof.
  apply (ringbuf_init_spec (Sim 0 8 0) 4); [vm_compute; reflexivity|].
  apply (geometry_aligned 8 4); [vm_compute; done..|]. by exists 2.
Qed.
End SimKernel.
Import SimKernel.

Lemma ringbuf_simulates_fifo_witness :
  rb_ok 3 [] (ready 8 4) /\
  exists s', exec_ops [OpPut [1; 2; 3; 4]; OpGet 2; OpPutClobber [5; 6]] (ready 8 4)
    = Done ([(3, []); (2, [1; 2]); (2, [])], s') /\ rb_ok 3 [3; 5; 6] s'.
Proof.
  split; [exact ready_ok|].
  exact (ringbuf_simulates_fifo 3 [] (ready 8 4)
    [OpPut [1; 2; 3; 4]; OpGet 2; OpPutClobber [5; 6]] eq_refl ready_ok).
Defined.

Lemma ringbuf_init_capacity_witness : exists s',
  ringbuf_init 0x2000 (ringbuf_static (Sim 0 0x1000 0)) = Done (0, s') /\ rb_ok 0xfff [] s'.
Proof.
  eexists. split; [reflexivity|].
  exact (ringbuf_init_capacity (Sim 0 0x1000 0) _ eq_refl (ex_intro _ 1 eq_refl)).
Defined.
