(* ===== verification/LogQueue.v ===== *)
(** * The queue interface of the loggers

    What the logging threads (PrincessLog main.c, PSMLogUSB main.c) need from
    ringbuf.c, as a class with its laws; [RingBuf] implements it.  The two
    debug-print callbacks, which both loggers share, are defined and specified
    against the interface. *)

From stdpp Require Import prelude.
From S2P Require Import Prelude Bytes RingBuf.

(** ** The interface *)

Class LogQueue (Q : Type) := {
  lq_put_clobber : list Z -> SM Q Z;
  lq_get_wait : Z -> SM Q (list Z);
  (** [lq_holds cap q s]: the queue [s] of capacity [cap] holds [q], oldest first *)
  lq_holds : nat -> list Z -> Q -> Prop;
}.

Class LogQueueLaws (Q : Type) `{LogQueue Q} := {
  lq_put_ok : forall cap q s cs, (0 < cap)%nat -> lq_holds cap q s ->
    exists s', lq_put_clobber cs s = Done (Z.of_nat (length cs), s') /\
      lq_holds cap (Fifo.put_clobber_all cap cs q) s';
  lq_get_ok : forall cap q s size, lq_holds cap q s ->
    exists s', lq_get_wait size s = Done (take (Z.to_nat size) q, s') /\
      lq_holds cap (drop (Z.to_nat size) q) s';
}.

#[export] Instance ringbuf_queue {K} `{!KernelSync K} : LogQueue (ringbuf K) := {
  lq_put_clobber := ringbuf_put_clobber;
  lq_get_wait := ringbuf_get_wait;
  lq_holds cap q s := rb_ok (Z.of_nat cap) q s;
}.

#[export] Instance ringbuf_queue_laws {K} `{!KernelSync K, !KernelSyncLaws K} :
  LogQueueLaws (ringbuf K).
Proof.
  split; simpl.
  - intros cap q s cs Hc Hok.
    destruct (ringbuf_put_clobber_spec (Z.of_nat cap) q s cs ltac:(lia) Hok) as (s' & E & Hok').
    rewrite Nat2Z.id in Hok'. eauto.
  - intros cap q s size Hok.
    destruct (ringbuf_get_wait_spec _ _ _ size Hok) as (s' & E & Hok' & _). eauto.
Qed.

(** ** The debug-print callbacks *)

Section Callbacks.
Context {Q : Type} `{!LogQueue Q}.

(** one byte from [putchar] *)
Definition UserDebugPrintfCallback (c : Z) : SM Q Z :=
  _ ← lq_put_clobber [c]; mret 0.

(** [vsnprintf] of the call: [None] is an encoding error (a negative result),
    [Some text] the full formatted text.  The result is the length of the
    text, and the buffer of 0x400 bytes receives its first 0x3ff bytes and a
    NUL. *)
Definition vsnprintf (size : Z) (out : option (list Z)) : Z * list Z :=
  match out with
  | None => (-1, [])
  | Some text => (Z.of_nat (length text), take (Z.to_nat (size - 1)) text ++ [0])
  end.

Definition KernelDebugPrintfCallback (out : option (list Z)) : SM Q Z :=
  let buf_len := 0x400 in
  let '(len, buf) := vsnprintf buf_len out in
  let len := if len <? 0 then 0 else len in
  let len := if buf_len <=? len then buf_len - 1 else len in
  _ ← lq_put_clobber (take (Z.to_nat len) buf); mret 0.

(** What a callback logs. *)
Inductive print_event : Type :=
  | UserPutchar (c : Z)
  | KernelPrintf (out : option (list Z)).

Definition run_callback (e : print_event) : SM Q Z :=
  match e with
  | UserPutchar c => UserDebugPrintfCallback c
  | KernelPrintf out => KernelDebugPrintfCallback out
  end.

Definition logged (e : print_event) : list Z :=
  match e with
  | UserPutchar c => [c]
  | KernelPrintf out => take 0x3ff (default [] out)
  end.

Context `{!LogQueueLaws Q}.

(** What the kernel callback stores: never the NUL, never past the buffer. *)
Lemma kernel_callback_bytes out :
  KernelDebugPrintfCallback out =
    (_ ← lq_put_clobber (logged (KernelPrintf out)); mret 0).
Proof.
  unfold KernelDebugPrintfCallback, vsnprintf, logged.
  destruct out as [text|]; [|done].
  destruct (Z.ltb_spec (Z.of_nat (length text)) 0); [lia|].
  change (default [] (Some text)) with text.
  set (n := Z.to_nat (if 0x400 <=? Z.of_nat (length text) then _ else _)).
  assert (take n (take (Z.to_nat (0x400 - 1)) text ++ [0]) = take 0x3ff text) as ->; [|done].
  subst n. destruct (Z.leb_spec 0x400 (Z.of_nat (length text))).
  - rewrite take_app_le; [by rewrite take_take|]. rewrite length_take. lia.
  - rewrite take_app_le by (rewrite length_take; lia).
    rewrite take_take. rewrite !take_ge by lia. done.
Qed.

(** Both callbacks return 0 and append what they log, dropping the oldest
    bytes when the queue is full. *)
Lemma run_callback_spec cap q s e : (0 < cap)%nat -> lq_holds cap q s ->
  exists s', run_callback e s = Done (0, s') /\
    lq_holds cap (Fifo.put_clobber_all cap (logged e) q) s'.
Proof.
  intros Hc Hq. destruct (lq_put_ok _ _ _ (logged e) Hc Hq) as (s' & E & Hq').
  exists s'. split; [|done]. destruct e as [c|out]; simpl run_callback.
  - unfold UserDebugPrintfCallback. by rewrite (sm_bind_Done _ _ _ _ _ E).
  - rewrite kernel_callback_bytes. by rewrite (sm_bind_Done _ _ _ _ _ E).
Qed.

(** a kernel print of any length, or one that fails to format, ends with
    result 0 and stores exactly the first 0x3ff bytes of the text: the local
    buffer of 0x400 bytes is never read past what [vsnprintf] wrote, and the
    terminator is not logged. *)
Theorem kernel_callback_clamps cap s out : (0 < cap)%nat -> lq_holds cap [] s ->
  exists s', KernelDebugPrintfCallback out s = Done (0, s') /\
    lq_holds cap (drop (length (take 0x3ff (default [] out)) - cap)
                    (take 0x3ff (default [] out))) s'.
Proof. intros Hc Hq. exact (run_callback_spec cap [] s (KernelPrintf out) Hc Hq). Qed.
End Callbacks.

Import SimKernel.

Lemma kernel_callback_clamps_witness :
  exists s', KernelDebugPrintfCallback (Some [1; 2; 3; 4]) (ready 8 4) = Done (0, s') /\
    lq_holds 3 [2; 3; 4] s'.
Proof.
  exact (kernel_callback_clamps 3 (ready 8 4) (Some [1; 2; 3; 4]) (le_S _ _ (le_S _ _ (le_n 1))) ready_ok).
Defined.
