(* ===== verification/LogNet.v ===== *)
(** * The network thread of the logger (NetLoggingMgr main.c)

    [net_connect], [net_close] and [net_thread] as a program counter and one
    step per blocking point, over the queue interface of [LogQueue] and an
    interface to the network stack.  The system of thread, printing callers
    and the stop request is a step relation; its theorems are about what the
    peer receives. *)

From stdpp Require Import prelude.
From S2P Require Import Prelude Bytes RingBuf LogQueue.

(** ** The network stack *)

Class KernelNet (W : Type) := {
  ksceNetSocket : W -> Z * W;
  ksceNetSetsockopt : Z -> Z -> W -> W;      (** socket, send timeout *)
  ksceNetConnect : Z -> W -> Z * W;
  ksceNetShutdown : Z -> W -> W;
  ksceNetClose : Z -> W -> W;
  ksceNetSend : Z -> list Z -> W -> Z * W;
  ksceKernelDelayThread : Z -> W -> W;
  (** observation: the bytes the peer has received *)
  net_received : W -> list Z;
}.

(** A send that returns [n >= 0] has handed over the first [n] bytes, a failed
    one none; nothing else transfers data. *)
Class KernelNetLaws (W : Type) `{KernelNet W} := {
  net_send_ok : forall sock buf w n w', ksceNetSend sock buf w = (n, w') -> 0 <= n ->
    net_received w' = net_received w ++ take (Z.to_nat n) buf;
  net_send_err : forall sock buf w n w', ksceNetSend sock buf w = (n, w') -> n < 0 ->
    net_received w' = net_received w;
  net_socket_frame : forall w n w', ksceNetSocket w = (n, w') -> net_received w' = net_received w;
  net_connect_frame : forall sock w n w', ksceNetConnect sock w = (n, w') ->
    net_received w' = net_received w;
  net_opt_frame : forall sock t w, net_received (ksceNetSetsockopt sock t w) = net_received w;
  net_shutdown_frame : forall sock w, net_received (ksceNetShutdown sock w) = net_received w;
  net_close_frame : forall sock w, net_received (ksceNetClose sock w) = net_received w;
  net_delay_frame : forall t w, net_received (ksceKernelDelayThread t w) = net_received w;
}.

(** ** The thread *)

Section Thread.
Context {Q W : Type} `{!LogQueue Q, !KernelNet W}.

(** One round of the loop of [net_connect]: [None] is the [goto socket]. *)
Definition net_connect_round (w : W) : option Z * W :=
  let '(net_sock, w) := ksceNetSocket w in
  let socket_error w :=
    (None, ksceKernelDelayThread (1000 * 1000) (ksceNetClose net_sock w)) in
  if net_sock <? 0 then socket_error w
  else
    let w := ksceNetSetsockopt net_sock (5 * 1000 * 1000) w in
    let '(r, w) := ksceNetConnect net_sock w in
    if r =? 0 then (Some net_sock, w)
    else socket_error (ksceNetShutdown net_sock w).

Definition net_close (net_sock : Z) (w : W) : W :=
  ksceNetClose net_sock (ksceNetShutdown net_sock w).

(** Where the thread is; [buf] holds the [received_len] bytes in flight. *)
Inductive net_pc : Type :=
  | NStart
  | NLoop
  | NConnect (buf : list Z)
  | NSend (net_sock : Z) (buf : list Z)
  | NWait (net_sock : Z)
  | NExit.

Record net_state := NetState { ns_pc : net_pc; ns_queue : Q; ns_net : W }.

Definition NLM_BIT_DELAY_NET_THREAD : Z := 2.

(** One step of [net_thread], with the values of [NetLoggingMgrFlags] and
    [net_thread_run] it reads. *)
Definition net_thread_step (flags run_flag : Z) (s : net_state) : run net_state :=
  let '(NetState pc q w) := s in
  match pc with
  | NStart =>
      let w := if Z.land flags NLM_BIT_DELAY_NET_THREAD =? 0 then w
               else ksceKernelDelayThread (8 * 1000 * 1000) w in
      Done (NetState NLoop q w)
  | NLoop =>
      if run_flag =? 0 then Done (NetState NExit q w)
      else
        '(buf, q) ← lq_get_wait 0x400 q;
        if Z.of_nat (length buf) =? 0 then Done (NetState NLoop q w)
        else Done (NetState (NConnect buf) q w)
  | NConnect buf =>
      match net_connect_round w with
      | (Some net_sock, w) => Done (NetState (NSend net_sock buf) q w)
      | (None, w) => Done (NetState (NConnect buf) q w)
      end
  | NSend net_sock buf =>
      let '(r, w) := ksceNetSend net_sock buf w in
      if r <? 0 then
        let w := net_close net_sock w in
        let w := ksceKernelDelayThread (1000 * 1000) w in
        Done (NetState (NConnect buf) q w)
      else Done (NetState (NWait net_sock) q w)
  | NWait net_sock =>
      '(buf, q) ← lq_get_wait 0x400 q;
      if 0 <? Z.of_nat (length buf) then Done (NetState (NSend net_sock buf) q w)
      else Done (NetState NLoop q (net_close net_sock w))
  | NExit => Done s
  end.

(** [n] steps of the thread alone. *)
Fixpoint net_thread_steps (n : nat) (flags run_flag : Z) (s : net_state) : run net_state :=
  match n with
  | O => Done s
  | S n' => s' ← net_thread_step flags run_flag s; net_thread_steps n' flags run_flag s'
  end.

Definition in_flight (pc : net_pc) : list Z :=
  match pc with NConnect buf | NSend _ buf => buf | _ => [] end.

(** ** The system *)

Record sys := Sys {
  sys_run : Z;              (** [net_thread_run] *)
  sys_net : net_state;
  sys_produced : list Z;    (** everything logged so far *)
}.

Inductive sys_step (flags : Z) : sys -> sys -> Prop :=
  | SPrint r pc q w p e q' n :
      run_callback e q = Done (n, q') ->
      sys_step flags (Sys r (NetState pc q w) p) (Sys r (NetState pc q' w) (p ++ logged e))
  | SThread r n n' p :
      net_thread_step flags r n = Done n' ->
      sys_step flags (Sys r n p) (Sys r n' p)
  | SStop r n p :
      sys_step flags (Sys r n p) (Sys 0 n p).

(** A freshly started thread over an empty queue. *)
Definition sys_initial (cap : nat) (s : sys) : Prop :=
  lq_holds cap [] (ns_queue (sys_net s)) /\ ns_pc (sys_net s) = NStart /\
  net_received (ns_net (sys_net s)) = [] /\ sys_produced s = [].

(** The bytes of the system: received, in flight, queued. *)
Definition carried (q : list Z) (s : sys) : list Z :=
  net_received (ns_net (sys_net s)) ++ in_flight (ns_pc (sys_net s)) ++ q.

Context `{!LogQueueLaws Q, !KernelNetLaws W}.

Lemma net_connect_round_frame w r w' :
  net_connect_round w = (r, w') -> net_received w' = net_received w.
Proof.
  unfold net_connect_round. destruct (ksceNetSocket w) as [sock w1] eqn:E1.
  apply net_socket_frame in E1. case_match.
  { intros [= <- <-]. by rewrite net_delay_frame, net_close_frame. }
  destruct (ksceNetConnect _ _) as [c w2] eqn:E2.
  apply net_connect_frame in E2. rewrite net_opt_frame in E2. case_match; intros [= <- <-].
  - congruence.
  - rewrite net_delay_frame, net_close_frame, net_shutdown_frame. congruence.
Qed.

(** What one thread step does with the bytes: what it takes off the queue or
    puts on the wire stays in order; only a short send can lose bytes. *)
Lemma net_thread_step_bytes cap flags r q pc qs w :
  lq_holds cap q qs ->
  exists pc' qs' w' q', net_thread_step flags r (NetState pc qs w) = Done (NetState pc' qs' w')
    /\ lq_holds cap q' qs'
    /\ net_received w' ++ in_flight pc' ++ q' `sublist_of` net_received w ++ in_flight pc ++ q
    /\ ((forall sock buf x n x', ksceNetSend sock buf x = (n, x') -> 0 <= n ->
           n = Z.of_nat (length buf)) ->
        net_received w' ++ in_flight pc' ++ q' = net_received w ++ in_flight pc ++ q).
Proof.
  intros Hq. destruct pc as [| |buf|sock buf|sock|]; simpl.
  - exists NLoop, qs, (if Z.land flags NLM_BIT_DELAY_NET_THREAD =? 0 then w
               else ksceKernelDelayThread (8 * 1000 * 1000) w), q.
    assert (net_received (if Z.land flags NLM_BIT_DELAY_NET_THREAD =? 0 then w
      else ksceKernelDelayThread (8 * 1000 * 1000) w) = net_received w) as ->.
    { case_match; [done|apply net_delay_frame]. }
    done.
  - case_match; [by exists NExit, qs, w, q|].
    destruct (lq_get_ok _ _ _ 0x400 Hq) as (qs' & -> & Hq'). simpl.
    pose proof (take_drop (Z.to_nat 0x400) q) as Hsplit.
    case_match.
    + exists NLoop, qs', w, (drop (Z.to_nat 0x400) q).
      destruct (take (Z.to_nat 0x400) q); [|simpl in *; lia]. simpl in Hsplit.
      rewrite Hsplit in *. done.
    + exists (NConnect (take (Z.to_nat 0x400) q)), qs', w, (drop (Z.to_nat 0x400) q).
      simpl in_flight. rewrite Hsplit. done.
  - destruct (net_connect_round w) as [[sock|] w'] eqn:E;
      apply net_connect_round_frame in E.
    + exists (NSend sock buf), qs, w', q. simpl. by rewrite E.
    + exists (NConnect buf), qs, w', q. simpl. by rewrite E.
  - destruct (ksceNetSend sock buf w) as [n w'] eqn:E. case_match.
    + eexists _, qs, _, q. split; [done|]. split; [done|]. unfold net_close. simpl.
      rewrite net_delay_frame, net_close_frame, net_shutdown_frame.
      apply net_send_err in E as ->; [|lia]. done.
    + exists (NWait sock), qs, w', q. split; [done|]. split; [done|].
      assert (0 <= n) as Hn by lia.
      pose proof (net_send_ok _ _ _ _ _ E Hn) as ->. rewrite <- !app_assoc. simpl. split.
      * apply sublist_app; [done|]. apply sublist_app; [apply sublist_take|done].
      * intros Hfull. rewrite (Hfull _ _ _ _ _ E Hn), Nat2Z.id, firstn_all. done.
  - destruct (lq_get_ok _ _ _ 0x400 Hq) as (qs' & -> & Hq'). simpl.
    pose proof (take_drop (Z.to_nat 0x400) q) as Hsplit.
    case_match.
    + exists (NSend sock (take (Z.to_nat 0x400) q)), qs', w, (drop (Z.to_nat 0x400) q).
      simpl in_flight. rewrite Hsplit. done.
    + eexists NLoop, qs', _, (drop (Z.to_nat 0x400) q). split; [done|]. split; [done|].
      unfold net_close. rewrite net_close_frame, net_shutdown_frame.
      destruct (take (Z.to_nat 0x400) q); [|cbn [length] in *; lia]. simpl in Hsplit.
      rewrite Hsplit in *. done.
  - by exists NExit, qs, w, q.
Qed.

(** The invariant of the system. *)
Definition sys_inv (cap : nat) (s : sys) : Prop :=
  exists q, lq_holds cap q (ns_queue (sys_net s)) /\
    carried q s `sublist_of` sys_produced s.

Lemma sys_step_inv cap flags s s' :
  (0 < cap)%nat -> sys_step flags s s' -> sys_inv cap s -> sys_inv cap s'.
Proof.
  intros Hc [r pc qs w p e qs' n E|r [pc qs w] n' p E|r n p] (q & Hq & Hs);
    unfold sys_inv, carried in *;
    cbn [sys_net sys_produced ns_queue ns_net ns_pc] in *.
  - destruct (run_callback_spec _ _ _ e Hc Hq) as (qs'' & E' & Hq').
    rewrite E in E'. injection E' as _ <-.
    eexists. split; [exact Hq'|].
    trans ((net_received w ++ in_flight pc ++ q) ++ logged e); [|by apply sublist_app].
    rewrite <- !app_assoc. do 2 (apply sublist_app; [done|]). apply sublist_drop.
  - destruct (net_thread_step_bytes cap flags r q pc qs w Hq)
      as (pc' & qs' & w' & q' & E' & Hq' & Hsub & _).
    rewrite E in E'. injection E' as ->. simpl. exists q'. split; [done|].
    by etrans.
  - eauto.
Qed.

(** Lossless operation: full sends, and never more logged than fits. *)
Lemma sys_step_lossless cap flags s s' q :
  (0 < cap)%nat ->
  (forall sock buf (x : W) n x', ksceNetSend sock buf x = (n, x') -> 0 <= n ->
     n = Z.of_nat (length buf)) ->
  sys_step flags s s' -> (length (sys_produced s') <= cap)%nat ->
  lq_holds cap q (ns_queue (sys_net s)) -> carried q s = sys_produced s ->
  exists q', lq_holds cap q' (ns_queue (sys_net s')) /\ carried q' s' = sys_produced s'.
Proof.
  intros Hc Hfull Hstep Hlen Hq Hs.
  destruct Hstep as [r pc qs w p e qs' n E|r [pc qs w] n' p E|r n p];
    unfold carried in *;
    cbn [sys_net sys_produced ns_queue ns_net ns_pc] in *.
  - destruct (run_callback_spec _ _ _ e Hc Hq) as (qs'' & E' & Hq').
    rewrite E in E'. injection E' as _ <-. exists (q ++ logged e).
    unfold Fifo.put_clobber_all in Hq'.
    assert (length q + length (logged e) <= cap)%nat.
    { rewrite length_app in Hlen. rewrite <- Hs in Hlen. rewrite !length_app in Hlen. lia. }
    replace (length q + length (logged e) - cap)%nat with 0%nat in Hq' by lia.
    split; [done|]. rewrite <- Hs. by rewrite !app_assoc.
  - destruct (net_thread_step_bytes cap flags r q pc qs w Hq)
      as (pc' & qs' & w' & q' & E' & Hq' & _ & Heq).
    rewrite E in E'. injection E' as ->. simpl. exists q'. split; [done|].
    rewrite Heq; done.
  - eauto.
Qed.

Lemma sys_produced_mono flags s s' :
  sys_step flags s s' -> (length (sys_produced s) <= length (sys_produced s'))%nat.
Proof. intros []; simpl; rewrite ?length_app; lia. Qed.

(** C2: whatever the interleaving of callers, thread and stop request, and
    however often the connection fails, the peer receives log bytes in the
    order they were printed and none of them twice: received, in-flight and
    queued bytes together are a subsequence of what was logged. *)
Theorem log_delivered_in_order cap flags s s' :
  (0 < cap)%nat -> sys_initial cap s -> rtc (sys_step flags) s s' ->
  exists q, lq_holds cap q (ns_queue (sys_net s')) /\
    net_received (ns_net (sys_net s')) ++ in_flight (ns_pc (sys_net s')) ++ q
      `sublist_of` sys_produced s'.
Proof.
  intros Hc (Hq & Hpc & Hw & Hp) Hrtc.
  assert (sys_inv cap s) as Hinv.
  { exists []. unfold carried. rewrite Hpc, Hw, Hp. done. }
  clear - Hc Hrtc Hinv LogQueueLaws0 KernelNetLaws0.
  induction Hrtc as [|s1 s2 s3 Hstep _ IH]; [exact Hinv|].
  apply IH. by eapply sys_step_inv.
Qed.

(** C14: when every successful send is complete and no more was logged than the
    queue holds, no byte is lost: received, in-flight and queued bytes are
    exactly what was logged. *)
Theorem log_delivered_completely cap flags s s' :
  (0 < cap)%nat ->
  (forall sock buf (x : W) n x', ksceNetSend sock buf x = (n, x') -> 0 <= n ->
     n = Z.of_nat (length buf)) ->
  sys_initial cap s -> rtc (sys_step flags) s s' ->
  (length (sys_produced s') <= cap)%nat ->
  exists q, lq_holds cap q (ns_queue (sys_net s')) /\
    net_received (ns_net (sys_net s')) ++ in_flight (ns_pc (sys_net s')) ++ q
      = sys_produced s'.
Proof.
  intros Hc Hfull (Hq & Hpc & Hw & Hp) Hrtc Hlen.
  assert (exists q, lq_holds cap q (ns_queue (sys_net s)) /\ carried q s = sys_produced s) as Hinv.
  { exists []. unfold carried. rewrite Hpc, Hw, Hp. done. }
  clear Hq Hpc Hw Hp. induction Hrtc as [|s1 s2 s3 Hstep Hrest IH]; [exact Hinv|].
  apply IH; [done|]. destruct Hinv as (q & Hq & Heq).
  eapply sys_step_lossless; try done.
  clear IH. etrans; [|exact Hlen]. clear - Hrest.
  induction Hrest as [|x y z H1 _ IH]; [done|].
  etrans; [by eapply sys_produced_mono|exact IH].
Qed.
End Thread.

(** ** Progress *)

Section Progress.
Context {Q W : Type} `{!LogQueue Q, !KernelNet W}.

Lemma net_thread_steps_app m n flags r s s' :
  net_thread_steps m flags r s = Done s' ->
  net_thread_steps (m + n) flags r s = net_thread_steps n flags r s'.
Proof.
  revert s; induction m as [|m IH]; simpl; intros s E; run_inv; [done|].
  match goal with H : net_thread_step _ _ _ = _ |- _ => rewrite H end. simpl. auto.
Qed.

(** A network that is up: every call succeeds and sends are complete. *)
Record net_up : Prop := {
  up_socket : forall (w : W), 0 <= fst (ksceNetSocket w);
  up_connect : forall sock (w : W), fst (ksceNetConnect sock w) = 0;
  up_send : forall sock buf (w : W), fst (ksceNetSend sock buf w) = Z.of_nat (length buf);
}.

(** A network on which no connection is ever made. *)
Definition net_down : Prop := forall sock (w : W), fst (ksceNetConnect sock w) <> 0.

Context `{!LogQueueLaws Q, !KernelNetLaws W}.

Lemma send_step_up (Up : net_up) flags r sock buf q (w : W) : exists w',
  net_thread_step flags r (NetState (NSend sock buf) q w) = Done (NetState (NWait sock) q w') /\
  net_received w' = net_received w ++ buf.
Proof.
  simpl. destruct (ksceNetSend sock buf w) as [n w'] eqn:E.
  pose proof (up_send Up sock buf w) as Hn. rewrite E in Hn. simpl in Hn. subst n.
  exists w'. destruct (Z.ltb_spec (Z.of_nat (length buf)) 0); [lia|]. split; [done|].
  rewrite (net_send_ok _ _ _ _ _ E ltac:(lia)), Nat2Z.id, firstn_all. done.
Qed.

Lemma connect_step_up (Up : net_up) flags r buf q (w : W) : exists sock w',
  net_thread_step flags r (NetState (NConnect buf) q w) = Done (NetState (NSend sock buf) q w')
  /\ net_received w' = net_received w.
Proof.
  simpl. destruct (net_connect_round w) as [o w'] eqn:E.
  pose proof (net_connect_round_frame _ _ _ E) as Hf. revert E. unfold net_connect_round.
  pose proof (up_socket Up w) as Hs. destruct (ksceNetSocket w) as [sock w1]. simpl in Hs.
  destruct (Z.ltb_spec sock 0); [lia|].
  pose proof (up_connect Up sock (ksceNetSetsockopt sock (5 * 1000 * 1000) w1)) as Hc.
  destruct (ksceNetConnect _ _) as [c w2]. simpl in Hc. subst c. simpl.
  intros [= <- <-]. by exists sock, w2.
Qed.

(** From a send, the thread empties the queue and comes back to its loop. *)
Lemma drain_from_send (Up : net_up) cap flags r sock buf q qs (w : W) :
  lq_holds cap q qs ->
  exists k qs' w', (k <= 2 * length q + 2)%nat /\
    net_thread_steps k flags r (NetState (NSend sock buf) qs w) = Done (NetState NLoop qs' w') /\
    lq_holds cap [] qs' /\ net_received w' = net_received w ++ buf ++ q.
Proof.
  remember (length q) as n eqn:En. revert buf q qs w En.
  induction (lt_wf n) as [n _ IH]. intros buf q qs w -> Hq.
  destruct (send_step_up Up flags r sock buf qs w) as (w1 & E1 & R1).
  destruct (lq_get_ok _ _ _ 0x400 Hq) as (qs1 & E2 & Hq1).
  destruct q as [|c q'] eqn:Eq.
  - rewrite drop_nil in Hq1. rewrite take_nil in E2.
    exists 2%nat, qs1, (net_close sock w1). split; [simpl; lia|]. split.
    + unfold net_thread_steps. rewrite E1. simpl. by rewrite E2.
    + split; [done|]. unfold net_close. by rewrite net_close_frame, net_shutdown_frame, R1, app_nil_r.
  - rewrite <- Eq in *. set (got := take (Z.to_nat 0x400) q) in *.
    set (rest := drop (Z.to_nat 0x400) q) in *.
    assert (length rest < length q)%nat as Hlt.
    { subst rest. rewrite length_drop, Eq. simpl. lia. }
    destruct (IH _ Hlt got rest qs1 w1 eq_refl Hq1) as (k & qs' & w' & Hk & E & Hq' & R).
    exists (2 + k)%nat, qs', w'. split; [lia|]. split.
    + erewrite net_thread_steps_app; [exact E|]. unfold net_thread_steps. rewrite E1. simpl.
      rewrite E2. simpl. case_match; [done|].
      subst got q. simpl in *. lia.
    + split; [done|]. rewrite R, R1, <- !app_assoc. unfold got, rest. by rewrite take_drop.
Qed.

(** C16: on a network that is up, the thread at the top of its loop delivers
    everything queued within [2 * length q + 4] steps, in order, and returns to
    the loop with an empty queue. *)
Theorem net_thread_drains (Up : net_up) cap flags q qs (w : W) :
  lq_holds cap q qs ->
  exists k qs' w', (k <= 2 * length q + 4)%nat /\
    net_thread_steps k flags 1 (NetState NLoop qs w) = Done (NetState NLoop qs' w') /\
    lq_holds cap [] qs' /\ net_received w' = net_received w ++ q.
Proof.
  intros Hq. destruct (lq_get_ok _ _ _ 0x400 Hq) as (qs1 & E1 & Hq1).
  destruct (decide (q = [])) as [->|Hne].
  { exists 0%nat, qs, w. rewrite app_nil_r. split; [lia|done]. }
  destruct (connect_step_up Up flags 1 (take (Z.to_nat 0x400) q) qs1 w) as (sock & w1 & E2 & R2).
  destruct (drain_from_send Up cap flags 1 sock (take (Z.to_nat 0x400) q) _ qs1 w1 Hq1)
    as (k & qs' & w' & Hk & E & Hq' & R).
  exists (2 + k)%nat, qs', w'. split; [rewrite length_drop in Hk; lia|]. split.
  - erewrite net_thread_steps_app; [exact E|]. unfold net_thread_steps.
    assert (net_thread_step flags 1 (NetState NLoop qs w)
      = Done (NetState (NConnect (take (Z.to_nat 0x400) q)) qs1 w)) as ->.
    { simpl. rewrite E1. simpl. destruct q; done. }
    simpl in *. by rewrite E2.
  - split; [done|]. by rewrite R, R2, take_drop.
Qed.

(** while no connection can be made, a thread with bytes in flight never
    leaves [net_connect]: however many steps it takes, and although
    [net_thread_run] is 0, it has not exited.  [NetLoggingMgrFinish], which
    clears the flag and then waits for the thread, waits forever. *)
Theorem net_connect_ignores_stop flags buf q (w : W) n :
  net_down ->
  exists w', net_thread_steps n flags 0 (NetState (NConnect buf) q w)
    = Done (NetState (NConnect buf) q w') /\ net_received w' = net_received w.
Proof.
  intros Down. revert w. induction n as [|n IH]; intros w; [by exists w|].
  simpl. destruct (net_connect_round w) as [o w1] eqn:E.
  pose proof (net_connect_round_frame _ _ _ E) as Hf. revert E. unfold net_connect_round.
  destruct (ksceNetSocket w) as [sock w2].
  destruct (sock <? 0).
  { intros [= <- <-]. simpl. destruct (IH (ksceKernelDelayThread (1000 * 1000) (ksceNetClose sock w2)))
      as (w' & E' & R'). exists w'. split; [exact E'|congruence]. }
  pose proof (Down sock (ksceNetSetsockopt sock (5 * 1000 * 1000) w2)) as Hc.
  destruct (ksceNetConnect _ _) as [c w3]. simpl in Hc.
  destruct (Z.eqb_spec c 0); [done|]. intros [= <- <-]. simpl.
  destruct (IH (ksceKernelDelayThread (1000 * 1000)
    (ksceNetClose sock (ksceNetShutdown sock w3)))) as (w' & E' & R').
  exists w'. split; [exact E'|congruence].
Qed.
End Progress.

(** ** A concrete network *)

Import SimKernel.

Module SimNet.
(** The bytes received; every connect returns [c], every send is complete. *)
Record simnet (c : Z) := SimNetS { sn_recv : list Z }.
Arguments SimNetS {c}. Arguments sn_recv {c}.

#[export] Instance sim_net c : KernelNet (simnet c) := {
  ksceNetSocket w := (1, w);
  ksceNetSetsockopt _ _ w := w;
  ksceNetConnect _ w := (c, w);
  ksceNetShutdown _ w := w;
  ksceNetClose _ w := w;
  ksceNetSend _ buf w := (Z.of_nat (length buf), SimNetS (sn_recv w ++ buf));
  ksceKernelDelayThread _ w := w;
  net_received w := sn_recv w;
}.

#[export] Instance sim_net_laws c : KernelNetLaws (simnet c).
Proof.
  split; simpl; try done.
  - intros _ buf w n w' [= <- <-] Hn; simpl. by rewrite Nat2Z.id, firstn_all.
  - intros _ buf w n w' [= <- <-] Hn; simpl. lia.
  - by intros w n w' [= _ <-].
  - by intros _ w n w' [= _ <-].
Qed.

(** Connects return 0 ... *)
Lemma sim_up : net_up (W := simnet 0).
Proof. by split. Qed.

(** ... or always an error. *)
Lemma sim_down : net_down (W := simnet (-1)).
Proof. done. Qed.

Definition start c : sys (Q := ringbuf SimKernel.simk) (W := simnet c) :=
  Sys 1 (NetState NStart (SimKernel.ready 8 4) (SimNetS [])) [].

Lemma start_initial c : sys_initial 3 (start c).
Proof. split; [exact SimKernel.ready_ok|done]. Qed.

(** Two bytes are printed and the thread takes three steps: they are in flight. *)
Lemma start_runs : exists s', rtc (sys_step 0) (start 0) s' /\
  sys_produced s' = [65; 66] /\ in_flight (ns_pc (sys_net s')) = [65; 66].
Proof.
  eexists. split.
  - eapply rtc_l; [eapply (SPrint 0 1 _ _ _ [] (KernelPrintf (Some [65; 66]))); vm_compute; reflexivity|].
    do 3 (eapply rtc_l; [eapply SThread; vm_compute; reflexivity|]). apply rtc_refl.
  - by split.
Qed.
End SimNet.
Import SimNet.

Lemma log_delivered_in_order_witness : exists s', rtc (sys_step 0) (start 0) s' /\
  sys_produced s' = [65; 66] /\
  exists q, lq_holds 3 q (ns_queue (sys_net s')) /\
    net_received (ns_net (sys_net s')) ++ in_flight (ns_pc (sys_net s')) ++ q
      `sublist_of` sys_produced s'.
Proof.
  destruct start_runs as (s' & R & P & _). exists s'. split; [exact R|]. split; [exact P|].
  exact (log_delivered_in_order 3 0 (start 0) s' (le_S _ _ (le_S _ _ (le_n 1)))
    (start_initial 0) R).
Defined.

Lemma log_delivered_completely_witness : exists s', rtc (sys_step 0) (start 0) s' /\
  exists q, lq_holds 3 q (ns_queue (sys_net s')) /\
    net_received (ns_net (sys_net s')) ++ in_flight (ns_pc (sys_net s')) ++ q = [65; 66].
Proof.
  destruct start_runs as (s' & R & P & _). exists s'. split; [exact R|]. rewrite <- P.
  apply (log_delivered_completely 3 0 (start 0) s' (le_S _ _ (le_S _ _ (le_n 1)))).
  - by intros sock buf x n x' [= <- _] _.
  - exact (start_initial 0).
  - exact R.
  - rewrite P. simpl. lia.
Defined.

Lemma net_thread_drains_witness : exists qs,
  lq_holds 3 [7; 8] qs /\
  exists k qs' w', (k <= 2 * 2 + 4)%nat /\
    net_thread_steps k 0 1 (NetState NLoop qs (SimNetS (c := 0) [])) = Done (NetState NLoop qs' w') /\
    lq_holds 3 [] qs' /\ net_received w' = [7; 8].
Proof.
  destruct (run_callback_spec 3 [] (ready 8 4) (KernelPrintf (Some [7; 8])) ltac:(lia) ready_ok)
    as (qs & _ & Hq).
  exists qs. split; [exact Hq|].
  exact (net_thread_drains sim_up 3 0 [7; 8] qs (SimNetS []) Hq).
Defined.

Lemma net_connect_ignores_stop_witness : exists w',
  net_thread_steps 100 0 0 (NetState (NConnect [65]) (ready 8 4) (SimNetS (c := -1) []))
    = Done (NetState (NConnect [65]) (ready 8 4) w') /\ net_received w' = [].
Proof.
  exact (net_connect_ignores_stop 0 [65] (ready 8 4) (SimNetS []) 100 sim_down).
Defined.
