(* ===== verification/NlmManager.v ===== *)
(** * Configuration and life cycle of the logger (NetLoggingMgr main.c)

    The configuration entry points, [NetLoggingMgrInit], [NetLoggingMgrFinish]
    and [module_start] over the module's static state.  Kernel services are
    the class [NlmKernel]; a function pointer that was never resolved is a
    missing entry of [resolved], and calling it is a fault. *)

From stdpp Require Import prelude gmap strings.
From S2P Require Import Prelude Bytes RingBuf LogNet.

Definition NLM_BIT_INIT : Z := 1.
Definition NLM_BIT_CONFIG_LOADED : Z := 4.
Definition NLM_CONFIG_FLAGS_BIT_QAF_DEBUG_PRINTF : Z := 1.
Definition DEFAULT_PORT : Z := 8080.
Definition RINGBUF_LEN : Z := 0x2000.
(** [sizeof(NetLoggingMgrConfig_t)] and the offsets of its fields *)
Definition sizeof_config : nat := 16.
Definition off_IPv4 : Z := 4.
Definition off_flags : Z := 8.
Definition off_port : Z := 12.
(** "NLM" and its terminator *)
Definition nlm_magic : mem := [78; 76; 77; 0].

(** ** Kernel services *)

Class NlmKernel (W : Type) := {
  SCE_KERNEL_ERROR_ILLEGAL_TYPE : Z;
  SCE_KERNEL_START_SUCCESS : Z;
  SCE_NET_AF_INET : Z;
  SCE_CTRL_LTRIGGER : Z;
  ksceNetHtons : Z -> Z;
  (** source address, size and old contents of the destination; the result
      and the new contents *)
  ksceKernelMemcpyUserToKernel : Z -> nat -> mem -> W -> (Z * mem) * W;
  ksceKernelMemcpyKernelToUser : Z -> mem -> W -> Z * W;
  ENTER_SYSCALL : W -> W;
  EXIT_SYSCALL : W -> W;
  ksceIoOpen : string -> W -> Z * W;
  (** result and the bytes read *)
  ksceIoRead : Z -> nat -> W -> (Z * mem) * W;
  ksceIoClose : Z -> W -> W;
  (** module, library NID, function NID; the result and the address stored *)
  module_get_export_func : string -> Z -> Z -> W -> Z * option Z;
  taiHookFunctionExportForKernel : string -> Z -> Z -> W -> Z * W;
  taiHookReleaseForKernel : Z -> W -> W;
  sceDebugDisableInfoDump : Z -> Z -> W -> Z * W;
  (** the handler is our callback ([true]) or NULL *)
  sceDebugSetHandlers : Z -> bool -> W -> W;
  sceDebugRegisterPutcharHandler : Z -> bool -> W -> W;
  sceKernelSysrootGetShellPid : Z -> W -> Z;
  ksceKernelCreateThread : string -> W -> Z * W;
  ksceKernelStartThread : Z -> W -> W;
  ksceKernelWaitThreadEnd : Z -> W -> W;
  ksceKernelDeleteThread : Z -> W -> W;
  ksceCtrlPeekButtons : W -> Z;
}.

(** ** Static state *)

(** [SceNetSockaddrIn] of the SDK: 16 bytes, of which 6 are [sin_zero] *)
Record sockaddr_in := SockaddrIn {
  sin_len : Z; sin_family : Z; sin_port : Z; s_addr : Z; sin_zero : mem }.

Record nlm (K W : Type) := Nlm {
  NetLoggingMgrFlags : Z;
  net_thread_run : Z;
  net_thread_uid : Z;
  server : sockaddr_in;
  NetLoggingMgrConfig : mem;
  hook_uid : list Z;
  resolved : gmap string Z;   (** the function pointers that are not NULL *)
  rb : ringbuf K;             (** the statics of ringbuf.c *)
  world : W;
}.
Arguments Nlm {K W}. Arguments NetLoggingMgrFlags {K W}. Arguments net_thread_run {K W}.
Arguments net_thread_uid {K W}. Arguments server {K W}. Arguments NetLoggingMgrConfig {K W}.
Arguments hook_uid {K W}. Arguments resolved {K W}. Arguments rb {K W}. Arguments world {K W}.

Section Updates.
Context {K W : Type}.
Implicit Types s : nlm K W.
Definition set_flags v s := Nlm v (net_thread_run s) (net_thread_uid s) (server s)
  (NetLoggingMgrConfig s) (hook_uid s) (resolved s) (rb s) (world s).
Definition set_thread r u s := Nlm (NetLoggingMgrFlags s) r u (server s)
  (NetLoggingMgrConfig s) (hook_uid s) (resolved s) (rb s) (world s).
Definition set_server v s := Nlm (NetLoggingMgrFlags s) (net_thread_run s) (net_thread_uid s) v
  (NetLoggingMgrConfig s) (hook_uid s) (resolved s) (rb s) (world s).
Definition set_config v s := Nlm (NetLoggingMgrFlags s) (net_thread_run s) (net_thread_uid s)
  (server s) v (hook_uid s) (resolved s) (rb s) (world s).
Definition set_hooks v s := Nlm (NetLoggingMgrFlags s) (net_thread_run s) (net_thread_uid s)
  (server s) (NetLoggingMgrConfig s) v (resolved s) (rb s) (world s).
Definition set_resolved v s := Nlm (NetLoggingMgrFlags s) (net_thread_run s) (net_thread_uid s)
  (server s) (NetLoggingMgrConfig s) (hook_uid s) v (rb s) (world s).
Definition set_rb (v : ringbuf K) (s : nlm K W) : nlm K W := Nlm (NetLoggingMgrFlags s) (net_thread_run s) (net_thread_uid s)
  (server s) (NetLoggingMgrConfig s) (hook_uid s) (resolved s) v (world s).
Definition set_world (v : W) (s : nlm K W) : nlm K W := Nlm (NetLoggingMgrFlags s) (net_thread_run s) (net_thread_uid s)
  (server s) (NetLoggingMgrConfig s) (hook_uid s) (resolved s) (rb s) v.
End Updates.

(** ** Operations *)

Section Manager.
Context {K W : Type} `{!KernelSync K, !NlmKernel W}.
Abbreviation M := (SM (nlm K W)).

Definition My_ksceNetInetPton (ip1 ip2 ip3 ip4 : Z) : Z :=
  u32 (u32 (u32 (u32 (0 + u32 (Z.shiftl (u8 ip1) 0)) + u32 (Z.shiftl (u8 ip2) 8))
    + u32 (Z.shiftl (u8 ip3) 16)) + u32 (Z.shiftl (u8 ip4) 24)).

(** a call of a kernel service *)
Definition kcall {A} (f : W -> A * W) : M A := fun s =>
  let '(a, w) := f (world s) in Done (a, set_world w s).
Definition kcall_ (f : W -> W) : M unit := fun s => Done (tt, set_world (f (world s)) s).

(** the pointer of a resolved function *)
Definition fn (slot : string) : M Z := fun s =>
  match resolved s !! slot with Some p => Done (p, s) | None => Fault FNull end.

Definition SceQafMgrForDriver_382C71E8_patch : M Z :=
  cfg ← sm_gets NetLoggingMgrConfig; flags ← sm_lift (load32 cfg off_flags);
  mret (Z.land flags NLM_CONFIG_FLAGS_BIT_QAF_DEBUG_PRINTF).

(** the two assignments to [server] that follow a new configuration *)
Definition set_server_from_config : M unit :=
  cfg ← sm_gets NetLoggingMgrConfig;
  ip ← sm_lift (load32 cfg off_IPv4); port ← sm_lift (load16 cfg off_port);
  sv ← sm_gets server;
  sm_modify (set_server (SockaddrIn (sin_len sv) (sin_family sv)
    (ksceNetHtons (if port =? 0 then DEFAULT_PORT else port)) ip (sin_zero sv))).

Definition NetLoggingMgrUpdateConfig (new_config : Z) : M Z :=
  _ ← kcall_ ENTER_SYSCALL;
  res ←
    ('(res, chk_magic) ← kcall (ksceKernelMemcpyUserToKernel new_config 4 [0; 0; 0; 0]);
     if res <? 0 then mret res
     else if negb (bool_decide (chk_magic = nlm_magic)) then mret SCE_KERNEL_ERROR_ILLEGAL_TYPE
     else
       old ← sm_gets NetLoggingMgrConfig;
       '(res, cfg) ← kcall (ksceKernelMemcpyUserToKernel new_config sizeof_config old);
       _ ← sm_modify (set_config cfg);
       if res <? 0 then mret res
       else _ ← set_server_from_config; mret 0);
  _ ← kcall_ EXIT_SYSCALL;
  mret res.

Definition NetLoggingMgrReadConfig (new_config : Z) : M Z :=
  _ ← kcall_ ENTER_SYSCALL;
  cfg ← sm_gets NetLoggingMgrConfig;
  res ← kcall (ksceKernelMemcpyKernelToUser new_config cfg);
  _ ← kcall_ EXIT_SYSCALL;
  mret res.

Definition NetLoggingMgrLoadConfigForKernel : M Z :=
  sv ← sm_gets server;
  _ ← sm_modify (set_server (SockaddrIn 16 SCE_NET_AF_INET (sin_port sv) (s_addr sv)
        (replicate 6 0)));
  fd ← kcall (ksceIoOpen "ur0:data/NetLoggingMgrConfig.bin");
  res ←
    (if fd <? 0 then mret fd
     else
       '(res, bytes) ← kcall (ksceIoRead fd sizeof_config);
       _ ← sm_modify (fun s => set_config (bytes ++ drop (length bytes) (NetLoggingMgrConfig s)) s);
       if negb (res =? Z.of_nat sizeof_config) then mret (-1)
       else
         cfg ← sm_gets NetLoggingMgrConfig;
         if negb (bool_decide (take 4 cfg = nlm_magic)) then mret 0
         else
           _ ← set_server_from_config;
           _ ← sm_modify (fun s =>
                 set_flags (Z.lor (NetLoggingMgrFlags s) NLM_BIT_CONFIG_LOADED) s);
           mret 0);
  _ ← (if 0 <? fd then kcall_ (ksceIoClose fd) else mret tt);
  mret res.

(** [None] is the indeterminate value of the uninitialised [ret]. *)
Definition NetLoggingMgrFinish : M (option Z) :=
  flags ← sm_gets NetLoggingMgrFlags;
  if Z.land flags NLM_BIT_INIT =? 0 then mret (Some 1)
  else
    r ← sm_gets net_thread_run;
    _ ← (if negb (r =? 0) then
           uid ← sm_gets net_thread_uid;
           _ ← sm_modify (set_thread 0 uid);
           kcall_ (ksceKernelWaitThreadEnd uid)
         else mret tt);
    uid ← sm_gets net_thread_uid;
    _ ← (if 0 <? uid then
           _ ← kcall_ (ksceKernelDeleteThread uid);
           sm_modify (fun s => set_thread (net_thread_run s) 0 s)
         else mret tt);
    h ← sm_gets (fun s => nth 0 (hook_uid s) 0);
    _ ← (if 0 <? h then kcall_ (taiHookReleaseForKernel h) else mret tt);
    p ← fn "sceDebugSetHandlersForKernel"; _ ← kcall_ (sceDebugSetHandlers p false);
    p ← fn "sceDebugRegisterPutcharHandlerForKernel";
    _ ← kcall_ (sceDebugRegisterPutcharHandler p false);
    b ← sm_gets rb; '(_, b) ← sm_lift (ringbuf_term b); _ ← sm_modify (set_rb b);
    _ ← sm_modify (fun s => set_flags (Z.land (NetLoggingMgrFlags s) (u32 (Z.lnot NLM_BIT_INIT))) s);
    mret None.

(** [GetExport(modname, lib_nid, func_nid, &slot)] *)
Definition GetExport (modname : string) (lib func : Z) (slot : string) : M Z := fun s =>
  let '(r, addr) := module_get_export_func modname lib func (world s) in
  Done (r, match addr with
           | Some p => set_resolved (<[slot := p]> (resolved s)) s
           | None => s
           end).

(** The libraries and NIDs tried for each pointer, in order. *)
Definition nlm_imports : list (string * string * list (Z * Z)) :=
  [ ("SceKernelModulemgr", "sceKernelGetModuleListForKernel",
      [(0xC445FA63, 0x97CF7B4E); (0x92C9FFC2, 0xB72C75A4)]);
    ("SceKernelModulemgr", "sceKernelGetModuleInfoForKernel",
      [(0xC445FA63, 0xD269F915); (0x92C9FFC2, 0xDAA90093)]);
    ("SceSysmem", "sceDebugRegisterPutcharHandlerForKernel",
      [(0x88C17370, 0xE6115A72); (0x13D793B7, 0x22546577)]);
    ("SceSysmem", "sceDebugSetHandlersForKernel",
      [(0x88C17370, 0x10067B7B); (0x13D793B7, 0x88AD6D0C)]);
    ("SceSysmem", "sceDebugGetPutcharHandlerForKernel",
      [(0x88C17370, 0xE783518C); (0x13D793B7, 0x8D474850)]);
    ("SceSysmem", "sceDebugDisableInfoDumpForKernel",
      [(0x88C17370, 0xF857CDD6); (0x13D793B7, 0xA465A31A)]);
    ("SceSysmem", "sceKernelSysrootGetShellPidForDriver", [(0x2ED7F97A, 0x05093E7B)]) ]%string.

(** the nested [if]s: the alternatives are tried until one succeeds *)
Fixpoint import_one (modname slot : string) (alts : list (Z * Z)) : M bool :=
  match alts with
  | [] => mret false
  | (lib, func) :: alts' =>
      r ← GetExport modname lib func slot;
      if r <? 0 then import_one modname slot alts' else mret true
  end.

Fixpoint import_all (imports : list (string * string * list (Z * Z))) : M bool :=
  match imports with
  | [] => mret true
  | (modname, slot, alts) :: rest =>
      ok ← import_one modname slot alts;
      if ok : bool then import_all rest else mret false
  end.

(** From the hook to the started thread. *)
Definition init_hooks_and_thread : M Z :=
  h ← kcall (taiHookFunctionExportForKernel "SceSysmem" 0xFFFFFFFF 0x382C71E8);
  _ ← sm_modify (fun s => set_hooks (<[0%nat := h]> (hook_uid s)) s);
  p ← fn "sceDebugDisableInfoDumpForKernel";
  ret ← kcall (sceDebugDisableInfoDump p 0);
  if ret <? 0 then mret ret
  else
    p ← fn "sceDebugSetHandlersForKernel"; _ ← kcall_ (sceDebugSetHandlers p true);
    p ← fn "sceDebugRegisterPutcharHandlerForKernel";
    _ ← kcall_ (sceDebugRegisterPutcharHandler p true);
    p ← fn "sceKernelSysrootGetShellPidForDriver";
    pid ← sm_gets (fun s => sceKernelSysrootGetShellPid p (world s));
    _ ← (if pid <? 0 then
           sm_modify (fun s => set_flags (Z.lor (NetLoggingMgrFlags s) NLM_BIT_DELAY_NET_THREAD) s)
         else mret tt);
    uid ← kcall (ksceKernelCreateThread "net_thread");
    _ ← sm_modify (fun s => set_thread (net_thread_run s) uid s);
    if uid <? 0 then mret uid
    else
      _ ← sm_modify (set_thread 1 uid);
      _ ← kcall_ (ksceKernelStartThread uid);
      mret 0.

Definition NetLoggingMgrInit : M Z :=
  _ ← sm_modify (set_hooks (replicate 0x20 0));
  flags ← sm_gets NetLoggingMgrFlags;
  ret ←
    (if negb (Z.land flags NLM_BIT_INIT =? 0) then mret 1
     else
       ret ← NetLoggingMgrLoadConfigForKernel;
       if ret <? 0 then mret ret
       else
         b ← sm_gets rb; '(ret, b) ← sm_lift (ringbuf_init RINGBUF_LEN b);
         _ ← sm_modify (set_rb b);
         if ret <? 0 then mret ret
         else
           ok ← import_all nlm_imports;
           if negb ok then mret (-1) else init_hooks_and_thread);
  _ ← sm_modify (fun s => set_flags (Z.lor (NetLoggingMgrFlags s) NLM_BIT_INIT) s);
  mret ret.

Definition module_start : M Z :=
  buttons ← sm_gets (fun s => ksceCtrlPeekButtons (world s));
  _ ← (if negb (Z.land buttons SCE_CTRL_LTRIGGER =? 0) then mret 0 else NetLoggingMgrInit);
  mret SCE_KERNEL_START_SUCCESS.
End Manager.

(** ** Laws of the kernel services *)

Class NlmKernelLaws (W : Type) `{NlmKernel W} := {
  (** a successful lookup stores the address *)
  export_ok : forall m l f w r a, module_get_export_func m l f w = (r, a) -> 0 <= r -> is_Some a;
  (** a read of [n] bytes stores as many bytes as it returns, at most [n] *)
  read_ok : forall fd n w r bs w', ksceIoRead fd n w = (r, bs, w') ->
    (length bs <= n)%nat /\ (0 <= r -> r = Z.of_nat (length bs)) /\ bytes_ok bs;
  (** a copy keeps the size of the destination *)
  copy_ok : forall a n old w r m w', ksceKernelMemcpyUserToKernel a n old w = (r, m, w') ->
    length old = n -> length m = n;
}.

Section Properties.
Context {K W : Type} `{!KernelSync K, !NlmKernel W, !NlmKernelLaws W}.
Implicit Types s : nlm K W.

Definition config_ok s : Prop := length (NetLoggingMgrConfig s) = sizeof_config.

(** The fields of a configuration. *)
Definition cfg_IPv4 (c : mem) : Z := match load32 c off_IPv4 with Done v => v | _ => 0 end.
Definition cfg_port (c : mem) : Z := match load16 c off_port with Done v => v | _ => 0 end.

(** [server] is the endpoint that configuration [c] asks for. *)
Definition server_matches (c : mem) (sv : sockaddr_in) : Prop :=
  s_addr sv = cfg_IPv4 c /\
  sin_port sv = ksceNetHtons (if cfg_port c =? 0 then DEFAULT_PORT else cfg_port c).

Lemma set_server_from_config_spec s : config_ok s ->
  exists sv, set_server_from_config s = Done (tt, set_server sv s) /\
    server_matches (NetLoggingMgrConfig s) sv /\
    sin_len sv = sin_len (server s) /\ sin_family sv = sin_family (server s).
Proof.
  intros Hc. unfold config_ok, sizeof_config in Hc.
  destruct (load_le_total 4 (NetLoggingMgrConfig s) off_IPv4) as [ip Hip];
    [done|unfold mlen; rewrite Hc; done|].
  destruct (load_le_total 2 (NetLoggingMgrConfig s) off_port) as [port Hport];
    [done|unfold mlen; rewrite Hc; done|].
  eexists. split.
  - unfold set_server_from_config, mbind, sm_bind, sm_gets, sm_lift, mbind, run_bind.
    rewrite Hip. cbv beta iota. rewrite Hport. reflexivity.
  - unfold server_matches, cfg_IPv4, cfg_port. rewrite Hip, Hport. done.
Qed.

Lemma update_config_correct s addr u :
  config_ok s -> length u = sizeof_config ->
  (forall n old w, (n <= sizeof_config)%nat ->
    exists w', ksceKernelMemcpyUserToKernel addr n old w = (0, take n u, w')) ->
  exists res s', NetLoggingMgrUpdateConfig addr s = Done (res, s') /\
    if bool_decide (take 4 u = nlm_magic)
    then res = 0 /\ NetLoggingMgrConfig s' = u /\ server_matches u (server s')
    else res = SCE_KERNEL_ERROR_ILLEGAL_TYPE /\
      NetLoggingMgrConfig s' = NetLoggingMgrConfig s /\ server s' = server s.
Proof.
  intros Hc Hu Hcopy.
  unfold NetLoggingMgrUpdateConfig, kcall, kcall_, mbind, sm_bind, sm_gets, sm_modify, mret, sm_ret.
  cbn. destruct (Hcopy 4%nat [0; 0; 0; 0] (ENTER_SYSCALL (world s)) ltac:(unfold sizeof_config; lia)) as [w1 ->]. cbn.
  case_bool_decide as Hm.
  - cbn. destruct (Hcopy sizeof_config (NetLoggingMgrConfig s) w1 (le_n _)) as [w2 ->]. cbn.
    rewrite (take_ge u) by (rewrite Hu; done).
    destruct (set_server_from_config_spec (set_config u (set_world w2 (set_world w1
      (set_world (ENTER_SYSCALL (world s)) s)))) Hu) as (sv & E & Hsv & _).
    unfold mbind, sm_bind in E |- *. rewrite E. cbn. eexists _, _. split; [done|]. done.
  - cbn. eexists _, _. split; [done|]. done.
Qed.

(** [NetLoggingMgrUpdateConfig] on readable user memory that holds [u]
    rejects a wrong magic, changing neither configuration nor endpoint, and
    otherwise installs [u] and points the logger at its address and port (8080
    when the port is 0). *)
Theorem update_config_spec s addr u :
  config_ok s -> length u = sizeof_config ->
  (forall n old w, (n <= sizeof_config)%nat ->
    exists w', ksceKernelMemcpyUserToKernel addr n old w = (0, take n u, w')) ->
  exists res s', NetLoggingMgrUpdateConfig addr s = Done (res, s') /\
    if bool_decide (take 4 u = nlm_magic)
    then res = 0 /\ NetLoggingMgrConfig s' = u /\ server_matches u (server s')
    else res = SCE_KERNEL_ERROR_ILLEGAL_TYPE /\
      NetLoggingMgrConfig s' = NetLoggingMgrConfig s /\ server s' = server s.
Proof. apply update_config_correct. Qed.

(** What loading the configuration and resolving imports leave alone. *)
Definition same_run s s' : Prop :=
  rb s' = rb s /\ hook_uid s' = hook_uid s /\ net_thread_run s' = net_thread_run s /\
  net_thread_uid s' = net_thread_uid s.

Lemma same_run_trans s1 s2 s3 : same_run s1 s2 -> same_run s2 s3 -> same_run s1 s3.
Proof. intros (?&?&?&?) (?&?&?&?). unfold same_run. by split_and!; etrans. Qed.

Local Ltac conclude := eexists _, _; split; [reflexivity|]; unfold config_ok, same_run; cbn; auto 10.

Lemma load_config_total s : config_ok s ->
  exists res s', NetLoggingMgrLoadConfigForKernel s = Done (res, s') /\ config_ok s' /\
    same_run s s' /\ resolved s' = resolved s.
Proof.
  intros Hc.
  unfold NetLoggingMgrLoadConfigForKernel, kcall, kcall_, mbind, sm_bind, sm_gets, sm_modify,
    mret, sm_ret. cbn.
  destruct (ksceIoOpen _ _) as [fd w1]. cbn.
  destruct (Z.ltb_spec fd 0); [cbn; destruct (Z.ltb_spec 0 fd); [lia|]; cbn; conclude|].
  destruct (ksceIoRead _ _ _) as [[r bs] w2] eqn:E. cbn.
  destruct (read_ok _ _ _ _ _ _ E) as (Hlen & Hr & _).
  assert (length (bs ++ drop (length bs) (NetLoggingMgrConfig s)) = sizeof_config) as Hc'.
  { rewrite length_app, length_drop. unfold config_ok in Hc. lia. }
  destruct (negb (r =? _)); [cbn; destruct (Z.ltb_spec 0 fd); cbn; conclude|].
  cbn. destruct (negb (bool_decide (take 4 _ = _)));
    [cbn; destruct (Z.ltb_spec 0 fd); cbn; conclude|].
  match goal with |- context[set_server_from_config ?x] =>
    destruct (set_server_from_config_spec x Hc') as (sv & E' & _) end.
  unfold mbind, sm_bind in E' |- *. rewrite E'. cbn.
  destruct (Z.ltb_spec 0 fd); cbn; conclude.
Qed.

Lemma import_one_spec modname slot alts s :
  exists ok s', import_one modname slot alts s = Done (ok, s') /\ same_run s s' /\
    NetLoggingMgrFlags s' = NetLoggingMgrFlags s /\
    NetLoggingMgrConfig s' = NetLoggingMgrConfig s /\
    (ok = true -> is_Some (resolved s' !! slot)) /\
    (forall x, is_Some (resolved s !! x) -> is_Some (resolved s' !! x)).
Proof.
  revert s; induction alts as [|[lib func] alts IH]; intros s; simpl.
  { by exists false, s. }
  unfold mbind, sm_bind, GetExport.
  destruct (module_get_export_func modname lib func (world s)) as [r a] eqn:E. cbn.
  set (s1 := match a with Some p => _ | None => _ end).
  assert (forall x, is_Some (resolved s !! x) -> is_Some (resolved s1 !! x)) as Hmono.
  { intros x Hx. subst s1. destruct a; [|done]. simpl.
    destruct (decide (slot = x)) as [->|]; [rewrite lookup_insert_eq; eauto|].
    by rewrite lookup_insert_ne. }
  assert (same_run s s1 /\ NetLoggingMgrFlags s1 = NetLoggingMgrFlags s /\
    NetLoggingMgrConfig s1 = NetLoggingMgrConfig s) as (R1 & F1 & C1)
    by (subst s1; destruct a; by repeat split).
  destruct (Z.ltb_spec r 0).
  - destruct (IH s1) as (ok & s' & E' & R2 & F2 & C2 & Hok & Hm).
    exists ok, s'. split; [exact E'|]. split; [by eapply same_run_trans|].
    split; [congruence|]. split; [congruence|]. auto.
  - eexists true, s1. split; [done|]. do 3 (split; [done|]). split; [intros _|done].
    destruct (export_ok _ _ _ _ _ _ E ltac:(lia)) as [p ->]. simpl.
    rewrite lookup_insert_eq. eauto.
Qed.

Lemma import_all_spec imports s :
  exists ok s', import_all imports s = Done (ok, s') /\ same_run s s' /\
    NetLoggingMgrFlags s' = NetLoggingMgrFlags s /\
    NetLoggingMgrConfig s' = NetLoggingMgrConfig s /\
    (forall x, is_Some (resolved s !! x) -> is_Some (resolved s' !! x)) /\
    (ok = true -> Forall (fun i => is_Some (resolved s' !! (i.1).2)) imports).
Proof.
  revert s; induction imports as [|[[m slot] alts] imports IH]; intros s; cbn [import_all].
  { exists true, s. do 5 (split; [done|]). by constructor. }
  destruct (import_one_spec m slot alts s) as (ok & s1 & E & R1 & F1 & C1 & Hok & Hm).
  rewrite (sm_bind_Done _ _ _ _ _ E). destruct ok.
  - destruct (IH s1) as (ok & s2 & E2 & R2 & F2 & C2 & Hm2 & Hall).
    exists ok, s2. split; [done|].
    split; [by eapply same_run_trans|]. do 2 (split; [congruence|]).
    split; [by auto|]. intros Ht. constructor; [|by auto]. simpl. auto.
  - exists false, s1. do 5 (split; [done|]). done.
Qed.

Lemma ringbuf_init_total n (b : ringbuf K) : exists r b', ringbuf_init n b = Done (r, b').
Proof. unfold ringbuf_init. repeat (case_match; eauto). Qed.

(** What a started logger looks like. *)
Definition started s : Prop :=
  net_thread_run s = 1 /\ 0 <= net_thread_uid s /\
  Forall (fun i => is_Some (resolved s !! (i.1).2)) nlm_imports.

Lemma init_hooks_and_thread_spec s :
  Forall (fun i => is_Some (resolved s !! (i.1).2)) nlm_imports ->
  exists ret s', init_hooks_and_thread s = Done (ret, s') /\ (ret = 0 -> started s') /\
    rb s' = rb s.
Proof.
  intros Hall. pose proof Hall as Hall'. unfold nlm_imports in Hall'.
  repeat (apply Forall_cons in Hall' as [[? ?] Hall']). cbn [fst snd] in *.
  unfold init_hooks_and_thread, kcall, kcall_, fn, mbind, sm_bind, sm_gets, sm_modify, mret, sm_ret.
  destruct (taiHookFunctionExportForKernel _ _ _ _) as [h w1]. cbn.
  repeat match goal with H : resolved s !! ?n = Some _ |- context[resolved s !! ?n] =>
    rewrite H; cbn end.
  destruct (sceDebugDisableInfoDump _ _ _) as [r w2]. cbn.
  destruct (Z.ltb_spec r 0).
  { eexists _, _. split; [reflexivity|]. split; [lia|done]. }
  cbn. repeat match goal with H : resolved s !! ?n = Some _ |- context[resolved s !! ?n] =>
    rewrite H; cbn end.
  destruct (sceKernelSysrootGetShellPid _ _ <? 0); cbn;
    destruct (ksceKernelCreateThread _ _) as [uid w3]; cbn;
    destruct (Z.ltb_spec uid 0); (eexists _, _; split; [reflexivity|]);
    (split; [|done]); first [lia|intros _; split_and!; [done|done|exact Hall]].
Qed.

#[local] Arguments import_all : simpl never.

Lemma flags_init_set (f : Z) : Z.land (Z.lor f NLM_BIT_INIT) NLM_BIT_INIT <> 0.
Proof.
  intros E. apply (f_equal (fun x => Z.testbit x 0)) in E.
  rewrite Z.land_spec, Z.lor_spec, Z.bits_0, orb_true_r in E. done.
Qed.

(** The part of [NetLoggingMgrInit] between its two flag accesses. *)
Lemma init_total s : config_ok s -> Z.land (NetLoggingMgrFlags s) NLM_BIT_INIT = 0 ->
  exists ret s1, NetLoggingMgrInit s =
      Done (ret, set_flags (Z.lor (NetLoggingMgrFlags s1) NLM_BIT_INIT) s1) /\
    (ret = 0 -> started s1 /\
      exists b r, ringbuf_init RINGBUF_LEN (rb s) = Done (r, b) /\ 0 <= r /\ rb s1 = b).
Proof.
  intros Hc Hf.
  unfold NetLoggingMgrInit, sm_gets, sm_modify, sm_lift, mbind, sm_bind, run_bind. cbn.
  rewrite Hf. cbn.
  match goal with |- context[NetLoggingMgrLoadConfigForKernel ?x] =>
    destruct (load_config_total x Hc) as (r1 & s1 & E1 & _ & (Hb1 & _) & _) end.
  rewrite E1. destruct (Z.ltb_spec r1 0); [eexists r1, s1; split; [reflexivity|lia]|].
  destruct (ringbuf_init_total RINGBUF_LEN (rb s)) as (r2 & b & E2).
  cbn in Hb1 |- *. rewrite Hb1. cbn. rewrite E2. cbn.
  destruct (Z.ltb_spec r2 0); [eexists r2, _; split; [reflexivity|lia]|].
  destruct (import_all_spec nlm_imports (set_rb b s1)) as (ok & s2 & E3 & (Hb2 & _) & _ & _ & _ & Hall).
  rewrite E3. destruct ok; cbn; [|eexists (-1), _; split; [reflexivity|lia]].
  destruct (init_hooks_and_thread_spec s2 (Hall eq_refl)) as (r3 & s3 & E4 & Hst & Hb3).
  rewrite E4. eexists r3, s3. split; [reflexivity|]. intros H3. split; [auto|].
  exists b, r2. split; [done|]. split; [done|]. by rewrite Hb3, Hb2.
Qed.

(** [NetLoggingMgrInit] on a module that is not initialised always ends
    and calls no unresolved function; when it returns 0 the callbacks' queue
    is initialised, every import is resolved, and the network thread exists
    and is told to run. *)
Theorem NetLoggingMgrInit_ok s : config_ok s ->
  Z.land (NetLoggingMgrFlags s) NLM_BIT_INIT = 0 ->
  exists ret s', NetLoggingMgrInit s = Done (ret, s') /\
    Z.land (NetLoggingMgrFlags s') NLM_BIT_INIT <> 0 /\
    (ret = 0 -> started s' /\
      exists b r, ringbuf_init RINGBUF_LEN (rb s) = Done (r, b) /\ 0 <= r /\ rb s' = b).
Proof.
  intros Hc Hf. destruct (init_total s Hc Hf) as (ret & s1 & E & H).
  eexists ret, _. split; [exact E|]. split; [apply flags_init_set|exact H].
Qed.

(** the initialised bit is set whatever [NetLoggingMgrInit] returned: a
    second call, also after a failed first one, returns 1, initialises nothing
    and forgets the uid of the installed hook, which [NetLoggingMgrFinish] then
    never releases. *)
Theorem NetLoggingMgrInit_again s : config_ok s ->
  Z.land (NetLoggingMgrFlags s) NLM_BIT_INIT = 0 ->
  exists ret s', NetLoggingMgrInit s = Done (ret, s') /\
    NetLoggingMgrInit s' = Done (1, set_hooks (replicate 0x20 0) s').
Proof.
  intros Hc Hf. destruct (init_total s Hc Hf) as (ret & s1 & E & _).
  eexists ret, _. split; [exact E|].
  unfold NetLoggingMgrInit, sm_gets, sm_modify, mbind, sm_bind. cbn.
  pose proof (flags_init_set (NetLoggingMgrFlags s1)) as Hset.
  destruct (Z.eqb_spec (Z.land (Z.lor (NetLoggingMgrFlags s1) NLM_BIT_INIT) NLM_BIT_INIT) 0);
    [done|]. cbn. do 2 f_equal. unfold set_flags, set_hooks. cbn. f_equal.
  by rewrite <- Z.lor_assoc, Z.lor_diag.
Qed.
End Properties.

(** ** A concrete kernel *)

Module SimNlm.
(** "NLM", address 192.168.0.2, no flags, port 0 *)
Definition sample_config : mem := [78; 76; 77; 0; 192; 168; 0; 2; 0; 0; 0; 0; 0; 0; 0; 0].

(** User memory holds [sample_config]; every service succeeds, except that the
    configuration file does not exist when [file] is [None]. *)
Record simw := SimW { file : option mem }.

#[export] Instance sim_nlm : NlmKernel simw := {
  SCE_KERNEL_ERROR_ILLEGAL_TYPE := -2147352573;
  SCE_KERNEL_START_SUCCESS := 0;
  SCE_NET_AF_INET := 2;
  SCE_CTRL_LTRIGGER := 0x100;
  ksceNetHtons p := Z.lor (Z.shiftl (Z.land p 0xff) 8) (Z.shiftr p 8);
  ksceKernelMemcpyUserToKernel _ n old w := (0, take n (sample_config ++ old), w);
  ksceKernelMemcpyKernelToUser _ _ w := (0, w);
  ENTER_SYSCALL w := w;
  EXIT_SYSCALL w := w;
  ksceIoOpen _ w := (match file w with Some _ => 3 | None => -1 end, w);
  ksceIoRead _ n w :=
    let bs := take n (filter (fun b => 0 <= b < 256) (default [] (file w))) in
    (Z.of_nat (length bs), bs, w);
  ksceIoClose _ w := w;
  module_get_export_func _ _ f _ := (0, Some f);
  taiHookFunctionExportForKernel _ _ _ w := (0x41, w);
  taiHookReleaseForKernel _ w := w;
  sceDebugDisableInfoDump _ _ w := (0, w);
  sceDebugSetHandlers _ _ w := w;
  sceDebugRegisterPutcharHandler _ _ w := w;
  sceKernelSysrootGetShellPid _ _ := 5;
  ksceKernelCreateThread _ w := (0x42, w);
  ksceKernelStartThread _ w := w;
  ksceKernelWaitThreadEnd _ w := w;
  ksceKernelDeleteThread _ w := w;
  ksceCtrlPeekButtons _ := 0;
}.

#[export] Instance sim_nlm_laws : NlmKernelLaws simw.
Proof.
  split.
  - intros m l f w r a [= <- <-] _. eauto.
  - intros fd n w r bs w' [= <- <- <-]. split; [rewrite length_take; lia|]. split; [done|].
    apply Forall_take. apply Forall_forall. by intros b [? _]%list_elem_of_filter.
  - intros a n old w r m w' [= _ <- _] Hold. rewrite firstn_length_le; [done|]. simpl. lia.
Qed.

Lemma sample_readable n old w : (n <= sizeof_config)%nat ->
  exists w', ksceKernelMemcpyUserToKernel 0 n old w = (0, take n sample_config, w').
Proof. intros Hn. exists w. cbv [ksceKernelMemcpyUserToKernel sim_nlm]. by rewrite take_app_le by exact Hn. Qed.

Definition unloaded : nlm SimKernel.simk simw :=
  Nlm 0 0 0 (SockaddrIn 0 0 0 0 []) (replicate 16 0) [] ∅
    (ringbuf_static (SimKernel.Sim 0 0x1000 0)) (SimW (Some sample_config)).
End SimNlm.
Import SimKernel SimNlm.

Lemma update_config_spec_witness : exists res s',
  NetLoggingMgrUpdateConfig 0 unloaded = Done (res, s') /\
  res = 0 /\ NetLoggingMgrConfig s' = sample_config /\ server_matches sample_config (server s').
Proof.
  exact (update_config_spec unloaded 0 sample_config eq_refl eq_refl
    sample_readable).
Defined.

Lemma NetLoggingMgrInit_ok_witness : exists ret s',
  NetLoggingMgrInit unloaded = Done (ret, s') /\
  Z.land (NetLoggingMgrFlags s') NLM_BIT_INIT <> 0 /\
  (ret = 0 -> started s' /\ exists b r, ringbuf_init RINGBUF_LEN (rb unloaded) = Done (r, b) /\
     0 <= r /\ rb s' = b).
Proof. exact (NetLoggingMgrInit_ok unloaded eq_refl eq_refl). Defined.

Lemma NetLoggingMgrInit_again_witness : exists ret s',
  NetLoggingMgrInit unloaded = Done (ret, s') /\
  NetLoggingMgrInit s' = Done (1, set_hooks (replicate 0x20 0) s').
Proof. exact (NetLoggingMgrInit_again unloaded eq_refl eq_refl). Defined.
