(* ===== verification/PsmLog.v ===== *)
(** * The USB logger (PSMLogUSB main.c)

    [usb_thread], the three hooks and [module_start]/[module_stop] of the
    plugin that sends the log queue over the USB serial driver.  The driver,
    the event flag that arbitrates between the thread and the storage hooks,
    and the other kernel services are the class [UsbKernel]; the queue is any
    [LogQueue]. *)

From stdpp Require Import prelude gmap strings.
From S2P Require Import Prelude Bytes RingBuf LogQueue LogNet NlmManager.

Create Rewrite HintDb usb.

Definition SERIAL_READY : Z := 1.
Definition SERIAL_STOP : Z := 2.

(** ** Kernel services *)

Class UsbKernel (W : Type) := {
  sceUsbSerialStatusForDriver : W -> Z * W;
  sceUsbSerialStartForDriver : W -> W;
  sceUsbSerialSetupForDriver : Z -> W -> W;
  sceUsbSerialCloseForDriver : W -> W;
  SceUsbSerialForDriver_6AA4EFA4 : W -> W;
  sceUsbSerialSendForDriver : list Z -> W -> Z * W;
  usb_DelayThread : Z -> W -> W;
  (** the event flag [g_usb_flag_uid]; a wait that would block is [None] *)
  usb_SetEventFlag : Z -> W -> W;
  usb_ClearEventFlag : Z -> W -> W;
  usb_WaitEventFlag_clear : Z -> W -> option W;
  (** the uid of a flag created with the given pattern *)
  usb_CreateEventFlag : Z -> W -> Z * W;
  (** segment offset in SceUsbSerial; the address, if any *)
  usb_module_get_offset : Z -> W -> option Z;
  taiGetModuleInfoForKernel : string -> W -> Z * W;
  ksceUdcdStopCurrentInternal : Z -> W -> W;
  (** calling the hooked function itself *)
  vstor_start_continue : Z -> W -> Z * W;
  vstor_stop_continue : W -> Z * W;
  (** observations: the bytes the host received, the flag's pattern *)
  usb_received : W -> list Z;
  usb_flag : W -> Z;
}.

Class UsbKernelLaws (W : Type) `{UsbKernel W} := {
  (** a send that succeeds hands over a prefix, one that fails nothing *)
  usb_send_ok : forall buf w n w', sceUsbSerialSendForDriver buf w = (n, w') -> 0 <= n ->
    exists k, usb_received w' = usb_received w ++ take k buf;
  usb_send_err : forall buf w n w', sceUsbSerialSendForDriver buf w = (n, w') -> n < 0 ->
    usb_received w' = usb_received w;
  usb_status_frame : forall w n w', sceUsbSerialStatusForDriver w = (n, w') ->
    usb_received w' = usb_received w;
  usb_start_frame : forall w, usb_received (sceUsbSerialStartForDriver w) = usb_received w;
  usb_setup_frame : forall n w, usb_received (sceUsbSerialSetupForDriver n w) = usb_received w;
  usb_6AA4_frame : forall w, usb_received (SceUsbSerialForDriver_6AA4EFA4 w) = usb_received w;
  usb_delay_frame : forall n w, usb_received (usb_DelayThread n w) = usb_received w;
  usb_set_frame : forall n w, usb_received (usb_SetEventFlag n w) = usb_received w;
  usb_clear_frame : forall n w, usb_received (usb_ClearEventFlag n w) = usb_received w;
  usb_wait_frame : forall n w w', usb_WaitEventFlag_clear n w = Some w' ->
    usb_received w' = usb_received w;
  (** event flags: set adds bits, clear keeps the bits given, a wait needs all
      of its bits *)
  usb_set_ok : forall n w, usb_flag (usb_SetEventFlag n w) = Z.lor (usb_flag w) n;
  usb_clear_ok : forall n w, usb_flag (usb_ClearEventFlag n w) = Z.land (usb_flag w) n;
  usb_wait_ok : forall n w, is_Some (usb_WaitEventFlag_clear n w) <-> Z.land (usb_flag w) n = n;
}.

(** ** The thread *)

Section Thread.
Context {Q W : Type} `{!LogQueue Q, !UsbKernel W}.

Inductive usb_pc : Type :=
  | ULoop
  | UConnect (buf : list Z)
  | UWaitStop (ret : Z) (buf : list Z)
  | USend (buf : list Z)
  | UExit.

Record usb_state := UsbState { us_pc : usb_pc; us_queue : Q; us_world : W }.

Definition usb_thread_step (g_usb_running : Z) (s : usb_state) : run usb_state :=
  let '(UsbState pc q w) := s in
  match pc with
  | ULoop =>
      if g_usb_running =? 0 then Done (UsbState UExit q w)
      else '(buf, q) ← lq_get_wait 0x400 q; Done (UsbState (UConnect buf) q w)
  | UConnect buf =>
      let '(ret, w) := sceUsbSerialStatusForDriver w in
      if u32 ret =? 0x80244401 then Done (UsbState (UWaitStop ret buf) q w)
      else if ret =? 1 then Done (UsbState (USend buf) q w)
      else
        let w := usb_DelayThread (1000 * 1000) w in
        if ret =? 0 then Done (UsbState (UConnect buf) q w)
        else Done (UsbState (UWaitStop ret buf) q w)
  | UWaitStop ret buf =>
      match usb_WaitEventFlag_clear SERIAL_STOP w with
      | None => Done s
      | Some w =>
          let w := sceUsbSerialStartForDriver w in
          let w := sceUsbSerialSetupForDriver 1 w in
          let w := if u32 ret =? 0x80244403
                   then sceUsbSerialSetupForDriver 1 (SceUsbSerialForDriver_6AA4EFA4 w)
                   else w in
          let w := usb_SetEventFlag SERIAL_READY w in
          Done (UsbState (USend buf) q w)
      end
  | USend buf =>
      if Z.of_nat (length buf) =? 0 then Done (UsbState ULoop q w)
      else
        let w := usb_ClearEventFlag SERIAL_READY w in
        let '(r, w) := sceUsbSerialSendForDriver buf w in
        if r <? 0 then
          let w := usb_SetEventFlag SERIAL_STOP w in
          let w := usb_DelayThread (1000 * 1000) w in
          Done (UsbState (UConnect buf) q w)
        else
          '(buf, q) ← lq_get_wait 0x400 q;
          let w := usb_SetEventFlag SERIAL_READY w in
          if 0 <? Z.of_nat (length buf) then Done (UsbState (USend buf) q w)
          else Done (UsbState ULoop q w)
  | UExit => Done s
  end.

Fixpoint usb_thread_steps (n : nat) (g_usb_running : Z) (s : usb_state) : run usb_state :=
  match n with
  | O => Done s
  | S n' => s' ← usb_thread_step g_usb_running s; usb_thread_steps n' g_usb_running s'
  end.

(** *** The hooks *)

Definition cute_girls_dying (w : W) : W :=
  sceUsbSerialCloseForDriver (SceUsbSerialForDriver_6AA4EFA4 w).

Definition SceUsbMtpForDriver_6FC97594_patched : Z := 0.

(** [None] while the wait blocks. *)
Definition sceUsbstorVStorStart_patched (r0 : Z) (w : W) : option (Z * W) :=
  w ← usb_WaitEventFlag_clear SERIAL_READY w;
  let w := cute_girls_dying w in
  let w := ksceUdcdStopCurrentInternal 2 w in
  Some (vstor_start_continue r0 w).

Definition sceUsbstorVStorStop_patched (w : W) : Z * W :=
  let w := ksceUdcdStopCurrentInternal 2 w in
  let w := usb_SetEventFlag SERIAL_STOP w in
  vstor_stop_continue w.

(** ** Properties *)

Definition usb_in_flight (pc : usb_pc) : list Z :=
  match pc with UConnect buf | UWaitStop _ buf | USend buf => buf | _ => [] end.

(** Received, in flight, queued. *)
Definition usb_carried (q : list Z) (s : usb_state) : list Z :=
  usb_received (us_world s) ++ usb_in_flight (us_pc s) ++ q.

Context `{!LogQueueLaws Q, !UsbKernelLaws W}.

Lemma usb_get_split cap q qs : lq_holds cap q qs -> exists got rest qs',
  lq_get_wait 0x400 qs = Done (got, qs') /\ lq_holds cap rest qs' /\ got ++ rest = q.
Proof.
  intros Hq. destruct (lq_get_ok _ _ _ 0x400 Hq) as (qs' & E & Hq').
  eexists _, _, qs'. split; [exact E|]. split; [exact Hq'|]. apply take_drop.
Qed.

#[local] Hint Rewrite usb_start_frame usb_setup_frame usb_6AA4_frame usb_delay_frame usb_set_frame
  usb_clear_frame : usb.

(** One step keeps the order of the bytes and duplicates none. *)
Lemma usb_thread_step_bytes cap r q s : lq_holds cap q (us_queue s) ->
  exists s' q', usb_thread_step r s = Done s' /\ lq_holds cap q' (us_queue s') /\
    usb_carried q' s' `sublist_of` usb_carried q s.
Proof.
  destruct s as [pc qs w]. cbn [us_queue]. intros Hq.
  unfold usb_carried. destruct pc as [|buf|ret buf|buf|]; cbn [usb_thread_step].
  - case_match; [by eexists _, q|].
    destruct (usb_get_split _ _ _ Hq) as (got & rest & qs' & -> & Hq' & Hs).
    eexists _, rest. split; [reflexivity|]. split; [done|]. cbn. by rewrite Hs.
  - destruct (sceUsbSerialStatusForDriver w) as [ret w'] eqn:E.
    apply usb_status_frame in E.
    repeat case_match; eexists _, q; (split; [reflexivity|]); (split; [done|]); cbn;
      autorewrite with usb; by rewrite E.
  - destruct (usb_WaitEventFlag_clear _ _) as [w'|] eqn:E; [|by eexists _, q].
    apply usb_wait_frame in E. eexists _, q. split; [reflexivity|]. split; [done|]. cbn.
    autorewrite with usb. case_match; autorewrite with usb; by rewrite E.
  - destruct (Z.eqb_spec (Z.of_nat (length buf)) 0) as [Hb|_].
    { destruct buf; [|done]. by eexists _, q. }
    destruct (sceUsbSerialSendForDriver buf _) as [n w'] eqn:E.
    destruct (Z.ltb_spec n 0) as [Hn|Hn].
    + apply usb_send_err in E; [|done]. eexists _, q. split; [reflexivity|]. split; [done|].
      cbn. autorewrite with usb. by rewrite E, usb_clear_frame.
    + destruct (usb_send_ok _ _ _ _ E Hn) as [k Hk]. rewrite usb_clear_frame in Hk.
      destruct (usb_get_split _ _ _ Hq) as (got & rest & qs' & -> & Hq' & Hs).
      assert (forall pc', usb_in_flight pc' = got ->
        usb_received (usb_SetEventFlag SERIAL_READY w') ++ usb_in_flight pc' ++ rest
          `sublist_of` usb_received w ++ buf ++ q) as Hsub.
      { intros pc' ->. rewrite usb_set_frame, Hk, Hs, <- app_assoc.
        apply sublist_app; [done|]. apply sublist_app; [apply sublist_take|done]. }
      cbn. destruct (Z.ltb_spec 0 (Z.of_nat (length got))) as [Hg|Hg].
      * eexists _, rest. split; [reflexivity|]. split; [done|]. by apply (Hsub (USend got)).
      * eexists _, rest. split; [reflexivity|]. split; [done|]. apply (Hsub ULoop).
        destruct got; [done|]. cbn [length] in Hg. lia.
  - by eexists _, q.
Qed.

(** however the driver answers, after any number of steps of [usb_thread]
    the bytes the host received, followed by those in flight and those queued,
    are in the order they were logged, none of them twice. *)
Theorem usb_delivered_in_order cap n r q s : lq_holds cap q (us_queue s) ->
  exists s' q', usb_thread_steps n r s = Done s' /\ lq_holds cap q' (us_queue s') /\
    usb_received (us_world s') ++ usb_in_flight (us_pc s') ++ q'
      `sublist_of` usb_received (us_world s) ++ usb_in_flight (us_pc s) ++ q.
Proof.
  revert s q; induction n as [|n IH]; intros s q Hq; simpl; [by eexists s, q|].
  destruct (usb_thread_step_bytes cap r q s Hq) as (s1 & q1 & -> & Hq1 & H1). simpl.
  destruct (IH s1 q1 Hq1) as (s2 & q2 & E & Hq2 & H2).
  exists s2, q2. split; [done|]. split; [done|]. by etrans.
Qed.

(** the thread means to hold back the storage hook while it sends, but
    [ksceKernelClearEventFlag] keeps the bits it is given: after the call with
    [SERIAL_READY] a flag that was ready is still ready, so the wait of
    [sceUsbstorVStorStart_patched] succeeds, and it is [SERIAL_STOP] that is
    lost. *)
Theorem clear_ready_leaves_ready (w : W) :
  Z.testbit (usb_flag w) 0 = true ->
  is_Some (sceUsbstorVStorStart_patched 0 (usb_ClearEventFlag SERIAL_READY w)) /\
  usb_WaitEventFlag_clear SERIAL_STOP (usb_ClearEventFlag SERIAL_READY w) = None.
Proof.
  intros Hr. split.
  - unfold sceUsbstorVStorStart_patched.
    destruct (usb_WaitEventFlag_clear SERIAL_READY (usb_ClearEventFlag SERIAL_READY w)) as [w'|] eqn:E;
      [cbn; eauto|].
    destruct (usb_wait_ok SERIAL_READY (usb_ClearEventFlag SERIAL_READY w)) as [_ H].
    rewrite E, usb_clear_ok in H. destruct H as [? ?]; [|done].
    apply Z.bits_inj'. intros i Hi. rewrite !Z.land_spec.
    destruct (Z.testbit SERIAL_READY i) eqn:Ei; rewrite ?andb_false_r; [|done].
    destruct (decide (i = 0)) as [->|]; [by rewrite Hr|].
    exfalso. change SERIAL_READY with (2 ^ 0) in Ei. by rewrite Z.pow2_bits_false in Ei by lia.
  - destruct (usb_WaitEventFlag_clear SERIAL_STOP (usb_ClearEventFlag SERIAL_READY w)) as [w'|] eqn:E;
      [|done].
    destruct (usb_wait_ok SERIAL_STOP (usb_ClearEventFlag SERIAL_READY w)) as [H _].
    rewrite E, usb_clear_ok, <- Z.land_assoc, Z.land_0_r in H. discriminate H. eauto.
Qed.
End Thread.

(** ** Loading and unloading *)

Record psm (K W : Type) := Psm {
  g_usb_running : Z;
  g_usb_thread_uid : Z;
  g_usb_flag_uid : Z;
  hook : list Z;
  psm_resolved : gmap string Z;   (** function pointers that are not NULL *)
  psm_rb : ringbuf K;
  psm_world : W;
}.
Arguments Psm {K W}. Arguments g_usb_running {K W}. Arguments g_usb_thread_uid {K W}.
Arguments g_usb_flag_uid {K W}. Arguments hook {K W}. Arguments psm_resolved {K W}.
Arguments psm_rb {K W}. Arguments psm_world {K W}.

Section Module.
Context {K W : Type} `{!KernelSync K, !NlmKernel W, !UsbKernel W}.
Abbreviation M := (SM (psm K W)).

Definition psm_call {A} (f : W -> A * W) : M A := fun s =>
  let '(a, w) := f (psm_world s) in
  Done (a, Psm (g_usb_running s) (g_usb_thread_uid s) (g_usb_flag_uid s) (hook s)
             (psm_resolved s) (psm_rb s) w).
Definition psm_call_ (f : W -> W) : M unit := psm_call (fun w => (tt, f w)).
Definition psm_fn (slot : string) : M Z := fun s =>
  match psm_resolved s !! slot with Some p => Done (p, s) | None => Fault FNull end.
Definition psm_store (slot : string) (addr : option Z) : M unit := fun s =>
  Done (tt, Psm (g_usb_running s) (g_usb_thread_uid s) (g_usb_flag_uid s) (hook s)
    (match addr with Some p => <[slot := p]> (psm_resolved s) | None => psm_resolved s end)
    (psm_rb s) (psm_world s)).
Definition psm_set_thread (r u : Z) : M unit := fun s =>
  Done (tt, Psm r u (g_usb_flag_uid s) (hook s) (psm_resolved s) (psm_rb s) (psm_world s)).
Definition psm_set_flag (u : Z) : M unit := fun s =>
  Done (tt, Psm (g_usb_running s) (g_usb_thread_uid s) u (hook s) (psm_resolved s) (psm_rb s)
    (psm_world s)).
Definition psm_set_hook (i : nat) (h : Z) : M unit := fun s =>
  Done (tt, Psm (g_usb_running s) (g_usb_thread_uid s) (g_usb_flag_uid s) (<[i := h]> (hook s))
    (psm_resolved s) (psm_rb s) (psm_world s)).
Definition psm_ringbuf {A} (m : SM (ringbuf K) A) : M A := fun s =>
  '(a, b) ← m (psm_rb s);
  Done (a, Psm (g_usb_running s) (g_usb_thread_uid s) (g_usb_flag_uid s) (hook s)
             (psm_resolved s) b (psm_world s)).

(** [if(module_get_export_func(...) < 0) module_get_export_func(...)] *)
Definition psm_export (slot : string) (lib1 f1 lib2 f2 : Z) : M unit :=
  '(r, a) ← psm_call (fun w => (module_get_export_func "SceSysmem" lib1 f1 w, w));
  _ ← psm_store slot a;
  if r <? 0 then
    '(_, a) ← psm_call (fun w => (module_get_export_func "SceSysmem" lib2 f2 w, w));
    psm_store slot a
  else mret tt.

Definition psm_offset (slot : string) (offset : Z) : M unit :=
  a ← psm_call (fun w => (usb_module_get_offset offset w, w)); psm_store slot a.

Definition module_start : M Z :=
  u ← psm_call (usb_CreateEventFlag SERIAL_STOP); _ ← psm_set_flag u;
  h ← psm_call (taiHookFunctionExportForKernel "SceUsbMtp" 0xFFFFFFFF 0x6FC97594);
  _ ← psm_set_hook 0 h;
  h ← psm_call (taiHookFunctionExportForKernel "SceUsbstorVStorDriver" 0xFFFFFFFF 0xB606F1AF);
  _ ← psm_set_hook 1 h;
  h ← psm_call (taiHookFunctionExportForKernel "SceUsbstorVStorDriver" 0xFFFFFFFF 0x0FD67059);
  _ ← psm_set_hook 2 h;
  _ ← psm_export "sceDebugRegisterPutcharHandlerForKernel" 0x88C17370 0xE6115A72 0x13D793B7 0x22546577;
  _ ← psm_export "sceDebugSetHandlersForKernel" 0x88C17370 0x10067B7B 0x13D793B7 0x88AD6D0C;
  _ ← psm_export "sceDebugGetPutcharHandlerForKernel" 0x88C17370 0xE783518C 0x13D793B7 0x8D474850;
  _ ← psm_export "sceDebugDisableInfoDumpForKernel" 0x88C17370 0xF857CDD6 0x13D793B7 0xA465A31A;
  _ ← psm_ringbuf (ringbuf_init RINGBUF_LEN);
  p ← psm_fn "sceDebugDisableInfoDumpForKernel"; _ ← psm_call (sceDebugDisableInfoDump p 0);
  p ← psm_fn "sceDebugSetHandlersForKernel"; _ ← psm_call_ (sceDebugSetHandlers p true);
  p ← psm_fn "sceDebugRegisterPutcharHandlerForKernel";
  _ ← psm_call_ (sceDebugRegisterPutcharHandler p true);
  _ ← psm_call (taiGetModuleInfoForKernel "SceUsbSerial");
  _ ← psm_offset "sceUsbSerialStatusForDriver" (Z.lor 0x1E78 1);
  _ ← psm_offset "sceUsbSerialStartForDriver" (Z.lor 0x168C 1);
  _ ← psm_offset "sceUsbSerialSetupForDriver" (Z.lor 0x17A0 1);
  _ ← psm_offset "SceUsbSerialForDriver_6AA4EFA4" (Z.lor 0x18F4 1);
  _ ← psm_offset "sceUsbSerialSendForDriver" (Z.lor 0x1A68 1);
  _ ← psm_offset "sceUsbSerialCloseForDriver" (Z.lor 0x1738 1);
  u ← psm_call (ksceKernelCreateThread "usb_thread");
  r ← sm_gets g_usb_running; _ ← psm_set_thread r u;
  _ ← psm_call_ (ksceKernelStartThread u);
  mret SCE_KERNEL_START_SUCCESS.

(** The value returned is the constant [SCE_KERNEL_STOP_SUCCESS]. *)
Definition module_stop (SCE_KERNEL_STOP_SUCCESS : Z) : M Z :=
  p ← psm_fn "sceDebugSetHandlersForKernel"; _ ← psm_call_ (sceDebugSetHandlers p false);
  p ← psm_fn "sceDebugRegisterPutcharHandlerForKernel";
  _ ← psm_call_ (sceDebugRegisterPutcharHandler p false);
  r ← sm_gets g_usb_running; u ← sm_gets g_usb_thread_uid;
  _ ← (if negb (r =? 0) then
         _ ← psm_set_thread 0 u; psm_call_ (ksceKernelWaitThreadEnd u)
       else mret tt);
  r ← sm_gets g_usb_running; u ← sm_gets g_usb_thread_uid;
  _ ← (if 0 <? u then
         _ ← psm_call_ (ksceKernelDeleteThread u); psm_set_thread r 0
       else mret tt);
  _ ← psm_ringbuf ringbuf_term;
  _ ← psm_fn "SceUsbSerialForDriver_6AA4EFA4"; _ ← psm_fn "sceUsbSerialCloseForDriver";
  _ ← psm_call_ cute_girls_dying;
  hs ← sm_gets hook;
  _ ← psm_call_ (taiHookReleaseForKernel (nth 0 hs 0));
  _ ← psm_call_ (taiHookReleaseForKernel (nth 1 hs 0));
  _ ← psm_call_ (taiHookReleaseForKernel (nth 2 hs 0));
  mret SCE_KERNEL_STOP_SUCCESS.
End Module.

(** ** A concrete driver *)

Module SimUsb.
(** The bytes received and the flag; the driver is always connected. *)
Record simusb := SimUsbS { su_recv : list Z; su_flag : Z }.

#[export] Instance sim_usb : UsbKernel simusb := {
  sceUsbSerialStatusForDriver w := (1, w);
  sceUsbSerialStartForDriver w := w;
  sceUsbSerialSetupForDriver _ w := w;
  sceUsbSerialCloseForDriver w := w;
  SceUsbSerialForDriver_6AA4EFA4 w := w;
  sceUsbSerialSendForDriver buf w :=
    (Z.of_nat (length buf), SimUsbS (su_recv w ++ buf) (su_flag w));
  usb_DelayThread _ w := w;
  usb_SetEventFlag n w := SimUsbS (su_recv w) (Z.lor (su_flag w) n);
  usb_ClearEventFlag n w := SimUsbS (su_recv w) (Z.land (su_flag w) n);
  usb_WaitEventFlag_clear n w :=
    if decide (Z.land (su_flag w) n = n) then Some (SimUsbS (su_recv w) 0) else None;
  usb_CreateEventFlag n w := (7, SimUsbS (su_recv w) n);
  usb_module_get_offset n _ := Some n;
  taiGetModuleInfoForKernel _ w := (0, w);
  ksceUdcdStopCurrentInternal _ w := w;
  vstor_start_continue r w := (r, w);
  vstor_stop_continue w := (0, w);
  usb_received w := su_recv w;
  usb_flag w := su_flag w;
}.

#[export] Instance sim_usb_laws : UsbKernelLaws simusb.
Proof.
  split; simpl; try done.
  - intros buf w n w' [= <- <-] _. exists (length buf). by rewrite firstn_all.
  - intros buf w n w' [= <- _]. lia.
  - by intros w n w' [= _ <-].
  - intros n w w'. case_decide; [|done]. by intros [= <-].
  - intros n w. case_decide; split; try done; by intros [].
Qed.
End SimUsb.
Import SimKernel SimUsb.

Lemma usb_delivered_in_order_witness : exists s' q',
  usb_thread_steps 9 1 (UsbState ULoop (ready 8 4) (SimUsbS [] 0)) = Done s' /\
  lq_holds 3 q' (us_queue s') /\
  usb_received (us_world s') ++ usb_in_flight (us_pc s') ++ q' `sublist_of` [].
Proof.
  exact (usb_delivered_in_order 3 9 1 [] (UsbState ULoop (ready 8 4) (SimUsbS [] 0)) ready_ok).
Defined.

Lemma clear_ready_leaves_ready_witness :
  is_Some (sceUsbstorVStorStart_patched 0 (usb_ClearEventFlag SERIAL_READY (SimUsbS [] 3))) /\
  usb_WaitEventFlag_clear SERIAL_STOP (usb_ClearEventFlag SERIAL_READY (SimUsbS [] 3)) = None.
Proof. exact (clear_ready_leaves_ready (SimUsbS [] 3) eq_refl). Defined.
