(* ===== verification/Deobf.v ===== *)
(** * Undoing the ARZL branch filter (unarzl.c, [arzl_deobfuscate])

    Before compression the position-relative Thumb BL instructions of a segment
    were made absolute (and in MOVT two nibbles were exchanged), which
    compresses better; [arzl_deobfuscate] undoes or, for version 1, applies
    that filter in place.  The three loops are translated over a buffer; each
    is shown to be a walk over the list of bytes ([walk]) that rewrites some
    words, and the round trips are proved for walks. *)

From stdpp Require Import prelude.
From S2P Require Import Prelude Bytes.

(** ** The expressions of the loops *)

(** [(data & 0xF800F800) == 0xF800F000] *)
Definition is_bl (data : Z) : bool := Z.land data 0xF800F800 =? 0xF800F000.
(** [(data & 0xF800F800) >> 27] *)
Definition change_stride (data : Z) : Z := Z.shiftr (Z.land data 0xF800F800) 27.
(** [(data & 0x8000FBF0) == 0x0000F2C0]: MOVT only, MOVW has 0xF240. *)
Definition is_movw (data : Z) : bool := Z.land data 0x8000FBF0 =? 0x0000F2C0.
(** [((data >> 16) & 0xFFC007FF) | ((data & 0x7FF) << 11)] *)
Definition bl_field (data : Z) : Z :=
  Z.lor (Z.land (Z.shiftr data 16) 0xFFC007FF) (u32 (Z.shiftl (Z.land data 0x7FF) 11)).
(** [((((v & 0x7FF) << 16) | 0xF800F000) & 0xFFFFF800) | ((v >> 11) & 0x7FF)] *)
Definition bl_insn (v : Z) : Z :=
  Z.lor (Z.land (Z.lor (u32 (Z.shiftl (Z.land v 0x7FF) 16)) 0xF800F000) 0xFFFFF800)
        (Z.land (Z.shiftr v 11) 0x7FF).
(** [(data & 0xF0FFFFF0) | ((data & 0xF) << 24) | ((data >> 24) & 0xF)]:
    imm4 and the register exchanged. *)
Definition movw_insn (data : Z) : Z :=
  Z.lor (Z.lor (Z.land data 0xF0FFFFF0) (u32 (Z.shiftl (Z.land data 0xF) 24)))
        (Z.land (Z.shiftr data 24) 0xF).

(** ** The three loops

    [buf] is the offset of the pointer from [buffer], [len] that of [bufend]. *)

Fixpoint deobf_v2_loop (fuel : nat) (m : mem) (len buf : Z) : run mem :=
  match fuel with
  | O => OutOfFuel
  | S fuel' =>
      data ← load32 m buf;
      let buf := buf + 4 in
      let offset := buf in
      '(m, buf) ←
        (if is_bl data then
           let v14 := u32 (bl_field data - Z.shiftr offset 1) in
           m ← store32 m (buf - 4) (bl_insn v14); Done (m, buf)
         else if is_movw data then
           m ← store32 m (buf - 4) (movw_insn data); Done (m, buf)
         else if change_stride data =? 30 then Done (m, buf - 2)
         else Done (m, buf));
      if buf <? len then deobf_v2_loop fuel' m len buf else Done m
  end.

Fixpoint deobf_v0_loop (fuel : nat) (m : mem) (len buf : Z) : run mem :=
  match fuel with
  | O => OutOfFuel
  | S fuel' =>
      data ← load32 m buf;
      let buf := buf + 4 in
      '(m, buf) ←
        (if is_bl data then
           let v14 := u32 (bl_field data - Z.shiftr buf 1) in
           m ← store32 m (buf - 4) (bl_insn v14); Done (m, buf)
         else if change_stride data =? 30 then Done (m, buf - 2)
         else Done (m, buf));
      if buf <? len then deobf_v0_loop fuel' m len buf else Done m
  end.

(** Version 1 enters its loop from the first word: [v10] is the word read last
    and [buf_1] the offset after it; the body is that of [LABEL_13] or
    [LABEL_9], and the test at the bottom that of the [while]. *)
Fixpoint deobf_v1_loop (fuel : nat) (m : mem) (len buf_1 v10 : Z) : run mem :=
  match fuel with
  | O => OutOfFuel
  | S fuel' =>
      '(m, buf_1) ←
        (if is_bl v10 then
           let v13 := u32 (bl_field v10 + Z.shiftr buf_1 1) in
           m ← store32 m (buf_1 - 4) (bl_insn v13); Done (m, buf_1)
         else Done (m, if change_stride v10 =? 30 then buf_1 - 2 else buf_1));
      if buf_1 <? len then
        v12 ← load32 m buf_1; deobf_v1_loop fuel' m len (buf_1 + 4) v12
      else Done m
  end.

(** The buffer afterwards; the C function returns [len]. *)
Definition arzl_deobfuscate (m : mem) (len version : Z) : run mem :=
  if len =? 0 then Done m
  else
    let fuel := S (Z.to_nat len) in
    if version =? 2 then deobf_v2_loop fuel m len 0
    else if version =? 1 then
      v10 ← load32 m 0; deobf_v1_loop fuel m len 4 v10
    else deobf_v0_loop fuel m len 0.

(** ** Words as bytes *)

Definition le4 (b0 b1 b2 b3 : Z) : Z := b0 + 256 * (b1 + 256 * (b2 + 256 * b3)).

Definition bytes4 (w : Z) : mem :=
  [u8 w; u8 (w / 256); u8 (w / 256 / 256); u8 (w / 256 / 256 / 256)].

Definition is_byte (b : Z) : Prop := 0 <= b < 256.

Lemma le4_range b0 b1 b2 b3 : is_byte b0 -> is_byte b1 -> is_byte b2 -> is_byte b3 ->
  0 <= le4 b0 b1 b2 b3 < 2 ^ 32.
Proof. unfold is_byte, le4. lia. Qed.

Lemma byte_div b x : is_byte b -> (b + 256 * x) / 256 = x.
Proof. unfold is_byte. intros. symmetry. apply (Z.div_unique _ _ _ b); lia. Qed.
Lemma byte_mod b x : is_byte b -> u8 (b + 256 * x) = b.
Proof. unfold is_byte. intros. symmetry. apply (Z.mod_unique _ _ x); lia. Qed.

Lemma bytes4_le4 b0 b1 b2 b3 : is_byte b0 -> is_byte b1 -> is_byte b2 -> is_byte b3 ->
  bytes4 (le4 b0 b1 b2 b3) = [b0; b1; b2; b3].
Proof.
  intros. unfold bytes4, le4. rewrite !byte_div, !byte_mod by done.
  do 3 f_equal. rewrite u8_small; [done|]. by unfold is_byte in *.
Qed.

Lemma le4_bytes4 w : 0 <= w < 2 ^ 32 ->
  le4 (u8 w) (u8 (w / 256)) (u8 (w / 256 / 256)) (u8 (w / 256 / 256 / 256)) = w.
Proof.
  intros Hw. unfold le4, u8. change (2 ^ 8) with 256.
  assert (0 <= w / 256 / 256 / 256 < 256) as Hd.
  { rewrite !Z.div_div by lia. split; [apply Z.div_pos; lia|].
    apply Z.div_lt_upper_bound; lia. }
  rewrite (Z.mod_small (w / 256 / 256 / 256)) by exact Hd.
  pose proof (Z.div_mod w 256 ltac:(lia)). pose proof (Z.div_mod (w / 256) 256 ltac:(lia)).
  pose proof (Z.div_mod (w / 256 / 256) 256 ltac:(lia)). lia.
Qed.

Lemma load32_app pre b0 b1 b2 b3 l :
  load32 (pre ++ b0 :: b1 :: b2 :: b3 :: l) (mlen pre) = Done (le4 b0 b1 b2 b3).
Proof.
  pose proof (load_le_app_r 4 pre (b0 :: b1 :: b2 :: b3 :: l) 0 ltac:(lia)) as E.
  rewrite Z.add_0_r in E. rewrite E. cbn [load_le].
  change (load8 (b0 :: b1 :: b2 :: b3 :: l) 0) with (Done b0).
  change (load8 (b0 :: b1 :: b2 :: b3 :: l) (0 + 1)) with (Done b1).
  change (load8 (b0 :: b1 :: b2 :: b3 :: l) (0 + 1 + 1)) with (Done b2).
  change (load8 (b0 :: b1 :: b2 :: b3 :: l) (0 + 1 + 1 + 1)) with (Done b3).
  unfold le4. cbn [mbind run_bind]. f_equal. lia.
Qed.

Lemma store8_app pre b l v : store8 (pre ++ b :: l) (mlen pre) v = Done (pre ++ u8 v :: l).
Proof.
  rewrite store8_total by (unfold mlen; rewrite length_app; simpl; lia). unfold mlen.
  by rewrite Nat2Z.id, insert_app_r_alt, Nat.sub_diag by lia.
Qed.

Lemma bytes_ok_cons2 a b l : is_byte a -> is_byte b -> bytes_ok l -> bytes_ok (a :: b :: l).
Proof. intros. by repeat apply Forall_cons_2. Qed.

(** One byte further on. *)
Lemma store8_next pre a b l v :
  store8 (pre ++ a :: b :: l) (mlen pre + 1) v = Done (pre ++ a :: u8 v :: l).
Proof.
  pose proof (store8_app (pre ++ [a]) b l v) as E. rewrite <- !app_assoc in E. cbn [app] in E.
  rewrite <- E. f_equal. unfold mlen. rewrite length_app. simpl. lia.
Qed.

Lemma store32_app pre b0 b1 b2 b3 l v :
  store32 (pre ++ b0 :: b1 :: b2 :: b3 :: l) (mlen pre) v = Done (pre ++ bytes4 v ++ l).
Proof.
  cbn [store_le]. rewrite store8_app. cbn [mbind run_bind]. rewrite store8_next.
  cbn [mbind run_bind].
  assert (forall x, mlen (pre ++ [x]) = mlen pre + 1) as E.
  { intros x. unfold mlen. rewrite length_app. simpl. lia. }
  pose proof (store8_next (pre ++ [u8 v]) (u8 (v / 256)) b2 (b3 :: l) (v / 256 / 256)) as E2.
  rewrite E, <- !app_assoc in E2. cbn [app] in E2. rewrite E2. cbn [mbind run_bind].
  pose proof (store8_next (pre ++ [u8 v; u8 (v / 256)]) (u8 (v / 256 / 256)) b3 l
    (v / 256 / 256 / 256)) as E3.
  replace (mlen (pre ++ [u8 v; u8 (v / 256)]) + 1) with (mlen pre + 1 + 1 + 1) in E3
    by (unfold mlen; rewrite length_app; simpl; lia).
  rewrite <- !app_assoc in E3. cbn [app] in E3. rewrite E3. done.
Qed.

(** ** Walks over the bytes *)

(** What a loop does with a word. *)
Inductive act : Type :=
  | Rewrite (w : Z)   (** store [w], go on after the word *)
  | Keep              (** go on after the word *)
  | Half.             (** go on at the second halfword *)

(** [f off w]: what happens to the word [w] that ends at offset [off]. *)
Fixpoint walk (f : Z -> Z -> act) (fuel : nat) (l : mem) (off len : Z) : mem :=
  match fuel, l with
  | S fuel', b0 :: b1 :: b2 :: b3 :: t =>
      match f (off + 4) (le4 b0 b1 b2 b3) with
      | Rewrite w => bytes4 w ++ (if off + 4 <? len then walk f fuel' t (off + 4) len else t)
      | Keep => b0 :: b1 :: b2 :: b3 :: (if off + 4 <? len then walk f fuel' t (off + 4) len else t)
      | Half => b0 :: b1 :: (if off + 2 <? len then walk f fuel' (b2 :: b3 :: t) (off + 2) len
                             else b2 :: b3 :: t)
      end
  | _, _ => l
  end.

(** The same loop over a buffer. *)
Fixpoint act_loop (f : Z -> Z -> act) (fuel : nat) (m : mem) (len buf : Z) : run mem :=
  match fuel with
  | O => OutOfFuel
  | S fuel' =>
      data ← load32 m buf;
      '(m, buf) ←
        match f (buf + 4) data with
        | Rewrite w => m ← store32 m buf w; Done (m, buf + 4)
        | Keep => Done (m, buf + 4)
        | Half => Done (m, buf + 2)
        end;
      if buf <? len then act_loop f fuel' m len buf else Done m
  end.

Lemma act_loop_walk f fuel pre l len :
  bytes_ok l -> mlen pre < len -> len + 3 <= mlen (pre ++ l) ->
  len - mlen pre < Z.of_nat fuel ->
  act_loop f fuel (pre ++ l) len (mlen pre) = Done (pre ++ walk f fuel l (mlen pre) len).
Proof.
  revert pre l; induction fuel as [|fuel IH]; intros pre l Hok Hlen Hroom Hfuel; [lia|].
  assert (exists b0 b1 b2 b3 t, l = b0 :: b1 :: b2 :: b3 :: t) as (b0 & b1 & b2 & b3 & t & ->).
  { unfold mlen in *. rewrite length_app in Hroom.
    destruct l as [|b0 [|b1 [|b2 [|b3 t]]]]; cbn [length] in Hroom; try lia. by repeat eexists. }
  repeat (apply Forall_cons in Hok as [? Hok]).
  cbn [act_loop walk]. rewrite load32_app. cbn [mbind run_bind].
  assert (forall x y z w, mlen (pre ++ [x; y; z; w]) = mlen pre + 4) as E4
    by (intros; unfold mlen; rewrite length_app; simpl; lia).
  assert (forall x y, mlen (pre ++ [x; y]) = mlen pre + 2) as E2
    by (intros; unfold mlen; rewrite length_app; simpl; lia).
  assert (mlen (pre ++ b0 :: b1 :: b2 :: b3 :: t) = mlen pre + 4 + mlen t) as Em
    by (unfold mlen; rewrite length_app; simpl; lia).
  rewrite Em in Hroom.
  assert (forall w x y z, mlen pre + 4 < len ->
    act_loop f fuel (pre ++ w :: x :: y :: z :: t) len (mlen pre + 4) =
    Done (pre ++ w :: x :: y :: z :: walk f fuel t (mlen pre + 4) len)) as Hnext.
  { intros w x y z Hl. specialize (IH (pre ++ [w; x; y; z]) t).
    rewrite <- !app_assoc, E4 in IH. cbn [app] in IH. apply IH; [done|lia| |lia].
    unfold mlen in *. rewrite length_app. cbn [length]. lia. }
  destruct (f (mlen pre + 4) _) as [w| |] eqn:Ef.
  - rewrite store32_app. cbn [mbind run_bind]. unfold bytes4. cbn [app].
    case_match; [apply Hnext; lia|done].
  - cbn [mbind run_bind]. case_match; [apply Hnext; lia|done].
  - cbn [mbind run_bind]. case_match; [|done].
    specialize (IH (pre ++ [b0; b1]) (b2 :: b3 :: t)).
    rewrite <- !app_assoc, E2 in IH. cbn [app] in IH. apply IH; [|lia| |lia].
    + by apply bytes_ok_cons2.
    + rewrite Em. lia.
Qed.

(** *** Inverse walks *)

(** [g] undoes [f]: it maps back every word [f] rewrites, which keeps the five
    high bits of its first halfword, and agrees with [f] on the stride also
    when the second halfword was rewritten by the next step. *)
Definition undoes (g f : Z -> Z -> act) : Prop := forall off b0 b1 b2 b3,
  is_byte b0 -> is_byte b1 -> is_byte b2 -> is_byte b3 ->
  match f off (le4 b0 b1 b2 b3) with
  | Rewrite w => 0 <= w < 2 ^ 32 /\ u8 (w / 256) / 8 = b1 / 8 /\
                 g off w = Rewrite (le4 b0 b1 b2 b3)
  | Keep => g off (le4 b0 b1 b2 b3) = Keep
  | Half => forall c2 c3, is_byte c2 -> is_byte c3 -> c3 / 8 = b3 / 8 ->
            g off (le4 b0 b1 c2 c3) = Half
  end.

Lemma u8_is_byte x : is_byte (u8 x).
Proof. apply (u8_range x). Qed.

(** A walk keeps the high bits of the first halfword and yields bytes. *)
Lemma walk_head f g fuel b0 b1 t off len : undoes g f -> bytes_ok (b0 :: b1 :: t) ->
  exists c0 c1 t', walk f fuel (b0 :: b1 :: t) off len = c0 :: c1 :: t' /\
    c1 / 8 = b1 / 8 /\ is_byte c0 /\ is_byte c1.
Proof.
  intros Hu Hok. apply Forall_cons in Hok as [H0 Hok]. apply Forall_cons in Hok as [H1 Hok].
  destruct fuel as [|fuel]; [by eexists _, _, _|].
  destruct t as [|b2 [|b3 t]]; [by eexists _, _, _..|]. cbn [walk].
  apply Forall_cons in Hok as [H2 Hok]. apply Forall_cons in Hok as [H3 Hok].
  specialize (Hu (off + 4) b0 b1 b2 b3 H0 H1 H2 H3).
  destruct (f (off + 4) _) as [w| |]; [|by eexists _, _, _..].
  destruct Hu as (_ & Hw & _). unfold bytes4. cbn [app].
  eexists _, _, _. split; [reflexivity|]. split; [exact Hw|]. split; apply u8_is_byte.
Qed.

Lemma walk_undo f g fuel l off len : undoes g f -> bytes_ok l ->
  walk g fuel (walk f fuel l off len) off len = l.
Proof.
  intros Hu. revert l off; induction fuel as [|fuel IH]; intros l off Hok; [done|].
  destruct l as [|b0 [|b1 [|b2 [|b3 t]]]]; try done.
  pose proof Hok as Hok'. repeat (apply Forall_cons in Hok' as [? Hok']).
  pose proof (Hu (off + 4) b0 b1 b2 b3) as Hw. cbn [walk].
  destruct (f (off + 4) (le4 b0 b1 b2 b3)) as [w| |].
  - destruct Hw as (Hr & _ & Hg); [done..|]. unfold bytes4 at 1. cbn [app].
    rewrite le4_bytes4, Hg, bytes4_le4 by done. cbn [app].
    repeat f_equal. case_match; [by apply IH|done].
  - rewrite Hw by done. repeat f_equal. case_match; [by apply IH|done].
  - destruct (off + 2 <? len) eqn:E.
    + destruct (walk_head f g fuel b2 b3 t (off + 2) len Hu) as (c2 & c3 & t' & Hh & Hc & Hb2 & Hb3).
      { by apply bytes_ok_cons2. }
      rewrite Hh. cbn [walk]. rewrite Hw by done. rewrite <- Hh. do 2 f_equal. apply IH. by apply bytes_ok_cons2.
    + cbn [walk]. by rewrite Hw by done.
Qed.

(** ** The three loops as walks *)

(** The word as each version sees it. *)
Definition act_v0 (off data : Z) : act :=
  if is_bl data then Rewrite (bl_insn (u32 (bl_field data - Z.shiftr off 1)))
  else if change_stride data =? 30 then Half else Keep.
Definition act_v1 (off data : Z) : act :=
  if is_bl data then Rewrite (bl_insn (u32 (bl_field data + Z.shiftr off 1)))
  else if change_stride data =? 30 then Half else Keep.
Definition act_v2 (off data : Z) : act :=
  if is_bl data then Rewrite (bl_insn (u32 (bl_field data - Z.shiftr off 1)))
  else if is_movw data then Rewrite (movw_insn data)
  else if change_stride data =? 30 then Half else Keep.
(** The filter that version 2 undoes, with the masks of the code. *)
Definition act_v2_masks (off data : Z) : act :=
  if is_bl data then Rewrite (bl_insn (u32 (bl_field data + Z.shiftr off 1)))
  else if is_movw data then Rewrite (movw_insn data)
  else if change_stride data =? 30 then Half else Keep.

(** ** The filter that version 2 undoes

    The compressor is not part of the tools; its filter is stated on the
    instructions, by the fields of their encodings (the first halfword is the
    low half of the word), apart from the masks of the code. *)

Definition field (w lo n : Z) : Z := w / 2 ^ lo mod 2 ^ n.

(** BL as the filter sees it: prefixes 11110 and 11111 and a target of 22
    bits, in half words. *)
Definition thumb_bl (w : Z) : bool := (field w 11 5 =? 30) && (field w 27 5 =? 31).
Definition bl_target (w : Z) : Z := 2 ^ 11 * field w 0 11 + field w 16 11.
Definition bl_word (t : Z) : Z := (0xF000 + field t 11 11) + 2 ^ 16 * (0xF800 + field t 0 11).

(** MOVT: 11110:i:101100:imm4 and 0:imm3:Rd:imm8. *)
Definition thumb_movt (w : Z) : bool :=
  (field w 11 5 =? 30) && (field w 4 6 =? 44) && (field w 31 1 =? 0).
Definition movt_word (i imm4 imm3 rd imm8 : Z) : Z :=
  (0xF2C0 + 2 ^ 10 * i + imm4) + 2 ^ 16 * (2 ^ 12 * imm3 + 2 ^ 8 * rd + imm8).

(** BL gets the absolute target of its branch, MOVT has its imm4 and its
    destination register exchanged, any other instruction is left as it is;
    one that starts with the prefix 11110 in the second halfword is looked at
    again from there. *)
Definition act_v2_filter (off w : Z) : act :=
  if thumb_bl w then Rewrite (bl_word ((bl_target w + off / 2) mod 2 ^ 22))
  else if thumb_movt w then
    Rewrite (movt_word (field w 10 1) (field w 24 4) (field w 28 3) (field w 0 4) (field w 16 8))
  else if field w 27 5 =? 30 then Half else Keep.

(** The filter [f] applied to the first [len] bytes of a segment. *)
Definition filter_segment (f : Z -> Z -> act) (m : mem) (len : Z) : mem :=
  walk f (S (Z.to_nat len)) m 0 len.

Lemma v0_act_loop fuel m len buf :
  deobf_v0_loop fuel m len buf = act_loop act_v0 fuel m len buf.
Proof.
  revert m buf; induction fuel as [|fuel IH]; intros m buf; cbn [deobf_v0_loop act_loop]; [done|].
  destruct (load32 m buf) as [data| |]; cbn [mbind run_bind]; [|done..].
  unfold act_v0. destruct (is_bl data).
  - replace (buf + 4 - 4) with buf by lia.
    destruct (store32 m buf _); cbn [mbind run_bind]; [|done..]. case_match; auto.
  - destruct (change_stride data =? 30); cbn [mbind run_bind];
      [replace (buf + 4 - 2) with (buf + 2) by lia|]; case_match; auto.
Qed.

Lemma v2_act_loop fuel m len buf :
  deobf_v2_loop fuel m len buf = act_loop act_v2 fuel m len buf.
Proof.
  revert m buf; induction fuel as [|fuel IH]; intros m buf; cbn [deobf_v2_loop act_loop]; [done|].
  destruct (load32 m buf) as [data| |]; cbn [mbind run_bind]; [|done..].
  unfold act_v2. destruct (is_bl data); [|destruct (is_movw data)].
  1, 2: replace (buf + 4 - 4) with buf by lia;
    destruct (store32 m buf _); cbn [mbind run_bind]; [|done..]; case_match; auto.
  destruct (change_stride data =? 30); cbn [mbind run_bind];
    [replace (buf + 4 - 2) with (buf + 2) by lia|]; case_match; auto.
Qed.

(** Version 1 reads the next word before it goes around. *)
Lemma v1_act_loop fuel m len buf m' :
  act_loop act_v1 fuel m len buf = Done m' ->
  (data ← load32 m buf; deobf_v1_loop fuel m len (buf + 4) data) = Done m'.
Proof.
  revert m buf; induction fuel as [|fuel IH]; intros m buf; cbn [deobf_v1_loop act_loop]; [done|].
  destruct (load32 m buf) as [data| |]; cbn [mbind run_bind]; [|done..].
  unfold act_v1. destruct (is_bl data).
  - replace (buf + 4 - 4) with buf by lia.
    destruct (store32 m buf _); cbn [mbind run_bind]; [|done..]. case_match; auto.
  - destruct (change_stride data =? 30); cbn [mbind run_bind];
      [replace (buf + 4 - 2) with (buf + 2) by lia|]; case_match; auto.
Qed.

(** [arzl_deobfuscate] on a buffer with room for the last, possibly
    overlapping, word is the walk of its version. *)
Lemma deobfuscate_walk m len version :
  bytes_ok m -> 0 < len -> len + 3 <= mlen m ->
  arzl_deobfuscate m len version = Done (filter_segment
    (if version =? 2 then act_v2 else if version =? 1 then act_v1 else act_v0) m len).
Proof.
  intros Hok Hlen Hroom. unfold arzl_deobfuscate, filter_segment.
  destruct (Z.eqb_spec len 0); [lia|].
  pose proof (fun f => act_loop_walk f (S (Z.to_nat len)) [] m len Hok Hlen Hroom) as W.
  cbn [app mlen] in W. change (mlen []) with 0 in W.
  destruct (version =? 2); [rewrite v2_act_loop; apply W; lia|].
  destruct (version =? 1); [|rewrite v0_act_loop; apply W; lia].
  apply (v1_act_loop _ _ _ 0). apply W. lia.
Qed.

(** ** The instructions *)

Lemma bl_insn_range v : 0 <= bl_insn v < 2 ^ 32.
Proof. unfold bl_insn, u32. range32. Qed.
Lemma movw_insn_range w : 0 <= w < 2 ^ 32 -> 0 <= movw_insn w < 2 ^ 32.
Proof. intros. unfold movw_insn, u32. range32. Qed.

Lemma bl_insn_mod v : bl_insn (v mod 2 ^ 22) = bl_insn v.
Proof. unfold bl_insn. bits32. Qed.
Lemma bl_field_insn v : bl_field (bl_insn v) = v mod 2 ^ 22.
Proof. unfold bl_field, bl_insn. bits32. Qed.
Lemma bl_insn_field w : is_bl w = true -> 0 <= w < 2 ^ 32 -> bl_insn (bl_field w) = w.
Proof.
  unfold bl_field, bl_insn, is_bl. intros H%Z.eqb_eq Hw. bits32. all: masked H.
Qed.
Lemma is_bl_insn v : is_bl (bl_insn v) = true.
Proof. apply Z.eqb_eq. unfold bl_insn. bits32. Qed.

Lemma movw_insn_invol w : 0 <= w < 2 ^ 32 -> is_movw w = true -> movw_insn (movw_insn w) = w.
Proof. intros Hw _. unfold movw_insn. bits32. Qed.
Lemma is_movw_insn w : is_movw w = true -> is_movw (movw_insn w) = true.
Proof.
  unfold is_movw. intros H%Z.eqb_eq. apply Z.eqb_eq. unfold movw_insn. bits32. all: masked H.
Qed.

(** The five high bits of the first halfword. *)
Lemma hi5_shift w : 0 <= w -> u8 (w / 256) / 8 = Z.land (Z.shiftr w 11) 31.
Proof.
  intros Hw. change 31 with (Z.ones 5). rewrite Z.land_ones, Z.shiftr_div_pow2 by lia.
  change (2 ^ 5) with 32. change (2 ^ 11) with (256 * 8).
  rewrite <- Z.div_div by lia. unfold u8. change (2 ^ 8) with (8 * 32).
  rewrite Z.rem_mul_r by lia. rewrite Z.mul_comm, Z.div_add by lia.
  rewrite (Z.div_small (_ mod 8)) by (apply Z.mod_pos_bound; lia). lia.
Qed.
Lemma hi5_bl w : is_bl w = true -> Z.land (Z.shiftr w 11) 31 = 30.
Proof. unfold is_bl. intros H%Z.eqb_eq. bits32. all: masked H. Qed.
Lemma hi5_movw w : Z.land (Z.shiftr (movw_insn w) 11) 31 = Z.land (Z.shiftr w 11) 31.
Proof. unfold movw_insn. bits32. Qed.

(** The stride is decided by the high byte alone. *)
Lemma change_stride_le4 b0 b1 b2 b3 : is_byte b0 -> is_byte b1 -> is_byte b2 -> is_byte b3 ->
  change_stride (le4 b0 b1 b2 b3) = b3 / 8.
Proof.
  intros. pose proof (le4_range b0 b1 b2 b3) as Hr. unfold change_stride.
  assert (Z.shiftr (Z.land (le4 b0 b1 b2 b3) 0xF800F800) 27 = Z.shiftr (le4 b0 b1 b2 b3) 27) as ->.
  { apply Z.bits_inj'. intros i Hi. rewrite !Z.shiftr_spec, Z.land_spec by lia.
    destruct (decide (i < 5)).
    - assert (i = 0 \/ i = 1 \/ i = 2 \/ i = 3 \/ i = 4) as [->|[->|[->|[->| ->]]]] by lia;
        apply andb_true_r.
    - by rewrite (testbit_high (le4 b0 b1 b2 b3) 32) by (auto; lia). }
  rewrite Z.shiftr_div_pow2 by lia. change (2 ^ 27) with (256 * (256 * (256 * 8))).
  rewrite <- !Z.div_div by lia. unfold le4. by rewrite !byte_div.
Qed.
Lemma is_bl_stride w : is_bl w = true -> change_stride w = 31.
Proof. unfold is_bl, change_stride. intros ->%Z.eqb_eq. done. Qed.
Lemma is_movw_stride w : is_movw w = true -> change_stride w <> 30.
Proof.
  unfold is_movw, change_stride. intros H%Z.eqb_eq E. apply (f_equal (fun x => Z.testbit x 4)) in E.
  rewrite Z.shiftr_spec, Z.land_spec in E by lia.
  change (4 + 27) with 31 in E. by rewrite (land_eq_testbit w _ _ 31 H eq_refl) in E.
Qed.
Lemma is_movw_not_bl w : is_movw w = true -> is_bl w = false.
Proof.
  intros Hm. destruct (is_bl w) eqn:Hb; [|done]. unfold is_movw, is_bl in *.
  apply Z.eqb_eq in Hm, Hb.
  pose proof (land_eq_testbit w _ _ 31 Hm eq_refl) as E.
  by rewrite (land_eq_testbit w _ _ 31 Hb eq_refl) in E.
Qed.

(** ** Each filter and its inverse *)

(** Subtracting an offset undoes adding it, and conversely. *)
Lemma bl_sub_add w o : is_bl w = true -> 0 <= w < 2 ^ 32 ->
  bl_insn (u32 (bl_field (bl_insn (u32 (bl_field w + o))) - o)) = w.
Proof.
  intros Hb Hw. rewrite bl_field_insn, <- bl_insn_mod. unfold u32.
  replace (_ mod 2 ^ 22) with (bl_field w mod 2 ^ 22).
  { by rewrite bl_insn_mod, bl_insn_field. }
  rewrite !mod_mod_pow2, <- (Zminus_mod_idemp_l (_ mod _)), !mod_mod_pow2, Zminus_mod_idemp_l by lia.
  f_equal. lia.
Qed.
Lemma bl_add_sub w o : is_bl w = true -> 0 <= w < 2 ^ 32 ->
  bl_insn (u32 (bl_field (bl_insn (u32 (bl_field w - o))) + o)) = w.
Proof.
  intros Hb Hw. pose proof (bl_sub_add w (- o) Hb Hw) as E.
  by replace (bl_field w - o) with (bl_field w + - o) by lia; rewrite <- E at 2; f_equal; f_equal; lia.
Qed.

(** The stride never depends on a halfword that a later step rewrites. *)
Lemma half_stable b0 b1 b2 b3 c2 c3 :
  is_byte b0 -> is_byte b1 -> is_byte b2 -> is_byte b3 -> is_byte c2 -> is_byte c3 ->
  c3 / 8 = b3 / 8 -> change_stride (le4 b0 b1 b2 b3) = 30 ->
  change_stride (le4 b0 b1 c2 c3) = 30 /\ is_bl (le4 b0 b1 c2 c3) = false /\
  is_movw (le4 b0 b1 c2 c3) = false.
Proof.
  intros H0 H1 H2 H3 Hc2 Hc3 Hc Hs.
  assert (change_stride (le4 b0 b1 c2 c3) = 30) as Hs'.
  { rewrite change_stride_le4 in * by done. congruence. }
  split; [done|]. split.
  - destruct (is_bl _) eqn:E; [|done]. apply is_bl_stride in E. congruence.
  - destruct (is_movw _) eqn:E; [|done]. by apply is_movw_stride in E.
Qed.

Lemma hi5_byte b0 b1 b2 b3 : is_byte b0 -> is_byte b1 -> is_byte b2 -> is_byte b3 ->
  b1 / 8 = Z.land (Z.shiftr (le4 b0 b1 b2 b3) 11) 31.
Proof.
  intros. rewrite <- hi5_shift by (apply le4_range; done). unfold le4.
  by rewrite byte_div, byte_mod.
Qed.

(** A BL rewritten by [h] and restored by [g]. *)
Lemma undoes_bl (h : Z -> Z) b0 b1 b2 b3 :
  is_byte b0 -> is_byte b1 -> is_byte b2 -> is_byte b3 ->
  is_bl (le4 b0 b1 b2 b3) = true ->
  let w := bl_insn (u32 (h (bl_field (le4 b0 b1 b2 b3)))) in
  0 <= w < 2 ^ 32 /\ u8 (w / 256) / 8 = b1 / 8.
Proof.
  intros H0 H1 H2 H3 Hb. cbn. split; [apply bl_insn_range|].
  rewrite hi5_shift by apply bl_insn_range.
  by rewrite hi5_bl, (hi5_byte b0 b1 b2 b3), hi5_bl by (done || apply is_bl_insn).
Qed.

Lemma undoes_v0_v1 : undoes act_v0 act_v1.
Proof.
  intros off b0 b1 b2 b3 H0 H1 H2 H3. unfold act_v1.
  destruct (is_bl _) eqn:Hb.
  - destruct (undoes_bl (fun x => x + Z.shiftr off 1) _ _ _ _ H0 H1 H2 H3 Hb) as [Hr Hh].
    split; [exact Hr|]. split; [exact Hh|]. unfold act_v0. rewrite is_bl_insn, bl_sub_add; try done.
    by apply le4_range.
  - destruct (Z.eqb_spec (change_stride (le4 b0 b1 b2 b3)) 30) as [Hs|Hs].
    + intros c2 c3 Hc2 Hc3 Hc. unfold act_v0.
      by destruct (half_stable b0 b1 b2 b3 c2 c3) as (-> & -> & _).
    + unfold act_v0. rewrite Hb. by apply Z.eqb_neq in Hs as ->.
Qed.

Lemma undoes_v1_v0 : undoes act_v1 act_v0.
Proof.
  intros off b0 b1 b2 b3 H0 H1 H2 H3. unfold act_v0.
  destruct (is_bl _) eqn:Hb.
  - destruct (undoes_bl (fun x => x - Z.shiftr off 1) _ _ _ _ H0 H1 H2 H3 Hb) as [Hr Hh].
    split; [exact Hr|]. split; [exact Hh|]. unfold act_v1. rewrite is_bl_insn, bl_add_sub; try done.
    by apply le4_range.
  - destruct (Z.eqb_spec (change_stride (le4 b0 b1 b2 b3)) 30) as [Hs|Hs].
    + intros c2 c3 Hc2 Hc3 Hc. unfold act_v1.
      by destruct (half_stable b0 b1 b2 b3 c2 c3) as (-> & -> & _).
    + unfold act_v1. rewrite Hb. by apply Z.eqb_neq in Hs as ->.
Qed.

Lemma undoes_v2_filter : undoes act_v2 act_v2_masks.
Proof.
  intros off b0 b1 b2 b3 H0 H1 H2 H3. unfold act_v2_masks.
  pose proof (le4_range _ _ _ _ H0 H1 H2 H3) as Hr.
  destruct (is_bl _) eqn:Hb; [|destruct (is_movw _) eqn:Hm].
  - destruct (undoes_bl (fun x => x + Z.shiftr off 1) _ _ _ _ H0 H1 H2 H3 Hb) as [Hw Hh].
    split; [exact Hw|]. split; [exact Hh|]. unfold act_v2. by rewrite is_bl_insn, bl_sub_add.
  - split; [by apply movw_insn_range|].
    rewrite hi5_shift, hi5_movw, <- hi5_byte by (done || by apply movw_insn_range).
    split; [done|]. pose proof (is_movw_insn _ Hm) as Hm'. unfold act_v2.
    by rewrite (is_movw_not_bl _ Hm'), Hm', movw_insn_invol.
  - destruct (Z.eqb_spec (change_stride (le4 b0 b1 b2 b3)) 30) as [Hs|Hs].
    + intros c2 c3 Hc2 Hc3 Hc. unfold act_v2.
      by destruct (half_stable b0 b1 b2 b3 c2 c3) as (-> & -> & ->).
    + unfold act_v2. rewrite Hb, Hm. by apply Z.eqb_neq in Hs as ->.
Qed.

(** *** The filter by fields and by masks *)

Lemma field_land w lo n : 0 <= lo -> 0 <= n -> field w lo n = Z.land (Z.shiftr w lo) (Z.ones n).
Proof. intros Hlo Hn. unfold field. by rewrite Z.land_ones, Z.shiftr_div_pow2 by lia. Qed.

Lemma field_range w lo n : 0 <= n -> 0 <= field w lo n < 2 ^ n.
Proof. intros Hn. apply Z.mod_pos_bound. lia. Qed.

(** A field of known value fixes the bits of the word. *)
Lemma field_testbit w lo n c i : field w lo n = c -> 0 <= lo <= i -> i < lo + n ->
  Z.testbit w i = Z.testbit c (i - lo).
Proof.
  intros <- Hlo Hi. rewrite field_land by lia.
  rewrite Z.land_spec, Z.shiftr_spec, Z.ones_spec_low, andb_true_r by lia. f_equal. lia.
Qed.

(** [fielded H]: the goal fixes a bit that [H : field w lo n = c] fixes. *)
Ltac fielded H :=
  match goal with
  | |- Z.testbit ?w ?i = _ => exact (field_testbit w _ _ _ i H ltac:(lia) ltac:(lia))
  | |- _ = Z.testbit ?w ?i => exact (eq_sym (field_testbit w _ _ _ i H ltac:(lia) ltac:(lia)))
  end.

Ltac field_bits :=
  rewrite !field_land by lia;
  repeat match goal with |- context[Z.ones ?n] =>
    let v := eval vm_compute in (Z.ones n) in change (Z.ones n) with v end.

Lemma thumb_bl_ok w : 0 <= w < 2 ^ 32 -> thumb_bl w = is_bl w.
Proof.
  intros Hw. apply eq_bool_prop_intro. unfold thumb_bl, is_bl.
  rewrite andb_True, !Is_true_true, !Z.eqb_eq. split.
  - intros [H1 H2]. bits32. all: first [fielded H1 | fielded H2].
  - intros H. field_bits. split; bits32; masked H.
Qed.

Lemma thumb_movt_ok w : 0 <= w < 2 ^ 32 -> thumb_movt w = is_movw w.
Proof.
  intros Hw. apply eq_bool_prop_intro. unfold thumb_movt, is_movw.
  rewrite !andb_True, !Is_true_true, !Z.eqb_eq. split.
  - intros [[H1 H2] H3]. bits32. all: first [fielded H1 | fielded H2 | fielded H3].
  - intros H. field_bits. split; [split|]; bits32; masked H.
Qed.

(** The range of a word put together from fields. *)
Ltac fields_range :=
  repeat first [ apply shiftl_range | apply lor_range | apply land_range
               | split; [vm_compute; congruence | vm_compute; reflexivity || congruence]
               | vm_compute; congruence ].

(** Sums of disjoint fields are unions of bits. *)
Lemma add_lor x y n : 0 <= n -> 0 <= y < 2 ^ n -> y + 2 ^ n * x = Z.lor (Z.shiftl x n) y.
Proof. intros Hn Hy. rewrite Z.shiftl_mul_pow2, lor_mul_pow2 by lia. lia. Qed.

Lemma bl_target_ok w : 0 <= w < 2 ^ 32 -> bl_target w = bl_field w.
Proof.
  intros Hw. unfold bl_target, bl_field. rewrite Z.add_comm.
  rewrite add_lor by (lia || by apply field_range). field_bits. bits32.
  all: symmetry; apply (testbit_high w 32); lia.
Qed.

Lemma bl_word_ok t : bl_word t = bl_insn t.
Proof.
  unfold bl_word, bl_insn. pose proof (field_range t 11 11 ltac:(lia)). pose proof (field_range t 0 11 ltac:(lia)).
  replace (0xF000 + field t 11 11) with (field t 11 11 + 2 ^ 11 * 30) by lia.
  replace (0xF800 + field t 0 11) with (field t 0 11 + 2 ^ 11 * 31) by lia.
  rewrite (add_lor _ (field t 11 11 + _)) by lia. rewrite !add_lor by lia.
  field_bits. bits32. all: fields_range.
Qed.

Lemma movt_word_ok w : 0 <= w < 2 ^ 32 -> is_movw w = true ->
  movt_word (field w 10 1) (field w 24 4) (field w 28 3) (field w 0 4) (field w 16 8) = movw_insn w.
Proof.
  intros Hw H%Z.eqb_eq. unfold movt_word, movw_insn.
  pose proof (field_range w 10 1 ltac:(lia)). pose proof (field_range w 24 4 ltac:(lia)).
  pose proof (field_range w 28 3 ltac:(lia)). pose proof (field_range w 0 4 ltac:(lia)).
  pose proof (field_range w 16 8 ltac:(lia)).
  replace (0xF2C0 + 2 ^ 10 * field w 10 1 + field w 24 4)
    with (field w 24 4 + 2 ^ 4 * (44 + 2 ^ 6 * (field w 10 1 + 2 ^ 1 * 30))) by lia.
  replace (2 ^ 12 * field w 28 3 + 2 ^ 8 * field w 0 4 + field w 16 8)
    with (field w 16 8 + 2 ^ 8 * (field w 0 4 + 2 ^ 4 * field w 28 3)) by lia.
  rewrite (add_lor _ (_ + 2 ^ 4 * (44 + _))) by lia. rewrite !add_lor by lia.
  field_bits. bits32. all: first [masked H | fields_range].
Qed.

Lemma act_v2_filter_ok off w : 0 <= off -> 0 <= w < 2 ^ 32 -> act_v2_filter off w = act_v2_masks off w.
Proof.
  intros Hoff Hw. unfold act_v2_filter, act_v2_masks.
  rewrite thumb_bl_ok, thumb_movt_ok, bl_target_ok, bl_word_ok, bl_insn_mod by done.
  destruct (is_bl w).
  - rewrite <- bl_insn_mod, <- (bl_insn_mod (u32 _)). unfold u32.
    rewrite mod_mod_pow2, Z.shiftr_div_pow2 by lia. change (2 ^ 1) with 2.
    by rewrite !bl_insn_mod.
  - destruct (is_movw w) eqn:Hm; [by rewrite movt_word_ok|].
    assert (field w 27 5 = change_stride w) as ->; [|done]. unfold change_stride. field_bits. bits32.
    rewrite Z.shiftr_div_pow2 by lia. pose proof (land_range w 0xF800F800 32 ltac:(lia) ltac:(lia)).
    split; [apply Z.div_pos; lia|apply Z.div_lt_upper_bound; lia].
Qed.

(** Walks that act alike on words are the same. *)
Lemma walk_ext f g fuel l off len :
  (forall off w, 0 <= off -> 0 <= w < 2 ^ 32 -> f off w = g off w) -> bytes_ok l -> 0 <= off ->
  walk f fuel l off len = walk g fuel l off len.
Proof.
  intros Hfg. revert l off; induction fuel as [|fuel IH]; intros l off Hok Hoff; [done|].
  destruct l as [|b0 [|b1 [|b2 [|b3 t]]]]; try done.
  pose proof Hok as Hok'. repeat (apply Forall_cons in Hok' as [? Hok']). cbn [walk].
  rewrite Hfg by (lia || by apply le4_range).
  rewrite (IH t (off + 4)) by (done || lia).
  rewrite (IH (b2 :: b3 :: t) (off + 2)); [done| |lia]. by apply bytes_ok_cons2.
Qed.

(** ** Round trips *)

Lemma walk_bytes_ok f g fuel l off len : undoes g f -> bytes_ok l ->
  bytes_ok (walk f fuel l off len) /\ length (walk f fuel l off len) = length l.
Proof.
  intros Hu. revert l off; induction fuel as [|fuel IH]; intros l off Hok; [done|].
  destruct l as [|b0 [|b1 [|b2 [|b3 t]]]]; try done.
  pose proof Hok as Hok'. repeat (apply Forall_cons in Hok' as [? Hok']). cbn [walk].
  destruct (f (off + 4) (le4 b0 b1 b2 b3)) as [w| |].
  - assert (forall x, bytes_ok x /\ length x = length t ->
      bytes_ok (bytes4 w ++ x) /\ length (bytes4 w ++ x) = S (S (S (S (length t))))) as Hx.
    { intros x [Hb Hl]. unfold bytes4. cbn [app length]. rewrite Hl. split; [|done].
      apply bytes_ok_cons2; [apply u8_is_byte..|]. apply bytes_ok_cons2; [apply u8_is_byte..|done]. }
    apply Hx. case_match; [by apply IH|done].
  - assert (forall x, bytes_ok x /\ length x = length t ->
      bytes_ok (b0 :: b1 :: b2 :: b3 :: x) /\
      length (b0 :: b1 :: b2 :: b3 :: x) = S (S (S (S (length t))))) as Hx.
    { intros x [Hb Hl]. cbn [length]. rewrite Hl. split; [|done].
      apply bytes_ok_cons2; [done..|]. by apply bytes_ok_cons2. }
    apply Hx. case_match; [by apply IH|done].
  - assert (bytes_ok (b2 :: b3 :: t)) as Ht by by apply bytes_ok_cons2.
    destruct (off + 2 <? len); [|done].
    destruct (IH (b2 :: b3 :: t) (off + 2) Ht) as [Hb Hl].
    split; [by apply bytes_ok_cons2|]. cbn [length] in *. by rewrite Hl.
Qed.

(** A pass undoes the filter whose rewriting it undoes. *)
Lemma deobfuscate_inverts m len v f g :
  (if v =? 2 then act_v2 else if v =? 1 then act_v1 else act_v0) = f ->
  undoes f g -> bytes_ok m -> 0 < len -> len + 3 <= mlen m ->
  arzl_deobfuscate (filter_segment g m len) len v = Done m.
Proof.
  intros Ef Hu Hok Hlen Hroom.
  destruct (walk_bytes_ok g f (S (Z.to_nat len)) m 0 len Hu Hok) as [Hb Hl].
  rewrite deobfuscate_walk; [|done..|unfold filter_segment, mlen in *; by rewrite Hl].
  rewrite Ef. unfold filter_segment. by rewrite walk_undo.
Qed.

(** The two directions share one argument. *)
Lemma deobfuscate_undoes m len v w f g :
  (if v =? 2 then act_v2 else if v =? 1 then act_v1 else act_v0) = f ->
  (if w =? 2 then act_v2 else if w =? 1 then act_v1 else act_v0) = g ->
  undoes g f -> bytes_ok m -> 0 < len -> len + 3 <= mlen m ->
  exists m', arzl_deobfuscate m len v = Done m' /\ arzl_deobfuscate m' len w = Done m.
Proof.
  intros Ef Eg Hu Hok Hlen Hroom. exists (filter_segment f m len).
  split; [rewrite deobfuscate_walk by done; by rewrite Ef|]. by apply (deobfuscate_inverts m len w g f).
Qed.

(** C3: version 1 and the default version of [arzl_deobfuscate] undo each
    other on every segment, whatever bytes it holds: both passes end, rewrite
    the same BL instructions and take the same strides. *)
Theorem deobfuscate_v1_v0_roundtrip m len version :
  bytes_ok m -> 0 < len -> len + 3 <= mlen m -> version <> 1 -> version <> 2 ->
  (exists m', arzl_deobfuscate m len 1 = Done m' /\ arzl_deobfuscate m' len version = Done m) /\
  (exists m', arzl_deobfuscate m len version = Done m' /\ arzl_deobfuscate m' len 1 = Done m).
Proof.
  intros Hok Hlen Hroom H1 H2. split.
  - eapply (deobfuscate_undoes m len 1 version act_v1 act_v0); try done; [|apply undoes_v0_v1].
    apply Z.eqb_neq in H1 as ->. by apply Z.eqb_neq in H2 as ->.
  - eapply (deobfuscate_undoes m len version 1 act_v0 act_v1); try done; [|apply undoes_v1_v0].
    apply Z.eqb_neq in H1 as ->. by apply Z.eqb_neq in H2 as ->.
Qed.

Lemma deobfuscate_v2_filtered m len : bytes_ok m -> 0 < len -> len + 3 <= mlen m ->
  arzl_deobfuscate (filter_segment act_v2_filter m len) len 2 = Done m.
Proof.
  intros Hok Hlen Hroom. unfold filter_segment.
  rewrite (walk_ext _ act_v2_masks); [|intros; by apply act_v2_filter_ok|done|lia].
  by apply (deobfuscate_inverts m len 2 act_v2 act_v2_masks eq_refl undoes_v2_filter).
Qed.

(** C11: version 2, the one [unarzl] uses, undoes the filter that makes BL
    targets absolute and exchanges, in MOVT, the high immediate nibble imm4
    with the destination register: applied to a filtered segment it gives the
    segment back, byte for byte.  The filter is stated by the fields of the
    instructions; the code's mask for the second case is that of MOVT, so MOVW
    is left alone. *)
Theorem deobfuscate_v2_inverts_filter m len :
  bytes_ok m -> 0 < len -> len + 3 <= mlen m ->
  arzl_deobfuscate (filter_segment act_v2_filter m len) len 2 = Done m.
Proof.
  apply deobfuscate_v2_filtered.
Qed.

(** "bl", a halfword, "movt" and some slack: 0xF801F002, 0xF000, 0x0344F2C2. *)
Definition sample_code : mem := [2; 0xF0; 1; 0xF8; 0; 0xF0; 0xC2; 0xF2; 0x44; 3; 0; 0; 0; 0; 0].

Lemma sample_code_ok : bytes_ok sample_code.
Proof. repeat (apply Forall_cons; split; [lia|]). by apply Forall_nil. Qed.

Lemma deobfuscate_v1_v0_roundtrip_witness :
  (exists m', arzl_deobfuscate sample_code 10 1 = Done m' /\ arzl_deobfuscate m' 10 0 = Done sample_code)
  /\ (exists m', arzl_deobfuscate sample_code 10 0 = Done m' /\ arzl_deobfuscate m' 10 1 = Done sample_code).
Proof.
  apply (deobfuscate_v1_v0_roundtrip sample_code 10 0 sample_code_ok); vm_compute; congruence.
Defined.

Lemma deobfuscate_v2_inverts_filter_witness :
  arzl_deobfuscate (filter_segment act_v2_filter sample_code 10) 10 2 = Done sample_code.
Proof.
  apply (deobfuscate_v2_inverts_filter sample_code 10 sample_code_ok); vm_compute; congruence.
Defined.
