(* ===== verification/Arzl.v ===== *)
(** * The ARZL decompressor (unarzl.c, [arzl_decompress] and [unarzl])

    A range decoder over a table of 3240 adaptive probabilities drives an LZ
    decoder: literals from eight 255-node trees, matches with a unary length
    class, a length, a distance class and a distance.  The code is a
    decompilation with gotos; here every labelled piece is a definition, the
    goto structure of the main loop a step function on labels ([Lit], [Put]),
    and the variables that live across pieces ([v7], [v10], [input_1] and
    [v109]) the decoder's state.  Pointers are offsets: [v8] and [i] from
    [buffer] (whose address, [base], some contexts depend on), [input_1] from
    [input]. *)

From stdpp Require Import prelude.
From S2P Require Import Prelude Bytes Deobf.

Record dec := Dec {
  v7 : Z;         (** code word *)
  v10 : Z;        (** range *)
  input_1 : Z;    (** offset; the next byte is [input[input_1 + 5]] *)
  v109 : list Z;  (** the probabilities *)
  buffer : mem;   (** the output *)
}.

Definition set_code (c r : Z) (s : dec) : dec :=
  Dec c r (input_1 s) (v109 s) (buffer s).
Definition set_probs (p : list Z) (s : dec) : dec :=
  Dec (v7 s) (v10 s) (input_1 s) p (buffer s).
Definition set_buffer (b : mem) (s : dec) : dec :=
  Dec (v7 s) (v10 s) (input_1 s) (v109 s) b.

Section Decoder.
Context (input : mem) (base : Z).
Abbreviation M := (SM dec).

(** ** The range decoder *)

(** [(input_1++)[5]] *)
Definition next_byte : M Z := fun s =>
  match load8 input (input_1 s + 5) with
  | Done b => Done (b, Dec (v7 s) (v10 s) (input_1 s + 1) (v109 s) (buffer s))
  | _ => Fault FInput
  end.

(** [if ( !(v10 >> 24) ) { v10 <<= 8; v7 = byte + (v7 << 8); }] *)
Definition normalize : M unit :=
  r ← sm_gets v10;
  if Z.shiftr r 24 =? 0 then
    b ← next_byte;
    sm_modify (fun s => set_code (u32 (b + u32 (Z.shiftl (v7 s) 8))) (u32 (Z.shiftl r 8)) s)
  else mret tt.

(** [v109[idx]], a byte *)
Definition get_prob (idx : Z) : M Z := fun s =>
  match load8 (v109 s) idx with Done p => Done (p, s) | _ => Fault FTable end.
Definition set_prob (idx p : Z) : M unit := fun s =>
  match store8 (v109 s) idx p with Done t => Done (tt, set_probs t s) | _ => Fault FTable end.

(** The arithmetic of one decision with probability [p]: the bit is 1 when the
    code is below the bound. *)
Definition decide_bit (p : Z) : M Z :=
  r ← sm_gets v10; c ← sm_gets v7;
  let bound := u32 (p * Z.shiftr r 8) in
  if bound <=? c
  then _ ← sm_modify (set_code (u32 (c - bound)) (u32 (r - bound))); mret 0
  else _ ← sm_modify (set_code c bound); mret 1.

(** The pattern every adaptive decision of the code follows: [shift] and [inc]
    are 3 and 31 in trees, 4 and 15 elsewhere. *)
Definition adaptive_bit (idx shift inc : Z) : M Z :=
  p ← get_prob idx; _ ← normalize; b ← decide_bit p;
  let p' := p - Z.shiftr p shift in
  _ ← set_prob idx (if b =? 1 then p' + inc else p'); mret b.

(** ** Literals (lines 123-152) *)

(** The loop [do ... while ( v9 <= 255 )] in the tree [v13]. *)
Fixpoint literal_loop (fuel : nat) (v13 v9 : Z) : M Z :=
  match fuel with
  | O => fun _ => OutOfFuel
  | S fuel' =>
      b ← adaptive_bit (v13 + v9 - 1) 3 31;
      let v9 := 2 * v9 + b in
      if v9 <=? 255 then literal_loop fuel' v13 v9 else mret v9
  end.

Definition literal (v6 v8 v9 : Z) : M Z :=
  let v12 := Z.lor (Z.land v9 0xFFFFF8FF) (Z.shiftl (Z.land (base + v8) 7) 8) in
  literal_loop 8 (255 * Z.land (Z.shiftr v12 v6) 7) 1.

(** ** The length class (lines 170-211)

    [v28] counts the 1s of a unary code, at most up to 6; the flag of the
    match itself is the first decision. *)
Fixpoint class_loop (fuel : nat) (v19 v28 : Z) : M Z :=
  match fuel with
  | O => fun _ => OutOfFuel
  | S fuel' =>
      b ← adaptive_bit (v19 + 2928) 4 15;
      if b =? 0 then mret v28
      else
        let v28 := v28 + 1 in
        if v28 =? 6 then mret v28 else class_loop fuel' (v19 + 8) v28
  end.

(** ** Direct bits (lines 281-290 and 492-501)

    [n] halvings of the range; the bit is [v7 < v10]. *)
Fixpoint direct_bits (n : nat) (v : Z) : M Z :=
  match n with
  | O => mret v
  | S n' =>
      r ← sm_gets v10; c ← sm_gets v7;
      let r := Z.shiftr r 1 in
      let b := if c <? r then 1 else 0 in
      _ ← sm_modify (set_code (if r <=? c then u32 (c - r) else c) r);
      direct_bits n' (u32 (b + 2 * v))
  end.

(** The part shared by lengths (213-317) and distances (426-528): the number
    of [k + 1] bits after the leading 1 is decoded from contexts at [v36]:
    first bit at [v36 + o0], for [k > 3] a second adaptive bit in the same
    context and [k - 4] direct bits, and for [k >= 3] one at [v36 + o3]. *)
Definition high_bits (k v36 o0 o3 : Z) : M Z :=
  b ← adaptive_bit (v36 + o0) 4 15;
  let v35 := 2 + b in
  if 0 <=? k - 3 then
    v35 ←
      (if negb (k =? 3) then
         b ← adaptive_bit (v36 + o0) 4 15;
         let v35 := 2 * v35 + b in
         if negb (k - 3 =? 1) then
           _ ← normalize; direct_bits (Z.to_nat (k - 4)) v35
         else mret v35
       else mret v35);
    b ← adaptive_bit (v36 + o3) 4 15; mret (u32 (2 * v35 + b))
  else mret v35.

(** Lines 318-369 and 529-580. *)
Definition low_bits (k v36 o1 o2 v35 : Z) : M Z :=
  if 0 <? k then
    b ← adaptive_bit (v36 + o1) 4 15;
    let v35 := u32 (2 * v35 + b) in
    if negb (k =? 1) then
      b ← adaptive_bit (v36 + o2) 4 15; mret (u32 (2 * v35 + b))
    else mret v35
  else mret v35.

(** ** The match length (lines 212-369) *)
Definition match_length (v28 v8 v11 : Z) : M Z :=
  let v36 := Z.lor (Z.lor (32 * v28) (8 * Z.land (u32 (Z.shiftl (u32 (base + v8)) v28)) 3))
                   (Z.land v11 7) in
  v35 ← high_bits v28 v36 2984 3008;
  low_bits v28 v36 2992 3000 v35.

(** ** The distance class (lines 384-413)

    A walk down a tree until [v61] reaches [v105]; the result is the final
    [v61]. *)
Fixpoint slot_loop (fuel : nat) (v34 v61 v105 : Z) : M Z :=
  match fuel with
  | O => fun _ => OutOfFuel
  | S fuel' =>
      b ← adaptive_bit (v34 + v61 + 2033) 3 31;
      let v61 := 2 * v61 + (if b =? 1 then 8 else 0) in
      if v61 - v105 <? 0 then slot_loop fuel' v34 v61 v105 else mret v61
  end.

(** ** The distance (lines 415-582): the distance less 1 *)
Definition match_distance (v28 v105 v61 v107 : Z) : M Z :=
  if negb (v61 =? v105) then
    let v106 := Z.shiftr (v61 - v105) 3 in
    let v67 := if 2 <? v107 then 1 else 0 in
    let v68 := v106 - 1 in
    let v69 := Z.lor (Z.lor (8 * Z.land (Z.shiftl v67 v68) 3) (32 * v68)) (Z.land v28 7) in
    v75 ← high_bits v68 v69 2344 2368;
    v75 ← low_bits v68 v69 2352 2360 v75;
    mret (u32 (v75 - 1))
  else mret 0.

(** ** Copying (lines 583-600)

    [v9] is the byte in hand; [n] bytes are stored from [v95] on, each read
    [v66 + 1] behind the place after it; the last byte read stays in hand. *)
Fixpoint copy_loop (n : nat) (v95 v97 v9 : Z) : M Z :=
  match n with
  | O => mret v9
  | S n' => fun s =>
      match store8 (buffer s) v95 v9 with
      | Done b =>
          match load8 b (v95 + 1 + v97) with
          | Done c => copy_loop n' (v95 + 1) v97 c (set_buffer b s)
          | _ => Fault FMem
          end
      | _ => Fault FMem
      end
  end.

(** ** The main loop *)

(** [Lit]: the head of the outer loop, with its test.  [Put]: the head of the
    inner one, which stores [v9] at [i]. *)
Inductive label : Type :=
  | Lit (v8 v9 v11 : Z)
  | Put (i v9 v11 : Z).

(** What a pass of the inner loop does after a match of class [v28]. *)
Definition do_match (buflen i v8 v11 v28 : Z) : M (label + Z) :=
  v35 ← (if v28 =? -1 then mret 1 else match_length v28 v8 v11);
  if v35 =? 255 then mret (inr v8)
  else
    let short := (v35 =? 1) || (v35 =? 2) in
    let v34 := v28 + (if short then 248 else 0) in
    let v105 := if short then 64 else 256 in
    v61 ← slot_loop 5 v34 8 v105;
    v66 ← match_distance v28 v105 v61 v35;
    let v9 := v35 in
    if v8 <=? v66 then mret (inr 0x80560200)
    else
      let v96 := v8 + v9 in
      let v97 := - s32 v66 - 1 in
      first ← (fun s => match load8 (buffer s) (v8 + v97) with
                        | Done c => Done (c, s) | _ => Fault FMem end);
      if negb (v96 <? buflen) then mret (inr 0x80560201)
      else
        c ← copy_loop (Z.to_nat (v96 - (i + 1))) (i + 1) v97 first;
        mret (inl (Put v96 c 7)).

Definition arzl_step (v6 buflen : Z) (l : label) : M (label + Z) :=
  match l with
  | Lit v8 v9 v11 =>
      if v8 =? buflen then mret (inr 0x80560201)
      else v9 ← literal v6 v8 v9; mret (inl (Put v8 v9 v11))
  | Put i v9 v11 =>
      _ ← (fun s => match store8 (buffer s) i v9 with
                    | Done b => Done (tt, set_buffer b s) | _ => Fault FMem end);
      let v8 := i + 1 in
      b ← adaptive_bit (v11 + 2920) 4 15;
      if b =? 0 then mret (inl (Lit v8 v9 (if v11 =? 0 then 0 else v11 - 1)))
      else v28 ← class_loop 7 v11 (-1); do_match buflen i v8 v11 v28
  end.

Fixpoint arzl_loop (fuel : nat) (v6 buflen : Z) (l : label) : M Z :=
  match fuel with
  | O => fun _ => OutOfFuel
  | S fuel' =>
      r ← arzl_step v6 buflen l;
      match r with inl l' => arzl_loop fuel' v6 buflen l' | inr ret => mret ret end
  end.
End Decoder.

(** The probabilities start at [memset(v109, 16 * (8 - ([*input] >> 3 & 3)) & 0xF0, 3240)]. *)
Definition initial_probs (flags : Z) : list Z :=
  replicate 3240 (Z.land (16 * (8 - Z.land (Z.shiftr flags 3) 3)) 0xF0).

(** [arzl_decompress(buffer, buflen, input, NULL)]: the value returned, as
    unsigned, and the buffer.  [base] is the address of [buffer].  Reads past
    the end of [input] are [FInput]. *)
Definition arzl_decompress (input : mem) (base : Z) (buf : mem) (buflen : Z) : run (Z * mem) :=
  match load8 input 0, load32 input 1 with
  | Done flags, Done word =>
      let v6 := Z.land flags 7 in
      let v7 := bswap32 word in
      if Z.land flags 0x80 =? 0 then
        let s := Dec v7 0xFFFFFFFF 0 (initial_probs flags) buf in
        '(ret, s) ← arzl_loop input base (Z.to_nat (2 * buflen + 2)) v6 buflen (Lit 0 0 0) s;
        Done (ret, buffer s)
      else if buflen <? v7 then Done (0x80560201, buf)
      else
        match slice input 5 (Z.to_nat v7) with
        | Done data => buf ← blit buf 0 data; Done (v7, buf)
        | _ => Fault FInput
        end
  | _, _ => Fault FInput
  end.

(** The loop of [unarzl]: the buffer is doubled until the decompressor has
    room.  [realloc n] is the address and the contents of the block that
    [realloc(outbuf, n)] returns. *)
Fixpoint unarzl_loop (fuel : nat) (realloc : Z -> Z * mem) (inbuf : mem) (max_len : Z)
    : run (Z * mem) :=
  match fuel with
  | O => OutOfFuel
  | S fuel' =>
      let max_len := u32 (max_len * 2) in
      let '(base, outbuf) := realloc max_len in
      '(len, outbuf) ← arzl_decompress (drop 4 inbuf) base outbuf max_len;
      if len =? 0x80560201 then unarzl_loop fuel' realloc inbuf max_len
      else Done (len, outbuf)
  end.

(** [unarzl(inbuf, &size)]: the block returned and the new [size].  [len] is
    unsigned, so the test [len < 0] is never true. *)
Definition unarzl (fuel : nat) (realloc : Z -> Z * mem) (inbuf : mem) (size : Z) : run (mem * Z) :=
  '(len, outbuf) ← unarzl_loop fuel realloc inbuf size;
  outbuf ← arzl_deobfuscate outbuf (s32 len) 2;
  Done (outbuf, len).

(** ** Safety and termination *)

(** A probability never leaves [7, 255]. *)
Definition prob_ok (p : Z) : Prop := 7 <= p <= 255.

Record dec_ok (s : dec) : Prop := {
  ok_code : 0 <= v7 s < 2 ^ 32;
  ok_range : 0 <= v10 s < 2 ^ 32;
  ok_pos : 0 <= input_1 s;
  ok_table : length (v109 s) = 3240%nat;
  ok_probs : Forall prob_ok (v109 s);
}.

(** What an update does to a probability: [shift] and [inc] as in
    [adaptive_bit]. *)
Lemma prob_update p shift inc b : prob_ok p -> (shift = 3 /\ inc = 31 \/ shift = 4 /\ inc = 15) ->
  prob_ok (u8 (if b : bool then p - Z.shiftr p shift + inc else p - Z.shiftr p shift)).
Proof.
  unfold prob_ok. intros Hp Hs.
  assert (Z.shiftr p 3 = p / 8) as E3 by (by rewrite Z.shiftr_div_pow2).
  assert (Z.shiftr p 4 = p / 16) as E4 by (by rewrite Z.shiftr_div_pow2).
  pose proof (Z.div_mod p 8 ltac:(lia)). pose proof (Z.mod_pos_bound p 8 ltac:(lia)).
  pose proof (Z.div_mod p 16 ltac:(lia)). pose proof (Z.mod_pos_bound p 16 ltac:(lia)).
  destruct Hs as [[-> ->]|[-> ->]]; rewrite ?E3, ?E4; destruct b; rewrite u8_small; lia.
Qed.

Section Safety.
Context (input : mem) (base : Z) (Hinput : bytes_ok input).

(** [wp T m Q]: from any well-formed state [m] does not run out of fuel or
    leave the output buffer; it ends in a well-formed state with the same
    output and a value in [Q], or at the end of the input, or, only if [T],
    outside the probability table. *)
Definition wp {A} (T : Prop) (m : SM dec A) (Q : A -> Prop) : Prop := forall s, dec_ok s ->
  match m s with
  | Done (a, s') => dec_ok s' /\ buffer s' = buffer s /\ Q a
  | Fault FInput => True
  | Fault FTable => T
  | _ => False
  end.

Lemma wp_ret {A} T (a : A) (Q : A -> Prop) : Q a -> wp T (mret a) Q.
Proof. intros HQ s Hs. by split. Qed.

Lemma wp_bind {A B} T (m : SM dec A) (f : A -> SM dec B) Q R :
  wp T m Q -> (forall a, Q a -> wp T (f a) R) -> wp T (m ≫= f) R.
Proof.
  intros Hm Hf s Hs. specialize (Hm s Hs). unfold mbind, sm_bind.
  destruct (m s) as [[a s']|[]|]; try done. destruct Hm as (Hs' & Hb & HQ).
  specialize (Hf a HQ s' Hs'). destruct (f a s') as [[b s'']|[]|]; try done.
  destruct Hf as (? & ? & ?). split; [done|]. split; [congruence|done].
Qed.

Lemma wp_weaken {A} T (m : SM dec A) (Q R : A -> Prop) :
  wp T m Q -> (forall a, Q a -> R a) -> wp T m R.
Proof.
  intros Hm HQR s Hs. specialize (Hm s Hs). destruct (m s) as [[a s']|[]|]; try done.
  destruct Hm as (? & ? & ?). auto.
Qed.

Lemma wp_gets {A} T (f : dec -> A) (Q : A -> Prop) :
  (forall s, dec_ok s -> Q (f s)) -> wp T (sm_gets f) Q.
Proof. intros H s Hs. split; [done|]. split; [done|]. by apply H. Qed.

Lemma wp_set_code T c r : 0 <= c < 2 ^ 32 -> 0 <= r < 2 ^ 32 ->
  wp T (sm_modify (set_code c r)) (fun _ => True).
Proof. intros Hc Hr s []. split; [by constructor|done]. Qed.

Lemma wp_normalize T : wp T (normalize input) (fun _ => True).
Proof.
  unfold normalize. eapply wp_bind; [by apply (wp_gets _ _ (fun _ => True))|]. intros r _.
  case_match; [|by apply wp_ret].
  eapply wp_bind with (Q := is_byte).
  - intros s Hs. unfold next_byte. destruct (load8 input (input_1 s + 5)) as [b| |] eqn:E; [|done..].
    destruct Hs. split; [by constructor; simpl; try lia|]. split; [done|].
    by eapply load8_byte.
  - intros b Hb s []. split; [|done]. constructor; simpl; try done; apply u32_range.
Qed.

Lemma wp_decide_bit T p : wp T (decide_bit p) (fun b => b = 0 \/ b = 1).
Proof.
  unfold decide_bit.
  eapply wp_bind; [by apply (wp_gets _ _ (fun _ => True))|]. intros r _.
  eapply wp_bind; [apply (wp_gets _ _ (fun c => 0 <= c < 2 ^ 32)); by intros s []|]. intros c Hc.
  case_match; (eapply wp_bind; [apply wp_set_code; apply u32_range || done|]);
    intros _ _; apply wp_ret; auto.
Qed.

Lemma wp_adaptive_bit T idx shift inc :
  0 <= idx -> idx < 3240 \/ T -> (shift = 3 /\ inc = 31 \/ shift = 4 /\ inc = 15) ->
  wp T (adaptive_bit input idx shift inc) (fun b => b = 0 \/ b = 1).
Proof.
  intros Hi0 Hi Hs. unfold adaptive_bit.
  apply wp_bind with (Q := fun p => prob_ok p /\ idx < 3240).
  { intros s Hok. unfold get_prob. destruct (load8 (v109 s) idx) as [p|f|] eqn:E.
    - apply load8_inv in E as [_ E]. destruct Hok. split; [done|]. split; [done|].
      split; [by apply (Forall_lookup_1 _ _ _ _ ok_probs0 E)|].
      apply lookup_lt_Some in E. rewrite ok_table0 in E. lia.
    - destruct Hi as [Hi|]; [|by destruct f].
      destruct (load8_total (v109 s) idx) as [b Hb]; [|congruence].
      unfold mlen. rewrite (ok_table _ Hok). lia.
    - unfold load8 in E. repeat case_match; done. }
  intros p [Hp Hlt]. eapply wp_bind; [apply wp_normalize|]. intros _ _.
  eapply wp_bind; [apply wp_decide_bit|]. intros b Hb.
  apply wp_bind with (Q := fun _ => True); [|intros _ _; by apply wp_ret].
  intros s Hok. unfold set_prob.
  rewrite store8_total by (unfold mlen; rewrite (ok_table _ Hok); lia).
  split; [|done]. destruct Hok. constructor; simpl; try done.
  - by rewrite length_insert.
  - apply Forall_insert; [done|]. pose proof (prob_update p shift inc (b =? 1) Hp Hs) as H.
    by destruct (b =? 1).
Qed.

(** *** Bit strings with a leading 1 *)

Definition in_class (j v : Z) : Prop := 2 ^ j <= v < 2 ^ (j + 1).

Lemma in_class_step j v b : 0 <= j -> in_class j v -> b = 0 \/ b = 1 ->
  in_class (j + 1) (2 * v + b).
Proof. unfold in_class. intros Hj Hv Hb. rewrite !Z.pow_add_r in * by lia. lia. Qed.

Lemma in_class_u32 j v : 0 <= j <= 31 -> in_class j v -> u32 v = v.
Proof.
  unfold in_class. intros Hj Hv. apply u32_small.
  pose proof (Z.pow_le_mono_r 2 (j + 1) 32 ltac:(lia) ltac:(lia)).
  pose proof (Z.pow_pos_nonneg 2 j ltac:(lia) ltac:(lia)). lia.
Qed.

Lemma in_class_step_u32 j v b : 0 <= j <= 30 -> in_class j v -> b = 0 \/ b = 1 ->
  in_class (j + 1) (u32 (2 * v + b)).
Proof.
  intros Hj Hv Hb. pose proof (in_class_step j v b ltac:(lia) Hv Hb).
  by rewrite (in_class_u32 (j + 1)) by (done || lia).
Qed.

Lemma in_class_first b : b = 0 \/ b = 1 -> in_class 1 (2 + b).
Proof. unfold in_class. simpl. lia. Qed.

(** *** The loops *)

Lemma wp_literal_loop T fuel j v13 v9 :
  j + Z.of_nat fuel = 8 -> 0 <= j < 8 -> in_class j v9 -> 0 <= v13 <= 1785 ->
  wp T (literal_loop input fuel v13 v9) (fun v => 256 <= v < 512).
Proof.
  revert j v9; induction fuel as [|fuel IH]; intros j v9 Hf Hj Hv H13; [lia|].
  cbn [literal_loop].
  assert (1 <= v9 <= 255) as Hr.
  { unfold in_class in Hv. pose proof (Z.pow_le_mono_r 2 (j + 1) 8 ltac:(lia) ltac:(lia)).
    pose proof (Z.pow_pos_nonneg 2 j ltac:(lia) ltac:(lia)). lia. }
  eapply wp_bind; [apply wp_adaptive_bit; lia|]. intros b Hb.
  pose proof (in_class_step j v9 b ltac:(lia) Hv Hb) as Hv'.
  destruct (Z.leb_spec (2 * v9 + b) 255) as [Hle|Hgt].
  - apply (IH (j + 1)); try lia; [|done]. destruct (decide (j = 7)) as [->|]; [|lia].
    unfold in_class in Hv'. change (2 ^ (7 + 1)) with 256 in Hv'. lia.
  - apply wp_ret. cbv beta in *. lia.
Qed.

Lemma wp_literal T v6 v8 v9 : 0 <= v6 -> wp T (literal input base v6 v8 v9) (fun v => 256 <= v < 512).
Proof.
  intros H6. unfold literal. apply (wp_literal_loop T 8 0); [lia|lia|done|].
  pose proof (land_range (Z.shiftr (Z.lor (Z.land v9 0xFFFFF8FF)
    (Z.shiftl (Z.land (base + v8) 7) 8)) v6) 7 3 ltac:(lia) ltac:(lia)). lia.
Qed.

Lemma wp_class_loop T fuel v19 v28 :
  Z.of_nat fuel = 6 - v28 -> -1 <= v28 <= 5 -> 0 <= v19 -> v19 + 8 * (5 - v28) <= 55 ->
  wp T (class_loop input fuel v19 v28) (fun v => -1 <= v <= 6).
Proof.
  revert v19 v28; induction fuel as [|fuel IH]; intros v19 v28 Hf H28 H19 Hle; [lia|].
  cbn [class_loop]. eapply wp_bind; [apply wp_adaptive_bit; lia|]. intros b _.
  case_match; [apply wp_ret; cbv beta in *; lia|].
  destruct (Z.eqb_spec (v28 + 1) 6); [apply wp_ret; cbv beta in *; lia|]. apply IH; lia.
Qed.

Lemma wp_direct_bits T n j v : 0 <= j -> j + Z.of_nat n <= 31 -> in_class j v ->
  wp T (direct_bits n v) (in_class (j + Z.of_nat n)).
Proof.
  revert j v; induction n as [|n IH]; intros j v Hj Hn Hv; cbn [direct_bits].
  { apply wp_ret. by rewrite Z.add_0_r. }
  eapply wp_bind; [apply (wp_gets _ _ (fun r => 0 <= r < 2 ^ 32)); by intros s []|]. intros r Hr.
  eapply wp_bind; [apply (wp_gets _ _ (fun c => 0 <= c < 2 ^ 32)); by intros s []|]. intros c Hc.
  assert (0 <= Z.shiftr r 1 < 2 ^ 32) as Hr'.
  { pose proof (shiftr_range r 1 32 Hr ltac:(lia)). lia. }
  eapply wp_bind; [apply wp_set_code; [case_match; [apply u32_range|done]|done]|]. intros _ _.
  replace (j + Z.of_nat (S n)) with (j + 1 + Z.of_nat n) by lia. apply IH; [lia|lia|].
  rewrite (Z.add_comm _ (2 * v)). apply in_class_step_u32; [lia|done|]. case_match; lia.
Qed.

(** The indices of a context, with offset [o], are inside the table. *)
Definition idx_ok (T : Prop) (i : Z) : Prop := 0 <= i /\ (i < 3240 \/ T).

Lemma wp_context_bit T i : idx_ok T i ->
  wp T (adaptive_bit input i 4 15) (fun b => b = 0 \/ b = 1).
Proof. intros []. apply wp_adaptive_bit; lia || auto. Qed.

(** The number of bits [high_bits] decodes after the leading 1. *)
Definition high_count (k : Z) : Z := if k <? 3 then 1 else k - 1.

Lemma wp_high_bits T k v36 o0 o3 : 0 <= k <= 30 ->
  idx_ok T (v36 + o0) -> idx_ok T (v36 + o3) ->
  wp T (high_bits input k v36 o0 o3) (in_class (high_count k)).
Proof.
  intros Hk H0 H3. unfold high_bits, high_count.
  eapply wp_bind; [by apply wp_context_bit|]. intros b Hb. apply in_class_first in Hb.
  destruct (Z.leb_spec 0 (k - 3)) as [Hk3|Hk3].
  2: { apply wp_ret. destruct (Z.ltb_spec k 3); [done|lia]. }
  destruct (Z.ltb_spec k 3); [lia|].
  apply wp_bind with (Q := in_class (k - 2)).
  - destruct (Z.eqb_spec k 3) as [->|Hne]; cbn [negb]; [by apply wp_ret|].
    eapply wp_bind; [by apply wp_context_bit|]. intros b' Hb'.
    pose proof (in_class_step 1 _ b' ltac:(lia) Hb Hb') as Hv.
    destruct (Z.eqb_spec (k - 3) 1); cbn [negb].
    + apply wp_ret. by replace (k - 2) with (1 + 1) by lia.
    + eapply wp_bind; [apply wp_normalize|]. intros _ _.
      replace (k - 2) with (1 + 1 + Z.of_nat (Z.to_nat (k - 4))) by lia.
      apply wp_direct_bits; [lia|lia|done].
  - intros v Hv. eapply wp_bind; [by apply wp_context_bit|]. intros b' Hb'. apply wp_ret.
    replace (k - 1) with (k - 2 + 1) by lia. apply in_class_step_u32; [lia|done|done].
Qed.

Lemma wp_low_bits T k v36 o1 o2 v : 0 <= k <= 30 ->
  idx_ok T (v36 + o1) -> idx_ok T (v36 + o2) -> in_class (high_count k) v ->
  wp T (low_bits input k v36 o1 o2 v) (in_class (k + 1)).
Proof.
  intros Hk H1 H2 Hv. unfold low_bits, high_count in *.
  destruct (Z.ltb_spec 0 k).
  2: { apply wp_ret. by assert (k = 0) as -> by lia. }
  eapply wp_bind; [by apply wp_context_bit|]. intros b Hb.
  destruct (Z.eqb_spec k 1) as [->|Hne]; cbn [negb].
  - apply wp_ret. by apply (in_class_step_u32 1).
  - eapply wp_bind; [by apply wp_context_bit|]. intros b' Hb'. apply wp_ret.
    replace (k + 1) with ((if k <? 3 then 1 else k - 1) + 1 + 1)
      by (destruct (Z.ltb_spec k 3); lia).
    assert (0 <= (if k <? 3 then 1 else k - 1) <= 29) by (destruct (Z.ltb_spec k 3); lia).
    apply in_class_step_u32; [lia| |done]. apply in_class_step_u32; [lia|done|done].
Qed.

(** The contexts of a class: disjoint bit fields. *)
Lemma context_base k x y : 0 <= k -> 0 <= x < 4 -> 0 <= y < 8 ->
  Z.lor (Z.lor (32 * k) (8 * x)) y = 32 * k + 8 * x + y.
Proof.
  intros Hk Hx Hy. replace (32 * k) with (k * 2 ^ 5) by lia.
  rewrite lor_mul_pow2 by lia.
  replace (k * 2 ^ 5 + 8 * x) with ((k * 4 + x) * 2 ^ 3) by lia.
  rewrite lor_mul_pow2 by lia. lia.
Qed.

Lemma wp_match_length T v28 v8 v11 : 0 <= v28 <= 6 ->
  wp T (match_length input base v28 v8 v11) (in_class (v28 + 1)).
Proof.
  intros H. unfold match_length.
  pose proof (land_range (u32 (Z.shiftl (u32 (base + v8)) v28)) 3 2 ltac:(lia) ltac:(lia)).
  pose proof (land_range v11 7 3 ltac:(lia) ltac:(lia)).
  rewrite context_base by lia.
  eapply wp_bind; [apply wp_high_bits; [lia|split; lia..]|]. intros v Hv.
  apply wp_low_bits; [lia|split; lia..|done].
Qed.

Lemma wp_slot_loop T fuel j n v34 v61 :
  0 <= j < n -> n <= j + Z.of_nat fuel -> n <= 5 ->
  8 * 2 ^ j <= v61 < 8 * 2 ^ (j + 1) -> v61 mod 8 = 0 ->
  0 <= v34 + 2041 -> v34 <= 254 ->
  wp T (slot_loop input fuel v34 v61 (8 * 2 ^ n))
    (fun v => 8 * 2 ^ n <= v < 8 * 2 ^ (n + 1) /\ v mod 8 = 0).
Proof.
  revert j v61; induction fuel as [|fuel IH]; intros j v61 Hj Hn Hn5 Hv Hm H34 H34'; [lia|].
  cbn [slot_loop].
  assert (8 <= v61 < 8 * 2 ^ n) as Hr.
  { pose proof (Z.pow_le_mono_r 2 (j + 1) n ltac:(lia) ltac:(lia)).
    pose proof (Z.pow_pos_nonneg 2 j ltac:(lia) ltac:(lia)). lia. }
  assert (2 ^ n <= 32) by (apply (Z.pow_le_mono_r 2 n 5); lia).
  eapply wp_bind; [apply wp_adaptive_bit; lia|]. intros b Hb.
  set (v := 2 * v61 + (if b =? 1 then 8 else 0)).
  assert (8 * 2 ^ (j + 1) <= v < 8 * 2 ^ (j + 1 + 1) /\ v mod 8 = 0) as [Hv' Hm'].
  { subst v. rewrite !Z.pow_add_r in * by lia.
    apply Z.mod_divide in Hm as [q ->]; [|lia]. split; [destruct (b =? 1); lia|].
    apply Z.mod_divide; [lia|]. exists (2 * q + (if b =? 1 then 1 else 0)). destruct (b =? 1); lia. }
  destruct (Z.ltb_spec (v - 8 * 2 ^ n) 0) as [Hlt|Hge].
  - apply (IH (j + 1)); try done; [|lia].
    assert (j + 1 < n); [|lia]. apply (Z.pow_lt_mono_r_iff 2); lia.
  - apply wp_ret. split; [|done]. split; [lia|]. eapply Z.lt_le_trans; [apply Hv'|].
    apply Z.mul_le_mono_nonneg_l; [lia|]. apply Z.pow_le_mono_r; lia.
Qed.

(** A distance never wraps; only a class of 29 or more leaves the table. *)
Lemma wp_match_distance (T : Prop) v28 v105 v61 v107 :
  v105 <= v61 <= 2 * v105 - 8 -> v105 <= 256 -> (v61 - v105) mod 8 = 0 ->
  (29 <= Z.shiftr (v61 - v105) 3 -> T) ->
  wp T (match_distance input v28 v105 v61 v107) (fun v => 0 <= v < 2 ^ 32).
Proof.
  intros H61 H105 Hm HT. unfold match_distance.
  destruct (Z.eqb_spec v61 v105); cbn [negb]; [apply wp_ret; cbv beta in *; lia|].
  assert (Z.shiftr (v61 - v105) 3 = (v61 - v105) / 8) as E by by rewrite Z.shiftr_div_pow2.
  apply Z.mod_divide in Hm as [q Hq]; [|lia].
  rewrite E in *. rewrite Hq, Z.div_mul in * by lia. assert (1 <= q <= 31) as Hq1 by lia.
  pose proof (land_range (Z.shiftl (if 2 <? v107 then 1 else 0) (q - 1)) 3 2 ltac:(lia) ltac:(lia)).
  pose proof (land_range v28 7 3 ltac:(lia) ltac:(lia)).
  rewrite (Z.lor_comm (8 * _)), context_base by lia.
  assert (2 <= q - 1 -> Z.land (Z.shiftl (if 2 <? v107 then 1 else 0) (q - 1)) 3 = 0) as Hx0.
  { intros Hq2. change 3 with (Z.ones 2). rewrite Z.land_ones, Z.shiftl_mul_pow2 by lia.
    replace (q - 1) with (q - 3 + 2) by lia. rewrite Z.pow_add_r, Z.mul_assoc by lia.
    apply Z.mod_mul. lia. }
  assert (forall o, 0 <= o <= 2368 -> idx_ok T (32 * (q - 1) +
    8 * Z.land (Z.shiftl (if 2 <? v107 then 1 else 0) (q - 1)) 3 + Z.land v28 7 + o)) as Hidx.
  { intros o Ho. split; [lia|]. destruct (decide (29 <= q)); [auto|].
    destruct (decide (2 <= q - 1)) as [H2|]; [rewrite Hx0 by done; lia|lia]. }
  eapply wp_bind; [apply wp_high_bits; [lia|apply Hidx; lia..]|]. intros v Hv.
  eapply wp_bind; [apply wp_low_bits; [lia|apply Hidx; lia..|done]|]. intros v' Hv'.
  apply wp_ret. apply u32_range.
Qed.

(** *** Copying *)

(** The loop stores an overlapping copy from [d] bytes back; the byte in hand
    at the end is the one that continues it. *)
Lemma copy_loop_spec n v95 d c s :
  1 <= d <= v95 -> v95 + Z.of_nat n <= mlen (buffer s) -> bytes_ok (buffer s) ->
  load8 (buffer s) (v95 - d) = Done c ->
  exists c' b', copy_loop n v95 (- d) c s = Done (c', set_buffer b' s) /\
    mlen b' = mlen (buffer s) /\ bytes_ok b' /\
    (forall j, j < v95 \/ v95 + Z.of_nat n <= j -> load8 b' j = load8 (buffer s) j) /\
    (forall j, v95 <= j < v95 + Z.of_nat n -> load8 b' j = load8 b' (j - d)) /\
    load8 b' (v95 + Z.of_nat n - d) = Done c'.
Proof.
  revert v95 c s; induction n as [|n IH]; intros v95 c s Hd Hroom Hok Hc; cbn [copy_loop].
  { exists c, (buffer s). rewrite Z.add_0_r. destruct s. repeat split; auto. lia. }
  pose proof (load8_byte _ _ _ Hok Hc) as Hcb.
  assert (exists b1, store8 (buffer s) v95 c = Done b1) as [b1 E1]
    by (rewrite store8_total by lia; eauto).
  rewrite E1.
  pose proof (store8_mlen _ _ _ _ E1) as Hm1. pose proof (store8_bytes_ok _ _ _ _ Hok E1) as Hok1.
  destruct (load8_total b1 (v95 + 1 + - d)) as [c1 Hc1]; [lia|]. rewrite Hc1.
  destruct (IH (v95 + 1) c1 (set_buffer b1 s)) as (c' & b' & E & Hm & Hokb & Hold & Hnew & Hlast).
  { lia. } { simpl. lia. } { done. } { exact Hc1. }
  simpl in *. exists c', b'. split; [exact E|]. split; [lia|]. split; [done|].
  assert (forall j, j < v95 -> load8 b' j = load8 (buffer s) j) as Hlow.
  { intros j Hj. rewrite Hold by lia. eapply load8_store8_other; [done|lia]. }
  split; [|split].
  - intros j [Hj|Hj]; [by apply Hlow|]. rewrite Hold by lia.
    eapply load8_store8_other; [done|lia].
  - intros j Hj. destruct (decide (j = v95)) as [->|]; [|apply Hnew; lia].
    rewrite (Hlow (v95 - d)), Hc, Hold by lia. rewrite (load8_store8_same _ _ _ _ E1).
    by rewrite u8_small.
  - rewrite <- Hlast. f_equal. lia.
Qed.

(** ** The main loop *)

Record out_ok (buflen : Z) (s : dec) : Prop := {
  out_dec : dec_ok s;
  out_len : mlen (buffer s) = buflen;
  out_bytes : bytes_ok (buffer s);
}.

Definition label_ok (buflen : Z) (l : label) : Prop :=
  match l with
  | Lit v8 v9 v11 => 0 <= v8 <= buflen /\ 0 <= v11 <= 7
  | Put i v9 v11 => 0 <= i < buflen /\ 0 <= v11 <= 7
  end.

(** Each label is followed by one of smaller measure. *)
Definition measure (buflen : Z) (l : label) : Z :=
  match l with Lit v8 _ _ => 2 * (buflen - v8) + 1 | Put i _ _ => 2 * (buflen - i) end.

Definition result_ok (buflen ret : Z) : Prop :=
  0 <= ret <= buflen \/ ret = 0x80560200 \/ ret = 0x80560201.

(** What a match that goes on has done: [v96 - v8] bytes from [v8] on are an
    overlapping copy from [d] back, and so is the byte [c] still in hand. *)
Definition copied (buflen v8 : Z) (s s' : dec) (v96 c : Z) : Prop :=
  exists d, 1 <= d <= v8 /\ v8 < v96 < buflen /\ v96 - v8 <= 254 /\
    (forall j, j < v8 -> load8 (buffer s') j = load8 (buffer s) j) /\
    (forall j, v8 <= j < v96 -> load8 (buffer s') j = load8 (buffer s') (j - d)) /\
    load8 (buffer s') (v96 - d) = Done c.

(** Running [m] first, in a state that satisfies the invariant. *)
Lemma out_step {A B} buflen (T : Prop) (m : SM dec A) (f : A -> SM dec B) Q s (P : run (B * dec) -> Prop) :
  wp T m Q -> out_ok buflen s ->
  (forall a s', out_ok buflen s' -> buffer s' = buffer s -> Q a -> P (f a s')) ->
  P (Fault FInput) -> (T -> P (Fault FTable)) -> P ((m ≫= f) s).
Proof.
  intros Hm [Hd Hl Hb] Hf HI HT. specialize (Hm s Hd). unfold mbind, sm_bind.
  destruct (m s) as [[a s']|[]|]; try done; [|by apply HT].
  destruct Hm as (Hs' & Heq & HQ). apply Hf; [|done|done].
  split; [done|congruence|by rewrite Heq].
Qed.

(** What [do_match] may end with. *)
Definition match_outcome (buflen v8 : Z) (s : dec) (r : run ((label + Z) * dec)) : Prop :=
  match r with
  | Done (inl (Put v96 c v11), s') =>
      out_ok buflen s' /\ v11 = 7 /\ copied buflen v8 s s' v96 c
  | Done (inl (Lit _ _ _), _) => False
  | Done (inr ret, s') => out_ok buflen s' /\ result_ok buflen ret
  | Fault FInput | Fault FTable => True
  | _ => False
  end.

(** The copy at the end of [do_match]. *)
Lemma do_copy buflen v8 v66 v35 s0 s : buflen < 2 ^ 31 -> out_ok buflen s ->
  buffer s = buffer s0 -> 0 <= v66 < v8 -> 0 < v8 -> 1 <= v35 <= 254 -> v8 + v35 < buflen ->
  exists first, load8 (buffer s) (v8 + (- s32 v66 - 1)) = Done first /\
    match_outcome buflen v8 s0
      ((c ← copy_loop (Z.to_nat (v8 + v35 - v8)) v8 (- s32 v66 - 1) first;
        mret (inl (Put (v8 + v35) c 7))) s).
Proof.
  intros Hbl [Hd Hl Hb] Hs0 H66 H8 H35 Hend. rewrite s32_small by lia.
  replace (- v66 - 1) with (- (v66 + 1)) by lia.
  destruct (load8_total (buffer s) (v8 - (v66 + 1))) as [first Hf]; [lia|].
  exists first. rewrite Z.add_opp_r. split; [done|].
  replace (v8 + v35 - v8) with v35 by lia.
  destruct (copy_loop_spec (Z.to_nat v35) v8 (v66 + 1) first s)
    as (c & b' & E & Hm & Hok & Hold & Hnew & Hlast); try done; try lia.
  rewrite (sm_bind_Done _ _ _ _ _ E). rewrite Z2Nat.id in * by lia. cbn.
  split; [|split; [done|]].
  - split; [by destruct Hd; constructor|simpl; lia|done].
  - exists (v66 + 1). split; [lia|]. split; [lia|]. split; [lia|]. simpl.
    split; [intros j Hj; rewrite <- Hs0; apply Hold; lia|]. done.
Qed.

(** The length, the class and the distance of a match. *)
Lemma wp_first_length v28 v8 v11 : -1 <= v28 <= 6 ->
  wp True (if v28 =? -1 then mret 1 else match_length input base v28 v8 v11)
    (fun v => 1 <= v <= 255 /\ (v = 1 <-> v28 = -1)).
Proof.
  intros H28. destruct (Z.eqb_spec v28 (-1)) as [->|]; [by apply wp_ret|].
  eapply wp_weaken; [apply wp_match_length; lia|]. unfold in_class. intros v Hv.
  pose proof (Z.pow_le_mono_r 2 (v28 + 1 + 1) 8 ltac:(lia) ltac:(lia)).
  pose proof (Z.pow_le_mono_r 2 1 (v28 + 1) ltac:(lia) ltac:(lia)). lia.
Qed.

Definition class_ok (v105 v61 : Z) : Prop :=
  v105 <= v61 <= 2 * v105 - 8 /\ (v61 - v105) mod 8 = 0.

Lemma wp_match_class v28 v35 (short := (v35 =? 1) || (v35 =? 2)) :
  1 <= v35 <= 255 -> (v35 = 1 <-> v28 = -1) -> -1 <= v28 <= 6 ->
  wp True (slot_loop input 5 (v28 + (if short then 248 else 0)) 8 (if short then 64 else 256))
    (class_ok (if short then 64 else 256)).
Proof.
  intros H35 H35' H28.
  assert (exists n, (if short then 64 else 256) = 8 * 2 ^ n /\ 1 <= n <= 5 /\
    0 <= v28 + (if short then 248 else 0) + 2041 /\ v28 + (if short then 248 else 0) <= 254)
    as (n & -> & Hn & Hv34 & Hv34').
  { subst short. destruct (Z.eqb_spec v35 1); [exists 3; cbn; lia|].
    destruct (Z.eqb_spec v35 2); [exists 3; cbn; lia|exists 5; cbn; lia]. }
  eapply wp_weaken; [apply (wp_slot_loop True 5 0 n); (done || lia || (simpl; lia))|].
  intros v61 [H61 Hm61]. rewrite Z.pow_add_r in H61 by lia.
  apply Z.mod_divide in Hm61 as [q ->]; [|lia]. split; [lia|].
  apply Z.mod_divide; [lia|]. exists (q - 2 ^ n). lia.
Qed.

Lemma wp_class_distance v28 v105 v61 v35 : class_ok v105 v61 -> v105 <= 256 ->
  wp True (match_distance input v28 v105 v61 v35) (fun v => 0 <= v < 2 ^ 32).
Proof. intros [H61 Hm] H105. by apply (wp_match_distance True). Qed.

Lemma do_match_spec buflen v8 v11 v28 s :
  buflen < 2 ^ 31 -> out_ok buflen s -> 0 < v8 <= buflen -> -1 <= v28 <= 6 ->
  match_outcome buflen v8 s (do_match input base buflen (v8 - 1) v8 v11 v28 s).
Proof.
  intros Hbl Hs H8 H28. unfold do_match.
  eapply (out_step buflen True); [by apply wp_first_length|done| |done|done].
  intros v35 s1 Hs1 Hb1 [H35 H35']. destruct (Z.eqb_spec v35 255) as [->|Hne].
  { cbn. split; [done|]. left. lia. }
  cbv zeta. eapply (out_step buflen True); [by apply wp_match_class|done| |done|done].
  intros v61 s2 Hs2 Hb2 H61.
  eapply (out_step buflen True); [apply wp_class_distance; [exact H61|case_match; lia]|done| |done|done].
  intros v66 s3 Hs3 Hb3 H66. cbv beta in H66.
  destruct (Z.leb_spec v8 v66) as [Hle|Hlt]; [cbn; split; [done|unfold result_ok; auto]|].
  assert (buffer s3 = buffer s) as Hb by congruence.
  destruct (Z.ltb_spec (v8 + v35) buflen) as [Hend|Hend].
  - destruct (do_copy buflen v8 v66 v35 s s3) as (first & Hf & Ho); try done; try lia.
    rewrite (sm_bind_Done _ _ s3 first s3) by by rewrite Hf.
    replace (v8 - 1 + 1) with v8 by lia. exact Ho.
  - destruct (load8_total (buffer s3) (v8 + (- s32 v66 - 1))) as [first Hf].
    { rewrite s32_small by lia. rewrite (out_len _ _ Hs3). lia. }
    rewrite (sm_bind_Done _ _ s3 first s3) by by rewrite Hf.
    split; [done|]. unfold result_ok. auto.
Qed.

(** What one step may end with. *)
Definition step_outcome (buflen : Z) (l : label) (r : run ((label + Z) * dec)) : Prop :=
  match r with
  | Done (inl l', s') => out_ok buflen s' /\ label_ok buflen l' /\ 0 <= measure buflen l' < measure buflen l
  | Done (inr ret, s') => out_ok buflen s' /\ result_ok buflen ret
  | Fault FInput | Fault FTable => True
  | _ => False
  end.

Lemma arzl_step_spec v6 buflen l s : buflen < 2 ^ 31 -> 0 <= v6 ->
  out_ok buflen s -> label_ok buflen l ->
  step_outcome buflen l (arzl_step input base v6 buflen l s).
Proof.
  intros Hbl H6 Hs Hl. destruct l as [v8 v9 v11|i v9 v11]; cbn [arzl_step label_ok] in *.
  - destruct (Z.eqb_spec v8 buflen) as [->|Hne]; [split; [done|unfold result_ok; auto]|].
    eapply (out_step buflen True); [by apply wp_literal|done| |done|done].
    intros v9' s1 Hs1 _ _. split; [done|]. simpl. lia.
  - destruct Hl as [Hi H11]. pose proof Hs as [Hd Hlen Hbytes].
    pose proof (store8_total (buffer s) i v9 ltac:(lia)) as E.
    rewrite (sm_bind_Done _ _ s tt (set_buffer (<[Z.to_nat i:=u8 v9]> (buffer s)) s)) by by rewrite E.
    assert (out_ok buflen (set_buffer (<[Z.to_nat i:=u8 v9]> (buffer s)) s)) as Hs0.
    { split; [by destruct Hd; constructor| |].
      - rewrite <- Hlen. exact (store8_mlen _ _ _ _ E).
      - exact (store8_bytes_ok _ _ _ _ Hbytes E). }
    eapply (out_step buflen True); [apply (wp_adaptive_bit True); lia|exact Hs0| |done|done].
    intros b s1 Hs1 _ _. destruct (Z.eqb_spec b 0).
    { split; [done|]. simpl. destruct (Z.eqb_spec v11 0); lia. }
    eapply (out_step buflen True); [apply (wp_class_loop True); lia|exact Hs1| |done|done].
    intros v28 s2 Hs2 _ H28.
    pose proof (do_match_spec buflen (i + 1) v11 v28 s2 Hbl Hs2 ltac:(lia) H28) as Ho.
    replace (i + 1 - 1) with i in Ho by lia.
    destruct (do_match input base buflen i (i + 1) v11 v28 s2) as [[[[]|] s3]|[]|]; try done.
    destruct Ho as (Hs3 & -> & (d & Hd1 & Hd2 & Hd3 & _)). split; [done|]. simpl. lia.
Qed.

Lemma arzl_loop_spec fuel v6 buflen l s : buflen < 2 ^ 31 -> 0 <= v6 ->
  out_ok buflen s -> label_ok buflen l -> measure buflen l < Z.of_nat fuel ->
  match arzl_loop input base fuel v6 buflen l s with
  | Done (ret, s') => out_ok buflen s' /\ result_ok buflen ret
  | Fault FInput | Fault FTable => True
  | _ => False
  end.
Proof.
  intros Hbl H6. revert l s; induction fuel as [|fuel IH]; intros l s Hs Hl Hm.
  { destruct l; simpl in *; lia. }
  cbn [arzl_loop]. pose proof (arzl_step_spec v6 buflen l s Hbl H6 Hs Hl) as Ho.
  unfold mbind, sm_bind.
  destruct (arzl_step input base v6 buflen l s) as [[[l'|ret] s']|[]|]; try done.
  destruct Ho as (Hs' & Hl' & Hm'). apply IH; [done|done|lia].
Qed.
(** *** Independence of the buffer's first contents

    Two buffers of one length whose first [n] bytes agree. *)
Definition agrees (n : Z) (a b : mem) : Prop :=
  mlen a = mlen b /\ forall j, j < n -> load8 a j = load8 b j.

Lemma agrees_store n a b i v a' : agrees n a b -> i = n -> store8 a i v = Done a' ->
  exists b', store8 b i v = Done b' /\ agrees (n + 1) a' b'.
Proof.
  intros [Hl Ha] -> E. pose proof (store8_inv _ _ _ _ E) as [Hr _].
  pose proof (store8_total b n v ltac:(lia)) as E'. eexists. split; [exact E'|].
  split; [by rewrite (store8_mlen _ _ _ _ E), (store8_mlen _ _ _ _ E')|].
  intros j Hj. destruct (decide (j = n)) as [->|Hne].
  - by rewrite (load8_store8_same _ _ _ _ E), (load8_store8_same _ _ _ _ E').
  - rewrite (load8_store8_other _ _ _ _ _ E Hne), (load8_store8_other _ _ _ _ _ E' Hne).
    apply Ha. lia.
Qed.

(** The same run over another buffer: the same fault, or the same result and
    decoder with buffers that agree on as many bytes as the result says. *)
Definition same {A} (N : A -> Z) (r1 r2 : run (A * dec)) : Prop :=
  match r1 with
  | Done (a, s) => exists b, r2 = Done (a, set_buffer b s) /\ agrees (N a) (buffer s) b
  | Fault f => r2 = Fault f
  | OutOfFuel => r2 = OutOfFuel
  end.

(** [m] neither reads nor writes the buffer. *)
Definition blind {A} (m : SM dec A) : Prop := forall s b,
  m (set_buffer b s) =
    match m s with
    | Done (a, s') => Done (a, set_buffer b s')
    | Fault f => Fault f
    | OutOfFuel => OutOfFuel
    end.

Lemma blind_ret {A} (a : A) : blind (mret a).
Proof. done. Qed.

Lemma blind_bind {A B} (m : SM dec A) (f : A -> SM dec B) :
  blind m -> (forall a, blind (f a)) -> blind (m ≫= f).
Proof.
  intros Hm Hf s b. unfold mbind, sm_bind. rewrite Hm.
  destruct (m s) as [[a s']| |]; [apply Hf|done..].
Qed.

Lemma blind_normalize : blind (normalize input).
Proof.
  intros s b. unfold normalize, mbind, sm_bind, sm_gets. cbn.
  destruct (_ =? 0); [|done]. unfold next_byte. cbn. by destruct (load8 input _).
Qed.

Lemma blind_adaptive_bit idx shift inc : blind (adaptive_bit input idx shift inc).
Proof.
  unfold adaptive_bit. apply blind_bind; [|intros p; apply blind_bind; [apply blind_normalize|]].
  { intros s b. unfold get_prob. cbn. by destruct (load8 _ _). }
  intros _. apply blind_bind; [|intros x; apply blind_bind; [|by intros _]].
  - intros s b. unfold decide_bit, mbind, sm_bind, sm_gets. cbn. by destruct (_ <=? _).
  - intros s b. unfold set_prob. cbn. by destruct (store8 _ _ _).
Qed.

Ltac blind_step :=
  first [ apply blind_ret | apply blind_adaptive_bit | apply blind_normalize
        | apply blind_bind; [|intros ?] | progress cbv zeta | case_match | done ].

Lemma blind_literal v6 v8 v9 : blind (literal input base v6 v8 v9).
Proof.
  unfold literal. generalize 8%nat as fuel, 1 as v. cbv zeta.
  generalize (255 * Z.land (Z.shiftr (Z.lor (Z.land v9 0xFFFFF8FF)
    (Z.shiftl (Z.land (base + v8) 7) 8)) v6) 7) as v13.
  intros v13 fuel. induction fuel; intros v; cbn [literal_loop]; repeat blind_step.
Qed.

Lemma blind_class_loop fuel v19 v28 : blind (class_loop input fuel v19 v28).
Proof. revert v19 v28. induction fuel; intros; cbn [class_loop]; repeat blind_step. Qed.

Lemma blind_direct_bits n v : blind (direct_bits n v).
Proof. revert v. induction n; intros; cbn [direct_bits]; repeat blind_step. Qed.

Lemma blind_slot_loop fuel v34 v61 v105 : blind (slot_loop input fuel v34 v61 v105).
Proof. revert v61. induction fuel; intros; cbn [slot_loop]; repeat blind_step. Qed.

Lemma blind_bits k v36 o0 o1 o2 o3 :
  blind (v35 ← high_bits input k v36 o0 o3; low_bits input k v36 o1 o2 v35).
Proof.
  unfold high_bits, low_bits. repeat first [apply blind_direct_bits | blind_step].
Qed.

Lemma blind_match_length v28 v8 v11 : blind (match_length input base v28 v8 v11).
Proof. apply blind_bits. Qed.

Lemma blind_match_distance v28 v105 v61 v107 : blind (match_distance input v28 v105 v61 v107).
Proof.
  unfold match_distance, high_bits, low_bits. repeat first [apply blind_direct_bits | blind_step].
Qed.

(** Running a blind [m] first on both sides. *)
Lemma same_step {A B} buflen T (m : SM dec A) (f : A -> SM dec B) Q s b N :
  wp T m Q -> blind m -> out_ok buflen s ->
  (forall a s', out_ok buflen s' -> buffer s' = buffer s -> Q a ->
     same N (f a s') (f a (set_buffer b s'))) ->
  same N ((m ≫= f) s) ((m ≫= f) (set_buffer b s)).
Proof.
  intros Hm Hb [Hd Hl Hok] Hf. specialize (Hm s Hd). unfold mbind, sm_bind. rewrite Hb.
  destruct (m s) as [[a s']|[]|]; try done. destruct Hm as (Hs' & Heq & HQ).
  apply Hf; [|done|done]. split; [done|congruence|by rewrite Heq].
Qed.

Lemma same_copy_loop n v95 v97 v9 s b : v97 < 0 -> agrees v95 (buffer s) b ->
  same (fun _ => v95 + Z.of_nat n) (copy_loop n v95 v97 v9 s) (copy_loop n v95 v97 v9 (set_buffer b s)).
Proof.
  intros Hneg. revert v95 v9 s b; induction n as [|n IH]; intros v95 v9 s b Ha.
  { cbn. exists b. by rewrite Z.add_0_r. }
  cbn [copy_loop]. destruct (store8 (buffer s) v95 v9) as [a1|f|] eqn:E.
  - destruct (agrees_store _ _ _ _ _ _ Ha eq_refl E) as (b1 & E' & Ha1).
    cbn [buffer set_buffer]. rewrite E'. destruct Ha1 as [Hl1 Ha1].
    rewrite <- (Ha1 (v95 + 1 + v97)) by lia. destruct (load8 a1 _) as [c| |]; [|done..].
    specialize (IH (v95 + 1) c (set_buffer a1 s) b1 (conj Hl1 Ha1)).
    replace (v95 + Z.of_nat (S n)) with (v95 + 1 + Z.of_nat n) by lia. exact IH.
  - unfold store8 in *. cbn. destruct Ha as [<- _]. by destruct (_ && _).
  - unfold store8 in E. by destruct (_ && _).
Qed.

(** How many bytes of the output are written when a label, or the end, is
    reached. *)
Definition bytes_out (buflen : Z) (r : label + Z) : Z :=
  match r with
  | inl (Lit v8 _ _) => v8
  | inl (Put i _ _) => i
  | inr ret => if ret <=? buflen then ret else 0
  end.

Lemma same_do_match buflen v8 v11 v28 s b :
  buflen < 2 ^ 31 -> out_ok buflen s -> 0 < v8 <= buflen -> -1 <= v28 <= 6 ->
  agrees v8 (buffer s) b ->
  same (bytes_out buflen) (do_match input base buflen (v8 - 1) v8 v11 v28 s)
    (do_match input base buflen (v8 - 1) v8 v11 v28 (set_buffer b s)).
Proof.
  intros Hbl Hs H8 H28 Ha. unfold do_match.
  assert (forall ret s', buffer s' = buffer s -> (buflen < ret \/ ret = v8) -> same (bytes_out buflen)
    (Done (inr ret, s')) (Done (inr ret, set_buffer b s'))) as Hret.
  { intros ret s' Hb Hr. exists b. split; [done|]. rewrite Hb. destruct Ha as [Hl Ha].
    split; [done|]. intros j Hj. apply Ha. cbn in Hj. destruct (Z.leb_spec ret buflen); [lia|].
    destruct Hr; lia. }
  eapply (same_step buflen True);
    [by apply wp_first_length|case_match; [apply blind_ret|apply blind_match_length]|done|].
  intros v35 s1 Hs1 Hb1 [H35 H35']. destruct (Z.eqb_spec v35 255) as [->|Hne].
  { apply Hret; auto. }
  cbv zeta. eapply (same_step buflen True); [by apply wp_match_class|apply blind_slot_loop|done|].
  intros v61 s2 Hs2 Hb2 H61.
  eapply (same_step buflen True);
    [apply wp_class_distance; [exact H61|case_match; lia]|apply blind_match_distance|done|].
  intros v66 s3 Hs3 Hb3 H66. cbv beta in H66.
  assert (buffer s3 = buffer s) as Hb by congruence.
  destruct (Z.leb_spec v8 v66) as [Hle|Hlt]; [apply Hret; [done|lia]|].
  rewrite s32_small by lia. unfold mbind at 1 3, sm_bind at 1 3. cbn [buffer set_buffer].
  rewrite Hb. destruct Ha as [Hl Ha]. rewrite <- (Ha (v8 + (- v66 - 1))) by lia.
  destruct (load8 (buffer s) _) as [first| |]; [|done..].
  destruct (negb _); [apply Hret; [done|lia]|].
  replace (v8 - 1 + 1) with v8 by lia.
  pose proof (same_copy_loop (Z.to_nat (v8 + v35 - v8)) v8 (- v66 - 1) first s3 b ltac:(lia)) as Hc.
  rewrite Hb in Hc. specialize (Hc (conj Hl Ha)). unfold mbind, sm_bind.
  destruct (copy_loop _ _ _ _ s3) as [[c s4]| |]; cbn [same] in Hc; [|by rewrite Hc..].
  destruct Hc as (b4 & -> & Hl4 & Ha4). exists b4. split; [done|]. split; [done|].
  intros j Hj. apply Ha4. cbn in Hj. lia.
Qed.

Lemma same_arzl_step v6 buflen l s b : buflen < 2 ^ 31 -> 0 <= v6 ->
  out_ok buflen s -> label_ok buflen l -> agrees (bytes_out buflen (inl l)) (buffer s) b ->
  same (bytes_out buflen) (arzl_step input base v6 buflen l s)
    (arzl_step input base v6 buflen l (set_buffer b s)).
Proof.
  intros Hbl H6 Hs Hl Ha. destruct l as [v8 v9 v11|i v9 v11]; cbn [arzl_step label_ok bytes_out] in *.
  - destruct (Z.eqb_spec v8 buflen) as [->|Hne].
    { exists b. split; [done|]. destruct Ha as [Hla Ha]. split; [done|]. intros j Hj. apply Ha.
      cbn in Hj. destruct (_ <=? _) eqn:E in Hj; lia. }
    eapply (same_step buflen True); [by apply wp_literal|apply blind_literal|done|].
    intros v9' s1 _ Hb1 _. exists b. split; [done|]. by rewrite Hb1.
  - destruct Hl as [Hi H11]. pose proof Hs as [Hd Hlen Hbytes].
    pose proof (store8_total (buffer s) i v9 ltac:(lia)) as E.
    destruct (agrees_store _ _ _ _ _ _ Ha eq_refl E) as (b1 & E' & Ha1).
    unfold mbind at 1 4, sm_bind at 1 4. cbn [buffer set_buffer]. rewrite E, E'.
    set (a1 := <[Z.to_nat i:=u8 v9]> (buffer s)) in *.
    assert (out_ok buflen (set_buffer a1 s)) as Hs0.
    { split; [by destruct Hd; constructor| |].
      - rewrite <- Hlen. exact (store8_mlen _ _ _ _ E).
      - exact (store8_bytes_ok _ _ _ _ Hbytes E). }
    change (set_buffer b1 (set_buffer b s)) with (set_buffer b1 (set_buffer a1 s)).
    eapply (same_step buflen True); [apply (wp_adaptive_bit True); lia|apply blind_adaptive_bit|exact Hs0|].
    intros x s1 Hs1 Hb1 _. destruct (x =? 0).
    { exists b1. split; [done|]. by rewrite Hb1. }
    eapply (same_step buflen True); [apply (wp_class_loop True); lia|apply blind_class_loop|exact Hs1|].
    intros v28 s2 Hs2 Hb2 H28. replace i with (i + 1 - 1) at 1 3 by lia.
    apply same_do_match; try done; [lia|]. by rewrite Hb2, Hb1.
Qed.

Lemma same_arzl_loop fuel v6 buflen l s b : buflen < 2 ^ 31 -> 0 <= v6 ->
  out_ok buflen s -> label_ok buflen l -> agrees (bytes_out buflen (inl l)) (buffer s) b ->
  same (fun ret => bytes_out buflen (inr ret)) (arzl_loop input base fuel v6 buflen l s)
    (arzl_loop input base fuel v6 buflen l (set_buffer b s)).
Proof.
  intros Hbl H6. revert l s b; induction fuel as [|fuel IH]; intros l s b Hs Hl Ha; [done|].
  cbn [arzl_loop]. pose proof (arzl_step_spec v6 buflen l s Hbl H6 Hs Hl) as Ho.
  pose proof (same_arzl_step v6 buflen l s b Hbl H6 Hs Hl Ha) as Hsame. unfold mbind, sm_bind.
  destruct (arzl_step input base v6 buflen l s) as [[[l'|ret] s']| |]; cbn [same] in Hsame;
    [..|by rewrite Hsame|by rewrite Hsame]; destruct Hsame as (b' & -> & Ha').
  - destruct Ho as (Hs' & Hl' & _). by apply IH.
  - exists b'. by split.
Qed.

End Safety.

Lemma initial_dec_ok flags code buf : 0 <= code < 2 ^ 32 ->
  dec_ok (Dec code 0xFFFFFFFF 0 (initial_probs flags) buf).
Proof.
  intros Hw. constructor; cbn [v7 v10 input_1 v109]; try lia.
  - unfold initial_probs. apply length_replicate.
  - unfold initial_probs. apply Forall_replicate. unfold prob_ok.
    pose proof (land_range (Z.shiftr flags 3) 3 2 ltac:(lia) ltac:(lia)) as H.
    set (x := Z.land (Z.shiftr flags 3) 3) in *.
    assert (x = 0 \/ x = 1 \/ x = 2 \/ x = 3) as [-> |[-> |[-> | ->]]] by lia; vm_compute; intuition congruence.
Qed.

Lemma bswap32_range w : 0 <= bswap32 w < 2 ^ 32.
Proof.
  unfold bswap32.
  pose proof (Z.mod_pos_bound w 256 ltac:(lia)). pose proof (Z.mod_pos_bound (w / 256) 256 ltac:(lia)).
  pose proof (Z.mod_pos_bound (w / 2 ^ 16) 256 ltac:(lia)).
  pose proof (Z.mod_pos_bound (w / 2 ^ 24) 256 ltac:(lia)). lia.
Qed.

Lemma decompress_outcome input base buf : bytes_ok input -> bytes_ok buf -> mlen buf < 2 ^ 31 ->
  match arzl_decompress input base buf (mlen buf) with
  | Done (ret, buf') => mlen buf' = mlen buf /\ bytes_ok buf' /\ result_ok (mlen buf) ret
  | Fault FInput | Fault FTable => True
  | _ => False
  end.
Proof.
  intros Hin Hbuf Hlen. unfold arzl_decompress.
  destruct (load8 input 0) as [flags| |]; [|done..]. destruct (load32 input 1) as [word| |]; [|done..].
  cbv zeta. pose proof (bswap32_range word) as Hw. assert (0 <= mlen buf) by (unfold mlen; lia).
  destruct (Z.land flags 0x80 =? 0).
  - pose proof (arzl_loop_spec input base Hin (Z.to_nat (2 * mlen buf + 2)) (Z.land flags 7)
      (mlen buf) (Lit 0 0 0) (Dec (bswap32 word) 0xFFFFFFFF 0 (initial_probs flags) buf) Hlen) as H'.
    pose proof (land_range flags 7 3 ltac:(lia) ltac:(lia)).
    destruct (arzl_loop _ _ _ _ _ _ _) as [[ret s]|[]|]; cbn [mbind run_bind];
      try (apply H'; [lia|split; [by apply initial_dec_ok|done|done]|simpl; lia|simpl; lia]).
    destruct H' as [[Hd Hl Hb] Hr]; [lia|split; [by apply initial_dec_ok|done|done]|simpl; lia|simpl; lia|].
    done.
  - destruct (Z.ltb_spec (mlen buf) (bswap32 word)); [split; [done|split; [done|unfold result_ok; auto]]|].
    destruct (slice input 5 (Z.to_nat (bswap32 word))) as [data|f|] eqn:E; [|by destruct f..|done].
    unfold slice in E. destruct ((0 <=? 5) && _) eqn:Hc; [|done]. injection E as <-.
    set (data := take _ _). assert (mlen data = bswap32 word) as Hdl.
    { subst data. unfold mlen in *. rewrite length_take, length_drop. lia. }
    unfold blit. rewrite Hdl. destruct ((0 <=? 0) && (0 + bswap32 word <=? mlen buf)) eqn:Hc'; [|lia].
    cbn. split; [|split].
    + change (Z.to_nat 0) with 0%nat. unfold mlen in *.
      rewrite take_0, !length_app, length_drop. simpl. lia.
    + apply Forall_app. split; [by apply Forall_nil|]. apply Forall_app.
      split; [by apply Forall_take, Forall_drop|by apply Forall_drop].
    + left. lia.
Qed.

Lemma agrees_take n a b : agrees n a b -> 0 <= n <= mlen a -> take (Z.to_nat n) b = take (Z.to_nat n) a.
Proof.
  intros [Hl Ha] Hn. unfold mlen in *. apply list_eq_same_length with (n := Z.to_nat n);
    [rewrite length_take; lia|rewrite length_take; lia|].
  intros i x y Hi Hx Hy. rewrite lookup_take_lt in Hx, Hy by done.
  specialize (Ha (Z.of_nat i) ltac:(lia)). unfold load8 in Ha.
  destruct (Z.ltb_spec (Z.of_nat i) 0); [lia|]. rewrite Nat2Z.id, Hx, Hy in Ha. congruence.
Qed.

(** What decompressing into two buffers of one length has in common. *)
Definition same_output (n : Z) (r1 r2 : run (Z * mem)) : Prop :=
  match r1, r2 with
  | Done (ret, out), Done (ret', out') => ret' = ret /\ mlen out' = n /\
      (ret <= n -> take (Z.to_nat ret) out' = take (Z.to_nat ret) out)
  | Fault f, Fault f' => f' = f
  | _, _ => False
  end.

Lemma decompress_same input base buf buf' : bytes_ok input -> bytes_ok buf -> mlen buf < 2 ^ 31 ->
  mlen buf' = mlen buf ->
  same_output (mlen buf) (arzl_decompress input base buf (mlen buf))
    (arzl_decompress input base buf' (mlen buf)).
Proof.
  intros Hin Hbuf Hlen Heq. unfold arzl_decompress.
  destruct (load8 input 0) as [flags| |]; [|done..]. destruct (load32 input 1) as [word| |]; [|done..].
  cbv zeta. pose proof (bswap32_range word) as Hw. assert (0 <= mlen buf) by (unfold mlen; lia).
  destruct (Z.land flags 0x80 =? 0).
  - pose proof (land_range flags 7 3 ltac:(lia) ltac:(lia)).
    set (s := Dec (bswap32 word) 0xFFFFFFFF 0 (initial_probs flags) buf).
    assert (out_ok (mlen buf) s) as Hs by (split; [by apply initial_dec_ok|done|done]).
    assert (label_ok (mlen buf) (Lit 0 0 0)) as Hl by (simpl; lia).
    assert (agrees (bytes_out (mlen buf) (inl (Lit 0 0 0))) (buffer s) buf') as Ha.
    { split; [by rewrite Heq|]. intros j Hj. cbn in Hj. unfold load8.
      by destruct (Z.ltb_spec j 0); [|lia]. }
    pose proof (arzl_loop_spec input base Hin (Z.to_nat (2 * mlen buf + 2)) (Z.land flags 7) (mlen buf)
      (Lit 0 0 0) s Hlen ltac:(lia) Hs Hl ltac:(simpl; lia)) as H1.
    pose proof (same_arzl_loop input base Hin (Z.to_nat (2 * mlen buf + 2)) (Z.land flags 7) (mlen buf)
      (Lit 0 0 0) s buf' Hlen ltac:(lia) Hs Hl Ha) as H2.
    change (set_buffer buf' s) with (Dec (bswap32 word) 0xFFFFFFFF 0 (initial_probs flags) buf') in H2.
    destruct (arzl_loop _ _ _ _ _ _ s) as [[ret s']|f|]; cbn [same] in H2; [|by rewrite H2|done].
    destruct H1 as [[_ Hl' _] Hr]. destruct H2 as (b & -> & Hb). cbn. split; [done|].
    pose proof Hb as [Hlb _]. split; [lia|]. intros Hret. cbn in Hb.
    destruct (Z.leb_spec ret (mlen buf)); [|lia]. apply agrees_take; [done|].
    split; [|lia]. unfold result_ok in Hr. lia.
  - destruct (Z.ltb_spec (mlen buf) (bswap32 word)) as [Hlt|Hle].
    { split; [done|]. split; [done|]. intros. lia. }
    destruct (slice input 5 (Z.to_nat (bswap32 word))) as [data|f|] eqn:E; [|by cbn..].
    unfold slice in E. destruct ((0 <=? 5) && _) eqn:Hc; [|done]. injection E as <-.
    set (data := take _ _). assert (mlen data = bswap32 word) as Hdl.
    { subst data. unfold mlen in *. rewrite length_take, length_drop. lia. }
    unfold blit. rewrite Hdl, Heq.
    destruct ((0 <=? 0) && (0 + bswap32 word <=? mlen buf)) eqn:Hc'; [|lia].
    cbn. split; [done|]. change (Z.to_nat 0) with 0%nat. rewrite !take_0. split.
    + unfold mlen in *. rewrite !length_app, length_drop. simpl. lia.
    + intros _. cbn. rewrite !take_app_le by (unfold mlen in *; lia). done.
Qed.

(** ** Properties *)

(** C5: whatever the input, into a buffer of less than 2 GiB, decompression
    ends, with a length of at most [buflen] or one of the two error codes,
    never writes outside the buffer, and reads back only what it has written:
    over any other first contents of the buffer the same stream ends the same
    way, with the same value and the same [ret] bytes of output.  The two
    accesses the code does not check are reads past the end of the input
    ([FInput]) and distance contexts past the probability table ([FTable]). *)
Theorem arzl_decompress_safe input base buf :
  bytes_ok input -> bytes_ok buf -> mlen buf < 2 ^ 31 ->
  match arzl_decompress input base buf (mlen buf) with
  | Done (ret, out) => mlen out = mlen buf /\ bytes_ok out /\
      (0 <= ret <= mlen buf \/ ret = 0x80560200 \/ ret = 0x80560201)
  | Fault f => f = FInput \/ f = FTable
  | OutOfFuel => False
  end /\
  forall buf', mlen buf' = mlen buf ->
    match arzl_decompress input base buf (mlen buf), arzl_decompress input base buf' (mlen buf) with
    | Done (ret, out), Done (ret', out') => ret' = ret /\ mlen out' = mlen buf /\
        (ret <= mlen buf -> take (Z.to_nat ret) out' = take (Z.to_nat ret) out)
    | Fault f, Fault f' => f' = f
    | _, _ => False
    end.
Proof.
  intros Hin Hbuf Hlen. split.
  - pose proof (decompress_outcome input base buf Hin Hbuf Hlen) as H.
    destruct (arzl_decompress input base buf (mlen buf)) as [[ret out]|[]|];
      [exact H|done|by left|by right|done..].
  - intros buf'. by apply decompress_same.
Qed.

(** C7: a match that goes on is an overlapping LZ copy: for some distance [d]
    that stays inside the output, every byte from [v8] up to and including the
    one still in hand equals the byte [d] before it, and nothing before [v8]
    changes. *)
Theorem match_is_overlapping_copy input base buflen v8 v11 v28 s v96 c v11' s' :
  bytes_ok input -> buflen < 2 ^ 31 -> out_ok buflen s -> 0 < v8 <= buflen -> -1 <= v28 <= 6 ->
  do_match input base buflen (v8 - 1) v8 v11 v28 s = Done (inl (Put v96 c v11'), s') ->
  exists d, 1 <= d <= v8 /\ v8 < v96 < buflen /\
    (forall j, j < v8 -> load8 (buffer s') j = load8 (buffer s) j) /\
    (forall j, v8 <= j < v96 -> load8 (buffer s') j = load8 (buffer s') (j - d)) /\
    load8 (buffer s') (v96 - d) = Done c.
Proof.
  intros Hin Hbl Hs H8 H28 E.
  pose proof (do_match_spec input base Hin buflen v8 v11 v28 s Hbl Hs H8 H28) as H.
  rewrite E in H. destruct H as (_ & _ & d & Hd & H96 & _ & Hold & Hnew & Hlast). eauto 10.
Qed.

(** C9: length and distance decoding is class-exact: from any well-formed
    decoder state a length of class [v28] lies in [2^(v28+1), 2^(v28+2)), so no
    match is longer than 256 bytes, and the probability table is respected; a
    distance of class below 29 never leaves the table. *)
Theorem match_codes_in_range input base v28 v8 v11 v105 v61 v107 s :
  bytes_ok input -> dec_ok s -> 0 <= v28 <= 6 ->
  v105 <= v61 <= 2 * v105 - 8 -> v105 <= 256 -> (v61 - v105) mod 8 = 0 ->
  Z.shiftr (v61 - v105) 3 < 29 ->
  match match_length input base v28 v8 v11 s with
  | Done (v35, s') => dec_ok s' /\ 2 ^ (v28 + 1) <= v35 < 2 ^ (v28 + 2)
  | Fault f => f = FInput
  | OutOfFuel => False
  end /\
  match match_distance input v28 v105 v61 v107 s with
  | Done (_, s') => dec_ok s'
  | Fault f => f = FInput
  | OutOfFuel => False
  end.
Proof.
  intros Hin Hs H28 H61 H105 Hm H29. split.
  - pose proof (wp_match_length input base Hin False v28 v8 v11 H28 s Hs) as H.
    destruct (match_length _ _ _ _ _ _) as [[v s']|[]|]; try done.
    destruct H as (? & _ & Hv). split; [done|]. unfold in_class in Hv.
    by replace (v28 + 2) with (v28 + 1 + 1) by lia.
  - pose proof (wp_match_distance input Hin False v28 v105 v61 v107 H61 H105 Hm ltac:(lia) s Hs) as H.
    destruct (match_distance _ _ _ _ _ _) as [[v s']|[]|]; try done. by destruct H.
Qed.

(** *** Stored streams *)

(** A stream whose flags have bit 7 set holds its data as is. *)
Definition be4 (n : Z) : mem :=
  [n / 2 ^ 24 mod 256; n / 2 ^ 16 mod 256; n / 256 mod 256; n mod 256].
Definition stored (flags : Z) (data : mem) : mem := flags :: be4 (mlen data) ++ data.

Lemma bswap32_be4 n : 0 <= n < 2 ^ 32 ->
  bswap32 (le4 (n / 2 ^ 24 mod 256) (n / 2 ^ 16 mod 256) (n / 256 mod 256) (n mod 256)) = n.
Proof.
  intros Hn. unfold bswap32.
  assert (forall x, is_byte (x mod 256)) as B by (intros x; apply Z.mod_pos_bound; lia).
  set (b3 := n / 2 ^ 24 mod 256). set (b2 := n / 2 ^ 16 mod 256).
  set (b1 := n / 256 mod 256). set (b0 := n mod 256).
  change (2 ^ 24) with (256 * (256 * 256)). change (2 ^ 16) with (256 * 256).
  rewrite <- !Z.div_div by lia. unfold le4. rewrite !byte_div by apply B.
  pose proof (byte_mod b3 (b2 + 256 * (b1 + 256 * b0)) (B _)) as E3.
  pose proof (byte_mod b2 (b1 + 256 * b0) (B _)) as E2.
  pose proof (byte_mod b1 b0 (B _)) as E1. unfold u8 in *. change (2 ^ 8) with 256 in *.
  rewrite E1, E2, E3. rewrite (Z.mod_small b0) by apply B. subst b0 b1 b2 b3.
  change (2 ^ 24) with (256 * (256 * 256)). change (2 ^ 16) with (256 * 256).
  rewrite <- !Z.div_div by lia.
  pose proof (Z.div_mod n 256 ltac:(lia)). pose proof (Z.div_mod (n / 256) 256 ltac:(lia)).
  pose proof (Z.div_mod (n / 256 / 256) 256 ltac:(lia)).
  rewrite (Z.mod_small (n / 256 / 256 / 256)); [lia|].
  rewrite !Z.div_div by lia. split; [apply Z.div_pos; lia|apply Z.div_lt_upper_bound; lia].
Qed.

Lemma stored_header flags data : mlen data < 2 ^ 32 ->
  load8 (stored flags data) 0 = Done flags /\
  exists word, load32 (stored flags data) 1 = Done word /\ bswap32 word = mlen data.
Proof.
  intros Hlen. split; [done|]. unfold stored, be4. cbn [app].
  pose proof (load32_app [flags] (mlen data / 2 ^ 24 mod 256) (mlen data / 2 ^ 16 mod 256)
    (mlen data / 256 mod 256) (mlen data mod 256) data) as E.
  eexists. split; [exact E|]. apply bswap32_be4. unfold mlen in *. lia.
Qed.

Lemma stored_fits flags data base buf :
  Z.land flags 0x80 <> 0 -> mlen data < 2 ^ 32 -> mlen data <= mlen buf ->
  arzl_decompress (stored flags data) base buf (mlen buf) =
    Done (mlen data, data ++ drop (length data) buf).
Proof.
  intros Hf Hlen Hfit. destruct (stored_header flags data Hlen) as (E8 & word & E32 & Ew).
  unfold arzl_decompress. rewrite E8, E32. cbv zeta. rewrite Ew.
  apply Z.eqb_neq in Hf as ->. rewrite (proj2 (Z.ltb_ge _ _) Hfit).
  unfold slice. change (drop (Z.to_nat 5) (stored flags data)) with data.
  assert (0 <= mlen data) by (unfold mlen; lia).
  match goal with |- context[if ?b then Done (take _ _) else _] => assert (b = true) as -> end.
  { unfold stored, be4, mlen in *. cbn [app length]. lia. }
  assert (take (Z.to_nat (mlen data)) data = data) as -> by (apply take_ge; unfold mlen; lia).
  unfold blit. match goal with |- context[if ?b then Done _ else _] => assert (b = true) as -> by lia end.
  done.
Qed.

(** decompressing a stored stream gives back its data: the data are copied
    to the front of the buffer and their length is returned; if they do not
    fit, the out-of-space code is returned and the buffer is untouched. *)
Theorem stored_roundtrip flags data base buf :
  Z.land flags 0x80 <> 0 -> mlen data < 2 ^ 32 ->
  arzl_decompress (stored flags data) base buf (mlen buf) =
    if mlen buf <? mlen data then Done (0x80560201, buf)
    else Done (mlen data, data ++ drop (length data) buf).
Proof.
  intros Hf Hlen. destruct (Z.ltb_spec (mlen buf) (mlen data)) as [Hfit|Hfit]; [|by apply stored_fits].
  destruct (stored_header flags data Hlen) as (E8 & word & E32 & Ew).
  unfold arzl_decompress. rewrite E8, E32. cbv zeta. rewrite Ew.
  apply Z.eqb_neq in Hf as ->. by rewrite (proj2 (Z.ltb_lt _ _) Hfit).
Qed.

(** *** The caller *)

(** [unarzl] doubles a 32-bit size: a stored stream that declares
    0xFFFFFFFF bytes never fits, the size reaches 0 and [unarzl] goes on for
    ever. *)
Theorem unarzl_diverges fuel realloc hdr flags rest size :
  length hdr = 4%nat -> Z.land flags 0x80 <> 0 ->
  unarzl fuel realloc (hdr ++ flags :: 255 :: 255 :: 255 :: 255 :: rest) size = OutOfFuel.
Proof.
  intros Hhdr Hf. unfold unarzl.
  assert (drop 4 (hdr ++ flags :: 255 :: 255 :: 255 :: 255 :: rest)
    = flags :: 255 :: 255 :: 255 :: 255 :: rest) as Ed.
  { rewrite drop_app_ge by lia. by rewrite Hhdr. }
  assert (forall fuel size, unarzl_loop fuel realloc
    (hdr ++ flags :: 255 :: 255 :: 255 :: 255 :: rest) size = OutOfFuel) as Hloop; [|by rewrite Hloop].
  clear size. intros n. induction n as [|n IH]; intros size; cbn [unarzl_loop]; [done|].
  destruct (realloc (u32 (size * 2))) as [base outbuf]. rewrite Ed.
  assert (arzl_decompress (flags :: 255 :: 255 :: 255 :: 255 :: rest) base outbuf (u32 (size * 2))
    = Done (0x80560201, outbuf)) as ->; [|apply IH].
  unfold arzl_decompress. change (load8 (flags :: _) 0) with (Done flags).
  pose proof (load32_app [flags] 255 255 255 255 rest) as E. cbn [app] in E.
  change (mlen [flags]) with 1 in E. rewrite E. cbv zeta. apply Z.eqb_neq in Hf as ->.
  change (bswap32 (le4 255 255 255 255)) with (2 ^ 32 - 1).
  destruct (Z.ltb_spec (u32 (size * 2)) (2 ^ 32 - 1)) as [|Hge]; [done|]. exfalso.
  pose proof (u32_range (size * 2)). assert (u32 (size * 2) = 2 ^ 32 - 1) as Hs by lia.
  apply (f_equal (fun x => x mod 2 ^ 1)) in Hs. unfold u32 in Hs.
  rewrite mod_mod_pow2 in Hs by lia. change (2 ^ 1) with 2 in Hs.
  rewrite Z.mod_mul in Hs by lia. discriminate Hs.
Qed.

(** With a negative length the loop runs once. *)
Lemma deobfuscate_negative m len : len < 0 -> 4 <= mlen m ->
  exists m', arzl_deobfuscate m len 2 = Done m'.
Proof.
  intros Hlen H4. unfold arzl_deobfuscate. destruct (Z.eqb_spec len 0); [lia|].
  change (2 =? 2) with true. cbv iota. cbn [deobf_v2_loop].
  destruct (load_le_total 4 m 0) as [data ->]; [lia|simpl; lia|]. cbn [mbind run_bind].
  destruct (is_bl data); [|destruct (is_movw data); [|destruct (change_stride data =? 30)]].
  1, 2: match goal with |- context[store_le 4 ?m ?o ?v] =>
      destruct (store_le_total 4 m o v) as [m' ->]; [lia|simpl; lia|] end.
  all: cbn [mbind run_bind]; match goal with |- context[?x <? ?y] =>
    destruct (Z.ltb_spec x y); [lia|] end; eauto.
Qed.

(** a decompression error is not an error to [unarzl]: when the stream has
    a bad distance, it returns the block with the error code, 0x80560200, as
    its size, which is larger than the block. *)
Theorem unarzl_returns_error_as_size fuel realloc inbuf size base outbuf outbuf' :
  realloc (u32 (size * 2)) = (base, outbuf) -> mlen outbuf = u32 (size * 2) ->
  0 < mlen outbuf < 2 ^ 31 -> 4 <= mlen outbuf' -> bytes_ok outbuf' ->
  arzl_decompress (drop 4 inbuf) base outbuf (u32 (size * 2)) = Done (0x80560200, outbuf') ->
  exists m, unarzl (S fuel) realloc inbuf size = Done (m, 0x80560200) /\ mlen outbuf < 0x80560200.
Proof.
  intros Er Hl Hsize H4 Hok Ed.
  destruct (deobfuscate_negative outbuf' (s32 0x80560200)) as [m Em]; [done|done|].
  exists m. split; [|lia]. unfold unarzl. cbn [unarzl_loop]. rewrite Er, Ed.
  cbn [mbind run_bind]. change (0x80560200 =? 0x80560201) with false. cbv iota.
  cbn [mbind run_bind]. by rewrite Em.
Qed.

(** "abcabcabcabcx" compressed, a stream whose first match reaches back 5
    bytes after one literal, and a match with a distance of class 30. *)
Definition sample_stream : mem :=
  [0; 158; 206; 228; 243; 189; 118; 224; 112; 126; 160; 192; 0; 0; 0; 0; 0; 0].
Definition bad_distance_stream : mem := [0; 190; 46; 207; 128; 0; 0; 0; 0; 0; 0; 0; 0].
Definition class_30_stream : mem := [0; 190; 32; 191; 128; 0; 0; 0; 0; 0; 0; 0].

Example sample_stream_decodes : arzl_decompress sample_stream 0 (replicate 20 0) 20 =
  Done (13, [97; 98; 99; 97; 98; 99; 97; 98; 99; 97; 98; 99; 120] ++ replicate 7 0).
Proof. vm_compute. reflexivity. Qed.

(** A context of class 29 or more starts past the end of the table. *)
Lemma match_distance_overruns input v28 v105 v61 v107 s :
  length (v109 s) = 3240%nat -> 29 <= Z.shiftr (v61 - v105) 3 ->
  match_distance input v28 v105 v61 v107 s = Fault FTable.
Proof.
  intros Ht H29. unfold match_distance. destruct (Z.eqb_spec v61 v105) as [->|]; cbn [negb].
  { rewrite Z.sub_diag, Z.shiftr_0_l in H29. lia. }
  cbv zeta. pose proof (land_range v28 7 3 ltac:(lia) ltac:(lia)).
  match goal with |- context[Z.land (Z.shiftl ?x ?k) 3] =>
    pose proof (land_range (Z.shiftl x k) 3 2 ltac:(lia) ltac:(lia)) end.
  rewrite (Z.lor_comm (8 * _)), context_base by lia.
  unfold high_bits, adaptive_bit, get_prob, mbind, sm_bind, load8.
  match goal with |- context[?i <? 0] => destruct (Z.ltb_spec i 0); [done|] end.
  rewrite (proj2 (lookup_ge_None _ _)); [done|lia].
Qed.

(** C30: the distance contexts overrun the probability table exactly for the
    classes 29 and above: from any well-formed decoder state, whatever class
    the walk of the tree ends in, decoding the distance accesses the local
    array outside its 3240 bytes if and only if that class is at least 29,
    and then before the distance is compared with the output. *)
Theorem distance_class_overruns_table input v28 v34 v105 v107 v61 s s' :
  bytes_ok input -> dec_ok s -> v105 = 64 \/ v105 = 256 -> -2041 <= v34 <= 254 ->
  slot_loop input 5 v34 8 v105 s = Done (v61, s') ->
  match_distance input v28 v105 v61 v107 s' = Fault FTable <-> 29 <= Z.shiftr (v61 - v105) 3.
Proof.
  intros Hin Hs H105 H34 E.
  assert (exists n, v105 = 8 * 2 ^ n /\ 1 <= n <= 5) as (n & -> & Hn)
    by (destruct H105 as [-> | ->]; [exists 3|exists 5]; done).
  pose proof (wp_slot_loop input Hin False 5 0 n v34 8 ltac:(lia) ltac:(lia) ltac:(lia)
    ltac:(simpl; lia) eq_refl ltac:(lia) ltac:(lia) s Hs) as H. rewrite E in H.
  destruct H as (Hs' & _ & H61 & Hm). split; [|apply match_distance_overruns; apply Hs'].
  intros Ef. destruct (Z.le_gt_cases 29 (Z.shiftr (v61 - 8 * 2 ^ n) 3)) as [|Hlt]; [done|].
  rewrite Z.pow_add_r in H61 by lia. apply Z.mod_divide in Hm as [q ->]; [|lia].
  assert (2 ^ n <= 32) by (apply (Z.pow_le_mono_r 2 n 5); lia).
  assert ((q * 8 - 8 * 2 ^ n) mod 8 = 0) as Hd by (apply Z.mod_divide; [lia|exists (q - 2 ^ n); lia]).
  pose proof (wp_match_distance input Hin False v28 (8 * 2 ^ n) (q * 8) v107 ltac:(lia) ltac:(lia)
    Hd ltac:(lia) s' Hs') as Hw.
  by rewrite Ef in Hw.
Qed.

Lemma sample_stream_ok : bytes_ok sample_stream.
Proof. repeat (apply Forall_cons; split; [lia|]). by apply Forall_nil. Qed.

Lemma zeroes_ok n : bytes_ok (replicate n 0).
Proof. apply Forall_replicate. lia. Qed.

Lemma arzl_decompress_safe_witness :
  exists out out',
    arzl_decompress sample_stream 0 (replicate 20 0) 20 = Done (13, out) /\
    arzl_decompress sample_stream 0 (replicate 20 255) 20 = Done (13, out') /\
    take 13 out' = take 13 out.
Proof.
  assert (mlen (replicate 20 0) < 2 ^ 31) as Hlen by (vm_compute; done).
  destruct (arzl_decompress_safe sample_stream 0 (replicate 20 0) sample_stream_ok
    (zeroes_ok 20) Hlen) as [_ H].
  specialize (H (replicate 20 255) eq_refl).
  change (mlen (replicate 20 0)) with 20 in H. rewrite sample_stream_decodes in *.
  destruct (arzl_decompress sample_stream 0 (replicate 20 255) 20) as [[ret out']| |]; [|done..].
  destruct H as (-> & _ & H). exists ([97; 98; 99; 97; 98; 99; 97; 98; 99; 97; 98; 99; 120] ++ replicate 7 0), out'.
  split; [done|]. split; [done|]. by apply H.
Defined.

(** Class 31 from a fresh table, and a 12-byte stream that reaches class 30. *)
Lemma distance_class_overruns_table_witness :
  (exists s', slot_loop sample_stream 5 0 8 256 (Dec 0 0xFFFFFFFF 0 (initial_probs 0) []) = Done (504, s') /\
    match_distance sample_stream 2 256 504 9 s' = Fault FTable) /\
  arzl_decompress class_30_stream 0 (replicate 20 0) 20 = Fault FTable.
Proof.
  split; [|vm_compute; reflexivity].
  destruct (slot_loop sample_stream 5 0 8 256 (Dec 0 0xFFFFFFFF 0 (initial_probs 0) []))
    as [[v61 s']| |] eqn:E; [|vm_compute in E; discriminate E..].
  assert (v61 = 504) as -> by (vm_compute in E; congruence).
  exists s'. split; [done|].
  apply (distance_class_overruns_table sample_stream 2 0 256 9 504 _ s' sample_stream_ok
    (initial_dec_ok 0 0 [] ltac:(lia)) ltac:(right; done) ltac:(lia) E). done.
Defined.

(** A state after three literals, with a fresh table; the code word holds a
    length of 9 and a distance of 3. *)
Definition sample_state : dec :=
  Dec 4265607040 0xFFFFFFFF 0 (initial_probs 0) ([97; 98; 99] ++ replicate 17 0).

Lemma sample_state_ok : out_ok 20 sample_state.
Proof.
  split; [|done|].
  - apply initial_dec_ok. lia.
  - repeat (apply Forall_cons; split; [lia|]). by apply Forall_nil.
Qed.

Lemma match_codes_in_range_witness :
  match match_length sample_stream 0 2 3 0 sample_state with
  | Done (v35, s') => dec_ok s' /\ 2 ^ 3 <= v35 < 2 ^ 4
  | Fault f => f = FInput
  | OutOfFuel => False
  end /\
  match match_distance sample_stream 2 256 264 9 sample_state with
  | Done (_, s') => dec_ok s'
  | Fault f => f = FInput
  | OutOfFuel => False
  end.
Proof.
  exact (match_codes_in_range sample_stream 0 2 3 0 256 264 9 sample_state sample_stream_ok
    (out_dec _ _ sample_state_ok) ltac:(lia) ltac:(lia) ltac:(lia) eq_refl eq_refl).
Defined.

Lemma stored_roundtrip_witness :
  arzl_decompress (stored 0x80 [1; 2; 3]) 0 [0; 0; 0; 0] 4 = Done (3, [1; 2; 3; 0]).
Proof. exact (stored_roundtrip 0x80 [1; 2; 3] 0 [0; 0; 0; 0] ltac:(discriminate) eq_refl). Defined.

Lemma unarzl_diverges_witness :
  unarzl 1000 (fun n => (0, [])) ([0; 0; 0; 0] ++ 0x80 :: 255 :: 255 :: 255 :: 255 :: []) 9 = OutOfFuel.
Proof. exact (unarzl_diverges 1000 _ [0; 0; 0; 0] 0x80 [] 9 eq_refl ltac:(discriminate)). Defined.

Lemma unarzl_returns_error_as_size_witness : exists m,
  unarzl 1 (fun n => (0, replicate (Z.to_nat n) 0)) ([0; 0; 0; 0] ++ bad_distance_stream) 17
    = Done (m, 0x80560200) /\ 34 < 0x80560200.
Proof.
  apply (unarzl_returns_error_as_size 0 (fun n => (0, replicate (Z.to_nat n) 0))
    ([0; 0; 0; 0] ++ bad_distance_stream) 17 0 (replicate 34 0) (65 :: replicate 33 0));
    try reflexivity; try (vm_compute; split; congruence); try (vm_compute; congruence).
  apply Forall_cons. split; [lia|]. apply (zeroes_ok 33).
Defined.

Lemma match_is_overlapping_copy_witness :
  exists v96 c v11' s', do_match sample_stream 0 20 2 3 0 2 sample_state = Done (inl (Put v96 c v11'), s') /\
  exists d, 1 <= d <= 3 /\ 3 < v96 < 20 /\
    (forall j, j < 3 -> load8 (buffer s') j = load8 (buffer sample_state) j) /\
    (forall j, 3 <= j < v96 -> load8 (buffer s') j = load8 (buffer s') (j - d)) /\
    load8 (buffer s') (v96 - d) = Done c.
Proof.
  eexists _, _, _, _. split; [vm_compute; reflexivity|].
  eapply (match_is_overlapping_copy sample_stream 0 20 3 0 2 sample_state _ _ _ _ sample_stream_ok
    eq_refl sample_state_ok ltac:(lia) ltac:(lia)). vm_compute. reflexivity.
Defined.
