(* ===== verification/Reloc.v ===== *)
(** * SCE relocations (vitadecompiler-mod, relocate.c)

    [uvl_relocate] walks a table of 8-byte (short) and 12-byte (long) entries
    and patches the text and data segments.  Each case of its switch is a
    definition on machine words; the entry, the segments and the variable
    [value], which survives from one entry to the next, are explicit.  The
    specification is on the other side: decoders of the patched instructions,
    written after the instruction encodings in the comments of the code. *)

From stdpp Require Import prelude.
From S2P Require Import Prelude Bytes.

(** ** Entries (relocate.h) *)

Definition R_ARM_NONE : Z := 0.
Definition R_ARM_ABS32 : Z := 2.
Definition R_ARM_REL32 : Z := 3.
Definition R_ARM_THM_CALL : Z := 10.
Definition R_ARM_CALL : Z := 28.
Definition R_ARM_JUMP24 : Z := 29.
Definition R_ARM_TARGET1 : Z := 38.
Definition R_ARM_V4BX : Z := 40.
Definition R_ARM_TARGET2 : Z := 41.
Definition R_ARM_PREL31 : Z := 42.
Definition R_ARM_MOVW_ABS_NC : Z := 43.
Definition R_ARM_MOVT_ABS : Z := 44.
Definition R_ARM_THM_MOVW_ABS_NC : Z := 47.
Definition R_ARM_THM_MOVT_ABS : Z := 48.

Definition SCE_RELOC_SHORT_OFFSET (opt1 opt2 : Z) : Z :=
  Z.lor (Z.shiftr opt1 20) (u32 (Z.shiftl (Z.land opt2 0x3FF) 12)).
Definition SCE_RELOC_SHORT_ADDEND (opt2 : Z) : Z := Z.shiftr opt2 10.
Definition SCE_RELOC_IS_SHORT (x : Z) : bool := negb (Z.land x 0xF =? 0).
Definition SCE_RELOC_CODE (x : Z) : Z := Z.land (Z.shiftr x 8) 0xFF.
Definition SCE_RELOC_SYMSEG (x : Z) : Z := Z.land (Z.shiftr x 4) 0xF.
Definition SCE_RELOC_DATSEG (x : Z) : Z := Z.land (Z.shiftr x 16) 0xF.

Record entry := Entry {
  r_code : Z; r_symseg : Z; r_datseg : Z; r_offset : Z; r_addend : Z;
  r_size : Z;  (** 8 or 12, what [pos] advances by *)
}.

Definition read_entry (reloc : mem) (pos : Z) : run entry :=
  w ← load32 reloc pos;
  if SCE_RELOC_IS_SHORT w then
    opt2 ← load32 reloc (pos + 4);
    Done (Entry (SCE_RELOC_CODE w) (SCE_RELOC_SYMSEG w) (SCE_RELOC_DATSEG w)
            (SCE_RELOC_SHORT_OFFSET w opt2) (SCE_RELOC_SHORT_ADDEND opt2) 8)
  else
    addend ← load32 reloc (pos + 4); offset ← load32 reloc (pos + 8);
    Done (Entry (SCE_RELOC_CODE w) (SCE_RELOC_SYMSEG w) (SCE_RELOC_DATSEG w) offset addend 12).

(** ** Patched words

    [offset] is the C [int] of each case: [Z] with arithmetic shifts. *)

(** R_ARM_THM_CALL, lines 158-167 *)
Definition thm_call_word (upper lower offset : Z) : Z :=
  let sign := Z.land (Z.shiftr offset 24) 1 in
  let j1 := Z.lxor sign (Z.land (Z.lnot (Z.shiftr offset 23)) 1) in
  let j2 := Z.lxor sign (Z.land (Z.lnot (Z.shiftr offset 22)) 1) in
  let upper := u16 (Z.lor (Z.lor (Z.land upper 0xf800) (Z.shiftl sign 10))
                          (Z.land (Z.shiftr offset 12) 0x03ff)) in
  let lower := u16 (Z.lor (Z.lor (Z.lor (Z.land lower 0xd000) (Z.shiftl j1 13)) (Z.shiftl j2 11))
                          (Z.land (Z.shiftr offset 1) 0x07ff)) in
  Z.lor (u32 (Z.shiftl lower 16)) upper.

(** R_ARM_CALL and R_ARM_JUMP24, lines 180-183 *)
Definition arm_call_word (w offset : Z) : Z :=
  Z.lor (Z.land w 0xff000000) (Z.land (Z.shiftr offset 2) 0x00ffffff).

(** R_ARM_MOVW_ABS_NC and R_ARM_MOVT_ABS, lines 198-201 *)
Definition arm_mov_word (w offset : Z) : Z :=
  Z.lor (Z.land w 0xfff0f000) (Z.lor (u32 (Z.shiftl (Z.land offset 0xf000) 4)) (Z.land offset 0x0fff)).

(** R_ARM_THM_MOVW_ABS_NC and R_ARM_THM_MOVT_ABS, lines 225-232 *)
Definition thm_mov_word (upper lower offset : Z) : Z :=
  let upper := u16 (Z.lor (Z.lor (Z.land upper 0xfbf0) (Z.shiftr (Z.land offset 0xf000) 12))
                          (Z.shiftr (Z.land offset 0x0800) 1)) in
  let lower := u16 (Z.lor (Z.lor (Z.land lower 0x8f00) (u32 (Z.shiftl (Z.land offset 0x0700) 4)))
                          (Z.land offset 0x00ff)) in
  Z.lor (u32 (Z.shiftl lower 16)) upper.

(** What the switch leaves behind. *)
Inductive outcome : Type :=
  | Value (v : Z)  (** [value = v; break] *)
  | Stale          (** [break] with [value] as it was *)
  | Skip.          (** [continue] *)

(** The switch; [at_] is the offset of the place in its segment [cur]. *)
Definition reloc_value (e : entry) (cur : mem) (at_ symval loc : Z) : run outcome :=
  let code := r_code e in
  let addend := r_addend e in
  if code =? R_ARM_V4BX then
    w ← load32 cur at_; Done (Value (Z.lor (Z.land w 0xf000000f) 0x01a0f000))
  else if (code =? R_ARM_ABS32) || (code =? R_ARM_TARGET1) then
    Done (Value (u32 (addend + symval)))
  else if (code =? R_ARM_REL32) || (code =? R_ARM_TARGET2) then
    Done (Value (u32 (addend + symval - loc)))
  else if code =? R_ARM_THM_CALL then
    upper ← load16 cur at_; lower ← load16 cur (at_ + 2);
    let offset := s32 (addend + symval - loc) in
    if (offset <=? - 0x1000000) || (0x01000000 <=? offset) then Done Stale
    else Done (Value (thm_call_word upper lower offset))
  else if (code =? R_ARM_CALL) || (code =? R_ARM_JUMP24) then
    let offset := s32 (addend + symval - loc) in
    if (offset <=? - 0x2000000) || (0x02000000 <=? offset) then Done Stale
    else w ← load32 cur at_; Done (Value (arm_call_word w offset))
  else if code =? R_ARM_PREL31 then
    let offset := s32 (addend + symval - loc) in Done (Value (Z.land offset 0x7fffffff))
  else if (code =? R_ARM_MOVW_ABS_NC) || (code =? R_ARM_MOVT_ABS) then
    let offset := s32 (symval + addend) in
    let offset := if code =? R_ARM_MOVT_ABS then Z.shiftr offset 16 else offset in
    w ← load32 cur at_; Done (Value (arm_mov_word w offset))
  else if (code =? R_ARM_THM_MOVW_ABS_NC) || (code =? R_ARM_THM_MOVT_ABS) then
    upper ← load16 cur at_; lower ← load16 cur (at_ + 2);
    let offset := s32 (addend + symval) in
    let offset := if code =? R_ARM_THM_MOVT_ABS then Z.shiftr offset 16 else offset in
    Done (Value (thm_mov_word upper lower offset))
  else Done Skip.

(** ** The loop *)

Record seg := Seg { p_vaddr : Z; p_memsz : Z }.

Record rstate := RState {
  text_seg : mem;
  data_seg : mem;
  value : option Z;  (** [None] before the first assignment *)
}.

Definition curr_data_seg (datseg : Z) (st : rstate) : mem :=
  if negb (datseg =? 0) then data_seg st else text_seg st.
Definition set_segment (datseg : Z) (m : mem) (st : rstate) : rstate :=
  if negb (datseg =? 0) then RState (text_seg st) m (value st)
  else RState m (data_seg st) (value st).

(** [segs[i]] *)
Definition segment (segs : list seg) (i : Z) : run seg :=
  match segs !! Z.to_nat i with Some s => Done s | None => Fault FTable end.

(** The result and the segment; [memcpy] copies the four bytes of [value]. *)
Definition uvl_segment_write (sg : seg) (offset v size : Z) (m : mem) : run (Z * mem) :=
  if p_memsz sg <? u32 (offset + size) then Done (-1, m)
  else m ← store32 m offset v; Done (0, m).

(** One entry: the new [pos] and state. *)
Definition relocate_entry (reloc : mem) (size : Z) (segs : list seg) (pos : Z) (st : rstate)
    : run (Z * rstate) :=
  e ← read_entry reloc pos;
  let pos := u32 (pos + r_size e) in
  symval ← (if r_symseg e =? 15 then Done 0 else s ← segment segs (r_symseg e); Done (p_vaddr s));
  let cur := curr_data_seg (r_datseg e) st in
  dat ← segment segs (r_datseg e);
  let loc := u32 (p_vaddr dat + r_offset e) in
  if size <? r_offset e then Done (pos, st)
  else
    o ← reloc_value e cur (loc - p_vaddr dat) symval loc;
    match o with
    | Skip => Done (pos, st)
    | Stale | Value _ =>
        let v := match o with Value v => Some v | _ => value st end in
        match v with
        | None => Fault FUninit
        | Some v =>
            '(_, m) ← uvl_segment_write dat (r_offset e) v 4 cur;
            let st := set_segment (r_datseg e) m st in
            Done (pos, RState (text_seg st) (data_seg st) (Some v))
        end
    end.

Fixpoint relocate_loop (fuel : nat) (reloc : mem) (size : Z) (segs : list seg) (pos : Z)
    (st : rstate) : run rstate :=
  match fuel with
  | O => OutOfFuel
  | S fuel' =>
      if pos <? size then
        '(pos, st) ← relocate_entry reloc size segs pos st;
        relocate_loop fuel' reloc size segs pos st
      else Done st
  end.

(** The segments afterwards; the C function returns 0. *)
Definition uvl_relocate (reloc : mem) (size : Z) (segs : list seg) (text data : mem) : run rstate :=
  relocate_loop (S (Z.to_nat size)) reloc size segs 0 (RState text data None).

(** ** Decoders *)

(** Thumb-2 BL: S:I1:I2:imm10:imm11:0, a 25-bit signed offset. *)
Definition thm_call_field (w : Z) : Z :=
  let s := Z.land (Z.shiftr w 10) 1 in
  let i1 := Z.land (Z.lnot (Z.lxor (Z.shiftr w 29) s)) 1 in
  let i2 := Z.land (Z.lnot (Z.lxor (Z.shiftr w 27) s)) 1 in
  Z.lor (Z.lor (Z.lor (Z.shiftl s 24) (Z.shiftl i1 23)) (Z.shiftl i2 22))
        (Z.lor (Z.shiftl (Z.land w 0x3ff) 12) (Z.shiftl (Z.land (Z.shiftr w 16) 0x7ff) 1)).
(** ARM BL and B: imm24:00, a 26-bit signed offset. *)
Definition arm_call_field (w : Z) : Z := Z.shiftl (Z.land w 0xffffff) 2.
(** ARM MOVW and MOVT: imm4:imm12. *)
Definition arm_mov_imm (w : Z) : Z :=
  Z.lor (Z.shiftl (Z.land (Z.shiftr w 16) 0xf) 12) (Z.land w 0xfff).
(** Thumb-2 MOVW and MOVT: imm4:i:imm3:imm8. *)
Definition thm_mov_imm (w : Z) : Z :=
  Z.lor (Z.lor (Z.shiftl (Z.land w 0xf) 12) (Z.shiftl (Z.land (Z.shiftr w 10) 1) 11))
        (Z.lor (Z.shiftl (Z.land (Z.shiftr w 28) 7) 8) (Z.land (Z.shiftr w 16) 0xff)).
(** Sign extension of an [n]-bit field. *)
Definition sign_extend (n x : Z) : Z := if x <? 2 ^ (n - 1) then x else x - 2 ^ n.

(** Closes a goal on at most a few bits of a word by cases. *)
Ltac bit_cases :=
  repeat match goal with |- context[Z.testbit ?x ?i] => destruct (Z.testbit x i) end; reflexivity.

Lemma thm_call_field_word up lo off :
  thm_call_field (thm_call_word up lo off) = Z.land off (2 ^ 25 - 2).
Proof.
  unfold thm_call_field, thm_call_word, u16. change (2 ^ 25 - 2) with 0x1fffffe.
  bits32. all: bit_cases.
Qed.

Lemma arm_call_field_word w off :
  arm_call_field (arm_call_word w off) = Z.land off (2 ^ 26 - 4).
Proof.
  unfold arm_call_field, arm_call_word. change (2 ^ 26 - 4) with 0x3fffffc. bits32.
Qed.

Lemma arm_mov_imm_word w off : arm_mov_imm (arm_mov_word w off) = Z.land off 0xffff.
Proof. unfold arm_mov_imm, arm_mov_word. bits32. Qed.

Lemma thm_mov_imm_word up lo off : thm_mov_imm (thm_mov_word up lo off) = Z.land off 0xffff.
Proof. unfold thm_mov_imm, thm_mov_word, u16. bits32. Qed.

(** The bits of a call instruction that are not its offset are kept. *)
Lemma thm_call_word_opcode up lo off : 0 <= up < 2 ^ 16 -> 0 <= lo < 2 ^ 16 ->
  Z.land (thm_call_word up lo off) 0xd000f800 = Z.land (Z.lor (Z.shiftl lo 16) up) 0xd000f800.
Proof.
  intros. unfold thm_call_word, u16. bits32.
  all: by rewrite (testbit_high up 16), orb_false_r by lia.
Qed.

(** Dropping the low bits of a two's complement number. *)
Lemma land_drop off k : 0 <= k -> Z.land off (Z.lnot (Z.ones k)) = off - off mod 2 ^ k.
Proof.
  intros Hk. rewrite <- Z.ldiff_land, Z.ldiff_ones_r by lia.
  rewrite Z.shiftl_mul_pow2, Z.shiftr_div_pow2 by lia.
  pose proof (Z.div_mod off (2 ^ k) ltac:(apply Z.pow_nonzero; lia)). lia.
Qed.

Lemma sign_extend_mod n x : 1 < n -> - 2 ^ (n - 1) <= x < 2 ^ (n - 1) ->
  sign_extend n (x mod 2 ^ n) = x.
Proof.
  intros Hn Hx. unfold sign_extend.
  assert (2 ^ n = 2 * 2 ^ (n - 1)) as E.
  { replace n with (1 + (n - 1)) at 1 by lia. by rewrite Z.pow_add_r by lia. }
  destruct (decide (0 <= x)).
  - rewrite Z.mod_small by lia. case_match; lia.
  - replace (x mod 2 ^ n) with (x + 2 ^ n).
    + case_match; lia.
    + symmetry. rewrite <- (Z_mod_plus_full x 1), Z.mod_small; lia.
Qed.

(** Decoding the offset fields of patched calls. *)
Lemma thm_call_decodes up lo off : - 2 ^ 24 < off < 2 ^ 24 ->
  sign_extend 25 (thm_call_field (thm_call_word up lo off)) = off - off mod 2.
Proof.
  intros Hoff. rewrite thm_call_field_word.
  assert (Z.land off (2 ^ 25 - 2) = Z.land off (Z.lnot (Z.ones 1)) mod 2 ^ 25) as ->.
  { change (2 ^ 25 - 2) with 0x1fffffe. change (Z.lnot (Z.ones 1)) with (-2).
    rewrite <- !Z.land_ones, <- Z.land_assoc by lia. done. }
  rewrite land_drop by lia. change (2 ^ 1) with 2. apply sign_extend_mod; [lia|].
  pose proof (Z.mod_pos_bound off 2 ltac:(lia)). split; [|lia].
  change (2 ^ (25 - 1)) with (2 ^ 24). pose proof (Z.div_mod off 2 ltac:(lia)). lia.
Qed.

Lemma arm_call_decodes w off : - 2 ^ 25 < off < 2 ^ 25 ->
  sign_extend 26 (arm_call_field (arm_call_word w off)) = off - off mod 4.
Proof.
  intros Hoff. rewrite arm_call_field_word.
  assert (Z.land off (2 ^ 26 - 4) = Z.land off (Z.lnot (Z.ones 2)) mod 2 ^ 26) as ->.
  { rewrite <- !Z.land_ones, <- Z.land_assoc by lia. done. }
  rewrite land_drop by lia. change (2 ^ 2) with 4. apply sign_extend_mod; [lia|].
  pose proof (Z.mod_pos_bound off 4 ltac:(lia)). split; [|lia].
  change (2 ^ (26 - 1)) with (2 ^ 25). pose proof (Z.div_mod off 4 ltac:(lia)). lia.
Qed.

(** ** What a patched word must be *)

(** The two halfwords of a word. *)
Lemma load16_load32 m o w : bytes_ok m -> load32 m o = Done w ->
  exists up lo, load16 m o = Done up /\ load16 m (o + 2) = Done lo /\
    0 <= up < 2 ^ 16 /\ 0 <= lo < 2 ^ 16 /\ w = Z.lor (Z.shiftl lo 16) up.
Proof.
  intros Hok. replace (o + 2) with (o + 1 + 1) by lia. cbn [load_le].
  destruct (load8 m o) as [b0| |] eqn:E0; [|done..].
  destruct (load8 m (o + 1)) as [b1| |] eqn:E1; [|done..].
  destruct (load8 m (o + 1 + 1)) as [b2| |] eqn:E2; [|done..].
  destruct (load8 m (o + 1 + 1 + 1)) as [b3| |] eqn:E3; [|done..].
  cbn [mbind run_bind]. intros [= <-]. apply load8_byte in E0, E1, E2, E3; [|done..].
  eexists _, _. split; [reflexivity|]. split; [reflexivity|].
  assert (0 <= b0 + 256 * (b1 + 256 * 0) < 2 ^ 16) by lia.
  split; [done|]. split; [lia|]. rewrite Z.shiftl_mul_pow2, lor_mul_pow2 by lia. lia.
Qed.

(** [reloc_correct code A S P w v]: [v] is what the relocation [code] makes of
    the word [w] at address [P] for symbol value [S] and addend [A]. *)
Definition reloc_correct (code A S P w v : Z) : Prop :=
  if code =? R_ARM_V4BX then
    Z.land v 0xf000000f = Z.land w 0xf000000f /\ Z.land v 0x0ffffff0 = 0x01a0f000
  else if (code =? R_ARM_ABS32) || (code =? R_ARM_TARGET1) then v = (S + A) mod 2 ^ 32
  else if (code =? R_ARM_REL32) || (code =? R_ARM_TARGET2) then v = (S + A - P) mod 2 ^ 32
  else if code =? R_ARM_THM_CALL then
    sign_extend 25 (thm_call_field v) = s32 (S + A - P) - s32 (S + A - P) mod 2 /\
    Z.land v 0xd000f800 = Z.land w 0xd000f800
  else if (code =? R_ARM_CALL) || (code =? R_ARM_JUMP24) then
    sign_extend 26 (arm_call_field v) = s32 (S + A - P) - s32 (S + A - P) mod 4 /\
    Z.land v 0xff000000 = Z.land w 0xff000000
  else if code =? R_ARM_PREL31 then v = (S + A - P) mod 2 ^ 31
  else if code =? R_ARM_MOVW_ABS_NC then
    arm_mov_imm v = (S + A) mod 2 ^ 16 /\ Z.land v 0xfff0f000 = Z.land w 0xfff0f000
  else if code =? R_ARM_MOVT_ABS then
    arm_mov_imm v = (S + A) mod 2 ^ 32 / 2 ^ 16 /\ Z.land v 0xfff0f000 = Z.land w 0xfff0f000
  else if code =? R_ARM_THM_MOVW_ABS_NC then
    thm_mov_imm v = (S + A) mod 2 ^ 16 /\ Z.land v 0x8f00fbf0 = Z.land w 0x8f00fbf0
  else if code =? R_ARM_THM_MOVT_ABS then
    thm_mov_imm v = (S + A) mod 2 ^ 32 / 2 ^ 16 /\ Z.land v 0x8f00fbf0 = Z.land w 0x8f00fbf0
  else False.

Lemma v4bx_word w : 0 <= w < 2 ^ 32 ->
  let v := Z.lor (Z.land w 0xf000000f) 0x01a0f000 in
  Z.land v 0xf000000f = Z.land w 0xf000000f /\ Z.land v 0x0ffffff0 = 0x01a0f000.
Proof. intros Hw. cbn. split; bits32. Qed.
Lemma arm_call_word_opcode w off : Z.land (arm_call_word w off) 0xff000000 = Z.land w 0xff000000.
Proof. unfold arm_call_word. bits32. Qed.
Lemma arm_mov_word_opcode w off : Z.land (arm_mov_word w off) 0xfff0f000 = Z.land w 0xfff0f000.
Proof. unfold arm_mov_word. bits32. Qed.
Lemma thm_mov_word_opcode up lo off : 0 <= up < 2 ^ 16 -> 0 <= lo < 2 ^ 16 ->
  Z.land (thm_mov_word up lo off) 0x8f00fbf0 = Z.land (Z.lor (Z.shiftl lo 16) up) 0x8f00fbf0.
Proof.
  intros. unfold thm_mov_word, u16. bits32.
  all: by rewrite (testbit_high up 16), orb_false_r by lia.
Qed.

(** The immediates of [int] sums: the low and, by an arithmetic shift, the
    high halfword. *)
Lemma s32_low x : Z.land (s32 x) 0xffff = x mod 2 ^ 16.
Proof.
  change 0xffff with (Z.ones 16). rewrite Z.land_ones by lia.
  rewrite <- (mod_mod_pow2 (s32 x) 16 32) by lia. fold (u32 (s32 x)).
  rewrite u32_s32. unfold u32. by rewrite mod_mod_pow2 by lia.
Qed.
Lemma s32_high x : Z.land (Z.shiftr (s32 x) 16) 0xffff = x mod 2 ^ 32 / 2 ^ 16.
Proof.
  change 0xffff with (Z.ones 16). rewrite Z.land_ones, Z.shiftr_div_pow2 by lia.
  fold (u32 x). pose proof (u32_range x). unfold s32. case_match.
  - apply Z.mod_small. split; [apply Z.div_pos; lia|]. apply Z.div_lt_upper_bound; lia.
  - replace (u32 x - 2 ^ 32) with (u32 x + (- 2 ^ 16) * 2 ^ 16) by lia.
    rewrite Z.div_add by lia. replace (u32 x / 2 ^ 16 + - 2 ^ 16) with
      (u32 x / 2 ^ 16 + (-1) * 2 ^ 16) by lia. rewrite Z_mod_plus_full.
    apply Z.mod_small. split; [apply Z.div_pos; lia|]. apply Z.div_lt_upper_bound; lia.
Qed.
Lemma s32_prel31 x : Z.land (s32 x) 0x7fffffff = x mod 2 ^ 31.
Proof.
  change 0x7fffffff with (Z.ones 31). rewrite Z.land_ones by lia.
  rewrite <- (mod_mod_pow2 (s32 x) 31 32) by lia. fold (u32 (s32 x)).
  rewrite u32_s32. unfold u32. by rewrite mod_mod_pow2 by lia.
Qed.

(** Every value the switch computes is the right one. *)
Lemma reloc_value_correct e cur at_ S P w v : bytes_ok cur -> load32 cur at_ = Done w ->
  reloc_value e cur at_ S P = Done (Value v) ->
  reloc_correct (r_code e) (r_addend e) S P w v.
Proof.
  intros Hok Hw. pose proof (load32_range _ _ _ Hok Hw) as Hwr.
  destruct (load16_load32 _ _ _ Hok Hw) as (up & lo & Hup & Hlo & Hur & Hlr & Hwe).
  unfold reloc_value, reloc_correct. rewrite Hw, Hup, Hlo. cbn [mbind run_bind].
  replace (r_addend e + S) with (S + r_addend e) by lia.
  destruct (r_code e =? R_ARM_V4BX); [intros [= <-]; by apply v4bx_word|].
  destruct ((r_code e =? R_ARM_ABS32) || _); [by intros [= <-]|].
  destruct ((r_code e =? R_ARM_REL32) || _); [by intros [= <-]|].
  destruct (r_code e =? R_ARM_THM_CALL).
  { case_match; [done|]. intros [= <-]. split; [apply thm_call_decodes; lia|].
    rewrite Hwe. by apply thm_call_word_opcode. }
  destruct ((r_code e =? R_ARM_CALL) || _).
  { case_match; [done|]. intros [= <-]. split; [apply arm_call_decodes; lia|].
    apply arm_call_word_opcode. }
  destruct (r_code e =? R_ARM_PREL31); [intros [= <-]; apply s32_prel31|].
  destruct (Z.eqb_spec (r_code e) R_ARM_MOVW_ABS_NC) as [->|_]; cbn [orb].
  { intros [= <-]. split; [|apply arm_mov_word_opcode].
    change (R_ARM_MOVW_ABS_NC =? R_ARM_MOVT_ABS) with false. cbv iota.
    by rewrite arm_mov_imm_word, s32_low. }
  destruct (r_code e =? R_ARM_MOVT_ABS).
  { intros [= <-]. split; [|apply arm_mov_word_opcode]. by rewrite arm_mov_imm_word, s32_high. }
  destruct (Z.eqb_spec (r_code e) R_ARM_THM_MOVW_ABS_NC) as [->|_]; cbn [orb].
  { intros [= <-]. split; [|rewrite Hwe; by apply thm_mov_word_opcode].
    change (R_ARM_THM_MOVW_ABS_NC =? R_ARM_THM_MOVT_ABS) with false. cbv iota.
    by rewrite thm_mov_imm_word, s32_low. }
  destruct (r_code e =? R_ARM_THM_MOVT_ABS); [|done].
  intros [= <-]. split; [|rewrite Hwe; by apply thm_mov_word_opcode].
  by rewrite thm_mov_imm_word, s32_high.
Qed.

Lemma reloc_value_range e cur at_ S P w v : bytes_ok cur -> load32 cur at_ = Done w ->
  reloc_value e cur at_ S P = Done (Value v) -> 0 <= v < 2 ^ 32.
Proof.
  intros Hok Hw. pose proof (load32_range _ _ _ Hok Hw) as Hwr.
  unfold reloc_value. rewrite Hw.
  destruct (load16_load32 _ _ _ Hok Hw) as (up & lo & -> & -> & _). cbn [mbind run_bind].
  unfold thm_call_word, arm_call_word, arm_mov_word, thm_mov_word, u16, u32.
  repeat match goal with |- (if ?b then _ else _) = _ -> _ => destruct b end; try done;
    intros [= <-]; range32.
Qed.

(** The write at the end of an entry. *)
Lemma segment_write_ok sg off v m : 0 <= off -> off + 4 <= p_memsz sg -> p_memsz sg < 2 ^ 32 ->
  p_memsz sg <= mlen m ->
  exists m', uvl_segment_write sg off v 4 m = Done (0, m') /\ load32 m' off = Done (u32 v) /\
    (forall o, o < off \/ off + 4 <= o -> load8 m' o = load8 m o) /\ mlen m' = mlen m.
Proof.
  intros H0 H1 H2 H3. unfold uvl_segment_write. rewrite u32_small by lia.
  destruct (Z.ltb_spec (p_memsz sg) (off + 4)); [lia|].
  destruct (store_le_total 4 m off v) as [m' E]; [lia|simpl; lia|]. rewrite E.
  exists m'. split; [done|]. split; [by eapply load32_store32_same|]. split.
  - intros o Ho. eapply load8_store_le; [done|simpl; lia].
  - by eapply store_le_mlen.
Qed.

(** The segment an entry does not patch. *)
Definition other_seg (datseg : Z) (st : rstate) : mem :=
  if negb (datseg =? 0) then text_seg st else data_seg st.

(** The value of the symbol segment of an entry. *)
Definition symbol_value (segs : list seg) (e : entry) : run Z :=
  if r_symseg e =? 15 then Done 0 else s ← segment segs (r_symseg e); Done (p_vaddr s).

Section Entry.
Context (reloc : mem) (size : Z) (segs : list seg) (pos : Z) (st : rstate).
Context (e : entry) (dat : seg) (S : Z).
Context (Hentry : read_entry reloc pos = Done e).
Context (Hsym : symbol_value segs e = Done S).
Context (Hdat : segment segs (r_datseg e) = Done dat).
Context (Hsize : r_offset e <= size).
Context (Hplace : 0 <= r_offset e /\ r_offset e + 4 <= p_memsz dat).
Context (Hmem : p_memsz dat < 2 ^ 32 /\ p_memsz dat <= mlen (curr_data_seg (r_datseg e) st)).
Context (Haddr : 0 <= p_vaddr dat /\ p_vaddr dat + r_offset e < 2 ^ 32).
Abbreviation P := (p_vaddr dat + r_offset e).

(** An entry that stores [v]. *)
Lemma entry_stores o v :
  reloc_value e (curr_data_seg (r_datseg e) st) (r_offset e) S P = Done o ->
  match o with Value v' => Some v' | Stale => value st | Skip => None end = Some v ->
  exists st', relocate_entry reloc size segs pos st = Done (u32 (pos + r_size e), st') /\
    value st' = Some v /\
    load32 (curr_data_seg (r_datseg e) st') (r_offset e) = Done (u32 v) /\
    (forall a, a < r_offset e \/ r_offset e + 4 <= a ->
      load8 (curr_data_seg (r_datseg e) st') a = load8 (curr_data_seg (r_datseg e) st) a) /\
    other_seg (r_datseg e) st' = other_seg (r_datseg e) st.
Proof.
  intros Ho Hv. unfold relocate_entry. rewrite Hentry. cbn [mbind run_bind].
  unfold symbol_value in Hsym. rewrite Hsym. cbn [mbind run_bind]. rewrite Hdat. cbn [mbind run_bind].
  rewrite (u32_small P) by lia. replace (P - p_vaddr dat) with (r_offset e) by lia.
  destruct (Z.ltb_spec size (r_offset e)); [lia|]. rewrite Ho. cbn [mbind run_bind].
  destruct (segment_write_ok dat (r_offset e) v (curr_data_seg (r_datseg e) st))
    as (m' & E & Hl & Hsame & _); [lia..|].
  assert (forall c, curr_data_seg (r_datseg e)
      (RState (text_seg (set_segment (r_datseg e) m' st))
              (data_seg (set_segment (r_datseg e) m' st)) c) = m' /\
    other_seg (r_datseg e) (RState (text_seg (set_segment (r_datseg e) m' st))
              (data_seg (set_segment (r_datseg e) m' st)) c) = other_seg (r_datseg e) st) as Hset.
  { intros c. unfold curr_data_seg, other_seg, set_segment. by destruct (negb (r_datseg e =? 0)). }
  destruct o as [v'| |]; [injection Hv as ->|rewrite Hv|done]; rewrite E; cbn [mbind run_bind];
    (eexists; split; [reflexivity|]); destruct (Hset (Some v)) as [-> ->]; done.
Qed.
End Entry.

(** C4: an entry of the table whose place lies in its segment and whose target
    is in range patches exactly the word at its place, in its own segment, and
    the word it stores encodes what the relocation stands for: S + A,
    S + A - P, the branch offset, or the half of S + A of a MOVW or MOVT, with
    the other bits of the instruction kept. *)
Theorem relocate_entry_correct reloc size segs pos st e dat S v :
  read_entry reloc pos = Done e -> symbol_value segs e = Done S ->
  segment segs (r_datseg e) = Done dat -> r_offset e <= size ->
  0 <= r_offset e /\ r_offset e + 4 <= p_memsz dat ->
  p_memsz dat < 2 ^ 32 /\ p_memsz dat <= mlen (curr_data_seg (r_datseg e) st) ->
  0 <= p_vaddr dat /\ p_vaddr dat + r_offset e < 2 ^ 32 ->
  bytes_ok (curr_data_seg (r_datseg e) st) ->
  reloc_value e (curr_data_seg (r_datseg e) st) (r_offset e) S (p_vaddr dat + r_offset e)
    = Done (Value v) ->
  exists st' w w', relocate_entry reloc size segs pos st = Done (u32 (pos + r_size e), st') /\
    load32 (curr_data_seg (r_datseg e) st) (r_offset e) = Done w /\
    load32 (curr_data_seg (r_datseg e) st') (r_offset e) = Done w' /\
    reloc_correct (r_code e) (r_addend e) S (p_vaddr dat + r_offset e) w w' /\
    (forall a, a < r_offset e \/ r_offset e + 4 <= a ->
      load8 (curr_data_seg (r_datseg e) st') a = load8 (curr_data_seg (r_datseg e) st) a) /\
    other_seg (r_datseg e) st' = other_seg (r_datseg e) st.
Proof.
  intros He Hs Hd Hsz Hpl Hm Ha Hok Hv.
  destruct (load_le_total 4 (curr_data_seg (r_datseg e) st) (r_offset e)) as [w Hw]; [lia|simpl; lia|].
  destruct (entry_stores reloc size segs pos st e dat S He Hs Hd Hsz Hpl Hm Ha _ v Hv eq_refl)
    as (st' & E & _ & Hl & Hsame & Hother).
  exists st', w, v. split; [done|]. split; [done|].
  pose proof (reloc_value_range _ _ _ _ _ _ _ Hok Hw Hv).
  rewrite u32_small in Hl by done. split; [done|].
  split; [by eapply reloc_value_correct|]. done.
Qed.

(** a call whose target is out of range is reported and then patched all
    the same: what is stored at its place is the value of the entry before. *)
Theorem out_of_range_call_stores_stale reloc size segs pos st e dat S v :
  read_entry reloc pos = Done e -> symbol_value segs e = Done S ->
  segment segs (r_datseg e) = Done dat -> r_offset e <= size ->
  0 <= r_offset e /\ r_offset e + 4 <= p_memsz dat ->
  p_memsz dat < 2 ^ 32 /\ p_memsz dat <= mlen (curr_data_seg (r_datseg e) st) ->
  0 <= p_vaddr dat /\ p_vaddr dat + r_offset e < 2 ^ 32 ->
  r_code e = R_ARM_CALL ->
  0x02000000 <= s32 (r_addend e + S - (p_vaddr dat + r_offset e)) -> value st = Some v ->
  exists st', relocate_entry reloc size segs pos st = Done (u32 (pos + r_size e), st') /\
    load32 (curr_data_seg (r_datseg e) st') (r_offset e) = Done (u32 v).
Proof.
  intros He Hs Hd Hsz Hpl Hm Ha Hc Hr Hv.
  destruct (entry_stores reloc size segs pos st e dat S He Hs Hd Hsz Hpl Hm Ha Stale v)
    as (st' & E & _ & Hl & _); [|done|eauto].
  unfold reloc_value. rewrite Hc.
  cbn [Z.eqb Pos.eqb R_ARM_CALL R_ARM_V4BX R_ARM_ABS32 R_ARM_TARGET1 R_ARM_REL32 R_ARM_TARGET2
    R_ARM_THM_CALL orb].
  change (28 =? 28) with true. cbv zeta.
  destruct (Z.leb_spec 0x02000000 (s32 (r_addend e + S - (p_vaddr dat + r_offset e)))); [|lia].
  by rewrite orb_true_r.
Qed.

(** *** The loop *)

Lemma read_entry_size reloc pos e : read_entry reloc pos = Done e -> r_size e = 8 \/ r_size e = 12.
Proof. unfold read_entry. intros H. run_inv. case_match; run_inv; auto. Qed.

Lemma set_segment_mlen datseg m st : mlen m = mlen (curr_data_seg datseg st) ->
  mlen (text_seg (set_segment datseg m st)) = mlen (text_seg st) /\
  mlen (data_seg (set_segment datseg m st)) = mlen (data_seg st).
Proof. unfold set_segment, curr_data_seg. by destruct (negb (datseg =? 0)). Qed.

Lemma relocate_entry_mlen reloc size segs pos st pos' st' :
  relocate_entry reloc size segs pos st = Done (pos', st') ->
  (pos' = u32 (pos + 8) \/ pos' = u32 (pos + 12)) /\
  mlen (text_seg st') = mlen (text_seg st) /\ mlen (data_seg st') = mlen (data_seg st).
Proof.
  unfold relocate_entry. intros H. apply run_bind_Done in H as (e & He & H).
  apply read_entry_size in He. apply run_bind_Done in H as (S & _ & H).
  apply run_bind_Done in H as (dat & _ & H).
  assert (forall s, Done (u32 (pos + r_size e), s) = Done (pos', st') ->
    (pos' = u32 (pos + 8) \/ pos' = u32 (pos + 12)) /\ s = st') as Hret.
  { intros s [= <- <-]. destruct He as [-> | ->]; auto. }
  case_match; [by apply Hret in H as [? ->]|].
  apply run_bind_Done in H as (o & _ & H).
  assert (forall v, ('(_, m) ← uvl_segment_write dat (r_offset e) v 4 (curr_data_seg (r_datseg e) st);
      let st := set_segment (r_datseg e) m st in
      Done (u32 (pos + r_size e), RState (text_seg st) (data_seg st) (Some v))) = Done (pos', st') ->
    (pos' = u32 (pos + 8) \/ pos' = u32 (pos + 12)) /\
    mlen (text_seg st') = mlen (text_seg st) /\ mlen (data_seg st') = mlen (data_seg st)) as Hw.
  { intros v Hv. apply run_bind_Done in Hv as ([r m] & Hm & Hv). apply Hret in Hv as [? <-].
    split; [done|]. apply set_segment_mlen. unfold uvl_segment_write in Hm.
    case_match; [by injection Hm as _ <-|]. apply run_bind_Done in Hm as (m' & Hm & Hm').
    injection Hm' as _ <-. by eapply store_le_mlen. }
  destruct o; [by eapply Hw|destruct (value st); [by eapply Hw|done]|by apply Hret in H as [? ->]].
Qed.

Lemma relocate_entry_ends reloc size segs pos st : ends (relocate_entry reloc size segs pos st).
Proof.
  unfold relocate_entry, read_entry, reloc_value, uvl_segment_write, segment. solve_ends.
Qed.

Lemma relocate_loop_ends fuel reloc size segs pos st :
  size < 2 ^ 32 - 12 -> 0 <= pos -> size - pos < Z.of_nat fuel ->
  match relocate_loop fuel reloc size segs pos st with
  | Done st' => mlen (text_seg st') = mlen (text_seg st) /\ mlen (data_seg st') = mlen (data_seg st)
  | Fault _ => True
  | OutOfFuel => fuel = 0%nat
  end.
Proof.
  intros Hsize. revert pos st; induction fuel as [|fuel IH]; intros pos st Hpos Hf;
    cbn [relocate_loop]; [done|].
  destruct (Z.ltb_spec pos size); [|done].
  destruct (relocate_entry reloc size segs pos st) as [[pos' st']|f|] eqn:E;
    cbn [mbind run_bind]; [|done|by apply relocate_entry_ends in E].
  apply relocate_entry_mlen in E as (Hp & Ht & Hd). rewrite !u32_small in Hp by lia.
  specialize (IH pos' st' ltac:(lia) ltac:(lia)).
  destruct (relocate_loop fuel reloc size segs pos' st'); [|done|lia].
  destruct IH. split; congruence.
Qed.

(** C18: [uvl_relocate] ends on every table of less than 2^32 - 12 bytes,
    whatever it holds, and when it does not fault it has patched the segments
    in place: their sizes are unchanged. *)
Theorem uvl_relocate_ends reloc size segs text data : 0 <= size < 2 ^ 32 - 12 ->
  match uvl_relocate reloc size segs text data with
  | Done st => mlen (text_seg st) = mlen text /\ mlen (data_seg st) = mlen data
  | Fault _ => True
  | OutOfFuel => False
  end.
Proof.
  intros Hsize. unfold uvl_relocate.
  pose proof (relocate_loop_ends (S (Z.to_nat size)) reloc size segs 0 (RState text data None)
    ltac:(lia) ltac:(lia) ltac:(lia)) as H.
  by destruct (relocate_loop _ _ _ _ _ _).
Qed.

(** A text segment of 32 bytes at 0x81000000 and an empty data segment; a long
    R_ARM_ABS32 entry for offset 4 with addend 0x10, and a long R_ARM_CALL for
    offset 8 with an addend out of range. *)
Definition sample_segs : list seg := [Seg 0x81000000 32; Seg 0x81100000 0].
Definition sample_text : mem := replicate 32 0.
Definition sample_table : mem :=
  [0; 2; 0; 0; 0x10; 0; 0; 0; 4; 0; 0; 0;  0; 28; 0; 0; 0; 0; 0; 4; 8; 0; 0; 0].

Lemma uvl_relocate_ends_witness :
  match uvl_relocate sample_table 24 sample_segs sample_text [] with
  | Done st => mlen (text_seg st) = 32 /\ mlen (data_seg st) = 0
  | Fault _ => True
  | OutOfFuel => False
  end.
Proof. exact (uvl_relocate_ends sample_table 24 sample_segs sample_text [] ltac:(lia)). Defined.

Lemma relocate_entry_correct_witness : exists st' w w',
  relocate_entry sample_table 24 sample_segs 0 (RState sample_text [] None) = Done (12, st') /\
  load32 sample_text 4 = Done w /\ load32 (text_seg st') 4 = Done w' /\
  reloc_correct 2 0x10 0x81000000 0x81000004 w w' /\
  (forall a, a < 4 \/ 4 + 4 <= a -> load8 (text_seg st') a = load8 sample_text a) /\
  data_seg st' = [].
Proof.
  apply (relocate_entry_correct sample_table 24 sample_segs 0 (RState sample_text [] None)
    (Entry 2 0 0 4 0x10 12) (Seg 0x81000000 32) 0x81000000 0x81000010);
    try reflexivity; try (vm_compute; intuition congruence).
  apply Forall_replicate. lia.
Defined.

Lemma out_of_range_call_stores_stale_witness : exists st',
  relocate_entry sample_table 24 sample_segs 12 (RState sample_text [] (Some 0x81000010))
    = Done (24, st') /\
  load32 (text_seg st') 8 = Done 0x81000010.
Proof.
  apply (out_of_range_call_stores_stale sample_table 24 sample_segs 12
    (RState sample_text [] (Some 0x81000010))
    (Entry 28 0 0 8 0x04000000 12) (Seg 0x81000000 32) 0x81000000 0x81000010);
    try reflexivity; try (vm_compute; intuition congruence).
Defined.
