(* ===== verification/Yaml.v ===== *)
(** * From YAML events to trees (vita-import, yamltree.c)

    The recursive-descent reader over libyaml's event stream.  libyaml is the
    class [YamlParser]: what [yaml_parser_parse] puts into the event and the
    error field of the parser afterwards.  The reader is translated with its
    one event of lookahead; recursion has fuel, and the theorems give the fuel
    that is enough.  The specification is the event sequence of a tree,
    [node_events]. *)

From stdpp Require Import prelude strings pretty.
From S2P Require Import Prelude Bytes.

(** ** Data (yamltree.h) *)

Record position := Pos { line : Z; column : Z }.

(** [yaml_node]; the [len] of a scalar is that of libyaml's value. *)
#[warnings="-register-all"]
Inductive yaml_node : Type :=
  | Scalar (p : position) (value : string) (len : Z)
  | Mapping (p : position) (pairs : list (yaml_node * yaml_node))
  | Sequence (p : position) (nodes : list yaml_node).

Abbreviation yaml_document := yaml_node.
Abbreviation yaml_tree := (list yaml_document).

Inductive yaml_event : Type :=
  | NoEvent
  | StreamStart | StreamEnd
  | DocumentStart | DocumentEnd
  | Alias
  | ScalarEv (start_mark : position) (value : string)
  | SequenceStart (start_mark : position) | SequenceEnd
  | MappingStart (start_mark : position) | MappingEnd.

(** What the reader uses of a [yaml_parser_t]: the next event, and the error
    fields after it. *)
Class YamlParser (P : Type) := {
  yaml_parser_parse : P -> yaml_event * P;
  parser_error : P -> Z;
  parser_problem : P -> string;
  parser_problem_value : P -> Z;
  parser_problem_mark : P -> position;
}.

(** libyaml's error codes *)
Definition YAML_NO_ERROR : Z := 0.
Definition YAML_MEMORY_ERROR : Z := 1.
Definition YAML_READER_ERROR : Z := 2.
Definition YAML_SCANNER_ERROR : Z := 3.
Definition YAML_PARSER_ERROR : Z := 4.
Definition YAML_COMPOSER_ERROR : Z := 5.
Definition YAML_WRITER_ERROR : Z := 6.
Definition YAML_EMITTER_ERROR : Z := 7.

(** [printf]'s [%d] (of the low 32 bits, as the code passes a [size_t]) and
    [%X] *)
Definition fmt_d (x : Z) : string := pretty (s32 x).
Definition hex_digit (d : Z) : string :=
  match String.get (Z.to_nat d) "0123456789ABCDEF" with
  | Some c => String c "" | None => ""
  end.
Fixpoint fmt_hex (fuel : nat) (x : Z) : string :=
  match fuel with
  | O => ""
  | S fuel' => (if (x <? 16)%Z then "" else fmt_hex fuel' (x / 16)) +:+ hex_digit (x mod 16)
  end.
Definition fmt_X (x : Z) : string := fmt_hex 8 (u32 x).
(** [%0nX] of a number that fits [digits] digits *)
Fixpoint fmt_0X (digits : nat) (x : Z) : string :=
  match digits with
  | O => ""
  | S k => fmt_0X k (x / 16) +:+ hex_digit (x mod 16)
  end.

Definition problem_at (who problem : string) (mark : position) : string :=
  "libyaml: " +:+ who +:+ " error: '" +:+ problem +:+ "' at line " +:+ fmt_d (line mark)
    +:+ ", column " +:+ fmt_d (column mark) +:+ ".".

Definition format_error_string {P} `{!YamlParser P} (p : P) : string :=
  let error := parser_error p in
  let problem := parser_problem p in
  let mark := parser_problem_mark p in
  if error =? YAML_MEMORY_ERROR then
    "libyaml: failed to allocate or reallocate a block of memory."
  else if error =? YAML_READER_ERROR then
    if negb (parser_problem_value p =? -1)
    then problem_at "reader" (problem +:+ ":#" +:+ fmt_X (parser_problem_value p)) mark
    else problem_at "reader" problem mark
  else if error =? YAML_SCANNER_ERROR then problem_at "scanner" problem mark
  else if error =? YAML_PARSER_ERROR then problem_at "parser" problem mark
  else if error =? YAML_COMPOSER_ERROR then problem_at "composer" problem mark
  else if error =? YAML_WRITER_ERROR then problem_at "writer" problem mark
  else if error =? YAML_EMITTER_ERROR then problem_at "emitter" problem mark
  else "unknown error code (" +:+ fmt_d error +:+
    ") from libyaml. possible memory corruption?".

Definition event_to_string (e : yaml_event) : string :=
  match e with
  | NoEvent => "YAML_NO_EVENT"
  | StreamStart => "YAML_STREAM_START_EVENT"
  | StreamEnd => "YAML_STREAM_END_EVENT"
  | DocumentStart => "YAML_DOCUMENT_START_EVENT"
  | DocumentEnd => "YAML_DOCUMENT_END_EVENT"
  | Alias => "YAML_ALIAS_EVENT"
  | ScalarEv _ _ => "YAML_SCALAR_EVENT"
  | SequenceStart _ => "YAML_SEQUENCE_START_EVENT"
  | SequenceEnd => "YAML_SEQUENCE_END_EVENT"
  | MappingStart _ => "YAML_MAPPING_START_EVENT"
  | MappingEnd => "YAML_MAPPING_END_EVENT"
  end.

Definition node_type_str (n : yaml_node) : string :=
  match n with
  | Mapping _ _ => "mapping" | Sequence _ _ => "sequence" | Scalar _ _ _ => "scalar"
  end.

(** [strdup] of libyaml's value stops at the first NUL. *)
Fixpoint strdup (s : string) : string :=
  match s with
  | EmptyString => EmptyString
  | String c s' => if Ascii.eqb c Ascii.zero then EmptyString else String c (strdup s')
  end.

(** ** The reader *)

Section Reader.
Context {P : Type} `{!YamlParser P}.

Record parser_context := Ctx {
  parser : P;
  event : yaml_event;
  next_event_ : yaml_event;
  problem : option string;  (** [error->problem] *)
}.

Abbreviation M := (SM parser_context).

Definition is_error_set (c : parser_context) : bool := bool_decide (is_Some (problem c)).

(** [if(!is_error_set(ctx)) asprintf(...)] or plain [asprintf] overwrites *)
Definition set_problem (msg : string) (c : parser_context) : parser_context :=
  Ctx (parser c) (event c) (next_event_ c) (Some msg).

Definition set_error : M Z := fun c =>
  if negb (is_error_set c) && negb (parser_error (parser c) =? 0)
  then Done (1, set_problem (format_error_string (parser c)) c)
  else Done (0, c).

Definition process_event : M Z := fun c =>
  let '(e, p) := yaml_parser_parse (parser c) in
  (r ← set_error; mret (if negb (r =? 0) then -1 else 0))
    (Ctx p (next_event_ c) e (problem c)).

Definition peek_next_event : M yaml_event := sm_gets next_event_.

Definition next_event : M yaml_event :=
  r ← process_event; if r <? 0 then mret NoEvent else sm_gets event.

Definition process_scalar : M (option yaml_node) :=
  e ← sm_gets event;
  match e with
  | ScalarEv p v => mret (Some (Scalar p (strdup v) (Z.of_nat (String.length v))))
  | _ => mret None
  end.

(** The mutual recursion of [process_node], [process_sequence] and
    [process_mapping]; [None] is the null pointer. *)
Fixpoint process_node (fuel : nat) : M (option yaml_node) :=
  match fuel with
  | O => fun _ => OutOfFuel
  | S fuel' =>
      e ← next_event;
      match e with
      | Alias =>
          _ ← sm_modify (set_problem "yamltree: there is no support for aliases implemented.");
          mret None
      | ScalarEv _ _ => process_scalar
      | SequenceStart p => process_sequence fuel' p []
      | MappingStart p => process_mapping fuel' p []
      | _ => mret None
      end
  end
with process_sequence (fuel : nat) (p : position) (nodes : list yaml_node) : M (option yaml_node) :=
  match fuel with
  | O => fun _ => OutOfFuel
  | S fuel' =>
      e ← peek_next_event;
      match e with
      | SequenceEnd =>
          r ← process_event;
          mret (if r <? 0 then None else Some (Sequence p nodes))
      | _ =>
          n ← process_node fuel';
          match n with
          | None => mret None
          | Some n => process_sequence fuel' p (nodes ++ [n])
          end
      end
  end
with process_mapping (fuel : nat) (p : position) (pairs : list (yaml_node * yaml_node))
    : M (option yaml_node) :=
  match fuel with
  | O => fun _ => OutOfFuel
  | S fuel' =>
      e ← peek_next_event;
      match e with
      | MappingEnd =>
          r ← process_event;
          mret (if r <? 0 then None else Some (Mapping p pairs))
      | _ =>
          lhs ← process_node fuel';
          match lhs with
          | None => mret None
          | Some lhs =>
              rhs ← process_node fuel';
              match rhs with
              | None => mret None
              | Some rhs => process_mapping fuel' p (pairs ++ [(lhs, rhs)])
              end
          end
      end
  end.

(** [if (next_event(ctx) != expected) { if(!is_error_set(ctx)) asprintf(...); return NULL; }] *)
Definition expecting (expected : yaml_event -> bool) (name : string) : M bool :=
  e ← next_event;
  if expected e then mret true
  else
    _ ← sm_modify (fun c : parser_context =>
          if is_error_set c then c
          else set_problem ("yamltree: expecting " +:+ name +:+ " got '" +:+
                 event_to_string (event c) +:+ "'.") c);
    mret false.

Definition is_document_start (e : yaml_event) : bool :=
  match e with DocumentStart => true | _ => false end.
Definition is_document_end (e : yaml_event) : bool :=
  match e with DocumentEnd => true | _ => false end.

Definition process_document (fuel : nat) : M (option yaml_document) :=
  ok ← expecting is_document_start "YAML_DOCUMENT_START_EVENT";
  if negb ok then mret None
  else
    doc ← process_node fuel;
    match doc with
    | None => mret None
    | Some doc =>
        ok ← expecting is_document_end "YAML_DOCUMENT_END_EVENT";
        mret (if ok : bool then Some doc else None)
    end.

(** [while (next_event(&ctx) != YAML_STREAM_END_EVENT)] *)
Fixpoint stream_loop (fuel : nat) (docs : list yaml_document) : M (option yaml_tree) :=
  match fuel with
  | O => fun _ => OutOfFuel
  | S fuel' =>
      e ← next_event;
      match e with
      | StreamEnd => mret (Some docs)
      | _ =>
          err ← sm_gets is_error_set;
          if err : bool then mret None
          else
            document ← process_document fuel';
            match document with
            | None => mret None
            | Some d => stream_loop fuel' (docs ++ [d])
            end
      end
  end.

Definition parse_stream (fuel : nat) : M (option yaml_tree) :=
  r ← process_event;
  if r <? 0 then mret None
  else
    e ← peek_next_event;
    match e with
    | StreamStart => stream_loop fuel []
    | _ =>
        _ ← sm_modify (set_problem ("yamltree: expecting YAML_STREAM_START_EVENT got '" +:+
              event_to_string e +:+ "'."));
        mret None
    end.

(** The tree (or null) and [error->problem], from the parser initialised on
    the input; the event fields start uninitialised and are written before
    they are read. *)
Definition parse_yaml_stream (fuel : nat) (p : P) : run (option yaml_tree * option string) :=
  '(tree, c) ← parse_stream fuel (Ctx p NoEvent NoEvent None);
  Done (tree, problem c).
End Reader.
Arguments parser_context P : clear implicits.

(** ** Specification: the events of a tree *)

Fixpoint node_events (n : yaml_node) : list yaml_event :=
  match n with
  | Scalar p v _ => [ScalarEv p v]
  | Sequence p ns => SequenceStart p :: flat_map node_events ns ++ [SequenceEnd]
  | Mapping p ps =>
      MappingStart p :: flat_map (fun '(l, r) => node_events l ++ node_events r) ps ++ [MappingEnd]
  end.

(** A tree the reader can build: the strings have no NUL and the lengths are
    theirs. *)
Fixpoint wf_node (n : yaml_node) : Prop :=
  match n with
  | Scalar _ v len => strdup v = v /\ len = Z.of_nat (String.length v)
  | Sequence _ ns => (fix all ns := match ns with [] => True | n :: ns => wf_node n /\ all ns end) ns
  | Mapping _ ps =>
      (fix all ps := match ps with [] => True | (l, r) :: ps => (wf_node l /\ wf_node r) /\ all ps end) ps
  end.

(** The events of a stream of documents, as libyaml delivers them. *)
Definition stream_events (docs : list yaml_node) : list yaml_event :=
  StreamStart ::
    flat_map (fun d => DocumentStart :: node_events d ++ [DocumentEnd]) docs ++ [StreamEnd; NoEvent].

(** A parser that delivers given events without an error, and any parser that
    will. *)
#[export] Instance script_parser : YamlParser (list yaml_event) := {
  yaml_parser_parse p := match p with [] => (NoEvent, []) | e :: p' => (e, p') end;
  parser_error _ := YAML_NO_ERROR;
  parser_problem _ := ""%string;
  parser_problem_value _ := -1;
  parser_problem_mark _ := Pos 0 0;
}.

Section Spec.
Context {P : Type} `{!YamlParser P}.

Fixpoint feeds (p : P) (es : list yaml_event) : Prop :=
  match es with
  | [] => True
  | e :: es' =>
      let '(e', p') := yaml_parser_parse p in e' = e /\ parser_error p' = 0 /\ feeds p' es'
  end.

(** The reader is about to see [es]: the first of them is its lookahead. *)
Definition pending (c : parser_context P) (es : list yaml_event) : Prop :=
  problem c = None /\
  match es with [] => False | e :: es' => next_event_ c = e /\ feeds (parser c) es' end.

Lemma process_event_pending c e e' es : pending c (e :: e' :: es) ->
  exists c', process_event c = Done (0, c') /\ event c' = e /\ pending c' (e' :: es).
Proof.
  intros (Hp & He & Hf). cbn [feeds] in Hf. unfold process_event.
  destruct (yaml_parser_parse (parser c)) as [e1 p1]. destruct Hf as (-> & Hz & Hf).
  exists (Ctx p1 (next_event_ c) e' (problem c)).
  unfold mbind, sm_bind, set_error, is_error_set; cbn. rewrite Hp, Hz. cbn. by rewrite He.
Qed.

Lemma next_event_pending c e e' es : pending c (e :: e' :: es) ->
  exists c', next_event c = Done (e, c') /\ event c' = e /\ pending c' (e' :: es).
Proof.
  intros H. destruct (process_event_pending _ _ _ _ H) as (c' & E & He & Hp).
  exists c'. unfold next_event. rewrite (sm_bind_Done _ _ c 0 c') by done.
  cbn. unfold sm_gets. by rewrite He.
Qed.

Lemma node_events_cons n : exists e es, node_events n = e :: es.
Proof. destruct n; cbn; eauto. Qed.
End Spec.

Lemma yaml_node_induction (Q : yaml_node -> Prop) :
  (forall p v len, Q (Scalar p v len)) ->
  (forall p ns, Forall Q ns -> Q (Sequence p ns)) ->
  (forall p ps, Forall (fun lr => Q lr.1 /\ Q lr.2) ps -> Q (Mapping p ps)) ->
  forall n, Q n.
Proof.
  intros Hs Hq Hm. fix IH 1. intros [p v len|p ps|p ns].
  - apply Hs.
  - apply Hm. induction ps as [|[l r] ps IHps]; constructor; [split; apply IH|apply IHps].
  - apply Hq. induction ns as [|n ns IHns]; constructor; [apply IH|apply IHns].
Qed.

(** ** The reader reads trees back *)

Section Correct.
Context {P : Type} `{!YamlParser P}.
Implicit Types c : parser_context P.

(** What [process_node] owes the rest of the reader for the tree [n]. *)
Definition reads (n : yaml_node) : Prop := forall fuel c e es,
  (length (node_events n) <= fuel)%nat -> wf_node n ->
  pending c (node_events n ++ e :: es) ->
  exists c', process_node fuel c = Done (Some n, c') /\ pending c' (e :: es).

Lemma peek_pending c e es : pending c (e :: es) -> peek_next_event c = Done (e, c).
Proof. intros (_ & <- & _). done. Qed.

(** A node is followed by something, and starts neither with an end of
    sequence nor with an end of mapping. *)
Lemma reads_step n fuel c e es : reads n ->
  (length (node_events n) <= fuel)%nat -> wf_node n -> es <> [] ->
  pending c (node_events n ++ es) ->
  (e = SequenceEnd \/ e = MappingEnd) ->
  next_event_ c <> e /\
  exists c', process_node fuel c = Done (Some n, c') /\ pending c' es.
Proof.
  intros Hn Hf Hw Hes Hc He. split.
  - destruct Hc as (_ & Hc). destruct n; cbn in Hc; destruct Hc as [-> _]; by destruct He as [-> | ->].
  - destruct es as [|e' es]; [done|]. by apply Hn.
Qed.

Lemma process_sequence_reads p ns : Forall reads ns -> forall fuel c e es acc,
  (length (flat_map node_events ns) < fuel)%nat -> wf_node (Sequence p ns) ->
  pending c (flat_map node_events ns ++ SequenceEnd :: e :: es) ->
  exists c', process_sequence fuel p acc c = Done (Some (Sequence p (acc ++ ns)), c') /\
    pending c' (e :: es).
Proof.
  induction 1 as [|n ns Hn Hns IH]; intros fuel c e es acc Hf Hw Hc;
    (destruct fuel as [|fuel]; [cbn in Hf; lia|]); cbn [process_sequence].
  - destruct (process_event_pending _ _ _ _ Hc) as (c' & E & _ & Hp). exists c'.
    rewrite (sm_bind_Done _ _ c SequenceEnd c) by exact (peek_pending _ _ _ Hc).
    rewrite (sm_bind_Done _ _ c 0 c') by done. cbn. by rewrite app_nil_r.
  - destruct Hw as [Hw Hws]. cbn [flat_map] in Hc, Hf.
    rewrite <- app_assoc in Hc. rewrite length_app in Hf.
    pose proof (node_events_cons n) as (e1 & es1 & En). rewrite En in Hf; cbn in Hf.
    destruct (reads_step n fuel c SequenceEnd (flat_map node_events ns ++ SequenceEnd :: e :: es))
      as (Hne & c1 & E1 & Hc1);
      [done|rewrite En; cbn; lia|done|by destruct (flat_map node_events ns)|exact Hc|by left|].
    destruct (IH fuel c1 e es (acc ++ [n])) as (c2 & E2 & Hc2); [lia|done|done|].
    exists c2. split; [|done]. rewrite <- app_assoc in E2. etrans; [|exact E2].
    rewrite (sm_bind_Done _ _ c (next_event_ c) c) by done.
    destruct (next_event_ c); try done; by rewrite (sm_bind_Done _ _ c (Some n) c1) by done.
Qed.

Lemma process_mapping_reads p ps :
  Forall (fun lr => reads lr.1 /\ reads lr.2) ps -> forall fuel c e es acc,
  (length (flat_map (fun '(l, r) => node_events l ++ node_events r) ps) < fuel)%nat ->
  wf_node (Mapping p ps) ->
  pending c (flat_map (fun '(l, r) => node_events l ++ node_events r) ps ++ MappingEnd :: e :: es) ->
  exists c', process_mapping fuel p acc c = Done (Some (Mapping p (acc ++ ps)), c') /\
    pending c' (e :: es).
Proof.
  induction 1 as [|[l r] ps [Hl Hr] Hps IH]; intros fuel c e es acc Hf Hw Hc;
    (destruct fuel as [|fuel]; [cbn in Hf; lia|]); cbn [process_mapping].
  - destruct (process_event_pending _ _ _ _ Hc) as (c' & E & _ & Hp). exists c'.
    rewrite (sm_bind_Done _ _ c MappingEnd c) by exact (peek_pending _ _ _ Hc).
    rewrite (sm_bind_Done _ _ c 0 c') by done. cbn. by rewrite app_nil_r.
  - destruct Hw as [[Hwl Hwr] Hws]. cbn [flat_map] in Hc, Hf. cbn [fst snd] in Hl, Hr.
    rewrite <- !app_assoc in Hc. rewrite !length_app in Hf.
    pose proof (node_events_cons l) as (e1 & es1 & El).
    pose proof (node_events_cons r) as (e2 & es2 & Er).
    set (rest := flat_map _ ps ++ _) in *.
    destruct (reads_step l fuel c MappingEnd (node_events r ++ rest)) as (Hne & c1 & E1 & Hc1);
      [done|lia|done|by rewrite Er|exact Hc|by right|].
    destruct (reads_step r fuel c1 MappingEnd rest) as (_ & c2 & E2 & Hc2);
      [done|lia|done|unfold rest; by destruct (flat_map _ ps)|exact Hc1|by right|].
    destruct (IH fuel c2 e es (acc ++ [(l, r)])) as (c3 & E3 & Hc3);
      [rewrite El in Hf; cbn in Hf; lia|done|done|].
    exists c3. split; [|done]. rewrite <- app_assoc in E3. etrans; [|exact E3].
    rewrite (sm_bind_Done _ _ c (next_event_ c) c) by done.
    destruct (next_event_ c); try done; rewrite (sm_bind_Done _ _ c (Some l) c1) by done;
      by rewrite (sm_bind_Done _ _ c1 (Some r) c2) by done.
Qed.

Lemma process_node_reads n : reads n.
Proof.
  induction n as [p v len|p ns IH|p ps IH] using yaml_node_induction; intros fuel c e es Hf Hw Hc;
    (destruct fuel as [|fuel]; [cbn in Hf; lia|]); cbn [process_node node_events] in *.
  - destruct (next_event_pending _ _ _ _ Hc) as (c' & E & He & Hp). exists c'. split; [|done].
    rewrite (sm_bind_Done _ _ c (ScalarEv p v) c') by done.
    unfold process_scalar, sm_gets, mbind, sm_bind. rewrite He.
    destruct Hw as [-> ->]. done.
  - cbn [app] in Hc. rewrite <- app_assoc in Hc. cbn [length] in Hf. rewrite length_app in Hf.
    assert (exists e' es', flat_map node_events ns ++ [SequenceEnd] ++ e :: es = e' :: es')
      as (e' & es' & Er) by (destruct (flat_map node_events ns); cbn; eauto).
    rewrite Er in Hc. destruct (next_event_pending _ _ _ _ Hc) as (c' & E & He & Hp).
    rewrite <- Er in Hp. cbn in Hf.
    destruct (process_sequence_reads p ns IH fuel c' e es []) as (c2 & E2 & Hc2); [lia|done|done|].
    exists c2. split; [|done]. by rewrite (sm_bind_Done _ _ c (SequenceStart p) c') by done.
  - cbn [app] in Hc. rewrite <- app_assoc in Hc. cbn [length] in Hf. rewrite length_app in Hf.
    set (ev := flat_map _ ps) in *.
    assert (exists e' es', ev ++ [MappingEnd] ++ e :: es = e' :: es')
      as (e' & es' & Er) by (destruct ev; cbn; eauto).
    rewrite Er in Hc. destruct (next_event_pending _ _ _ _ Hc) as (c' & E & He & Hp).
    rewrite <- Er in Hp. cbn in Hf.
    destruct (process_mapping_reads p ps IH fuel c' e es []) as (c2 & E2 & Hc2); [subst ev; lia|done|done|].
    exists c2. split; [|done]. by rewrite (sm_bind_Done _ _ c (MappingStart p) c') by done.
Qed.

Lemma expecting_ok f name c e e' es : f e = true -> pending c (e :: e' :: es) ->
  exists c', expecting f name c = Done (true, c') /\ pending c' (e' :: es).
Proof.
  intros Hf Hc. destruct (next_event_pending _ _ _ _ Hc) as (c' & E & _ & Hp).
  exists c'. unfold expecting. rewrite (sm_bind_Done _ _ c e c') by done. by rewrite Hf.
Qed.

Lemma expecting_other f name c e e' es : f e = false -> pending c (e :: e' :: es) ->
  exists c', expecting f name c = Done (false, c') /\
    problem c' = Some ("yamltree: expecting " +:+ name +:+ " got '" +:+ event_to_string e +:+ "'.")%string.
Proof.
  intros Hf Hc. destruct (next_event_pending _ _ _ _ Hc) as (c' & E & He & Hp & _).
  eexists. unfold expecting. rewrite (sm_bind_Done _ _ c e c') by done. rewrite Hf.
  unfold sm_modify, mbind, sm_bind, is_error_set. rewrite Hp. cbn. split; [done|]. cbn. by rewrite He.
Qed.

Lemma process_document_reads fuel c d e es :
  (length (node_events d) <= fuel)%nat -> wf_node d ->
  pending c (DocumentStart :: node_events d ++ DocumentEnd :: e :: es) ->
  exists c', process_document fuel c = Done (Some d, c') /\ pending c' (e :: es).
Proof.
  intros Hf Hw Hc. pose proof (node_events_cons d) as (e1 & es1 & Ed).
  rewrite Ed in Hc. cbn [app] in Hc.
  destruct (expecting_ok is_document_start "YAML_DOCUMENT_START_EVENT" c DocumentStart _ _ eq_refl Hc)
    as (c1 & E1 & Hc1).
  change (e1 :: es1 ++ ?r) with ((e1 :: es1) ++ r) in Hc1. rewrite <- Ed in Hc1.
  destruct (process_node_reads d fuel c1 _ _ Hf Hw Hc1) as (c2 & E2 & Hc2).
  destruct (expecting_ok is_document_end "YAML_DOCUMENT_END_EVENT" c2 DocumentEnd _ _ eq_refl Hc2)
    as (c3 & E3 & Hc3).
  exists c3. split; [|done]. unfold process_document.
  rewrite (sm_bind_Done _ _ c true c1) by done. cbn [negb].
  rewrite (sm_bind_Done _ _ c1 (Some d) c2) by done.
  by rewrite (sm_bind_Done _ _ c2 true c3) by done.
Qed.

Definition start_problem (e : yaml_event) : string :=
  "yamltree: expecting YAML_DOCUMENT_START_EVENT got '" +:+ event_to_string e +:+ "'.".

Lemma process_document_other fuel c e e' es : is_document_start e = false ->
  pending c (e :: e' :: es) ->
  exists c', process_document fuel c = Done (None, c') /\ problem c' = Some (start_problem e).
Proof.
  intros He Hc. destruct (expecting_other _ "YAML_DOCUMENT_START_EVENT" _ _ _ _ He Hc) as (c' & E & Hp).
  exists c'. split; [|done]. unfold process_document. by rewrite (sm_bind_Done _ _ c false c') by done.
Qed.

(** One round of the stream loop skips an event that is not the end. *)
Lemma stream_loop_round fuel docs c e e' es : e <> StreamEnd -> pending c (e :: e' :: es) ->
  exists c', pending c' (e' :: es) /\
    stream_loop (S fuel) docs c =
      (document ← process_document fuel;
       match document with None => mret None | Some d => stream_loop fuel (docs ++ [d]) end) c'.
Proof.
  intros He Hc. destruct (next_event_pending _ _ _ _ Hc) as (c' & E & _ & Hp). exists c'. split; [done|].
  cbn [stream_loop]. rewrite (sm_bind_Done _ _ c e c') by done.
  destruct Hp as (Hp & _). unfold is_error_set.
  destruct e; try done; unfold sm_gets at 1, mbind at 1, sm_bind at 1; by rewrite Hp.
Qed.

(** The reader has seen the stream start. *)
Lemma parse_stream_start fuel p docs : feeds p (stream_events docs) ->
  exists c, pending c (stream_events docs) /\
    parse_stream fuel (Ctx p NoEvent NoEvent None) = stream_loop fuel [] c.
Proof.
  intros Hf. assert (pending (Ctx p NoEvent NoEvent None) (NoEvent :: stream_events docs)) as Hc by done.
  unfold stream_events in *. destruct (process_event_pending _ _ _ _ Hc) as (c' & E & _ & Hp).
  exists c'. split; [done|]. unfold parse_stream.
  rewrite (sm_bind_Done _ _ _ 0 c') by done. cbn.
  by rewrite (sm_bind_Done _ _ c' StreamStart c') by exact (peek_pending _ _ _ Hp).
Qed.

Lemma parse_yaml_stream_spec fuel p d :
  wf_node d -> feeds p (stream_events [d]) -> (length (node_events d) < fuel)%nat ->
  parse_yaml_stream fuel p = Done (Some [d], None).
Proof.
  intros Hw Hfe Hf. destruct (parse_stream_start fuel p [d] Hfe) as (c & Hc & E).
  destruct fuel as [|fuel]; [lia|].
  unfold stream_events in Hc. cbn [flat_map] in Hc. rewrite app_nil_r in Hc. cbn [app] in Hc.
  destruct (stream_loop_round fuel [] c StreamStart _ _ ltac:(done) Hc) as (c1 & Hc1 & E1).
  rewrite <- app_assoc in Hc1.
  destruct (process_document_reads fuel _ d _ _ ltac:(lia) Hw Hc1) as (c2 & E2 & Hc2).
  destruct (next_event_pending _ _ _ _ Hc2) as (c3 & E3 & _ & Hp & _).
  assert (exists fuel', fuel = S fuel') as (fuel' & ->).
  { destruct fuel; [|eauto]. pose proof (node_events_cons d) as (? & ? & Ed). rewrite Ed in Hf; cbn in Hf; lia. }
  rewrite (sm_bind_Done _ _ c1 (Some d) c2) in E1 by done.
  assert (stream_loop (S fuel') ([] ++ [d]) c2 = Done (Some [d], c3)) as E4
    by (cbn [stream_loop]; by rewrite (sm_bind_Done _ _ c2 StreamEnd c3) by done).
  unfold parse_yaml_stream. rewrite E, E1, E4. cbn. by rewrite Hp.
Qed.

Lemma parse_yaml_stream_fails fuel p docs e es :
  Forall wf_node docs -> feeds p (stream_events docs) ->
  (2 + length (flat_map node_events docs) <= fuel)%nat ->
  match docs with [] => e = StreamEnd | [_] => False | _ :: d2 :: _ => node_events d2 = e :: es end ->
  parse_yaml_stream fuel p = Done (None, Some (start_problem e)).
Proof.
  intros Hw Hfe Hf Hd. destruct (parse_stream_start fuel p docs Hfe) as (c & Hc & E).
  destruct fuel as [|fuel]; [lia|]. unfold stream_events in Hc.
  destruct docs as [|d1 [|d2 docs]]; [subst e|done|]; cbn [flat_map] in Hc, Hf; cbn [app] in Hc.
  - destruct (stream_loop_round fuel [] c StreamStart _ _ ltac:(done) Hc) as (c1 & Hc1 & E1).
    destruct (process_document_other fuel c1 StreamEnd _ _ eq_refl Hc1) as (c2 & E2 & Hp).
    rewrite (sm_bind_Done _ _ c1 None c2) in E1 by done.
    unfold parse_yaml_stream. rewrite E, E1. cbn. by rewrite Hp.
  - destruct (stream_loop_round fuel [] c StreamStart _ _ ltac:(done) Hc) as (c1 & Hc1 & E1).
    apply Forall_cons in Hw as [Hw1 _]. rewrite length_app in Hf.
    rewrite <- !app_assoc in Hc1. cbn [app] in Hc1.
    destruct (process_document_reads fuel _ d1 _ _ ltac:(lia) Hw1 Hc1) as (c2 & E2 & Hc2).
    rewrite (sm_bind_Done _ _ c1 (Some d1) c2) in E1 by done.
    rewrite Hd in Hc2. cbn [app] in Hc2.
    destruct fuel as [|fuel]; [lia|].
    destruct (stream_loop_round fuel ([] ++ [d1]) c2 DocumentStart _ _ ltac:(done) Hc2) as (c3 & Hc3 & E3).
    assert (is_document_start e = false) as He by (destruct d2; cbn in Hd; by injection Hd as <- _).
    assert (exists x y, es ++ DocumentEnd ::
      flat_map (fun d => DocumentStart :: node_events d ++ [DocumentEnd]) docs
       ++ [StreamEnd; NoEvent] = x :: y) as (x & y & Ex) by (destruct es; cbn; eauto).
    rewrite <- !app_assoc in Hc3. cbn [app] in Hc3. rewrite Ex in Hc3.
    destruct (process_document_other fuel _ _ _ _ He Hc3) as (c4 & E4 & Hp).
    rewrite (sm_bind_Done _ _ c3 None c4) in E3 by done.
    unfold parse_yaml_stream. rewrite E, E1, E3. cbn. by rewrite Hp.
Qed.

(** C12: the reader is the left inverse of printing a tree as events.  From
    any parser that delivers, without an error, the event stream of one
    document, [parse_yaml_stream] returns exactly that document (positions,
    strings and lengths included, sequences and mappings in order) and sets
    no problem; one unit of fuel more than the document has events is
    enough. *)
Theorem parse_yaml_stream_roundtrip fuel p d :
  wf_node d -> feeds p (stream_events [d]) -> (length (node_events d) < fuel)%nat ->
  parse_yaml_stream fuel p = Done (Some [d], None).
Proof. apply parse_yaml_stream_spec. Qed.

(** a stream must hold exactly one document.  On an error-free stream of
    none, or of two or more, documents [parse_yaml_stream] ends with the null
    tree and a problem set: the stream loop consumes the event that
    [process_document] expects to be the DOCUMENT-START of every document but
    the first, so a second document is rejected at its first node. *)
Theorem parse_yaml_stream_one_document fuel p docs :
  length docs <> 1%nat -> Forall wf_node docs -> feeds p (stream_events docs) ->
  (2 + length (flat_map node_events docs) <= fuel)%nat ->
  exists e, parse_yaml_stream fuel p = Done (None, Some (start_problem e)) /\
    (docs = [] -> e = StreamEnd) /\
    (forall d1 d2 ds, docs = d1 :: d2 :: ds -> head (node_events d2) = Some e).
Proof.
  intros Hn Hw Hfe Hf. destruct docs as [|d1 [|d2 ds]]; [|done|].
  - exists StreamEnd. split; [by apply (parse_yaml_stream_fails _ _ [] _ [])|done].
  - destruct (node_events_cons d2) as (e & es & Ed). exists e.
    split; [by apply (parse_yaml_stream_fails _ _ (d1 :: d2 :: ds) _ es)|].
    split; [done|]. intros ? ? ? [= -> -> ->]. by rewrite Ed.
Qed.
End Correct.

(** ** Witnesses *)

Definition sample_node : yaml_node :=
  Mapping (Pos 0 0)
    [(Scalar (Pos 0 0) "modules" 7,
      Sequence (Pos 1 2) [Scalar (Pos 1 4) "SceLibc" 7; Mapping (Pos 2 4) []])].

Lemma parse_yaml_stream_roundtrip_witness :
  parse_yaml_stream 10 (stream_events [sample_node]) = Done (Some [sample_node], None).
Proof.
  apply parse_yaml_stream_roundtrip; [vm_compute; repeat split|vm_compute; repeat split|].
  vm_compute. lia.
Defined.

Lemma parse_yaml_stream_one_document_witness :
  exists e, parse_yaml_stream 22 (stream_events [sample_node; sample_node]) =
      Done (None, Some (start_problem e)) /\
    ([sample_node; sample_node] = [] -> e = StreamEnd) /\
    (forall d1 d2 ds, [sample_node; sample_node] = d1 :: d2 :: ds -> head (node_events d2) = Some e).
Proof.
  apply parse_yaml_stream_one_document; [done|repeat constructor|vm_compute; repeat split|].
  vm_compute. lia.
Defined.
