(* ===== verification/VitaImport.v ===== *)
(** * The import database of the stub generator (vita-import)

    Scalars to integers and booleans and the iteration over mappings
    ([YamlUtil], yamltreeutil.c), the records of libraries, modules and stubs
    with their lookups ([Imports], vita-import.c), and the reading of a
    document into them ([ImportParse], vita-import-parse.c).  Diagnostics are
    a list of messages, the newest last.  The specification is the document
    of a database, [yaml_of_imports], and the first match in a table. *)

From stdpp Require Import prelude strings pretty.
From Stdlib Require Import Ascii.
From S2P Require Import Prelude Bytes CString Yaml.

Abbreviation log := (list string).

Module YamlUtil.

(** ** [strtoul] in base 0, [unsigned long] having 64 bits *)

Definition ULONG_MAX : Z := 2 ^ 64 - 1.

Definition char_code (c : Ascii.ascii) : Z := Z.of_nat (Ascii.nat_of_ascii c).

(** [isspace] of the C locale *)
Definition isspace (c : Ascii.ascii) : bool :=
  (char_code c =? 32) || ((9 <=? char_code c) && (char_code c <=? 13)).

Definition digit_val (c : Ascii.ascii) : option Z :=
  let k := char_code c in
  if (48 <=? k) && (k <=? 57) then Some (k - 48)
  else if (65 <=? k) && (k <=? 90) then Some (k - 55)
  else if (97 <=? k) && (k <=? 122) then Some (k - 87)
  else None.

Definition is_digit (base : Z) (c : Ascii.ascii) : bool :=
  match digit_val c with Some d => d <? base | None => false end.

Fixpoint skip_space (s : string) : string :=
  match s with
  | String c s' => if isspace c then skip_space s' else s
  | EmptyString => EmptyString
  end.

Definition take_sign (s : string) : bool * string :=
  match s with
  | String c s' =>
      if char_code c =? 45 then (true, s') else if char_code c =? 43 then (false, s') else (false, s)
  | EmptyString => (false, EmptyString)
  end.

(** "0x" counts as a prefix only before a hexadecimal digit. *)
Definition take_base (s : string) : Z * string :=
  match s with
  | String z (String x (String d _ as t)) =>
      if char_code z =? 48
      then if ((char_code x =? 120) || (char_code x =? 88)) && is_digit 16 d then (16, t) else (8, s)
      else (10, s)
  | String z _ => if char_code z =? 48 then (8, s) else (10, s)
  | EmptyString => (10, s)
  end.

Fixpoint scan_digits (base : Z) (s : string) (acc : Z) : Z * string :=
  match s with
  | String c s' =>
      match digit_val c with
      | Some d => if d <? base then scan_digits base s' (acc * base + d) else (acc, s)
      | None => (acc, s)
      end
  | EmptyString => (acc, EmptyString)
  end.

(** The value, and what [endptr] points to. *)
Definition strtoul (s : string) : Z * string :=
  let '(neg, t) := take_sign (skip_space s) in
  let '(base, t) := take_base t in
  match t with
  | String c _ =>
      if is_digit base c then
        let '(v, rest) := scan_digits base t 0 in
        (if ULONG_MAX <? v then ULONG_MAX else if neg : bool then u64 (- v) else v, rest)
      else (0, s)
  | EmptyString => (0, s)
  end.

(** ** Scalars

    A C function that writes through a pointer takes the old value and
    returns the return code with the new one. *)

Definition process_32bit_integer (node : yaml_node) (nid : Z) : Z * Z :=
  match node with
  | Scalar _ value _ =>
      let '(v, endptr) := strtoul value in
      let res := u32 v in
      if negb (bool_decide (endptr = EmptyString))
      then (if res =? ULONG_MAX then -2 else -3, nid)
      else (0, res)
  | _ => (-1, nid)
  end.

Definition process_boolean (node : yaml_node) (boolean : Z) : Z * Z :=
  match node with
  | Scalar _ value _ =>
      if bool_decide (value = "true"%string) then (0, 1)
      else if bool_decide (value = "false"%string) then (0, 0)
      else (-2, boolean)
  | _ => (-1, boolean)
  end.

Definition process_bool (node : yaml_node) (boolean : bool) : Z * bool :=
  let '(res, cast) := process_boolean node 0 in
  (res, if res =? 0 then cast =? 1 else boolean).

Definition process_string (node : yaml_node) (str : string) : Z * string :=
  match node with Scalar _ value _ => (0, value) | _ => (-1, str) end.

Definition is_scalar (node : yaml_node) : bool :=
  match node with Scalar _ _ _ => true | _ => false end.
Definition is_mapping (node : yaml_node) : bool :=
  match node with Mapping _ _ => true | _ => false end.
Definition is_sequence (node : yaml_node) : bool :=
  match node with Sequence _ _ => true | _ => false end.

(** ** Iteration

    A functor changes the user data, returns a code, and stops the iteration
    when it is negative. *)

Fixpoint iterate_pairs {S} (functor : yaml_node -> yaml_node -> S -> Z * S)
    (pairs : list (yaml_node * yaml_node)) (userdata : S) : Z * S :=
  match pairs with
  | [] => (0, userdata)
  | (lhs, rhs) :: pairs' =>
      let '(r, userdata) := functor lhs rhs userdata in
      if r <? 0 then (-2, userdata) else iterate_pairs functor pairs' userdata
  end.

Definition yaml_iterate_mapping {S} (node : yaml_node)
    (functor : yaml_node -> yaml_node -> S -> Z * S) (userdata : S) : Z * S :=
  match node with
  | Mapping _ pairs => iterate_pairs functor pairs userdata
  | _ => (-1, userdata)
  end.

Fixpoint iterate_nodes {S} (functor : yaml_node -> S -> Z * S)
    (nodes : list yaml_node) (userdata : S) : Z * S :=
  match nodes with
  | [] => (0, userdata)
  | n :: nodes' =>
      let '(r, userdata) := functor n userdata in
      if r <? 0 then (-2, userdata) else iterate_nodes functor nodes' userdata
  end.

Definition yaml_iterate_sequence {S} (node : yaml_node)
    (functor : yaml_node -> S -> Z * S) (userdata : S) : Z * S :=
  match node with
  | Sequence _ nodes => iterate_nodes functor nodes userdata
  | _ => (-1, userdata)
  end.
End YamlUtil.
Export YamlUtil.

Module Imports.

(** ** The database (vita-import.h)

    The pointer tables keep null entries ([calloc]); [flags] of a module,
    which nothing writes, is left out. *)

Record stub := Stub { stub_name : string; stub_NID : Z }.

Record module := Module_ {
  module_name : string;
  module_NID : Z;
  is_kernel : bool;
  functions : list (option stub);
  variables : list (option stub);
}.

Record lib := Lib { lib_name : string; lib_NID : Z; modules : list (option module) }.

Record imports := Imports_ { libs : list (option lib) }.

Definition vita_imports_new (n_libs : nat) : imports := Imports_ (replicate n_libs None).
Definition vita_imports_lib_new (name : string) (NID : Z) (n_modules : nat) : lib :=
  Lib (strdup name) NID (replicate n_modules None).
Definition vita_imports_module_new (name : string) (kernel : bool) (NID : Z)
    (n_functions n_variables : nat) : module :=
  Module_ (strdup name) NID kernel (replicate n_functions None) (replicate n_variables None).
Definition vita_imports_stub_new (name : string) (NID : Z) : stub := Stub (strdup name) NID.

(** The common prefix of the entries, the name and the NID, is read through
    [vita_imports_common_fields]. *)
Class CommonFields (E : Type) := NID : E -> Z.
#[export] Instance stub_common : CommonFields stub := stub_NID.
#[export] Instance module_common : CommonFields module := module_NID.
#[export] Instance lib_common : CommonFields lib := lib_NID.

Fixpoint generic_find {E} `{!CommonFields E} (entries : list (option E)) (nid : Z) : option E :=
  match entries with
  | [] => None
  | None :: entries' => generic_find entries' nid
  | Some entry :: entries' => if NID entry =? nid then Some entry else generic_find entries' nid
  end.

Definition vita_imports_find_lib (imp : imports) (nid : Z) : option lib :=
  generic_find (libs imp) nid.
Definition vita_imports_find_module (l : lib) (nid : Z) : option module :=
  generic_find (modules l) nid.
Definition vita_imports_find_function (m : module) (nid : Z) : option stub :=
  generic_find (functions m) nid.
Definition vita_imports_find_variable (m : module) (nid : Z) : option stub :=
  generic_find (variables m) nid.
End Imports.
Export Imports.

Module ImportParse.

Definition position_of (n : yaml_node) : position :=
  match n with Scalar p _ _ | Mapping p _ | Sequence p _ => p end.

(** [fprintf(stderr, "error: line: %zd, column: %zd, ...")] *)
Definition error_at (n : yaml_node) (msg : string) (l : log) : log :=
  l ++ [("error: line: " +:+ pretty (line (position_of n)) +:+ ", column: " +:+
         pretty (column (position_of n)) +:+ ", " +:+ msg)%string].

Definition expecting_scalar (what : string) (n : yaml_node) : log -> log :=
  error_at n ("expecting " +:+ what +:+ " to be scalar, got '" +:+ node_type_str n +:+ "'.").

(** The value of a node the code has found to be a scalar. *)
Definition scalar_value (n : yaml_node) : string :=
  match n with Scalar _ v _ => v | _ => "" end.

(** A failing functor leaves the record as the calls before left it. *)
Definition process_import_functions (parent child : yaml_node) (st : module * log)
    : Z * (module * log) :=
  let '(library, err) := st in
  if negb (is_scalar parent) then (-1, (library, expecting_scalar "function" parent err))
  else
    let symbol := vita_imports_stub_new (scalar_value parent) 0 in
    if negb (is_scalar child) then (-1, (library, expecting_scalar "function value" child err))
    else
      let '(r, nid) := process_32bit_integer child (stub_NID symbol) in
      if r <? 0 then
        (-1, (library, error_at child ("could not convert function nid '" +:+ scalar_value child
                         +:+ "' to 32 bit integer.") err))
      else
        (0, (Module_ (module_name library) (module_NID library) (is_kernel library)
               (functions library ++ [Some (Stub (stub_name symbol) nid)]) (variables library), err)).

Definition process_import_variables (parent child : yaml_node) (st : module * log)
    : Z * (module * log) :=
  let '(library, err) := st in
  if negb (is_scalar parent) then (-1, (library, expecting_scalar "variable" parent err))
  else
    let symbol := vita_imports_stub_new (scalar_value parent) 0 in
    if negb (is_scalar child) then (-1, (library, expecting_scalar "variable value" child err))
    else
      let '(r, nid) := process_32bit_integer child (stub_NID symbol) in
      if r <? 0 then
        (-1, (library, error_at child ("could not convert variable nid '" +:+ scalar_value child
                         +:+ "' to 32 bit integer.") err))
      else
        (0, (Module_ (module_name library) (module_NID library) (is_kernel library)
               (functions library) (variables library ++ [Some (Stub (stub_name symbol) nid)]), err)).

Definition process_library (parent child : yaml_node) (st : module * log) : Z * (module * log) :=
  let '(library, err) := st in
  if negb (is_scalar parent) then (-1, (library, expecting_scalar "library key" parent err))
  else if bool_decide (scalar_value parent = "kernel"%string) then
    if negb (is_scalar child) then (-1, (library, expecting_scalar "library syscall flag" child err))
    else
      let '(r, k) := process_bool child (is_kernel library) in
      let library := Module_ (module_name library) (module_NID library) k
                       (functions library) (variables library) in
      if r <? 0 then
        (-1, (library, error_at child ("could not convert library flag to boolean, got '" +:+
                         scalar_value child +:+ "'. expected 'true' or 'false'.") err))
      else (0, (library, err))
  else if bool_decide (scalar_value parent = "functions"%string) then
    let '(r, st) := yaml_iterate_mapping child process_import_functions (library, err) in
    (if r <? 0 then -1 else 0, st)
  else if bool_decide (scalar_value parent = "variables"%string) then
    let '(r, st) := yaml_iterate_mapping child process_import_variables (library, err) in
    (if r <? 0 then -1 else 0, st)
  else if bool_decide (scalar_value parent = "nid"%string) then
    if negb (is_scalar child) then (-1, (library, expecting_scalar "library nid" child err))
    else
      let '(r, nid) := process_32bit_integer child (module_NID library) in
      let library := Module_ (module_name library) nid (is_kernel library)
                       (functions library) (variables library) in
      if r <? 0 then
        (-1, (library, error_at child ("could not convert library nid '" +:+ scalar_value child
                         +:+ "' to 32 bit integer.") err))
      else (0, (library, err))
  else
    (-1, (library, error_at child ("unrecognised library key '" +:+ scalar_value parent +:+ "'.") err)).

Definition process_libraries (parent child : yaml_node) (st : lib * log) : Z * (lib * log) :=
  let '(import, err) := st in
  if negb (is_scalar parent) then (-1, (import, expecting_scalar "library key" parent err))
  else
    let library := vita_imports_module_new "" false 0 0 0 in
    let library := Module_ (strdup (scalar_value parent)) (module_NID library) (is_kernel library)
                     (functions library) (variables library) in
    let '(r, (library, err)) := yaml_iterate_mapping child process_library (library, err) in
    if r <? 0 then (-1, (import, err))
    else (0, (Lib (lib_name import) (lib_NID import) (modules import ++ [Some library]), err)).

Definition process_import (parent child : yaml_node) (st : lib * log) : Z * (lib * log) :=
  let '(import, err) := st in
  if negb (is_scalar parent) then (-1, (import, expecting_scalar "module key" parent err))
  else if bool_decide (scalar_value parent = "nid"%string) then
    if negb (is_scalar child) then (-1, (import, expecting_scalar "module nid" child err))
    else
      let '(r, nid) := process_32bit_integer child (lib_NID import) in
      let import := Lib (lib_name import) nid (modules import) in
      if r <? 0 then
        (-1, (import, error_at child ("could not convert module nid '" +:+ scalar_value child
                        +:+ "' to 32 bit integer.") err))
      else (0, (import, err))
  else if bool_decide (scalar_value parent = "libraries"%string) then
    let '(r, st) := yaml_iterate_mapping child process_libraries (import, err) in
    (if r <? 0 then -1 else 0, st)
  else
    (-1, (import, error_at child ("unrecognised module key '" +:+ scalar_value parent +:+ "'.") err)).

Definition process_import_list (parent child : yaml_node) (st : imports * log)
    : Z * (imports * log) :=
  let '(imps, err) := st in
  if negb (is_scalar parent) then (-1, (imps, expecting_scalar "modules key" parent err))
  else
    let import := vita_imports_lib_new (scalar_value parent) 0 0 in
    let '(r, (import, err)) := yaml_iterate_mapping child process_import (import, err) in
    if r <? 0 then (-1, (imps, err))
    else (0, (Imports_ (libs imps ++ [Some import]), err)).

(** The loop over the root mapping: only the key "modules" is read. *)
Fixpoint read_roots (pairs : list (yaml_node * yaml_node)) (imps : imports) (err : log)
    : option imports * log :=
  match pairs with
  | [] => (Some imps, err)
  | (lhs, rhs) :: pairs' =>
      if is_scalar lhs && bool_decide (scalar_value lhs = "modules"%string) then
        let '(r, (imps, err)) := yaml_iterate_mapping rhs process_import_list (imps, err) in
        if r <? 0 then (None, err) else read_roots pairs' imps err
      else read_roots pairs' imps err
  end.

Definition read_vita_imports (doc : yaml_document) (err : log) : option imports * log :=
  match doc with
  | Mapping _ pairs =>
      if (length pairs <? 1)%nat then
        (None, error_at doc ("expecting at least one entry within root mapping, got " +:+
                 pretty (Z.of_nat (length pairs)) +:+ ".") err)
      else read_roots pairs (vita_imports_new 0) err
  | _ =>
      (None, error_at doc ("expecting root node to be a mapping, got '" +:+
               node_type_str doc +:+ "'.") err)
  end.

Section Load.
Context {P : Type} `{!YamlParser P}.

(** [text] is the parser initialised on the file; a null [error.problem]
    prints as glibc prints it. *)
Definition vita_imports_loads (fuel : nat) (text : P) : run (option imports * log) :=
  '(tree, problem) ← parse_yaml_stream fuel text;
  match tree with
  | None => Done (None, [("error: " +:+ default "(null)" problem)%string])
  | Some tree =>
      match tree with
      | [doc] => Done (read_vita_imports doc [])
      | _ =>
          Done (None, [("error: expecting a single yaml document, got: " +:+
                          pretty (Z.of_nat (length tree)))%string])
      end
  end.

Definition vita_imports_load (fopen : string -> option P) (fuel : nat) (filename : string)
    : run (option imports * log) :=
  match fopen filename with
  | None => Done (None, [("Error: could not open " +:+ filename)%string])
  | Some fp => vita_imports_loads fuel fp
  end.
End Load.

(** ** Specification and proofs *)

Definition hex_literal (n : Z) : string := "0x" +:+ fmt_hex 16 n.

Lemma hex_digit_val d : 0 <= d < 16 ->
  exists c, hex_digit d = String c "" /\ digit_val c = Some d.
Proof.
  intros Hd. assert (d ∈ seqZ 0 16) as Hin by (apply elem_of_seqZ; lia).
  revert Hin. generalize d. clear. rewrite <- Forall_forall.
  repeat (apply Forall_cons_2; [eexists; split; vm_compute; reflexivity|]). apply Forall_nil_2.
Qed.

Lemma scan_digits_cons base c d s acc : digit_val c = Some d -> d < base ->
  scan_digits base (String c s) acc = scan_digits base s (acc * base + d).
Proof. intros Hd Hb. cbn [scan_digits]. rewrite Hd. by replace (d <? base) with true by lia. Qed.

(** Printed digits scan back, and are digits. *)
Lemma scan_fmt_hex k x : 0 <= x < 16 ^ Z.of_nat (S k) ->
  exists n c s, fmt_hex (S k) x = String c s /\ is_digit 16 c = true /\ 0 <= n /\
    forall acc rest, scan_digits 16 (fmt_hex (S k) x +:+ rest) acc = scan_digits 16 rest (acc * 16 ^ n + x).
Proof.
  revert x. induction k as [|k IH]; intros x Hx;
    (destruct (hex_digit_val (x mod 16)) as (c & Hc & Hd); [by apply Z.mod_pos_bound|]);
    pose proof (Z.mod_pos_bound x 16 ltac:(lia)); pose proof (Z.div_mod x 16 ltac:(lia));
    (destruct (Z.ltb_spec x 16) as [Hlt|Hge];
     [ exists 1, c, ""%string; cbn [fmt_hex]; rewrite (proj2 (Z.ltb_lt x 16)), Hc by done;
       split; [done|]; unfold is_digit; rewrite Hd; split; [lia|]; split; [lia|];
       intros acc rest; change (("" +:+ String c "") +:+ rest) with (String c rest); rewrite (scan_digits_cons _ _ _ _ _ Hd) by lia;
       rewrite Z.pow_1_r, Z.mod_small by lia; done
     | ]).
  - change (16 ^ Z.of_nat 1) with 16 in Hx. lia.
  - destruct (IH (x / 16)) as (n & c' & s & E & Hc' & Hn & Hscan).
    { rewrite Nat2Z.inj_succ, Z.pow_succ_r in Hx by lia. split; [lia|].
      apply Z.div_lt_upper_bound; lia. }
    assert (fmt_hex (S (S k)) x = fmt_hex (S k) (x / 16) +:+ String c "") as Ex.
    { cbn [fmt_hex]. rewrite (proj2 (Z.ltb_ge x 16)), Hc by lia. done. }
    exists (n + 1), c', (s +:+ String c "")%string. rewrite Ex, E. split; [done|]. split; [done|].
    split; [lia|]. intros acc rest. rewrite <- E, string_app_assoc, Hscan.
    change (String c "" +:+ rest) with (String c rest). rewrite (scan_digits_cons _ _ _ _ _ Hd) by lia. f_equal.
    rewrite Z.pow_add_r, Z.pow_1_r by lia. lia.
Qed.

Lemma take_base_x c s : is_digit 16 c = true ->
  take_base (String "0"%char (String "x"%char (String c s))) = (16, String c s).
Proof. intros Hc. unfold take_base. by rewrite Hc. Qed.

Lemma strtoul_hex n : 0 <= n < 2 ^ 64 -> strtoul (hex_literal n) = (n, ""%string).
Proof.
  intros Hn. destruct (scan_fmt_hex 15 n) as (k & c & s & E & Hc & _ & Hscan); [exact Hn|].
  unfold hex_literal. rewrite E. specialize (Hscan 0 ""%string).
  rewrite E, string_app_nil_r in Hscan. rewrite !string_app_cons. change ("" +:+ ?z) with z.
  unfold strtoul. change (take_sign (skip_space ?z)) with (false, z). cbv beta iota.
  rewrite (take_base_x c s Hc), Hc, Hscan. cbn [scan_digits].
  replace (0 * 16 ^ k + n) with n by lia. unfold ULONG_MAX.
  by replace (2 ^ 64 - 1 <? n) with false by lia.
Qed.

Lemma process_32bit_integer_spec p len n nid : 0 <= n < 2 ^ 64 ->
  process_32bit_integer (Scalar p (hex_literal n) len) nid = (0, u32 n).
Proof. intros Hn. unfold process_32bit_integer. by rewrite strtoul_hex. Qed.

Lemma strdup_app a b : strdup a = a -> strdup (a +:+ b) = a +:+ strdup b.
Proof.
  induction a as [|x a IH]; [done|]. rewrite string_app_cons. cbn [strdup].
  case_match; [done|]. intros [= Ha]. by rewrite IH.
Qed.

Lemma fmt_hex_strdup k x : 0 <= x -> strdup (fmt_hex k x) = fmt_hex k x.
Proof.
  revert x. induction k as [|k IH]; intros x Hx; cbn [fmt_hex]; [done|].
  destruct (hex_digit_val (x mod 16)) as (c & Hc & Hd); [by apply Z.mod_pos_bound|].
  assert (strdup (hex_digit (x mod 16)) = hex_digit (x mod 16)) as Hs.
  { rewrite Hc. cbn [strdup]. destruct (Ascii.eqb_spec c zero) as [->|]; done. }
  rewrite strdup_app; [by rewrite Hs|].
  case_match; [done|]. apply IH. apply Z.div_pos; lia.
Qed.

Lemma hex_literal_strdup n : 0 <= n -> strdup (hex_literal n) = hex_literal n.
Proof. intros Hn. unfold hex_literal. rewrite strdup_app by done. by rewrite fmt_hex_strdup. Qed.

(** The document of a database: every name once, the NIDs in hexadecimal. *)

Definition scalar (s : string) : yaml_node := Scalar (Pos 0 0) s (Z.of_nat (String.length s)).
Definition mapping (ps : list (yaml_node * yaml_node)) : yaml_node := Mapping (Pos 0 0) ps.

Definition yaml_of_stub (s : stub) : yaml_node * yaml_node :=
  (scalar (stub_name s), scalar (hex_literal (stub_NID s))).

Definition yaml_of_module (m : module) : yaml_node * yaml_node :=
  (scalar (module_name m),
   mapping [(scalar "nid", scalar (hex_literal (module_NID m)));
            (scalar "kernel", scalar (if is_kernel m then "true" else "false"));
            (scalar "functions", mapping (yaml_of_stub <$> omap id (functions m)));
            (scalar "variables", mapping (yaml_of_stub <$> omap id (variables m)))]).

Definition yaml_of_lib (l : lib) : yaml_node * yaml_node :=
  (scalar (lib_name l),
   mapping [(scalar "nid", scalar (hex_literal (lib_NID l)));
            (scalar "libraries", mapping (yaml_of_module <$> omap id (modules l)))]).

Definition yaml_of_imports (i : imports) : yaml_node :=
  mapping [(scalar "modules", mapping (yaml_of_lib <$> omap id (libs i)))].

(** A database the reader can build: no null entries, names without NUL,
    32-bit NIDs. *)
Definition entries_ok {E} (ok : E -> Prop) (es : list (option E)) : Prop :=
  Forall (fun o => match o with Some e => ok e | None => False end) es.
Definition stub_ok (s : stub) : Prop :=
  strdup (stub_name s) = stub_name s /\ 0 <= stub_NID s < 2 ^ 32.
Definition module_ok (m : module) : Prop :=
  strdup (module_name m) = module_name m /\ 0 <= module_NID m < 2 ^ 32 /\
  entries_ok stub_ok (functions m) /\ entries_ok stub_ok (variables m).
Definition lib_ok (l : lib) : Prop :=
  strdup (lib_name l) = lib_name l /\ 0 <= lib_NID l < 2 ^ 32 /\ entries_ok module_ok (modules l).
Definition imports_ok (i : imports) : Prop := entries_ok lib_ok (libs i).

(** An iteration whose functor appends the entry of every pair appends them all. *)
Lemma iterate_appends {S E} (f : yaml_node -> yaml_node -> S * log -> Z * (S * log))
    (pair : E -> yaml_node * yaml_node) (push : list (option E) -> S) (ok : E -> Prop) es err :
  (forall e acc, ok e -> f (pair e).1 (pair e).2 (push acc, err) = (0, (push (acc ++ [Some e]), err))) ->
  forall acc, entries_ok ok es ->
  yaml_iterate_mapping (mapping (pair <$> omap id es)) f (push acc, err) = (0, (push (acc ++ es), err)).
Proof.
  intros Hf acc Hes. cbn [yaml_iterate_mapping mapping]. revert acc.
  induction Hes as [|[e|] es He Hes IH]; intros acc; [by rewrite app_nil_r| |done].
  cbn. specialize (Hf e acc He). destruct (pair e) as [l r]; cbn in Hf. rewrite Hf. cbn.
  rewrite (IH (acc ++ [Some e])). by rewrite <- app_assoc.
Qed.

Lemma process_nid_spec n nid : 0 <= n < 2 ^ 32 ->
  process_32bit_integer (scalar (hex_literal n)) nid = (0, n).
Proof. intros Hn. unfold scalar. rewrite process_32bit_integer_spec by lia. by rewrite u32_small. Qed.

Lemma process_import_functions_spec m err s acc : stub_ok s ->
  let push fs := Module_ (module_name m) (module_NID m) (is_kernel m) fs (variables m) in
  process_import_functions (yaml_of_stub s).1 (yaml_of_stub s).2 (push acc, err) =
    (0, (push (acc ++ [Some s]), err)).
Proof.
  intros [Hn Hi] push. unfold process_import_functions. cbn -[process_32bit_integer].
  rewrite process_nid_spec by done. cbn. rewrite Hn. by destruct s.
Qed.

Lemma process_import_variables_spec m err s acc : stub_ok s ->
  let push vs := Module_ (module_name m) (module_NID m) (is_kernel m) (functions m) vs in
  process_import_variables (yaml_of_stub s).1 (yaml_of_stub s).2 (push acc, err) =
    (0, (push (acc ++ [Some s]), err)).
Proof.
  intros [Hn Hi] push. unfold process_import_variables. cbn -[process_32bit_integer].
  rewrite process_nid_spec by done. cbn. rewrite Hn. by destruct s.
Qed.

(** Takes the branch of the closed key. *)
Ltac key :=
  cbn [is_scalar negb scalar scalar_value position_of];
  repeat (case_bool_decide; try solve [exfalso; congruence]).

Lemma process_library_nid m err n : 0 <= n < 2 ^ 32 ->
  process_library (scalar "nid") (scalar (hex_literal n)) (m, err) =
    (0, (Module_ (module_name m) n (is_kernel m) (functions m) (variables m), err)).
Proof. intros Hn. unfold process_library. key. fold (scalar (hex_literal n)). by rewrite process_nid_spec. Qed.

Lemma process_library_kernel m err (k : bool) :
  process_library (scalar "kernel") (scalar (if k then "true" else "false")) (m, err) =
    (0, (Module_ (module_name m) (module_NID m) k (functions m) (variables m), err)).
Proof. unfold process_library. key. by destruct k. Qed.

Lemma process_library_functions name nid k fs vs err : entries_ok stub_ok fs ->
  process_library (scalar "functions") (mapping (yaml_of_stub <$> omap id fs))
    (Module_ name nid k [] vs, err) = (0, (Module_ name nid k fs vs, err)).
Proof.
  intros Hfs. unfold process_library. key.
  pose proof (iterate_appends process_import_functions yaml_of_stub
    (fun fs => Module_ name nid k fs vs) stub_ok fs err) as E.
  rewrite (E ltac:(intros e acc; apply (process_import_functions_spec (Module_ name nid k [] vs))) []) by done.
  done.
Qed.

Lemma process_library_variables name nid k fs vs err : entries_ok stub_ok vs ->
  process_library (scalar "variables") (mapping (yaml_of_stub <$> omap id vs))
    (Module_ name nid k fs [], err) = (0, (Module_ name nid k fs vs, err)).
Proof.
  intros Hvs. unfold process_library. key.
  pose proof (iterate_appends process_import_variables yaml_of_stub
    (fun vs => Module_ name nid k fs vs) stub_ok vs err) as E.
  rewrite (E ltac:(intros e acc; apply (process_import_variables_spec (Module_ name nid k fs []))) []) by done.
  done.
Qed.

Lemma iterate_pairs_step {S} (f : yaml_node -> yaml_node -> S -> Z * S) l r ps s s' :
  f l r s = (0, s') -> iterate_pairs f ((l, r) :: ps) s = iterate_pairs f ps s'.
Proof. intros E. cbn. by rewrite E. Qed.

Lemma process_libraries_spec l err m acc : module_ok m ->
  let push ms := Lib (lib_name l) (lib_NID l) ms in
  process_libraries (yaml_of_module m).1 (yaml_of_module m).2 (push acc, err) =
    (0, (push (acc ++ [Some m]), err)).
Proof.
  intros (Hn & Hi & Hfs & Hvs) push. unfold process_libraries. cbn [yaml_of_module fst snd].
  cbn [is_scalar negb scalar yaml_iterate_mapping mapping].
  rewrite (iterate_pairs_step _ _ _ _ _ _ (process_library_nid _ _ _ Hi)).
  rewrite (iterate_pairs_step _ _ _ _ _ _ (process_library_kernel _ _ (is_kernel m))).
  cbn [module_name module_NID is_kernel functions variables vita_imports_module_new replicate scalar_value].
  rewrite (iterate_pairs_step _ _ _ _ _ _ (process_library_functions _ _ _ _ _ _ Hfs)).
  rewrite (iterate_pairs_step _ _ _ _ _ _ (process_library_variables _ _ _ _ _ _ Hvs)).
  cbn. rewrite Hn. by destruct m.
Qed.

Lemma process_import_nid l err n : 0 <= n < 2 ^ 32 ->
  process_import (scalar "nid") (scalar (hex_literal n)) (l, err) =
    (0, (Lib (lib_name l) n (modules l), err)).
Proof. intros Hn. unfold process_import. key. fold (scalar (hex_literal n)). by rewrite process_nid_spec. Qed.

Lemma process_import_libraries name nid ms err : entries_ok module_ok ms ->
  process_import (scalar "libraries") (mapping (yaml_of_module <$> omap id ms)) (Lib name nid [], err) =
    (0, (Lib name nid ms, err)).
Proof.
  intros Hms. unfold process_import. key.
  pose proof (iterate_appends process_libraries yaml_of_module (Lib name nid) module_ok ms err) as E.
  by rewrite (E ltac:(intros e acc; apply (process_libraries_spec (Lib name nid []))) []).
Qed.

Lemma process_import_list_spec err l acc : lib_ok l ->
  process_import_list (yaml_of_lib l).1 (yaml_of_lib l).2 (Imports_ acc, err) =
    (0, (Imports_ (acc ++ [Some l]), err)).
Proof.
  intros (Hn & Hi & Hms). unfold process_import_list. cbn [yaml_of_lib fst snd].
  cbn [is_scalar negb scalar yaml_iterate_mapping mapping].
  rewrite (iterate_pairs_step _ _ _ _ _ _ (process_import_nid _ _ _ Hi)).
  cbn [lib_name lib_NID modules vita_imports_lib_new replicate scalar_value].
  rewrite (iterate_pairs_step _ _ _ _ _ _ (process_import_libraries _ _ _ _ Hms)).
  cbn. rewrite Hn. by destruct l.
Qed.

Lemma read_vita_imports_spec i : imports_ok i -> read_vita_imports (yaml_of_imports i) [] = (Some i, []).
Proof.
  intros Hi. unfold read_vita_imports, yaml_of_imports, mapping. cbn [length read_roots].
  key. cbn [andb].
  pose proof (iterate_appends process_import_list yaml_of_lib Imports_ lib_ok (libs i) []
    (process_import_list_spec []) [] Hi) as E.
  unfold mapping in E. change (vita_imports_new 0) with (Imports_ []). rewrite E. by destruct i.
Qed.

(** The document of a database is well formed for the reader. *)
Lemma wf_scalar s : strdup s = s -> wf_node (scalar s).
Proof. done. Qed.

Lemma wf_mapping_iff ps : wf_node (mapping ps) <-> Forall (fun lr => wf_node lr.1 /\ wf_node lr.2) ps.
Proof.
  unfold mapping. cbn [wf_node]. induction ps as [|[l r] ps IH]; [by split|].
  rewrite IH, Forall_cons. done.
Qed.

Lemma wf_entries {E} (pair : E -> yaml_node * yaml_node) (ok : E -> Prop) es :
  (forall e, ok e -> wf_node (pair e).1 /\ wf_node (pair e).2) -> entries_ok ok es ->
  wf_node (mapping (pair <$> omap id es)).
Proof.
  intros Hp Hes. apply wf_mapping_iff. induction Hes as [|[e|] es He _ IH]; [by constructor| |done].
  cbn. apply Forall_cons; auto.
Qed.

Ltac wf_fields :=
  apply wf_mapping_iff; repeat apply Forall_cons_2; try apply Forall_nil_2; cbn [fst snd];
  (split; [by apply wf_scalar|]);
  try (apply wf_scalar, hex_literal_strdup; lia).

Lemma wf_yaml_of_stub s : stub_ok s -> wf_node (yaml_of_stub s).1 /\ wf_node (yaml_of_stub s).2.
Proof. intros [Hn Hi]. split; [by apply wf_scalar|]. apply wf_scalar, hex_literal_strdup. lia. Qed.

Lemma wf_yaml_of_module m : module_ok m -> wf_node (yaml_of_module m).1 /\ wf_node (yaml_of_module m).2.
Proof.
  intros (Hn & Hi & Hfs & Hvs). split; [by apply wf_scalar|]. wf_fields.
  - by destruct (is_kernel m).
  - by apply (wf_entries _ stub_ok); [apply wf_yaml_of_stub|].
  - by apply (wf_entries _ stub_ok); [apply wf_yaml_of_stub|].
Qed.

Lemma wf_yaml_of_lib l : lib_ok l -> wf_node (yaml_of_lib l).1 /\ wf_node (yaml_of_lib l).2.
Proof.
  intros (Hn & Hi & Hms). split; [by apply wf_scalar|]. wf_fields.
  by apply (wf_entries _ module_ok); [apply wf_yaml_of_module|].
Qed.

Lemma wf_yaml_of_imports i : imports_ok i -> wf_node (yaml_of_imports i).
Proof.
  intros Hi. unfold yaml_of_imports. wf_fields.
  by apply (wf_entries _ lib_ok); [apply wf_yaml_of_lib|].
Qed.

(** ** Results *)

(** C26: a database survives the trip through YAML.  If the parser delivers
    the event stream of the document of a database (its libraries, modules,
    functions and variables in order, names without NUL and NIDs below 2^32),
    then [vita_imports_loads] returns that database, equal in every name,
    NID, kernel flag and table, and prints no diagnostic; the fuel is that of
    the event stream. *)
Theorem vita_imports_loads_roundtrip {P} `{!YamlParser P} fuel (text : P) i :
  imports_ok i -> feeds text (stream_events [yaml_of_imports i]) ->
  (length (node_events (yaml_of_imports i)) < fuel)%nat ->
  vita_imports_loads fuel text = Done (Some i, []).
Proof.
  intros Hi Hf Hl. unfold vita_imports_loads.
  rewrite (parse_yaml_stream_spec fuel text (yaml_of_imports i)); [|by apply wf_yaml_of_imports|done..].
  cbn -[read_vita_imports]. by rewrite read_vita_imports_spec.
Qed.

(** [process_32bit_integer] reads a hexadecimal literal of any value
    below 2^64 without an error, and stores its low 32 bits: exact for
    values that fit, and silently truncated otherwise (the result of
    [strtoul] is narrowed before the check, which only looks at [endptr]). *)
Theorem process_32bit_integer_hex p len n nid : 0 <= n < 2 ^ 64 ->
  process_32bit_integer (Scalar p (hex_literal n) len) nid = (0, u32 n).
Proof. apply process_32bit_integer_spec. Qed.

(** the lookups return the first entry of the table with the wanted NID,
    skipping null entries, and null exactly when no entry has it. *)
Theorem generic_find_first {E} `{!CommonFields E} (entries : list (option E)) nid e :
  (generic_find entries nid = Some e <->
    exists i, entries !! i = Some (Some e) /\ NID e = nid /\
      forall j e', (j < i)%nat -> entries !! j = Some (Some e') -> NID e' <> nid) /\
  (generic_find entries nid = None <-> forall e', Some e' ∈ entries -> NID e' <> nid).
Proof.
  induction entries as [|[x|] es [IH1 IH2]]; cbn [generic_find].
  - split; split; try done. by intros (i & Hi & _). by intros _ e' ?%not_elem_of_nil.
  - destruct (Z.eqb_spec (NID x) nid) as [Hx|Hx]; split.
    + split; [intros [= <-]; exists 0%nat; split; [done|split; [done|lia]]|].
      intros ([|i] & Hi & He & Hfirst); [by injection Hi as ->|].
      by destruct (Hfirst 0%nat x ltac:(lia) eq_refl).
    + split; [done|]. intros Hall. by destruct (Hall x ltac:(left)).
    + rewrite IH1. split.
      * intros (i & Hi & He & Hfirst). exists (S i). split; [done|]. split; [done|].
        intros [|j] e' Hj Hl; [by injection Hl as <-|]. apply (Hfirst j); [lia|done].
      * intros ([|i] & Hi & He & Hfirst); [by injection Hi as ->|]. exists i.
        split; [done|]. split; [done|]. intros j e' Hj Hl. apply (Hfirst (S j)); [lia|done].
    + rewrite IH2. split.
      * intros Hall e' [[= ->]|Hin]%elem_of_cons; [done|by apply Hall].
      * intros Hall e' Hin. apply Hall. by right.
  - split.
    + rewrite IH1. split.
      * intros (i & Hi & He & Hfirst). exists (S i). split; [done|]. split; [done|].
        intros [|j] e' Hj Hl; [done|]. apply (Hfirst j); [lia|done].
      * intros ([|i] & Hi & He & Hfirst); [done|]. exists i.
        split; [done|]. split; [done|]. intros j e' Hj Hl. apply (Hfirst (S j)); [lia|done].
    + rewrite IH2. split.
      * intros Hall e' [?|Hin]%elem_of_cons; [done|by apply Hall].
      * intros Hall e' Hin. apply Hall. by right.
Qed.
End ImportParse.
Export ImportParse.

(** ** Witnesses *)

Definition sample_imports : imports :=
  Imports_ [Some (Lib "SceAppMgr" 0xDBB59DC5
    [Some (Module_ "SceAppMgr" 0xA6605D6F false
       [Some (Stub "sceAppMgrAppDataMount" 0x2DCEBE8F)] [Some (Stub "var" 1)]);
     Some (Module_ "SceAppMgrForDriver" 0xDCE180F8 true [] [])])].

Lemma vita_imports_loads_roundtrip_witness :
  vita_imports_loads 60 (stream_events [yaml_of_imports sample_imports]) = Done (Some sample_imports, []).
Proof.
  apply vita_imports_loads_roundtrip; [|vm_compute; repeat split|vm_compute; lia].
  unfold imports_ok, entries_ok, lib_ok, module_ok, stub_ok; cbn. repeat constructor; cbn; lia.
Defined.

Lemma process_32bit_integer_hex_witness :
  process_32bit_integer (Scalar (Pos 3 4) (hex_literal 0x1DBB59DC5) 18) 7 = (0, 0xDBB59DC5).
Proof. apply (process_32bit_integer_hex (Pos 3 4) 18 0x1DBB59DC5 7). lia. Defined.
