(* ===== verification/Sha256.v ===== *)
(** * SHA-256 (elf_injector, sha256.c)

    The streaming implementation, with its 64-byte buffer, its two-word bit
    counter and its macros, and the equivalence with the padded-message
    definition of the hash: chunking does not matter, the counter does not
    overflow below 2^64 bits, and the last one or two blocks are the padding.
    [FAGDec] carries the same implementation. *)

From stdpp Require Import prelude.
From S2P Require Import Prelude Bytes.

Open Scope c_scope.
Open Scope Z_scope.

(** ** Macros (sha256.h) *)

(** [DBL_INT_ADD(a,b,c)]: the 64-bit counter [b:a] plus [c] *)
Definition DBL_INT_ADD (a b c : Z) : Z * Z :=
  let b := if u32 (0xffffffff - c) <? a then u32 (b + 1) else b in
  (u32 (a + c), b).

Definition ROTRIGHT (a b : Z) : Z := (a >>. b) ||. u32 (a <<. (32 - b)).
Definition CH (x y z : Z) : Z := (x &&. y) ^^. (u32 (Z.lnot x) &&. z).
Definition MAJ (x y z : Z) : Z := (x &&. y) ^^. (x &&. z) ^^. (y &&. z).
Definition EP0 (x : Z) : Z := ROTRIGHT x 2 ^^. ROTRIGHT x 13 ^^. ROTRIGHT x 22.
Definition EP1 (x : Z) : Z := ROTRIGHT x 6 ^^. ROTRIGHT x 11 ^^. ROTRIGHT x 25.
Definition SIG0 (x : Z) : Z := ROTRIGHT x 7 ^^. ROTRIGHT x 18 ^^. (x >>. 3).
Definition SIG1 (x : Z) : Z := ROTRIGHT x 17 ^^. ROTRIGHT x 19 ^^. (x >>. 10).

Record SHA256_CTX := Ctx {
  data : mem;         (** [uint8_t data[64]] *)
  datalen : Z;
  bitlen0 : Z;
  bitlen1 : Z;
  state : list Z;     (** [uint32_t state[8]] *)
}.

(** The round constants, in decimal *)
Definition k : list Z := [
   1116352408; 1899447441; 3049323471; 3921009573; 961987163; 1508970993;
   2453635748; 2870763221; 3624381080; 310598401; 607225278; 1426881987;
   1925078388; 2162078206; 2614888103; 3248222580; 3835390401; 4022224774;
   264347078; 604807628; 770255983; 1249150122; 1555081692; 1996064986;
   2554220882; 2821834349; 2952996808; 3210313671; 3336571891; 3584528711;
   113926993; 338241895; 666307205; 773529912; 1294757372; 1396182291;
   1695183700; 1986661051; 2177026350; 2456956037; 2730485921; 2820302411;
   3259730800; 3345764771; 3516065817; 3600352804; 4094571909; 275423344;
   430227734; 506948616; 659060556; 883997877; 958139571; 1322822218;
   1537002063; 1747873779; 1955562222; 2024104815; 2227730452; 2361852424;
   2428436474; 2756734187; 3204031479; 3329325298].

(** ** [sha256_transform]

    The arrays have fixed sizes and every index is in range, so reading is
    the total lookup [!!!]. *)

(** The first loop: 16 big-endian words of the block *)
Definition block_words (data : mem) : list Z :=
  (fun i => let j := (4 * i)%nat in
     u32 ((data !!! j <<. 24) ||. (data !!! (j + 1)%nat <<. 16) ||.
          (data !!! (j + 2)%nat <<. 8) ||. data !!! (j + 3)%nat)) <$> seq 0 16.

(** The second loop extends [m] from 16 to 64 words. *)
Fixpoint extend_words (n i : nat) (m : list Z) : list Z :=
  match n with
  | O => m
  | S n' =>
      extend_words n' (i + 1)
        (m ++ [u32 (SIG1 (m !!! (i - 2)%nat) + m !!! (i - 7)%nat +
                    SIG0 (m !!! (i - 15)%nat) + m !!! (i - 16)%nat)])
  end.

Record regs := Regs { ra : Z; rb : Z; rc : Z; rd : Z; re : Z; rf : Z; rg : Z; rh : Z }.

(** One round: the body of the third loop *)
Definition sha_round (m : list Z) (r : regs) (i : nat) : regs :=
  let '(Regs a b c d e f g h) := r in
  let t1 := u32 (h + EP1 e + CH e f g + k !!! i + m !!! i) in
  let t2 := u32 (EP0 a + MAJ a b c) in
  Regs (u32 (t1 + t2)) a b c (u32 (d + t1)) e f g.

Definition transform_state (st : list Z) (data : mem) : list Z :=
  let m := extend_words 48 16 (block_words data) in
  let r := foldl (sha_round m)
    (Regs (st !!! 0%nat) (st !!! 1%nat) (st !!! 2%nat) (st !!! 3%nat)
          (st !!! 4%nat) (st !!! 5%nat) (st !!! 6%nat) (st !!! 7%nat)) (seq 0 64) in
  [u32 (st !!! 0%nat + ra r); u32 (st !!! 1%nat + rb r); u32 (st !!! 2%nat + rc r);
   u32 (st !!! 3%nat + rd r); u32 (st !!! 4%nat + re r); u32 (st !!! 5%nat + rf r);
   u32 (st !!! 6%nat + rg r); u32 (st !!! 7%nat + rh r)].

Definition sha256_transform (ctx : SHA256_CTX) (block : mem) : SHA256_CTX :=
  Ctx (data ctx) (datalen ctx) (bitlen0 ctx) (bitlen1 ctx) (transform_state (state ctx) block).

Definition sha256_init (ctx : SHA256_CTX) : SHA256_CTX :=
  Ctx (data ctx) 0 0 0
    [0x6a09e667; 0xbb67ae85; 0x3c6ef372; 0xa54ff53a;
     0x510e527f; 0x9b05688c; 0x1f83d9ab; 0x5be0cd19].

(** The body of the loop of [sha256_update] *)
Definition update_byte (ctx : SHA256_CTX) (b : Z) : SHA256_CTX :=
  let ctx := Ctx (<[Z.to_nat (datalen ctx) := b]> (data ctx)) (u32 (datalen ctx + 1))
               (bitlen0 ctx) (bitlen1 ctx) (state ctx) in
  if datalen ctx =? 64 then
    let ctx := sha256_transform ctx (data ctx) in
    let '(b0, b1) := DBL_INT_ADD (bitlen0 ctx) (bitlen1 ctx) 512 in
    Ctx (data ctx) 0 b0 b1 (state ctx)
  else ctx.

Fixpoint update_loop (n : nat) (i : Z) (input : mem) (ctx : SHA256_CTX) : run SHA256_CTX :=
  match n with
  | O => Done ctx
  | S n' => b ← load8 input i; update_loop n' (i + 1) input (update_byte ctx b)
  end.

(** [len] bytes of [input]; reading past it is a fault. *)
Definition sha256_update (ctx : SHA256_CTX) (input : mem) (len : Z) : run SHA256_CTX :=
  update_loop (Z.to_nat len) 0 input ctx.

(** [for/while (i < bound) data[i++] = 0] *)
Definition zero_from (i bound : nat) (d : mem) : mem :=
  take i d ++ replicate (bound - i) 0 ++ drop (i + (bound - i)) d.

(** Bytes 56..63 become the bit count, big endian. *)
Definition put_length (b0 b1 : Z) (d : mem) : mem :=
  <[56%nat := u8 (b1 >>. 24)]> (<[57%nat := u8 (b1 >>. 16)]> (<[58%nat := u8 (b1 >>. 8)]>
  (<[59%nat := u8 b1]> (<[60%nat := u8 (b0 >>. 24)]> (<[61%nat := u8 (b0 >>. 16)]>
  (<[62%nat := u8 (b0 >>. 8)]> (<[63%nat := u8 b0]> d))))))).

Definition state_bytes (st : list Z) : list Z :=
  w ← st; (fun i => (w >>. (24 - i * 8)) &&. 0xff) <$> [0; 1; 2; 3].

(** The context after the call, and the 32 bytes of [hash]. *)
Definition sha256_final (ctx : SHA256_CTX) : SHA256_CTX * list Z :=
  let i := Z.to_nat (datalen ctx) in
  let ctx :=
    if datalen ctx <? 56 then
      Ctx (zero_from (i + 1) 56 (<[i := 0x80]> (data ctx))) (datalen ctx)
        (bitlen0 ctx) (bitlen1 ctx) (state ctx)
    else
      let d := zero_from (i + 1) 64 (<[i := 0x80]> (data ctx)) in
      let ctx := sha256_transform
        (Ctx d (datalen ctx) (bitlen0 ctx) (bitlen1 ctx) (state ctx)) d in
      Ctx (zero_from 0 56 (data ctx)) (datalen ctx) (bitlen0 ctx) (bitlen1 ctx) (state ctx) in
  let '(b0, b1) := DBL_INT_ADD (bitlen0 ctx) (bitlen1 ctx) (u32 (datalen ctx * 8)) in
  let ctx := Ctx (put_length b0 b1 (data ctx)) (datalen ctx) b0 b1 (state ctx) in
  let ctx := sha256_transform ctx (data ctx) in
  (ctx, state_bytes (state ctx)).

(** [sha256_vector]: [addr] with [len]; the context starts uninitialised, and
    [sha256_update] takes the length as a [uint32_t]. *)
Fixpoint update_all (ctx : SHA256_CTX) (elems : list (mem * Z)) : run SHA256_CTX :=
  match elems with
  | [] => Done ctx
  | (addr, len) :: elems' => ctx ← sha256_update ctx addr (u32 len); update_all ctx elems'
  end.

Definition sha256_vector (uninit : SHA256_CTX) (elems : list (mem * Z)) : run (list Z) :=
  ctx ← update_all (sha256_init uninit) elems;
  Done (sha256_final ctx).2.

(** ** Specification: the hash of a padded message *)

Definition H0 : list Z :=
  [0x6a09e667; 0xbb67ae85; 0x3c6ef372; 0xa54ff53a; 0x510e527f; 0x9b05688c; 0x1f83d9ab; 0x5be0cd19].

Definition be64 (x : Z) : list Z := (fun i => x / 2 ^ (8 * i) mod 256) <$> [7; 6; 5; 4; 3; 2; 1; 0].

(** One bit, zeros up to 56 modulo 64 bytes, the length in bits. *)
Definition pad (msg : list Z) : list Z :=
  msg ++ [0x80] ++ replicate (Z.to_nat ((55 - mlen msg) mod 64)) 0 ++ be64 (8 * mlen msg).

Fixpoint blocks_of (n : nat) (msg : list Z) : list (list Z) :=
  match n with
  | O => []
  | S n' => take 64 msg :: blocks_of n' (drop 64 msg)
  end.

Definition sha256 (msg : list Z) : list Z :=
  let p := pad msg in
  state_bytes (foldl transform_state H0 (blocks_of (length p / 64) p)).

(** ** The bit counter and the padding *)

Lemma DBL_INT_ADD_spec a b c a' b' :
  0 <= a < 2 ^ 32 -> 0 <= b < 2 ^ 32 -> 0 <= c < 2 ^ 32 -> DBL_INT_ADD a b c = (a', b') ->
  0 <= a' < 2 ^ 32 /\ 0 <= b' < 2 ^ 32 /\ a' + 2 ^ 32 * b' = (a + 2 ^ 32 * b + c) mod 2 ^ 64.
Proof.
  intros Ha Hb Hc. unfold DBL_INT_ADD. rewrite (u32_small (0xffffffff - c)) by lia.
  intros [= <- <-]. split; [apply u32_range|].
  destruct (Z.ltb_spec (0xffffffff - c) a) as [Hlt|Hge].
  - split; [apply u32_range|].
    assert (u32 (a + c) = a + c - 2 ^ 32) as ->.
    { unfold u32. rewrite <- (Z_mod_plus_full (a + c) (-1)), Z.mod_small; lia. }
    destruct (decide (b + 1 = 2 ^ 32)) as [Hb1|Hb1].
    + rewrite Hb1. change (u32 (2 ^ 32)) with 0.
      rewrite <- (Z_mod_plus_full _ (-1)), Z.mod_small; lia.
    + rewrite (u32_small (b + 1)), Z.mod_small; lia.
  - split; [done|]. rewrite u32_small, Z.mod_small; lia.
Qed.

Lemma be64_mod x : be64 (x mod 2 ^ 64) = be64 x.
Proof.
  unfold be64.
  assert (forall i, 0 <= i <= 7 -> x mod 2 ^ 64 / 2 ^ (8 * i) mod 256 = x / 2 ^ (8 * i) mod 256) as H.
  { intros i Hi. change 256 with (2 ^ 8). apply Z.bits_inj'. intros n Hn.
    destruct (decide (n < 8)) as [?|?]; [|by rewrite !Z.mod_pow2_bits_high by lia].
    rewrite !Z.mod_pow2_bits_low, !Z.div_pow2_bits by lia. by rewrite Z.mod_pow2_bits_low by lia. }
  cbn [fmap list_fmap]. by rewrite !H by lia.
Qed.

Lemma length_be64 x : length (be64 x) = 8%nat.
Proof. done. Qed.

(** The eight stores write the two counter words as one big-endian number. *)
Lemma put_length_spec b0 b1 P Q : length P = 56%nat -> length Q = 8%nat ->
  0 <= b0 < 2 ^ 32 -> 0 <= b1 < 2 ^ 32 ->
  put_length b0 b1 (P ++ Q) = P ++ be64 (b0 + 2 ^ 32 * b1).
Proof.
  intros HP HQ Hb0 Hb1.
  destruct Q as [|q0 [|q1 [|q2 [|q3 [|q4 [|q5 [|q6 [|q7 [|]]]]]]]]]; try done.
  unfold put_length.
  rewrite !insert_app_r_alt by lia. rewrite HP.
  cbn [Nat.sub insert list_insert]. f_equal. unfold be64. cbn [fmap list_fmap].
  rewrite !Z.shiftr_div_pow2 by lia. unfold u8.
  assert (forall i, 4 <= i -> (b0 + 2 ^ 32 * b1) / 2 ^ (8 * i) = b1 / 2 ^ (8 * i - 32)) as Hhi.
  { intros i Hi. replace (8 * i) with (32 + (8 * i - 32)) at 1 by lia.
    rewrite Z.pow_add_r, <- Z.div_div by lia. f_equal.
    rewrite Z.add_comm, Z.mul_comm, Z.div_add_l, Z.div_small by lia. lia. }
  assert (forall i, 0 <= i < 4 ->
    (b0 + 2 ^ 32 * b1) / 2 ^ (8 * i) mod 256 = b0 / 2 ^ (8 * i) mod 256) as Hlo.
  { intros i Hi. replace (2 ^ 32 * b1) with (b1 * 2 ^ (32 - 8 * i) * 2 ^ (8 * i)).
    - rewrite Z.div_add by lia. replace (32 - 8 * i) with (8 + (24 - 8 * i)) by lia.
      rewrite Z.pow_add_r by lia. change (2 ^ 8) with 256.
      replace (b1 * (256 * 2 ^ (24 - 8 * i))) with (b1 * 2 ^ (24 - 8 * i) * 256) by lia.
      apply Z_mod_plus_full.
    - rewrite <- Z.mul_assoc, <- Z.pow_add_r by lia. replace (32 - 8 * i + 8 * i) with 32 by lia. lia. }
  rewrite !Hhi, !Hlo by lia. cbn. by rewrite !Z.div_1_r.
Qed.

Lemma zero_from_spec v bound (rest junk : list Z) :
  (length rest < bound <= length rest + length junk)%nat ->
  zero_from (length rest + 1) bound (<[length rest := v]> (rest ++ junk)) =
    rest ++ [v] ++ replicate (bound - (length rest + 1)) 0 ++ drop (bound - length rest) junk.
Proof.
  intros Hb. destruct junk as [|j junk]; [cbn in Hb; lia|].
  rewrite insert_app_r_alt, Nat.sub_diag by lia. cbn [insert list_insert]. unfold zero_from.
  replace (length rest + 1 + (bound - (length rest + 1)))%nat with bound by lia.
  rewrite take_app_ge by lia. replace (length rest + 1 - length rest)%nat with 1%nat by lia.
  rewrite drop_app_ge by lia. destruct (bound - length rest)%nat as [|n] eqn:En; [lia|].
  cbn. by rewrite take_0, <- app_assoc.
Qed.

(** ** Streaming *)

Lemma blocks_of_concat (bs : list (list Z)) : Forall (fun b => length b = 64%nat) bs ->
  blocks_of (length (concat bs) / 64) (concat bs) = bs.
Proof.
  intros H. assert (forall n, n = length bs -> blocks_of n (concat bs) = bs) as Hn.
  { induction H as [|b bs Hb _ IH]; intros n ->; [done|]. cbn.
    rewrite take_app_length', drop_app_length' by done. by rewrite IH. }
  apply Hn. clear Hn. induction H as [|b bs Hb _ IH]; [done|]. cbn [concat].
  rewrite length_app, Hb. cbn [length]. rewrite <- IH.
  change 64%nat with (1 * 64)%nat at 1. rewrite Nat.div_add_l by lia. done.
Qed.

Lemma length_concat_blocks (bs : list (list Z)) : Forall (fun b => length b = 64%nat) bs ->
  length (concat bs) = (64 * length bs)%nat.
Proof. induction 1 as [|b bs Hb _ IH]; [done|]. cbn [concat]. rewrite length_app, IH, Hb. cbn. lia. Qed.

(** The context after [msg]: its full blocks are in the state, the rest is in
    the buffer, and the counter holds the bits of the full blocks. *)
Record absorbed (ctx : SHA256_CTX) (msg : list Z) (blocks : list (list Z)) (rest : list Z) : Prop := {
  ab_msg : msg = concat blocks ++ rest;
  ab_blocks : Forall (fun b => length b = 64%nat) blocks;
  ab_data : exists junk, data ctx = rest ++ junk;
  ab_size : length (data ctx) = 64%nat;
  ab_datalen : datalen ctx = mlen rest;
  ab_rest : (length rest < 64)%nat;
  ab_state : state ctx = foldl transform_state H0 blocks;
  ab_b0 : 0 <= bitlen0 ctx < 2 ^ 32;
  ab_b1 : 0 <= bitlen1 ctx < 2 ^ 32;
  ab_count : bitlen0 ctx + 2 ^ 32 * bitlen1 ctx = (512 * Z.of_nat (length blocks)) mod 2 ^ 64;
}.

Lemma init_absorbed ctx : length (data ctx) = 64%nat -> absorbed (sha256_init ctx) [] [] [].
Proof. intros H. split; cbn; try done; try lia. by exists (data ctx). Qed.

Lemma update_byte_absorbed ctx msg blocks rest b : absorbed ctx msg blocks rest ->
  exists blocks' rest', absorbed (update_byte ctx b) (msg ++ [b]) blocks' rest'.
Proof.
  intros [Hm Hbl [junk Hd] Hs Hdl Hr Hst Hb0 Hb1 Hc].
  assert (0 < length junk)%nat as Hj by (rewrite Hd, length_app in Hs; lia).
  destruct junk as [|j junk]; [cbn in Hj; lia|].
  assert (<[Z.to_nat (datalen ctx) := b]> (data ctx) = (rest ++ [b]) ++ junk) as Hd'.
  { rewrite Hdl, Hd. unfold mlen. rewrite Nat2Z.id, insert_app_r_alt, Nat.sub_diag by lia.
    cbn. by rewrite <- app_assoc. }
  assert (u32 (datalen ctx + 1) = mlen (rest ++ [b])) as Hl'.
  { rewrite Hdl. unfold mlen. rewrite length_app, u32_small; cbn; lia. }
  unfold update_byte. cbn [data datalen bitlen0 bitlen1 state]. rewrite Hd', Hl'.
  assert (length ((rest ++ [b]) ++ junk) = 64%nat) as Hs' by (rewrite <- Hd', length_insert; done).
  unfold mlen. destruct (Z.eqb_spec (Z.of_nat (length (rest ++ [b]))) 64) as [E|E].
  - assert (junk = []) as -> by (destruct junk; [done|]; rewrite length_app in Hs'; cbn in Hs'; lia).
    rewrite app_nil_r in *.
    cbn [sha256_transform data datalen bitlen0 bitlen1 state].
    destruct (DBL_INT_ADD (bitlen0 ctx) (bitlen1 ctx) 512) as [b0 b1] eqn:Ea.
    apply DBL_INT_ADD_spec in Ea as (Ha0 & Ha1 & Ha); [|done|done|lia].
    exists (blocks ++ [rest ++ [b]]), []. split; cbn [data datalen bitlen0 bitlen1 state]; try done.
    + rewrite concat_app, app_nil_r, Hm, <- app_assoc. cbn. by rewrite app_nil_r.
    + apply Forall_app; split; [done|]. apply Forall_cons; split; [|done].
      apply Nat2Z.inj. by rewrite E.
    + by exists (rest ++ [b]).
    + cbn; lia.
    + by rewrite foldl_app, <- Hst.
    + rewrite Ha, Hc, length_app, Zplus_mod_idemp_l. f_equal. cbn; lia.
  - exists blocks, (rest ++ [b]). split; cbn [data datalen bitlen0 bitlen1 state]; try done.
    + by rewrite Hm, <- app_assoc.
    + by exists junk.
    + rewrite length_app in *; cbn in *; lia.
Qed.

Lemma update_loop_absorbed pre input ctx msg blocks rest : absorbed ctx msg blocks rest ->
  exists ctx' blocks' rest', update_loop (length input) (mlen pre) (pre ++ input) ctx = Done ctx' /\
    absorbed ctx' (msg ++ input) blocks' rest'.
Proof.
  revert pre ctx msg blocks rest. induction input as [|b input IH]; intros pre ctx msg blocks rest Hab.
  - exists ctx, blocks, rest. split; [done|by rewrite app_nil_r].
  - cbn [length update_loop].
    assert (load8 (pre ++ b :: input) (mlen pre) = Done b) as ->.
    { apply load8_inv. unfold mlen. rewrite Nat2Z.id. split; [lia|].
      by rewrite lookup_app_r, Nat.sub_diag by lia. }
    destruct (update_byte_absorbed _ _ _ _ b Hab) as (bl & r & Hab').
    destruct (IH (pre ++ [b]) _ _ _ _ Hab') as (ctx' & bl' & r' & E & Hab'').
    exists ctx', bl', r'. rewrite <- app_assoc in E, Hab''. split; [|done].
    rewrite <- E. cbn. f_equal. unfold mlen. rewrite length_app. cbn. lia.
Qed.

(** Buffers given with their own lengths *)
Definition with_len (m : mem) : mem * Z := (m, mlen m).

Lemma update_all_absorbed ms ctx msg blocks rest :
  Forall (fun m => mlen m < 2 ^ 32) ms -> absorbed ctx msg blocks rest ->
  exists ctx' blocks' rest', update_all ctx (with_len <$> ms) = Done ctx' /\
    absorbed ctx' (msg ++ concat ms) blocks' rest'.
Proof.
  intros Hms. revert ctx msg blocks rest.
  induction Hms as [|m ms Hm Hms IH]; intros ctx msg blocks rest Hab.
  - exists ctx, blocks, rest. split; [done|by rewrite app_nil_r].
  - destruct (update_loop_absorbed [] m ctx msg blocks rest Hab) as (c1 & bl & r & E & Hab1).
    destruct (IH _ _ _ _ Hab1) as (c2 & bl' & r' & E2 & Hab2).
    exists c2, bl', r'. rewrite <- app_assoc in Hab2. split; [|done].
    cbn [fmap list_fmap update_all with_len]. unfold sha256_update.
    rewrite u32_small by (unfold mlen in *; lia). unfold mlen at 1. rewrite Nat2Z.id.
    change (mlen []) with 0 in E. cbn [app] in E. by rewrite E.
Qed.

(** ** The last blocks *)

Lemma sha256_of_blocks msg blocks :
  pad msg = concat blocks -> Forall (fun b => length b = 64%nat) blocks ->
  sha256 msg = state_bytes (foldl transform_state H0 blocks).
Proof. intros Hp Hb. unfold sha256. by rewrite Hp, blocks_of_concat. Qed.

(** The counter of a message whose last block is not full. *)
Lemma final_count ctx msg blocks rest b0 b1 : absorbed ctx msg blocks rest ->
  DBL_INT_ADD (bitlen0 ctx) (bitlen1 ctx) (u32 (datalen ctx * 8)) = (b0, b1) ->
  0 <= b0 < 2 ^ 32 /\ 0 <= b1 < 2 ^ 32 /\ be64 (b0 + 2 ^ 32 * b1) = be64 (8 * mlen msg).
Proof.
  intros Hab E. destruct Hab as [Hm Hbl _ _ Hdl Hr _ Hb0 Hb1 Hc].
  apply DBL_INT_ADD_spec in E as (H0 & H1 & Hs); [|done|done|apply u32_range].
  split; [done|]. split; [done|].
  rewrite Hs, Hc, Zplus_mod_idemp_l, be64_mod. f_equal.
  rewrite Hdl, Hm. unfold mlen. rewrite length_app, length_concat_blocks by done.
  rewrite u32_small by lia. lia.
Qed.

Lemma mod64_eq x k : 0 <= x + 64 * k < 64 -> x mod 64 = x + 64 * k.
Proof. intros H. rewrite <- (Z_mod_plus_full x k), Z.mod_small; lia. Qed.

(** The length of the zero padding *)
Lemma pad_zeros msg (blocks : list (list Z)) (rest : list Z) :
  msg = concat blocks ++ rest -> Forall (fun b => length b = 64%nat) blocks ->
  (length rest < 64)%nat ->
  Z.to_nat ((55 - mlen msg) mod 64) =
    (if (length rest <? 56)%nat then 55 - length rest else 119 - length rest)%nat.
Proof.
  intros -> Hb Hr. unfold mlen. rewrite length_app, length_concat_blocks by done.
  destruct (Nat.ltb_spec (length rest) 56).
  - rewrite (mod64_eq _ (Z.of_nat (length blocks))) by lia. lia.
  - rewrite (mod64_eq _ (Z.of_nat (length blocks) + 1)) by lia. lia.
Qed.

Lemma sha256_final_spec ctx msg blocks rest : absorbed ctx msg blocks rest ->
  (sha256_final ctx).2 = sha256 msg.
Proof.
  intros Hab. pose proof Hab as [Hm Hbl [junk Hd] Hs Hdl Hr Hst _ _ _].
  pose proof (pad_zeros msg blocks rest Hm Hbl Hr) as Hz.
  assert (length junk = 64 - length rest)%nat as Hj by (rewrite Hd, length_app in Hs; lia).
  unfold sha256_final. rewrite Hd. replace (Z.to_nat (datalen ctx)) with (length rest)
    by (rewrite Hdl; unfold mlen; lia).
  destruct (DBL_INT_ADD (bitlen0 ctx) (bitlen1 ctx) (u32 (datalen ctx * 8))) as [b0 b1] eqn:Ea.
  destruct (final_count _ _ _ _ _ _ Hab Ea) as (Hb0 & Hb1 & Hbe).
  destruct (Nat.ltb_spec (length rest) 56) as [H56|H56].
  - replace (datalen ctx <? 56) with true by (rewrite Hdl; unfold mlen; lia).
    cbn [data datalen bitlen0 bitlen1 state sha256_transform snd]. rewrite Ea.
    cbn [data datalen bitlen0 bitlen1 state sha256_transform snd].
    rewrite zero_from_spec by lia. rewrite !app_assoc, put_length_spec by (try done;
      rewrite ?length_drop, ?length_app, ?length_replicate; cbn [length]; lia).
    rewrite (sha256_of_blocks msg (blocks ++ [((rest ++ [0x80]) ++
      replicate (56 - (length rest + 1)) 0) ++ be64 (b0 + 2 ^ 32 * b1)])).
    + by rewrite foldl_app, Hst.
    + unfold pad. rewrite Hz, Hm, concat_app, Hbe, Hm. cbn [concat]. rewrite app_nil_r, <- !app_assoc.
      by replace (55 - length rest)%nat with (56 - (length rest + 1))%nat by lia.
    + apply Forall_app; split; [done|]. apply Forall_cons; split; [|done].
      rewrite !length_app, length_replicate, length_be64. cbn [length]. lia.
  - replace (datalen ctx <? 56) with false by (rewrite Hdl; unfold mlen; lia).
    cbn [data datalen bitlen0 bitlen1 state sha256_transform snd]. rewrite Ea.
    cbn [data datalen bitlen0 bitlen1 state sha256_transform snd].
    rewrite zero_from_spec by lia. rewrite (drop_ge junk) by lia. rewrite app_nil_r.
    set (B1 := rest ++ [0x80] ++ replicate (64 - (length rest + 1)) 0).
    assert (length B1 = 64%nat) as HB1
      by (unfold B1; rewrite !length_app, length_replicate; cbn [length]; lia).
    unfold zero_from. cbn [Nat.sub Nat.add]. rewrite take_0. cbn [app].
    rewrite put_length_spec by (try done; rewrite ?length_drop, ?HB1, ?length_replicate; lia).
    rewrite (sha256_of_blocks msg (blocks ++ [B1; replicate 56 0 ++ be64 (b0 + 2 ^ 32 * b1)])).
    + by rewrite foldl_app, Hst.
    + unfold pad. rewrite Hz, Hm, concat_app, Hbe, Hm. cbn [concat]. rewrite app_nil_r. unfold B1.
      rewrite <- !app_assoc. do 3 f_equal. rewrite app_assoc, <- replicate_add. do 2 f_equal. lia.
    + apply Forall_app; split; [done|]. repeat (apply Forall_cons; split); try done.
Qed.

Lemma length_transform_state st b : length (transform_state st b) = 8%nat.
Proof. done. Qed.

Lemma length_sha256 msg : length (sha256 msg) = 32%nat.
Proof.
  unfold sha256. set (bs := blocks_of _ _). clearbody bs.
  assert (length (foldl transform_state H0 bs) = 8%nat) as H.
  { destruct bs as [|b bs] using rev_ind; [done|]. by rewrite foldl_app. }
  destruct (foldl transform_state H0 bs) as [|? [|? [|? [|? [|? [|? [|? [|? [|]]]]]]]]]; done.
Qed.

(** C25: the streaming SHA-256 is the hash of the padded message.  Over any
    list of buffers (each shorter than 2^32 bytes, the width of the length
    argument of [sha256_update]) and from any uninitialised context,
    [sha256_vector] reads no byte outside the buffers and returns the hash of
    their concatenation: the split into buffers, the 64-byte buffer, the
    two-word bit counter and the one- or two-block ending are all accounted
    for. *)
Theorem sha256_vector_correct uninit ms :
  length (data uninit) = 64%nat -> Forall (fun m => mlen m < 2 ^ 32) ms ->
  sha256_vector uninit (with_len <$> ms) = Done (sha256 (concat ms)).
Proof.
  intros Hu Hms. unfold sha256_vector.
  destruct (update_all_absorbed ms _ _ _ _ Hms (init_absorbed uninit Hu)) as (c & bl & r & -> & Hab).
  unfold mbind, run_bind. by rewrite (sha256_final_spec _ _ _ _ Hab).
Qed.

(** "ab", then "c": the hash of "abc" *)
Lemma sha256_vector_correct_witness :
  sha256_vector (Ctx (replicate 64 0xAA) 7 7 7 []) (with_len <$> [[97; 98]; [99]]) =
  Done [0xba; 0x78; 0x16; 0xbf; 0x8f; 0x01; 0xcf; 0xea; 0x41; 0x41; 0x40; 0xde; 0x5d; 0xae;
        0x22; 0x23; 0xb0; 0x03; 0x61; 0xa3; 0x96; 0x17; 0x7a; 0x9c; 0xb4; 0x10; 0xff; 0x61;
        0xf2; 0x00; 0x15; 0xad].
Proof.
  rewrite (sha256_vector_correct _ [[97; 98]; [99]]) by (try done; repeat constructor).
  vm_compute. reflexivity.
Defined.
