(* ===== verification/ElfTools.v ===== *)
(** * SELF files to ELF and back (vita-unmake-fself, elf_injector)

    Both tools are single [main] functions over whole files in memory.  A file
    on disk is the list of its bytes; writing past the end fills the gap with
    zeros.  zlib is a parameter: [uncompress] and [compress] give the return
    code and the destination buffer after the call.  Diagnostics are left out;
    allocation does not fail.  Reading or writing outside a buffer is a
    fault. *)

From stdpp Require Import prelude strings.
From S2P Require Import Prelude Bytes Sha256.

Open Scope Z_scope.

(** ** Output files *)

Module Files.
(** [fwrite] of [bs] at position [pos] *)
Definition fwrite_at (f : mem) (pos : Z) (bs : mem) : mem :=
  match bs with
  | [] => f
  | _ =>
      let f := f ++ replicate (Z.to_nat pos - length f) 0 in
      take (Z.to_nat pos) f ++ bs ++ drop (Z.to_nat pos + length bs) f
  end.

(** A sequence of [fseek] and [fwrite] calls *)
Definition fwrite_all (f : mem) (ws : list (Z * mem)) : mem :=
  foldl (fun f w => fwrite_at f w.1 w.2) f ws.

Definition disjoint_writes (v w : Z * mem) : Prop :=
  (Z.to_nat v.1 + length v.2 <= Z.to_nat w.1 \/ Z.to_nat w.1 + length w.2 <= Z.to_nat v.1)%nat.

(** The bytes of the write stand in the file at its position. *)
Definition holds_at (f : mem) (w : Z * mem) : Prop :=
  forall i b, w.2 !! i = Some b -> f !! (Z.to_nat w.1 + i)%nat = Some b.

Fixpoint pairwise_disjoint (ws : list (Z * mem)) : Prop :=
  match ws with
  | [] => True
  | w :: ws' => Forall (disjoint_writes w) ws' /\ pairwise_disjoint ws'
  end.

Lemma fwrite_at_same f pos bs : holds_at (fwrite_at f pos bs) (pos, bs).
Proof.
  intros i b Hi. cbn [fst snd] in *. pose proof (lookup_lt_Some _ _ _ Hi).
  unfold fwrite_at. destruct bs as [|b0 bs]; [done|].
  set (f' := f ++ _). assert (Z.to_nat pos <= length f')%nat
    by (unfold f'; rewrite length_app, length_replicate; lia).
  rewrite lookup_app_r by (rewrite length_take; lia).
  rewrite length_take. replace (_ - _)%nat with i by lia.
  by rewrite lookup_app_l by done.
Qed.

Lemma fwrite_at_other f pos bs w :
  disjoint_writes w (pos, bs) -> holds_at f w -> holds_at (fwrite_at f pos bs) w.
Proof.
  intros Hd Hw i b Hi. specialize (Hw i b Hi). unfold disjoint_writes in Hd. cbn [fst snd] in Hd.
  pose proof (lookup_lt_Some _ _ _ Hi). pose proof (lookup_lt_Some _ _ _ Hw).
  unfold fwrite_at. destruct bs as [|b0 bs]; [done|].
  set (f' := f ++ _). assert (Z.to_nat pos <= length f')%nat
    by (unfold f'; rewrite length_app, length_replicate; lia).
  assert (f' !! (Z.to_nat w.1 + i)%nat = Some b) as Hw' by (unfold f'; by apply lookup_app_l_Some).
  destruct Hd as [Hd|Hd].
  - rewrite lookup_app_l by (rewrite length_take; lia). rewrite lookup_take_lt; [done|lia].
  - rewrite lookup_app_r by (rewrite length_take; lia). rewrite length_take.
    rewrite lookup_app_r by lia. rewrite lookup_drop, <- Hw'. f_equal. lia.
Qed.

Lemma fwrite_all_other f ws w :
  Forall (disjoint_writes w) ws -> holds_at f w -> holds_at (fwrite_all f ws) w.
Proof.
  revert f. induction ws as [|[pos bs] ws IH]; intros f Hd Hw; [done|].
  apply Forall_cons in Hd as [Hd Hds]. apply IH; [done|]. by apply fwrite_at_other.
Qed.

(** Of disjoint writes, every one is in the file. *)
Lemma fwrite_all_holds f ws : pairwise_disjoint ws -> Forall (holds_at (fwrite_all f ws)) ws.
Proof.
  revert f. induction ws as [|[pos bs] ws IH]; intros f Hd; [constructor|].
  destruct Hd as [Hd Hds]. change (fwrite_all f _) with (fwrite_all (fwrite_at f pos bs) ws).
  constructor; [|by apply IH]. apply fwrite_all_other; [done|]. apply fwrite_at_same.
Qed.

(** *** Bytes untouched by the stores *)

(** [m'] is [m] but for the bytes from [s] on, [n] of them. *)
Definition differ_in (s n : Z) (m m' : mem) : Prop :=
  mlen m' = mlen m /\ forall o, o < s \/ s + n <= o -> load8 m' o = load8 m o.

Lemma differ_in_trans s n m1 m2 m3 : differ_in s n m1 m2 -> differ_in s n m2 m3 -> differ_in s n m1 m3.
Proof. intros [L1 H1] [L2 H2]. split; [lia|]. intros o Ho. by rewrite H2, H1. Qed.

Lemma differ_in_weaken s n s' n' m m' : s' <= s -> s + n <= s' + n' ->
  differ_in s n m m' -> differ_in s' n' m m'.
Proof. intros Hs Hn [L H]. split; [done|]. intros o Ho. apply H. lia. Qed.

Lemma differ_in_load k s n m m' off : differ_in s n m m' ->
  off + Z.of_nat k <= s \/ s + n <= off -> load_le k m' off = load_le k m off.
Proof. intros [_ H] Ho. apply load_le_ext. intros o Hr. apply H. lia. Qed.

Lemma store_differ k m off v m' : store_le k m off v = Done m' -> differ_in off (Z.of_nat k) m m'.
Proof.
  intros E. split; [by eapply store_le_mlen|]. intros o Ho. by eapply load8_store_le.
Qed.

Lemma blit_lookup m off bs m' : blit m off bs = Done m' ->
  0 <= off /\ length m' = length m /\ holds_at m' (off, bs) /\
  forall j, (j < Z.to_nat off \/ Z.to_nat off + length bs <= j)%nat -> m' !! j = m !! j.
Proof.
  unfold blit. case_match eqn:E; [|done]. intros [= <-]. unfold mlen in E.
  split; [lia|]. split; [rewrite !length_app, length_take, length_drop; lia|]. split.
  - intros i b Hi. cbn [fst snd] in *. pose proof (lookup_lt_Some _ _ _ Hi).
    rewrite lookup_app_r by (rewrite length_take; lia). rewrite length_take.
    replace (_ - _)%nat with i by lia. by rewrite lookup_app_l.
  - intros j [Hj|Hj].
    + rewrite lookup_app_l by (rewrite length_take; lia). by rewrite lookup_take_lt.
    + rewrite lookup_app_r by (rewrite length_take; lia). rewrite length_take.
      rewrite lookup_app_r by lia. rewrite lookup_drop. f_equal. lia.
Qed.

Lemma blit_differ m off bs m' : blit m off bs = Done m' -> differ_in off (mlen bs) m m'.
Proof.
  intros (H0 & Hl & _ & H)%blit_lookup. split; [unfold mlen; lia|].
  intros o Ho. unfold load8. destruct (Z.ltb_spec o 0); [done|]. rewrite H; [done|]. unfold mlen in Ho. lia.
Qed.

Lemma load8_lookup m m' o : 0 <= o -> load8 m' o = load8 m o -> m' !! Z.to_nat o = m !! Z.to_nat o.
Proof.
  intros Ho. unfold load8. destruct (Z.ltb_spec o 0); [lia|].
  destruct (m' !! _), (m !! _); congruence.
Qed.

Lemma holds_at_differ s n m m' w : differ_in s n m m' -> 0 <= w.1 ->
  w.1 + mlen w.2 <= s \/ s + n <= w.1 -> holds_at m w -> holds_at m' w.
Proof.
  intros [_ H] Hp Hd Hh i b Hi. rewrite <- (Hh i b Hi).
  pose proof (lookup_lt_Some _ _ _ Hi). unfold mlen in Hd.
  replace (Z.to_nat w.1 + i)%nat with (Z.to_nat (w.1 + Z.of_nat i)) by lia.
  apply load8_lookup; [lia|]. apply H. lia.
Qed.

Lemma blit_mlen m off bs m' : blit m off bs = Done m' -> mlen m' = mlen m.
Proof. by intros [? _]%blit_differ. Qed.

Lemma load_le_blit_other k m off bs m' o : blit m off bs = Done m' ->
  o + Z.of_nat k <= off \/ off + mlen bs <= o -> load_le k m' o = load_le k m o.
Proof. intros D%blit_differ Ho. by apply (differ_in_load _ _ _ _ _ _ D). Qed.
End Files.
Export Files.

(** ** Structures (self.h, elf.h), by field offset *)

Module Layout.
(** [SCE_header] *)
Definition magic (m : mem) : run Z := load32 m 0.
Definition header_len (m : mem) : run Z := load64 m 16.
Definition elf_offset (m : mem) : run Z := load64 m 64.
Definition phdr_offset (m : mem) : run Z := load64 m 72.
Definition section_info_offset (m : mem) : run Z := load64 m 88.
Definition controlinfo_offset (m : mem) : run Z := load64 m 104.

(** [Elf32_Ehdr] at [e] *)
Definition e_phoff (m : mem) (e : Z) : run Z := load32 m (e + 28).
Definition e_ehsize (m : mem) (e : Z) : run Z := load16 m (e + 40).
Definition e_phentsize (m : mem) (e : Z) : run Z := load16 m (e + 42).
Definition e_phnum (m : mem) (e : Z) : run Z := load16 m (e + 44).
Definition sizeof_ehdr : nat := 52.

(** [Elf32_Phdr] number [i] of the table at [p] *)
Definition p_offset (m : mem) (p i : Z) : run Z := load32 m (p + 32 * i + 4).
Definition p_filesz (m : mem) (p i : Z) : run Z := load32 m (p + 32 * i + 16).

(** [segment_info] number [i] of the table at [s] *)
Definition seg_offset (m : mem) (s i : Z) : run Z := load64 m (s + 32 * i).
Definition seg_length (m : mem) (s i : Z) : run Z := load64 m (s + 32 * i + 8).
Definition seg_compression (m : mem) (s i : Z) : run Z := load64 m (s + 32 * i + 16).

Definition SCE_MAGIC : Z := 0x454353.

(** [memcmp(p, "\177ELF\1\1\1", 8)]: seven characters and the NUL *)
Definition elf_magic : mem := [0x7f; 0x45; 0x4c; 0x46; 1; 1; 1; 0].
Definition is_elf (m : mem) (p : Z) : run bool :=
  bs ← slice m p 8; Done (bool_decide (bs = elf_magic)).

(** [e_shoff = 0; e_shnum = 0; e_shstrndx = 0] of the header at [e] *)
Definition drop_sections (m : mem) (e : Z) : run mem :=
  m ← store32 m (e + 32) 0;
  m ← store16 m (e + 48) 0;
  store16 m (e + 50) 0.
End Layout.
Export Layout.

(** ** vita-unmake-fself, main.c *)

Module Unmake.
Definition Z_OK : Z := 0.

Section Unmake.
(** [uncompress sz src]: the return code and the [sz] bytes of the zeroed
    destination afterwards. *)
Context (uncompress : Z -> mem -> Z * mem).

(** Where a segment is written from: inside the input buffer or from a
    buffer of its own. *)
Inductive source := InInput (off : Z) | InBuffer (buf : mem).

(** One turn of the segment loop, on the input buffer and the file. *)
Definition unmake_segment (sinfo phdr i : Z) (input f : mem) : run (mem * mem) :=
  offset ← seg_offset input sinfo i;
  compression ← seg_compression input sinfo i;
  destination ←
    (if compression =? 2 then
       sz ← p_filesz input phdr i;
       length ← seg_length input sinfo i;
       src ← slice input offset (Z.to_nat length);
       let '(ret, buf) := uncompress sz src in
       Done (if negb (ret =? Z_OK) then InInput offset else InBuffer buf)
     else Done (InInput offset));
  match destination with
  | InInput off =>
      elf ← is_elf input off;
      input ← (if elf : bool then drop_sections input off else Done input);
      pos ← p_offset input phdr i;
      sz ← p_filesz input phdr i;
      bs ← slice input off (Z.to_nat sz);
      Done (input, fwrite_at f pos bs)
  | InBuffer buf =>
      elf ← is_elf buf 0;
      buf ← (if elf : bool then drop_sections buf 0 else Done buf);
      pos ← p_offset input phdr i;
      sz ← p_filesz input phdr i;
      bs ← slice buf 0 (Z.to_nat sz);
      Done (input, fwrite_at f pos bs)
  end.

(** [for (int i = 0; i < ehdr->e_phnum; i++)]: at most 2^16 - 1 turns, the
    bound being read again before each. *)
Fixpoint unmake_segments (fuel : nat) (ehdr sinfo phdr i : Z) (input f : mem) : run (mem * mem) :=
  match fuel with
  | O => OutOfFuel
  | S fuel' =>
      phnum ← e_phnum input ehdr;
      if i <? phnum then
        '(input, f) ← unmake_segment sinfo phdr i input f;
        unmake_segments fuel' ehdr sinfo phdr (i + 1) input f
      else Done (input, f)
  end.

(** The header written: the original one behind the SELF header if it is
    there, without its sections, else the one of the SELF.  Gives the input
    buffer, the file and the offsets of the ELF header and of the program
    headers. *)
Definition unmake_header (elf : Z) (input : mem) : run (mem * mem * Z * Z) :=
  hlen ← header_len input;
  original ← is_elf input hlen;
  if original : bool then
    let ehdr := hlen in
    input ← drop_sections input ehdr;
    hlen ← header_len input;
    ehsize ← e_ehsize input ehdr;
    bs ← slice input hlen (Z.to_nat ehsize);
    phoff ← e_phoff input ehdr;
    Done (input, fwrite_at [] 0 bs, ehdr, hlen + phoff)
  else
    let ehdr := elf in
    elf ← elf_offset input;
    ehsize ← e_ehsize input ehdr;
    bs ← slice input elf (Z.to_nat ehsize);
    phdr ← phdr_offset input;
    Done (input, fwrite_at [] 0 bs, ehdr, phdr).

(** From the magic check on; the file is [None] if it was not opened. *)
Definition unmake (fuel : nat) (can_write : bool) (input : mem) : run (Z * option mem) :=
  mg ← magic input;
  if negb (mg =? SCE_MAGIC) then Done (1, None)
  else
    sinfo ← section_info_offset input;
    elf ← elf_offset input;
    if negb can_write then Done (1, None)
    else
      '(input, f, ehdr, phdr) ← unmake_header elf input;
      '(input, f) ← unmake_segments fuel ehdr sinfo phdr 0 input f;
      phoff ← e_phoff input ehdr;
      phentsize ← e_phentsize input ehdr;
      phnum ← e_phnum input ehdr;
      bs ← slice input phdr (Z.to_nat (phentsize * phnum));
      Done (0, Some (fwrite_at f phoff bs)).

(** [main]: the exit code and the file written, with its name.  [fopen_rb]
    gives the contents of a readable file; reading no byte at all fails. *)
Definition unmake_main (fopen_rb : string -> option mem) (fopen_wb : string -> bool)
    (fuel : nat) (argv : list string) : run (Z * option (string * mem)) :=
  match argv with
  | [_; arg] =>
      if (128 <=? Z.of_nat (String.length arg) + 4) then Fault FTable
      else
        let output_path := (arg +:+ ".elf")%string in
        match fopen_rb arg with
        | None | Some [] => Done (1, None)
        | Some input =>
            '(r, f) ← (unmake fuel (fopen_wb output_path) input : run (Z * option mem));
            Done (r, option_map (fun f => (output_path, f)) f)
        end
  | _ => Done (1, None)
  end.

(** ** Specification and proofs *)

(** What a segment of an input buffer stands for *)
Definition segment_bytes (input : mem) (sinfo phdr i : Z) : run mem :=
  offset ← seg_offset input sinfo i;
  compression ← seg_compression input sinfo i;
  sz ← p_filesz input phdr i;
  if compression =? 2 then
    length ← seg_length input sinfo i;
    src ← slice input offset (Z.to_nat length);
    let '(ret, buf) := uncompress sz src in
    if ret =? Z_OK then Done buf else slice input offset (Z.to_nat sz)
  else slice input offset (Z.to_nat sz).

(** Segment [i] is to be written as [w]; it is not itself an ELF file, whose
    section fields would be cleared. *)
Definition segment_at (input : mem) (sinfo phdr i : Z) (w : Z * mem) : Prop :=
  segment_bytes input sinfo phdr i = Done w.2 /\
  p_offset input phdr i = Done w.1 /\ p_filesz input phdr i = Done (mlen w.2) /\
  is_elf w.2 0 = Done false.

(** The first bytes of a slice are those of the buffer. *)
Lemma is_elf_slice m off n bs r : slice m off n = Done bs -> is_elf bs 0 = Done r ->
  is_elf m off = Done r.
Proof.
  intros (H0 & Hn & ->)%slice_inv H. unfold is_elf in *.
  apply run_bind_Done in H as (hd & Hs & H).
  apply slice_inv in Hs as (_ & Hl & ->). unfold mlen in *.
  rewrite length_take, length_drop in Hl.
  unfold slice. replace (_ && _) with true by (unfold mlen; lia).
  rewrite <- H. cbn [Z.to_nat]. rewrite drop_0, take_take.
  by replace (8 `min` n)%nat with 8%nat by lia.
Qed.

Lemma unmake_segment_spec sinfo phdr i input f w : segment_at input sinfo phdr i w ->
  unmake_segment sinfo phdr i input f = Done (input, fwrite_at f w.1 w.2).
Proof.
  intros (Hb & Ho & Hz & He). unfold segment_bytes in Hb. unfold unmake_segment.
  apply run_bind_Done in Hb as (off & -> & Hb). cbn [mbind run_bind].
  apply run_bind_Done in Hb as (comp & -> & Hb). cbn [mbind run_bind].
  rewrite Hz in Hb |- *. rewrite Ho. cbn [mbind run_bind] in *.
  assert (forall bs, slice input off (Z.to_nat (mlen w.2)) = Done bs -> bs = w.2 ->
    is_elf input off = Done false) as Hraw.
  { intros bs Hs ->. by eapply is_elf_slice. }
  destruct (comp =? 2) eqn:Hc; cbn [mbind run_bind] in *.
  - apply run_bind_Done in Hb as (len & -> & Hb). cbn [mbind run_bind].
    apply run_bind_Done in Hb as (src & -> & Hb).
    cbn [mbind run_bind]. destruct (uncompress (mlen w.2) src) as [ret buf].
    destruct (ret =? Z_OK) eqn:Hr; cbn [negb mbind run_bind].
    + injection Hb as ->. rewrite He. cbn [mbind run_bind]. rewrite ?Ho. cbn [mbind run_bind].
      rewrite ?Hz. cbn [mbind run_bind].
      unfold mlen. rewrite Nat2Z.id, slice_all. done.
    + rewrite (Hraw _ Hb eq_refl). cbn [mbind run_bind]. rewrite ?Ho. cbn [mbind run_bind].
      rewrite ?Hz. cbn [mbind run_bind]. by rewrite Hb.
  - rewrite (Hraw _ Hb eq_refl). cbn [mbind run_bind]. rewrite ?Ho. cbn [mbind run_bind].
      rewrite ?Hz. cbn [mbind run_bind]. by rewrite Hb.
Qed.

Lemma unmake_segments_spec ehdr sinfo phdr input segs : forall fuel i f,
  e_phnum input ehdr = Done (i + Z.of_nat (length segs)) ->
  (forall k w, segs !! k = Some w -> segment_at input sinfo phdr (i + Z.of_nat k) w) ->
  (length segs < fuel)%nat ->
  unmake_segments fuel ehdr sinfo phdr i input f = Done (input, fwrite_all f segs).
Proof.
  induction segs as [|w segs IH]; intros [|fuel] i f Hn Hs Hf; try (cbn in Hf; lia);
    cbn [unmake_segments]; rewrite Hn; cbn [mbind run_bind].
  - replace (i <? _) with false by (cbn; lia). done.
  - replace (i <? _) with true by (cbn; lia).
    pose proof (Hs 0%nat w eq_refl) as Hw. rewrite Z.add_0_r in Hw.
    rewrite (unmake_segment_spec _ _ _ _ _ _ Hw). cbn [mbind run_bind].
    apply IH; [rewrite Hn; f_equal; cbn; lia| |cbn in Hf; lia].
    intros k w' Hk. specialize (Hs (S k) w' Hk).
    by replace (i + 1 + Z.of_nat k) with (i + Z.of_nat (S k)) by lia.
Qed.

Lemma unmake_spec fuel input sinfo elf input' f0 ehdr phdr segs phoff phentsize tbl :
  magic input = Done SCE_MAGIC -> section_info_offset input = Done sinfo ->
  elf_offset input = Done elf -> unmake_header elf input = Done (input', f0, ehdr, phdr) ->
  e_phnum input' ehdr = Done (Z.of_nat (length segs)) ->
  (forall k w, segs !! k = Some w -> segment_at input' sinfo phdr (Z.of_nat k) w) ->
  e_phoff input' ehdr = Done phoff -> e_phentsize input' ehdr = Done phentsize ->
  slice input' phdr (Z.to_nat (phentsize * Z.of_nat (length segs))) = Done tbl ->
  (length segs < fuel)%nat ->
  unmake fuel true input = Done (0, Some (fwrite_all f0 (segs ++ [(phoff, tbl)]))).
Proof.
  intros Hm Hsi Hel Hh Hn Hs Hpo Hpe Ht Hf. unfold unmake.
  rewrite Hm. cbn [mbind run_bind]. rewrite Hsi, Hel. cbn [mbind run_bind]. rewrite Hh.
  cbn [mbind run_bind].
  change (SCE_MAGIC =? SCE_MAGIC) with true. cbn [negb].
  rewrite (unmake_segments_spec _ _ _ _ segs) by done. cbn [mbind run_bind].
  rewrite Hpo, Hpe, Hn. cbn [mbind run_bind]. rewrite Ht. cbn [mbind run_bind].
  unfold fwrite_all. by rewrite foldl_app.
Qed.

(** *** The SELF file, by the bytes at its offsets *)

(** The segment fields of the ELF header at [e] set to zero: [e_shoff], and
    [e_shnum] with [e_shstrndx] *)
Definition without_sections (m : mem) (e : Z) : run mem :=
  m ← blit m (e + 32) [0; 0; 0; 0]; blit m (e + 48) [0; 0; 0; 0].

(** Where the header [hd] that is written comes from, and with it the offsets
    [ehdr] and [phdr] of the header and of the program headers; [input'] is
    the buffer afterwards.  Either there is no ELF header behind the SELF
    header, and it is that of the SELF, or there is one, and it is that one
    without its sections. *)
Inductive header_of (input : mem) : mem -> mem -> Z -> Z -> Prop :=
  | header_self hlen bs elf size phdr hd :
      load64 input 16 = Done hlen -> slice input hlen 8 = Done bs -> bs <> elf_magic ->
      load64 input 64 = Done elf -> load16 input (elf + 40) = Done size ->
      slice input elf (Z.to_nat size) = Done hd -> load64 input 72 = Done phdr ->
      header_of input input hd elf phdr
  | header_original hlen input' size phoff hd :
      load64 input 16 = Done hlen -> slice input hlen 8 = Done elf_magic -> hlen + 52 <= mlen input ->
      without_sections input hlen = Done input' ->
      load16 input (hlen + 40) = Done size -> slice input' hlen (Z.to_nat size) = Done hd ->
      load32 input (hlen + 28) = Done phoff ->
      header_of input input' hd hlen (hlen + phoff).

(** Segment [i] of the tables at [sinfo] and [phdr] is [w.2], to be written at
    [w.1]: what [uncompress] makes of the stored bytes if they are marked as
    compressed and it accepts them, else the bytes themselves.  It has at
    least eight bytes and does not begin like an ELF file, whose section fields
    would be cleared. *)
Record segment_is (input : mem) (sinfo phdr i : Z) (w : Z * mem) : Prop := {
  sg_pos : load32 input (phdr + 32 * i + 4) = Done w.1;
  sg_size : load32 input (phdr + 32 * i + 16) = Done (mlen w.2);
  sg_bytes : exists offset length compression,
    load64 input (sinfo + 32 * i) = Done offset /\ load64 input (sinfo + 32 * i + 8) = Done length /\
    load64 input (sinfo + 32 * i + 16) = Done compression /\
    ((exists src, compression = 2 /\ slice input offset (Z.to_nat length) = Done src /\
        uncompress (mlen w.2) src = (0, w.2)) \/
     (exists src, compression = 2 /\ slice input offset (Z.to_nat length) = Done src /\
        (uncompress (mlen w.2) src).1 <> 0 /\ slice input offset (List.length w.2) = Done w.2) \/
     (compression <> 2 /\ slice input offset (List.length w.2) = Done w.2));
  sg_plain : (8 <= List.length w.2)%nat /\ take 8 w.2 <> elf_magic;
}.

Lemma segment_is_at input sinfo phdr i w : segment_is input sinfo phdr i w -> segment_at input sinfo phdr i w.
Proof.
  intros [Hp Hz (off & len & comp & Ho & Hl & Hc & H) [H8 Hne]].
  assert (Z.to_nat (mlen w.2) = length w.2) as El by (unfold mlen; lia).
  split; [|split; [exact Hp|split; [exact Hz|]]].
  - unfold segment_bytes, seg_offset, seg_compression, p_filesz, seg_length.
    rewrite Ho. cbn [mbind run_bind]. rewrite Hc. cbn [mbind run_bind]. rewrite Hz. cbn [mbind run_bind].
    destruct H as [(src & -> & Hs & Hu)|[(src & -> & Hs & Hu & Hr)|[Hn Hr]]].
    + change (2 =? 2) with true. rewrite Hl. cbn [mbind run_bind]. rewrite Hs. cbn [mbind run_bind].
      by rewrite Hu.
    + change (2 =? 2) with true. rewrite Hl. cbn [mbind run_bind]. rewrite Hs. cbn [mbind run_bind].
      destruct (uncompress (mlen w.2) src) as [ret buf]. cbn [fst] in Hu.
      rewrite (proj2 (Z.eqb_neq ret Z_OK) Hu), El. exact Hr.
    + rewrite (proj2 (Z.eqb_neq comp 2) Hn), El. exact Hr.
  - unfold is_elf, slice. replace (_ && _) with true by (unfold mlen; lia). cbn [mbind run_bind Z.to_nat].
    rewrite drop_0. by rewrite bool_decide_eq_false_2.
Qed.

Lemma without_sections_ok m e : 0 <= e -> e + 52 <= mlen m -> drop_sections m e = without_sections m e.
Proof.
  intros H0 H. unfold drop_sections, without_sections.
  rewrite store_le_blit by (simpl; lia). change (le 4 0) with [0; 0; 0; 0].
  destruct (blit m (e + 32) [0; 0; 0; 0]) as [m1| |] eqn:E1; [|done..]. cbn [mbind run_bind].
  assert (mlen m1 = mlen m) as Hl by (apply blit_mlen in E1; exact E1).
  transitivity (store32 m1 (e + 48) 0); [|by rewrite store_le_blit by (simpl; lia)].
  cbn [store_le]. change (0 / 256 / 256 / 256) with 0. change (0 / 256 / 256) with 0. change (0 / 256) with 0.
  replace (e + 50) with (e + 48 + 1 + 1) by lia.
  destruct (store8 m1 (e + 48) 0) as [m2| |]; [|done..]. cbn [mbind run_bind].
  by destruct (store8 m2 (e + 48 + 1) 0).
Qed.

Lemma unmake_header_spec input input' hd ehdr phdr elf : load64 input 64 = Done elf ->
  header_of input input' hd ehdr phdr -> unmake_header elf input = Done (input', hd, ehdr, phdr).
Proof.
  assert (forall bs, fwrite_at [] 0 bs = bs) as Hf.
  { intros [|b bs]; [done|]. unfold fwrite_at. cbn. by rewrite ?drop_nil, ?app_nil_r. }
  intros Helf H. unfold unmake_header, header_len, elf_offset, e_ehsize, phdr_offset, e_phoff, is_elf.
  destruct H as [hlen bs elf' size phdr hd Hh Hb Hne He Hsz Hs Hp|hlen input' size phoff hd Hh Hb Hl Hw Hsz Hs Hp];
    rewrite Hh; cbn [mbind run_bind]; rewrite Hb; cbn [mbind run_bind].
  - rewrite bool_decide_eq_false_2 by done. rewrite He. assert (elf = elf') as -> by congruence.
    cbn [mbind run_bind]. rewrite Hsz. cbn [mbind run_bind]. rewrite Hs. cbn [mbind run_bind].
    rewrite Hp. cbn [mbind run_bind]. by rewrite Hf.
  - rewrite bool_decide_eq_true_2 by done. apply slice_inv in Hb as (H0 & _ & _).
    rewrite without_sections_ok, Hw by done. cbn [mbind run_bind].
    assert (forall k o, o + Z.of_nat k <= hlen + 32 \/ hlen + 36 <= o /\ o + Z.of_nat k <= hlen + 48 ->
      load_le k input' o = load_le k input o) as Hsame.
    { intros k o Ho. unfold without_sections in Hw. apply run_bind_Done in Hw as (m1 & E1 & E2).
      rewrite (load_le_blit_other _ _ _ _ _ _ E2), (load_le_blit_other _ _ _ _ _ _ E1); [done|unfold mlen; simpl; lia..]. }
    rewrite (Hsame 8%nat), Hh by (simpl; lia). cbn [mbind run_bind].
    rewrite (Hsame 2%nat), Hsz by (simpl; lia). cbn [mbind run_bind]. rewrite Hs. cbn [mbind run_bind].
    rewrite (Hsame 4%nat), Hp by (simpl; lia). cbn [mbind run_bind]. by rewrite Hf.
Qed.

(** C27: vita-unmake-fself restores the ELF file.  For a SELF whose magic,
    segment table, ELF header and program headers are where its header says
    ([header_of]), [unmake] ends with code 0 and a file in which the ELF
    header, every segment (inflated when it is stored compressed and
    [uncompress] accepts it, copied otherwise) at its [p_offset], and the
    program header table at [e_phoff] all stand, provided these ranges do
    not overlap, and every segment has at least eight bytes and is not itself
    an ELF file ([segment_is]); the writes in between only leave zeros.  The
    hypotheses read the bytes of the file at fixed offsets, not through the
    functions of the tool. *)
Theorem unmake_restores fuel input sinfo elf input' hd ehdr phdr segs phoff phentsize tbl :
  load32 input 0 = Done 0x454353 -> load64 input 88 = Done sinfo -> load64 input 64 = Done elf ->
  header_of input input' hd ehdr phdr ->
  load16 input' (ehdr + 44) = Done (Z.of_nat (length segs)) ->
  (forall k w, segs !! k = Some w -> segment_is input' sinfo phdr (Z.of_nat k) w) ->
  load32 input' (ehdr + 28) = Done phoff -> load16 input' (ehdr + 42) = Done phentsize ->
  slice input' phdr (Z.to_nat (phentsize * Z.of_nat (length segs))) = Done tbl ->
  (length segs < fuel)%nat ->
  pairwise_disjoint ((0, hd) :: segs ++ [(phoff, tbl)]) ->
  exists f, unmake fuel true input = Done (0, Some f) /\
    Forall (holds_at f) ((0, hd) :: segs ++ [(phoff, tbl)]).
Proof.
  intros Hm Hsi Hel Hh Hn Hs Hpo Hpe Ht Hf [Hd Hds].
  exists (fwrite_all hd (segs ++ [(phoff, tbl)])). split.
  - eapply unmake_spec; [exact Hm|exact Hsi|exact Hel|by apply unmake_header_spec|exact Hn| |exact Hpo|exact Hpe|exact Ht|done].
    intros k w Hk. by apply segment_is_at, Hs.
  - constructor; [|by apply fwrite_all_holds]. apply fwrite_all_other; [done|]. intros i b Hi. done.
Qed.
End Unmake.

(** A SELF of two segments: header, ELF header at 128, program headers at
    180, segment table at 244, segments at 308 (plain) and 318 (compressed,
    by a run-length code of one byte). *)
Definition sample_self : mem :=
  le 4 SCE_MAGIC ++ le 4 3 ++ le 8 1 ++ le 8 308 ++ le 40 0 ++ le 8 128 ++ le 8 180 ++ le 8 0 ++
  le 8 244 ++ le 8 0 ++ le 24 0 ++
  (elf_magic ++ le 8 0 ++ le 12 0 ++ le 4 52 ++ le 4 0 ++ le 4 0 ++ le 2 52 ++ le 2 32 ++ le 2 2 ++ le 6 0) ++
  (le 4 1 ++ le 4 128 ++ le 8 0 ++ le 4 10 ++ le 12 0) ++
  (le 4 1 ++ le 4 144 ++ le 8 0 ++ le 4 9 ++ le 12 0) ++
  (le 8 308 ++ le 8 10 ++ le 8 1 ++ le 8 2) ++ (le 8 318 ++ le 8 1 ++ le 8 2 ++ le 8 2) ++
  [1; 2; 3; 4; 5; 6; 7; 8; 9; 10] ++ [42].

Definition sample_uncompress (sz : Z) (src : mem) : Z * mem :=
  (Z_OK, replicate (Z.to_nat sz) (default 0 (head src))).

Lemma unmake_restores_witness :
  exists f, unmake sample_uncompress 3 true sample_self = Done (0, Some f) /\
    Forall (holds_at f) ((0, take 52 (drop 128 sample_self)) ::
      [(128, [1; 2; 3; 4; 5; 6; 7; 8; 9; 10]); (144, replicate 9 42)] ++
      [(52, take 64 (drop 180 sample_self))]).
Proof.
  apply (unmake_restores sample_uncompress 3 sample_self 244 128 sample_self _ 128 180 _ 52 32);
    try (vm_compute; reflexivity).
  - apply (header_self _ 308 [1; 2; 3; 4; 5; 6; 7; 8] 128 52); try (vm_compute; reflexivity). discriminate.
  - intros [|[|k]] w Hk; [injection Hk as <-|injection Hk as <-|done]; split;
      try (vm_compute; reflexivity); try (split; [cbn; lia|discriminate]).
    + exists 308, 10, 1. do 3 (split; [vm_compute; reflexivity|]). right. right.
      split; [lia|vm_compute; reflexivity].
    + exists 318, 1, 2. do 3 (split; [vm_compute; reflexivity|]). left. exists [42].
      split; [done|]. split; vm_compute; reflexivity.
  - cbn [app pairwise_disjoint]. repeat (split || apply Forall_cons_2 || apply Forall_nil_2);
      vm_compute; lia.
Defined.
End Unmake.
Export Unmake.

(** ** elf_injector, main.c *)

Module Inject.
Definition sizeof_npdrm_info : nat := 0x100.

Section Inject.
(** [compress cap src]: the return code, the new [*destLen], and the [cap]
    bytes of the destination afterwards. *)
Context (compress : Z -> mem -> Z * Z * mem).

(** One turn of the segment loop: [self_file], the file and
    [offset_correction]. *)
Definition inject_segment (elf_file : mem) (phdrs sinfo i : Z) (self_file f : mem) (corr : Z)
    : run (mem * mem * Z) :=
  sz ← p_filesz elf_file phdrs i;
  off ← seg_offset self_file sinfo i;
  self_file ← store_le 8 self_file (sinfo + 32 * i) (u64 (off + corr));
  poff ← p_offset elf_file phdrs i;
  src ← slice elf_file poff (Z.to_nat sz);
  let '(ret, seg_sz, dest) := compress sz src in
  if negb (ret =? Z_OK) then Done (self_file, f, corr)
  else
    len ← seg_length self_file sinfo i;
    '(self_file, corr) ←
      (if negb (len =? seg_sz) && (len <? seg_sz) then
         self_file ← store_le 8 self_file (sinfo + 32 * i + 8) seg_sz;
         Done (self_file, u64 (corr + (seg_sz - len)))
       else Done (self_file, corr));
    off ← seg_offset self_file sinfo i;
    len ← seg_length self_file sinfo i;
    bs ← slice dest 0 (Z.to_nat len);
    Done (self_file, fwrite_at f off bs, corr).

Fixpoint inject_segments (n : nat) (elf_file : mem) (phdrs sinfo i : Z) (self_file f : mem)
    (corr : Z) : run (mem * mem) :=
  match n with
  | O => Done (self_file, f)
  | S n' =>
      '(self_file, f, corr) ← inject_segment elf_file phdrs sinfo i self_file f corr;
      inject_segments n' elf_file phdrs sinfo (i + 1) self_file f corr
  end.

(** [memset(m + off, 0, n)] *)
Definition clear (m : mem) (off : Z) (n : nat) : run mem := blit m off (replicate n 0).

(** [while(control_info->next)]; [p] is the offset of [control_info]. *)
Fixpoint control_loop (fuel : nat) (elf_digest : mem) (self_file : mem) (p : Z) : run mem :=
  match fuel with
  | O => OutOfFuel
  | S fuel' =>
      next ← load64 self_file (p + 8);
      if next =? 0 then Done self_file
      else
        type ← load32 self_file p;
        self_file ←
          (if type =? 4 then blit self_file (p + 36) elf_digest
           else if type =? 5 then clear self_file (p + 16) sizeof_npdrm_info
           else Done self_file);
        size ← load32 self_file (p + 4);
        control_loop fuel' elf_digest self_file (p + size)
  end.

(** From the opening of the output file, which empties it, on *)
Definition inject (fuel : nat) (can_write : bool) (uninit : SHA256_CTX) (elf_file self_file : mem)
    : run (Z * option mem) :=
  if negb can_write then Done (1, None)
  else
    elf ← elf_offset self_file;
    phnum ← e_phnum elf_file 0;
    phnum_self ← e_phnum self_file elf;
    if negb (phnum =? phnum_self) then Done (1, Some [])
    else
      phdrs ← e_phoff elf_file 0;
      sinfo ← section_info_offset self_file;
      '(self_file, f) ← inject_segments (Z.to_nat phnum) elf_file phdrs sinfo 0 self_file [] 0;
      ctx ← sha256_update (sha256_init uninit) elf_file (u32 (mlen elf_file));
      let '(_, elf_digest) := sha256_final ctx in
      control_info ← controlinfo_offset self_file;
      self_file ← control_loop fuel elf_digest self_file control_info;
      hlen ← header_len self_file;
      bs ← slice self_file 0 (Z.to_nat hlen);
      let f := fwrite_at f 0 bs in
      elf ← elf_offset self_file;
      bs ← slice self_file elf sizeof_ehdr;
      let f := fwrite_at f hlen bs in
      phoff ← e_phoff elf_file 0;
      phdr ← phdr_offset self_file;
      phentsize ← e_phentsize elf_file 0;
      bs ← slice self_file phdr (Z.to_nat (phnum * phentsize));
      Done (0, Some (fwrite_at f (hlen + phoff) bs)).

(** The two arguments in either order: a file that starts with the SELF magic
    is the SELF (and names the output), one with the ELF magic the ELF; the
    last of a kind counts. *)
Fixpoint classify (files : list (string * mem)) (self : option (string * mem)) (elf : option mem)
    : run (option (option (string * mem) * option mem)) :=
  match files with
  | [] => Done (Some (self, elf))
  | (name, input) :: files' =>
      if bool_decide (input = []) then Done None
      else
        mg ← magic input;
        if negb (mg =? SCE_MAGIC) then
          e ← is_elf input 0;
          if e : bool then classify files' self (Some input) else Done None
        else classify files' (Some (name, input)) elf
  end.

Definition inject_main (fopen_rb : string -> option mem) (fopen_wb : string -> bool)
    (fuel : nat) (uninit : SHA256_CTX) (argv : list string) : run (Z * option (string * mem)) :=
  match argv with
  | [_; arg1; arg2] =>
      match fopen_rb arg1, fopen_rb arg2 with
      | Some f1, Some f2 =>
          kinds ← classify [(arg1, f1); (arg2, f2)] None None;
          match kinds with
          | Some (Some (output_path, self_file), Some elf_file) =>
              if 1023 <=? Z.of_nat (String.length output_path) then Fault FUninit
              else
                '(r, f) ← (inject fuel (fopen_wb output_path) uninit elf_file self_file
                            : run (Z * option mem));
                Done (r, option_map (fun f => (output_path, f)) f)
          | _ => Done (1, None)
          end
      | _, _ => Done (1, None)
      end
  | _ => Done (1, None)
  end.

(** ** The mismatch of the two files *)

(** The output is opened, and so emptied, before the program headers are
    compared: the SELF is lost. *)
Lemma inject_mismatch fuel uninit elf_file self_file elf n n' :
  elf_offset self_file = Done elf -> e_phnum elf_file 0 = Done n ->
  e_phnum self_file elf = Done n' -> n <> n' ->
  inject fuel true uninit elf_file self_file = Done (1, Some []).
Proof.
  intros He Hn Hn' Hne. unfold inject. cbn [negb]. rewrite He. cbn [mbind run_bind].
  rewrite Hn. cbn [mbind run_bind]. rewrite Hn'. cbn [mbind run_bind].
  by replace (n =? n') with false by lia.
Qed.

(** ** The segment loop *)

(** What zlib documents of [compress] *)
Definition compress_ok : Prop := forall cap src n buf, 0 <= cap ->
  compress cap src = (Z_OK, n, buf) -> 0 <= n <= cap /\ mlen buf = cap.

(** The ELF has the bytes of segment [i], and the SELF's segment is not
    longer than them. *)
Definition injectable (elf_file : mem) (phdrs sinfo i : Z) (self_file : mem) : Prop :=
  exists sz poff src len, p_filesz elf_file phdrs i = Done sz /\ 0 <= sz < 2 ^ 32 /\
    p_offset elf_file phdrs i = Done poff /\ slice elf_file poff (Z.to_nat sz) = Done src /\
    seg_length self_file sinfo i = Done len /\ 0 <= len <= sz.

Lemma inject_segment_spec elf_file phdrs sinfo i self_file f corr :
  compress_ok -> 0 <= sinfo -> 0 <= i -> sinfo + 32 * i + 32 <= mlen self_file ->
  injectable elf_file phdrs sinfo i self_file ->
  exists self' f' corr', inject_segment elf_file phdrs sinfo i self_file f corr = Done (self', f', corr') /\
    differ_in (sinfo + 32 * i) 32 self_file self'.
Proof.
  intros Hc Hs Hi Hb (sz & poff & src & len & Hz & Hsz & Ho & Hsrc & Hlen & Hlb).
  unfold inject_segment. rewrite Hz. cbn [mbind run_bind].
  destruct (load_le_total 8 self_file (sinfo + 32 * i)) as [off Hoff]; [lia|simpl; lia|].
  change (seg_offset self_file sinfo i) with (load64 self_file (sinfo + 32 * i)). rewrite Hoff. cbn [mbind run_bind].
  destruct (store_le_total 8 self_file (sinfo + 32 * i) (u64 (off + corr))) as [self1 E1];
    [lia|simpl; lia|]. rewrite E1. cbn [mbind run_bind].
  assert (differ_in (sinfo + 32 * i) 32 self_file self1) as D1
    by (eapply differ_in_weaken; [| |by eapply store_differ]; simpl; lia).
  pose proof (proj1 (store_differ _ _ _ _ _ E1)) as L1.
  rewrite Ho. cbn [mbind run_bind]. rewrite Hsrc. cbn [mbind run_bind].
  destruct (compress sz src) as [[ret seg_sz] dest] eqn:Ec.
  destruct (ret =? Z_OK) eqn:Er; cbn [negb]; [|by eauto 10].
  apply Z.eqb_eq in Er as ->. destruct (Hc _ _ _ _ (proj1 Hsz) Ec) as [Hn Hd].
  assert (seg_length self1 sinfo i = Done len) as ->.
  { rewrite <- Hlen. eapply load_le_store_le_other; [exact E1|simpl; lia]. }
  cbn [mbind run_bind].
  assert (exists self2 corr2 len2,
    (if negb (len =? seg_sz) && (len <? seg_sz) then
       (self_file ← store_le 8 self1 (sinfo + 32 * i + 8) seg_sz;
        Done (self_file, u64 (corr + (seg_sz - len)))) : run (mem * Z)
     else Done (self1, corr)) = Done (self2, corr2) /\
    differ_in (sinfo + 32 * i) 32 self1 self2 /\
    seg_length self2 sinfo i = Done len2 /\ 0 <= len2 <= sz) as (self2 & corr2 & len2 & -> & D2 & Hl2 & Hb2).
  { destruct (negb (len =? seg_sz) && (len <? seg_sz)).
    - destruct (store_le_total 8 self1 (sinfo + 32 * i + 8) seg_sz) as [self2 E2]; [lia|simpl; lia|].
      rewrite E2. exists self2, (u64 (corr + (seg_sz - len))), (seg_sz mod 256 ^ Z.of_nat 8). split; [done|].
      split; [eapply differ_in_weaken; [| |by eapply store_differ]; simpl; lia|].
      split; [by eapply load_le_store_le_same|]. rewrite Z.mod_small by (simpl; lia). lia.
    - exists self1, corr, len. split; [done|]. split; [by split|].
      split; [|lia]. rewrite <- Hlen. eapply load_le_store_le_other; [exact E1|simpl; lia]. }
  cbn [mbind run_bind]. pose proof (proj1 D2) as L2.
  destruct (load_le_total 8 self2 (sinfo + 32 * i)) as [off2 Hoff2]; [lia|simpl; lia|].
  change (seg_offset self2 sinfo i) with (load64 self2 (sinfo + 32 * i)). rewrite Hoff2. cbn [mbind run_bind]. rewrite Hl2. cbn [mbind run_bind].
  destruct (slice_total dest 0 (Z.to_nat len2)) as [bs ->]; [lia|lia|]. cbn [mbind run_bind].
  eexists _, _, _. split; [done|]. by eapply differ_in_trans.
Qed.

Lemma injectable_differ elf_file phdrs sinfo i self_file self' s n :
  differ_in s n self_file self' -> sinfo + 32 * i + 16 <= s \/ s + n <= sinfo + 32 * i + 8 ->
  injectable elf_file phdrs sinfo i self_file -> injectable elf_file phdrs sinfo i self'.
Proof.
  intros D Ho (sz & poff & src & len & ? & ? & ? & ? & Hlen & ?). exists sz, poff, src, len.
  do 4 (split; [done|]). split; [|done]. rewrite <- Hlen.
  unfold seg_length. eapply differ_in_load; [exact D|simpl; lia].
Qed.

Lemma inject_segments_spec elf_file phdrs sinfo : compress_ok -> 0 <= sinfo ->
  forall n i self_file f corr, 0 <= i -> sinfo + 32 * (i + Z.of_nat n) <= mlen self_file ->
  (forall j, i <= j < i + Z.of_nat n -> injectable elf_file phdrs sinfo j self_file) ->
  exists self' f', inject_segments n elf_file phdrs sinfo i self_file f corr = Done (self', f') /\
    differ_in (sinfo + 32 * i) (32 * Z.of_nat n) self_file self'.
Proof.
  intros Hc Hs n. induction n as [|n IH]; intros i self_file f corr Hi Hb Hinj; cbn [inject_segments].
  - exists self_file, f. by split.
  - destruct (inject_segment_spec elf_file phdrs sinfo i self_file f corr)
      as (self1 & f1 & corr1 & -> & D1); [done..|lia|apply Hinj; lia|].
    cbn [mbind run_bind]. destruct (IH (i + 1) self1 f1 corr1) as (self2 & f2 & E2 & D2).
    + lia.
    + rewrite (proj1 D1). lia.
    + intros j Hj. eapply injectable_differ; [exact D1|lia|apply Hinj; lia].
    + exists self2, f2. split; [done|]. eapply differ_in_trans;
        (eapply differ_in_weaken; [| |eassumption]; lia).
Qed.

(** ** The control information *)

(** Bytes of an entry that the loop may write *)
Definition payload (type : Z) : Z := if type =? 4 then 68 else if type =? 5 then 272 else 16.

(** The control information at [p] is the entries [es], (type, size) each,
    and a last one, which the loop does not visit. *)
Fixpoint control_chain (m : mem) (p : Z) (es : list (Z * Z)) : Prop :=
  match es with
  | [] => load64 m (p + 8) = Done 0
  | (type, size) :: es' =>
      (exists next, load64 m (p + 8) = Done next /\ next <> 0) /\
      load32 m p = Done type /\ load32 m (p + 4) = Done size /\
      payload type <= size /\ p + size <= mlen m /\ control_chain m (p + size) es'
  end.

Definition control_size (es : list (Z * Z)) : Z := foldr (fun e s => e.2 + s) 0 es.

(** In [m], the digest stands in every entry of type 4 and zeros in every
    entry of type 5. *)
Fixpoint control_written (digest m : mem) (p : Z) (es : list (Z * Z)) : Prop :=
  match es with
  | [] => True
  | (type, size) :: es' =>
      (type = 4 -> holds_at m (p + 36, digest)) /\
      (type = 5 -> holds_at m (p + 16, replicate sizeof_npdrm_info 0)) /\
      control_written digest m (p + size) es'
  end.

Lemma payload_min type size : payload type <= size -> 16 <= size.
Proof. unfold payload. repeat case_match; lia. Qed.

Lemma control_size_nonneg m p es : control_chain m p es -> 0 <= control_size es.
Proof.
  revert p. induction es as [|[ty sz] es IH]; intros p; cbn [control_chain control_size foldr snd]; [lia|].
  intros (_ & _ & _ & Hp & _ & Hc). apply payload_min in Hp. apply IH in Hc.
  unfold control_size in Hc. lia.
Qed.

Lemma control_chain_differ m m' s n p es : differ_in s n m m' ->
  (s + n <= p \/ p + control_size es + 16 <= s) -> control_chain m p es -> control_chain m' p es.
Proof.
  intros D. revert p. induction es as [|[ty sz] es IH]; intros p Ho; cbn [control_chain].
  - intros <-. apply (differ_in_load 8 _ _ _ _ _ D). cbn in Ho. simpl; lia.
  - intros ((nx & Hn & Hnz) & Ht & Hs & Hp & Hb & Hc).
    pose proof (control_size_nonneg _ _ _ Hc). cbn in Ho.
    pose proof (payload_min _ _ Hp). fold (control_size es) in Ho.
    assert (forall k off, p <= off -> off + Z.of_nat k <= p + 16 -> load_le k m' off = load_le k m off) as HL
      by (intros k off H1 H2; apply (differ_in_load k _ _ _ _ _ D); lia).
    split; [exists nx; by rewrite HL by (simpl; lia)|].
    rewrite (HL 4%nat p), (HL 4%nat (p + 4)) by (simpl; lia). destruct D as [L D].
    split; [done|]. split; [done|]. split; [done|]. split; [lia|].
    apply IH; [|done]. destruct Ho; [left; lia|right; lia].
Qed.

Lemma control_written_differ digest m m' s n p es : length digest = 32%nat -> 0 <= p ->
  differ_in s n m m' -> (s + n <= p \/ p + control_size es <= s) -> control_chain m p es ->
  control_written digest m p es -> control_written digest m' p es.
Proof.
  intros Hd Hp D. revert p Hp.
  induction es as [|[ty sz] es IH]; intros p Hp Ho; cbn [control_chain control_written]; [done|].
  intros (_ & _ & _ & Hpl & _ & Hc) (H4 & H5 & H). pose proof (control_size_nonneg _ _ _ Hc).
  pose proof (payload_min _ _ Hpl). cbn in Ho. fold (control_size es) in Ho.
  unfold payload in Hpl. split; [|split].
  - intros ->. eapply holds_at_differ; [exact D|cbn; lia| |by apply H4].
    cbn in Hpl. unfold mlen. cbn [fst snd]. rewrite Hd. lia.
  - intros ->. eapply holds_at_differ; [exact D|cbn; lia| |by apply H5].
    cbn in Hpl. unfold mlen. cbn [fst snd]. rewrite length_replicate. unfold sizeof_npdrm_info. lia.
  - apply IH; [lia|lia|done|done].
Qed.

(** The loop writes every entry and only the entries. *)
Lemma control_loop_spec digest es : length digest = 32%nat -> forall fuel m p,
  control_chain m p es -> 0 <= p -> (length es < fuel)%nat ->
  exists m', control_loop fuel digest m p = Done m' /\
    differ_in p (control_size es) m m' /\ control_written digest m' p es.
Proof.
  intros Hd. induction es as [|[ty sz] es IH]; intros [|fuel] m p Hc Hp Hf; try (cbn in Hf; lia);
    cbn [control_loop control_chain] in *.
  - rewrite Hc. exists m. by split; [|split].
  - destruct Hc as ((nx & -> & Hnz) & Hty & Hsz & Hpl & Hb & Hc).
    cbn [mbind run_bind]. replace (nx =? 0) with false by lia. rewrite Hty. cbn [mbind run_bind].
    pose proof (control_size_nonneg _ _ _ Hc).
    assert (exists m1, (if ty =? 4 then blit m (p + 36) digest
        else if ty =? 5 then clear m (p + 16) sizeof_npdrm_info else Done m) = Done m1 /\
      differ_in (p + 16) (sz - 16) m m1 /\ (ty = 4 -> holds_at m1 (p + 36, digest)) /\
      (ty = 5 -> holds_at m1 (p + 16, replicate sizeof_npdrm_info 0))) as (m1 & -> & D1 & W4 & W5).
    { unfold payload in Hpl. destruct (Z.eqb_spec ty 4) as [->|]; [|destruct (Z.eqb_spec ty 5) as [->|]].
      - destruct (blit_total m (p + 36) digest) as [m1 E]; [lia|unfold mlen at 1; rewrite Hd; lia|].
        exists m1. split; [done|]. split; [|split; [intros _; by apply blit_lookup in E as (_ & _ & ? & _)|done]].
        eapply differ_in_weaken; [| |by eapply blit_differ]; unfold mlen; rewrite ?Hd; lia.
      - destruct (blit_total m (p + 16) (replicate sizeof_npdrm_info 0)) as [m1 E];
          [lia|unfold mlen at 1; rewrite length_replicate; unfold sizeof_npdrm_info; lia|].
        exists m1. split; [done|]. split; [|split; [done|intros _; by apply blit_lookup in E as (_ & _ & ? & _)]].
        eapply differ_in_weaken; [| |by eapply blit_differ]; unfold mlen; rewrite ?length_replicate;
          unfold sizeof_npdrm_info; lia.
      - exists m. split; [done|]. by repeat split. }
    cbn [mbind run_bind].
    rewrite (differ_in_load 4 _ _ _ _ (p + 4) D1), Hsz by (simpl; lia). cbn [mbind run_bind].
    pose proof (payload_min _ _ Hpl).
    destruct (IH fuel m1 (p + sz)) as (m2 & E2 & D2 & W2).
    + eapply control_chain_differ; [exact D1|left; lia|done].
    + lia.
    + cbn in Hf. lia.
    + exists m2. split; [done|]. split.
      * cbn [control_size foldr snd]. eapply differ_in_trans;
          (eapply differ_in_weaken; [| |eassumption]; unfold control_size in *; lia).
      * cbn [control_written]. split; [|split; [|done]]; intros ->; unfold payload in Hpl; cbn in Hpl.
        -- eapply holds_at_differ; [exact D2|cbn; lia| |by apply W4].
           left. cbn [fst snd]. unfold mlen. rewrite Hd. lia.
        -- eapply holds_at_differ; [exact D2|cbn; lia| |by apply W5].
           left. cbn [fst snd]. unfold mlen. rewrite length_replicate. unfold sizeof_npdrm_info. lia.
Qed.

(** ** The result *)

(** The shape of the two files: equal numbers [n] of segments, each of which
    can be injected; the segment table at [sinfo], then the control
    information [es] at [ci], behind the header and inside the part of the
    SELF that is written back; the copied tables inside the file. *)
Record injection (elf_file self_file : mem) (n sinfo ci hlen : Z) (es : list (Z * Z)) : Prop := {
  in_elf : exists elf, elf_offset self_file = Done elf /\ e_phnum self_file elf = Done n /\
    0 <= elf /\ elf + 52 <= mlen self_file;
  in_phnum : e_phnum elf_file 0 = Done n /\ 0 <= n;
  in_phdrs : exists phdrs, e_phoff elf_file 0 = Done phdrs /\ 0 <= phdrs /\
    forall i, 0 <= i < n -> injectable elf_file phdrs sinfo i self_file;
  in_sinfo : section_info_offset self_file = Done sinfo /\ 128 <= sinfo /\ sinfo + 32 * n <= ci;
  in_control : controlinfo_offset self_file = Done ci /\ control_chain self_file ci es;
  in_header : header_len self_file = Done hlen /\ ci + control_size es + 16 <= hlen <= mlen self_file;
  in_phdr : exists phdr phentsize, phdr_offset self_file = Done phdr /\
    e_phentsize elf_file 0 = Done phentsize /\ 0 <= phdr /\ 0 <= phentsize /\
    phdr + n * phentsize <= mlen self_file;
}.

(** The bytes of the header are the first bytes of the file. *)
Lemma holds_at_prefix m hlen bs w : slice m 0 hlen = Done bs ->
  (Z.to_nat w.1 + length w.2 <= hlen)%nat -> holds_at m w -> holds_at bs w.
Proof.
  intros (_ & _ & ->)%slice_inv Hw Hh i b Hi. pose proof (lookup_lt_Some _ _ _ Hi).
  cbn [Z.to_nat]. rewrite drop_0, lookup_take_lt by lia. by apply Hh.
Qed.

Lemma holds_at_written f bs w : holds_at bs w -> holds_at (fwrite_at f 0 bs) w.
Proof. intros Hh i b Hi. apply (fwrite_at_same f 0 bs _ b), (Hh i b Hi). Qed.

(** An entry written in the SELF is in the file, which later writes at and
    behind [hlen] leave alone. *)
Lemma control_written_file digest m0 m f p es hlen bs o1 w1 o2 w2 :
  length digest = 32%nat -> slice m 0 hlen = Done bs -> 0 <= p ->
  p + control_size es <= Z.of_nat hlen -> Z.of_nat hlen <= o1 -> Z.of_nat hlen <= o2 ->
  control_chain m0 p es -> control_written digest m p es ->
  control_written digest (fwrite_at (fwrite_at (fwrite_at f 0 bs) o1 w1) o2 w2) p es.
Proof.
  intros Hd Hs. revert p. induction es as [|[ty sz] es IH]; intros p Hp Hl H1 H2;
    cbn [control_chain control_written]; [done|].
  intros (_ & _ & _ & Hpl & _ & Hc) (H4 & H5 & H). pose proof (control_size_nonneg _ _ _ Hc).
  pose proof (payload_min _ _ Hpl). cbn in Hl. fold (control_size es) in Hl.
  assert (forall w, 0 <= w.1 -> w.1 + mlen w.2 <= Z.of_nat hlen -> holds_at m w ->
    holds_at (fwrite_at (fwrite_at (fwrite_at f 0 bs) o1 w1) o2 w2) w) as Hw.
  { intros w Hw0 Hwl Hh. unfold mlen in Hwl.
    apply fwrite_at_other; [left; cbn; lia|]. apply fwrite_at_other; [left; cbn; lia|].
    apply holds_at_written. eapply holds_at_prefix; [exact Hs|lia|done]. }
  unfold payload in Hpl. split; [|split].
  - intros ->. apply Hw; [cbn; lia| |by apply H4]. cbn [fst snd]. unfold mlen. rewrite Hd. cbn in Hpl. lia.
  - intros ->. apply Hw; [cbn; lia| |by apply H5]. cbn [fst snd]. unfold mlen. rewrite length_replicate.
    unfold sizeof_npdrm_info. cbn in Hpl. lia.
  - apply IH; [lia..|done|done].
Qed.

Lemma sha256_update_done uninit elf_file : length (data uninit) = 64%nat -> mlen elf_file < 2 ^ 32 ->
  exists ctx, sha256_update (sha256_init uninit) elf_file (u32 (mlen elf_file)) = Done ctx /\
    (sha256_final ctx).2 = sha256 elf_file.
Proof.
  intros Hu Hl. destruct (update_loop_absorbed [] elf_file _ _ _ _ (init_absorbed uninit Hu))
    as (ctx & bl & r & E & Hab).
  exists ctx. split; [|by apply (sha256_final_spec _ _ _ _ Hab)].
  unfold sha256_update. rewrite u32_small by (unfold mlen in *; lia). unfold mlen at 1.
  by rewrite Nat2Z.id.
Qed.

(** C28: elf_injector writes a SELF whose digest is that of the ELF.  The two
    files are of the shape [injection]: they have the same number of program
    headers (otherwise the tool ends with code 1 and an emptied SELF,
    [inject_mismatch]); every segment of the ELF is inside the ELF file and
    at least as long as the SELF's; the segment table and the control
    information behind it are inside the header that is written back; the
    copied tables are inside the file.  The ELF is below 4 GiB, and zlib's
    [compress] keeps to its documented output size, but need not succeed: a
    segment it refuses is skipped, and nothing is said of the segment data.
    Then [inject] ends with code 0 and a file in which every control
    information entry of type 4 but the last carries the SHA-256 of the whole
    ELF file and every entry of type 5 but the last is zeroed; no access
    leaves the buffers. *)
Theorem inject_writes_digest fuel uninit elf_file self_file n sinfo ci hlen es :
  compress_ok -> length (data uninit) = 64%nat -> mlen elf_file < 2 ^ 32 ->
  injection elf_file self_file n sinfo ci hlen es -> (length es < fuel)%nat ->
  exists f, inject fuel true uninit elf_file self_file = Done (0, Some f) /\
    control_written (sha256 elf_file) f ci es.
Proof.
  intros Hcz Hu Hl [(elf & Helf & Hn' & He0 & He) [Hn Hn0] (phdrs & Hph & Hph0 & Hinj)
    (Hsi & Hs0 & Hs) [Hci Hch] [Hh Hhl] (phdr & pes & Hphdr & Hpes & Hp0 & Hpe0 & Hp)] Hf.
  pose proof (control_size_nonneg _ _ _ Hch).
  unfold inject. cbn [negb]. rewrite Helf. cbn [mbind run_bind]. rewrite Hn. cbn [mbind run_bind].
  rewrite Hn'. cbn [mbind run_bind]. rewrite Z.eqb_refl. cbn [negb].
  rewrite Hph. cbn [mbind run_bind]. rewrite Hsi. cbn [mbind run_bind].
  destruct (inject_segments_spec elf_file phdrs sinfo Hcz ltac:(lia) (Z.to_nat n) 0 self_file [] 0)
    as (self1 & f1 & -> & D1); [lia|lia|intros j Hj; apply Hinj; lia|]. cbn [mbind run_bind].
  destruct (sha256_update_done uninit elf_file Hu Hl) as (ctx & -> & Hdig). cbn [mbind run_bind].
  destruct (sha256_final ctx) as [ctx' digest] eqn:Ef. cbn [snd] in Hdig. subst digest.
  assert (forall k off, off + Z.of_nat k <= 128 -> load_le k self1 off = load_le k self_file off) as HL1
    by (intros k off Ho; apply (differ_in_load k _ _ _ _ _ D1); lia).
  assert (controlinfo_offset self1 = Done ci) as -> by (rewrite <- Hci; apply (HL1 8%nat); simpl; lia).
  cbn [mbind run_bind].
  assert (length (sha256 elf_file) = 32%nat) as Hd32 by apply length_sha256.
  assert (control_chain self1 ci es) as Hch1
    by (eapply control_chain_differ; [exact D1|left; lia|done]).
  destruct (control_loop_spec (sha256 elf_file) es Hd32 fuel self1 ci Hch1 ltac:(lia) Hf)
    as (self2 & -> & D2 & W). cbn [mbind run_bind].
  assert (forall k off, off + Z.of_nat k <= 128 -> load_le k self2 off = load_le k self_file off) as HL2
    by (intros k off Ho; rewrite (differ_in_load k _ _ _ _ _ D2) by lia; by apply HL1).
  assert (mlen self2 = mlen self_file) as L2 by (rewrite (proj1 D2); apply D1).
  assert (header_len self2 = Done hlen) as -> by (rewrite <- Hh; apply (HL2 8%nat); simpl; lia).
  cbn [mbind run_bind].
  destruct (slice_total self2 0 (Z.to_nat hlen)) as [bs Ebs]; [lia|lia|]. rewrite Ebs. cbn [mbind run_bind].
  assert (elf_offset self2 = Done elf) as -> by (rewrite <- Helf; apply (HL2 8%nat); simpl; lia).
  cbn [mbind run_bind].
  destruct (slice_total self2 elf sizeof_ehdr) as [bs2 ->]; [lia|unfold sizeof_ehdr; lia|].
  cbn [mbind run_bind].
  assert (phdr_offset self2 = Done phdr) as -> by (rewrite <- Hphdr; apply (HL2 8%nat); simpl; lia).
  cbn [mbind run_bind]. rewrite Hpes. cbn [mbind run_bind].
  destruct (slice_total self2 phdr (Z.to_nat (n * pes))) as [bs3 ->]; [lia|nia|]. cbn [mbind run_bind].
  eexists. split; [done|].
  eapply (control_written_file _ self1); [done|exact Ebs|lia..|done|done].
Qed.
End Inject.

(** One segment of four bytes; the SELF has its segment table at 128, an
    entry of type 4 at 160, the last entry at 240, an ELF header at 256 and a
    program header at 308. *)
Definition sample_elf_header : mem :=
  elf_magic ++ le 8 0 ++ le 12 0 ++ le 4 52 ++ le 4 0 ++ le 4 0 ++ le 2 52 ++ le 2 32 ++ le 2 1 ++ le 6 0.
Definition sample_phdr : mem := le 4 1 ++ le 4 84 ++ le 8 0 ++ le 4 4 ++ le 12 0.
Definition sample_elf_file : mem := sample_elf_header ++ sample_phdr ++ [1; 2; 3; 4].
Definition sample_fself : mem :=
  le 4 SCE_MAGIC ++ le 12 0 ++ le 8 256 ++ le 40 0 ++ le 8 256 ++ le 8 308 ++ le 8 0 ++ le 8 128 ++
  le 8 0 ++ le 8 160 ++ le 16 0 ++
  (le 8 0x300 ++ le 8 3 ++ le 8 2 ++ le 8 2) ++
  (le 4 4 ++ le 4 80 ++ le 8 1 ++ replicate 64 0xEE) ++ (le 4 7 ++ le 4 80 ++ le 8 0) ++
  sample_elf_header ++ sample_phdr.
Definition sample_compress (cap : Z) (src : mem) : Z * Z * mem :=
  (Z_OK, cap, replicate (Z.to_nat cap) 7).

Lemma inject_writes_digest_witness :
  exists f, inject sample_compress 2 true (Ctx (replicate 64 0) 0 0 0 []) sample_elf_file sample_fself =
      Done (0, Some f) /\
    control_written (sha256 sample_elf_file) f 160 [(4, 80)].
Proof.
  apply (inject_writes_digest sample_compress 2 _ sample_elf_file sample_fself 1 128 160 256 [(4, 80)]).
  - unfold compress_ok, sample_compress. intros cap src n buf Hcap [= <- <-].
    unfold mlen. rewrite length_replicate. lia.
  - reflexivity.
  - vm_compute. reflexivity.
  - split.
    + exists 256. vm_compute. repeat split; discriminate.
    + vm_compute. split; [reflexivity|discriminate].
    + exists 52. split; [vm_compute; reflexivity|]. split; [lia|]. intros i Hi.
      assert (i = 0) as -> by lia. exists 4, 84, [1; 2; 3; 4], 3.
      split; [vm_compute; reflexivity|]. split; [lia|]. split; [vm_compute; reflexivity|].
      split; [vm_compute; reflexivity|]. split; [vm_compute; reflexivity|lia].
    + split; [vm_compute; reflexivity|lia].
    + split; [vm_compute; reflexivity|]. vm_compute. repeat split; try discriminate.
      exists 1. split; [reflexivity|discriminate].
    + split; [vm_compute; reflexivity|]. vm_compute. split; discriminate.
    + exists 308, 32. split; [vm_compute; reflexivity|]. split; [vm_compute; reflexivity|].
      vm_compute. repeat split; discriminate.
  - simpl. lia.
Defined.
End Inject.
Export Inject.
