(* ===== verification/ErrResolver.v ===== *)
(** * The error code resolver (PSVita-error-code-resolver, main.c)

    The tool reads error_table.bin and turns a 32-bit error code into the
    short code the console shows, or searches the table for the code of a
    short code.  It keeps pointers in [int]s, so it is modelled on a 32-bit
    host: three buffers, the table header with the two pointers, the facility
    groups and the list of codes.  Passing too few arguments to [snprintf]
    and using an unset variable are faults. *)

From stdpp Require Import prelude strings pretty.
From Stdlib Require Import Ascii.
From S2P Require Import Prelude Bytes CString Yaml VitaImport.

Open Scope Z_scope.

(** ** Printing *)

(** [%08x] *)
Definition lower_digit (d : Z) : string :=
  match String.get (Z.to_nat d) "0123456789abcdef" with
  | Some c => String c "" | None => ""
  end.
Fixpoint fmt_08x (n : nat) (x : Z) : string :=
  match n with
  | O => ""
  | S n' => fmt_08x n' (x / 16) +:+ lower_digit (x mod 16)
  end.

(** [snprintf(buf, 16, ...)]: fifteen characters and the NUL *)
Definition snprintf16 (s : string) : string := String.substring 0 15 s.

(** ** The table *)

(** [error_table] (its first ints), the buffers its third and fifth ints
    point to, and the two globals *)
Record table := Table {
  header : mem;
  facilities : mem;
  error_list : mem;
  facility_group_num : Z;
  error_table_num : Z;
}.

(** [*(short * )p] as an [unsigned int] *)
Definition short_to_unsigned (x : Z) : Z := u32 (if x <? 2 ^ 15 then x else x - 2 ^ 16).

(** The six ints are cleared: both pointers become null, which the caller
    does not follow. *)
Definition clear_table (t : table) : run (Z * table) :=
  h ← blit (header t) 0 (replicate 24 0);
  Done (-1, Table h [] [] (facility_group_num t) (error_table_num t)).

(** [fread(dst, 1, n, f)]: the bytes that are left, [n] of them at most *)
Definition fread (f : mem) (n : Z) : mem * mem := (take (Z.to_nat n) f, drop (Z.to_nat n) f).

Definition read_error_table (file : option mem) (t : table) : run (Z * table) :=
  match file with
  | None => clear_table t
  | Some f =>
      let '(bs, f) := fread f 8 in
      h ← blit (header t) 0 bs;
      let t := Table h (facilities t) (error_list t) (facility_group_num t) (error_table_num t) in
      if negb (mlen bs =? 8) then clear_table t
      else
        n ← load16 (header t) 4;
        let num := short_to_unsigned n in
        let t := Table (header t) (facilities t) (error_list t) num (error_table_num t) in
        if negb (num <=? 0x21) then clear_table t
        else
          let '(bs, f) := fread f (8 * num) in
          fac ← blit (facilities t) 0 bs;
          let t := Table (header t) fac (error_list t) num (error_table_num t) in
          if negb (mlen bs =? 8 * num) then clear_table t
          else
            let '(bs, f) := fread f 4 in
            h ← blit (header t) 12 bs;
            let t := Table h (facilities t) (error_list t) num (error_table_num t) in
            if negb (mlen bs =? 4) then clear_table t
            else
              n ← load16 (header t) 14;
              let cnt := short_to_unsigned n in
              let t := Table (header t) (facilities t) (error_list t) num cnt in
              if negb (cnt <=? 0x4e21) then clear_table t
              else
                let '(bs, f) := fread f (4 * cnt) in
                errs ← blit (error_list t) 0 bs;
                let t := Table (header t) (facilities t) errs num cnt in
                if negb (mlen bs =? 4 * cnt) then clear_table t
                else Done (0, t)
  end.

(** ** [error_code_to_string] *)

(** [while (++i < count) if (error_list[1] == code) ...; ++error_list]: the
    index of the code among the entries from [i] on, [n] of them *)
Fixpoint find_code (errs : mem) (n : nat) (i code : Z) : run (option Z) :=
  match n with
  | O => Done None
  | S n' =>
      e ← load32 errs (4 * i);
      if e =? code then Done (Some i) else find_code errs n' (i + 1) code
  end.

(** The facility group of [shifted]: the offset of its name *)
Fixpoint find_facility (fac : mem) (n : nat) (ii shifted : Z) : run (option Z) :=
  match n with
  | O => Done None
  | S n' =>
      first ← load16 fac (8 * ii);
      inside ← (if first <=? shifted
                then count ← load16 fac (8 * ii + 2); Done (shifted <? first + count)
                else Done false);
      if inside : bool then Done (Some (8 * ii + 4)) else find_facility fac n' (ii + 1) shifted
  end.

(** [do { ii += d % 10; d /= 10; } while (d)] *)
Fixpoint digit_sum (fuel : nat) (d sum : Z) : run Z :=
  match fuel with
  | O => OutOfFuel
  | S fuel' =>
      let sum := sum + Z.rem d 10 in
      let d := Z.quot d 10 in
      if d =? 0 then Done sum else digit_sum fuel' d sum
  end.

(** From the label [CALC_FACILITY] on, for entry [i] of the list *)
Definition calc_facility (t : table) (code i : Z) : run string :=
  let Shifted := Z.land (Z.shiftr code 16) 0xFFF in
  facility ←
    (if 0xFF <? u32 (Shifted - 0x200) then
       groups ← load16 (header t) 4;
       found ← find_facility (facilities t) (Z.to_nat groups) 0 Shifted;
       match found with
       | Some off => read_str (facilities t) off
       | None => read_str (header t) 0
       end
     else Done "NS"%string);
  base ← load16 (header t) 12;
  let error_init := base + i in
  lastBit ← (if negb (error_init =? 0) then s ← digit_sum 10 error_init 0; Done (Z.rem s 10)
             else Done 0);
  Done (snprintf16 (facility +:+ "-" +:+ fmt_d error_init +:+ "-" +:+ fmt_d lastBit)%string).

Definition not_in_db (code : Z) : string := snprintf16 ("E-" +:+ fmt_08x 8 code)%string.

Definition error_code_to_string (t : table) (code : Z) : run string :=
  count ← load16 (header t) 14;
  if count =? 0 then Done (not_in_db code)
  else
    e0 ← load32 (error_list t) 0;
    if negb (e0 =? code) then
      found ← find_code (error_list t) (Z.to_nat (count - 1)) 1 code;
      match found with
      | Some i =>
          last ← load16 (header t) 6;
          if i <=? last then calc_facility t code i else Fault FUninit
      | None => Done (not_in_db code)
      end
    else calc_facility t code 0.

(** ** [main] *)

(** The search loop of the two brute-force modes, over the entries from [i]
    on: the first code whose short code is [target]. *)
Fixpoint bruteforce (t : table) (n : nat) (i : Z) (target : string) : run (option Z) :=
  match n with
  | O => Done None
  | S n' =>
      hex_error ← load32 (error_list t) (4 * i);
      error_code ← error_code_to_string t hex_error;
      if bool_decide (error_code = target) then Done (Some hex_error)
      else bruteforce t n' (i + 1) target
  end.

(** [sscanf(s, "%x", ...)], with the saturation of a 32-bit [strtoul]; [None]
    is a matching failure, which leaves the variable unset. *)
Definition sscanf_x (s : string) : option Z :=
  let '(neg, s) := take_sign (skip_space s) in
  let digits :=
    match s with
    | String z (String x (String d _ as rest)) =>
        if (char_code z =? 48) && ((char_code x =? 120) || (char_code x =? 88))
        then rest else s
    | _ => s
    end in
  match digits with
  | String c _ =>
      if is_digit 16 c then
        let v := (scan_digits 16 digits 0).1 in
        Some (if 2 ^ 32 <=? v then 2 ^ 32 - 1 else if neg : bool then u32 (- v) else v)
      else None
  | EmptyString => None
  end.

(** [%x] *)
Fixpoint fmt_x (fuel : nat) (x : Z) : string :=
  match fuel with
  | O => ""
  | S fuel' => (if (x <? 16)%Z then "" else fmt_x fuel' (x / 16)) +:+ lower_digit (x mod 16)
  end.

(** [strncpy] into 16 bytes and a later read of the string: without a NUL in
    the first 16 characters the read leaves the buffer. *)
Definition target_of (arg : string) : run string :=
  if (16 <=? Z.of_nat (String.length arg)) then Fault FTable else Done arg.

Definition not_found (target : string) : string :=
  (target +:+ " Was not found in error_table.bin (perhaps its E- facility?)")%string.

(** [main] with a mode and an input: the exit code and the line printed *)
Definition run_mode (t : table) (mode input : string) : run (Z * string) :=
  if bool_decide (mode = "-d"%string) then
    match sscanf_x input with
    | Some hex_error => s ← error_code_to_string t hex_error; Done (0, s)
    | None => Fault FUninit
    end
  else if bool_decide (mode = "-b"%string) then
    target ← target_of input;
    r ← bruteforce t (Z.to_nat (error_table_num t)) 0 target;
    match r with
    | Some hex_error => Done (0, fmt_x 8 hex_error)
    | None => Done (-1, not_found target)
    end
  else Done (0, "Invalid arguments!"%string).

(** One turn of the interactive loops, on a token from the keyboard:
    [hex_error], which a failed [scanf] leaves alone, and the line printed.
    [scanf("%16s")] needs 17 bytes for a long token. *)
Definition interactive_step (t : table) (choice : Z) (hex_error : option Z) (token : string)
    : run (option Z * string) :=
  if choice =? 1 then
    match sscanf_x token, hex_error with
    | Some hex, _ | None, Some hex =>
        s ← error_code_to_string t hex; Done (Some hex, ("Short Code: " +:+ s)%string)
    | None, None => Fault FUninit
    end
  else
    target ← target_of token;
    r ← bruteforce t (Z.to_nat (error_table_num t)) 0 target;
    match r with
    | Some hex => Done (Some hex, ("Hex Code: " +:+ fmt_x 8 hex)%string)
    | None => Done (hex_error, not_found target)
    end.

Fixpoint interactive (t : table) (choice : Z) (hex_error : option Z) (tokens : list string)
    : run (list string) :=
  match tokens with
  | [] => Done []
  | token :: tokens' =>
      '(hex_error, line) ← interactive_step t choice hex_error token;
      lines ← interactive t choice hex_error tokens';
      Done (line :: lines)
  end.

Inductive main_result :=
  | Exit (code : Z) (line : option string)
  | Session (choice : Z) (lines : list string).

(** [main]; [choice] and [tokens] are what the keyboard gives in interactive
    mode, in which the loops never end and the lines are those printed so
    far. *)
Definition main (file : option mem) (size : nat) (argv : list string) (choice : Z)
    (tokens : list string) : run main_result :=
  let t := Table (replicate size 0) (replicate size 0) (replicate size 0) 0 0 in
  '(res, t) ← read_error_table file t;
  if negb (res =? 0) then Done (Exit res None)
  else
    match argv with
    | [_] =>
        if (choice =? 1) || (choice =? 2) then
          lines ← interactive t choice None tokens; Done (Session choice lines)
        else Done (Exit 0 None)
    | [_; mode; input] => '(code, line) ← run_mode t mode input; Done (Exit code (Some line))
    | _ => Done (Exit 0 (Some "Invalid arguments!"%string))
    end.

(** ** Specification and proofs *)

(** The number with the decimal digits [ds], the lowest first *)
Definition decimal (ds : list Z) : Z := foldr (fun d v => d + 10 * v) 0 ds.
Definition sum (ds : list Z) : Z := foldr Z.add 0 ds.

Lemma digit_sum_spec fuel d acc : (0 < fuel)%nat -> 0 <= d < 10 ^ Z.of_nat fuel ->
  exists ds, Forall (fun x => 0 <= x < 10) ds /\ decimal ds = d /\
    digit_sum fuel d acc = Done (acc + sum ds).
Proof.
  revert d acc. induction fuel as [|fuel IH]; intros d acc Hf Hd; [lia|].
  cbn [digit_sum]. rewrite Z.rem_mod_nonneg, Z.quot_div_nonneg by lia.
  pose proof (Z.mod_pos_bound d 10 ltac:(lia)). pose proof (Z.div_mod d 10 ltac:(lia)).
  rewrite Nat2Z.inj_succ, Z.pow_succ_r in Hd by lia.
  destruct (Z.eqb_spec (d / 10) 0) as [E|E].
  - exists [d mod 10]. split; [by constructor|]. cbn. split; [lia|f_equal; lia].
  - assert (0 <= d / 10 < 10 ^ Z.of_nat fuel) as Hq
      by (split; [apply Z.div_pos; lia|apply Z.div_lt_upper_bound; lia]).
    destruct fuel as [|fuel]; [simpl in Hq; lia|].
    destruct (IH (d / 10) (acc + d mod 10) ltac:(lia) Hq) as (ds & Hds & Hv & Hs).
    exists (d mod 10 :: ds). split; [by constructor|]. split; [cbn; fold (decimal ds); lia|].
    rewrite Hs. cbn. fold (sum ds). f_equal; lia.
Qed.

(** [sscanf_x] reads back what [%x] prints. *)
Lemma lower_digit_val d : 0 <= d < 16 ->
  exists c, lower_digit d = String c "" /\ digit_val c = Some d /\ isspace c = false /\
    char_code c <> 43 /\ char_code c <> 45 /\ char_code c <> 88 /\ char_code c <> 120.
Proof.
  intros Hd. assert (d ∈ seqZ 0 16) as Hin by (apply elem_of_seqZ; lia).
  revert Hin. generalize d. clear. rewrite <- Forall_forall.
  repeat (apply Forall_cons_2; [eexists; split; [vm_compute; reflexivity|by vm_compute]|]).
  apply Forall_nil_2.
Qed.

(** A string of hexadecimal digits of value [v], as seen by [scan_digits] *)
Fixpoint hex_string (s : string) : Prop :=
  match s with
  | EmptyString => True
  | String c s' =>
      is_digit 16 c = true /\ isspace c = false /\ char_code c <> 43 /\ char_code c <> 45 /\
      char_code c <> 88 /\ char_code c <> 120 /\ hex_string s'
  end.

Lemma hex_string_app a b : hex_string a -> hex_string b -> hex_string (a +:+ b).
Proof.
  induction a as [|c a IH]; [done|]. rewrite string_app_cons. cbn [hex_string].
  intros (?&?&?&?&?&?&?) Hb. repeat (split; [done|]). by apply IH.
Qed.

Lemma scan_digits_app a b acc : hex_string a ->
  scan_digits 16 (a +:+ b) acc = scan_digits 16 b (scan_digits 16 a acc).1.
Proof.
  revert acc. induction a as [|c a IH]; intros acc; [done|]. rewrite string_app_cons.
  intros (Hd & ?&?&?&?&?&Ha). unfold is_digit in Hd. destruct (digit_val c) as [d|] eqn:E; [|done].
  rewrite !(scan_digits_cons _ _ _ _ _ E) by lia. by apply IH.
Qed.

Lemma fmt_x_spec fuel x : (0 < fuel)%nat -> 0 <= x < 16 ^ Z.of_nat fuel ->
  fmt_x fuel x <> EmptyString /\ hex_string (fmt_x fuel x) /\
  scan_digits 16 (fmt_x fuel x) 0 = (x, EmptyString).
Proof.
  revert x. induction fuel as [|fuel IH]; intros x Hf Hx; [lia|]. cbn [fmt_x].
  pose proof (Z.mod_pos_bound x 16 ltac:(lia)). pose proof (Z.div_mod x 16 ltac:(lia)).
  destruct (lower_digit_val (x mod 16)) as (c & Hc & Hd & Hrest); [lia|].
  assert (hex_string (lower_digit (x mod 16))) as Hh.
  { rewrite Hc. cbn. unfold is_digit. rewrite Hd. destruct Hrest as (?&?&?&?&?). repeat split; try done. lia. }
  rewrite Nat2Z.inj_succ, Z.pow_succ_r in Hx by lia.
  destruct (Z.ltb_spec x 16).
  - change ("" +:+ ?s) with s. rewrite Hc in *. split; [done|]. split; [done|].
    rewrite (scan_digits_cons _ _ _ _ _ Hd) by lia. cbn. rewrite Z.mod_small by lia. done.
  - assert (0 <= x / 16 < 16 ^ Z.of_nat fuel) as Hq
      by (split; [apply Z.div_pos; lia|apply Z.div_lt_upper_bound; lia]).
    destruct fuel as [|fuel]; [simpl in Hq; lia|].
    destruct (IH (x / 16) ltac:(lia) Hq) as (Hne & Hh' & Hs).
    split; [by destruct (fmt_x (S fuel) (x / 16))|]. split; [by apply hex_string_app|].
    rewrite scan_digits_app by done. rewrite Hs, Hc. cbn [fst].
    rewrite (scan_digits_cons _ _ _ _ _ Hd) by lia. cbn [scan_digits]. f_equal. lia.
Qed.

Lemma sscanf_x_fmt_x x : 0 <= x < 2 ^ 32 -> sscanf_x (fmt_x 8 x) = Some x.
Proof.
  intros Hx. destruct (fmt_x_spec 8 x) as (Hne & Hh & Hs); [lia|exact Hx|].
  destruct (fmt_x 8 x) as [|c s]; [done|]. cbn [hex_string] in Hh.
  destruct Hh as (Hd & Hsp & H43 & H45 & _ & _ & Hh).
  unfold sscanf_x. cbn [skip_space]. rewrite Hsp. cbn [take_sign].
  rewrite (proj2 (Z.eqb_neq _ 45) H45), (proj2 (Z.eqb_neq _ 43) H43).
  assert ((match s with
     | String x0 (String d _ as rest) =>
         if (char_code c =? 48) && ((char_code x0 =? 120) || (char_code x0 =? 88))
         then rest else String c s
     | _ => String c s end) = String c s) as Hp.
  { destruct s as [|x0 [|d s]]; [done..|]. destruct Hh as (_&_&_&_&H88&H120&_).
    rewrite (proj2 (Z.eqb_neq _ 120) H120), (proj2 (Z.eqb_neq _ 88) H88). by rewrite andb_false_r. }
  change (match String c s with
     | String z (String x0 (String d _ as rest)) =>
         if (char_code z =? 48) && ((char_code x0 =? 120) || (char_code x0 =? 88))
         then rest else String c s
     | _ => String c s end) with (match s with
     | String x0 (String d _ as rest) =>
         if (char_code c =? 48) && ((char_code x0 =? 120) || (char_code x0 =? 88))
         then rest else String c s
     | _ => String c s end).
  rewrite Hp, Hd, Hs. cbn [fst]. by replace (2 ^ 32 <=? x) with false by lia.
Qed.

Lemma substring_length n m s : (String.length (String.substring n m s) <= m)%nat.
Proof.
  revert n m. induction s as [|c s IH]; intros [|n] [|m]; cbn; try lia.
  - specialize (IH 0%nat m). lia.
  - apply IH.
  - apply IH.
Qed.

Lemma error_code_to_string_length t code s :
  error_code_to_string t code = Done s -> (String.length s <= 15)%nat.
Proof.
  assert (forall i, calc_facility t code i = Done s -> (String.length s <= 15)%nat) as Hc.
  { intros i H. unfold calc_facility in H. run_inv. apply substring_length. }
  unfold error_code_to_string. intros H. run_inv. case_match; run_inv; [apply substring_length|].
  case_match; run_inv; [|by eapply Hc].
  case_match; run_inv; [|apply substring_length]. case_match; run_inv; by eapply Hc.
Qed.

(** The search returns the first entry with the wanted short code. *)
Lemma bruteforce_spec t target code i : forall n k,
  (forall j, k <= j < i -> exists e s, load32 (error_list t) (4 * j) = Done e /\
     error_code_to_string t e = Done s /\ s <> target) ->
  load32 (error_list t) (4 * i) = Done code -> error_code_to_string t code = Done target ->
  k <= i < k + Z.of_nat n -> bruteforce t n k target = Done (Some code).
Proof.
  intros n. induction n as [|n IH]; intros k Hb Hc Hs Hi; [lia|]. cbn [bruteforce].
  destruct (decide (k = i)) as [->|Hne].
  - rewrite Hc. cbn [mbind run_bind]. rewrite Hs. cbn [mbind run_bind]. by rewrite bool_decide_eq_true_2.
  - destruct (Hb k ltac:(lia)) as (e & s & -> & Hes & Hst). cbn [mbind run_bind].
    rewrite Hes. cbn [mbind run_bind]. rewrite bool_decide_eq_false_2 by done.
    apply IH; [|done|done|lia]. intros j Hj. apply Hb. lia.
Qed.

(** brute force inverts the resolver.  For the entry [i] of the table,
    with code [code] (printed as the [-d] mode takes it), if no earlier entry
    has the same short code, then [-d] prints a short code for which [-b]
    prints [code] again, both with exit code 0. *)
Theorem bruteforce_inverts t i code s :
  0 <= i < error_table_num t -> load32 (error_list t) (4 * i) = Done code -> 0 <= code < 2 ^ 32 ->
  error_code_to_string t code = Done s ->
  (forall j, 0 <= j < i -> exists e s', load32 (error_list t) (4 * j) = Done e /\
     error_code_to_string t e = Done s' /\ s' <> s) ->
  run_mode t "-d" (fmt_x 8 code) = Done (0, s) /\
  run_mode t "-b" s = Done (0, fmt_x 8 code).
Proof.
  intros Hi Hc Hr Hs Hb. pose proof (error_code_to_string_length _ _ _ Hs). split.
  - unfold run_mode. rewrite bool_decide_eq_true_2, sscanf_x_fmt_x by done. by rewrite Hs.
  - unfold run_mode. rewrite bool_decide_eq_false_2, bool_decide_eq_true_2 by done.
    unfold target_of. replace (16 <=? _) with false by lia. cbn [mbind run_bind].
    rewrite (bruteforce_spec t s code i) by (done || lia). done.
Qed.

(** ** The short code of an entry *)

(** The facility groups, as the table lists them *)
Definition groups_at (fac : mem) (gs : list (Z * Z)) : Prop :=
  forall k g, gs !! k = Some g ->
    load16 fac (8 * Z.of_nat k) = Done g.1 /\ load16 fac (8 * Z.of_nat k + 2) = Done g.2.

Definition in_group (shifted : Z) (g : Z * Z) : Prop := g.1 <= shifted < g.1 + g.2.

Lemma find_facility_spec fac shifted gs : forall ii,
  (forall k g, gs !! k = Some g ->
    load16 fac (8 * (ii + Z.of_nat k)) = Done g.1 /\
    load16 fac (8 * (ii + Z.of_nat k) + 2) = Done g.2) ->
  (exists k g, gs !! k = Some g /\ in_group shifted g /\
     (forall j g', (j < k)%nat -> gs !! j = Some g' -> ~ in_group shifted g') /\
     find_facility fac (length gs) ii shifted = Done (Some (8 * (ii + Z.of_nat k) + 4))) \/
  (Forall (fun g => ~ in_group shifted g) gs /\ find_facility fac (length gs) ii shifted = Done None).
Proof.
  induction gs as [|g gs IH]; intros ii Hg; [by right|].
  destruct (Hg 0%nat g eq_refl) as [H1 H2]. rewrite Z.add_0_r in H1, H2.
  cbn [length find_facility]. rewrite H1. cbn [mbind run_bind].
  assert ((if g.1 <=? shifted
      then (count ← load16 fac (8 * ii + 2); Done (shifted <? g.1 + count)) : run bool
      else Done false) = Done (bool_decide (in_group shifted g))) as ->.
  { unfold in_group. destruct (Z.leb_spec g.1 shifted); [rewrite H2; cbn; f_equal|f_equal];
      symmetry; case_bool_decide; lia. }
  cbn [mbind run_bind]. case_bool_decide as Hin.
  - left. exists 0%nat, g. split; [done|]. split; [done|]. split; [lia|]. by rewrite Z.add_0_r.
  - destruct (IH (ii + 1)) as [(k & g' & Hk & Hin' & Hfirst & E)|[Hall E]].
    + intros k g' Hk. specialize (Hg (S k) g' Hk).
      by replace (ii + 1 + Z.of_nat k) with (ii + Z.of_nat (S k)) by lia.
    + left. exists (S k), g'. split; [done|]. split; [done|]. split.
      * intros [|j] g'' Hj Hl; [by injection Hl as <-|]. eapply Hfirst; [|exact Hl]. lia.
      * rewrite E. do 2 f_equal. lia.
    + right. split; [by constructor|done].
Qed.

Lemma find_code_spec errs code i : forall n k,
  (forall j, k <= j < i -> exists e, load32 errs (4 * j) = Done e /\ e <> code) ->
  load32 errs (4 * i) = Done code -> k <= i < k + Z.of_nat n -> find_code errs n k code = Done (Some i).
Proof.
  intros n. induction n as [|n IH]; intros k Hb Hc Hi; [lia|]. cbn [find_code].
  destruct (decide (k = i)) as [->|Hne].
  - rewrite Hc. cbn. by rewrite Z.eqb_refl.
  - destruct (Hb k ltac:(lia)) as (e & -> & He). cbn [mbind run_bind].
    replace (e =? code) with false by lia. apply IH; [|done|lia]. intros j Hj. apply Hb. lia.
Qed.

Lemma find_code_none errs code : forall n k,
  (forall j, k <= j < k + Z.of_nat n -> exists e, load32 errs (4 * j) = Done e /\ e <> code) ->
  find_code errs n k code = Done None.
Proof.
  intros n. induction n as [|n IH]; intros k Hb; [done|]. cbn [find_code].
  destruct (Hb k ltac:(lia)) as (e & -> & He). cbn [mbind run_bind].
  replace (e =? code) with false by lia. apply IH. intros j Hj. apply Hb. lia.
Qed.

(** The name of the facility of [code]: "NS" for facilities 0x200 to 0x2ff,
    else that of the first group it is in, else the text at the start of the
    table. *)
Definition facility_name (t : table) (gs : list (Z * Z)) (code : Z) (name : string) : Prop :=
  let shifted := Z.land (Z.shiftr code 16) 0xFFF in
  if (0x200 <=? shifted) && (shifted <=? 0x2FF) then name = "NS"%string
  else
    (exists k g, gs !! k = Some g /\ in_group shifted g /\
      (forall j g', (j < k)%nat -> gs !! j = Some g' -> ~ in_group shifted g') /\
      read_str (facilities t) (8 * Z.of_nat k + 4) = Done name) \/
    (Forall (fun g => ~ in_group shifted g) gs /\ read_str (header t) 0 = Done name).

Lemma calc_facility_spec t gs code i base name :
  load16 (header t) 4 = Done (Z.of_nat (length gs)) -> groups_at (facilities t) gs ->
  facility_name t gs code name -> load16 (header t) 12 = Done base -> 0 <= base + i < 10 ^ 10 ->
  exists ds, Forall (fun d => 0 <= d < 10) ds /\ decimal ds = base + i /\
    calc_facility t code i = Done (snprintf16 (name +:+ "-" +:+ fmt_d (base + i) +:+ "-" +:+
      fmt_d (sum ds mod 10))%string).
Proof.
  intros Hn Hg Hf Hb Hbi. unfold calc_facility. set (shifted := Z.land _ _) in *.
  assert (0 <= shifted < 2 ^ 12) as Hs by (apply land_range; lia).
  match goal with |- context [mbind _ ?m] => assert (m = Done name) as -> end.
  { unfold facility_name in Hf. fold shifted in Hf.
    destruct (Z.ltb_spec 0xFF (u32 (shifted - 0x200))) as [H|H].
    - assert (~ (0x200 <= shifted <= 0x2FF)) as Hout
        by (intros Hin; rewrite u32_small in H by lia; lia).
      replace ((0x200 <=? shifted) && (shifted <=? 0x2FF)) with false in Hf by lia.
      rewrite Hn. cbn [mbind run_bind]. rewrite Nat2Z.id.
      destruct (find_facility_spec (facilities t) shifted gs 0)
        as [(k & g & Hk & Hin & Hfirst & ->)|[Hall ->]]; [intros k g Hk; by apply Hg| |]; cbn [mbind run_bind].
      + destruct Hf as [(k' & g' & Hk' & Hin' & Hfirst' & Hname)|[Hall _]].
        * assert (k = k') as ->; [|by rewrite Z.add_0_l].
          destruct (Nat.lt_trichotomy k k') as [Hlt|[Heq|Hlt]]; [|done|].
          -- by destruct (Hfirst' k g Hlt Hk).
          -- by destruct (Hfirst k' g' Hlt Hk').
        * rewrite Forall_lookup in Hall. by destruct (Hall k g Hk).
      + destruct Hf as [(k' & g' & Hk' & Hin' & _)|[_ Hname]]; [|done].
        rewrite Forall_lookup in Hall. by destruct (Hall k' g' Hk').
    - assert (0x200 <= shifted <= 0x2FF) as Hin.
      { unfold u32 in H. destruct (decide (0x200 <= shifted)).
        - rewrite Z.mod_small in H by lia. lia.
        - rewrite <- (Z_mod_plus_full _ 1), Z.mod_small in H by lia. lia. }
      replace ((0x200 <=? shifted) && (shifted <=? 0x2FF)) with true in Hf by lia. by rewrite Hf. }
  cbn [mbind run_bind]. rewrite Hb. cbn [mbind run_bind]. cbv zeta.
  destruct (digit_sum_spec 10 (base + i) 0) as (ds & Hds & Hv & Es); [lia|exact Hbi|].
  exists ds. split; [done|]. split; [done|].
  assert (0 <= sum ds) as Hsum.
  { clear -Hds. induction Hds as [|d ds Hd _ IH]; cbn; [lia|]. fold (sum ds). lia. }
  destruct (Z.eqb_spec (base + i) 0) as [E0|E0]; cbn [negb].
  - rewrite E0 in Es. change (digit_sum 10 0 0) with (@Done Z 0) in Es.
    assert (0 + sum ds = 0) as Es0 by congruence. by replace (sum ds) with 0 by lia.
  - rewrite Es. cbn [mbind run_bind]. rewrite Z.add_0_l, Z.rem_mod_nonneg by lia. done.
Qed.

(** the short code of a listed error.  For a code whose first entry in
    the list is [i], [i] within the bound of the header, the resolver prints
    the name of its facility, the number of the entry (its base plus [i]) and
    a check digit, the sum of the decimal digits of that number modulo 10;
    for a code that is not listed it prints "E-" and the eight hexadecimal
    digits. *)
Theorem error_code_to_string_listed t gs errs code count last base :
  load16 (header t) 4 = Done (Z.of_nat (length gs)) -> groups_at (facilities t) gs ->
  load16 (header t) 14 = Done count -> count = Z.of_nat (length errs) ->
  load16 (header t) 6 = Done last -> load16 (header t) 12 = Done base -> 0 <= base < 2 ^ 16 ->
  (forall k e, errs !! k = Some e -> load32 (error_list t) (4 * Z.of_nat k) = Done e) ->
  (forall i name, errs !! i = Some code -> (forall j, (j < i)%nat -> errs !! j <> Some code) ->
    Z.of_nat i <= last < 2 ^ 16 -> facility_name t gs code name ->
    exists ds, Forall (fun d => 0 <= d < 10) ds /\ decimal ds = base + Z.of_nat i /\
      error_code_to_string t code = Done (snprintf16 (name +:+ "-" +:+ fmt_d (base + Z.of_nat i)
        +:+ "-" +:+ fmt_d (sum ds mod 10))%string)) /\
  (code ∉ errs -> error_code_to_string t code = Done (not_in_db code)).
Proof.
  intros Hn Hg Hcount Hc Hlast Hbase Hb Herrs. unfold error_code_to_string. rewrite Hcount.
  cbn [mbind run_bind]. split.
  - intros i name Hi Hfirst Hil Hname. pose proof (lookup_lt_Some _ _ _ Hi) as Hlt.
    destruct (calc_facility_spec t gs code (Z.of_nat i) base name Hn Hg Hname Hbase) as (ds & Hds & Hv & E);
      [lia|]. exists ds. split; [done|]. split; [done|].
    replace (count =? 0) with false by lia.
    destruct (lookup_lt_is_Some_2 errs 0) as [e0 He0]; [lia|].
    pose proof (Herrs _ _ He0) as Hl0. cbn [Z.of_nat] in Hl0. rewrite Z.mul_0_r in Hl0. rewrite Hl0.
    cbn [mbind run_bind]. destruct (Z.eqb_spec e0 code) as [->|Hne]; cbn [negb].
    + destruct i as [|i]; [done|]. by destruct (Hfirst 0%nat ltac:(lia)).
    + assert (i <> 0%nat) by (intros ->; congruence).
      rewrite (find_code_spec _ code (Z.of_nat i)).
      * cbn [mbind run_bind]. rewrite Hlast. cbn [mbind run_bind]. by replace (Z.of_nat i <=? last) with true by lia.
      * intros j Hj. destruct (lookup_lt_is_Some_2 errs (Z.to_nat j)) as [e He]; [lia|].
        exists e. pose proof (Herrs _ _ He) as Hle. rewrite Z2Nat.id in Hle by lia. split; [done|].
        intros ->. by apply (Hfirst (Z.to_nat j) ltac:(lia)).
      * by apply Herrs.
      * lia.
  - intros Hnot. destruct (Z.eqb_spec count 0); [done|].
    assert (forall j, 0 <= j < count -> exists e, load32 (error_list t) (4 * j) = Done e /\ e <> code) as Hall.
    { intros j Hj. destruct (lookup_lt_is_Some_2 errs (Z.to_nat j)) as [e He]; [lia|].
      exists e. pose proof (Herrs _ _ He) as Hle. rewrite Z2Nat.id in Hle by lia. split; [done|].
      intros ->. apply Hnot. by eapply list_elem_of_lookup_2. }
    destruct (Hall 0 ltac:(lia)) as (e0 & He0 & Hne). rewrite Z.mul_0_r in He0. rewrite He0.
    cbn [mbind run_bind]. replace (e0 =? code) with false by lia. cbn [negb].
    rewrite find_code_none; [done|]. intros j Hj. apply Hall. lia.
Qed.

(** ** Witnesses *)

(** Base 6000, one facility group "SV" for 0x10 and 0x11, two codes *)
Definition sample_table : table :=
  Table ([67; 0; 0; 0] ++ le 2 1 ++ le 2 1 ++ le 4 0 ++ le 2 6000 ++ le 2 2)
    (le 2 0x10 ++ le 2 2 ++ [83; 86; 0; 0]) (le 4 0x80200004 ++ le 4 0x80110005) 1 2.

Lemma bruteforce_inverts_witness :
  run_mode sample_table "-d" (fmt_x 8 0x80110005) = Done (0, "SV-6001-7"%string) /\
  run_mode sample_table "-b" "SV-6001-7" = Done (0, fmt_x 8 0x80110005).
Proof.
  apply (bruteforce_inverts sample_table 1 0x80110005 "SV-6001-7").
  - cbn. lia.
  - vm_compute. reflexivity.
  - lia.
  - vm_compute. reflexivity.
  - intros j Hj. assert (j = 0) as -> by lia. exists 0x80200004, "C-6000-6"%string.
    split; [vm_compute; reflexivity|]. split; [vm_compute; reflexivity|discriminate].
Defined.

Lemma error_code_to_string_listed_witness :
  (exists ds, Forall (fun d => 0 <= d < 10) ds /\ decimal ds = 6000 + Z.of_nat 1 /\
    error_code_to_string sample_table 0x80110005 = Done (snprintf16 ("SV" +:+ "-" +:+
      fmt_d (6000 + Z.of_nat 1) +:+ "-" +:+ fmt_d (sum ds mod 10))%string)) /\
  error_code_to_string sample_table 0x80000000 = Done "E-80000000"%string.
Proof.
  pose proof (fun code => error_code_to_string_listed sample_table [(0x10, 2)] [0x80200004; 0x80110005] code
    2 1 6000 eq_refl) as H.
  assert (forall k e, [0x80200004; 0x80110005] !! k = Some e ->
    load32 (error_list sample_table) (4 * Z.of_nat k) = Done e) as Hl
    by (intros [|[|k]] e He; [injection He as <-; reflexivity..|done]).
  assert (groups_at (facilities sample_table) [(0x10, 2)]) as Hg
    by (intros [|k] g Hk; [injection Hk as <-; split; reflexivity|done]).
  split.
  - destruct (H 0x80110005 Hg eq_refl eq_refl eq_refl eq_refl ltac:(lia) Hl) as [Hyes _].
    apply Hyes; [done|intros [|j] Hj; [discriminate|lia]|lia|].
    left. exists 0%nat, (0x10, 2). split; [done|]. split; [vm_compute; split; [discriminate|reflexivity]|].
    split; [lia|vm_compute; reflexivity].
  - destruct (H 0x80000000 Hg eq_refl eq_refl eq_refl eq_refl ltac:(lia) Hl) as [_ Hno].
    rewrite Hno; [vm_compute; reflexivity|]. intros [?|[?|?%not_elem_of_nil]%elem_of_cons]%elem_of_cons; done.
Defined.
