(* ===== verification/ImageExtract.v ===== *)
(** * Extracting ELF files from boot images

    psp2-kbl-elf-extract scans a kernel boot loader for plain and ARZL
    compressed ELF files ([Kbl]); psp2-kernel-bootimage-extract unpacks the
    modules of a kernel boot image in its old and new formats ([BootImage]).
    Both find a module's info block ([ModuleInfo]).  What the tools do to the
    disk is a list of effects in order; a short read leaves the end of the
    buffer unset, and using it is a fault.  Progress messages are left out. *)

From stdpp Require Import prelude strings.
From S2P Require Import Prelude Bytes CString Yaml VitaImport ElfTools Arzl.

Open Scope Z_scope.

(** What is done to the disk *)
Inductive effect :=
  | Mkdir (path : string)
  | Save (path : string) (bytes : mem).

(** ** Module information (module_info_parser.c) *)

Module ModuleInfo.
Definition ET_SCE_RELEXEC : Z := 0xFE04.
Definition ET_SCE_EXEC : Z := 0xFE00.

(** [Elf32_Ehdr] at [e], [Elf32_Shdr] and [Elf32_Phdr] by index *)
Definition e_type (m : mem) (e : Z) : run Z := load16 m (e + 16).
Definition e_entry (m : mem) (e : Z) : run Z := load32 m (e + 24).
Definition e_shoff (m : mem) (e : Z) : run Z := load32 m (e + 32).
Definition e_shnum (m : mem) (e : Z) : run Z := load16 m (e + 48).
Definition e_shstrndx (m : mem) (e : Z) : run Z := load16 m (e + 50).
Definition sh_name (m : mem) (s i : Z) : run Z := load32 m (s + 40 * i).
Definition sh_offset (m : mem) (s i : Z) : run Z := load32 m (s + 40 * i + 16).
Definition sh_size (m : mem) (s i : Z) : run Z := load32 m (s + 40 * i + 20).
Definition p_paddr (m : mem) (p i : Z) : run Z := load32 m (p + 32 * i + 12).

(** ".sceModuleInfo.rodata" and its NUL *)
Definition rodata_name : list Z :=
  [46; 115; 99; 101; 77; 111; 100; 117; 108; 101; 73; 110; 102; 111; 46; 114; 111; 100; 97; 116; 97; 0].

(** The fallback when no section gave an offset *)
Definition info_from_phdr (m : mem) (e : Z) : run Z :=
  type ← e_type m e;
  entry ← e_entry m e;
  phoff ← e_phoff m e;
  if (type =? ET_SCE_RELEXEC) || ((type =? ET_SCE_EXEC) && negb (entry =? 0)) then
    off ← p_offset m (e + phoff) 0; Done (u32 (off + entry))
  else p_paddr m (e + phoff) 0.

(** The section loop of psp2-kbl-elf-extract; [None] is its early
    [return 0]. *)
Fixpoint kbl_sections (n : nat) (m : mem) (e shdrs strndx i : Z) : run (option Z) :=
  match n with
  | O => Done (Some 0)
  | S n' =>
      stroff ← sh_offset m shdrs strndx;
      name ← sh_name m shdrs i;
      if (0x40000 <? stroff) || (0x4000 <? name) then Done None
      else
        same ← str_matches m (e + stroff + name) rodata_name;
        if same : bool then off ← sh_offset m shdrs i; Done (Some off)
        else kbl_sections n' m e shdrs strndx (i + 1)
  end.

Definition kbl_module_info_offset (m : mem) (e : Z) : run Z :=
  shnum ← e_shnum m e;
  ret ← (if 0 <? shnum then
           shoff ← e_shoff m e;
           strndx ← e_shstrndx m e;
           kbl_sections (Z.to_nat shnum) m e (e + shoff) strndx 0
         else Done (Some 0));
  match ret with
  | None => Done 0
  | Some ret => if ret =? 0 then info_from_phdr m e else Done ret
  end.

(** The version of psp2-kernel-bootimage-extract: no limits, and the last
    section of the name counts. *)
Fixpoint boot_sections (n : nat) (m : mem) (e shdrs strndx i ret : Z) : run Z :=
  match n with
  | O => Done ret
  | S n' =>
      stroff ← sh_offset m shdrs strndx;
      name ← sh_name m shdrs i;
      same ← str_matches m (e + stroff + name) rodata_name;
      ret ← (if same : bool then sh_offset m shdrs i else Done ret);
      boot_sections n' m e shdrs strndx (i + 1) ret
  end.

Definition boot_module_info_offset (m : mem) (e : Z) : run Z :=
  shnum ← e_shnum m e;
  ret ← (if 0 <? shnum then
           shoff ← e_shoff m e;
           strndx ← e_shstrndx m e;
           boot_sections (Z.to_nat shnum) m e (e + shoff) strndx 0 0
         else Done 0);
  if ret =? 0 then info_from_phdr m e else Done ret.
End ModuleInfo.
Export ModuleInfo.

(** [snprintf] into 256 bytes *)
Definition snprintf256 (s : string) : string := str_take 255 s.

(** ** psp2-kbl-elf-extract, main.c *)

Module Kbl.
(** [fopen] for writing fails on the paths for which [can_write] is false;
    [fwrite] on the null stream is a fault. *)
Definition extract_file (can_write : string -> bool) (path : string) (m : mem) (addr size : Z)
    : run (list effect) :=
  if can_write path then
    bs ← slice m addr (Z.to_nat size); Done [Save path bs]
  else Fault FNull.

(** [for (int i = 0; i < ehdr->e_phnum; ++i)]: the largest segment end *)
Fixpoint segments_end (n : nat) (m : mem) (phdrs i size : Z) : run Z :=
  match n with
  | O => Done size
  | S n' =>
      off ← p_offset m phdrs i;
      filesz ← p_filesz m phdrs i;
      let new_size := u32 (off + filesz) in
      segments_end n' m phdrs (i + 1) (if size <? new_size then new_size else size)
  end.

Definition elf_size (m : mem) (addr : Z) : run Z :=
  shnum ← e_shnum m addr;
  if 0 <? shnum then
    shoff ← e_shoff m addr;
    off ← sh_offset m (addr + shoff) (shnum - 1);
    size ← sh_size m (addr + shoff) (shnum - 1);
    Done (u32 (off + size))
  else
    phoff ← e_phoff m addr;
    phnum ← e_phnum m addr;
    let size := u32 (phoff + phnum * 32) in
    let size := u32 (size + u32 (0x10 - Z.land size 0xF)) in
    segments_end (Z.to_nat phnum) m (addr + phoff) 0 size.

(** [extract_elf(m + addr)]; the result is the size, 0 without module
    info. *)
Definition extract_elf (can_write : string -> bool) (output_path : string) (m : mem) (addr : Z)
    : run (Z * list effect) :=
  info ← kbl_module_info_offset m addr;
  if info =? 0 then Done (0, [])
  else
    modname ← read_str m (addr + info + 4);
    size ← elf_size m addr;
    saved ← extract_file can_write
      (snprintf256 (output_path +:+ "/" +:+ modname +:+ ".elf")%string) m addr size;
    Done (size, saved).

Definition arzl_magic : list Z := [65; 82; 90; 76].

(** The body of the scan, at [offset]: [filesize] bytes of [buffer] *)
Definition scan_at (unarzl_fuel : nat) (realloc : Z -> Z * mem) (can_write : string -> bool)
    (output_path : string) (buffer : mem) (filesize offset : Z) : run (list effect) :=
  elf ← is_elf buffer offset;
  if elf : bool then
    '(_, saved) ← extract_elf can_write output_path buffer offset; Done saved
  else
    arzl ← str_matches buffer offset arzl_magic;
    if arzl : bool then
      work_buffer ← slice buffer offset (Z.to_nat (filesize - offset));
      '(work_buffer, tmp_size) ← (unarzl unarzl_fuel realloc work_buffer (filesize - offset)
                                    : run (mem * Z));
      elf ← is_elf work_buffer 0;
      if elf : bool then
        '(_, saved) ← extract_elf can_write output_path work_buffer 0; Done saved
      else
        extract_file can_write
          (snprintf256 (output_path +:+ "/lzra_decompressed_data_0x" +:+ fmt_X offset +:+ ".bin")%string)
          work_buffer 0 tmp_size
    else Done [].

(** [for (offset = 0; offset < filesize-8; offset += 1)]; the bound wraps for
    a file of less than 8 bytes. *)
Fixpoint scan (fuel : nat) (unarzl_fuel : nat) (realloc : Z -> Z * mem) (can_write : string -> bool)
    (output_path : string) (buffer : mem) (filesize offset : Z) : run (list effect) :=
  match fuel with
  | O => OutOfFuel
  | S fuel' =>
      if offset <? u32 (filesize - 8) then
        here ← scan_at unarzl_fuel realloc can_write output_path buffer filesize offset;
        rest ← scan fuel' unarzl_fuel realloc can_write output_path buffer filesize (offset + 1);
        Done (here ++ rest)
      else Done []
  end.

(** [main]: the exit code and the effects.  Its end closes the input a second
    time, which is not modelled. *)
Definition kbl_main (fopen_rb : string -> option mem) (can_write : string -> bool)
    (unarzl_fuel : nat) (realloc : Z -> Z * mem) (argv : list string) : run (Z * list effect) :=
  match argv with
  | _ :: input :: rest =>
      match fopen_rb input with
      | None => Done (0, [])
      | Some buffer =>
          let filesize := u32 (mlen buffer) in
          let output_path := match rest with [] => "kbl_elf_out"%string | out :: _ => out end in
          if 256 <=? Z.of_nat (String.length output_path) then Fault FTable
          else
            saved ← scan (S (Z.to_nat (u32 (filesize - 8)))) unarzl_fuel realloc can_write
                      output_path buffer filesize 0;
            Done (0, Mkdir output_path :: saved)
      end
  | _ => Done (-1, [])
  end.

Lemma segments_end_spec m phdrs n : forall i size r,
  segments_end n m phdrs i size = Done r ->
  size <= r /\ forall k off filesz, i <= k < i + Z.of_nat n ->
    p_offset m phdrs k = Done off -> p_filesz m phdrs k = Done filesz ->
    off + filesz < 2 ^ 32 -> 0 <= off -> 0 <= filesz -> off + filesz <= r.
Proof.
  induction n as [|n IH]; intros i size r; cbn [segments_end].
  - intros [= ->]. split; [lia|]. intros k off filesz Hk. lia.
  - intros H. apply run_bind_Done in H as (off & Eo & H). apply run_bind_Done in H as (filesz & Ef & H).
    apply IH in H as [Hle Hall].
    assert (size <= r /\ u32 (off + filesz) <= r) as [? Hi] by (case_match; lia).
    split; [done|]. intros k off' filesz' Hk Ho Hf Hs H0 H1.
    destruct (decide (k = i)) as [->|Hne].
    + rewrite Eo in Ho. rewrite Ef in Hf. injection Ho as ->. injection Hf as ->.
      rewrite u32_small in Hi by lia. done.
    + apply (Hall k); try done. lia.
Qed.

(** A plain ELF file is extracted whole if the size covers its parts. *)
Lemma elf_size_spec m addr shnum phoff phnum size :
  e_shnum m addr = Done shnum -> e_phoff m addr = Done phoff -> e_phnum m addr = Done phnum ->
  shnum <= 0 -> 0 <= phnum -> 0 <= phoff -> phoff + 32 * phnum + 16 < 2 ^ 32 ->
  elf_size m addr = Done size ->
  phoff + 32 * phnum <= size /\
  forall i off filesz, 0 <= i < phnum -> p_offset m (addr + phoff) i = Done off ->
    p_filesz m (addr + phoff) i = Done filesz -> 0 <= off -> 0 <= filesz ->
    off + filesz < 2 ^ 32 -> off + filesz <= size.
Proof.
  intros Hs Hp Hn Hs0 Hn0 Hp0 Hb. unfold elf_size. rewrite Hs. cbn [mbind run_bind].
  replace (0 <? shnum) with false by lia. rewrite Hp. cbn [mbind run_bind]. rewrite Hn. cbn [mbind run_bind].
  intros H. apply segments_end_spec in H as [Hle Hall]. split.
  - pose proof (land_range (u32 (phoff + phnum * 32)) 0xF 4 ltac:(lia) ltac:(lia)) as Hl.
    rewrite (u32_small (phoff + phnum * 32)) in Hle, Hl by lia.
    rewrite (u32_small (0x10 - _)) in Hle by lia. rewrite u32_small in Hle by lia. lia.
  - intros i off filesz Hi Ho Hf H0 H1 H2. apply (Hall i); try done. lia.
Qed.

(** If no offset faults, every offset below the bound is looked at, in order. *)
Lemma scan_spec ufuel realloc can_write out buffer filesize : forall fuel i,
  (forall k, i <= k < u32 (filesize - 8) ->
     exists here, scan_at ufuel realloc can_write out buffer filesize k = Done here) ->
  0 <= i <= u32 (filesize - 8) -> u32 (filesize - 8) - i < Z.of_nat fuel ->
  exists saved, scan fuel ufuel realloc can_write out buffer filesize i = Done saved /\
    forall k, i <= k < u32 (filesize - 8) -> exists pre here post, saved = pre ++ here ++ post /\
      scan_at ufuel realloc can_write out buffer filesize k = Done here.
Proof.
  induction fuel as [|fuel IH]; intros i Hall Hi Hf; cbn [scan].
  - lia.
  - destruct (Z.ltb_spec i (u32 (filesize - 8))) as [Hlt|Hge]; [|exists []; split; [done|lia]].
    destruct (Hall i ltac:(lia)) as (here & Eh). rewrite Eh. cbn [mbind run_bind].
    destruct (IH (i + 1)) as (rest & -> & Hk); [intros k Hk; apply Hall; lia|lia|lia|].
    cbn [mbind run_bind]. exists (here ++ rest). split; [done|]. intros k Hk'.
    destruct (decide (k = i)) as [->|Hne]; [by exists [], here, rest|].
    destruct (Hk k ltac:(lia)) as (pre & here' & post & -> & E).
    exists (here ++ pre), here', post. by rewrite <- app_assoc.
Qed.

(** the scan extracts every embedded ELF file whole.  If no offset of a
    boot loader makes the tool fault, the scan ends, and an ELF file without
    sections at any offset below the bound, with module information, has been
    saved under its module name; the bytes saved are those of the image from
    its header on and cover its program headers and every one of its
    segments. *)
Theorem scan_extracts fuel ufuel realloc can_write out buffer filesize addr
    info modname size shnum phoff phnum :
  (forall k, 0 <= k < u32 (filesize - 8) ->
     exists here, scan_at ufuel realloc can_write out buffer filesize k = Done here) ->
  u32 (filesize - 8) < Z.of_nat fuel ->
  0 <= addr < u32 (filesize - 8) -> is_elf buffer addr = Done true ->
  kbl_module_info_offset buffer addr = Done info -> info <> 0 ->
  read_str buffer (addr + info + 4) = Done modname -> elf_size buffer addr = Done size ->
  e_shnum buffer addr = Done shnum -> e_phoff buffer addr = Done phoff ->
  e_phnum buffer addr = Done phnum -> shnum <= 0 -> 0 <= phnum -> 0 <= phoff ->
  phoff + 32 * phnum + 16 < 2 ^ 32 ->
  exists bs pre post,
    scan fuel ufuel realloc can_write out buffer filesize 0 =
      Done (pre ++ Save (snprintf256 (out +:+ "/" +:+ modname +:+ ".elf")%string) bs :: post) /\
    slice buffer addr (Z.to_nat size) = Done bs /\ phoff + 32 * phnum <= mlen bs /\
    forall i off filesz, 0 <= i < phnum -> p_offset buffer (addr + phoff) i = Done off ->
      p_filesz buffer (addr + phoff) i = Done filesz -> 0 <= off -> 0 <= filesz ->
      off + filesz < 2 ^ 32 -> off + filesz <= mlen bs.
Proof.
  intros Hall Hfuel Ha Helf Hi Hi0 Hn Hs Hsh Hp Hpn Hsh0 Hpn0 Hp0 Hb.
  destruct (elf_size_spec _ _ _ _ _ _ Hsh Hp Hpn Hsh0 Hpn0 Hp0 Hb Hs) as [Hpz Hseg].
  destruct (scan_spec ufuel realloc can_write out buffer filesize fuel 0 Hall
    (conj (Z.le_refl 0) (proj1 (u32_range _))) ltac:(lia))
    as (saved & -> & Hk).
  destruct (Hk addr Ha) as (pre & here & post & -> & Eh).
  unfold scan_at in Eh. rewrite Helf in Eh. cbn [mbind run_bind] in Eh.
  unfold extract_elf in Eh. rewrite Hi in Eh. cbn [mbind run_bind] in Eh.
  replace (info =? 0) with false in Eh by lia. rewrite Hn in Eh. cbn [mbind run_bind] in Eh.
  rewrite Hs in Eh. cbn [mbind run_bind] in Eh. rewrite run_bind_assoc in Eh.
  apply run_bind_Done in Eh as (sv & Ex & E). cbn [mbind run_bind] in E. injection E as <-.
  unfold extract_file in Ex. case_match; [|done].
  apply run_bind_Done in Ex as (bs & Ebs & Ex). injection Ex as <-.
  pose proof (slice_inv _ _ _ _ Ebs) as (_ & Hl & Hbs).
  assert (mlen bs = size) as Hlen.
  { rewrite Hbs. unfold mlen in *. rewrite length_take, length_drop. lia. }
  exists bs, pre, post. split; [done|]. split; [done|]. rewrite Hlen. by split.
Qed.

(** A boot loader with one module "abc" of 124 bytes at offset 2 *)
Definition sample_module : mem :=
  elf_magic ++ le 8 0 ++ le 2 0xFE04 ++ le 2 40 ++ le 4 1 ++ le 4 4 ++ le 4 52 ++ le 4 0 ++ le 4 0 ++
  le 2 52 ++ le 2 32 ++ le 2 1 ++ le 2 0 ++ le 2 0 ++ le 2 0 ++
  (le 4 1 ++ le 4 84 ++ le 8 0 ++ le 4 40 ++ le 12 0) ++
  le 8 0 ++ [97; 98; 99; 0] ++ replicate 28 5.
Definition sample_loader : mem := [9; 9] ++ sample_module ++ replicate 10 7.

Lemma scan_extracts_witness :
  exists bs pre post,
    scan 129 0 (fun n => (0, [])) (fun _ => true) "out" sample_loader 136 0 =
      Done (pre ++ Save (snprintf256 ("out" +:+ "/" +:+ "abc" +:+ ".elf")%string) bs :: post) /\
    slice sample_loader 2 124 = Done bs /\ 52 + 32 * 1 <= mlen bs /\
    forall i off filesz, 0 <= i < 1 -> p_offset sample_loader (2 + 52) i = Done off ->
      p_filesz sample_loader (2 + 52) i = Done filesz -> 0 <= off -> 0 <= filesz ->
      off + filesz < 2 ^ 32 -> off + filesz <= mlen bs.
Proof.
  apply (scan_extracts 129 0 (fun n => (0, [])) (fun _ => true) "out" sample_loader 136 2
    88 "abc" 124 0 52 1); [|try lia; try (vm_compute; reflexivity)..].
  - intros k Hk.
    assert (forallb (fun k => is_done (scan_at 0 (fun n => (0, [])) (fun _ => true) "out"
      sample_loader 136 k)) (seqZ 0 128) = true) as H by (vm_compute; reflexivity).
    rewrite forallb_forall in H. apply is_done_Done, H, list_elem_of_In, elem_of_seqZ.
    change (u32 (136 - 8)) with 128 in Hk. lia.
  - vm_compute. split; [discriminate|reflexivity].
Defined.
End Kbl.
Export Kbl.

(** ** psp2-kernel-bootimage-extract, main.c *)

Module BootImage.

(** *** [str_replace] *)

(** [for (count = 0; tmp = strstr(ins, rep); ++count) ins = tmp + len_rep] *)
Fixpoint count_rep (fuel : nat) (ins rep : string) : run nat :=
  match fuel with
  | O => OutOfFuel
  | S fuel' =>
      match strstr ins rep with
      | None => Done 0%nat
      | Some k => n ← count_rep fuel' (str_drop (k + String.length rep) ins) rep; Done (S n)
      end
  end.

(** [while (count--)]: [out] has been written of [size] bytes, and [orig] is
    left.  [strncpy] writes [len_front] bytes, [strcpy] also the NUL. *)
Fixpoint replace_loop (count : nat) (size : Z) (out orig rep with_ : string) : run (string * string) :=
  match count with
  | O => Done (out, orig)
  | S count' =>
      match strstr orig rep with
      | None => Fault FNull
      | Some len_front =>
          let out := (out +:+ str_take len_front orig)%string in
          if size <? Z.of_nat (String.length out) then Fault FMem
          else
            let out := (out +:+ with_)%string in
            if size <? Z.of_nat (String.length out) + 1 then Fault FMem
            else replace_loop count' size out (str_drop (len_front + String.length rep) orig) rep with_
      end
  end.

(** Null pointers are [None]; the result is null for a null or empty
    argument. *)
Definition str_replace (orig rep with_ : option string) : run (option string) :=
  match orig, rep with
  | Some orig, Some rep =>
      if bool_decide (rep = ""%string) then Done None
      else
        let with_ := default ""%string with_ in
        count ← count_rep (S (String.length orig)) orig rep;
        let size := Z.of_nat (String.length orig) +
          (Z.of_nat (String.length with_) - Z.of_nat (String.length rep)) * Z.of_nat count + 1 in
        '(out, orig) ← replace_loop count size "" orig rep with_;
        let out := (out +:+ orig)%string in
        if size <? Z.of_nat (String.length out) + 1 then Fault FMem else Done (Some out)
  | _, _ => Done None
  end.

(** [replaced rep with_ s r]: [r] is [s] with [with_] for every occurrence of
    [rep], found from the left, one after the other. *)
Inductive replaced (rep with_ : string) : string -> string -> Prop :=
  | replaced_last s : strstr s rep = None -> replaced rep with_ s s
  | replaced_step s k r : strstr s rep = Some k ->
      replaced rep with_ (str_drop (k + String.length rep) s) r ->
      replaced rep with_ s (str_take k s +:+ with_ +:+ r).


Lemma count_rep_spec fuel s rep : rep <> ""%string -> (String.length s < fuel)%nat ->
  exists n, count_rep fuel s rep = Done n /\ forall with_, exists r,
    replaced rep with_ s r /\
    Z.of_nat (String.length r) = Z.of_nat (String.length s) +
      (Z.of_nat (String.length with_) - Z.of_nat (String.length rep)) * Z.of_nat n /\
    (forall size out, Z.of_nat (String.length out) + Z.of_nat (String.length r) + 1 <= size ->
       exists out' rest, replace_loop n size out s rep with_ = Done (out', rest) /\
         (out' +:+ rest = out +:+ r)%string).
Proof.
  intros Hrep. assert (0 < String.length rep)%nat as Hlen by (destruct rep; [done|cbn; lia]).
  revert s. induction fuel as [|fuel IH]; intros s Hf; [lia|]. cbn [count_rep].
  destruct (strstr s rep) as [k|] eqn:E.
  - destruct (strstr_Some _ _ _ E) as [Es Hk].
    destruct (IH (str_drop (k + String.length rep) s)) as (n & -> & Hn);
      [rewrite str_drop_length; lia|].
    exists (S n). split; [done|]. intros with_. destruct (Hn with_) as (r & Hr & Hl & Hloop).
    exists (str_take k s +:+ with_ +:+ r)%string.
    assert (String.length (str_take k s) = k) as Ht by (apply str_take_length; lia).
    split; [by apply replaced_step|]. rewrite str_drop_length in Hl.
    split; [rewrite !string_length_app, Ht; lia|].
    intros size out Hsz. cbn [replace_loop]. rewrite E.
    rewrite !string_length_app, Ht in *.
    replace (size <? Z.of_nat (String.length out + k)) with false by lia.
    replace (size <? Z.of_nat (String.length out + k + String.length with_) + 1) with false by lia.
    destruct (Hloop size (out +:+ str_take k s +:+ with_)%string) as (out' & rest & E' & Eo).
    { rewrite !string_length_app, Ht. lia. }
    exists out', rest. rewrite string_app_assoc. split; [done|]. by rewrite Eo, !string_app_assoc.
  - exists 0%nat. split; [done|]. intros with_. exists s. split; [by constructor|]. split; [lia|].
    intros size out _. by exists out, s.
Qed.

Lemma str_replace_spec orig rep with_ : rep <> ""%string ->
  exists r, str_replace (Some orig) (Some rep) with_ = Done (Some r) /\
    replaced rep (default ""%string with_) orig r.
Proof.
  intros Hrep. unfold str_replace. rewrite bool_decide_eq_false_2 by done.
  destruct (count_rep_spec (S (String.length orig)) orig rep Hrep ltac:(lia)) as (n & -> & Hn).
  destruct (Hn (default ""%string with_)) as (r & Hr & Hl & Hloop).
  cbn [mbind run_bind]. exists r. split; [|done].
  edestruct (Hloop) as (out' & rest & -> & Eo); cycle 1.
  - cbn [mbind run_bind]. rewrite Eo. change ("" +:+ r) with r.
    rewrite <- Hl. replace (_ <? _) with false by lia. done.
  - cbn. lia.
Qed.

(** *** [generateFolders] *)

(** The path is copied and its first character skipped; every "/" ends a
    folder below the last one. *)
Fixpoint folders_loop (fuel : nat) (folder current_path : string) : list effect :=
  match fuel with
  | O => []
  | S fuel' =>
      match strstr folder "/" with
      | None => []
      | Some k =>
          let current_path := snprintf256 (current_path +:+ "/" +:+ str_take k folder)%string in
          Mkdir current_path :: folders_loop fuel' (str_drop (k + 1) folder) current_path
      end
  end.

(** [strcpy] into the two 256-byte buffers; an empty path leaves [folder]
    behind the NUL. *)
Definition generateFolders (path dest_path : string) : run (list effect) :=
  if (256 <=? Z.of_nat (String.length path)) || (256 <=? Z.of_nat (String.length dest_path))
  then Fault FTable
  else
    match path with
    | EmptyString => Fault FUninit
    | String _ folder => Done (folders_loop (S (String.length folder)) folder dest_path)
    end.

(** *** The two formats *)

Definition BOOTIMAGE_ELF_BASE_VADDR : Z := 0x81000000.
Definition ELF_HEADER_CHUNK_SIZE : Z := 0x400.
Definition sizeof_module_header_old : Z := 260.
Definition sizeof_entry_table_new : Z := 12.

(** [fseek] and [fread] of one item of [n] bytes: those there are *)
Definition fread_at (file : mem) (off n : Z) : mem := take (Z.to_nat n) (drop (Z.to_nat off) file).

(** A null path makes [fopen] give a null stream. *)
Definition extract_to (path : option string) (buf : mem) (size : Z) : run effect :=
  match path with
  | None => Fault FNull
  | Some path => bs ← slice buf 0 (Z.to_nat size); Done (Save path bs)
  end.

(** "os0:kd" becomes the output directory, ".skprx" becomes ".elf". *)
Definition output_name (path out_dir : string) : run (option string) :=
  s ← str_replace (Some path) (Some "os0:kd"%string) (Some out_dir);
  str_replace s (Some ".skprx"%string) (Some ".elf"%string).

(** [while ((text_seg_offset + offset) < bootimage_text_segment_size)] *)
Fixpoint old_loop (fuel : nat) (file : mem) (out_dir : string) (text_seg_offset segment_size offset : Z)
    : run (list effect) :=
  match fuel with
  | O => OutOfFuel
  | S fuel' =>
      if u32 (text_seg_offset + offset) <? segment_size then
        let module_header := fread_at file (u32 (text_seg_offset + offset)) sizeof_module_header_old in
        file_size ← load32 module_header 0;
        path ← read_str module_header 4;
        string_buf ← output_name path out_dir;
        let elf_buffer := fread_at file
          (u32 (text_seg_offset + offset) + sizeof_module_header_old) file_size in
        saved ← extract_to string_buf elf_buffer file_size;
        rest ← old_loop fuel' file out_dir text_seg_offset segment_size
          (u32 (offset + (sizeof_module_header_old + file_size)));
        Done (saved :: rest)
      else Done []
  end.

(** [fread] into the entry buffer that is used again for every entry *)
Definition reread (file : mem) (off : Z) (buf : mem) : mem :=
  let bs := fread_at file off sizeof_entry_table_new in bs ++ drop (length bs) buf.

(** [do { ... } while (entry_table->path_offset != 0)] *)
Fixpoint new_loop (fuel : nat) (file : mem) (out_dir : string) (pcff_mode : bool)
    (seg_offset start slide i : Z) (data_in_buf : mem) : run (list effect) :=
  match fuel with
  | O => OutOfFuel
  | S fuel' =>
      path_offset ← load32 data_in_buf 0;
      file_offset ← load32 data_in_buf 4;
      file_size ← load32 data_in_buf 8;
      path ← read_str (fread_at file (u32 (seg_offset + path_offset - slide)) 256) 0;
      folders ← generateFolders path out_dir;
      string_buf_2 ← (if pcff_mode then Done (Some (snprintf256 (out_dir +:+ "/" +:+ path)%string))
                      else output_name path out_dir);
      let elf_buffer := fread_at file (u32 (seg_offset + file_offset - slide)) file_size in
      saved ← extract_to string_buf_2 elf_buffer file_size;
      let i := u32 (i + 1) in
      let data_in_buf := reread file (u32 (seg_offset + start) + sizeof_entry_table_new * i) data_in_buf in
      path_offset ← load32 data_in_buf 0;
      if negb (path_offset =? 0) then
        rest ← new_loop fuel' file out_dir pcff_mode seg_offset start slide i data_in_buf;
        Done (folders ++ saved :: rest)
      else Done (folders ++ [saved])
  end.

(** [main] from the opened file on *)
Definition boot_extract (fuel : nat) (file : mem) (out_dir : string) : run (Z * list effect) :=
  let chunk := fread_at file 0 ELF_HEADER_CHUNK_SIZE in
  elf ← is_elf chunk 0;
  if negb elf then Done (-3, [])
  else
    info ← boot_module_info_offset chunk 0;
    if info =? 0 then Done (-4, [])
    else
      modname ← read_str (fread_at file info 32) 4;
      let pcff_mode := bool_decide (modname = "SceSblPcffBin"%string) in
      if negb pcff_mode && negb (bool_decide (modname = "SceKernelBootimage"%string))
      then Done (-3, [])
      else
        let seg_num := if pcff_mode then 1 else 0 in
        let start := if pcff_mode then 0 else 0xE4 in
        let slide := BOOTIMAGE_ELF_BASE_VADDR in
        phdrs ← e_phoff chunk 0;
        text_seg_offset ← p_offset chunk phdrs 0;
        text_end ← load32 chunk (text_seg_offset + 0xC0);
        let segment_size := u32 (text_end - slide) in
        filesz ← p_filesz chunk phdrs 0;
        if segment_size =? filesz then
          first ← load32 chunk (text_seg_offset + 0xC4);
          saved ← old_loop fuel file out_dir text_seg_offset segment_size (u32 (first - slide));
          Done (0, Mkdir out_dir :: saved)
        else
          seg_offset ← p_offset chunk phdrs seg_num;
          let data_in_buf := fread_at file (u32 (seg_offset + start)) sizeof_entry_table_new in
          slide ← (if pcff_mode then w ← load32 data_in_buf 0; Done (Z.land w 0xFFFF0000)
                   else Done slide);
          saved ← new_loop fuel file out_dir pcff_mode seg_offset start slide 0 data_in_buf;
          Done (0, Mkdir out_dir :: saved).

Definition boot_main (fopen_rb : string -> option mem) (fuel : nat) (argv : list string)
    : run (Z * list effect) :=
  match argv with
  | _ :: input :: rest =>
      match fopen_rb input with
      | None => Done (-2, [])
      | Some file =>
          let out_dir := match rest with [] => "kernel_bootimage_out"%string | out :: _ => out end in
          if 256 <=? Z.of_nat (String.length out_dir) then Fault FTable
          else boot_extract fuel file out_dir
      end
  | _ => Done (-1, [])
  end.

(** *** Packing and unpacking the old format *)

Definition bytes_of (s : string) : mem := char_code <$> String.list_ascii_of_string s.

(** One embedded module: its size, its path in 256 bytes, its bytes *)
Definition pack_module (md : string * mem) : mem :=
  le 4 (mlen md.2) ++ bytes_of md.1 ++ replicate (256 - String.length md.1) 0 ++ md.2.
Definition pack (mods : list (string * mem)) : mem := mods ≫= pack_module.

Definition module_fits (md : string * mem) : Prop :=
  strdup md.1 = md.1 /\ (String.length md.1 < 256)%nat /\ mlen md.2 < 2 ^ 32.

(** The effect that unpacks a module *)
Definition unpacks (out_dir : string) (md : string * mem) (e : effect) : Prop :=
  exists s name, replaced "os0:kd" out_dir md.1 s /\ replaced ".skprx" ".elf" s name /\
    e = Save name md.2.

Lemma char_code_range c : 0 <= char_code c < 256.
Proof. unfold char_code. pose proof (Ascii.nat_ascii_bounded c). lia. Qed.

Lemma cstr_bytes s : strdup s = s -> forall fuel pre post, (String.length s < fuel)%nat ->
  cstr fuel (pre ++ bytes_of s ++ 0 :: post) (mlen pre) = Done s.
Proof.
  induction s as [|c s IH]; intros Hs [|fuel] pre post Hf; try (cbn in Hf; lia); cbn [cstr].
  - replace (mlen pre) with (mlen pre + 0) by lia. by rewrite load8_app_r by lia.
  - cbn [strdup] in Hs. destruct (Ascii.eqb_spec c Ascii.zero) as [|Hc]; [done|]. injection Hs as Hs.
    replace (mlen pre) with (mlen pre + 0) at 1 by lia. rewrite load8_app_r by lia.
    change (load8 (bytes_of (String c s) ++ 0 :: post) 0) with (Done (char_code c)). cbn [mbind run_bind].
    assert (char_code c <> 0) as Hc0.
    { intros H0. apply Hc. unfold char_code in H0.
      rewrite <- (Ascii.ascii_nat_embedding c). replace (Ascii.nat_of_ascii c) with 0%nat by lia. done. }
    replace (char_code c =? 0) with false by lia.
    specialize (IH Hs fuel (pre ++ [char_code c]) post ltac:(cbn in Hf; lia)).
    rewrite <- app_assoc in IH. cbn [app] in IH.
    replace (mlen (pre ++ [char_code c])) with (mlen pre + 1) in IH
      by (unfold mlen; rewrite length_app; cbn; lia).
    change (bytes_of (String c s)) with (char_code c :: bytes_of s). cbn [app]. rewrite IH.
    cbn [mbind run_bind]. unfold char_code. by rewrite Nat2Z.id, Ascii.ascii_nat_embedding.
Qed.

Lemma length_bytes_of s : length (bytes_of s) = String.length s.
Proof. unfold bytes_of. rewrite length_fmap. induction s as [|c s IH]; cbn; [done|by rewrite IH]. Qed.

Lemma fread_at_app pre bs post : fread_at (pre ++ bs ++ post) (mlen pre) (mlen bs) = bs.
Proof.
  unfold fread_at, mlen. rewrite !Nat2Z.id. rewrite drop_app_length. by rewrite take_app_length.
Qed.

(** The header and the bytes of the first packed module *)
Lemma read_module pre md post : module_fits md -> exists hdr,
  fread_at (pre ++ pack_module md ++ post) (mlen pre) 260 = hdr /\
  load32 hdr 0 = Done (mlen md.2) /\ read_str hdr 4 = Done md.1 /\
  fread_at (pre ++ pack_module md ++ post) (mlen pre + 260) (mlen md.2) = md.2.
Proof.
  intros (Hs & Hl & Hd).
  set (hdr := le 4 (mlen md.2) ++ bytes_of md.1 ++ replicate (256 - String.length md.1) 0).
  assert (length hdr = 260%nat) as Hhl.
  { unfold hdr. rewrite !length_app, length_le, length_bytes_of, length_replicate. lia. }
  assert (pre ++ pack_module md ++ post = pre ++ hdr ++ md.2 ++ post) as ->.
  { unfold pack_module, hdr. by rewrite <- !app_assoc. }
  exists hdr. split; [|split; [|split]].
  - change 260 with (Z.of_nat 260). rewrite <- Hhl. apply fread_at_app.
  - pose proof (load_le_le 4 [] (mlen md.2) (bytes_of md.1 ++ replicate (256 - String.length md.1) 0)) as E.
    unfold hdr. etrans; [exact E|]. rewrite Z.mod_small; [done|]. change (256 ^ Z.of_nat 4) with (2 ^ 32).
    unfold mlen in *; lia.
  - unfold read_str, hdr.
    destruct (256 - String.length md.1)%nat as [|z] eqn:Ez; [lia|]. cbn [replicate].
    apply (cstr_bytes md.1 Hs _ (le 4 (mlen md.2)) (replicate z 0)).
    rewrite !length_app, length_bytes_of. lia.
  - rewrite app_assoc. replace (mlen pre + 260) with (mlen (pre ++ hdr))
      by (unfold mlen; rewrite length_app, Hhl; lia). apply fread_at_app.
Qed.

Lemma output_name_spec path out_dir : exists s name,
  output_name path out_dir = Done (Some name) /\ replaced "os0:kd" out_dir path s /\
  replaced ".skprx" ".elf" s name.
Proof.
  destruct (str_replace_spec path "os0:kd" (Some out_dir) ltac:(done)) as (s & E1 & H1).
  destruct (str_replace_spec s ".skprx" (Some ".elf"%string) ltac:(done)) as (name & E2 & H2).
  exists s, name. unfold output_name. rewrite E1. cbn [mbind run_bind]. by rewrite E2.
Qed.

Lemma length_pack_module md : module_fits md -> mlen (pack_module md) = 260 + mlen md.2.
Proof.
  intros (_ & Hl & _). unfold pack_module, mlen.
  rewrite !length_app, length_le, length_bytes_of, length_replicate. lia.
Qed.

Lemma old_loop_spec file out_dir text mods : Forall module_fits mods -> forall fuel pre offset,
  file = pre ++ pack mods -> mlen file < 2 ^ 32 -> 0 <= text -> 0 <= offset ->
  text + offset = mlen pre -> (length mods < fuel)%nat ->
  exists es, old_loop fuel file out_dir text (mlen file) offset = Done es /\
    Forall2 (unpacks out_dir) mods es.
Proof.
  induction 1 as [|md mods Hmd Hmods IH]; intros [|fuel] pre offset Hfile Hlen Ht Ho Hp Hf;
    try (cbn in Hf; lia); cbn [old_loop].
  - rewrite Hfile, app_nil_r, Hp. rewrite Hfile, app_nil_r in Hlen.
    rewrite u32_small by (unfold mlen in *; lia). rewrite Z.ltb_irrefl. by exists [].
  - change (pack (md :: mods)) with (pack_module md ++ pack mods) in Hfile.
    pose proof (length_pack_module md Hmd) as Hpl.
    assert (mlen file = mlen pre + (260 + mlen md.2) + mlen (pack mods)) as Hfl
      by (rewrite Hfile, <- Hpl; unfold mlen; rewrite !length_app; lia).
    assert (0 <= mlen md.2 /\ 0 <= mlen (pack mods)) as [? ?] by (unfold mlen; lia).
    assert (0 <= mlen pre) by (unfold mlen; lia).
    rewrite Hp, (u32_small (mlen pre)) by lia.
    replace (mlen pre <? mlen file) with true by lia.
    destruct (read_module pre md (pack mods) Hmd) as (hdr & E1 & E2 & E3 & E4).
    rewrite <- Hfile in E1, E4.
    unfold sizeof_module_header_old. rewrite E1, E2. cbn [mbind run_bind]. rewrite E3. cbn [mbind run_bind].
    destruct (output_name_spec md.1 out_dir) as (s & name & -> & R1 & R2). cbn [mbind run_bind].
    rewrite E4. unfold extract_to.
    replace (Z.to_nat (mlen md.2)) with (length md.2) by (unfold mlen; lia). rewrite slice_all. cbn [mbind run_bind].
    rewrite u32_small by lia.
    destruct (IH fuel (pre ++ pack_module md) (offset + (260 + mlen md.2))) as (es & -> & Hes).
    + by rewrite <- app_assoc.
    + done.
    + done.
    + lia.
    + rewrite Z.add_assoc, Hp, <- Hpl. unfold mlen. rewrite length_app. lia.
    + cbn in Hf. lia.
    + cbn [mbind run_bind]. eexists. split; [done|]. constructor; [|done]. by exists s, name.
Qed.

(** unpacking inverts packing.  If the old-format part of a boot image,
    from [text_seg_offset + offset] to its end, is the packing of a list of
    modules (paths of less than 256 characters), the loop ends and saves
    exactly these modules, in order, each with its bytes and under its path
    with every "os0:kd" replaced by the output directory and every ".skprx"
    by ".elf"; one unit of fuel per module and one more is enough. *)
Theorem old_loop_unpacks fuel file out_dir text_seg_offset offset pre mods :
  Forall module_fits mods -> file = pre ++ pack mods -> mlen file < 2 ^ 32 ->
  0 <= text_seg_offset -> 0 <= offset -> text_seg_offset + offset = mlen pre ->
  (length mods < fuel)%nat ->
  exists es, old_loop fuel file out_dir text_seg_offset (mlen file) offset = Done es /\
    Forall2 (unpacks out_dir) mods es.
Proof. intros Hm Hfile Hl Ht Ho Hp Hf. by apply (old_loop_spec _ _ _ _ Hm fuel pre). Qed.

(** [str_replace] replaces every occurrence and fits its buffer.  For a
    non-empty [rep] it ends with the string in which all occurrences found
    from the left are replaced (a null [with] counting as the empty string),
    and no write, the NULs of [strcpy] included, leaves the block that was
    sized by counting the occurrences first. *)
Theorem str_replace_correct orig rep with_ : rep <> ""%string ->
  exists r, str_replace (Some orig) (Some rep) with_ = Done (Some r) /\
    replaced rep (default ""%string with_) orig r.
Proof. apply str_replace_spec. Qed.

Definition sample_modules : list (string * mem) :=
  [("os0:kd/acmgr.skprx"%string, [1; 2; 3]); ("os0:kd/a.skprx"%string, [])].

Lemma old_loop_unpacks_witness : exists es,
  old_loop 3 ([7; 7; 7; 7] ++ pack sample_modules) "out" 1 (mlen ([7; 7; 7; 7] ++ pack sample_modules)) 3 =
    Done es /\ Forall2 (unpacks "out") sample_modules es.
Proof.
  apply (old_loop_unpacks 3 _ "out" 1 3 [7; 7; 7; 7] sample_modules); try done; try lia.
  - repeat apply Forall_cons_2; try apply Forall_nil_2; (split; [done|]);
      (split; [cbn; lia|reflexivity]).
  - cbn. lia.
Defined.

Lemma str_replace_correct_witness : exists r,
  str_replace (Some "aXbX"%string) (Some "X"%string) (Some "yz"%string) = Done (Some r) /\
  replaced "X" "yz" "aXbX" r.
Proof. apply (str_replace_correct "aXbX" "X" (Some "yz"%string)). discriminate. Defined.
End BootImage.
Export BootImage.
