(* ===== verification/Atoi.v ===== *)
(** * Decimal numbers read from text ([atoi], [sscanf] with "%d")

    On texts whose value an [int] holds; shared by the applications that let
    the user type a number. *)

From stdpp Require Import prelude strings.
From S2P Require Import Prelude Bytes CString VitaImport.
Import VitaImport.YamlUtil.

(** [atoi] of the C library, for texts whose value an [int] holds *)
Definition atoi (s : string) : Z :=
  let '(neg, t) := take_sign (skip_space s) in
  let '(v, _) := scan_digits 10 t 0 in
  if neg : bool then - v else v.

(** The value of decimal digits *)
Definition decimal (us : list Z) : Z := foldl (fun v u => 10 * v + (u - 48)) 0 us.

Lemma scan_decimal us acc : Forall (fun u => 48 <= u <= 57) us ->
  scan_digits 10 (chars us) acc = (foldl (fun v u => 10 * v + (u - 48)) acc us, EmptyString).
Proof.
  intros H. revert acc. induction H as [|u us Hu _ IH]; intros acc; [done|].
  change (chars (u :: us)) with (String (Ascii.ascii_of_nat (Z.to_nat u)) (chars us)).
  cbn [scan_digits foldl]. cbn in Hu. unfold digit_val, char_code.
  rewrite Ascii.nat_ascii_embedding by lia. rewrite Z2Nat.id by lia.
  replace ((48 <=? u) && (u <=? 57)) with true by lia.
  replace (u - 48 <? 10) with true by lia. rewrite IH. do 3 f_equal. lia.
Qed.

Lemma atoi_decimal us : Forall (fun u => 48 <= u <= 57) us -> atoi (chars us) = decimal us.
Proof.
  intros H. unfold atoi. assert (take_sign (skip_space (chars us)) = (false, chars us)) as ->.
  { destruct H as [|u us Hu _]; [done|].
    change (chars (u :: us)) with (String (Ascii.ascii_of_nat (Z.to_nat u)) (chars us)).
    unfold skip_space, isspace, take_sign, char_code. cbn in Hu.
    rewrite Ascii.nat_ascii_embedding by lia. rewrite Z2Nat.id by lia.
    replace (_ || _) with false by lia. rewrite Ascii.nat_ascii_embedding by lia. rewrite Z2Nat.id by lia.
    by replace (u =? 45) with false by lia; replace (u =? 43) with false by lia. }
  by rewrite scan_decimal.
Qed.
