(* ===== verification/Hoare.v ===== *)
(** * Partial-correctness triples for state-passing code

    [wp_run m Q]: the run [m] does not fault, and a value it ends with
    satisfies [Q]; a run that waits for input it does not get ([OutOfFuel])
    satisfies every [Q].  [triple P m Q] is the same for the state monad
    [SM].  The interactive applications, which run for as long as there is
    input, are specified with these. *)

From stdpp Require Import prelude.
From S2P Require Import Prelude Bytes.

Definition wp_run {A} (m : run A) (Q : A -> Prop) : Prop :=
  match m with Done a => Q a | Fault _ => False | OutOfFuel => True end.

Definition triple {S A} (P : S -> Prop) (m : SM S A) (Q : A -> S -> Prop) : Prop :=
  forall s, P s -> wp_run (m s) (fun '(a, s') => Q a s').

Lemma wp_run_mono {A} (m : run A) (Q Q' : A -> Prop) :
  wp_run m Q -> (forall a, Q a -> Q' a) -> wp_run m Q'.
Proof. destruct m; cbn; auto. Qed.

Lemma wp_run_bind {A B} (m : run A) (f : A -> run B) Q R :
  wp_run m R -> (forall a, R a -> wp_run (f a) Q) -> wp_run (m ≫= f) Q.
Proof. destruct m; cbn; auto. Qed.

Lemma wp_run_ends {A} (m : run A) Q :
  wp_run m Q -> ends m -> exists a, m = Done a /\ Q a.
Proof. destruct m; cbn; [by eauto|done..]. Qed.

Section Triples.
Context {S : Type}.
Implicit Types (P : S -> Prop).

Lemma triple_ret {A} (a : A) P (Q : A -> S -> Prop) :
  (forall s, P s -> Q a s) -> triple P (mret a) Q.
Proof. intros H s Hs. apply H, Hs. Qed.

Lemma triple_bind {A B} (m : SM S A) (f : A -> SM S B) P R Q :
  triple P m R -> (forall a, triple (R a) (f a) Q) -> triple P (m ≫= f) Q.
Proof.
  intros Hm Hf s Hs. specialize (Hm s Hs). unfold mbind, sm_bind.
  destruct (m s) as [[a s']| |]; cbn in *; [by apply Hf|done..].
Qed.

Lemma triple_conseq {A} (m : SM S A) P P' Q Q' :
  triple P m Q -> (forall s, P' s -> P s) -> (forall a s, Q a s -> Q' a s) ->
  triple P' m Q'.
Proof.
  intros H HP HQ s Hs. eapply wp_run_mono; [by apply H, HP|]. intros [a s']. apply HQ.
Qed.

Lemma triple_gets {A} (f : S -> A) P (Q : A -> S -> Prop) :
  (forall s, P s -> Q (f s) s) -> triple P (sm_gets f) Q.
Proof. intros H s Hs. by apply H. Qed.

Lemma triple_modify (f : S -> S) P (Q : unit -> S -> Prop) :
  (forall s, P s -> Q tt (f s)) -> triple P (sm_modify f) Q.
Proof. intros H s Hs. by apply H. Qed.

Lemma triple_lift {A} (m : run A) P (Q : A -> S -> Prop) :
  (forall s, P s -> wp_run m (fun a => Q a s)) -> triple P (sm_lift m) Q.
Proof.
  intros H s Hs. specialize (H s Hs). unfold sm_lift.
  destruct m; cbn in *; done.
Qed.

Lemma triple_if {A} (b : bool) (m m' : SM S A) P Q :
  (b = true -> triple P m Q) -> (b = false -> triple P m' Q) ->
  triple P (if b then m else m') Q.
Proof. destruct b; auto. Qed.

(** A step that keeps an invariant, whatever it returns. *)
Definition keeps {A} (I : S -> Prop) (m : SM S A) : Prop := triple I m (fun _ => I).

Lemma keeps_bind {A B} I (m : SM S A) (f : A -> SM S B) :
  keeps I m -> (forall a, keeps I (f a)) -> keeps I (m ≫= f).
Proof. intros Hm Hf. by eapply triple_bind. Qed.

Lemma keeps_ret {A} I (a : A) : keeps I (mret a).
Proof. by apply triple_ret. Qed.

Lemma keeps_gets {A} I (f : S -> A) : keeps I (sm_gets f).
Proof. by apply triple_gets. Qed.

Lemma keeps_get I : keeps I sm_get.
Proof. by intros s Hs. Qed.

Lemma keeps_modify I (f : S -> S) : (forall s, I s -> I (f s)) -> keeps I (sm_modify f).
Proof. intros H. by apply triple_modify. Qed.

Lemma keeps_if {A} I (b : bool) (m m' : SM S A) :
  keeps I m -> keeps I m' -> keeps I (if b then m else m').
Proof. by destruct b. Qed.
End Triples.

(** A composition that ends: both parts end. *)
Lemma sm_bind_ends {S A B} (m : SM S A) (f : A -> SM S B) s r :
  (m ≫= f) s = Done r -> exists a s1, m s = Done (a, s1) /\ f a s1 = Done r.
Proof.
  unfold mbind, sm_bind. destruct (m s) as [[a s1]| |]; cbn; [by eauto|done..].
Qed.

(** ** Preservation by the steps that end

    Where a step may fault, the invariant is claimed of the states it ends in. *)
Section Preserves.
Context {S : Type}.
Definition preserves {A} (I : S -> Prop) (m : SM S A) : Prop :=
  forall s a s', I s -> m s = Done (a, s') -> I s'.

Lemma preserves_bind {A B} I (m : SM S A) (f : A -> SM S B) :
  preserves I m -> (forall a, preserves I (f a)) -> preserves I (m ≫= f).
Proof.
  intros Hm Hf s b s' Hs (a & s1 & E & E')%sm_bind_ends. by apply (Hf a s1 b s' (Hm s a s1 Hs E)).
Qed.

Lemma preserves_ret {A} I (a : A) : preserves I (mret a).
Proof. by intros s b s' Hs [= <- <-]. Qed.
Lemma preserves_gets {A} I (f : S -> A) : preserves I (sm_gets f).
Proof. by intros s b s' Hs [= <- <-]. Qed.
Lemma preserves_lift {A} I (m : run A) : preserves I (sm_lift m).
Proof. intros s a s' Hs. unfold sm_lift. destruct m; cbn; [by intros [= <- <-]|done..]. Qed.
Lemma preserves_fault {A} I f : preserves (A := A) I (fun _ => Fault f).
Proof. by intros s a s' _ E. Qed.
Lemma preserves_fuel {A} I : preserves (A := A) I (fun _ => OutOfFuel).
Proof. by intros s a s' _ E. Qed.
Lemma preserves_modify I (f : S -> S) : (forall s, I s -> I (f s)) -> preserves I (sm_modify f).
Proof. intros H s a s' Hs [= <- <-]. by apply H. Qed.
Lemma preserves_if {A} I (b : bool) (m m' : SM S A) :
  preserves I m -> preserves I m' -> preserves I (if b then m else m').
Proof. by destruct b. Qed.
End Preserves.

Create HintDb preserves.
#[export] Hint Resolve preserves_ret preserves_gets preserves_lift preserves_fault preserves_fuel : preserves.
Ltac preserves_tac :=
  repeat first
    [ solve [auto with preserves]
    | apply preserves_bind; [|intros ?]
    | apply preserves_if
    | match goal with |- preserves _ (let '(_, _) := ?x in _) => destruct x end
    | match goal with |- preserves _ (match ?x with _ => _ end) => destruct x end ].

Create HintDb keeps.
#[export] Hint Resolve keeps_ret keeps_gets keeps_get : keeps.
(** Follows the structure of a computation; what is left are the steps that
    the hint database [keeps] does not know. *)
Ltac keeps_tac :=
  repeat first
    [ solve [auto with keeps]
    | apply keeps_bind; [|intros ?]
    | apply keeps_if
    | match goal with |- keeps _ (let '(_, _) := ?x in _) => destruct x end
    | match goal with |- keeps _ (match ?x with _ => _ end) => destruct x end ].

(** ** Total steps

    From every state that satisfies [P] the step ends, in a state that
    satisfies [Q]. *)
Section Total.
Context {S : Type}.
Definition total {A} (P : S -> Prop) (m : SM S A) (Q : A -> S -> Prop) : Prop :=
  forall s, P s -> exists a s', m s = Done (a, s') /\ Q a s'.

Lemma total_bind {A B} P R Q (m : SM S A) (f : A -> SM S B) :
  total P m R -> (forall a, total (R a) (f a) Q) -> total P (m ≫= f) Q.
Proof.
  intros Hm Hf s Hs. destruct (Hm s Hs) as (a & s1 & E & H1). rewrite (sm_bind_Done _ _ _ _ _ E).
  by apply (Hf a s1).
Qed.
Lemma total_ret {A} (a : A) (P : S -> Prop) (Q : A -> S -> Prop) :
  (forall s, P s -> Q a s) -> total P (mret a) Q.
Proof. intros H s Hs. exists a, s. split; [done|]. by apply H. Qed.
Lemma total_gets {A} (f : S -> A) (P : S -> Prop) (Q : A -> S -> Prop) :
  (forall s, P s -> Q (f s) s) -> total P (sm_gets f) Q.
Proof. intros H s Hs. exists (f s), s. split; [done|]. by apply H. Qed.
Lemma total_modify (f : S -> S) (P : S -> Prop) (Q : unit -> S -> Prop) :
  (forall s, P s -> Q tt (f s)) -> total P (sm_modify f) Q.
Proof. intros H s Hs. exists tt, (f s). split; [done|]. by apply H. Qed.
Lemma total_if {A} (b : bool) (m m' : SM S A) P Q : total P m Q -> total P m' Q -> total P (if b then m else m') Q.
Proof. by destruct b. Qed.
Lemma total_weaken {A} (P P' : S -> Prop) (m : SM S A) Q Q' : total P m Q ->
  (forall s, P' s -> P s) -> (forall a s, Q a s -> Q' a s) -> total P' m Q'.
Proof. intros H HP HQ s Hs. destruct (H s (HP s Hs)) as (a & s' & E & H'). exists a, s'. auto. Qed.
End Total.
