(* ===== verification/Utf16.v ===== *)
(** * UTF-16 and UTF-8 (settings_app main.c, ShipLog2.0 dialog.c, unity_debug.c)

    The system keyboard works on UTF-16 text.  [utf16_to_utf8] is the
    conversion that three of the programs carry, [utf8_to_utf16] its inverse
    in ShipLog; both write to a caller's array without knowing its size.  The
    reference encodings are those of RFC 3629 and RFC 2781. *)

From stdpp Require Import prelude.
From S2P Require Import Prelude Bytes.

(** ** Arrays *)

Definition unit_at (src : list Z) (i : nat) : run Z :=
  match src !! i with Some u => Done u | None => Fault FMem end.

(** [*(dst++) = v], for elements of the width that [wrap] cuts to *)
Definition put (wrap : Z -> Z) (dst : list Z) (j : nat) (v : Z) : run (list Z) :=
  if (j <? length dst)%nat then Done (<[j := wrap v]> dst) else Fault FMem.

Fixpoint puts (wrap : Z -> Z) (dst : list Z) (j : nat) (vs : list Z) : run (list Z) :=
  match vs with
  | [] => Done dst
  | v :: vs' => dst ← put wrap dst j v; puts wrap dst (S j) vs'
  end.

(** ** Conversions *)

(** The bytes for the unit [u] at [i], and how many units they stand for *)
Definition utf16_char (src : list Z) (i : nat) (u : Z) : run (list Z * nat) :=
  if Z.land u 0xFF80 =? 0 then Done ([Z.land u 0xFF], 1%nat)
  else if Z.land u 0xF800 =? 0 then
    Done ([Z.lor (Z.land (Z.shiftr u 6) 0xFF) 0xC0; Z.lor (Z.land u 0x3F) 0x80], 1%nat)
  else
    pair ← (if Z.land u 0xFC00 =? 0xD800
            then v ← unit_at src (S i); Done (Z.land v 0xFC00 =? 0xDC00)
            else Done false);
    if pair : bool then
      v ← unit_at src (S i);
      Done ([Z.lor (Z.land (Z.shiftr (u + 64) 8) 0x3) 0xF0;
             Z.lor (Z.land (Z.shiftr u 2 + 16) 0x3F) 0x80;
             Z.lor (Z.lor (Z.land (Z.shiftr u 4) 0x30) 0x80) (Z.land (Z.shiftl v 2) 0xF);
             Z.lor (Z.land v 0x3F) 0x80], 2%nat)
    else
      Done ([Z.lor (Z.land (Z.shiftr u 12) 0xF) 0xE0;
             Z.lor (Z.land (Z.shiftr u 6) 0x3F) 0x80;
             Z.lor (Z.land u 0x3F) 0x80], 1%nat).

Fixpoint utf16_loop (fuel : nat) (src : list Z) (i : nat) (dst : mem) (j : nat) : run (mem * nat) :=
  match fuel with
  | O => OutOfFuel
  | S fuel' =>
      u ← unit_at src i;
      if u =? 0 then Done (dst, j)
      else
        '(bs, k) ← utf16_char src i u;
        dst ← puts u8 dst j bs;
        utf16_loop fuel' src (i + k) dst (j + length bs)
  end.

Definition utf16_to_utf8 (src : list Z) (dst : mem) : run mem :=
  '(dst, j) ← utf16_loop (S (length src)) src 0 dst 0;
  put u8 dst j 0.

(** The unit for the bytes from [i] on, and how many bytes it stands for *)
Definition utf8_char (src : mem) (i : nat) (b : Z) : run (Z * nat) :=
  if Z.land b 0xE0 =? 0xE0 then
    b1 ← unit_at src (i + 1); b2 ← unit_at src (i + 2);
    Done (Z.lor (Z.lor (Z.shiftl (Z.land b 0x0F) 12) (Z.shiftl (Z.land b1 0x3F) 6)) (Z.land b2 0x3F), 3%nat)
  else if Z.land b 0xC0 =? 0xC0 then
    b1 ← unit_at src (i + 1);
    Done (Z.lor (Z.shiftl (Z.land b 0x1F) 6) (Z.land b1 0x3F), 2%nat)
  else Done (b, 1%nat).

Fixpoint utf8_loop (fuel : nat) (src : mem) (i : nat) (dst : list Z) (j : nat) : run (list Z * nat) :=
  match fuel with
  | O => OutOfFuel
  | S fuel' =>
      b ← unit_at src i;
      if b =? 0 then Done (dst, j)
      else
        '(u, k) ← utf8_char src i b;
        dst ← put u16 dst j u;
        utf8_loop fuel' src (i + k) dst (S j)
  end.

Definition utf8_to_utf16 (src : mem) (dst : list Z) : run (list Z) :=
  '(dst, j) ← utf8_loop (S (length src)) src 0 dst 0;
  put u16 dst j 0.

(** ** Reference encodings *)

Definition utf8 (cp : Z) : list Z :=
  if cp <? 0x80 then [cp]
  else if cp <? 0x800 then [0xC0 + cp / 64; 0x80 + cp mod 64]
  else if cp <? 0x10000 then [0xE0 + cp / 4096; 0x80 + cp / 64 mod 64; 0x80 + cp mod 64]
  else [0xF0 + cp / 2 ^ 18; 0x80 + cp / 4096 mod 64; 0x80 + cp / 64 mod 64; 0x80 + cp mod 64].

(** A character of the basic plane that is neither NUL nor a surrogate *)
Definition bmp (u : Z) : bool := ((0 <? u) && (u <? 0xD800)) || ((0xE000 <=? u) && (u <? 0x10000)).

Definition utf8_text (us : list Z) : list Z := concat (utf8 <$> us).

(** ** Arrays written from the front *)

Lemma put_at wrap out d v :
  put wrap (out ++ d) (length out) v =
  match d with [] => Fault FMem | _ :: d' => Done (out ++ wrap v :: d') end.
Proof.
  unfold put. rewrite length_app. destruct d as [|x d]; cbn [length].
  - by replace (_ <? _)%nat with false by (symmetry; apply Nat.ltb_ge; lia).
  - replace (_ <? _)%nat with true by (symmetry; apply Nat.ltb_lt; lia).
    rewrite insert_app_r_alt by lia. by rewrite Nat.sub_diag.
Qed.

Lemma puts_at wrap vs out d :
  puts wrap (out ++ d) (length out) vs =
  if (length vs <=? length d)%nat then Done (out ++ (wrap <$> vs) ++ drop (length vs) d)
  else Fault FMem.
Proof.
  revert out d. induction vs as [|v vs IH]; intros out d; cbn [puts length]; [done|].
  rewrite put_at. destruct d as [|x d]; cbn [mbind run_bind]; [done|].
  specialize (IH (out ++ [wrap v]) d). rewrite length_app in IH. cbn [length] in IH.
  rewrite Nat.add_1_r, <- app_assoc in IH. cbn [app] in IH. rewrite IH.
  cbn [Nat.leb drop fmap list_fmap length]. case_match; [|done].
  by rewrite <- app_assoc.
Qed.

Lemma unit_at_app src pre i : unit_at (pre ++ src) (length pre + i) = unit_at src i.
Proof.
  unfold unit_at. rewrite lookup_app_r by lia.
  by replace (length pre + i - length pre)%nat with i by lia.
Qed.

(** ** Single characters

    The conversions of one basic-plane character are checked on all of them. *)

Fixpoint all_below (k : nat) (b : Z) (P : Z -> bool) : bool :=
  match k with
  | O => P b
  | S k' => all_below k' (2 * b) P && all_below k' (2 * b + 1) P
  end.

Lemma all_below_true k b P u :
  all_below k b P = true -> b * 2 ^ Z.of_nat k <= u < (b + 1) * 2 ^ Z.of_nat k -> P u = true.
Proof.
  revert b. induction k as [|k IH]; intros b; cbn [all_below].
  - intros H Hu. rewrite Z.pow_0_r in Hu. by replace u with b by lia.
  - rewrite andb_true_iff, Nat2Z.inj_succ, Z.pow_succ_r by lia. intros [H0 H1] Hu.
    pose proof (Z.pow_pos_nonneg 2 (Z.of_nat k)).
    destruct (Z.lt_ge_cases u ((2 * b + 1) * 2 ^ Z.of_nat k)); [apply (IH _ H0)|apply (IH _ H1)]; lia.
Qed.

(** The bits of [u] from bit [k] up *)
Lemma land_high u k n : 0 <= k <= n -> 0 <= u < 2 ^ n ->
  Z.land u (Z.shiftl (Z.ones (n - k)) k) = 2 ^ k * (u / 2 ^ k).
Proof.
  intros Hk Hu. rewrite <- Z.shiftr_div_pow2, Z.mul_comm, <- Z.shiftl_mul_pow2 by lia.
  apply Z.bits_inj'. intros i Hi. rewrite Z.land_spec, !Z.shiftl_spec by lia.
  destruct (Z.lt_ge_cases i k) as [Hlt|Hge].
  - rewrite (Z.testbit_neg_r (Z.ones _)), (Z.testbit_neg_r (Z.shiftr _ _)) by lia. apply andb_false_r.
  - rewrite Z.shiftr_spec by lia. replace (i - k + k) with i by lia.
    destruct (Z.lt_ge_cases i n).
    + by rewrite Z.ones_spec_low, andb_true_r by lia.
    + by rewrite (testbit_high u n) by lia.
Qed.

Lemma unit_class u k : 0 <= k <= 16 -> 0 <= u < 0x10000 ->
  (Z.land u (Z.shiftl (Z.ones (16 - k)) k) =? 0) = (u <? 2 ^ k).
Proof.
  intros Hk Hu. rewrite land_high by lia. pose proof (Z.pow_pos_nonneg 2 k ltac:(lia) ltac:(lia)).
  destruct (Z.ltb_spec u (2 ^ k)); apply Z.eqb_eq || apply Z.eqb_neq.
  - rewrite Z.div_small; lia.
  - pose proof (Z.div_le_lower_bound u (2 ^ k) 1). nia.
Qed.

(** The tags of the leading and following bytes do not overlap the payload. *)
Definition tags_ok (x : Z) : bool :=
  (Z.lor x 0x80 =? 0x80 + x) && (Z.land (0x80 + x) 0x3F =? x) &&
  implb (x <? 32) ((Z.lor x 0xC0 =? 0xC0 + x) && negb (Z.land (0xC0 + x) 0xE0 =? 0xE0) &&
    (Z.land (0xC0 + x) 0xC0 =? 0xC0) && (Z.land (0xC0 + x) 0x1F =? x)) &&
  implb (x <? 16) ((Z.lor x 0xE0 =? 0xE0 + x) && (Z.land (0xE0 + x) 0xE0 =? 0xE0) &&
    (Z.land (0xE0 + x) 0x0F =? x)).

Lemma tags x : 0 <= x < 64 ->
  Z.lor x 0x80 = 0x80 + x /\ Z.land (0x80 + x) 0x3F = x /\
  (x < 32 -> Z.lor x 0xC0 = 0xC0 + x /\ (Z.land (0xC0 + x) 0xE0 =? 0xE0) = false /\
    (Z.land (0xC0 + x) 0xC0 =? 0xC0) = true /\ Z.land (0xC0 + x) 0x1F = x) /\
  (x < 16 -> Z.lor x 0xE0 = 0xE0 + x /\ (Z.land (0xE0 + x) 0xE0 =? 0xE0) = true /\
    Z.land (0xE0 + x) 0x0F = x).
Proof.
  intros Hx. assert (tags_ok x = true) as H.
  { apply (all_below_true 6 0); [vm_compute; reflexivity|]. change (Z.of_nat 6) with 6. lia. }
  unfold tags_ok in H. lia.
Qed.

Lemma land_3F u : Z.land u 0x3F = u mod 64.
Proof. exact (Z.land_ones u 6 ltac:(done)). Qed.

Lemma ascii_char b : 0 <= b < 128 ->
  (Z.land b 0xE0 =? 0xE0) = false /\ (Z.land b 0xC0 =? 0xC0) = false /\ Z.land b 0xFF = b.
Proof.
  intros Hb.
  assert (negb (Z.land b 0xE0 =? 0xE0) && negb (Z.land b 0xC0 =? 0xC0) && (Z.land b 0xFF =? b) = true) as H.
  { apply (all_below_true 7 0 (fun b => negb (Z.land b 0xE0 =? 0xE0) && negb (Z.land b 0xC0 =? 0xC0)
      && (Z.land b 0xFF =? b))); [vm_compute; reflexivity|]. change (Z.of_nat 7) with 7. lia. }
  lia.
Qed.

Lemma lor_fields x y z : 0 <= x -> 0 <= y < 64 -> 0 <= z < 64 ->
  Z.lor (Z.lor (Z.shiftl x 12) (Z.shiftl y 6)) z = 4096 * x + 64 * y + z /\
  Z.lor (Z.shiftl y 6) z = 64 * y + z.
Proof.
  intros Hx Hy Hz. rewrite !Z.shiftl_mul_pow2 by lia.
  rewrite (lor_mul_pow2 x (y * 2 ^ 6) 12) by lia.
  replace (x * 2 ^ 12 + y * 2 ^ 6) with ((64 * x + y) * 2 ^ 6) by lia.
  rewrite !lor_mul_pow2 by lia. lia.
Qed.

(** The three shapes of a basic-plane character *)
Lemma utf16_char_utf8 u : bmp u = true -> utf16_char [] 0 u = Done (utf8 u, 1%nat).
Proof.
  intros Hu. unfold bmp in Hu. unfold utf16_char, utf8.
  change 0xFF80 with (Z.shiftl (Z.ones (16 - 7)) 7). change 0xF800 with (Z.shiftl (Z.ones (16 - 11)) 11).
  change 0xFC00 with (Z.shiftl (Z.ones (16 - 10)) 10).
  rewrite !unit_class, land_high, !land_3F by lia. change (2 ^ 7) with 0x80. change (2 ^ 11) with 0x800.
  destruct (Z.ltb_spec u 0x80); [by destruct (ascii_char u) as (_ & _ & ->); [lia|]|].
  pose proof (Z.mod_pos_bound u 64 ltac:(lia)) as Hm. destruct (tags (u mod 64) Hm) as [-> _].
  rewrite !Z.shiftr_div_pow2 by lia. change (2 ^ 6) with 64. change (2 ^ 12) with 4096.
  destruct (Z.ltb_spec u 0x800).
  - assert (0 <= u / 64 < 32) as Hd by (Z.to_euclidean_division_equations; lia).
    replace (Z.land (u / 64) 0xFF) with (u / 64).
    + by destruct (tags (u / 64)) as (_ & _ & [-> _] & _); [lia..|].
    + change 0xFF with (Z.ones 8). rewrite Z.land_ones by lia. rewrite Z.mod_small; lia.
  - destruct (Z.eqb_spec (2 ^ 10 * (u / 2 ^ 10)) 0xD800);
      [exfalso; change (2 ^ 10) with 1024 in *; Z.to_euclidean_division_equations; lia|].
    cbn [mbind run_bind]. destruct (Z.ltb_spec u 0x10000); [|lia].
    change 0xF with (Z.ones 4). rewrite Z.land_ones by lia. change (2 ^ 4) with 16.
    assert (0 <= u / 4096 < 16) as Hd by (Z.to_euclidean_division_equations; lia).
    rewrite (Z.mod_small (u / 4096)) by lia.
    destruct (tags (u / 4096)) as (_ & _ & _ & [-> _]); [lia..|].
    by destruct (tags (u / 64 mod 64)) as [-> _]; [apply Z.mod_pos_bound; lia|].
Qed.

Lemma utf8_char_utf8 u : bmp u = true -> exists b bs, utf8 u = b :: bs /\ b <> 0 /\
  Forall (fun x => 0 <= x < 256) (b :: bs) /\
  utf8_char (utf8 u) 0 b = Done (u, length (utf8 u)).
Proof.
  intros Hu. unfold bmp in Hu. unfold utf8_char, utf8.
  pose proof (Z.mod_pos_bound u 64 ltac:(lia)) as Hm.
  destruct (Z.ltb_spec u 0x80).
  { eexists _, _. split_and!; [done|lia|repeat constructor; lia|].
    by destruct (ascii_char u) as (-> & -> & _); [lia|]. }
  destruct (Z.ltb_spec u 0x800).
  - assert (0 <= u / 64 < 32) as Hd by (Z.to_euclidean_division_equations; lia).
    destruct (tags (u / 64)) as (_ & _ & (_ & T1 & T2 & T3) & _); [lia..|].
    eexists _, _. split_and!; [done|lia| |].
    { repeat constructor; lia. }
    rewrite T1, T2. cbn [unit_at lookup list_lookup Nat.add mbind run_bind]. rewrite T3.
    destruct (tags (u mod 64) Hm) as (_ & -> & _).
    destruct (lor_fields 0 (u / 64) (u mod 64)) as [_ ->]; [lia..|].
    do 2 f_equal. Z.to_euclidean_division_equations; lia.
  - destruct (Z.ltb_spec u 0x10000); [|lia].
    assert (0 <= u / 4096 < 16) as Hd by (Z.to_euclidean_division_equations; lia).
    pose proof (Z.mod_pos_bound (u / 64) 64 ltac:(lia)) as Hm2.
    destruct (tags (u / 4096)) as (_ & _ & _ & (_ & T1 & T2)); [lia..|].
    eexists _, _. split_and!; [done|lia| |].
    { repeat constructor; lia. }
    rewrite T1. cbn [unit_at lookup list_lookup Nat.add mbind run_bind]. rewrite T2.
    destruct (tags (u mod 64) Hm) as (_ & -> & _). destruct (tags _ Hm2) as (_ & -> & _).
    destruct (lor_fields (u / 4096) (u / 64 mod 64) (u mod 64)) as [-> _]; [lia..|].
    do 2 f_equal. Z.to_euclidean_division_equations; lia.
Qed.

(** The source is not looked at behind a unit that is no high surrogate. *)
Lemma utf16_char_local src i u bs :
  utf16_char [] 0 u = Done (bs, 1%nat) -> utf16_char src i u = Done (bs, 1%nat).
Proof.
  unfold utf16_char. repeat case_match; cbn [mbind run_bind unit_at]; try done.
Qed.

Lemma utf8_char_local src pre post b r :
  utf8_char src 0 b = Done r -> utf8_char (pre ++ src ++ post) (length pre) b = Done r.
Proof.
  assert (forall k v, unit_at src k = Done v ->
    unit_at (pre ++ src ++ post) (length pre + k) = Done v) as Hu.
  { intros k v. rewrite unit_at_app. unfold unit_at. destruct (src !! k) eqn:E; [|done].
    by rewrite (lookup_app_l_Some _ _ _ _ E). }
  unfold utf8_char. cbn [Nat.add]. repeat case_match; try done.
  - intros E. run_inv. by repeat (erewrite Hu by eassumption; cbn [mbind run_bind]).
  - intros E. run_inv. by repeat (erewrite Hu by eassumption; cbn [mbind run_bind]).
Qed.

Lemma bmp_char u : bmp u = true ->
  u <> 0 /\ (forall src i, utf16_char src i u = Done (utf8 u, 1%nat)) /\
  u8 <$> utf8 u = utf8 u /\ u16 u = u /\
  exists b bs, utf8 u = b :: bs /\ b <> 0 /\
    forall pre post, utf8_char (pre ++ utf8 u ++ post) (length pre) b = Done (u, length (utf8 u)).
Proof.
  intros H. destruct (utf8_char_utf8 u H) as (b & bs & Eb & Hb & Hr & Hc).
  split_and!.
  - unfold bmp in H. lia.
  - intros src i. by apply utf16_char_local, utf16_char_utf8.
  - rewrite Eb. clear -Hr. induction Hr as [|x l Hx _ IH]; [done|]. cbn. by rewrite IH, (u8_small x Hx).
  - apply u16_small. unfold bmp in H. lia.
  - exists b, bs. split_and!; [done..|]. intros pre post. by apply utf8_char_local.
Qed.

(** ** Text *)

Lemma utf16_loop_bmp us fuel pre out d rest :
  Forall (fun u => bmp u = true) us -> (length us < fuel)%nat ->
  utf16_loop fuel (pre ++ us ++ 0 :: rest) (length pre) (out ++ d) (length out) =
  if (length (utf8_text us) <=? length d)%nat
  then Done (out ++ utf8_text us ++ drop (length (utf8_text us)) d,
             (length out + length (utf8_text us))%nat)
  else Fault FMem.
Proof.
  revert fuel pre out d. induction us as [|u us IH]; intros fuel pre out d Hus Hf;
    (destruct fuel as [|fuel]; [cbn in Hf; lia|]); cbn [utf16_loop].
  - rewrite <- (Nat.add_0_r (length pre)) at 1. rewrite unit_at_app.
    cbn. by rewrite drop_0, Nat.add_0_r.
  - apply Forall_cons in Hus as [Hu Hus].
    rewrite <- (Nat.add_0_r (length pre)) at 1. rewrite unit_at_app.
    cbn [app unit_at lookup list_lookup]. cbn [mbind run_bind].
    destruct (bmp_char u Hu) as (Hne & Hc & Hw & _).
    replace (u =? 0) with false by lia. rewrite Hc. cbn [mbind run_bind].
    rewrite puts_at, Hw. unfold utf8_text in *. cbn [fmap list_fmap concat].
    rewrite length_app. destruct (Nat.leb_spec (length (utf8 u)) (length d)) as [Hl|Hl];
      cbn [mbind run_bind].
    + specialize (IH fuel (pre ++ [u]) (out ++ utf8 u) (drop (length (utf8 u)) d) Hus ltac:(cbn in Hf; lia)).
      rewrite !length_app, <- !app_assoc in IH. cbn [app length] in IH. rewrite IH.
      rewrite length_drop, drop_drop, <- !app_assoc, Nat.add_assoc.
      destruct (Nat.leb_spec (length (concat (utf8 <$> us))) (length d - length (utf8 u))),
        (Nat.leb_spec (length (utf8 u) + length (concat (utf8 <$> us))) (length d)); [done|lia|lia|done].
    + destruct (Nat.leb_spec (length (utf8 u) + length (concat (utf8 <$> us))) (length d)); [lia|done].
Qed.

Lemma utf16_to_utf8_spec us rest dst :
  Forall (fun u => bmp u = true) us ->
  utf16_to_utf8 (us ++ 0 :: rest) dst =
  if (length (utf8_text us) <? length dst)%nat
  then Done (utf8_text us ++ 0 :: drop (S (length (utf8_text us))) dst)
  else Fault FMem.
Proof.
  intros Hus. unfold utf16_to_utf8.
  pose proof (utf16_loop_bmp us (S (length (us ++ 0 :: rest))) [] [] dst rest Hus) as E.
  cbn [app length] in E. rewrite E by (rewrite length_app; cbn; lia). clear E.
  destruct (Nat.leb_spec (length (utf8_text us)) (length dst)) as [Hl|Hl]; cbn [mbind run_bind].
  - rewrite Nat.add_0_l, put_at.
    destruct (drop (length (utf8_text us)) dst) as [|x l] eqn:E.
    + apply (f_equal length) in E. rewrite length_drop in E. cbn in E.
      by case_match; [lia|].
    + pose proof (f_equal length E) as El. rewrite length_drop in El. cbn in El.
      case_match; [|lia]. do 2 f_equal. change (u8 0) with 0. f_equal.
      by rewrite <- Nat.add_1_r, <- drop_drop, E.
  - by case_match; [lia|].
Qed.

(** Text of the basic plane becomes its UTF-8 encoding (RFC 3629) with a
    NUL behind it when the destination has room for both; in a smaller
    destination [utf16_to_utf8] writes out of bounds. *)
Theorem utf16_to_utf8_bmp us rest dst :
  Forall (fun u => bmp u = true) us ->
  utf16_to_utf8 (us ++ 0 :: rest) dst =
  if (length (utf8_text us) <? length dst)%nat
  then Done (utf8_text us ++ 0 :: drop (S (length (utf8_text us))) dst)
  else Fault FMem.
Proof. apply utf16_to_utf8_spec. Qed.

Lemma utf8_loop_text us fuel pre out d rest :
  Forall (fun u => bmp u = true) us -> (length us < fuel)%nat -> (length us <= length d)%nat ->
  utf8_loop fuel (pre ++ utf8_text us ++ 0 :: rest) (length pre) (out ++ d) (length out) =
  Done (out ++ us ++ drop (length us) d, (length out + length us)%nat).
Proof.
  revert fuel pre out d. induction us as [|u us IH]; intros fuel pre out d Hus Hf Hd;
    (destruct fuel as [|fuel]; [cbn in Hf; lia|]); cbn [utf8_loop].
  - rewrite <- (Nat.add_0_r (length pre)) at 1. rewrite unit_at_app.
    cbn. by rewrite drop_0, Nat.add_0_r.
  - apply Forall_cons in Hus as [Hu Hus]. destruct d as [|x d]; [cbn in Hd; lia|].
    destruct (bmp_char u Hu) as (_ & _ & _ & Hw & b & bs & Eb & Hb & Hc).
    unfold utf8_text in *. cbn [fmap list_fmap concat]. rewrite <- app_assoc.
    rewrite <- (Nat.add_0_r (length pre)) at 1. rewrite unit_at_app, Eb.
    cbn [app unit_at lookup list_lookup]. cbn [mbind run_bind].
    replace (b =? 0) with false by lia.
    change (b :: bs ++ ?r) with ((b :: bs) ++ r). rewrite <- Eb, Hc. cbn [mbind run_bind].
    rewrite put_at. cbn [mbind run_bind]. rewrite Hw.
    specialize (IH fuel (pre ++ utf8 u) (out ++ [u]) d Hus ltac:(cbn in Hf; lia) ltac:(cbn in Hd; lia)).
    rewrite !length_app, <- !app_assoc, Nat.add_1_r in IH. cbn [app] in IH. rewrite IH.
    cbn [app length drop]. do 2 f_equal. lia.
Qed.

(** C24: Round trip: text of the basic plane that [utf16_to_utf8] converted
    comes back from [utf8_to_utf16] as it was, given arrays with room for it. *)
Theorem utf16_utf8_roundtrip us rest dst dst16 :
  Forall (fun u => bmp u = true) us ->
  (length (utf8_text us) < length dst)%nat -> (length us < length dst16)%nat ->
  exists m, utf16_to_utf8 (us ++ 0 :: rest) dst = Done m /\
    utf8_to_utf16 m dst16 = Done (us ++ 0 :: drop (S (length us)) dst16).
Proof.
  intros Hus Hd Hd16. unfold utf16_to_utf8.
  pose proof (utf16_loop_bmp us (S (length (us ++ 0 :: rest))) [] [] dst rest Hus) as E.
  cbn [app length] in E. rewrite E by (rewrite length_app; cbn; lia). clear E.
  destruct (Nat.leb_spec (length (utf8_text us)) (length dst)) as [_|?]; [|lia].
  cbn [mbind run_bind]. rewrite Nat.add_0_l, put_at.
  destruct (drop (length (utf8_text us)) dst) as [|x l] eqn:El.
  { apply (f_equal length) in El. rewrite length_drop in El. cbn in El. lia. }
  eexists. split; [done|]. unfold utf8_to_utf16.
  pose proof (utf8_loop_text us (S (length (utf8_text us ++ u8 0 :: l))) [] [] dst16 l Hus) as E.
  cbn [app length] in E. change (u8 0) with 0 in *. rewrite E; clear E; [|..|lia].
  - cbn [mbind run_bind]. rewrite Nat.add_0_l, put_at. change (u16 0) with 0.
    destruct (drop (length us) dst16) as [|y l'] eqn:El'.
    + apply (f_equal length) in El'. rewrite length_drop in El'. cbn in El'. lia.
    + do 3 f_equal. by rewrite <- Nat.add_1_r, <- drop_drop, El'.
  - assert (length us <= length (utf8_text us))%nat.
    { clear -Hus. induction us as [|u us IH]; [done|]. apply Forall_cons in Hus as [Hu Hus].
      destruct (bmp_char u Hu) as (_ & _ & _ & _ & b & bs & Eb & _).
      unfold utf8_text. cbn. rewrite length_app, Eb. specialize (IH Hus). unfold utf8_text in IH.
      cbn. lia. }
    rewrite length_app. cbn. lia.
Qed.

(** ** Surrogate pairs *)

Definition pair_ok (x : Z) : bool :=
  let hi := 0xD800 + x in let lo := 0xDC00 + x in
  (Z.lor (Z.land (Z.shiftr (hi + 64) 8) 0x3) 0xF0 =? 0xF0 + (x + 64) / 256 mod 4) &&
  (Z.lor (Z.land (Z.shiftr hi 2 + 16) 0x3F) 0x80 =? 0x80 + (x + 64) / 4 mod 64) &&
  (Z.land (Z.shiftr hi 4) 0x30 =? 16 * (x / 256)) &&
  (Z.land (Z.shiftl lo 2) 0xF =? 4 * (x mod 4)) &&
  (Z.lor (Z.land lo 0x3F) 0x80 =? 0x80 + x mod 64) &&
  negb (Z.land hi 0xFF80 =? 0) && negb (Z.land hi 0xF800 =? 0) &&
  (Z.land hi 0xFC00 =? 0xD800) && (Z.land lo 0xFC00 =? 0xDC00).

Lemma pair_ok_true x : 0 <= x < 1024 -> pair_ok x = true.
Proof. intros Hx. apply (all_below_true 10 0); [vm_compute; reflexivity|]. change (Z.of_nat 10) with 10. lia. Qed.

Lemma third_byte x y : 0 <= x < 4 -> 0 <= y < 4 ->
  Z.lor (Z.lor (16 * x) 0x80) (4 * y) = 0x80 + 16 * x + 4 * y.
Proof.
  intros Hx Hy. assert (x = 0 \/ x = 1 \/ x = 2 \/ x = 3) as [->|[->|[->| ->]]] by lia;
    assert (y = 0 \/ y = 1 \/ y = 2 \/ y = 3) as [->|[->|[->| ->]]] by lia; reflexivity.
Qed.

(** A surrogate pair for the code point [0x10000 + 1024 a + b] gets the
    bytes of its UTF-8 encoding only if the code point is below U+100000, the
    top and bottom two bits of [a] agree, and four times the low two bits of
    [b] are its top four bits: the third byte is put together from the wrong
    bits of both units, and the first keeps only two bits. *)
Theorem utf16_surrogates src i a b :
  0 <= a < 1024 -> 0 <= b < 1024 -> src !! S i = Some (0xDC00 + b) ->
  exists bs, utf16_char src i (0xD800 + a) = Done (bs, 2%nat) /\
    (bs = utf8 (0x10000 + 1024 * a + b) <->
     0x10000 + 1024 * a + b < 0x100000 /\ a / 256 = a mod 4 /\ 4 * (b mod 4) = b / 64).
Proof.
  intros Ha Hb Hs.
  pose proof (pair_ok_true a Ha) as Pa. pose proof (pair_ok_true b Hb) as Pb.
  unfold pair_ok in Pa, Pb. rewrite !andb_true_iff, !negb_true_iff, !Z.eqb_eq, !Z.eqb_neq in Pa, Pb.
  destruct Pa as ((((((((A1 & A2) & A3) & _) & _) & A6) & A7) & A8) & _).
  destruct Pb as ((((((((_ & _) & _) & B4) & B5) & _) & _) & _) & B9).
  unfold utf16_char, unit_at. rewrite Hs.
  replace (Z.land (0xD800 + a) 0xFF80 =? 0) with false by lia.
  replace (Z.land (0xD800 + a) 0xF800 =? 0) with false by lia.
  replace (Z.land (0xD800 + a) 0xFC00 =? 0xD800) with true by lia.
  cbn [mbind run_bind]. replace (Z.land (0xDC00 + b) 0xFC00 =? 0xDC00) with true by lia.
  eexists. split; [done|]. rewrite A1, A2, A3, B4, B5.
  rewrite third_byte by (Z.to_euclidean_division_equations; lia).
  unfold utf8. repeat (case_match; [lia|]).
  assert (forall p q r t p' q' r' t' : Z, [p; q; r; t] = [p'; q'; r'; t'] <->
    p = p' /\ q = q' /\ r = r' /\ t = t') as -> by (intros; split; [by intros [= -> -> -> ->]|by intros (-> & -> & -> & ->)]).
  replace ((0x10000 + 1024 * a + b) / 4096 mod 64) with ((a + 64) / 4 mod 64)
    by (Z.to_euclidean_division_equations; lia).
  replace ((0x10000 + 1024 * a + b) / 64 mod 64) with (16 * (a mod 4) + b / 64)
    by (Z.to_euclidean_division_equations; lia).
  replace ((0x10000 + 1024 * a + b) mod 64) with (b mod 64)
    by (Z.to_euclidean_division_equations; lia).
  replace ((0x10000 + 1024 * a + b) / 2 ^ 18) with ((a + 64) / 256)
    by (Z.to_euclidean_division_equations; lia).
  Z.to_euclidean_division_equations; lia.
Qed.

(** ** Witnesses *)

(** "aé€" *)
Lemma utf16_to_utf8_bmp_witness :
  utf16_to_utf8 ([0x61; 0xE9; 0x20AC] ++ 0 :: [7]) (replicate 8 0xFF) =
  Done ([0x61; 0xC3; 0xA9; 0xE2; 0x82; 0xAC; 0; 0xFF]).
Proof.
  rewrite (utf16_to_utf8_bmp [0x61; 0xE9; 0x20AC] [7] (replicate 8 0xFF));
    [reflexivity|repeat constructor].
Defined.

Lemma utf16_utf8_roundtrip_witness : exists m,
  utf16_to_utf8 ([0x61; 0xE9; 0x20AC] ++ 0 :: [7]) (replicate 8 0xFF) = Done m /\
  utf8_to_utf16 m (replicate 4 1) = Done [0x61; 0xE9; 0x20AC; 0].
Proof.
  apply (utf16_utf8_roundtrip [0x61; 0xE9; 0x20AC] [7] (replicate 8 0xFF) (replicate 4 1));
    [repeat constructor|vm_compute; lia..].
Defined.

(** U+1F600 *)
Lemma utf16_surrogates_witness : exists bs,
  utf16_char [0xD83D; 0xDE00; 0] 0 (0xD800 + 0x3D) = Done (bs, 2%nat) /\
  bs <> utf8 0x1F600.
Proof.
  destruct (utf16_surrogates [0xD83D; 0xDE00; 0] 0 0x3D 0x200) as (bs & E & H);
    [lia|lia|reflexivity|]. exists bs. split; [exact E|].
  intros ->. destruct H as [H _]. destruct (H eq_refl) as (_ & H' & _). discriminate H'.
Defined.
