(* ===== verification/SettingsApp.v ===== *)
(** * The settings application of the logger (settings_app main.c)

    The application edits the configuration of the network logger: a menu
    driven by the pad, two entry fields served by the system keyboard, and
    the exchange of the configuration with a file and with the loaded plugin.
    What the user does is the list of pad samples and of keyboard polls still
    to come; a computation that needs one more than there is waits
    ([OutOfFuel]).  Everything drawn is recorded in [screen]. *)

From stdpp Require Import prelude strings.
From S2P Require Import Prelude Bytes CString Atoi Hoare Utf16 RingBuf LogNet NlmManager.

(** ** System services *)

Class SettingsOs (W : Type) := {
  SCE_CTRL_UP : Z;
  SCE_CTRL_RIGHT : Z;
  SCE_CTRL_DOWN : Z;
  SCE_CTRL_LEFT : Z;
  SCE_CTRL_CIRCLE : Z;
  SCE_COMMON_DIALOG_STATUS_FINISHED : Z;
  SCE_IME_TYPE_NUMBER : Z;
  SCE_IME_TYPE_EXTENDED_NUMBER : Z;
  (** type, longest text *)
  sceImeDialogInit : Z -> Z -> W -> Z * W;
  sceImeDialogTerm : W -> W;
  (** the array of [n] units handed to the keyboard as [inputTextBuffer] *)
  inputTextBuffer : nat -> W -> list Z;
  (** what a fresh array of [n] bytes on the stack holds *)
  stack_bytes : nat -> W -> mem;
  sceNetInetPton : string -> W -> Z * option Z;
  _vshKernelSearchModuleByName : string -> W -> Z;
  (** the two system calls of the plugin; the second returns what it wrote *)
  call_NetLoggingMgrUpdateConfig : mem -> W -> Z * W;
  call_NetLoggingMgrReadConfig : W -> (Z * mem) * W;
  (** result and file size *)
  sceIoGetstat : string -> W -> Z * Z;
  sceIoOpen_read : string -> W -> Z * W;
  (** with [SCE_O_WRONLY | SCE_O_CREAT | SCE_O_TRUNC] *)
  sceIoOpen_create : string -> W -> Z * W;
  sceIoWrite : Z -> mem -> W -> Z * W;
  (** result and the bytes read *)
  sceIoRead : Z -> nat -> W -> (Z * mem) * W;
  sceIoClose : Z -> W -> W;
  scePowerRequestColdReset : W -> Z * W;
  stack_bytes_length n w : length (stack_bytes n w) = n;
  read_config_size w : (length (call_NetLoggingMgrReadConfig w).1.2 <= sizeof_config)%nat;
  sceIoRead_size fd n w : (length (sceIoRead fd n w).1.2 <= n)%nat;
  read_config_bytes w : bytes_ok (call_NetLoggingMgrReadConfig w).1.2;
  sceIoRead_bytes fd n w : bytes_ok (sceIoRead fd n w).1.2;
}.

(** ** State *)

(** Calls of the drawing functions *)
Inductive draw : Set :=
  | PrintAt (x y : Z) (fmt : string) (args : list string)  (** [psvDebugScreenPrintf2] *)
  | Print (fmt : string) (args : list Z)                   (** [psvDebugScreenPrintf] *)
  | Clear                                                  (** [psvDebugScreenClear] *)
  | Sync                                                   (** [psvDebugScreenSet] *)
  | SwapFb.                                                (** [swap_fb] *)

Record app (W : Type) := App {
  press_padd : Z;
  press_key : Z;
  old_press_key : Z;
  menu_text_y : Z;
  Config : mem;            (** [NetLoggingMgrConfig] *)
  samples : list Z;        (** [ctrl.buttons] of the calls of [sceCtrlPeekBufferPositive] to come *)
  polls : list Z;          (** results of the calls of [sceImeDialogGetStatus] to come *)
  screen : list draw;
  os : W;
}.
Arguments App {W}. Arguments press_padd {W}. Arguments press_key {W}. Arguments old_press_key {W}.
Arguments menu_text_y {W}. Arguments Config {W}. Arguments samples {W}. Arguments polls {W}.
Arguments screen {W}. Arguments os {W}.

Definition app_set_pad {W} p k o l (s : app W) : app W :=
  App p k o (menu_text_y s) (Config s) l (polls s) (screen s) (os s).
Definition app_set_text_y {W} y (s : app W) : app W :=
  App (press_padd s) (press_key s) (old_press_key s) y (Config s) (samples s) (polls s) (screen s) (os s).
Definition app_set_Config {W} c (s : app W) : app W :=
  App (press_padd s) (press_key s) (old_press_key s) (menu_text_y s) c (samples s) (polls s) (screen s) (os s).
Definition app_set_polls {W} l (s : app W) : app W :=
  App (press_padd s) (press_key s) (old_press_key s) (menu_text_y s) (Config s) (samples s) l (screen s) (os s).
Definition app_draw {W} d (s : app W) : app W :=
  App (press_padd s) (press_key s) (old_press_key s) (menu_text_y s) (Config s) (samples s) (polls s)
    (screen s ++ [d]) (os s).
Definition app_set_os {W} (w : W) (s : app W) : app W :=
  App (press_padd s) (press_key s) (old_press_key s) (menu_text_y s) (Config s) (samples s) (polls s) (screen s) w.

(** [menu_press_up] to [menu_press_DPad] on the selected line and the scroll
    position, for the buttons just pressed *)
Section Menu.
Context {W : Type} `{!SettingsOs W}.
Implicit Types (padd display_max sel_max : Z) (st : Z * Z).

Definition pressed padd (button : Z) : bool := negb (Z.land padd button =? 0).

Definition menu_press_up padd display_max sel_max st : Z * Z :=
  let '(sel, sel_extra) := st in
  if pressed padd SCE_CTRL_UP then
    if (sel =? 0) && (sel_extra =? 0) then (display_max - 1, sel_max - display_max)
    else if (0 <? sel) && (0 <=? sel_extra) then (sel - 1, sel_extra)
    else (sel, sel_extra - 1)
  else st.

Definition menu_press_down padd display_max sel_max st : Z * Z :=
  let '(sel, sel_extra) := st in
  if pressed padd SCE_CTRL_DOWN then
    if sel =? display_max - 1 then
      if sel + sel_extra <? sel_max - 1 then (sel, sel_extra + 1) else (0, 0)
    else (sel + 1, sel_extra)
  else st.

Definition menu_press_right padd display_max sel_max st : Z * Z :=
  let '(sel, sel_extra) := st in
  if pressed padd SCE_CTRL_RIGHT then
    if sel + 7 <? display_max - 1 then (sel + 7, sel_extra)
    else
      let sel := sel + ((display_max - 1) - sel) in
      (sel, sel_extra + (if sel + sel_extra + 7 <? sel_max - 1 then 7
                         else (sel_max - 1) - (sel + sel_extra)))
  else st.

Definition menu_press_left padd display_max sel_max st : Z * Z :=
  let '(sel, sel_extra) := st in
  if pressed padd SCE_CTRL_LEFT then
    if 0 <? sel - 7 then (sel - 7, sel_extra)
    else (sel - sel, sel_extra - (if 0 <? sel_extra - 7 then 7 else sel_extra))
  else st.

Definition menu_press_DPad padd display_max sel_max st : Z * Z :=
  let '(sel, sel_extra) := st in
  if pressed padd SCE_CTRL_UP then
    if (sel =? 0) && (sel_extra =? 0) then (display_max - 1, sel_max - display_max)
    else if (0 <? sel) && (0 <=? sel_extra) then (sel - 1, sel_extra)
    else (sel, sel_extra - 1)
  else if pressed padd SCE_CTRL_DOWN then
    if sel =? display_max - 1 then
      if sel + sel_extra <? sel_max - 1 then (sel, sel_extra + 1) else (0, 0)
    else (sel + 1, sel_extra)
  else if pressed padd SCE_CTRL_RIGHT then
    if sel + 7 <? display_max - 1 then (sel + 7, sel_extra)
    else
      let sel := sel + ((display_max - 1) - sel) in
      (sel, sel_extra + (if sel + sel_extra + 7 <? sel_max - 1 then 7
                         else (sel_max - 1) - (sel + sel_extra)))
  else if pressed padd SCE_CTRL_LEFT then
    if 0 <? sel - 7 then (sel - 7, sel_extra)
    else (sel - sel, sel_extra - (if 0 <? sel_extra - 7 then 7 else sel_extra))
  else st.
End Menu.

(** ** Operations *)

(** what a menu line runs; [NULL] is [None] *)
Inductive callback : Set :=
  | CbSetServerIPv4 | CbSetServerPort | CbQafSettings | CbUpdateConfig | CbSaveConfig
  | CbPowerRequestColdReset.

Record MenuItem_t : Set := MenuItem {
  text_x : Z; text_y : Z; text : string; item_callback : option callback }.

Definition config_path : string := "ur0:data/NetLoggingMgrConfig.bin".

Section App.
Context {W : Type} `{!SettingsOs W}.
Abbreviation M := (SM (app W)).

Definition os_call {A} (f : W -> A * W) : M A := fun s =>
  let '(a, w) := f (os s) in Done (a, app_set_os w s).
Definition os_call_ (f : W -> W) : M unit := sm_modify (fun s => app_set_os (f (os s)) s).
Definition os_ask {A} (f : W -> A) : M A := sm_gets (fun s => f (os s)).
Definition emit (d : draw) : M unit := sm_modify (app_draw d).

(** [sceCtrlPeekBufferPositive] *)
Definition peek : M Z := fun s =>
  match samples s with
  | b :: l => Done (b, app_set_pad (press_padd s) (press_key s) (old_press_key s) l s)
  | [] => OutOfFuel
  end.

(** [sceImeDialogGetStatus] *)
Definition sceImeDialogGetStatus : M Z := fun s =>
  match polls s with
  | r :: l => Done (r, app_set_polls l s)
  | [] => OutOfFuel
  end.

Definition ReadPad : M unit :=
  b ← peek;
  sm_modify (fun s =>
    let old := press_key s in
    app_set_pad (Z.land b (Z.lxor b old)) b old (samples s) s).

(** each round takes a sample *)
Fixpoint wait_loop (n : nat) : M unit :=
  match n with
  | O => fun _ => OutOfFuel
  | S n' =>
      _ ← ReadPad;
      p ← sm_gets press_padd;
      if p =? 0 then wait_loop n' else mret tt
  end.
Definition WaitKeyPress : M unit := fun s => wait_loop (S (length (samples s))) s.

(** each round takes a poll *)
Fixpoint ime_loop (n : nat) : M Z :=
  match n with
  | O => fun _ => OutOfFuel
  | S n' =>
      ret ← sceImeDialogGetStatus;
      if ret <? 0 then mret ret
      else if ret =? SCE_COMMON_DIALOG_STATUS_FINISHED then mret ret
      else ime_loop n'
  end.

Definition CallImeDialog (type maxTextLength : Z) : M Z :=
  ret ← os_call (sceImeDialogInit type maxTextLength);
  if ret <? 0 then mret ret
  else
    ret ← (fun s => ime_loop (S (length (polls s))) s);
    _ ← os_call_ sceImeDialogTerm;
    mret ret.

(** "please key press", shared by the callbacks *)
Definition wait_end (first : bool) : M unit :=
  _ ← emit (Print "\n" []);
  _ ← emit (Print "please key press\n" []);
  _ ← (if first then ReadPad else mret tt);
  _ ← WaitKeyPress;
  _ ← ReadPad;
  emit SwapFb.

Definition set_Config_field (n : nat) (off v : Z) : M unit :=
  cfg ← sm_gets Config; cfg ← sm_lift (store_le n cfg off v); sm_modify (app_set_Config cfg).
Definition get_Config_field (n : nat) (off : Z) : M Z :=
  cfg ← sm_gets Config; sm_lift (load_le n cfg off).

Definition SetServerPort : M Z :=
  res ← CallImeDialog SCE_IME_TYPE_NUMBER 5;
  ServerPortStr ← os_ask (inputTextBuffer 6);
  ServerPortStrUtf8 ← os_ask (stack_bytes 6);
  ServerPortStrUtf8 ← sm_lift (utf16_to_utf8 ServerPortStr ServerPortStrUtf8);
  _ ← emit Clear; _ ← emit Sync;
  _ ← (if res <? 0 then emit (Print "Error : CallImeDialog failed: %x\n" [res])
       else
         s ← sm_lift (read_str ServerPortStrUtf8 0);
         _ ← set_Config_field 2 off_port (atoi s);
         port ← get_Config_field 2 off_port;
         if (port <? 1) || (0xFFFF <? port) then emit (Print "Error : Invalid Port.\n" [])
         else emit (Print "Set Server Port : Success.\n" []));
  _ ← wait_end true;
  mret res.

Definition SetServerIPv4 : M Z :=
  res ← CallImeDialog SCE_IME_TYPE_EXTENDED_NUMBER 15;
  _ ← emit Clear; _ ← emit Sync;
  res ← (if res <? 0 then _ ← emit (Print "Error : CallImeDialog failed: %x\n" [res]); mret res
       else
         ServerIPv4Str ← os_ask (inputTextBuffer 16);
         ServerIPv4StrUtf8 ← os_ask (stack_bytes 16);
         ServerIPv4StrUtf8 ← sm_lift (utf16_to_utf8 ServerIPv4Str ServerIPv4StrUtf8);
         s ← sm_lift (read_str ServerIPv4StrUtf8 0);
         '(res, addr) ← os_ask (sceNetInetPton s);
         _ ← (match addr with Some a => set_Config_field 4 off_IPv4 a | None => mret tt end);
         _ ← (if negb (res =? 1) then emit (Print "Error : Invalid IPv4.\n" [])
              else emit (Print "Set Server IPv4 : Success.\n" []));
         mret res);
  _ ← wait_end true;
  mret res.

Definition qaf_select (padd sel_max sel : Z) : Z :=
  let sel := if pressed padd SCE_CTRL_UP then if sel =? 0 then sel_max - 1 else sel - 1 else sel in
  if pressed padd SCE_CTRL_DOWN then if sel =? sel_max - 1 then 0 else sel + 1 else sel.

Fixpoint qaf_loop (n : nat) (sel : Z) : M unit :=
  match n with
  | O => fun _ => OutOfFuel
  | S n' =>
      _ ← emit (PrintAt 0 (20 + 10 * sel) "*" []);
      _ ← emit (PrintAt 0 0 "-- Qaf Setting --" []);
      flags ← get_Config_field 4 off_flags;
      _ ← emit (PrintAt 20 20 "kernel debug print : %s"
            [if negb (Z.land flags NLM_CONFIG_FLAGS_BIT_QAF_DEBUG_PRINTF =? 0) then "Enable"%string else "Disable"%string]);
      _ ← emit (PrintAt 20 30 "Back" []);
      _ ← emit Sync; _ ← emit SwapFb; _ ← emit Clear;
      _ ← WaitKeyPress;
      padd ← sm_gets press_padd;
      let sel := qaf_select padd 2 sel in
      if pressed padd SCE_CTRL_CIRCLE then
        if sel =? 0 then
          flags ← get_Config_field 4 off_flags;
          _ ← set_Config_field 4 off_flags (Z.lxor flags NLM_CONFIG_FLAGS_BIT_QAF_DEBUG_PRINTF);
          qaf_loop n' sel
        else if sel =? 2 - 1 then mret tt
        else qaf_loop n' sel
      else qaf_loop n' sel
  end.

Definition QafSettings : M Z :=
  _ ← (fun s => qaf_loop (S (length (samples s))) 0 s);
  _ ← ReadPad;
  mret 0.

Definition UpdateConfig : M Z :=
  _ ← emit Sync;
  res ← os_ask (_vshKernelSearchModuleByName "NetLoggingMgr");
  _ ← (if res <? 0 then emit (Print "Error : NetLoggingMgr not loaded\n" [])
       else
         cfg ← sm_gets Config;
         res ← os_call (call_NetLoggingMgrUpdateConfig cfg);
         if res <? 0 then emit (Print "Update Config Error : 0x%X\n" [res])
         else emit (Print "Update Config Success.\n" []));
  _ ← wait_end false;
  mret 0.

Definition SaveConfig : M Z :=
  _ ← emit Sync;
  fd ← os_call (sceIoOpen_create config_path);
  _ ← (if fd <? 0 then emit (Print "Error : File Open Error, 0x%08X.\n" [fd])
       else
         cfg ← sm_gets Config;
         _ ← os_call (sceIoWrite fd cfg);
         _ ← os_call_ (sceIoClose fd);
         emit (Print "Save Config Success.\n" []));
  _ ← wait_end false;
  mret 0.

(** *** The main menu *)

Definition menu_item_init : M unit := sm_modify (app_set_text_y 20).

(** [vsnprintf(text, 0x70 - 1, ...)] keeps 0x6E characters; the texts hold no
    conversions. *)
Definition add_menu_item (items : list MenuItem_t) (i : nat) (t : string) : M (list MenuItem_t) :=
  match items !! i with
  | None => fun _ => Fault FTable
  | Some it =>
      y ← sm_gets menu_text_y;
      _ ← sm_modify (app_set_text_y (y + 10));
      mret (<[i := MenuItem 20 y (str_take 0x6E t) (item_callback it)]> items)
  end.

Definition set_item_callback (items : list MenuItem_t) (i : nat) (f : option callback) : M (list MenuItem_t) :=
  match items !! i with
  | None => fun _ => Fault FTable
  | Some it => mret (<[i := MenuItem (text_x it) (text_y it) (text it) f]> items)
  end.

Definition menu_texts : list string :=
  ["Set Server IPv4"; "Set Server Port"; "Qaf Settings"; "Update Config"; "Save Config";
   "System Reboot"; "Exit"]%string.
Definition menu_callbacks : list (option callback) :=
  [Some CbSetServerIPv4; Some CbSetServerPort; Some CbQafSettings; Some CbUpdateConfig;
   Some CbSaveConfig; Some CbPowerRequestColdReset; None].

Fixpoint fill {A} (f : list MenuItem_t -> nat -> A -> M (list MenuItem_t)) (items : list MenuItem_t)
    (i : nat) (xs : list A) : M (list MenuItem_t) :=
  match xs with
  | [] => mret items
  | x :: xs' => items ← f items i x; fill f items (S i) xs'
  end.

Definition run_callback (f : callback) : M Z :=
  match f with
  | CbSetServerIPv4 => SetServerIPv4
  | CbSetServerPort => SetServerPort
  | CbQafSettings => QafSettings
  | CbUpdateConfig => UpdateConfig
  | CbSaveConfig => SaveConfig
  | CbPowerRequestColdReset => os_call scePowerRequestColdReset
  end.

Definition item_at (items : list MenuItem_t) (i : Z) : run MenuItem_t :=
  if i <? 0 then Fault FTable
  else match items !! Z.to_nat i with Some it => Done it | None => Fault FTable end.

Fixpoint draw_items (items : list MenuItem_t) (sel_extra : Z) (i : Z) (n : nat) : M unit :=
  match n with
  | O => mret tt
  | S n' =>
      it ← sm_lift (item_at items (i + sel_extra));
      _ ← emit (PrintAt (text_x it) (text_y it - 10 * sel_extra) (text it) []);
      draw_items items sel_extra (i + 1) n'
  end.

Fixpoint menu_loop (n : nat) (items : list MenuItem_t) (display_max sel_max : Z) (st : Z * Z) : M unit :=
  match n with
  | O => fun _ => OutOfFuel
  | S n' =>
      let '(sel, sel_extra) := st in
      let sel_idx := sel + sel_extra in
      _ ← emit (PrintAt 0 (20 + 10 * sel) "*" []);
      _ ← emit (PrintAt 0 0 "-- main menu --" []);
      _ ← draw_items items sel_extra 0 (Z.to_nat display_max);
      _ ← emit Sync; _ ← emit SwapFb; _ ← emit Clear;
      _ ← WaitKeyPress;
      padd ← sm_gets press_padd;
      let st := menu_press_DPad padd display_max sel_max st in
      if pressed padd SCE_CTRL_CIRCLE then
        it ← sm_lift (item_at items sel_idx);
        match item_callback it with
        | Some f => _ ← run_callback f; menu_loop n' items display_max sel_max st
        | None => mret tt
        end
      else menu_loop n' items display_max sel_max st
  end.

Definition menu_items : M (list MenuItem_t) :=
  _ ← menu_item_init;
  items ← fill add_menu_item (replicate 7 (MenuItem 0 0 "" None)) 0 menu_texts;
  fill set_item_callback items 0 menu_callbacks.

Definition MainMenu : M Z :=
  items ← menu_items;
  let sel_max := 7 in
  let display_max := if 52 <? sel_max then 52 else sel_max in
  _ ← ((fun s => menu_loop (S (length (samples s))) items display_max sel_max (0, 0) s) : M unit);
  mret 0.

(** *** Start-up *)

Definition CreateConfigFile : M Z :=
  '(res, st_size) ← os_ask (sceIoGetstat config_path);
  _ ← (if (res <? 0) || negb (u32 st_size =? Z.of_nat sizeof_config) then
         _ ← sm_modify (fun s => app_set_Config (nlm_magic ++ drop 4 (Config s)) s);
         fd ← os_call (sceIoOpen_create config_path);
         cfg ← sm_gets Config;
         _ ← os_call (sceIoWrite fd cfg);
         os_call_ (sceIoClose fd)
       else mret tt);
  mret 0.

(** what a read leaves in the configuration *)
Definition overwrite_Config (bs : mem) : M unit :=
  sm_modify (fun s => app_set_Config (bs ++ drop (length bs) (Config s)) s).

Definition ReadConfig : M Z :=
  res ← os_ask (_vshKernelSearchModuleByName "NetLoggingMgr");
  if 0 <? res then
    '(_, bs) ← os_call call_NetLoggingMgrReadConfig;
    _ ← overwrite_Config bs;
    mret 0
  else
    fd ← os_call (sceIoOpen_read config_path);
    '(_, bs) ← os_call (sceIoRead fd sizeof_config);
    _ ← overwrite_Config bs;
    _ ← os_call_ (sceIoClose fd);
    cfg ← sm_gets Config;
    _ ← (if negb (bool_decide (take 4 cfg = nlm_magic)) then CreateConfigFile else mret 0);
    mret 0.

Definition main : M Z :=
  _ ← CreateConfigFile;
  _ ← ReadConfig;
  _ ← MainMenu;
  mret 0.
End App.

(** ** The menu *)

Section MenuLemmas.
Context {W : Type} `{!SettingsOs W}.

(** The selected line is shown, and the window lies inside the menu. *)
Definition menu_ok (display_max sel_max : Z) (st : Z * Z) : Prop :=
  0 <= st.1 < display_max /\ 0 <= st.2 <= sel_max - display_max.

(** The handler of the whole pad is that of the first button pressed. *)
Lemma menu_press_DPad_handlers padd dm sm st :
  menu_press_DPad padd dm sm st =
  if pressed padd SCE_CTRL_UP then menu_press_up padd dm sm st
  else if pressed padd SCE_CTRL_DOWN then menu_press_down padd dm sm st
  else if pressed padd SCE_CTRL_RIGHT then menu_press_right padd dm sm st
  else menu_press_left padd dm sm st.
Proof.
  unfold menu_press_DPad, menu_press_up, menu_press_down, menu_press_right, menu_press_left.
  destruct st as [sel sel_extra].
  destruct (pressed padd SCE_CTRL_UP); [done|]. destruct (pressed padd SCE_CTRL_DOWN); [done|].
  by destruct (pressed padd SCE_CTRL_RIGHT).
Qed.

Lemma DPad_moves padd dm sm sel extra :
  1 <= dm <= sm -> menu_ok dm sm (sel, extra) ->
  menu_ok dm sm (menu_press_DPad padd dm sm (sel, extra)) /\
  let idx := sel + extra in
  let '(sel', extra') := menu_press_DPad padd dm sm (sel, extra) in
  sel' + extra' =
    if pressed padd SCE_CTRL_UP then (idx - 1) mod sm
    else if pressed padd SCE_CTRL_DOWN then (idx + 1) mod sm
    else if pressed padd SCE_CTRL_RIGHT then
      if sel + 7 <? dm - 1 then idx + 7 else Z.min (dm - 1 + extra + 7) (sm - 1)
    else if pressed padd SCE_CTRL_LEFT then
      if 7 <? sel then idx - 7 else Z.max 0 (extra - 7)
    else idx.
Proof.
  intros Hm [Hs He]. cbn in Hs, He. rewrite menu_press_DPad_handlers.
  unfold menu_ok, menu_press_up, menu_press_down, menu_press_right, menu_press_left.
  destruct (pressed padd SCE_CTRL_UP).
  { case_match; [|case_match]; cbn; (split; [lia|]).
    - replace (sel + extra - 1) with (-1) by lia.
      rewrite <- (Z_mod_plus_full (-1) 1), Z.mod_small; lia.
    - rewrite Z.mod_small; lia.
    - rewrite Z.mod_small; lia. }
  destruct (pressed padd SCE_CTRL_DOWN).
  { case_match; [case_match|]; cbn; (split; [lia|]).
    - rewrite Z.mod_small; lia.
    - replace (sel + extra + 1) with sm by lia. rewrite Z.mod_same; lia.
    - rewrite Z.mod_small; lia. }
  destruct (pressed padd SCE_CTRL_RIGHT).
  { destruct (Z.ltb_spec (sel + 7) (dm - 1)); cbn; [lia|].
    destruct (Z.ltb_spec (sel + (dm - 1 - sel) + extra + 7) (sm - 1)); lia. }
  destruct (pressed padd SCE_CTRL_LEFT); [|cbn; lia].
  destruct (Z.ltb_spec 0 (sel - 7)), (Z.ltb_spec 7 sel); cbn; try lia.
  destruct (Z.ltb_spec 0 (extra - 7)); lia.
Qed.

(** The pad moves the selection as a cursor on the whole menu: up and down
    by one line, wrapping around at the ends, right and left by seven lines or
    to the end of the window, and the window always contains the selection
    and lies inside the menu. *)
Theorem menu_press_DPad_moves padd display_max sel_max sel sel_extra :
  1 <= display_max <= sel_max -> menu_ok display_max sel_max (sel, sel_extra) ->
  menu_ok display_max sel_max (menu_press_DPad padd display_max sel_max (sel, sel_extra)) /\
  let idx := sel + sel_extra in
  let '(sel', sel_extra') := menu_press_DPad padd display_max sel_max (sel, sel_extra) in
  sel' + sel_extra' =
    if pressed padd SCE_CTRL_UP then (idx - 1) mod sel_max
    else if pressed padd SCE_CTRL_DOWN then (idx + 1) mod sel_max
    else if pressed padd SCE_CTRL_RIGHT then
      if sel + 7 <? display_max - 1 then idx + 7
      else Z.min (display_max - 1 + sel_extra + 7) (sel_max - 1)
    else if pressed padd SCE_CTRL_LEFT then
      if 7 <? sel then idx - 7 else Z.max 0 (sel_extra - 7)
    else idx.
Proof. apply DPad_moves. Qed.
End MenuLemmas.

(** ** Safety *)

(** The configuration is a block of sixteen bytes. *)
Definition config_wf (c : mem) : Prop := length c = sizeof_config /\ bytes_ok c.
Definition app_ok {W} (s : app W) : Prop := config_wf (Config s).

Section Safety.
Context {W : Type} `{!SettingsOs W}.

(** What the keyboard leaves in the array of [n] units: ASCII text, with its
    terminator inside the array. *)
Definition keyboard_text (n : nat) (l : list Z) : Prop :=
  exists us rest, l = us ++ 0 :: rest /\ (length us < n)%nat /\ Forall (fun u => 0 < u < 128) us.

Lemma ascii_text us : Forall (fun u => 0 < u < 128) us ->
  Forall (fun u => bmp u = true) us /\ utf8_text us = us /\ Forall (fun u => u <> 0) us.
Proof.
  intros H. split_and!.
  - eapply Forall_impl; [exact H|]. intros u Hu. cbn in Hu. unfold bmp. lia.
  - induction H as [|u us Hu _ IH]; [done|]. unfold utf8_text in *. cbn in Hu |- *. rewrite IH.
    unfold utf8. by replace (u <? 0x80) with true by lia.
  - eapply Forall_impl; [exact H|]. cbn. lia.
Qed.

(** The conversion of such a text into an array of as many bytes, and the
    string read back from it *)
Lemma keyboard_string n us rest dst :
  Forall (fun u => 0 < u < 128) us -> (length us < n)%nat -> length dst = n ->
  exists m, utf16_to_utf8 (us ++ 0 :: rest) dst = Done m /\ read_str m 0 = Done (chars us).
Proof.
  intros Hus Hl Hd. destruct (ascii_text us Hus) as (Hb & Ht & Hz).
  rewrite (utf16_to_utf8_spec us rest dst Hb), Ht.
  destruct (Nat.ltb_spec (length us) (length dst)); [|lia].
  eexists. split; [done|]. by apply read_str_chars.
Qed.

Lemma keeps_os_call {A} (f : W -> A * W) : keeps app_ok (os_call f).
Proof. intros s Hs. unfold os_call. by destruct (f (os s)). Qed.
Lemma keeps_os_call_ (f : W -> W) : keeps app_ok (os_call_ f).
Proof. by apply keeps_modify. Qed.
Lemma keeps_os_ask {A} (f : W -> A) : keeps app_ok (os_ask f).
Proof. apply keeps_gets. Qed.
Lemma keeps_emit d : keeps (S := app W) app_ok (emit d).
Proof. by apply keeps_modify. Qed.
Lemma keeps_peek : keeps (S := app W) app_ok peek.
Proof. intros s Hs. unfold peek. by destruct (samples s). Qed.
Lemma keeps_status : keeps (S := app W) app_ok sceImeDialogGetStatus.
Proof. intros s Hs. unfold sceImeDialogGetStatus. by destruct (polls s). Qed.
Lemma keeps_out_of_fuel {A} : keeps (A := A) (S := app W) app_ok (fun _ => OutOfFuel).
Proof. by intros s Hs. Qed.

Local Hint Resolve keeps_os_call keeps_os_call_ keeps_os_ask keeps_emit keeps_peek keeps_status
  keeps_out_of_fuel : keeps.

Lemma keeps_ReadPad : keeps (S := app W) app_ok ReadPad.
Proof. unfold ReadPad. keeps_tac. by apply keeps_modify. Qed.
Local Hint Resolve keeps_ReadPad : keeps.

Lemma keeps_WaitKeyPress : keeps (S := app W) app_ok WaitKeyPress.
Proof.
  assert (forall n, keeps (S := app W) app_ok (wait_loop n)) as H.
  { induction n as [|n IH]; cbn [wait_loop]; keeps_tac. }
  intros s. exact (H _ s).
Qed.

Lemma keeps_CallImeDialog t n : keeps (S := app W) app_ok (CallImeDialog t n).
Proof.
  assert (forall k, keeps (S := app W) app_ok (ime_loop k)) as H.
  { induction k as [|k IH]; cbn [ime_loop]; keeps_tac. }
  unfold CallImeDialog. keeps_tac. intros s. exact (H _ s).
Qed.
Local Hint Resolve keeps_WaitKeyPress keeps_CallImeDialog : keeps.

Lemma keeps_wait_end b : keeps (S := app W) app_ok (wait_end b).
Proof. unfold wait_end. keeps_tac. Qed.

Lemma keeps_set_field n off v : 0 <= off -> off + Z.of_nat n <= Z.of_nat sizeof_config ->
  keeps (S := app W) app_ok (set_Config_field n off v).
Proof.
  intros H0 Hn s [Hl Hb]; unfold set_Config_field, mbind, sm_bind, sm_gets, sm_lift.
  destruct (store_le_total n (Config s) off v) as [m Hm]; [done|unfold mlen; lia|].
  cbn [mbind run_bind]. rewrite Hm. split; cbn.
  - apply store_le_mlen in Hm. unfold mlen in Hm. lia.
  - by eapply store_le_bytes_ok.
Qed.

Lemma keeps_get_field n off : 0 <= off -> off + Z.of_nat n <= Z.of_nat sizeof_config ->
  keeps (S := app W) app_ok (get_Config_field n off).
Proof.
  intros H0 Hn s [Hl Hb]. unfold get_Config_field, mbind, sm_bind, sm_gets, sm_lift.
  destruct (load_le_total n (Config s) off) as [v Hv]; [done|unfold mlen; lia|].
  cbn [mbind run_bind]. by rewrite Hv.
Qed.

Lemma keeps_overwrite bs : bytes_ok bs -> (length bs <= sizeof_config)%nat ->
  keeps (S := app W) app_ok (overwrite_Config bs).
Proof.
  intros Hbs Hn. apply keeps_modify. intros s [Hl Hb]. split; cbn.
  - rewrite length_app, length_drop. lia.
  - apply Forall_app. split; [done|]. by apply Forall_drop.
Qed.
Local Hint Resolve keeps_wait_end : keeps.
Local Hint Extern 1 (keeps _ (set_Config_field _ _ _)) => apply keeps_set_field; done : keeps.
Local Hint Extern 1 (keeps _ (get_Config_field _ _)) => apply keeps_get_field; done : keeps.

Section Keyboard.
(** After a dialog that was opened and closed again there is text in the
    array; where the one for the port cannot be opened, the array is the
    unset one of the caller, which [SetServerPort] converts all the same. *)
Hypothesis keyboard : forall n w, (0 < n)%nat -> keyboard_text n (inputTextBuffer n (sceImeDialogTerm w)).
Hypothesis unset_port : forall t k w, (sceImeDialogInit t k w).1 < 0 ->
  keyboard_text 6 (inputTextBuffer 6 (sceImeDialogInit t k w).2).

(** The system is in a state in which the array of [n] units holds text. *)
Definition has_text (n : nat) (s : app W) : Prop := app_ok s /\ keyboard_text n (inputTextBuffer n (os s)).

Lemma CallImeDialog_text t k : triple (S := app W) app_ok (CallImeDialog t k) (fun r s =>
  has_text 6 s /\ (0 <= r -> has_text 16 s)).
Proof.
  assert (forall n, keeps (S := app W) app_ok (ime_loop n)) as H.
  { induction n as [|n IH]; cbn [ime_loop]; keeps_tac. }
  intros s Hs. unfold CallImeDialog. unfold mbind at 1, sm_bind at 1, os_call.
  destruct (sceImeDialogInit t k (os s)) as [ret w] eqn:E. destruct (Z.ltb_spec ret 0) as [Hlt|Hge].
  - assert (keyboard_text 6 (inputTextBuffer 6 w)) as Ht.
    { pose proof (unset_port t k (os s)) as Hu. rewrite E in Hu. by apply Hu. }
    cbn. split; [by split|]. lia.
  - match goal with |- wp_run (?m _) _ =>
      assert (triple (S := app W) app_ok m (fun r s => has_text 6 s /\ (0 <= r -> has_text 16 s))) as Hm end.
    { eapply triple_bind; [intros s1; exact (H _ s1)|intros r]. eapply triple_bind.
      - apply (triple_modify _ _ (fun _ s => has_text 6 s /\ has_text 16 s)). intros s1 Hs1.
        split; (split; [done|]); apply keyboard; lia.
      - intros ?. apply triple_ret. intros s1 [? ?]. by split. }
    by apply Hm.
Qed.

(** Drawing and asking leave the text where it is. *)
Lemma keeps_emit_text n d : keeps (has_text n) (emit d).
Proof. apply keeps_modify. by intros s [? ?]. Qed.
Lemma keeps_ask_text {A} n (f : W -> A) : keeps (has_text n) (os_ask f).
Proof. apply keeps_gets. Qed.

(** A conversion of the keyboard's text and the read of the result go
    through. *)
Lemma triple_keyboard {A} n (f : mem -> SM (app W) A) :
  (forall m s, read_str m 0 = Done s -> keeps app_ok (f m)) ->
  triple (has_text n) (l ← os_ask (inputTextBuffer n); d ← os_ask (stack_bytes n);
                m ← sm_lift (utf16_to_utf8 l d); f m) (fun _ => app_ok).
Proof.
  intros Hf s [Hs Ht]. unfold mbind, sm_bind, os_ask, sm_gets, sm_lift. cbv beta iota.
  destruct Ht as (us & rest & -> & Hl & Hus).
  destruct (keyboard_string n us rest _ Hus Hl (stack_bytes_length n (os s))) as (m & -> & Hr).
  exact (Hf m _ Hr s Hs).
Qed.

Lemma keeps_lift_Done {A} (m : run A) a : m = Done a -> keeps (S := app W) app_ok (sm_lift m).
Proof. intros ->. by intros s Hs. Qed.

Lemma keeps_SetServerPort : keeps app_ok SetServerPort.
Proof.
  unfold SetServerPort. eapply triple_bind; [apply CallImeDialog_text|]. intros res.
  eapply triple_conseq; [|intros s [Hs _]; exact Hs|intros a s Hs; exact Hs].
  apply triple_keyboard. intros m str Hm. keeps_tac.
  by eapply keeps_lift_Done.
Qed.

Lemma keeps_SetServerIPv4 : keeps app_ok SetServerIPv4.
Proof.
  unfold SetServerIPv4. eapply triple_bind; [apply CallImeDialog_text|]. intros res.
  destruct (Z.ltb_spec res 0) as [Hlt|Hge].
  - eapply triple_conseq; [|intros s [[Hs _] _]; exact Hs|intros a s Hs; exact Hs].
    match goal with |- triple _ ?m _ => change (keeps (S := app W) app_ok m) end.
    keeps_tac.
  - eapply triple_conseq; [|intros s [_ Hs]; exact (Hs Hge)|intros a s Hs; exact Hs].
    do 2 (eapply triple_bind; [apply keeps_emit_text|intros ?]).
    eapply triple_bind; [|intros ?; apply keeps_bind; [auto with keeps|intros ?; apply keeps_ret]].
    apply triple_keyboard. intros m str Hm. apply keeps_bind; [by eapply keeps_lift_Done|].
    intros ?. keeps_tac.
Qed.

Lemma keeps_QafSettings : keeps app_ok QafSettings.
Proof.
  assert (forall n sel, keeps app_ok (qaf_loop n sel)) as H.
  { induction n as [|n IH]; intros sel; cbn [qaf_loop]; keeps_tac. }
  unfold QafSettings. keeps_tac. intros s. exact (H _ _ s).
Qed.

Lemma keeps_run_callback f : keeps app_ok (run_callback f).
Proof.
  destruct f; cbn [run_callback]; auto using keeps_SetServerIPv4, keeps_SetServerPort, keeps_QafSettings with keeps.
  - unfold UpdateConfig. keeps_tac.
  - unfold SaveConfig. keeps_tac.
Qed.

(** The menu that [MainMenu] builds *)
Definition the_items : list MenuItem_t :=
  zip_with (fun '(i, t) f => MenuItem 20 (20 + 10 * Z.of_nat i) t f)
    (zip (seq 0 7) menu_texts) menu_callbacks.

Lemma menu_items_spec (s : app W) : exists s', menu_items s = Done (the_items, s') /\
  Config s' = Config s /\ samples s' = samples s /\ polls s' = polls s /\ os s' = os s.
Proof. eexists. split; [reflexivity|done]. Qed.

Lemma item_at_total i : 0 <= i < 7 -> exists it, item_at the_items i = Done it.
Proof.
  intros Hi. unfold item_at. destruct (Z.ltb_spec i 0); [lia|].
  destruct (lookup_lt_is_Some_2 the_items (Z.to_nat i)) as [it ->]; [cbn; lia|]. eauto.
Qed.

Lemma keeps_draw_items e i n : 0 <= e -> 0 <= i -> i + Z.of_nat n + e <= 7 ->
  keeps (S := app W) app_ok (draw_items the_items e i n).
Proof.
  revert i. induction n as [|n IH]; intros i He Hi Hn; cbn [draw_items]; [apply keeps_ret|].
  destruct (item_at_total (i + e)) as [it Hit]; [lia|].
  apply keeps_bind; [by eapply keeps_lift_Done|]. intros it'.
  apply keeps_bind; [auto with keeps|]. intros _. apply IH; lia.
Qed.

Lemma keeps_menu_loop n st : menu_ok 7 7 st -> keeps app_ok (menu_loop n the_items 7 7 st).
Proof.
  revert st. induction n as [|n IH]; intros [sel extra] Hst; cbn [menu_loop]; [auto with keeps|].
  destruct Hst as [Hs He]; cbn in Hs, He.
  do 2 (apply keeps_bind; [auto with keeps|intros _]).
  apply keeps_bind; [apply keeps_draw_items; lia|intros _].
  do 4 (apply keeps_bind; [auto with keeps|intros _]).
  apply keeps_bind; [auto with keeps|intros padd].
  assert (menu_ok 7 7 (menu_press_DPad padd 7 7 (sel, extra))) as Hst'.
  { apply DPad_moves; [lia|]. by split. }
  destruct (item_at_total (sel + extra)) as [it Hit]; [lia|].
  apply keeps_if; [|by apply IH].
  apply keeps_bind; [by eapply keeps_lift_Done|]. intros it'.
  destruct (item_callback it'); [|auto with keeps].
  apply keeps_bind; [apply keeps_run_callback|]. intros _. by apply IH.
Qed.

Lemma keeps_CreateConfigFile : keeps (S := app W) app_ok CreateConfigFile.
Proof.
  unfold CreateConfigFile. keeps_tac. apply keeps_modify. intros s [Hl Hb]. split; cbn.
  - by rewrite length_drop, Hl.
  - repeat (apply Forall_cons_2; [lia|]). by apply Forall_drop.
Qed.

Local Hint Resolve keeps_CreateConfigFile : keeps.

Lemma keeps_read_call f :
  (forall w : W, (length (f w).1.2 <= sizeof_config)%nat) -> (forall w, bytes_ok (f w).1.2) ->
  forall B (g : Z * mem -> SM (app W) B),
  (forall r bs, bytes_ok bs -> (length bs <= sizeof_config)%nat -> keeps app_ok (g (r, bs))) ->
  keeps app_ok (x ← os_call f; g x).
Proof.
  intros Hl Hb B g Hg s Hs. unfold mbind, sm_bind, os_call.
  specialize (Hl (os s)). specialize (Hb (os s)). destruct (f (os s)) as [[r bs] w]. cbn in Hl, Hb.
  by apply Hg.
Qed.

Lemma keeps_ReadConfig : keeps app_ok ReadConfig.
Proof.
  unfold ReadConfig. apply keeps_bind; [auto with keeps|]. intros res. apply keeps_if.
  - apply keeps_read_call; [apply read_config_size|apply read_config_bytes|]. intros r bs Hb Hl.
    apply keeps_bind; [by apply keeps_overwrite|]. keeps_tac.
  - apply keeps_bind; [auto with keeps|]. intros fd.
    apply keeps_read_call; [intros; apply sceIoRead_size|intros; apply sceIoRead_bytes|].
    intros r bs Hb Hl. apply keeps_bind; [by apply keeps_overwrite|].
    intros _. keeps_tac.
Qed.

(** C21: The application never goes wrong: whatever the pad says and whatever
    the dialogs and the files return, no input makes it access anything out of
    bounds (the menu, the conversion buffers, the configuration), the
    configuration stays a block of sixteen bytes whatever is read, typed or
    switched, and [main] ends with 0 if it ends.  Of the keyboard it is assumed
    that a dialog that was opened leaves terminated ASCII text in its array
    ([keyboard]), and, where the one for the port cannot be opened, that the
    unset array happens to hold such text ([unset_port]): the code converts
    that array without looking at the result. *)
Theorem main_well_formed s : app_ok s ->
  wp_run (main s) (fun '(r, s') => r = 0 /\ app_ok s').
Proof.
  revert s. change (triple (S := app W) app_ok main (fun r s' => r = 0 /\ app_ok s')).
  unfold main. eapply triple_bind; [apply keeps_CreateConfigFile|intros ?].
  eapply triple_bind; [apply keeps_ReadConfig|intros ?].
  apply (triple_bind _ _ _ (fun _ => app_ok)); [|by intros r s Hs].
  change (keeps (S := app W) app_ok MainMenu).
  intros s Hs. destruct (menu_items_spec s) as (s' & E & Hc & _). unfold MainMenu.
  unfold mbind at 1, sm_bind at 1. rewrite E. cbn [Z.ltb Z.compare Pos.compare Pos.compare_cont].
  assert (app_ok s') as Hs' by (unfold app_ok; by rewrite Hc).
  clear E Hc. revert s' Hs'.
  apply keeps_bind; [|intros _; apply keeps_ret].
  intros s' Hs'. apply (keeps_menu_loop _ (0, 0)); [|done]. by split.
Qed.
End Keyboard.
End Safety.

(** ** What the entries do *)

(** One step of a sequence: by computation, or by an equation *)
Local Ltac step := erewrite sm_bind_Done by reflexivity.
Local Ltac step_by H := rewrite (sm_bind_Done _ _ _ _ _ H).

Section Functional.
Context {W : Type} `{!SettingsOs W}.
Implicit Types s : app W.

(** A call that ended after drawing [ds], leaving the rest of the input *)
Definition drew (ds : list draw) s s' : Prop := screen s' = screen s ++ ds.

Definition end_screen : list draw := [Print "\n" []; Print "please key press\n" []; SwapFb].

Lemma WaitKeyPress_press s b l :
  samples s = b :: l -> Z.land b (Z.lxor b (press_key s)) <> 0 ->
  WaitKeyPress s = Done (tt, app_set_pad (Z.land b (Z.lxor b (press_key s))) b (press_key s) l s).
Proof.
  intros Hs Hb. unfold WaitKeyPress. cbn [wait_loop].
  unfold ReadPad, peek, mbind, sm_bind, sm_modify, sm_gets. rewrite Hs. cbn -[Z.land Z.lxor].
  by replace (_ =? 0) with false by lia.
Qed.

Lemma ReadPad_sample s b l : samples s = b :: l ->
  ReadPad s = Done (tt, app_set_pad (Z.land b (Z.lxor b (press_key s))) b (press_key s) l s).
Proof. intros Hs. unfold ReadPad, peek, mbind, sm_bind, sm_modify. by rewrite Hs. Qed.

(** The pad is read, then a button goes down, then the pad is read again. *)
Lemma wait_end_true s a b c l :
  samples s = a :: b :: c :: l -> Z.land b (Z.lxor b a) <> 0 ->
  exists s', wait_end true s = Done (tt, s') /\ drew end_screen s s' /\
    Config s' = Config s /\ os s' = os s /\ samples s' = l.
Proof.
  intros Hs Hb. unfold wait_end, emit, sm_modify, mbind, sm_bind.
  rewrite (ReadPad_sample _ a (b :: c :: l)) by exact Hs.
  rewrite (WaitKeyPress_press _ b (c :: l)) by done. cbn [press_key app_set_pad].
  rewrite (ReadPad_sample _ c l) by done. eexists. split; [done|].
  unfold drew, end_screen. cbn. by rewrite <- !app_assoc.
Qed.

Lemma wait_end_false s b c l :
  samples s = b :: c :: l -> Z.land b (Z.lxor b (press_key s)) <> 0 ->
  exists s', wait_end false s = Done (tt, s') /\ drew end_screen s s' /\
    Config s' = Config s /\ os s' = os s /\ samples s' = l.
Proof.
  intros Hs Hb. unfold wait_end, emit, sm_modify, mbind, sm_bind, mret, sm_ret.
  rewrite (WaitKeyPress_press _ b (c :: l)) by done.
  rewrite (ReadPad_sample _ c l) by done. eexists. split; [done|].
  unfold drew, end_screen. cbn. by rewrite <- !app_assoc.
Qed.

(** The keyboard was shown and closed. *)
Lemma CallImeDialog_finished s t n r w pl :
  sceImeDialogInit t n (os s) = (r, w) -> 0 <= r -> 0 <= SCE_COMMON_DIALOG_STATUS_FINISHED ->
  polls s = SCE_COMMON_DIALOG_STATUS_FINISHED :: pl ->
  CallImeDialog t n s = Done (SCE_COMMON_DIALOG_STATUS_FINISHED,
    app_set_os (sceImeDialogTerm w) (app_set_polls pl (app_set_os w s))).
Proof.
  intros Hi Hr Hf Hp. unfold CallImeDialog, os_call, os_call_, sm_modify, mbind, sm_bind.
  rewrite Hi. replace (r <? 0) with false by lia. cbn [polls app_set_os]. rewrite Hp.
  cbn [length ime_loop]. unfold sceImeDialogGetStatus, mbind, sm_bind. cbn [polls app_set_os].
  rewrite Hp. replace (_ <? 0) with false by lia. by rewrite Z.eqb_refl.
Qed.

Lemma set_field_Done s n off v :
  app_ok s -> 0 <= off -> off + Z.of_nat n <= Z.of_nat sizeof_config ->
  exists cfg, set_Config_field n off v s = Done (tt, app_set_Config cfg s) /\
    load_le n cfg off = Done (v mod 256 ^ Z.of_nat n) /\ config_wf cfg.
Proof.
  intros [Hl Hb] H0 Hn.
  destruct (store_le_total n (Config s) off v) as [cfg Hc]; [done|unfold mlen; lia|].
  exists cfg. split_and!.
  - unfold set_Config_field, mbind, sm_bind, sm_gets, sm_lift. cbn [mbind run_bind]. by rewrite Hc.
  - by eapply load_le_store_le_same.
  - split; [|by eapply store_le_bytes_ok]. apply store_le_mlen in Hc. unfold mlen in Hc. lia.
Qed.

Lemma get_field_Done s n off v :
  load_le n (Config s) off = Done v -> get_Config_field n off s = Done (v, s).
Proof.
  intros H. unfold get_Config_field, mbind, sm_bind, sm_gets, sm_lift. cbn [mbind run_bind]. by rewrite H.
Qed.

Lemma lift_Done {A} (m : run A) a s : m = Done a -> sm_lift m s = Done (a, s).
Proof. by intros ->. Qed.

(** A port of decimal digits typed into the keyboard is stored modulo
    2^16 and accepted unless that is 0: the check against [UINT16_MAX] looks
    at the 16-bit field and never fails, so that 65537 becomes port 1. *)
Theorem SetServerPort_wraps s r w pl us rest a b c l :
  app_ok s ->
  sceImeDialogInit SCE_IME_TYPE_NUMBER 5 (os s) = (r, w) -> 0 <= r ->
  0 <= SCE_COMMON_DIALOG_STATUS_FINISHED ->
  polls s = SCE_COMMON_DIALOG_STATUS_FINISHED :: pl ->
  inputTextBuffer 6 (sceImeDialogTerm w) = us ++ 0 :: rest ->
  Forall (fun u => 48 <= u <= 57) us -> (length us <= 5)%nat ->
  samples s = a :: b :: c :: l -> Z.land b (Z.lxor b a) <> 0 ->
  exists s', SetServerPort s = Done (SCE_COMMON_DIALOG_STATUS_FINISHED, s') /\
    load16 (Config s') off_port = Done (decimal us mod 2 ^ 16) /\
    drew ([Clear; Sync; Print (if decimal us mod 2 ^ 16 =? 0 then "Error : Invalid Port.\n"
                               else "Set Server Port : Success.\n") []] ++ end_screen) s s'.
Proof.
  intros Hok Hi Hr Hf Hp Hin Hus Hl Hsm Hb.
  assert (Forall (fun u => 0 < u < 128) us) as Hus'.
  { eapply Forall_impl; [exact Hus|]. cbn. lia. }
  destruct (keyboard_string 6 us rest (stack_bytes 6 (sceImeDialogTerm w)) Hus' ltac:(lia)
    (stack_bytes_length _ _)) as (m & Hm & Hrd).
  set (s0 := app_set_os (sceImeDialogTerm w) (app_set_polls pl (app_set_os w s))).
  destruct (set_field_Done (app_draw Sync (app_draw Clear s0)) 2 off_port (decimal us) Hok)
    as (cfg & Hset & Hload & Hwf); [done..|].
  change (256 ^ Z.of_nat 2) with (2 ^ 16) in Hload.
  pose proof (Z.mod_pos_bound (decimal us) (2 ^ 16) ltac:(lia)) as Hmod.
  unfold SetServerPort.
  step_by (CallImeDialog_finished s _ _ r w pl Hi Hr Hf Hp). fold s0.
  do 2 step. cbn [os s0 app_set_os] in Hm |- *. rewrite Hin. step_by (lift_Done _ _ s0 Hm). do 2 step.
  set (s1 := app_draw Sync (app_draw Clear s0)) in *.
  set (msg := if decimal us mod 2 ^ 16 =? 0 then "Error : Invalid Port.\n"%string
              else "Set Server Port : Success.\n"%string).
  match goal with |- context[(?m ≫= _) _] =>
    assert (m s1 = Done (tt, app_draw (Print msg []) (app_set_Config cfg s1))) as Hin2 end.
  { replace (_ <? 0) with false by lia. step_by (lift_Done _ _ s1 Hrd).
    rewrite atoi_decimal by done. step_by Hset.
    step_by (get_field_Done (app_set_Config cfg s1) 2 off_port _ Hload).
    replace ((decimal us mod 2 ^ 16 <? 1) || (0xFFFF <? decimal us mod 2 ^ 16))
      with (decimal us mod 2 ^ 16 =? 0) by lia.
    unfold msg. by destruct (decimal us mod 2 ^ 16 =? 0). }
  step_by Hin2.
  destruct (wait_end_true (app_draw (Print msg []) (app_set_Config cfg s1)) a b c l)
    as (s' & Hw & Hd & Hc & _); [exact Hsm|exact Hb|].
  step_by Hw. exists s'. split; [done|]. split; [by rewrite Hc|].
  unfold drew in *. rewrite Hd. cbn. by rewrite <- !app_assoc.
Qed.
End Functional.

(** ** The application and the plugin

    The system call runs the handler of the plugin ([NlmManager]) on the
    application's memory. *)

Section Plugin.
Context {W : Type} `{!SettingsOs W} {K W0 : Type} `{!KernelSync K, !NlmKernel W0}.
Implicit Types s : app W.
(** the state of the plugin, and the address of the configuration *)
Variables (logger : W -> nlm K W0) (addr : Z).
Hypothesis syscall : forall cfg w, exists res w',
  call_NetLoggingMgrUpdateConfig cfg w = (res, w') /\
  (config_ok (logger w) -> length cfg = sizeof_config ->
   (forall n old w0, (n <= sizeof_config)%nat -> exists w1,
      ksceKernelMemcpyUserToKernel addr n old w0 = (0, take n cfg, w1)) ->
   NetLoggingMgrUpdateConfig addr (logger w) = Done (res, logger w')).

(** C22: "Update Config" hands the edited configuration to the loaded plugin:
    with the right magic the logger then runs with exactly this configuration
    and sends to its address and port; with another magic it keeps its own,
    and the application reports the error. *)
Theorem UpdateConfig_reaches_logger s b c l :
  app_ok s -> config_ok (logger (os s)) ->
  0 <= _vshKernelSearchModuleByName "NetLoggingMgr" (os s) ->
  SCE_KERNEL_ERROR_ILLEGAL_TYPE (W := W0) < 0 ->
  (forall n old w0, (n <= sizeof_config)%nat -> exists w1,
     ksceKernelMemcpyUserToKernel addr n old w0 = (0, take n (Config s), w1)) ->
  samples s = b :: c :: l -> Z.land b (Z.lxor b (press_key s)) <> 0 ->
  exists s', UpdateConfig s = Done (0, s') /\ Config s' = Config s /\
    if bool_decide (take 4 (Config s) = nlm_magic)
    then drew ([Sync; Print "Update Config Success.\n" []] ++ end_screen) s s' /\
         NetLoggingMgrConfig (logger (os s')) = Config s /\
         server_matches (Config s) (server (logger (os s')))
    else drew ([Sync; Print "Update Config Error : 0x%X\n" [SCE_KERNEL_ERROR_ILLEGAL_TYPE (W := W0)]]
               ++ end_screen) s s' /\
         NetLoggingMgrConfig (logger (os s')) = NetLoggingMgrConfig (logger (os s)) /\
         server (logger (os s')) = server (logger (os s)).
Proof.
  intros [Hlen Hby] Hlog Hsearch Herr Hmem Hsm Hb.
  destruct (syscall (Config s) (os s)) as (res & w' & Hcall & Hrun).
  specialize (Hrun Hlog Hlen Hmem).
  destruct (update_config_correct (logger (os s)) addr (Config s) Hlog Hlen Hmem) as (res' & g' & E & Hg).
  rewrite Hrun in E. injection E as -> <-.
  set (ok := bool_decide (take 4 (Config s) = nlm_magic)) in *.
  set (msg := if ok then Print "Update Config Success.\n" []
              else Print "Update Config Error : 0x%X\n" [SCE_KERNEL_ERROR_ILLEGAL_TYPE (W := W0)]).
  set (s1 := app_set_os w' (app_draw Sync s)).
  unfold UpdateConfig. do 2 step.
  match goal with |- context[(?m ≫= _) _] =>
    assert (m (app_draw Sync s) = Done (tt, app_draw msg s1)) as Hin end.
  { replace (_ <? 0) with false by (symmetry; apply Z.ltb_ge; exact Hsearch). step.
    assert (os_call (call_NetLoggingMgrUpdateConfig (Config s)) (app_draw Sync s) = Done (res', s1)) as Ho
      by (unfold os_call; cbn [os app_draw]; by rewrite Hcall).
    step_by Ho. unfold msg. destruct ok; destruct Hg as (-> & _).
    - reflexivity.
    - by replace (_ <? 0) with true by lia. }
  step_by Hin.
  destruct (wait_end_false (app_draw msg s1) b c l) as (s' & Hw & Hd & Hc & Hos & _); [exact Hsm|exact Hb|].
  step_by Hw. exists s'. split; [done|]. split; [by rewrite Hc|]. rewrite Hos. cbn [os app_draw s1 app_set_os].
  unfold drew in *. rewrite Hd. unfold msg. destruct ok.
  - destruct Hg as (_ & Hg1 & Hg2). split; [|by split]. cbn. by rewrite <- !app_assoc.
  - destruct Hg as (_ & Hg1 & Hg2). split; [|by split]. cbn. by rewrite <- !app_assoc.
Qed.
End Plugin.

(** ** The configuration file *)

(** A disk on which the file exists and calls do not fail. *)
Class ConfigDisk (W : Type) `{!SettingsOs W} := {
  disk : W -> mem;
  not_loaded w : _vshKernelSearchModuleByName "NetLoggingMgr" w <= 0;
  getstat_disk w : 0 <= (sceIoGetstat config_path w).1 /\ (sceIoGetstat config_path w).2 = mlen (disk w);
  open_read_disk w : 0 <= (sceIoOpen_read config_path w).1 /\ disk (sceIoOpen_read config_path w).2 = disk w;
  open_create_disk w : 0 <= (sceIoOpen_create config_path w).1 /\ disk (sceIoOpen_create config_path w).2 = [];
  write_disk fd bs w : bytes_ok bs -> disk w = [] -> disk (sceIoWrite fd bs w).2 = bs;
  read_disk fd n w : (sceIoRead fd n w).1.2 = take n (disk w) /\ disk (sceIoRead fd n w).2 = disk w;
  close_disk fd w : disk (sceIoClose fd w) = disk w;
}.

Section Disk.
Context {W : Type} `{!SettingsOs W, !ConfigDisk W}.
Implicit Types s : app W.

(** What the start-up reads of a file of the right size *)
Lemma ReadConfig_disk s : app_ok s -> length (disk (os s)) = sizeof_config ->
  exists s', ReadConfig s = Done (0, s') /\ Config s' = disk (os s) /\ disk (os s') = disk (os s).
Proof.
  intros [Hlen _] Hd. unfold ReadConfig. step.
  replace (0 <? _) with false by (symmetry; apply Z.ltb_ge, not_loaded).
  destruct (open_read_disk (os s)) as [_ Hd1].
  destruct (sceIoOpen_read config_path (os s)) as [fd w1] eqn:E1. cbn [snd] in Hd1.
  assert (os_call (sceIoOpen_read config_path) s = Done (fd, app_set_os w1 s)) as Ho
    by (unfold os_call; by rewrite E1). step_by Ho.
  destruct (read_disk fd sizeof_config w1) as [Hr Hd2].
  destruct (sceIoRead fd sizeof_config w1) as [[r bs] w2] eqn:E2. cbn [fst snd] in Hr, Hd2.
  assert (os_call (sceIoRead fd sizeof_config) (app_set_os w1 s) = Done (r, bs, app_set_os w2 (app_set_os w1 s))) as Hrd
    by (unfold os_call; cbn [os app_set_os]; by rewrite E2). step_by Hrd. clear Ho Hrd.
  do 3 step. cbn [Config app_set_Config app_set_os].
  assert (bs ++ drop (length bs) (Config s) = disk (os s)) as ->.
  { rewrite Hr, Hd1, take_ge by lia. rewrite drop_ge, app_nil_r; [done|]. lia. }
  set (s2 := app_set_os _ _).
  assert (disk (os s2) = disk (os s)) as Hs2.
  { unfold s2. cbn. by rewrite close_disk, Hd2, Hd1. }
  assert (exists x, (if negb (bool_decide (take 4 (disk (os s)) = nlm_magic)) then CreateConfigFile else mret 0) s2
    = Done (x, s2)) as [x Hx].
  { case_bool_decide; [by eexists|]. cbn [negb]. unfold CreateConfigFile.
    destruct (getstat_disk (os s2)) as [Hg1 Hg2].
    destruct (sceIoGetstat config_path (os s2)) as [res sz] eqn:Eg. cbn [fst snd] in Hg1, Hg2.
    assert (os_ask (sceIoGetstat config_path) s2 = Done ((res, sz), s2)) as Ha
      by (unfold os_ask, sm_gets; by rewrite Eg). step_by Ha.
    replace (_ || _) with false; [eexists; reflexivity|].
    rewrite Hg2, Hs2. unfold mlen. rewrite Hd. by replace (res <? 0) with false by lia. }
  step_by Hx. eexists. split; [done|]. by split.
Qed.

(** A configuration file of the right size with a wrong magic is never
    repaired: [ReadConfig] sees the magic and calls [CreateConfigFile], which
    looks at the size only and leaves the file and the configuration as they
    are, so that the logger rejects every later update. *)
Theorem ReadConfig_keeps_bad_magic s :
  app_ok s -> length (disk (os s)) = sizeof_config -> take 4 (disk (os s)) <> nlm_magic ->
  exists s', ReadConfig s = Done (0, s') /\ disk (os s') = disk (os s) /\
    take 4 (Config s') <> nlm_magic.
Proof.
  intros Hs Hd Hm. destruct (ReadConfig_disk s Hs Hd) as (s' & E & Hc & Hd').
  exists s'. by rewrite Hc.
Qed.

(** Round trip through the file: what "Save Config" wrote is the
    configuration of the application at its next start, whatever it held
    before. *)
Theorem SaveConfig_ReadConfig_roundtrip s b c l s2 :
  app_ok s -> samples s = b :: c :: l -> Z.land b (Z.lxor b (press_key s)) <> 0 -> app_ok s2 ->
  exists s1, SaveConfig s = Done (0, s1) /\
    exists s3, (_ ← CreateConfigFile; ReadConfig) (app_set_os (os s1) s2) = Done (0, s3) /\
      Config s3 = Config s.
Proof.
  intros Hs Hsm Hb Hs2. unfold SaveConfig. step.
  destruct (open_create_disk (os s)) as [Hfd Hd1].
  destruct (sceIoOpen_create config_path (os s)) as [fd w1] eqn:E1. cbn [fst snd] in Hfd, Hd1.
  assert (os_call (sceIoOpen_create config_path) (app_draw Sync s) = Done (fd, app_set_os w1 (app_draw Sync s))) as Ho
    by (unfold os_call; cbn [os app_draw]; by rewrite E1). step_by Ho.
  replace (fd <? 0) with false by lia.
  pose proof (write_disk fd (Config s) w1 (proj2 Hs) Hd1) as Hd2.
  destruct (sceIoWrite fd (Config s) w1) as [r w2] eqn:E2. cbn [snd] in Hd2.
  match goal with |- context[(?m ≫= _) (app_set_os w1 _)] =>
    assert (m (app_set_os w1 (app_draw Sync s)) = Done (tt, app_draw (Print "Save Config Success.\n" [])
      (app_set_os (sceIoClose fd w2) (app_set_os w2 (app_set_os w1 (app_draw Sync s)))))) as Hin end.
  { step. cbn [Config app_set_os app_draw].
    assert (os_call (sceIoWrite fd (Config s)) (app_set_os w1 (app_draw Sync s)) =
      Done (r, app_set_os w2 (app_set_os w1 (app_draw Sync s)))) as Hw
      by (unfold os_call; cbn [os app_set_os]; by rewrite E2). by step_by Hw. }
  step_by Hin. clear Hin Ho.
  destruct (wait_end_false (app_draw (Print "Save Config Success.\n" [])
      (app_set_os (sceIoClose fd w2) (app_set_os w2 (app_set_os w1 (app_draw Sync s))))) b c l)
    as (s1 & Hw & _ & _ & Hos & _); [exact Hsm|exact Hb|].
  step_by Hw. exists s1. split; [done|].
  assert (disk (os s1) = Config s) as Hd3 by (rewrite Hos; cbn; by rewrite close_disk).
  assert (CreateConfigFile (app_set_os (os s1) s2) = Done (0, app_set_os (os s1) s2)) as Hcr.
  { unfold CreateConfigFile. destruct (getstat_disk (os s1)) as [Hg1 Hg2].
    destruct (sceIoGetstat config_path (os s1)) as [res sz] eqn:Eg. cbn [fst snd] in Hg1, Hg2.
    assert (os_ask (sceIoGetstat config_path) (app_set_os (os s1) s2) = Done ((res, sz), app_set_os (os s1) s2)) as Ha
      by (unfold os_ask, sm_gets; cbn [os app_set_os]; by rewrite Eg). step_by Ha.
    replace (_ || _) with false; [reflexivity|].
    rewrite Hg2, Hd3. destruct Hs as [Hl _]. unfold mlen. rewrite Hl. by replace (res <? 0) with false by lia. }
  step_by Hcr.
  destruct (ReadConfig_disk (app_set_os (os s1) s2)) as (s3 & E & Hc & _).
  - exact Hs2.
  - cbn [os app_set_os]. rewrite Hd3. by destruct Hs.
  - exists s3. split; [exact E|]. rewrite Hc. exact Hd3.
Qed.
End Disk.

(** ** A concrete system *)

Module SimOs.
Import SimKernel SimNlm.

(** The configuration file, the text being typed and the plugin *)
Record desk := Desk { d_file : mem; d_text : list Z; d_plugin : nlm simk simw }.

Definition byte_list (l : list Z) : list Z := filter (fun b => 0 <= b < 256) l.
Definition typed (n : nat) (w : desk) : list Z := take (n - 1) (filter (fun u => 0 < u < 128) (d_text w)).

Lemma byte_list_ok l : bytes_ok (byte_list l).
Proof. apply Forall_forall. by intros b [? _]%list_elem_of_filter. Qed.

Lemma sim_read_length n l : (length (take n l : mem) <= n)%nat.
Proof. rewrite length_take. lia. Qed.

Definition run_plugin (w : desk) : Z * desk :=
  match NetLoggingMgrUpdateConfig 0 (d_plugin w) with
  | Done (r, g) => (r, Desk (d_file w) (d_text w) g)
  | _ => (0, w)
  end.

#[export] Instance sim_os : SettingsOs desk := {|
  SCE_CTRL_UP := 0x10;
  SCE_CTRL_RIGHT := 0x20;
  SCE_CTRL_DOWN := 0x40;
  SCE_CTRL_LEFT := 0x80;
  SCE_CTRL_CIRCLE := 0x2000;
  SCE_COMMON_DIALOG_STATUS_FINISHED := 2;
  SCE_IME_TYPE_NUMBER := 2;
  SCE_IME_TYPE_EXTENDED_NUMBER := 3;
  sceImeDialogInit _ _ w := (0, w);
  sceImeDialogTerm w := w;
  inputTextBuffer n w := typed n w ++ [0];
  stack_bytes n _ := replicate n 0xAA;
  sceNetInetPton s _ := if bool_decide (s = "127.0.0.1"%string) then (1, Some 0x0100007F) else (0, None);
  _vshKernelSearchModuleByName _ _ := 0;
  call_NetLoggingMgrUpdateConfig _ w := run_plugin w;
  call_NetLoggingMgrReadConfig w := ((0, []), w);
  sceIoGetstat _ w := (0, mlen (byte_list (d_file w)));
  sceIoOpen_read _ w := (3, w);
  sceIoOpen_create _ w := (3, Desk [] (d_text w) (d_plugin w));
  sceIoWrite _ bs w := (mlen bs, Desk bs (d_text w) (d_plugin w));
  sceIoRead _ n w := ((0, take n (byte_list (d_file w))), w);
  sceIoClose _ w := w;
  scePowerRequestColdReset w := (0, w);
  stack_bytes_length n _ := length_replicate n 0xAA;
  read_config_size _ := Nat.le_0_l _;
  sceIoRead_size _ n w := sim_read_length n (byte_list (d_file w));
  read_config_bytes _ := List.Forall_nil _;
  sceIoRead_bytes _ n w := Forall_take _ n _ (byte_list_ok (d_file w));
|}.

Lemma sim_keyboard n (w : desk) : (0 < n)%nat -> keyboard_text n (inputTextBuffer n (sceImeDialogTerm w)).
Proof.
  intros Hn. exists (typed n w), []. split; [done|]. unfold typed. split.
  - rewrite length_take. lia.
  - apply Forall_take, Forall_forall. by intros b [? _]%list_elem_of_filter.
Qed.

(** In this system every dialog can be opened. *)
Lemma sim_unset t k (w : desk) : (sceImeDialogInit t k w).1 < 0 ->
  keyboard_text 6 (inputTextBuffer 6 (sceImeDialogInit t k w).2).
Proof. cbn. lia. Qed.

Lemma sim_syscall cfg (w : desk) : exists res w',
  call_NetLoggingMgrUpdateConfig cfg w = (res, w') /\
  (config_ok (d_plugin w) -> length cfg = sizeof_config ->
   (forall n old w0, (n <= sizeof_config)%nat -> exists w1,
      ksceKernelMemcpyUserToKernel 0 n old w0 = (0, take n cfg, w1)) ->
   NetLoggingMgrUpdateConfig 0 (d_plugin w) = Done (res, d_plugin w')).
Proof.
  change (call_NetLoggingMgrUpdateConfig cfg w) with (run_plugin w). unfold run_plugin.
  destruct (NetLoggingMgrUpdateConfig 0 (d_plugin w)) as [[r g]|f|] eqn:E.
  - eexists _, _. split; [done|]. by intros.
  - eexists _, _. split; [done|]. intros Hc Hl Hm.
    destruct (update_config_correct _ _ _ Hc Hl Hm) as (? & ? & E' & _). congruence.
  - eexists _, _. split; [done|]. intros Hc Hl Hm.
    destruct (update_config_correct _ _ _ Hc Hl Hm) as (? & ? & E' & _). congruence.
Qed.

Lemma byte_list_id l : bytes_ok l -> byte_list l = l.
Proof.
  unfold byte_list. induction 1 as [|b l Hb _ IH]; [done|].
  rewrite filter_cons. case_decide; [by rewrite IH|done].
Qed.

#[export] Instance sim_disk : ConfigDisk desk.
Proof.
  refine {| disk w := byte_list (d_file w) |}; try done.
  intros fd bs w Hbs _. by apply byte_list_id.
Defined.

(** Port "65537" is being typed; the pad is released, pressed, released. *)
Definition sitting (file cfg : mem) : app desk :=
  App 0 0 0 20 cfg [0; 0x2000; 0] [0; 2] [] (Desk file [54; 53; 53; 51; 55] unloaded).
Definition sitting_shown (file cfg : mem) : app desk := app_set_polls [2] (sitting file cfg).
Definition sitting_pressed (file cfg : mem) : app desk :=
  app_set_pad 0 0 0 [0x2000; 0] (sitting file cfg).
End SimOs.
Import SimKernel SimNlm SimOs.

Lemma menu_press_DPad_moves_witness :
  menu_ok 7 9 (menu_press_DPad (W := desk) 0x40 7 9 (6, 1)) /\
  let '(sel', extra') := menu_press_DPad (W := desk) 0x40 7 9 (6, 1) in sel' + extra' = 8.
Proof.
  destruct (menu_press_DPad_moves (W := desk) 0x40 7 9 6 1) as [H1 H2]; [lia|split; cbn; lia|].
  split; [exact H1|]. vm_compute. reflexivity.
Defined.

Lemma main_well_formed_witness :
  wp_run (main (sitting [] (replicate 16 0))) (fun '(r, s') => r = 0 /\ app_ok s').
Proof.
  apply (main_well_formed sim_keyboard sim_unset).
  split; [reflexivity|repeat constructor; cbn; lia].
Defined.

Lemma SetServerPort_wraps_witness : exists s',
  SetServerPort (sitting_shown [] sample_config) = Done (2, s') /\
  load16 (Config s') off_port = Done 1.
Proof.
  destruct (SetServerPort_wraps (sitting_shown [] sample_config) 0 (Desk [] [54; 53; 53; 51; 55] unloaded) []
    [54; 53; 53; 51; 55] [] 0 0x2000 0 []) as (s' & E & H & _);
    [split; [reflexivity|repeat constructor; cbn; lia]|reflexivity|lia|cbn; lia|reflexivity|reflexivity
    |repeat constructor; lia|cbn; lia|reflexivity|discriminate|].
  exists s'. split; [exact E|exact H].
Defined.

Lemma UpdateConfig_reaches_logger_witness : exists s',
  UpdateConfig (sitting_pressed [] sample_config) = Done (0, s') /\
  server_matches sample_config (server (d_plugin (os s'))).
Proof.
  destruct (UpdateConfig_reaches_logger d_plugin 0 sim_syscall (sitting_pressed [] sample_config)
    0x2000 0 []) as (s' & E & _ & H);
    [split; [reflexivity|repeat constructor; cbn; lia]|reflexivity|cbn; lia|cbn; lia|exact sample_readable
    |reflexivity|discriminate|].
  exists s'. split; [exact E|]. exact (proj2 (proj2 H)).
Defined.

Definition bad_file : mem := replicate 16 7.

Lemma ReadConfig_keeps_bad_magic_witness : exists s',
  ReadConfig (sitting bad_file (replicate 16 0)) = Done (0, s') /\ take 4 (Config s') <> nlm_magic.
Proof.
  destruct (ReadConfig_keeps_bad_magic (sitting bad_file (replicate 16 0))) as (s' & E & _ & H);
    [split; [reflexivity|repeat constructor; cbn; lia]|reflexivity|discriminate|].
  exists s'. split; [exact E|exact H].
Defined.

Lemma SaveConfig_ReadConfig_roundtrip_witness : exists s1 s3,
  SaveConfig (sitting_pressed bad_file sample_config) = Done (0, s1) /\
  (_ ← CreateConfigFile; ReadConfig) (app_set_os (os s1) (sitting [] (replicate 16 0))) = Done (0, s3) /\
  Config s3 = sample_config.
Proof.
  destruct (SaveConfig_ReadConfig_roundtrip (sitting_pressed bad_file sample_config) 0x2000 0 []
    (sitting [] (replicate 16 0))) as (s1 & E1 & s3 & E3 & H);
    [split; [reflexivity|repeat constructor; cbn; lia]|reflexivity|discriminate
    |split; [reflexivity|repeat constructor; cbn; lia]|].
  exists s1, s3. split; [exact E1|]. split; [exact E3|exact H].
Defined.
