(* ===== verification/IoPlus.v ===== *)
(** * ioPlus (ioPlus-0.2 and ioPlus-0.1, ioplus.c)

    Kernel plugins that retry failed file operations of user programs with
    kernel rights.  Version 0.2 remembers the virtual device behind a
    decrypted mount point ("PD...") and opens "iop-decrypt:" paths through
    it; version 0.1 redirects overlays.  A path is the list of its bytes
    without the NUL. *)

From stdpp Require Import prelude strings.
From S2P Require Import Prelude Bytes CString ImageExtract Hoare.

(** ** Kernel services: the hooked functions and the file calls *)

Class IoKernel (W : Type) := {
  (** [TAI_CONTINUE] of the hook on [ksceIoOpenForPid]: process, path, flag, mode *)
  continue_open : Z -> mem -> Z -> Z -> W -> Z * W;
  (** of the hook on the path conversion: process, path; the result and the
      converted path *)
  continue_convert : Z -> Z -> mem -> Z -> W -> (Z * mem) * W;
  (** of the hook on [_sceIoOpen], which is defined but not installed *)
  continue_sceIoOpen : mem -> Z -> Z -> W -> Z * W;
  continue_mkdir : mem -> Z -> W -> Z * W;
  continue_rmdir : mem -> W -> Z * W;
  continue_remove : mem -> W -> Z * W;
  ksceIoOpen : mem -> Z -> Z -> W -> Z * W;
  ksceIoGetstat : mem -> W -> Z * W;
  ksceKernelGetProcessId : W -> Z;
  ksceKernelCreateUserUid : Z -> Z -> W -> Z * W;
  ksceIoMkdir : mem -> Z -> W -> Z * W;
  ksceIoRmdir : mem -> W -> Z * W;
  ksceIoRemove : mem -> W -> Z * W;
  (** the string copied from user memory into a buffer of the given size *)
  ksceKernelStrncpyUserToKernel : mem -> nat -> W -> mem * W;
  ENTER_SYSCALL : W -> W;
  EXIT_SYSCALL : W -> W;
  (** NID of the hooked function *)
  taiHookFunctionExportForKernel : Z -> W -> Z * W;
  taiHookReleaseForKernel : Z -> W -> W;
}.

Definition MAX_DEVICES : nat := 10.
Definition DECRYPT_KEYWORD : mem := bytes_of "iop-decrypt:".
Definition HOOKS_NUMBER : nat := 6.
(** [sizeof(pd_name)], [sizeof(v_name)], [sizeof(new_path)] and [sizeof(k_path)] *)
Definition name_size : nat := 18.
Definition path_size : nat := 128.

Record PdDevice : Set := Device { pd_name : mem; v_name : mem; name_len : Z; pid : Z }.

Record ioplus (W : Type) := IoPlus {
  devices : list PdDevice;
  hooks_uid : list Z;
  kernel : W;
}.
Arguments IoPlus {W}. Arguments devices {W}. Arguments hooks_uid {W}. Arguments kernel {W}.

Definition no_device : PdDevice := Device (replicate name_size 0) (replicate name_size 0) 0 0.
Definition ioplus_static {W} (w : W) : ioplus W :=
  IoPlus (replicate MAX_DEVICES no_device) (replicate HOOKS_NUMBER 0) w.

(** ** Strings *)

Definition colon : Z := 58.

(** [strchr(s, c)] as an index; a null result may not be used further *)
Fixpoint strchr (s : mem) (c : Z) : run nat :=
  match s with
  | [] => Fault FNull
  | b :: s' => if b =? c then Done 0%nat else i ← strchr s' c; Done (S i)
  end.

(** [memcmp(buf, s, n) == 0] for a buffer of the struct *)
Definition memcmp_eq (buf : mem) (s : mem) (n : nat) : run bool :=
  b ← slice buf 0 n; Done (bool_decide (b = take n s)).

(** ** Operations *)

Section IoPlus.
Context {W : Type} `{!IoKernel W}.
Abbreviation M := (SM (ioplus W)).

Definition io_set_devices d (s : ioplus W) : ioplus W := IoPlus d (hooks_uid s) (kernel s).
Definition io_set_hooks h (s : ioplus W) : ioplus W := IoPlus (devices s) h (kernel s).
Definition kcall {A} (f : W -> A * W) : M A := fun s =>
  let '(a, w) := f (kernel s) in Done (a, IoPlus (devices s) (hooks_uid s) w).
Definition kcall_ (f : W -> W) : M unit := fun s =>
  Done (tt, IoPlus (devices s) (hooks_uid s) (f (kernel s))).

Definition clear_len (d : PdDevice) : PdDevice := Device (pd_name d) (v_name d) 0 (pid d).

(** the "garbage collector": devices whose mount point is gone are dropped *)
Fixpoint collect (i n : nat) : M unit :=
  match n with
  | O => mret tt
  | S n' =>
      ds ← sm_gets devices;
      match ds !! i with
      | None => fun _ => Fault FTable
      | Some d =>
          fd ← kcall (ksceIoGetstat (until_nul (pd_name d)));
          _ ← (if fd <? 0 then sm_modify (fun s => io_set_devices (<[i := clear_len d]> (devices s)) s) else mret tt);
          collect (S i) n'
      end
  end.

(** [memcpy] of the device name and [strncat] of the rest into [new_path] *)
Definition decrypt_path (d : PdDevice) (filename : mem) : run mem :=
  v ← slice (v_name d) 0 (Z.to_nat (name_len d));
  k ← strchr filename colon;
  let rest := take (path_size - 1) (drop (S k) filename) in
  if (length (until_nul v) + length rest <? path_size)%nat then Done (until_nul v ++ rest) else Fault FMem.

Fixpoint try_devices (i n : nat) (filename : mem) (flag mode ret : Z) : M Z :=
  match n with
  | O => mret ret
  | S n' =>
      ds ← sm_gets devices;
      match ds !! i with
      | None => fun _ => Fault FTable
      | Some d =>
          if name_len d =? 0 then try_devices (S i) n' filename flag mode ret
          else
            new_path ← sm_lift (decrypt_path d filename);
            ret ← kcall (continue_open (pid d) new_path flag mode);
            if 0 <=? ret then mret ret else try_devices (S i) n' filename flag mode ret
      end
  end.

Definition ksceIoOpenForPid_patched (pid : Z) (filename : mem) (flag mode : Z) : M Z :=
  _ ← kcall_ ENTER_SYSCALL;
  _ ← collect 0 MAX_DEVICES;
  ret ← kcall (continue_open pid filename flag mode);
  ret ← (if ret <? 0 then
           ret ← kcall (ksceIoOpen filename flag mode);
           if (ret <? 0) && bool_decide (take (length DECRYPT_KEYWORD) filename = DECRYPT_KEYWORD)
           then try_devices 0 MAX_DEVICES filename flag mode ret
           else mret ret
         else mret ret);
  _ ← kcall_ EXIT_SYSCALL;
  mret ret.

(** the hooks that retry with a kernel call *)
Definition _sceIoOpen_patched (filename : mem) (flag mode : Z) : M Z :=
  _ ← kcall_ ENTER_SYSCALL;
  ret ← kcall (continue_sceIoOpen filename flag mode);
  ret ← (if ret <? 0 then
           k_path ← kcall (ksceKernelStrncpyUserToKernel filename path_size);
           ret ← kcall (ksceIoOpen k_path flag mode);
           if 0 <=? ret then
             pid ← sm_gets (fun s => ksceKernelGetProcessId (kernel s));
             kcall (ksceKernelCreateUserUid pid ret)
           else mret ret
         else mret ret);
  _ ← kcall_ EXIT_SYSCALL;
  mret ret.

Definition _sceIoMkdir_patched (dirname : mem) (mode : Z) : M Z :=
  _ ← kcall_ ENTER_SYSCALL;
  ret ← kcall (continue_mkdir dirname mode);
  ret ← (if ret <? 0 then
           k_path ← kcall (ksceKernelStrncpyUserToKernel dirname path_size);
           kcall (ksceIoMkdir k_path mode)
         else mret ret);
  _ ← kcall_ EXIT_SYSCALL;
  mret ret.

Definition _sceIoRmdir_patched (dirname : mem) : M Z :=
  _ ← kcall_ ENTER_SYSCALL;
  ret ← kcall (continue_rmdir dirname);
  ret ← (if ret <? 0 then
           k_path ← kcall (ksceKernelStrncpyUserToKernel dirname path_size);
           kcall (ksceIoRmdir k_path)
         else mret ret);
  _ ← kcall_ EXIT_SYSCALL;
  mret ret.

Definition _sceIoRemove_patched (filename : mem) : M Z :=
  _ ← kcall_ ENTER_SYSCALL;
  ret ← kcall (continue_remove filename);
  ret ← (if ret <? 0 then
           k_path ← kcall (ksceKernelStrncpyUserToKernel filename path_size);
           kcall (ksceIoRemove k_path)
         else mret ret);
  _ ← kcall_ EXIT_SYSCALL;
  mret ret.

(** The search for a slot.  The second [if] of the body has no [else]: it runs
    for every slot. *)
Fixpoint find_slot (i n : nat) (new_path : mem) (pd_len : nat) (currentSlot : Z) : M Z :=
  match n with
  | O => mret currentSlot
  | S n' =>
      ds ← sm_gets devices;
      match ds !! i with
      | None => fun _ => Fault FTable
      | Some d =>
          currentSlot ←
            (if negb (name_len d =? 0) then
               eq ← sm_lift (memcmp_eq (pd_name d) new_path (pd_len - 1));
               mret (if eq : bool then -2 else currentSlot)
             else mret currentSlot);
          let currentSlot := if currentSlot =? -1 then Z.of_nat i else currentSlot in
          find_slot (S i) n' new_path pd_len currentSlot
      end
  end.

Definition store_device (pid : Z) (old_path new_path : mem) (device_len pd_len : nat) (d : PdDevice) : run PdDevice :=
  v ← blit (v_name d) 0 (take device_len old_path);
  p ← blit (pd_name d) 0 (take pd_len new_path);
  p ← store8 p (Z.of_nat pd_len) 0;
  v ← store8 v (Z.of_nat device_len) 0;
  Done (Device p v (Z.of_nat device_len) (u32 pid)).

Definition SceFios2KernelForDriver_0F456345 (pid r2 : Z) (old_path : mem) (r5 : Z) : M Z :=
  _ ← kcall_ ENTER_SYSCALL;
  '(ret, new_path) ← kcall (continue_convert pid r2 old_path r5);
  _ ← (if bool_decide (take 2 new_path = bytes_of "PD") then
         k ← sm_lift (strchr old_path colon);
         j ← sm_lift (strchr new_path colon);
         let device_len := S k in let pd_len := S j in
         currentSlot ← find_slot 0 MAX_DEVICES new_path pd_len (-1);
         if 0 <=? currentSlot then
           ds ← sm_gets devices;
           match ds !! Z.to_nat currentSlot with
           | None => fun _ => Fault FTable
           | Some d =>
               d ← sm_lift (store_device pid old_path new_path device_len pd_len d);
               sm_modify (io_set_devices (<[Z.to_nat currentSlot := d]> ds))
           end
         else mret tt
       else mret tt);
  _ ← kcall_ EXIT_SYSCALL;
  mret ret.

(** The functions hooked, by NID; the first hook is commented out. *)
Definition hook_nids : list Z := [0x8F1ACC32; 0xFFFB4D76; 0x78955C65; 0xC3D34965; 0x0F456345].

Fixpoint hook_all (i : nat) (nids : list Z) : M unit :=
  match nids with
  | [] => mret tt
  | nid :: nids' =>
      uid ← kcall (taiHookFunctionExportForKernel nid);
      _ ← sm_modify (fun s => io_set_hooks (<[i := uid]> (hooks_uid s)) s);
      hook_all (S i) nids'
  end.
Definition module_start : M unit := hook_all 1 hook_nids.

Fixpoint release_all (uids : list Z) : M unit :=
  match uids with
  | [] => mret tt
  | uid :: uids' =>
      _ ← (if 0 <=? uid then kcall_ (taiHookReleaseForKernel uid) else mret tt);
      release_all uids'
  end.
Definition module_stop : M unit := uids ← sm_gets hooks_uid; release_all uids.

(** *** Version 0.1 *)

(** [sizeof(overlay->dst)] and [sizeof(overlay->src)] *)
Definition overlay_size : nat := 292.

(** [dst] and [src] of the overlay before, [src] of the overlay passed on *)
Definition overlay_patched (dst src : mem) : mem :=
  if bool_decide (take 8 src = bytes_of "invalid:") then strncpy dst overlay_size else src.
End IoPlus.

(** ** The table of devices *)

Section Table.
Context {W : Type} `{!IoKernel W}.
Implicit Types s : ioplus W.

(** No slot but the first is in use. *)
Definition first_only s : Prop :=
  length (devices s) = MAX_DEVICES /\ forall i d, devices s !! S i = Some d -> name_len d = 0.

Lemma preserves_kcall {A} (f : W -> A * W) : preserves first_only (kcall f).
Proof. intros s a s' Hs. unfold kcall. destruct (f (kernel s)). by intros [= <- <-]. Qed.
Lemma preserves_kcall_ (f : W -> W) : preserves first_only (kcall_ f).
Proof. by intros s a s' Hs [= <- <-]. Qed.
Local Hint Resolve preserves_kcall preserves_kcall_ : preserves.

Lemma first_only_insert s i d :
  first_only s -> i = 0%nat \/ name_len d = 0 -> first_only (io_set_devices (<[i := d]> (devices s)) s).
Proof.
  intros [Hl H] Hd. split; cbn; [by rewrite length_insert|]. intros j d' Hj.
  destruct (decide (i = S j)) as [->|Hne].
  - rewrite list_lookup_insert_eq in Hj by (apply lookup_lt_Some in Hj; rewrite length_insert in Hj; lia).
    destruct Hd; congruence.
  - rewrite list_lookup_insert_ne in Hj by done. by apply (H j).
Qed.

Lemma preserves_collect i n : preserves first_only (collect i n).
Proof.
  revert i. induction n as [|n IH]; intros i; cbn [collect]; [auto with preserves|].
  preserves_tac. apply preserves_modify. intros s Hs. apply first_only_insert; [done|by right].
Qed.

Lemma preserves_try i n filename flag mode ret :
  preserves first_only (try_devices i n filename flag mode ret).
Proof.
  revert i ret. induction n as [|n IH]; intros i ret; cbn [try_devices]; preserves_tac.
Qed.

Lemma preserves_find i n new_path pd_len c : preserves first_only (find_slot i n new_path pd_len c).
Proof. revert i c. induction n as [|n IH]; intros i c; cbn [find_slot]; preserves_tac. Qed.
Local Hint Resolve preserves_collect preserves_try preserves_find : preserves.

(** Behind a slot the search has settled on, free slots change nothing. *)
Lemma find_slot_settled i n new_path pd_len c s :
  c <> -1 -> (0 < i)%nat -> first_only s -> (i + n <= MAX_DEVICES)%nat ->
  find_slot i n new_path pd_len c s = Done (c, s).
Proof.
  revert i. induction n as [|n IH]; intros i Hc Hi Hs Hn; cbn [find_slot]; [done|].
  destruct Hs as [Hl H]. unfold mbind at 1, sm_bind at 1, sm_gets at 1.
  destruct (lookup_lt_is_Some_2 (devices s) i) as [d Hd]; [lia|]. rewrite Hd.
  destruct i as [|i]; [lia|]. rewrite (H i d Hd). cbn [negb Z.eqb mbind sm_bind].
  unfold mbind, sm_bind, mret, sm_ret. replace (c =? -1) with false by lia.
  apply IH; [done|lia|by split|lia].
Qed.

(** The search ends on the first slot, or finds the mount point there. *)
Lemma find_slot_first new_path pd_len s r s' :
  first_only s -> find_slot 0 MAX_DEVICES new_path pd_len (-1) s = Done (r, s') ->
  s' = s /\ exists d, devices s !! 0%nat = Some d /\
    ((r = 0 /\ (name_len d = 0 \/ memcmp_eq (pd_name d) new_path (pd_len - 1) = Done false)) \/
     (r = -2 /\ name_len d <> 0 /\ memcmp_eq (pd_name d) new_path (pd_len - 1) = Done true)).
Proof.
  intros Hs. assert (MAX_DEVICES = S 9) as -> by done. set (n9 := 9%nat).
  assert (0 < 1)%nat as H1 by lia. assert (1 + n9 <= MAX_DEVICES)%nat as H9 by (unfold n9, MAX_DEVICES; lia).
  clearbody n9. cbn [find_slot].
  unfold mbind at 1, sm_bind at 1, sm_gets at 1.
  destruct (lookup_lt_is_Some_2 (devices s) 0) as [d Hd]; [destruct Hs as [-> _]; unfold MAX_DEVICES; lia|].
  rewrite Hd. unfold mbind, sm_bind, mret, sm_ret, sm_lift.
  destruct (Z.eqb_spec (name_len d) 0) as [H0|H0]; cbn [negb].
  - cbn [Z.eqb Pos.eqb]. rewrite find_slot_settled by done.
    intros [= <- <-]. split; [done|]. exists d. eauto.
  - destruct (memcmp_eq (pd_name d) new_path (pd_len - 1)) as [[]| |] eqn:E; cbn [mbind run_bind]; [| |done..].
    + cbn [Z.eqb Pos.eqb]. rewrite find_slot_settled by done.
      intros [= <- <-]. split; [done|]. exists d. eauto 10.
    + cbn [Z.eqb Pos.eqb]. rewrite find_slot_settled by done.
      intros [= <- <-]. split; [done|]. exists d. eauto 10.
Qed.

Lemma preserves_convert pid r2 old_path r5 :
  preserves first_only (SceFios2KernelForDriver_0F456345 pid r2 old_path r5).
Proof.
  unfold SceFios2KernelForDriver_0F456345. apply preserves_bind; [auto with preserves|intros _].
  apply preserves_bind; [auto with preserves|intros [ret new_path]].
  apply preserves_bind; [|intros ?; preserves_tac].
  apply preserves_if; [|auto with preserves].
  apply preserves_bind; [auto with preserves|intros k].
  apply preserves_bind; [auto with preserves|intros j].
  intros s a s' Hs. unfold mbind at 1, sm_bind at 1.
  destruct (find_slot _ _ _ _ _ s) as [[r s1]| |] eqn:E; [|done..].
  apply find_slot_first in E as (-> & d & Hd & [(-> & _)|(-> & _)]); [|by intros [= <- <-]|done].
  cbn [Z.leb Z.compare]. change (Z.to_nat 0) with 0%nat.
  unfold mbind, sm_bind, sm_gets, sm_lift. cbv beta iota. rewrite Hd.
  destruct (store_device _ _ _ _ _ d) as [d'| |]; cbn [mbind run_bind]; [|done..].
  intros [= <- <-]. apply first_only_insert; [done|by left].
Qed.

(** ** Steps of the plugin *)

Inductive io_step : ioplus W -> ioplus W -> Prop :=
  | step_open pid filename flag mode r s s' :
      ksceIoOpenForPid_patched pid filename flag mode s = Done (r, s') -> io_step s s'
  | step_convert pid r2 old_path r5 r s s' :
      SceFios2KernelForDriver_0F456345 pid r2 old_path r5 s = Done (r, s') -> io_step s s'
  | step_mkdir dirname mode r s s' : _sceIoMkdir_patched dirname mode s = Done (r, s') -> io_step s s'
  | step_rmdir dirname r s s' : _sceIoRmdir_patched dirname s = Done (r, s') -> io_step s s'
  | step_remove filename r s s' : _sceIoRemove_patched filename s = Done (r, s') -> io_step s s'.

Lemma first_only_step s s' : first_only s -> io_step s s' -> first_only s'.
Proof.
  intros Hs. destruct 1 as [pid f fl m r s s' E|pid r2 o r5 r s s' E|d m r s s' E|d r s s' E|d r s s' E];
    revert s r s' Hs E; change (forall s r s', first_only s -> ?m s = Done (r, s') -> first_only s') with
      (preserves first_only m).
  - unfold ksceIoOpenForPid_patched. preserves_tac.
  - apply preserves_convert.
  - unfold _sceIoMkdir_patched. preserves_tac.
  - unfold _sceIoRmdir_patched. preserves_tac.
  - unfold _sceIoRemove_patched. preserves_tac.
Qed.

Lemma first_only_static (w : W) : first_only (ioplus_static w).
Proof.
  split; [done|]. intros i d Hd. cbn [ioplus_static devices] in Hd.
  by apply lookup_replicate in Hd as [-> _].
Qed.

Lemma first_only_reachable s s' : first_only s -> rtc io_step s s' -> first_only s'.
Proof. intros Hs. induction 1; eauto using first_only_step. Qed.

(** The table of ten devices only ever holds one: the search for a free
    slot settles on the first slot whether it is in use or not, so that in
    every state reached from the initial one by opens, path conversions and
    the other hooks, the other nine slots are free. *)
Theorem only_first_slot_used (w : W) s i d :
  rtc io_step (ioplus_static w) s -> devices s !! i = Some d -> name_len d <> 0 -> i = 0%nat.
Proof.
  intros Hr Hd Hn. destruct (first_only_reachable _ _ (first_only_static w) Hr) as [_ H].
  destruct i as [|i]; [done|]. by destruct Hn; apply (H i).
Qed.

(** ** Conversions *)

Lemma strchr_app dev t : colon ∉ dev -> strchr (dev ++ colon :: t) colon = Done (length dev).
Proof.
  induction dev as [|b dev IH]; intros Hd; cbn [app strchr].
  - by rewrite Z.eqb_refl.
  - apply not_elem_of_cons in Hd as [Hb Hd]. rewrite (IH Hd).
    by replace (b =? colon) with false by lia.
Qed.

(** A name of at most 17 bytes stored with its NUL *)
Lemma store_name buf l : length buf = name_size -> (length l < name_size)%nat ->
  exists b1, blit buf 0 l = Done b1 /\
    exists tl, store8 b1 (Z.of_nat (length l)) 0 = Done (l ++ 0 :: tl).
Proof.
  intros Hb Hl. unfold blit. replace (_ && _) with true by (unfold mlen; lia).
  eexists. split; [done|].
  destruct (drop (length l) buf) as [|x tl] eqn:E.
  { apply (f_equal length) in E. rewrite length_drop in E. cbn in E. lia. }
  change (Z.to_nat 0) with 0%nat. rewrite take_0, Nat.add_0_l, E. cbn [app].
  exists tl. rewrite store8_total by (unfold mlen; rewrite length_app; cbn [length]; lia).
  rewrite Nat2Z.id, insert_app_r_alt by lia. by rewrite Nat.sub_diag.
Qed.

(** A converted path on a decrypted mount point registers its device in
    the first slot, with the process and the name up to the colon, in place of
    whatever other device is registered there. *)
Theorem convert_replaces_device proc r2 r5 dev t mp u s d ret w' :
  first_only s -> devices s !! 0%nat = Some d ->
  length (v_name d) = name_size -> length (pd_name d) = name_size ->
  Forall (fun b => b <> 0) dev -> Forall (fun b => b <> 0) mp -> colon ∉ dev -> colon ∉ mp ->
  (length dev < 17)%nat -> (length mp < 17)%nat -> take 2 mp = bytes_of "PD" ->
  continue_convert proc r2 (dev ++ colon :: t) r5 (ENTER_SYSCALL (kernel s)) = ((ret, mp ++ colon :: u), w') ->
  name_len d = 0 \/ take (length mp) (pd_name d) <> mp ->
  exists s' d', SceFios2KernelForDriver_0F456345 proc r2 (dev ++ colon :: t) r5 s = Done (ret, s') /\
    devices s' = <[0%nat := d']> (devices s) /\ until_nul (v_name d') = dev ++ [colon] /\
    until_nul (pd_name d') = mp ++ [colon] /\ name_len d' = Z.of_nat (length dev) + 1 /\
    pid d' = u32 proc.
Proof.
  intros Hs Hd Hv Hp Hdev Hmp Hcd Hcm Hld Hlm Hpd Hcall Hdiff.
  destruct (store_name (v_name d) (dev ++ [colon]) Hv) as (v1 & Ev & tv & Ev');
    [rewrite length_app; cbn; unfold name_size; lia|].
  destruct (store_name (pd_name d) (mp ++ [colon]) Hp) as (p1 & Ep & tp & Ep');
    [rewrite length_app; cbn; unfold name_size; lia|].
  rewrite length_app in Ev', Ep'. cbn [length] in Ev', Ep'. rewrite Nat.add_1_r in Ev', Ep'.
  assert (forall (l : mem) t', take (S (length l)) (l ++ colon :: t') = l ++ [colon]) as Htake.
  { intros l t'. change (l ++ colon :: t') with (l ++ [colon] ++ t'). rewrite app_assoc, take_app_le.
    - apply take_ge. rewrite length_app. cbn. lia.
    - rewrite length_app. cbn. lia. }
  set (d' := Device (mp ++ [colon] ++ 0 :: tp) (dev ++ [colon] ++ 0 :: tv) (Z.of_nat (S (length dev))) (u32 proc)).
  assert (store_device proc (dev ++ colon :: t) (mp ++ colon :: u) (S (length dev)) (S (length mp)) d = Done d') as Est.
  { unfold store_device. rewrite !Htake, Ev. cbn [mbind run_bind]. rewrite Ep. cbn [mbind run_bind].
    rewrite Ep'. cbn [mbind run_bind]. rewrite Ev'. cbn [mbind run_bind]. unfold d'. by rewrite !app_assoc. }
  set (s1 := IoPlus (devices s) (hooks_uid s) w').
  assert (find_slot 0 MAX_DEVICES (mp ++ colon :: u) (S (length mp)) (-1) s1 = Done (0, s1)) as Hf.
  { assert (first_only s1) as Hs1 by exact Hs.
    assert (MAX_DEVICES = S 9) as -> by done. set (n9 := 9%nat).
    assert (1 + n9 <= MAX_DEVICES)%nat as H9 by (unfold n9, MAX_DEVICES; lia).
    clearbody n9. cbn [find_slot]. rewrite (sm_bind_Done _ _ s1 _ _ eq_refl).
    change (devices s1) with (devices s). rewrite Hd.
    assert ((if negb (name_len d =? 0)
             then eq ← sm_lift (memcmp_eq (pd_name d) (mp ++ colon :: u) (S (length mp) - 1));
                  mret (if eq : bool then -2 else -1)
             else mret (-1)) s1 = Done (-1, s1)) as Hc.
    { destruct (Z.eqb_spec (name_len d) 0) as [|Hne]; [done|]. destruct Hdiff as [|Hdiff]; [done|].
      cbn [negb]. unfold memcmp_eq, slice. rewrite Nat.sub_succ, Nat.sub_0_r.
      replace (_ && _) with true by (unfold mlen, name_size in *; lia).
      cbn [mbind run_bind]. change (Z.to_nat 0) with 0%nat. rewrite drop_0, take_app_length.
      by rewrite bool_decide_eq_false_2 by done. }
    rewrite (sm_bind_Done _ _ _ _ _ Hc). cbn [Z.eqb Pos.eqb].
    by apply find_slot_settled; [|lia| |lia]. }
  unfold SceFios2KernelForDriver_0F456345.
  rewrite (sm_bind_Done _ _ s _ _ eq_refl).
  assert (kcall (continue_convert proc r2 (dev ++ colon :: t) r5)
    (IoPlus (devices s) (hooks_uid s) (ENTER_SYSCALL (kernel s))) = Done ((ret, mp ++ colon :: u), s1)) as Hk
    by (unfold kcall; cbn [kernel devices hooks_uid]; by rewrite Hcall).
  rewrite (sm_bind_Done _ _ _ _ _ Hk).
  assert (take 2 (mp ++ colon :: u) = bytes_of "PD") as Hpd2.
  { rewrite <- Hpd. destruct mp as [|m1 [|m2 mp]]; [done..|]. done. }
  rewrite bool_decide_eq_true_2 by done. rewrite (strchr_app dev t Hcd), (strchr_app mp u Hcm).
  exists (IoPlus (<[0%nat := d']> (devices s)) (hooks_uid s) (EXIT_SYSCALL w')), d'.
  split; [|split_and!; [done| | |cbn; lia|done]].
  - unfold mbind at 1, sm_bind at 1. rewrite (sm_bind_Done _ _ s1 _ _ eq_refl).
    rewrite (sm_bind_Done _ _ s1 _ _ eq_refl). rewrite (sm_bind_Done _ _ _ _ _ Hf).
    cbn [Z.leb Z.compare]. rewrite (sm_bind_Done _ _ s1 _ _ eq_refl).
    change (Z.to_nat 0) with 0%nat. change (devices s1) with (devices s). rewrite Hd, Est. done.
  - cbn [v_name d']. change (dev ++ [colon] ++ 0 :: tv) with (dev ++ ([colon] ++ 0 :: tv)).
    rewrite app_assoc. apply until_nul_app. apply Forall_app. split; [done|by repeat constructor].
  - cbn [pd_name d']. rewrite app_assoc. apply until_nul_app. apply Forall_app.
    split; [done|by repeat constructor].
Qed.

(** ** Opening through the device *)

(** The collection keeps a device whose mount point answers. *)
Lemma collect_keeps i n d s :
  (forall w, 0 <= (ksceIoGetstat (until_nul (pd_name d)) w).1) ->
  first_only s -> devices s !! 0%nat = Some d -> (i + n <= MAX_DEVICES)%nat ->
  exists s', collect i n s = Done (tt, s') /\ first_only s' /\ devices s' !! 0%nat = Some d.
Proof.
  intros Hg. revert i s. induction n as [|n IH]; intros i s Hs Hd Hn; cbn [collect]; [by eexists|].
  rewrite (sm_bind_Done _ _ s _ _ eq_refl).
  destruct (lookup_lt_is_Some_2 (devices s) i) as [di Hdi]; [destruct Hs; lia|]. rewrite Hdi.
  unfold mbind at 1, sm_bind at 1, kcall at 1.
  destruct (ksceIoGetstat (until_nul (pd_name di)) (kernel s)) as [fd w] eqn:E.
  set (s1 := IoPlus (devices s) (hooks_uid s) w).
  assert (first_only s1) as Hs1 by exact Hs.
  destruct (Z.ltb_spec fd 0) as [Hneg|Hpos].
  - rewrite (sm_bind_Done _ _ s1 _ _ eq_refl).
    assert (i <> 0%nat) as Hi.
    { intros ->. rewrite Hd in Hdi. injection Hdi as <-. specialize (Hg (kernel s)).
      rewrite E in Hg. cbn in Hg. lia. }
    apply IH; [by apply first_only_insert; [|right]| |lia].
    cbn. by rewrite list_lookup_insert_ne.
  - rewrite (sm_bind_Done _ _ s1 _ _ eq_refl). apply IH; [done|done|lia].
Qed.

Lemma try_devices_free i n filename flag mode ret s :
  (0 < i)%nat -> first_only s -> (i + n <= MAX_DEVICES)%nat ->
  try_devices i n filename flag mode ret s = Done (ret, s).
Proof.
  revert i. induction n as [|n IH]; intros i Hi Hs Hn; cbn [try_devices]; [done|].
  rewrite (sm_bind_Done _ _ s _ _ eq_refl). destruct Hs as [Hl H].
  destruct (lookup_lt_is_Some_2 (devices s) i) as [d Hd]; [lia|]. rewrite Hd.
  destruct i as [|i]; [lia|]. rewrite (H i d Hd). cbn [Z.eqb]. apply IH; [lia|by split|lia].
Qed.

(** When neither the program nor the kernel can open an "iop-decrypt:"
    path, the hook opens the rest of the path on the registered device, with
    the rights of the process that mounted it, and returns that result. *)
Theorem open_decrypts proc flag mode rest dev tl s d :
  first_only s -> devices s !! 0%nat = Some d ->
  (forall w, 0 <= (ksceIoGetstat (until_nul (pd_name d)) w).1) ->
  name_len d = Z.of_nat (length dev) -> 0 < name_len d -> v_name d = dev ++ 0 :: tl ->
  Forall (fun b => b <> 0) dev -> (length dev + length rest < path_size)%nat ->
  (forall w, (continue_open proc (DECRYPT_KEYWORD ++ rest) flag mode w).1 < 0) ->
  (forall w, (ksceIoOpen (DECRYPT_KEYWORD ++ rest) flag mode w).1 < 0) ->
  exists s' w, ksceIoOpenForPid_patched proc (DECRYPT_KEYWORD ++ rest) flag mode s =
    Done ((continue_open (pid d) (dev ++ rest) flag mode w).1, s') /\
    kernel s' = EXIT_SYSCALL (continue_open (pid d) (dev ++ rest) flag mode w).2.
Proof.
  intros Hs Hd Hg Hn Hn0 Hv Hdev Hl Ho Hk. unfold ksceIoOpenForPid_patched.
  set (s0 := IoPlus (devices s) (hooks_uid s) (ENTER_SYSCALL (kernel s))).
  assert (kcall_ ENTER_SYSCALL s = Done (tt, s0)) as E0 by done. rewrite (sm_bind_Done _ _ _ _ _ E0).
  destruct (collect_keeps 0 MAX_DEVICES d s0 Hg Hs Hd (le_n _)) as (s1 & E1 & Hs1 & Hd1).
  rewrite (sm_bind_Done _ _ _ _ _ E1).
  specialize (Ho (kernel s1)).
  destruct (continue_open proc (DECRYPT_KEYWORD ++ rest) flag mode (kernel s1)) as [ret w2] eqn:Eo.
  cbn [fst] in Ho. set (s2 := IoPlus (devices s1) (hooks_uid s1) w2).
  assert (kcall (continue_open proc (DECRYPT_KEYWORD ++ rest) flag mode) s1 = Done (ret, s2)) as E2
    by (unfold kcall; by rewrite Eo).
  rewrite (sm_bind_Done _ _ _ _ _ E2).
  specialize (Hk w2). destruct (ksceIoOpen (DECRYPT_KEYWORD ++ rest) flag mode w2) as [ret2 w3] eqn:Ek.
  cbn [fst] in Hk. set (s3 := IoPlus (devices s1) (hooks_uid s1) w3).
  destruct (continue_open (pid d) (dev ++ rest) flag mode w3) as [ret3 w4] eqn:E4.
  set (s4 := IoPlus (devices s1) (hooks_uid s1) w4).
  assert (first_only s3) as Hs3 by exact Hs1.
  assert (decrypt_path d (DECRYPT_KEYWORD ++ rest) = Done (dev ++ rest)) as Edp.
  { unfold decrypt_path, slice. rewrite Hn, Nat2Z.id, Hv.
    replace (_ && _) with true by (unfold mlen; rewrite length_app; cbn [length]; lia).
    cbn [mbind run_bind]. change (Z.to_nat 0) with 0%nat. rewrite drop_0, take_app_length.
    change (strchr (DECRYPT_KEYWORD ++ rest) colon) with (Done 11%nat). cbn [mbind run_bind].
    change (drop 12 (DECRYPT_KEYWORD ++ rest)) with rest.
    rewrite (take_ge rest) by (unfold path_size in *; lia).
    rewrite (until_nul_id dev) by done.
    by destruct (Nat.ltb_spec (length dev + length rest) path_size); [|lia]. }
  assert (try_devices 0 MAX_DEVICES (DECRYPT_KEYWORD ++ rest) flag mode ret2 s3 = Done (ret3, s4)) as E3.
  { assert (MAX_DEVICES = S 9) as -> by done. set (n9 := 9%nat).
    assert (1 + n9 <= MAX_DEVICES)%nat as H9 by (unfold n9, MAX_DEVICES; lia).
    clearbody n9. cbn [try_devices]. rewrite (sm_bind_Done _ _ s3 _ _ eq_refl).
    change (devices s3) with (devices s1). rewrite Hd1.
    replace (name_len d =? 0) with false by lia. rewrite Edp. rewrite (sm_bind_Done _ _ s3 _ _ eq_refl).
    assert (kcall (continue_open (pid d) (dev ++ rest) flag mode) s3 = Done (ret3, s4)) as E
      by (unfold kcall; cbn [kernel s3]; by rewrite E4).
    rewrite (sm_bind_Done _ _ _ _ _ E). destruct (0 <=? ret3); [done|].
    apply try_devices_free; [lia|exact Hs1|done]. }
  exists (IoPlus (devices s1) (hooks_uid s1) (EXIT_SYSCALL w4)), w3. rewrite E4. split; [|done].
  assert ((ret ← (if ret <? 0 then
           ret ← kcall (ksceIoOpen (DECRYPT_KEYWORD ++ rest) flag mode);
           if (ret <? 0) && bool_decide (take (length DECRYPT_KEYWORD) (DECRYPT_KEYWORD ++ rest) = DECRYPT_KEYWORD)
           then try_devices 0 MAX_DEVICES (DECRYPT_KEYWORD ++ rest) flag mode ret
           else mret ret
         else mret ret); _ ← kcall_ EXIT_SYSCALL; mret ret) s2 =
    Done (ret3, IoPlus (devices s1) (hooks_uid s1) (EXIT_SYSCALL w4))) as Efin; [|exact Efin].
  replace (ret <? 0) with true by lia.
  assert (kcall (ksceIoOpen (DECRYPT_KEYWORD ++ rest) flag mode) s2 = Done (ret2, s3)) as Ek2
    by (unfold kcall; cbn [kernel s2]; by rewrite Ek).
  unfold mbind at 1, sm_bind at 1. rewrite (sm_bind_Done _ _ _ _ _ Ek2).
  replace (ret2 <? 0) with true by lia. rewrite take_app_length, bool_decide_eq_true_2 by done.
  cbn [andb]. rewrite E3. done.
Qed.
End Table.

(** ** A concrete kernel *)

Module SimIo.
(** A world that records the last path opened: only the process 7 may open
    "app0:" paths. *)
#[export] Instance sim_io : IoKernel (option mem) := {
  continue_open p path _ _ w :=
    if (p =? 7) && bool_decide (take 5 path = bytes_of "app0:") then (3, Some path) else (-1, w);
  continue_convert _ _ _ _ w := ((0, bytes_of "PD0:/x"), w);
  continue_sceIoOpen _ _ _ w := (-1, w);
  continue_mkdir _ _ w := (-1, w);
  continue_rmdir _ w := (-1, w);
  continue_remove _ w := (-1, w);
  ksceIoOpen _ _ _ w := (-1, w);
  ksceIoGetstat path w := (if bool_decide (path = bytes_of "PD0:") then 0 else -1, w);
  ksceKernelGetProcessId _ := 7;
  ksceKernelCreateUserUid _ _ w := (0x101, w);
  ksceIoMkdir _ _ w := (0, w);
  ksceIoRmdir _ w := (0, w);
  ksceIoRemove _ w := (0, w);
  ksceKernelStrncpyUserToKernel s n w := (take n s, w);
  ENTER_SYSCALL w := w;
  EXIT_SYSCALL w := w;
  taiHookFunctionExportForKernel _ w := (0x41, w);
  taiHookReleaseForKernel _ w := w;
}.

(** The state after process 7 converted "app0:/x" *)
Definition mounted : ioplus (option mem) :=
  match SceFios2KernelForDriver_0F456345 7 0 (bytes_of "app0:/x") 0 (ioplus_static None) with
  | Done (_, s) => s
  | _ => ioplus_static None
  end.
End SimIo.
Import SimIo.

Lemma mounted_reachable : rtc io_step (ioplus_static None) mounted.
Proof. apply rtc_once. apply (step_convert 7 0 (bytes_of "app0:/x") 0 0). vm_compute. reflexivity. Qed.

Lemma only_first_slot_used_witness :
  exists i d, devices mounted !! i = Some d /\ name_len d <> 0 /\ i = 0%nat.
Proof.
  exists 0%nat, (nth 0 (devices mounted) no_device).
  split; [vm_compute; reflexivity|]. split; [vm_compute; discriminate|].
  apply (only_first_slot_used None mounted 0 (nth 0 (devices mounted) no_device) mounted_reachable);
    [vm_compute; reflexivity|vm_compute; discriminate].
Defined.

Lemma convert_replaces_device_witness : exists s' d',
  SceFios2KernelForDriver_0F456345 7 0 (bytes_of "app0" ++ colon :: bytes_of "/x") 0 (ioplus_static None) =
    Done (0, s') /\ devices s' = <[0%nat := d']> (replicate 10 no_device) /\
  until_nul (v_name d') = bytes_of "app0:".
Proof.
  destruct (convert_replaces_device 7 0 0 (bytes_of "app0") (bytes_of "/x") (bytes_of "PD0") (bytes_of "/x")
    (ioplus_static None) no_device 0 None) as (s' & d' & E & Hd & Hv & _);
    [apply first_only_static|reflexivity|reflexivity|reflexivity
    |repeat constructor; discriminate|repeat constructor; discriminate
    |vm_compute; intros H; repeat (apply elem_of_cons in H as [H|H]; [discriminate H|]); by apply elem_of_nil in H
    |vm_compute; intros H; repeat (apply elem_of_cons in H as [H|H]; [discriminate H|]); by apply elem_of_nil in H
    |vm_compute; lia|vm_compute; lia|reflexivity|reflexivity|left; reflexivity|].
  exists s', d'. split; [exact E|]. split; [exact Hd|exact Hv].
Defined.

Lemma open_decrypts_witness : exists s' w,
  ksceIoOpenForPid_patched 9 (DECRYPT_KEYWORD ++ bytes_of "/y") 1 0 mounted =
    Done ((continue_open (W := option mem) 7 (bytes_of "app0:/y") 1 0 w).1, s') /\
  kernel s' = Some (bytes_of "app0:/y").
Proof.
  destruct (open_decrypts 9 1 0 (bytes_of "/y") (bytes_of "app0:") (replicate 12 0) mounted
    (nth 0 (devices mounted) no_device)) as (s' & w & E & Hk);
    [exact (first_only_reachable _ _ (first_only_static None) mounted_reachable)
    |vm_compute; reflexivity|intros w; vm_compute; discriminate|vm_compute; reflexivity|vm_compute; reflexivity
    |vm_compute; reflexivity|repeat constructor; discriminate|vm_compute; lia
    |intros w; vm_compute; reflexivity|intros w; vm_compute; reflexivity|].
  exists s', w. split; [exact E|]. rewrite Hk. vm_compute. reflexivity.
Defined.
