(* ===== verification/SysLibTrace.v ===== *)
(** * Names of system calls from SceSysLibTrace
      (psp2-syslibtrace-nids-extract, main.c)

    The tool follows the module information of the ELF file to the exported
    function that loads the address of a table with a MOVW instruction, takes
    the address out of the instruction and prints the table's entries.  Files
    are read with [fread] into buffers of their own; what a short read leaves
    unset may not be used. *)

From stdpp Require Import prelude strings.
From S2P Require Import Prelude Bytes CString Yaml VitaImport ElfTools ImageExtract.
Import ElfTools.Layout.

Definition sizeof_common : Z := 0x20.      (** [SceModuleInfo_common] *)
Definition sizeof_info_v6 : Z := 0x5C.     (** [SceModuleInfo_v6] *)
Definition sizeof_lib_common : Z := 0x10.  (** [SceLibEntryTable_common] *)
Definition sizeof_lib_20 : Z := 0x20.      (** [SceLibEntryTable_20] *)
Definition sizeof_entry_table : Z := 12.   (** [ENTRY_TABLE] *)
Definition MODULE_NAME_MAX_LEN : Z := 27.
Definition MAX_FUNCTION_NAME_BUFFER_SIZE : Z := 256.

(** [p_vaddr] of a program header *)
Definition p_vaddr (m : mem) (p i : Z) : run Z := load32 m (p + 32 * i + 8).

(** "SceSysLibTrace" and "SceNidsymtblForDriver", with their NULs *)
Definition trace_name : mem := bytes_of "SceSysLibTrace" ++ [0].
Definition nidsymtbl_name : mem := bytes_of "SceNidsymtblForDriver" ++ [0].

(** ** The instruction *)

(** an [int] argument: right shifts are arithmetic *)
Definition get_movw_value_from_instr (opcode : Z) : Z :=
  let value := Z.land (Z.shiftr opcode 8) 0xFF in
  let value := Z.lor value (Z.land (Z.shiftl opcode 4) 0x700) in
  let value := Z.lor value (Z.land (Z.shiftr opcode 7) 0x800) in
  Z.lor value (Z.land (Z.shiftr opcode 12) 0xF000).

Definition be32 (m : mem) : run Z :=
  a ← load8 m 0; b ← load8 m 1; c ← load8 m 2; d ← load8 m 3;
  Done (Z.lor (Z.lor (Z.lor (Z.shiftl a 24) (Z.shiftl b 16)) (Z.shiftl c 8)) d).

(** ** Printing *)

(** [printf] of one entry, in the two formats *)
Definition entry_line (extra_args : bool) (name : string) (nid is_syscall : Z) : string :=
  let nid_text := ("0x" +:+ fmt_0X 8 nid)%string in
  let bool_text := if is_syscall =? 0 then "false"%string else "true"%string in
  if extra_args then (name +:+ "," +:+ nid_text +:+ "," +:+ bool_text)%string
  else (nid_text +:+ "," +:+ name +:+ "," +:+ bool_text)%string.

(** ** The tables *)

(** [for (int i = 0; i < exp_lib_num; ++i)]: the library of the given name *)
Fixpoint find_lib (n : nat) (file ent_table : mem) (text_seg_offset slide i : Z) : run (option Z) :=
  match n with
  | O => Done None
  | S n' =>
      libname ← load32 ent_table (sizeof_lib_20 * i + 0x14);
      let buf := fread_at file (u32 (text_seg_offset + libname - slide)) MODULE_NAME_MAX_LEN in
      same ← str_matches buf 0 nidsymtbl_name;
      if same : bool then Done (Some (sizeof_lib_20 * i))
      else find_lib n' file ent_table text_seg_offset slide (i + 1)
  end.

(** [for (int i = 0; i < exp_lib->c.nfunc; ++i)]: the address of the function *)
Fixpoint find_nid (n : nat) (nid_table entry_table : mem) (slide i : Z) : run Z :=
  match n with
  | O => Done 0
  | S n' =>
      nid ← load32 nid_table (4 * i);
      if nid =? 0x138A9106 then e ← load32 entry_table (4 * i); Done (u32 (e - slide - 1))
      else find_nid n' nid_table entry_table slide (i + 1)
  end.

(** [fread] of the next entry into the buffer of the last one *)
Definition next_entry (file : mem) (off : Z) (entry_buf : mem) : mem :=
  let bs := fread_at file off sizeof_entry_table in bs ++ drop (length bs) entry_buf.

(** [do { ... } while (function_nid != 0xFFFFFFFF)] *)
Fixpoint table_loop (fuel : nat) (file : mem) (extra_args : bool) (text_seg_offset start slide i : Z)
    (entry_buf : mem) : run (list string) :=
  match fuel with
  | O => OutOfFuel
  | S fuel' =>
      is_syscall ← load32 entry_buf 0;
      function_nid ← load32 entry_buf 4;
      name_offset ← load32 entry_buf 8;
      function_name ← read_str (fread_at file (u32 (text_seg_offset + name_offset - slide))
                                  MAX_FUNCTION_NAME_BUFFER_SIZE) 0;
      let line := entry_line extra_args function_name function_nid is_syscall in
      let i := u32 (i + 1) in
      let entry_buf := next_entry file (u32 (text_seg_offset + start) + sizeof_entry_table * i) entry_buf in
      nid ← load32 entry_buf 4;
      if negb (nid =? 0xFFFFFFFF) then
        rest ← table_loop fuel' file extra_args text_seg_offset start slide i entry_buf;
        Done (line :: rest)
      else Done [line]
  end.

(** [main] from the opened file on: the exit code and the lines printed *)
Definition extract_nids (fuel : nat) (file : mem) (extra_args : bool) : run (Z * list string) :=
  let chunk := fread_at file 0 ELF_HEADER_CHUNK_SIZE in
  phdrs ← e_phoff chunk 0;
  text_seg_offset ← p_offset chunk phdrs 0;
  slide ← p_vaddr chunk phdrs 0;
  module_info_offset ← kbl_module_info_offset chunk 0;
  if module_info_offset =? 0 then Done (-2, [])
  else
    let common := fread_at file module_info_offset sizeof_common in
    same ← str_matches common 4 trace_name;
    if negb same then Done (-3, [])
    else
      infover ← load8 common 31;
      if negb (infover =? 6) then Done (-4, [])
      else
        let mod_info := fread_at file module_info_offset sizeof_info_v6 in
        ent_top ← load32 mod_info 0x24;
        ent_btm ← load32 mod_info 0x28;
        size ← load8 (fread_at file (u32 (text_seg_offset + ent_top)) sizeof_lib_common) 0;
        if negb (size =? 0x20) then Done (-5, [])
        else
          let exp_lib_num := u32 (ent_btm - ent_top) / sizeof_lib_20 in
          let ent_table := fread_at file (u32 (text_seg_offset + ent_top)) (sizeof_lib_20 * exp_lib_num) in
          exp_lib ← find_lib (Z.to_nat exp_lib_num) file ent_table text_seg_offset slide 0;
          match exp_lib with
          | None => Done (-6, [])
          | Some exp_lib =>
              nfunc ← load16 ent_table (exp_lib + 6);
              nids ← load32 ent_table (exp_lib + 0x18);
              entries ← load32 ent_table (exp_lib + 0x1C);
              let nid_table := fread_at file (u32 (text_seg_offset + nids - slide)) (4 * nfunc) in
              let entry_table := fread_at file (u32 (text_seg_offset + entries - slide)) (4 * nfunc) in
              instr_offset ← find_nid (Z.to_nat nfunc) nid_table entry_table slide 0;
              if instr_offset =? 0 then Done (-7, [])
              else
                opcode ← be32 (fread_at file (u32 (text_seg_offset + instr_offset)) 4);
                let start := get_movw_value_from_instr (s32 opcode) in
                let entry_buf := fread_at file (u32 (text_seg_offset + start)) sizeof_entry_table in
                lines ← table_loop fuel file extra_args text_seg_offset start slide 0 entry_buf;
                Done (0, lines)
          end.

Definition syslibtrace_main (fopen_rb : string -> option mem) (fuel : nat) (argv : list string)
    : run (Z * list string) :=
  match argv with
  | _ :: input :: rest =>
      let extra_args := match rest with a :: _ => bool_decide (a = "-f"%string) | [] => false end in
      match fopen_rb input with
      | None => Fault FNull
      | Some file => extract_nids fuel file extra_args
      end
  | _ => Done (-1, [])
  end.

(** ** The instruction's immediate *)

(** The encoding T3 of "MOVW Rd, #imm16" of the ARMv7-A manual: two halfwords,
    each stored low byte first *)
Definition movw_bytes (rd imm16 : Z) : mem :=
  let hw1 := 0xF240 + 0x400 * (imm16 / 0x800 mod 2) + imm16 / 0x1000 in
  let hw2 := 0x1000 * (imm16 / 0x100 mod 8) + 0x100 * rd + imm16 mod 0x100 in
  le 2 hw1 ++ le 2 hw2.

Lemma be32_bytes a b c d : 0 <= a -> 0 <= b < 256 -> 0 <= c < 256 -> 0 <= d < 256 ->
  be32 [a; b; c; d] = Done (((a * 256 + b) * 256 + c) * 256 + d).
Proof.
  intros Ha Hb Hc Hd. unfold be32.
  change (load8 [a; b; c; d] 0) with (Done a). change (load8 [a; b; c; d] 1) with (Done b).
  change (load8 [a; b; c; d] 2) with (Done c). change (load8 [a; b; c; d] 3) with (Done d).
  cbn [mbind run_bind]. rewrite !Z.shiftl_mul_pow2 by lia.
  rewrite (lor_mul_pow2 a (b * 2 ^ 16) 24) by lia.
  replace (a * 2 ^ 24 + b * 2 ^ 16) with ((a * 256 + b) * 2 ^ 16) by lia.
  rewrite (lor_mul_pow2 _ (c * 2 ^ 8) 16) by lia.
  replace ((a * 256 + b) * 2 ^ 16 + c * 2 ^ 8) with (((a * 256 + b) * 256 + c) * 2 ^ 8) by lia.
  rewrite lor_mul_pow2 by lia. f_equal.
Qed.

(** A field of [n] bits at bit [k] *)
Lemma land_field x k n : 0 <= k -> 0 <= n ->
  Z.land x (Z.shiftl (Z.ones n) k) = x / 2 ^ k mod 2 ^ n * 2 ^ k.
Proof.
  intros Hk Hn. rewrite <- Z.land_ones, <- Z.shiftr_div_pow2, <- (Z.shiftl_mul_pow2 _ k) by lia.
  apply Z.bits_inj'. intros i Hi. rewrite Z.land_spec, !Z.shiftl_spec by lia.
  destruct (Z.lt_ge_cases i k).
  - rewrite (Z.testbit_neg_r (Z.ones _)), (Z.testbit_neg_r (Z.land _ _)) by lia. apply andb_false_r.
  - rewrite Z.land_spec, Z.shiftr_spec by lia. by replace (i - k + k) with i by lia.
Qed.

(** The four fields of the immediate *)
Lemma movw_fields v i3 i1 i4 : 0 <= v < 2 ^ 8 -> 0 <= i3 < 8 -> 0 <= i1 < 2 -> 0 <= i4 ->
  Z.lor (Z.lor (Z.lor v (i3 * 2 ^ 8)) (i1 * 2 ^ 11)) (i4 * 2 ^ 12) = i4 * 2 ^ 12 + i1 * 2 ^ 11 + i3 * 2 ^ 8 + v.
Proof.
  intros Hv H3 H1 H4.
  rewrite (Z.lor_comm v), (lor_mul_pow2 i3 v 8) by lia.
  rewrite (Z.lor_comm _ (i1 * 2 ^ 11)), (lor_mul_pow2 i1 _ 11) by lia.
  rewrite Z.lor_comm, (lor_mul_pow2 i4 _ 12) by lia. lia.
Qed.

Lemma movw_decode rd imm16 : 0 <= rd < 16 -> 0 <= imm16 < 2 ^ 16 ->
  exists op, be32 (movw_bytes rd imm16) = Done op /\ get_movw_value_from_instr (s32 op) = imm16.
Proof.
  intros Hrd Hi.
  set (i4 := imm16 / 0x1000). set (i1 := imm16 / 0x800 mod 2). set (i3 := imm16 / 0x100 mod 8).
  set (i8 := imm16 mod 0x100).
  assert (0 <= i4 < 16 /\ 0 <= i1 < 2 /\ 0 <= i3 < 8 /\ 0 <= i8 < 256 /\
    imm16 = i4 * 2 ^ 12 + i1 * 2 ^ 11 + i3 * 2 ^ 8 + i8) as (H4 & H1 & H3 & H8 & Himm)
    by (unfold i4, i1, i3, i8; Z.to_euclidean_division_equations; lia).
  assert (movw_bytes rd imm16 = [0x40 + i4; 0xF2 + 4 * i1; i8; 0x10 * i3 + rd]) as ->.
  { unfold movw_bytes. fold i4 i1 i3 i8. clearbody i4 i1 i3 i8. unfold le. cbn [seq fmap list_fmap app].
    change (256 ^ Z.of_nat 0) with 1. change (256 ^ Z.of_nat 1) with 256. rewrite !Z.div_1_r.
    repeat f_equal; Z.to_euclidean_division_equations; lia. }
  rewrite be32_bytes by lia. eexists. split; [done|]. clearbody i4 i1 i3 i8.
  rewrite s32_small by lia. unfold get_movw_value_from_instr.
  change 0xFF with (Z.shiftl (Z.ones 8) 0). change 0x700 with (Z.shiftl (Z.ones 3) 8).
  change 0x800 with (Z.shiftl (Z.ones 1) 11). change 0xF000 with (Z.shiftl (Z.ones 4) 12).
  rewrite !land_field, !Z.shiftr_div_pow2, Z.shiftl_mul_pow2 by lia.
  set (op := (_ * 256 + i8) * 256 + _).
  replace (op / 2 ^ 8 / 2 ^ 0 mod 2 ^ 8 * 2 ^ 0) with i8 by (unfold op; Z.to_euclidean_division_equations; lia).
  replace (op * 2 ^ 4 / 2 ^ 8 mod 2 ^ 3) with i3 by (unfold op; Z.to_euclidean_division_equations; lia).
  replace (op / 2 ^ 7 / 2 ^ 11 mod 2 ^ 1) with i1 by (unfold op; Z.to_euclidean_division_equations; lia).
  replace (op / 2 ^ 12 / 2 ^ 12 mod 2 ^ 4) with i4 by (unfold op; Z.to_euclidean_division_equations; lia).
  rewrite movw_fields by lia. lia.
Qed.

(** Round trip: the immediate that the tool takes out of the instruction
    word is the one that the encoding T3 of MOVW put in, for every register. *)
Theorem movw_roundtrip rd imm16 : 0 <= rd < 16 -> 0 <= imm16 < 2 ^ 16 ->
  exists op, be32 (movw_bytes rd imm16) = Done op /\ get_movw_value_from_instr (s32 op) = imm16.
Proof. apply movw_decode. Qed.

(** ** The table *)

Record sysentry := SysEntry { e_syscall : Z; e_nid : Z; e_name : Z }.
Definition entry_bytes (e : sysentry) : mem := le 4 (e_syscall e) ++ le 4 (e_nid e) ++ le 4 (e_name e).

(** [l] and a NUL at the address, within what is read of a name *)
Definition name_at (file : mem) (addr : Z) (l : mem) : Prop :=
  exists pre post, file = pre ++ l ++ 0 :: post /\ mlen pre = addr /\ Forall (fun b => b <> 0) l /\
    (length l < 256)%nat.

Lemma read_name file addr l : name_at file addr l ->
  read_str (fread_at file addr MAX_FUNCTION_NAME_BUFFER_SIZE) 0 = Done (chars l).
Proof.
  intros (pre & post & -> & <- & Hl & Hn). unfold fread_at, mlen. rewrite Nat2Z.id, drop_app_length.
  rewrite take_app_ge by (change (Z.to_nat MAX_FUNCTION_NAME_BUFFER_SIZE) with 256%nat; lia).
  change (Z.to_nat MAX_FUNCTION_NAME_BUFFER_SIZE) with 256%nat.
  destruct (256 - length l)%nat eqn:E; [lia|]. cbn [firstn]. by apply read_str_chars.
Qed.

Lemma entry_fields e : 0 <= e_syscall e < 2 ^ 32 -> 0 <= e_nid e < 2 ^ 32 -> 0 <= e_name e < 2 ^ 32 ->
  load32 (entry_bytes e) 0 = Done (e_syscall e) /\ load32 (entry_bytes e) 4 = Done (e_nid e) /\
  load32 (entry_bytes e) 8 = Done (e_name e).
Proof.
  intros H1 H2 H3. unfold entry_bytes. split_and!.
  - pose proof (load_le_le 4 [] (e_syscall e) (le 4 (e_nid e) ++ le 4 (e_name e))) as E.
    cbn [app] in E. change (mlen []) with 0 in E. rewrite E. f_equal. apply Z.mod_small. exact H1.
  - pose proof (load_le_le 4 (le 4 (e_syscall e)) (e_nid e) (le 4 (e_name e))) as E.
    change (mlen (le 4 (e_syscall e))) with 4 in E. rewrite E. f_equal. apply Z.mod_small. exact H2.
  - pose proof (load_le_le 4 (le 4 (e_syscall e) ++ le 4 (e_nid e)) (e_name e) []) as E.
    rewrite app_nil_r, <- app_assoc in E.
    change (mlen (le 4 (e_syscall e) ++ le 4 (e_nid e))) with 8 in E. rewrite E. f_equal. apply Z.mod_small. exact H3.
Qed.

Definition table_bytes (es : list sysentry) : mem := es ≫= entry_bytes.

Lemma entry_bytes_length e : length (entry_bytes e) = 12%nat.
Proof. unfold entry_bytes. by rewrite !length_app, !length_le. Qed.

Definition entry_ok (file : mem) (text_seg_offset slide : Z) (e : sysentry) (l : mem) : Prop :=
  0 <= e_syscall e < 2 ^ 32 /\ 0 <= e_nid e < 0xFFFFFFFF /\ 0 <= e_name e < 2 ^ 32 /\
  name_at file (u32 (text_seg_offset + e_name e - slide)) l.

Lemma next_entry_app pre e post buf : length buf = 12%nat ->
  next_entry (pre ++ entry_bytes e ++ post) (mlen pre) buf = entry_bytes e.
Proof.
  intros Hb. unfold next_entry. pose proof (fread_at_app pre (entry_bytes e) post) as E.
  unfold mlen in E at 2. rewrite entry_bytes_length in E. change (Z.of_nat 12) with sizeof_entry_table in E.
  rewrite E, entry_bytes_length, drop_ge by lia. apply app_nil_r.
Qed.

Lemma table_lines es ls : forall fuel file extra_args text_seg_offset start slide pre i e l term post,
  Forall2 (entry_ok file text_seg_offset slide) (e :: es) (l :: ls) ->
  file = pre ++ table_bytes (e :: es) ++ entry_bytes term ++ post ->
  mlen pre = u32 (text_seg_offset + start) + 12 * i -> 0 <= i ->
  i + Z.of_nat (length es) + 1 < 2 ^ 32 -> e_nid term = 0xFFFFFFFF ->
  0 <= e_syscall term < 2 ^ 32 -> 0 <= e_name term < 2 ^ 32 -> (length es < fuel)%nat ->
  table_loop fuel file extra_args text_seg_offset start slide i (entry_bytes e) =
  Done (zip_with (fun e l => entry_line extra_args (chars l) (e_nid e) (e_syscall e)) (e :: es) (l :: ls)).
Proof.
  revert ls. induction es as [|e' es IH]; intros ls fuel file x tso start slide pre i e l term post
    Hok Hfile Hpre Hi Hn Hterm Hts Htn Hf; (destruct fuel as [|fuel]; [lia|]); cbn [table_loop];
    apply Forall2_cons_1 in Hok as [(H1 & H2 & H3 & Hname) Hok];
    (destruct (entry_fields e) as (-> & -> & ->); [lia..|]); cbn [mbind run_bind];
    rewrite (read_name _ _ _ Hname); cbn [mbind run_bind];
    rewrite (u32_small (i + 1)) by (cbn in Hn; lia).
  - apply Forall2_nil_inv_l in Hok as ->. change (table_bytes [e]) with (entry_bytes e ++ []) in Hfile. rewrite app_nil_r in Hfile.
    rewrite app_assoc in Hfile. unfold sizeof_entry_table.
    replace (u32 (tso + start) + 12 * (i + 1)) with (mlen (pre ++ entry_bytes e))
      by (unfold mlen in *; rewrite length_app, entry_bytes_length; lia).
    rewrite Hfile, next_entry_app by apply entry_bytes_length.
    destruct (entry_fields term) as (_ & -> & _); [lia|lia|lia|].
    cbn [mbind run_bind]. by rewrite Hterm.
  - destruct ls as [|l' ls]; [by apply Forall2_length in Hok|].
    pose proof Hok as Hok'. apply Forall2_cons_1 in Hok' as [(H1' & H2' & H3' & _) _].
    assert (file = (pre ++ entry_bytes e) ++ table_bytes (e' :: es) ++ entry_bytes term ++ post) as Hfile'.
    { rewrite Hfile. change (table_bytes (e :: e' :: es)) with (entry_bytes e ++ table_bytes (e' :: es)).
      by rewrite <- !app_assoc. }
    assert (mlen (pre ++ entry_bytes e) = u32 (tso + start) + 12 * (i + 1)) as Hpre'
      by (unfold mlen in *; rewrite length_app, entry_bytes_length; lia).
    unfold sizeof_entry_table. rewrite <- Hpre'.
    assert (next_entry file (mlen (pre ++ entry_bytes e)) (entry_bytes e) = entry_bytes e') as ->.
    { rewrite Hfile' at 1. change (table_bytes (e' :: es)) with (entry_bytes e' ++ table_bytes es).
      rewrite <- (app_assoc (entry_bytes e')). apply next_entry_app, entry_bytes_length. }
    destruct (entry_fields e') as (_ & -> & _); [lia..|]. cbn [mbind run_bind].
    replace (e_nid e' =? 0xFFFFFFFF) with false by lia. cbn [negb].
    rewrite (IH ls fuel file x tso start slide (pre ++ entry_bytes e) (i + 1) e' l' term post Hok Hfile' Hpre');
      [done|lia|cbn in Hn; lia|done..|cbn in Hf; lia].
Qed.

(** The table is printed entry by entry, each with its name, NID and kind,
    up to the entry with NID 0xFFFFFFFF, whatever its length: as many rounds as
    entries are enough. *)
Theorem table_loop_prints es ls e l file extra_args text_seg_offset start slide pre term post fuel :
  Forall2 (entry_ok file text_seg_offset slide) (e :: es) (l :: ls) ->
  file = pre ++ table_bytes (e :: es) ++ entry_bytes term ++ post ->
  mlen pre = u32 (text_seg_offset + start) -> Z.of_nat (length es) + 1 < 2 ^ 32 ->
  e_nid term = 0xFFFFFFFF -> 0 <= e_syscall term < 2 ^ 32 -> 0 <= e_name term < 2 ^ 32 ->
  (length es < fuel)%nat ->
  table_loop fuel file extra_args text_seg_offset start slide 0
    (fread_at file (u32 (text_seg_offset + start)) sizeof_entry_table) =
  Done (zip_with (fun e l => entry_line extra_args (chars l) (e_nid e) (e_syscall e)) (e :: es) (l :: ls)).
Proof.
  intros Hok Hfile Hpre Hn Ht Hs Hna Hf.
  assert (fread_at file (u32 (text_seg_offset + start)) sizeof_entry_table = entry_bytes e) as ->.
  { rewrite <- Hpre, Hfile. change (table_bytes (e :: es)) with (entry_bytes e ++ table_bytes es).
    rewrite <- app_assoc.
    pose proof (fread_at_app pre (entry_bytes e) (table_bytes es ++ entry_bytes term ++ post)) as E.
    unfold mlen in E at 2. by rewrite entry_bytes_length in E. }
  eapply table_lines; [exact Hok|exact Hfile|lia..|done|lia|lia|lia].
Qed.

(** A table that runs to the end of the file without a terminator is not
    left: [fread] fails there, the buffer keeps the last entry, and the tool
    prints it again, for 2^32 rounds. *)
Theorem unterminated_table_repeats fuel file extra_args text_seg_offset start slide i e l :
  entry_ok file text_seg_offset slide e l -> 0 <= i ->
  mlen file <= u32 (text_seg_offset + start) + 12 * (i + 1) -> i + Z.of_nat fuel < 2 ^ 32 ->
  table_loop fuel file extra_args text_seg_offset start slide i (entry_bytes e) = OutOfFuel.
Proof.
  intros (H1 & H2 & H3 & Hname). revert i. induction fuel as [|fuel IH]; intros i Hi Hend Hf; [done|].
  cbn [table_loop]. destruct (entry_fields e) as (-> & E2 & ->); [lia..|]. rewrite E2. cbn [mbind run_bind].
  rewrite (read_name _ _ _ Hname). cbn [mbind run_bind]. rewrite (u32_small (i + 1)) by lia.
  assert (next_entry file (u32 (text_seg_offset + start) + sizeof_entry_table * (i + 1)) (entry_bytes e)
    = entry_bytes e) as ->.
  { unfold next_entry, fread_at, sizeof_entry_table. rewrite drop_ge by (unfold mlen in Hend; lia).
    by rewrite take_nil. }
  rewrite E2. cbn [mbind run_bind]. replace (e_nid e =? 0xFFFFFFFF) with false by lia. cbn [negb].
  rewrite IH by lia. done.
Qed.

(** ** Witnesses *)

(** A file whose table starts at 8: "sceKernelA" at 32, "sceB" at 44 *)
Definition sample_entries : list sysentry := [SysEntry 1 0x12345678 32; SysEntry 0 0x9ABCDEF0 44].
Definition sample_end : sysentry := SysEntry 0 0xFFFFFFFF 0.
Definition sample_names : list mem := [bytes_of "sceKernelA"; bytes_of "sceB"].
Definition sample_file : mem :=
  replicate 8 0 ++ table_bytes sample_entries ++ entry_bytes sample_end ++
  (bytes_of "sceKernelA" ++ [0; 0]) ++ bytes_of "sceB" ++ [0].

Lemma movw_roundtrip_witness : exists op,
  be32 (movw_bytes 3 0xABCD) = Done op /\ get_movw_value_from_instr (s32 op) = 0xABCD.
Proof. apply (movw_roundtrip 3 0xABCD); lia. Defined.

Lemma sample_ok : Forall2 (entry_ok sample_file 12 0) sample_entries sample_names.
Proof.
  repeat constructor; try (cbn; lia).
  - exists (take 44 sample_file), (drop 55 sample_file).
    split; [vm_compute; reflexivity|]. split; [vm_compute; reflexivity|].
    split; [repeat constructor; discriminate|vm_compute; lia].
  - exists (take 56 sample_file), (drop 61 sample_file).
    split; [vm_compute; reflexivity|]. split; [vm_compute; reflexivity|].
    split; [repeat constructor; discriminate|vm_compute; lia].
Qed.

Lemma table_loop_prints_witness :
  table_loop 3 sample_file false 12 (2 ^ 32 - 4) 0 0 (fread_at sample_file 8 12) =
  Done ["0x12345678,sceKernelA,true"; "0x9ABCDEF0,sceB,false"]%string.
Proof.
  exact (table_loop_prints [SysEntry 0 0x9ABCDEF0 44] [bytes_of "sceB"] (SysEntry 1 0x12345678 32)
    (bytes_of "sceKernelA") sample_file false 12 (2 ^ 32 - 4) 0 (replicate 8 0) sample_end
    ((bytes_of "sceKernelA" ++ [0; 0]) ++ bytes_of "sceB" ++ [0]) 3
    sample_ok eq_refl eq_refl ltac:(cbn; lia) eq_refl ltac:(cbn; lia) ltac:(cbn; lia) ltac:(cbn; lia)).
Defined.

Lemma unterminated_table_repeats_witness :
  table_loop 1000 sample_file false 12 (2 ^ 32 - 4) 0 5 (entry_bytes (SysEntry 0 0x9ABCDEF0 44)) = OutOfFuel.
Proof.
  apply (unterminated_table_repeats 1000 sample_file false 12 (2 ^ 32 - 4) 0 5 (SysEntry 0 0x9ABCDEF0 44)
    (bytes_of "sceB")).
  - pose proof sample_ok as H. unfold sample_entries, sample_names in H.
    apply Forall2_cons_1 in H as [_ H]. apply Forall2_cons_1 in H as [H _]. exact H.
  - lia.
  - vm_compute. discriminate.
  - vm_compute. reflexivity.
Defined.
