(* ===== verification/Nids.v ===== *)
(** * Exports and imports of a module

    What THGN/src/main.cpp and vitadecompiler-mod/src/ (main.cpp, vita.cpp)
    share: the tables a module exports and imports libraries with, in their
    two formats, the loop over them, and the look-up of a name in the import
    database.  [findNameByNid] and [convertToImportsTable3xx] are the same code
    in both programs. *)

From stdpp Require Import prelude strings.
From Stdlib Require Import Ascii.
From S2P Require Import Prelude Bytes CString Yaml VitaImport.

Open Scope Z_scope.

(** ** Names in the database *)

(** [for (int i = 0; i < module_entry->n_functions; i++)] *)
Fixpoint function_name (fs : list (option stub)) (nid : Z) : option string :=
  match fs with
  | [] => None
  | Some stub_entry :: fs' => if stub_NID stub_entry =? nid then Some (stub_name stub_entry) else function_name fs' nid
  | None :: fs' => function_name fs' nid
  end.

(** The modules of one entry; [Some r]: the function returns [r]. *)
Fixpoint name_in_modules (ms : list (option module)) (libname : string) (nid : Z) : option (option string) :=
  match ms with
  | [] => None
  | Some module_entry :: ms' =>
      if bool_decide (module_name module_entry = libname) then Some (function_name (functions module_entry) nid)
      else name_in_modules ms' libname nid
  | None :: ms' => name_in_modules ms' libname nid
  end.

Fixpoint name_in_libs (ls : list (option lib)) (libname : string) (nid : Z) : option string :=
  match ls with
  | [] => None
  | None :: ls' => name_in_libs ls' libname nid
  | Some lib_entry :: ls' =>
      match name_in_modules (modules lib_entry) libname nid with
      | Some r => r
      | None => name_in_libs ls' libname nid
      end
  end.

(** [imps]: what [vita_imports_load] returned, [None] when it failed *)
Definition findNameByNid (imps : option imports) (libname : string) (nid : Z) : run (option string) :=
  match imps with
  | None => Fault FNull
  | Some imps => Done (name_in_libs (libs imps) libname nid)
  end.

(** ** The tables of libraries *)

Record SceExportsTable := Exports_ {
  ex_size : Z; ex_lib_version : Z; ex_attribute : Z; ex_num_functions : Z; ex_num_vars : Z; ex_num_tls_vars : Z;
  ex_module_nid : Z; ex_lib_name : Z; ex_nid_table : Z; ex_entry_table : Z
}.

Record SceImportsTable3xx := Imports3xx_ {
  im_size : Z; im_lib_version : Z; im_attribute : Z; im_num_functions : Z; im_num_vars : Z; im_unknown1 : Z;
  im_module_nid : Z; im_lib_name : Z; im_func_nid_table : Z; im_func_entry_table : Z;
  im_var_nid_table : Z; im_var_entry_table : Z
}.

Definition sizeof_2xx : Z := 52.
Definition sizeof_3xx : Z := 36.

(** The fields of the table at [p] *)
Definition exports_table (m : mem) (p : Z) : run SceExportsTable :=
  a ← load16 m p; b ← load16 m (p + 2); c ← load16 m (p + 4); d ← load16 m (p + 6);
  e ← load32 m (p + 8); f ← load32 m (p + 12); g ← load32 m (p + 16); h ← load32 m (p + 20);
  i ← load32 m (p + 24); j ← load32 m (p + 28);
  Done (Exports_ a b c d e f g h i j).

(** [memcpy(import_3xx, import_2xx, sizeof(SceImportsTable3xx))] *)
Definition imports_table_3xx (m : mem) (p : Z) : run SceImportsTable3xx :=
  a ← load16 m p; b ← load16 m (p + 2); c ← load16 m (p + 4); d ← load16 m (p + 6);
  e ← load16 m (p + 8); f ← load16 m (p + 10); g ← load32 m (p + 12); h ← load32 m (p + 16);
  i ← load32 m (p + 20); j ← load32 m (p + 24); k ← load32 m (p + 28); l ← load32 m (p + 32);
  Done (Imports3xx_ a b c d e f g h i j k l).

(** Field by field; [unknown1] stays cleared. *)
Definition imports_table_2xx (m : mem) (p : Z) : run SceImportsTable3xx :=
  a ← load16 m p; b ← load16 m (p + 2); c ← load16 m (p + 4); d ← load16 m (p + 6);
  e ← load16 m (p + 8); g ← load32 m (p + 16); h ← load32 m (p + 20);
  i ← load32 m (p + 28); j ← load32 m (p + 32); k ← load32 m (p + 36); l ← load32 m (p + 40);
  Done (Imports3xx_ a b c d e 0 g h i j k l).

(** A table of any other size is left cleared, its size too. *)
Definition convertToImportsTable3xx (m : mem) (p : Z) : run SceImportsTable3xx :=
  size ← load16 m p;
  if size =? sizeof_2xx then imports_table_2xx m p
  else if size =? sizeof_3xx then imports_table_3xx m p
  else Done (Imports3xx_ 0 0 0 0 0 0 0 0 0 0 0 0).

(** [while (i < btm) { ...; i += table->size; }]; [body] gives that size. *)
Fixpoint tables_loop {S} (body : Z -> S -> run (Z * S)) (fuel : nat) (i btm : Z) (s : S) : run S :=
  match fuel with
  | O => OutOfFuel
  | Datatypes.S fuel' =>
      if i <? btm then '(size, s) ← body i s; tables_loop body fuel' (u32 (i + size)) btm s
      else Done s
  end.

(** Lower case, as in numbers that are printed in hexadecimal *)
Fixpoint lower (s : string) : string :=
  match s with
  | EmptyString => EmptyString
  | String c s' =>
      let n := nat_of_ascii c in
      String (if (65 <=? n)%nat && (n <=? 90)%nat then ascii_of_nat (n + 32) else c) (lower s')
  end.

(** [snprintf(name, sizeof(name), ...)] with [char name[64]] *)
Definition name64 (s : string) : string := str_take 63 s.
(** [%s_%08X] *)
Definition numbered_name (lib_name : string) (nid : Z) : string := lib_name +:+ "_" +:+ fmt_0X 8 nid.

(** ** What is found *)

(** The first module of that name, wherever it is *)
Definition all_modules (imps : imports) : list module :=
  l ← omap id (libs imps); omap id (modules l).
Definition module_named (ms : list module) (libname : string) : option module :=
  snd <$> list_find (fun x => module_name x = libname) ms.

Lemma function_name_find fs nid : function_name fs nid = stub_name <$> generic_find fs nid.
Proof.
  induction fs as [|[s|] fs IH]; cbn [function_name generic_find]; [done| |done].
  unfold NID, stub_common. by destruct (stub_NID s =? nid).
Qed.

Lemma module_named_cons x ms libname : module_named (x :: ms) libname =
  if bool_decide (module_name x = libname) then Some x else module_named ms libname.
Proof.
  unfold module_named. cbn [list_find]. case_bool_decide as E; [by rewrite decide_True|].
  rewrite decide_False by done. by destruct (list_find _ ms) as [[? ?]|].
Qed.

Lemma name_in_modules_find ms libname nid :
  name_in_modules ms libname nid =
  (fun x => stub_name <$> vita_imports_find_function x nid) <$> module_named (omap id ms) libname.
Proof.
  induction ms as [|[x|] ms IH]; cbn [name_in_modules omap list_omap id]; [done| |done].
  rewrite module_named_cons. case_bool_decide; [|done]. cbn. by rewrite function_name_find.
Qed.

Lemma module_named_app ms1 ms2 libname : module_named (ms1 ++ ms2) libname =
  match module_named ms1 libname with Some x => Some x | None => module_named ms2 libname end.
Proof.
  induction ms1 as [|x ms1 IH]; [done|]. cbn [app]. rewrite !module_named_cons. by case_bool_decide.
Qed.

(** The look-up of a name is the look-up of the function by its NID in the
    first module that has the library's name; other modules of this name are
    not looked at. *)
Lemma findNameByNid_spec imps libname nid : findNameByNid (Some imps) libname nid =
  Done (x ← module_named (all_modules imps) libname; s ← vita_imports_find_function x nid; Some (stub_name s)).
Proof.
  unfold findNameByNid, all_modules. f_equal. generalize (libs imps). intros ls.
  induction ls as [|[l|] ls IH]; cbn [name_in_libs omap list_omap id mbind list_bind]; [done| |done].
  rewrite module_named_app, name_in_modules_find. destruct (module_named (omap id (modules l)) libname) as [x|] eqn:E; [|done].
  cbn. by destruct (vita_imports_find_function x nid).
Qed.

(** ** The loop over the tables *)

(** Tables one behind the other, the last one ends at [btm] *)
Fixpoint chained {T} (size : T -> Z) (at_ : Z -> T -> Prop) (i btm : Z) (ts : list T) : Prop :=
  match ts with
  | [] => i = btm
  | t :: ts' => 0 < size t /\ at_ i t /\ chained size at_ (i + size t) btm ts'
  end.

Section Loop.
Context {S : Type} (body : Z -> S -> run (Z * S)).

Lemma chained_le {T} (size : T -> Z) at_ ts : forall i btm, chained size at_ i btm ts -> i + Z.of_nat (length ts) <= btm.
Proof.
  induction ts as [|t ts IH]; intros i btm; cbn [chained length]; [lia|]. intros (H0 & _ & H%IH). lia.
Qed.

Lemma tables_loop_spec {T} (size : T -> Z) (at_ : Z -> T -> Prop) (f : T -> S -> S) btm :
  (forall i t s, at_ i t -> body i s = Done (size t, f t s)) -> btm < 2 ^ 32 -> forall ts i s fuel, 0 <= i ->
  chained size at_ i btm ts -> (length ts < fuel)%nat ->
  tables_loop body fuel i btm s = Done (foldl (fun s t => f t s) s ts).
Proof.
  intros Hb Hm. induction ts as [|t ts IH]; intros i s [|fuel] Hi Hc Hf; cbn [length] in Hf; try lia; cbn [tables_loop].
  { cbn [chained] in Hc. by rewrite (proj2 (Z.ltb_ge _ _)) by lia. }
  destruct Hc as (H0 & Ha & Hc). pose proof (chained_le _ _ _ _ _ Hc).
  rewrite (proj2 (Z.ltb_lt _ _)) by lia. rewrite (Hb _ _ _ Ha). cbn [mbind run_bind].
  rewrite u32_small by lia. apply IH; [lia|done|lia].
Qed.

(** A table of size 0 is visited for ever. *)
Lemma tables_loop_stuck i btm s : 0 <= i < btm -> btm < 2 ^ 32 -> (forall s, exists s', body i s = Done (0, s')) ->
  forall fuel, tables_loop body fuel i btm s = OutOfFuel.
Proof.
  intros Hi Hm Hb fuel. revert s. induction fuel as [|fuel IH]; intros s; cbn [tables_loop]; [done|].
  rewrite (proj2 (Z.ltb_lt _ _)) by lia. destruct (Hb s) as [s' ->]. cbn [mbind run_bind].
  rewrite Z.add_0_r, u32_small by lia. apply IH.
Qed.
End Loop.

(** ** Both formats of an import table *)

(** Fields of so many bytes, one behind the other *)
Definition bytes_of (fs : list (nat * Z)) : mem := mjoin ((fun f => le f.1 f.2) <$> fs).
Definition half (v : Z) : nat * Z := (2%nat, v).
Definition word (v : Z) : nat * Z := (4%nat, v).
Definition offset_of (fs : list (nat * Z)) (i : nat) : Z := mlen (bytes_of (take i fs)).

Lemma load_field pre fs post i n v : fs !! i = Some (n, v) ->
  load_le n (pre ++ bytes_of fs ++ post) (mlen pre + offset_of fs i) = Done (v mod 256 ^ Z.of_nat n).
Proof.
  intros Hi. rewrite <- (take_drop_middle fs i _ Hi) at 1. unfold bytes_of. rewrite fmap_app, join_app. cbn [fmap list_fmap mjoin list_join fst snd].
  pose proof (load_le_le n (pre ++ mjoin ((fun f => le f.1 f.2) <$> take i fs)) v
    (mjoin ((fun f : nat * Z => le f.1 f.2) <$> drop (S i) fs) ++ post)) as H.
  unfold offset_of, bytes_of, mlen in *. rewrite length_app, Nat2Z.inj_add in H. rewrite <- !app_assoc in *. exact H.
Qed.

(** The same for a field whose offset and value are known *)
Lemma load_field_at pre fs post i n v off : fs !! i = Some (n, v) -> offset_of fs i = off -> 0 <= v < 256 ^ Z.of_nat n ->
  load_le n (pre ++ bytes_of fs ++ post) (mlen pre + off) = Done v.
Proof. intros Hi <- Hv. rewrite (load_field _ _ _ _ _ _ Hi). f_equal. by apply Z.mod_small. Qed.

Lemma load_field_first pre fs post n v : fs !! 0%nat = Some (n, v) -> 0 <= v < 256 ^ Z.of_nat n ->
  load_le n (pre ++ bytes_of fs ++ post) (mlen pre) = Done v.
Proof. intros Hi Hv. rewrite <- (Z.add_0_r (mlen pre)). by apply (load_field_at _ _ _ 0). Qed.

(** The table in the newer format, and in the older one: with its three
    variables of its own *)
Definition fields_3xx (t : SceImportsTable3xx) : list (nat * Z) :=
  [(2, sizeof_3xx); (2, im_lib_version t); (2, im_attribute t); (2, im_num_functions t); (2, im_num_vars t);
   (2, im_unknown1 t); (4, im_module_nid t); (4, im_lib_name t); (4, im_func_nid_table t);
   (4, im_func_entry_table t); (4, im_var_nid_table t); (4, im_var_entry_table t)]%nat.
Definition fields_2xx (t : SceImportsTable3xx) (tls r1 r2 tls_nid tls_entry : Z) : list (nat * Z) :=
  [(2, sizeof_2xx); (2, im_lib_version t); (2, im_attribute t); (2, im_num_functions t); (2, im_num_vars t);
   (2, tls); (4, r1); (4, im_module_nid t); (4, im_lib_name t); (4, r2); (4, im_func_nid_table t);
   (4, im_func_entry_table t); (4, im_var_nid_table t); (4, im_var_entry_table t); (4, tls_nid); (4, tls_entry)]%nat.

(** Every field has the width of its type. *)
Definition imports_in_range (t : SceImportsTable3xx) : Prop :=
  Forall (fun v => 0 <= v < 2 ^ 16) [im_lib_version t; im_attribute t; im_num_functions t; im_num_vars t; im_unknown1 t] /\
  Forall (fun v => 0 <= v < 2 ^ 32) [im_module_nid t; im_lib_name t; im_func_nid_table t; im_func_entry_table t;
    im_var_nid_table t; im_var_entry_table t].

Ltac field_side := first [reflexivity | cbn; unfold sizeof_2xx, sizeof_3xx; lia].
Ltac field i :=
  match goal with
  | |- (load_le ?n (?pre ++ bytes_of ?fs ++ ?post) (mlen ?pre + ?off) ≫= _) = _ =>
      erewrite (load_field_at pre fs post i n _ off) by field_side; cbn [mbind run_bind]
  end.
Ltac field0 := erewrite load_field_first by field_side; cbn [mbind run_bind].

Definition with_size (size : Z) (unknown1 : Z) (t : SceImportsTable3xx) : SceImportsTable3xx :=
  Imports3xx_ size (im_lib_version t) (im_attribute t) (im_num_functions t) (im_num_vars t) unknown1 (im_module_nid t)
    (im_lib_name t) (im_func_nid_table t) (im_func_entry_table t) (im_var_nid_table t) (im_var_entry_table t).

(** An import is read the same from a table of the older and from one of the
    newer format, whatever stands around it and in the fields the newer
    format does not have: all its fields but the size, and [unknown1], come
    out as they went in. *)
Theorem formats_read_alike pre post t tls r1 r2 tls_nid tls_entry : imports_in_range t ->
  convertToImportsTable3xx (pre ++ bytes_of (fields_3xx t) ++ post) (mlen pre) = Done (with_size 36 (im_unknown1 t) t) /\
  convertToImportsTable3xx (pre ++ bytes_of (fields_2xx t tls r1 r2 tls_nid tls_entry) ++ post) (mlen pre) =
    Done (with_size 52 0 t).
Proof.
  intros [H16 H32]. rewrite !Forall_cons in H16; rewrite !Forall_cons in H32. destruct t as [sz ver attr nf nv u1 nid name fn fe vn ve]. cbn in H16, H32.
  unfold convertToImportsTable3xx, imports_table_3xx, imports_table_2xx. split.
  - field0. rewrite Z.eqb_refl. change (sizeof_3xx =? sizeof_2xx) with false. cbn [negb].
    field 1%nat. field 2%nat. field 3%nat. field 4%nat. field 5%nat. field 6%nat. field 7%nat.
    field 8%nat. field 9%nat. field 10%nat. field 11%nat. done.
  - field0. rewrite Z.eqb_refl.
    field 1%nat. field 2%nat. field 3%nat. field 4%nat. field 7%nat. field 8%nat.
    field 10%nat. field 11%nat. field 12%nat. field 13%nat. done.
Qed.

Lemma formats_read_alike_witness : let t := Imports3xx_ 36 1 2 3 4 5 6 7 8 9 10 11 in
  convertToImportsTable3xx ([] ++ bytes_of (fields_3xx t) ++ [1]) (mlen []) = Done (with_size 36 5 t) /\
  convertToImportsTable3xx ([] ++ bytes_of (fields_2xx t 1 2 3 4 5) ++ [1]) (mlen []) = Done (with_size 52 0 t).
Proof.
  intros t. apply (formats_read_alike [] [1] t 1 2 3 4 5). split; repeat (constructor; [cbn; lia|]); constructor.
Defined.

(** ** Counting loops *)

(** [for (int j = 0; j < n; j++)]; [n]: turns left *)
Fixpoint for_loop {S} (body : Z -> S -> run S) (n : nat) (j : Z) (s : S) : run S :=
  match n with
  | O => Done s
  | Datatypes.S n' => s ← body j s; for_loop body n' (j + 1) s
  end.

Lemma for_loop_spec {S A} (body : Z -> S -> run S) (f : A -> S -> S) xs : forall j s,
  (forall k x s, xs !! k = Some x -> body (j + Z.of_nat k) s = Done (f x s)) ->
  for_loop body (length xs) j s = Done (foldl (fun s x => f x s) s xs).
Proof.
  induction xs as [|x xs IH]; intros j s Hb; cbn [length for_loop foldl]; [done|].
  pose proof (Hb 0%nat x s eq_refl) as H0. rewrite Z.add_0_r in H0. rewrite H0. cbn [mbind run_bind].
  apply IH. intros k y s' Hk. rewrite <- (Hb (Datatypes.S k) y s' Hk). f_equal. lia.
Qed.

Lemma for_loop_const {S} (body : Z -> S -> run S) n : forall j s,
  (forall k, (k < n)%nat -> body (j + Z.of_nat k) s = Done s) -> for_loop body n j s = Done s.
Proof.
  induction n as [|n IH]; intros j s Hb; cbn [for_loop]; [done|].
  pose proof (Hb 0%nat ltac:(lia)) as H0. rewrite Z.add_0_r in H0. rewrite H0. cbn [mbind run_bind].
  apply IH. intros k Hk. pose proof (Hb (Datatypes.S k) ltac:(lia)) as H. replace (j + 1 + Z.of_nat k) with (j + Z.of_nat (Datatypes.S k)) by lia. exact H.
Qed.

(** Words of a table in memory *)
Definition words_at (m : mem) (p : Z) (xs : list Z) : Prop :=
  forall k x, xs !! k = Some x -> load32 m (p + 4 * Z.of_nat k) = Done x.
