(* ===== verification/Thgn.v ===== *)
(** * That Hookers Got NIDs

    THGN/src/main.cpp: lists what a module exports and imports, looks the names
    up in the import database, and writes the source of a plugin that hooks
    all of it.  A pointer into the module is an offset into the buffer that
    holds it; [malloc_usable n] is the number of bytes of a block of [n] bytes
    that can be written.  Messages on the console are left out. *)

From stdpp Require Import prelude strings.
From Stdlib Require Import Ascii.
From S2P Require Import Prelude Bytes CString Yaml VitaImport ElfTools Nids.

Open Scope Z_scope.

Inductive nid_type := Export | Import | All.
#[export] Instance nid_type_eq_dec : EqDecision nid_type.
Proof. solve_decision. Defined.

Record HookEntry := Hook { h_nid : Z; h_lib_nid : Z; h_nid_type : nid_type; h_lib_name : Z; h_nid_name : string }.

(** ** The tables *)

Section Tables.
Context (imps : option imports) (malloc_usable : Z -> Z).
(** The buffer with the module, where its first segment begins, and the
    address it is made for; [lib]: the only library that is wanted *)
Context (m : mem) (segment1 vaddr : Z) (lib : option string).

(** [lib && strcmp(lib_name, lib)] *)
Definition other_library (lib_name : string) : bool :=
  match lib with Some l => negb (bool_decide (lib_name = l)) | None => false end.

Definition hook_name (lib_name : string) (nid : Z) : run string :=
  funcName ← findNameByNid imps lib_name nid;
  Done (name64 (match funcName with Some f => "_" +:+ f | None => numbered_name lib_name nid end)).

(** One turn of the loop over the functions of a library; the counter, and the
    hooks so far *)
Definition export_entry (t : SceExportsTable) (j : Z) (s : Z * list HookEntry) : run (Z * list HookEntry) :=
  if ex_lib_name t =? 0 then Done s
  else
    let name_at := segment1 + ex_lib_name t - vaddr in
    lib_name ← read_str m name_at;
    if other_library lib_name then Done s
    else
      nid ← load32 m (segment1 + ex_nid_table t - vaddr + 4 * j);
      name ← hook_name lib_name nid;
      Done (s.1 + 1, s.2 ++ [Hook nid (ex_module_nid t) Export name_at name]).

Definition export_table (i : Z) (s : Z * list HookEntry) : run (Z * (Z * list HookEntry)) :=
  t ← exports_table m (segment1 + i);
  s ← for_loop (export_entry t) (Z.to_nat (ex_num_functions t)) 0 s;
  Done (ex_size t, s).

(** The module information is at [mod_info]. *)
Definition expTop (mod_info : Z) : run Z := load32 m (mod_info + 36).
Definition expBtm (mod_info : Z) : run Z := load32 m (mod_info + 40).
Definition impTop (mod_info : Z) : run Z := load32 m (mod_info + 44).
Definition impBtm (mod_info : Z) : run Z := load32 m (mod_info + 48).

Definition getExports (fuel : nat) (mod_info : Z) (nids : list HookEntry) : run (Z * list HookEntry) :=
  i ← expTop mod_info; btm ← expBtm mod_info; tables_loop export_table fuel i btm (0, nids).

(** The difference to [vaddr] is taken in 32 bits; the block for the name is
    asked for without its NUL. *)
Definition import_entry (t : SceImportsTable3xx) (j : Z) (s : Z * list HookEntry) : run (Z * list HookEntry) :=
  if im_lib_name t =? 0 then Done s
  else
    let name_at := segment1 + u32 (im_lib_name t - vaddr) in
    lib_name ← read_str m name_at;
    if other_library lib_name then Done s
    else
      nid ← load32 m (segment1 + im_func_nid_table t - vaddr + 4 * j);
      name ← hook_name lib_name nid;
      let length := Z.of_nat (String.length name) in
      if malloc_usable length <? length + 1 then Fault FMem
      else Done (s.1 + 1, s.2 ++ [Hook nid (im_module_nid t) Import name_at name]).

Definition import_table (i : Z) (s : Z * list HookEntry) : run (Z * (Z * list HookEntry)) :=
  t ← convertToImportsTable3xx m (segment1 + i);
  s ← for_loop (import_entry t) (Z.to_nat (im_num_functions t)) 0 s;
  Done (im_size t, s).

Definition getImports (fuel : nat) (mod_info : Z) (nids : list HookEntry) : run (Z * list HookEntry) :=
  i ← impTop mod_info; btm ← impBtm mod_info; tables_loop import_table fuel i btm (0, nids).
End Tables.

(** ** Finding the module in the file *)

Section Program.
(** [uncompress len src]: the result, the new length, and the [len] bytes of
    the zeroed destination; [malloc_usable] as above; the database *)
Context (uncompress : Z -> mem -> Z * Z * mem) (malloc_usable : Z -> Z) (imps : option imports).

(** The segment, a buffer and an offset in it, and the file, where the length
    of the segment is overwritten *)
Definition handleSegments (seg : Z) (input : mem) : run (mem * Z * mem) :=
  sinfo ← section_info_offset input;
  offset ← seg_offset input sinfo seg;
  compression ← seg_compression input sinfo seg;
  if compression =? 2 then
    length ← seg_length input sinfo seg;
    src ← slice input offset (Z.to_nat length);
    let '(ret, length, destination) := uncompress length src in
    input ← store_le 8 input (sinfo + 32 * seg + 8) length;
    Done (destination, 0, input)
  else Done (input, offset, input).

Record module_at := ModuleAt { segment : mem; segment1 : Z; entry : Z; vaddr : Z }.

(** [None]: the file is no binary. *)
Definition find_module (input : mem) : run (option module_at) :=
  mg ← magic input;
  headers ← (if mg =? SCE_MAGIC then
               '(m, off, input) ← handleSegments 0 input;
               e ← header_len input; p ← phdr_offset input;
               Done (Some (m, off, (input, e), (input, p)))
             else
               elf ← is_elf input 0;
               if elf : bool then p ← e_phoff input 0; Done (Some (input, 0, (input, 0), (input, p)))
               else Done None);
  match headers with
  | None => Done None
  | Some (m, off, ehdr, phdr) =>
      elf ← is_elf m off;
      '(off, ehdr, phdr) ← (if elf : bool then
                              phoff ← e_phoff m off;
                              p0 ← p_offset m (off + phoff) 0;
                              Done (off + p0, (m, off), (m, off + phoff))
                            else Done (off, ehdr, phdr));
      e_entry ← load32 ehdr.1 (ehdr.2 + 24);
      p_vaddr ← load32 phdr.1 (phdr.2 + 8);
      Done (Some (ModuleAt m off e_entry p_vaddr))
  end.

(** The hooks that are asked for by [argv[2]]; a library that is not found
    leaves [mode] unset. *)
Definition collect (fuel : nat) (w : module_at) (what : string) : run (option nid_type * string * list HookEntry) :=
  let mod_info := segment1 w + entry w in
  let exports := getExports imps (segment w) (segment1 w) (vaddr w) in
  let imports := getImports imps malloc_usable (segment w) (segment1 w) (vaddr w) in
  if bool_decide (what = "exports"%string) then
    '(_, table) ← exports None fuel mod_info []; Done (Some Export, "Export"%string, table)
  else if bool_decide (what = "imports"%string) then
    '(_, table) ← imports None fuel mod_info []; Done (Some Import, "Import"%string, table)
  else if bool_decide (what = "all"%string) then
    '(_, table) ← exports None fuel mod_info [];
    '(_, table) ← imports None fuel mod_info table; Done (Some All, "Export"%string, table)
  else
    '(ret, table) ← exports (Some what) fuel mod_info [];
    let '(mode, text) := if 0 <? ret then (Some Export, "Export"%string) else (None, ""%string) in
    '(n, table) ← imports (Some what) fuel mod_info table;
    if 0 <? n then
      if 0 <? ret then Done (Some All, "Export"%string, table) else Done (Some Import, "Import"%string, table)
    else Done (mode, text, table).

(** ** The source that is written: its lines *)

(** A line in which a backquote stands for a quotation mark *)
Fixpoint q (s : string) : string :=
  match s with
  | EmptyString => EmptyString
  | String c s' => String (if bool_decide (c = "`"%char) then Ascii.ascii_of_nat 34 else c) (q s')
  end.

(** [std::hex] *)
Definition hex (x : Z) : string := lower (fmt_X x).

(** A table whose last element ends with [fin]: [table.size() - 1] wraps for an
    empty one, and [at(0)] throws. *)
Definition table_lines (show : HookEntry -> string) (sep fin : string) (table : list HookEntry) : run (list string) :=
  match last table with
  | None => Fault FAssert
  | Some h => Done (((fun h => show h +:+ sep) <$> take (length table - 1) table) ++ [show h +:+ fin])
  end.

Definition banner : list string :=
  ["//Generated by That Hooker has NIDS";
   "//Made by @dots_tb dedicated to the following frenchies: @CelesteBlue123 and @Nkekev";
   "//Based of xerpi's code found here: https://pastebin.com/GeARzPqw"].
Definition do_shit (sys : bool) : list string :=
  ["static SceUID hook_uids[NID_TABLE_SIZE] = {-1, -1};"; "static tai_hook_ref_t hook_refs[NID_TABLE_SIZE];";
   "int do_shit(char *name, unsigned int nid, int r0, int r1, int r2, int r3, int r4, int r5, int r6, int r7, int r8, int r9, int r10, int r11, int r12) ";
   "{ "; "    int i = 0, ret, state; "] ++
  (if sys then ["    ENTER_SYSCALL(state);"] else []) ++
  ["    while (nid_table[i] != nid && i < NID_TABLE_SIZE) "; "        i++; ";
   q "    printf(`%s(0x%08X, 0x%08X, 0x%08X, 0x%08X)\n`,name,r0,r1,r2,r3); ";
   "    ret =  TAI_CONTINUE(int, hook_refs[i], r0, r1, r2, r3, r4, r5, r6, r7, r8, r9, r10, r11, r12); ";
   q "    printf(`%s(0x%08X, 0x%08X, 0x%08X, 0x%08X): 0x%08X\n`,name,r0,r1,r2,r3, ret); "] ++
  (if sys then ["    EXIT_SYSCALL(state);"] else []) ++
  ["    return ret;"; "}"; "#define HOOK_FUNC(name, nid) \";
   "    int name ## _hook(int r0, int r1, int r2, int r3, int r4, int r5, int r6, int r7, int r8, int r9, int r10, int r11, int r12) {\";
   q "        return do_shit(# name``, nid , r0, r1, r2, r3, r4, r5, r6, r7, r8, r9, r10, r11, r12); \";
   "    }"]%string.

Definition hook_call (function : string) (mod_name : string) : list string :=
  ["        hook_uids[i] = " +:+ function; "                &hook_refs[i],"; q "                `" +:+ mod_name +:+ q "`,";
   "                lib_table[i],"; "                nid_table[i],"; "                func_ptr_table[i]);"].

(** What stands before the three tables, and behind them *)
Definition nid_head (table : list HookEntry) : list string :=
  banner ++ ((fun h => "//0x" +:+ hex (h_nid h) +:+ " " +:+ h_nid_name h) <$> table) ++
  ["static unsigned int nid_table[] = {"%string].
Definition lib_head : list string :=
  ["#define NID_TABLE_SIZE (sizeof(nid_table) / sizeof(*nid_table))"; "static unsigned int lib_table[] = {"]%string.
Definition ptr_head (sys : bool) (table : list HookEntry) : list string :=
  do_shit sys ++ ((fun h => "HOOK_FUNC(" +:+ h_nid_name h +:+ ",0x" +:+ hex (h_nid h) +:+ ")") <$> table) ++
  ["#define HOOK_FUNC_PTR(name) \"; "        &name ## _hook"; "static void *func_ptr_table[] = {"]%string.
(** [all]: a hook that failed is tried as an import. *)
Definition hooks_init (modeText trailer mod_name : string) (all : bool) : list string :=
  ["static void hooks_init() {"; "    for (int i = 0; i < NID_TABLE_SIZE; i++)"; "        hook_uids[i] = -1;";
   "    for (int i = 0; i < NID_TABLE_SIZE; i++) {"]%string ++
  hook_call ("taiHookFunction" +:+ modeText +:+ trailer) mod_name ++
  ["        if (hook_uids[i] < 0) {"; q "            printf(`Error hooking NID 0x%08X: 0x%08X\n`,";
   "                nid_table[i], hook_uids[i]);"]%string ++
  (if all then q "        printf(`Hooking imports...`);" :: hook_call ("taiHookFunctionImport" +:+ trailer) mod_name ++
     ["            if (hook_uids[i] < 0) {"; q "                printf(`Error hooking NID 0x%08X: 0x%08X\n`,";
      "                    nid_table[i], hook_uids[i]);"; "            }"]
   else []) ++
  ["        }"; "    }"; "}"]%string.

(** [kernel]: [argv[3]] is "kernel"; [sys]: there is an [argv[5]]. *)
Definition generate (kernel sys : bool) (mode : option nid_type) (modeText mod_name : string) (table : list HookEntry)
    : run (list string) :=
  nids ← table_lines (fun h => "    0x" +:+ hex (h_nid h)) "," "};" table;
  libs ← table_lines (fun h => "    0x" +:+ hex (h_lib_nid h)) "," "};" table;
  ptrs ← table_lines (fun h => "    HOOK_FUNC_PTR(" +:+ h_nid_name h +:+ ")") "," "};" table;
  let trailer := if kernel then "ForKernel(KERNEL_PID,"%string else "("%string in
  match mode with
  | None => Fault FUninit
  | Some mode => Done (nid_head table ++ nids ++ lib_head ++ libs ++ ptr_head sys table ++ ptrs ++
      hooks_init modeText trailer mod_name (bool_decide (mode = All)))
  end.

(** The result of [main] and the source; the file on disk is created before it
    is known whether the input is a binary.  [argv]: the arguments behind the
    program's name; [file]: the input, [None] when it cannot be opened or
    read; [created]: whether the output can. *)
Definition output_path (name : string) : run string :=
  if (128 <=? String.length name + 9)%nat then Fault FMem else Done (name +:+ "_hooker.c").

Definition thgn_main (fuel : nat) (argv : list string) (file : option mem) (created : bool) : run (Z * option (list string)) :=
  match argv with
  | name :: what :: mode :: db :: rest =>
      _ ← output_path name;
      match file with
      | None => Done (1, None)
      | Some input =>
          if negb created then Done (1, None)
          else
            w ← find_module input;
            match w with
            | None => Done (1, Some [])
            | Some w =>
                '(m, text, table) ← collect fuel w what;
                mod_name ← read_str (segment w) (segment1 w + entry w + 4);
                out ← generate (bool_decide (mode = "kernel"%string)) (bool_decide (rest <> [])) m text mod_name table;
                Done (0, Some out)
            end
      end
  | _ => Done (1, None)
  end.
End Program.

(** ** What is listed *)

(** The name a hook gets: that of the database, or library and number *)
Definition db_name (db : imports) (lib_name : string) (nid : Z) : string :=
  name64 (match x ← module_named (all_modules db) lib_name; s ← vita_imports_find_function x nid; Some (stub_name s) with
          | Some f => "_" +:+ f
          | None => numbered_name lib_name nid
          end).

Lemma hook_name_spec db lib_name nid : hook_name (Some db) lib_name nid = Done (db_name db lib_name nid).
Proof. unfold hook_name. by rewrite findNameByNid_spec. Qed.

Lemma foldl_push {A} (mk : A -> HookEntry) xs : forall s : Z * list HookEntry,
  foldl (fun s x => (s.1 + 1, s.2 ++ [mk x])) s xs = (s.1 + Z.of_nat (length xs), s.2 ++ (mk <$> xs)).
Proof.
  induction xs as [|x xs IH]; intros [n hs]; cbn [foldl fmap list_fmap length fst snd].
  - by rewrite Z.add_0_r, app_nil_r.
  - rewrite IH. cbn [fst snd]. rewrite <- app_assoc. f_equal. lia.
Qed.

Lemma foldl_append {A} (f : A -> list HookEntry) ts : forall s : Z * list HookEntry,
  foldl (fun s t => (s.1 + Z.of_nat (length (f t)), s.2 ++ f t)) s ts =
  (s.1 + Z.of_nat (length (mjoin (f <$> ts))), s.2 ++ mjoin (f <$> ts)).
Proof.
  induction ts as [|t ts IH]; intros [n hs]; cbn [foldl fmap list_fmap mjoin list_join length fst snd].
  - by rewrite Z.add_0_r, app_nil_r.
  - rewrite IH. cbn [fst snd]. rewrite length_app, <- app_assoc. f_equal. by rewrite Nat2Z.inj_add, Z.add_assoc.
Qed.

(** A loop that ends with a fault at the first element that is not [ok] *)
Lemma for_loop_until {S A} (body : Z -> S -> run S) (ok : A -> bool) (f : A -> S -> S) flt xs : forall j s,
  (forall k x s, xs !! k = Some x -> body (j + Z.of_nat k) s = if ok x then Done (f x s) else Fault flt) ->
  for_loop body (length xs) j s = if forallb ok xs then Done (foldl (fun s x => f x s) s xs) else Fault flt.
Proof.
  induction xs as [|x xs IH]; intros j s Hb; cbn [length for_loop foldl forallb]; [done|].
  pose proof (Hb 0%nat x s eq_refl) as H0. rewrite Z.add_0_r in H0. rewrite H0.
  destruct (ok x); cbn [mbind run_bind andb]; [|done].
  apply IH. intros k y s' Hk. rewrite <- (Hb (Datatypes.S k) y s' Hk). f_equal. lia.
Qed.

Lemma tables_loop_until {S T} (body : Z -> S -> run (Z * S)) (size : T -> Z) (at_ : Z -> T -> Prop)
    (ok : T -> bool) (f : T -> S -> S) flt btm :
  (forall i t s, at_ i t -> body i s = if ok t then Done (size t, f t s) else Fault flt) -> btm < 2 ^ 32 ->
  forall ts i s fuel, 0 <= i -> chained size at_ i btm ts -> (length ts < fuel)%nat ->
  tables_loop body fuel i btm s = if forallb ok ts then Done (foldl (fun s t => f t s) s ts) else Fault flt.
Proof.
  intros Hb Hm. induction ts as [|t ts IH]; intros i s [|fuel] Hi Hc Hf; cbn [length] in Hf; try lia; cbn [tables_loop forallb].
  { cbn [chained] in Hc. by rewrite (proj2 (Z.ltb_ge _ _)) by lia. }
  destruct Hc as (H0 & Ha & Hc). pose proof (chained_le _ _ _ _ _ Hc).
  rewrite (proj2 (Z.ltb_lt _ _)) by lia. rewrite (Hb _ _ _ Ha). destruct (ok t); cbn [mbind run_bind andb]; [|done].
  rewrite u32_small by lia. apply IH; [lia|done|lia].
Qed.

Lemma forallb_fmap {A B} (P : B -> bool) (f : A -> B) xs : forallb P (f <$> xs) = forallb (fun x => P (f x)) xs.
Proof. induction xs as [|x xs IH]; [done|]. cbn. by f_equal. Qed.

Lemma forallb_join {A B} (P : B -> bool) (f : A -> list B) ts :
  forallb P (mjoin (f <$> ts)) = forallb (fun t => forallb P (f t)) ts.
Proof. induction ts as [|t ts IH]; [done|]. cbn [fmap list_fmap mjoin list_join]. rewrite forallb_app. cbn. by f_equal. Qed.

Section Listed.
Context (db : imports) (malloc_usable : Z -> Z) (m : mem) (segment1 vaddr : Z).

(** The name of the hook and its NUL fit into the block that is asked for;
    that of an export always does. *)
Definition room (h : HookEntry) : bool :=
  let n := Z.of_nat (String.length (h_nid_name h)) in
  bool_decide (h_nid_type h <> Import) || (n <? malloc_usable n).

(** A library as it stands in memory: its table, its name and its NIDs *)
Record library (T : Type) := Library { table_of : T; name_of : string; nids_of : list Z }.
Arguments Library {T}. Arguments table_of {T}. Arguments name_of {T}. Arguments nids_of {T}.

Definition exported_at (i : Z) (l : library SceExportsTable) : Prop :=
  exports_table m (segment1 + i) = Done (table_of l) /\
  (ex_lib_name (table_of l) <> 0 -> read_str m (segment1 + ex_lib_name (table_of l) - vaddr) = Done (name_of l)) /\
  words_at m (segment1 + ex_nid_table (table_of l) - vaddr) (nids_of l) /\
  Z.to_nat (ex_num_functions (table_of l)) = length (nids_of l).
Definition imported_at (i : Z) (l : library SceImportsTable3xx) : Prop :=
  convertToImportsTable3xx m (segment1 + i) = Done (table_of l) /\
  (im_lib_name (table_of l) <> 0 -> read_str m (segment1 + u32 (im_lib_name (table_of l) - vaddr)) = Done (name_of l)) /\
  words_at m (segment1 + im_func_nid_table (table_of l) - vaddr) (nids_of l) /\
  Z.to_nat (im_num_functions (table_of l)) = length (nids_of l).

(** The hooks of one library *)
Definition export_hooks (lib : option string) (l : library SceExportsTable) : list HookEntry :=
  let t := table_of l in
  if ex_lib_name t =? 0 then [] else if other_library lib (name_of l) then []
  else (fun nid => Hook nid (ex_module_nid t) Export (segment1 + ex_lib_name t - vaddr) (db_name db (name_of l) nid)) <$> nids_of l.
Definition import_hooks (lib : option string) (l : library SceImportsTable3xx) : list HookEntry :=
  let t := table_of l in
  if im_lib_name t =? 0 then [] else if other_library lib (name_of l) then []
  else (fun nid => Hook nid (im_module_nid t) Import (segment1 + u32 (im_lib_name t - vaddr)) (db_name db (name_of l) nid)) <$> nids_of l.

Lemma same_state (s : Z * list HookEntry) : (s.1 + Z.of_nat (length (@nil HookEntry)), s.2 ++ []) = s.
Proof. destruct s as [n hs]. cbn. by rewrite Z.add_0_r, app_nil_r. Qed.

Lemma export_table_spec lib i l s : exported_at i l ->
  export_table (Some db) m segment1 vaddr lib i s =
  Done (ex_size (table_of l), (s.1 + Z.of_nat (length (export_hooks lib l)), s.2 ++ export_hooks lib l)).
Proof.
  intros (Ht & Hn & Hw & Hl). unfold export_table. rewrite Ht. cbn [mbind run_bind]. rewrite Hl. unfold export_hooks.
  destruct (Z.eqb_spec (ex_lib_name (table_of l)) 0) as [E|E]; [|destruct (other_library lib (name_of l)) eqn:Eo].
  - rewrite for_loop_const, same_state; [done|]. intros k _. unfold export_entry. by rewrite E.
  - rewrite for_loop_const, same_state; [done|]. intros k _. unfold export_entry.
    rewrite (proj2 (Z.eqb_neq _ _) E), (Hn E). cbn [mbind run_bind]. by rewrite Eo.
  - erewrite for_loop_spec; [rewrite foldl_push, length_fmap; done|]. intros k nid s' Hk. unfold export_entry.
    rewrite (proj2 (Z.eqb_neq _ _) E), (Hn E). cbn [mbind run_bind]. rewrite Eo, Z.add_0_l, (Hw _ _ Hk). cbn [mbind run_bind].
    by rewrite hook_name_spec.
Qed.

Lemma import_table_spec lib i l s : imported_at i l ->
  import_table (Some db) malloc_usable m segment1 vaddr lib i s =
  if forallb room (import_hooks lib l)
  then Done (im_size (table_of l), (s.1 + Z.of_nat (length (import_hooks lib l)), s.2 ++ import_hooks lib l))
  else Fault FMem.
Proof.
  intros (Ht & Hn & Hw & Hl). unfold import_table. rewrite Ht. cbn [mbind run_bind]. rewrite Hl. unfold import_hooks.
  destruct (Z.eqb_spec (im_lib_name (table_of l)) 0) as [E|E]; [|destruct (other_library lib (name_of l)) eqn:Eo].
  - rewrite for_loop_const, same_state; [done|]. intros k _. unfold import_entry. by rewrite E.
  - rewrite for_loop_const, same_state; [done|]. intros k _. unfold import_entry.
    rewrite (proj2 (Z.eqb_neq _ _) E), (Hn E). cbn [mbind run_bind]. by rewrite Eo.
  - set (mk := fun nid : Z => Hook nid _ _ _ _).
    rewrite (for_loop_until _ (fun nid => room (mk nid)) (fun nid s => (s.1 + 1, s.2 ++ [mk nid])) FMem).
    + rewrite foldl_push, length_fmap. rewrite forallb_fmap. by destruct (forallb _ _).
    + intros k nid s' Hk. unfold import_entry.
      rewrite (proj2 (Z.eqb_neq _ _) E), (Hn E). cbn [mbind run_bind]. rewrite Eo, Z.add_0_l, (Hw _ _ Hk). cbn [mbind run_bind].
      rewrite hook_name_spec. cbn [mbind run_bind]. unfold room. cbn [h_nid_type h_nid_name mk].
      rewrite bool_decide_eq_false_2 by (intros H; by apply H). cbn [orb].
      do 2 case_match; try done; lia.
Qed.

Lemma export_room lib l : forallb room (export_hooks lib l) = true.
Proof.
  apply forallb_forall. intros h Hh%list_elem_of_In. unfold export_hooks in Hh.
  repeat case_match; try (by apply elem_of_nil in Hh). by apply list_elem_of_fmap in Hh as (nid & -> & _).
Qed.

(** The tables of a module whose module information is at [mod_info] *)
Definition module_tables (mod_info : Z) (es : list (library SceExportsTable)) (is_ : list (library SceImportsTable3xx)) : Prop :=
  exists et eb it ib, expTop m mod_info = Done et /\ expBtm m mod_info = Done eb /\
    impTop m mod_info = Done it /\ impBtm m mod_info = Done ib /\ 0 <= et /\ eb < 2 ^ 32 /\ 0 <= it /\ ib < 2 ^ 32 /\
    chained (fun l => ex_size (table_of l)) exported_at et eb es /\
    chained (fun l => im_size (table_of l)) imported_at it ib is_.

Lemma getExports_spec fuel mod_info es is_ lib nids : module_tables mod_info es is_ -> (length es < fuel)%nat ->
  getExports (Some db) m segment1 vaddr lib fuel mod_info nids =
  let hs := mjoin (export_hooks lib <$> es) in Done (Z.of_nat (length hs), nids ++ hs).
Proof.
  intros (et & eb & it & ib & E1 & E2 & _ & _ & H0 & Hb & _ & _ & Hc & _) Hf. unfold getExports. rewrite E1, E2. cbn [mbind run_bind].
  erewrite (tables_loop_spec _ _ _ (fun l s => (s.1 + Z.of_nat (length (export_hooks lib l)), s.2 ++ export_hooks lib l)));
    [|by intros; apply export_table_spec|done..]. by rewrite foldl_append.
Qed.

Lemma getImports_spec fuel mod_info es is_ lib nids : module_tables mod_info es is_ -> (length is_ < fuel)%nat ->
  getImports (Some db) malloc_usable m segment1 vaddr lib fuel mod_info nids =
  let hs := mjoin (import_hooks lib <$> is_) in
  if forallb room hs then Done (Z.of_nat (length hs), nids ++ hs) else Fault FMem.
Proof.
  intros (et & eb & it & ib & _ & _ & E1 & E2 & _ & _ & H0 & Hb & _ & Hc) Hf. unfold getImports. rewrite E1, E2. cbn [mbind run_bind].
  erewrite (tables_loop_until _ _ _ (fun l => forallb room (import_hooks lib l))
    (fun l s => (s.1 + Z.of_nat (length (import_hooks lib l)), s.2 ++ import_hooks lib l)));
    [|by intros; apply import_table_spec|done..]. rewrite foldl_append. cbv zeta. by rewrite forallb_join.
Qed.

(** The hooks for [argv[2]], which is a keyword or the name of a library *)
Definition hooks_wanted (what : string) (es : list (library SceExportsTable)) (is_ : list (library SceImportsTable3xx))
    : list HookEntry :=
  let exports lib := mjoin (export_hooks lib <$> es) in
  let imports lib := mjoin (import_hooks lib <$> is_) in
  if bool_decide (what = "exports"%string) then exports None
  else if bool_decide (what = "imports"%string) then imports None
  else if bool_decide (what = "all"%string) then exports None ++ imports None
  else exports (Some what) ++ imports (Some what).

(** The kind of hooks that are set: that of the keyword; for the name of a
    library, that of the tables in which it was found *)
Definition kind_wanted (what : string) (es : list (library SceExportsTable)) (is_ : list (library SceImportsTable3xx))
    : nid_type :=
  if bool_decide (what = "exports"%string) then Export
  else if bool_decide (what = "imports"%string) then Import
  else if bool_decide (what = "all"%string) then All
  else match mjoin (export_hooks (Some what) <$> es), mjoin (import_hooks (Some what) <$> is_) with
       | _ :: _, _ :: _ => All
       | _, [] => Export
       | [], _ => Import
       end.

Definition mode_text (mode : nid_type) : string := match mode with Import => "Import" | _ => "Export" end.

Lemma exports_room lib es : forallb room (mjoin (export_hooks lib <$> es)) = true.
Proof. rewrite forallb_join. apply forallb_forall. intros l _. apply export_room. Qed.

Lemma collected fuel w what es is_ : segment w = m -> Thgn.segment1 w = segment1 -> Thgn.vaddr w = vaddr ->
  module_tables (segment1 + entry w) es is_ -> (length es < fuel)%nat -> (length is_ < fuel)%nat ->
  hooks_wanted what es is_ <> [] ->
  let kind := kind_wanted what es is_ in
  collect malloc_usable (Some db) fuel w what =
    if forallb room (hooks_wanted what es is_) then Done (Some kind, mode_text kind, hooks_wanted what es is_)
    else Fault FMem.
Proof.
  intros Em Es Ev Ht He Hi. unfold collect, hooks_wanted, kind_wanted. rewrite Em, Es, Ev.
  pose proof (fun lib nids => getExports_spec fuel _ es is_ lib nids Ht He) as HE.
  pose proof (fun lib nids => getImports_spec fuel _ es is_ lib nids Ht Hi) as HI. cbv zeta in HE, HI.
  case_bool_decide; [|case_bool_decide; [|case_bool_decide]]; intros Hne; cbv zeta; rewrite ?HE, ?HI; cbn [mbind run_bind app];
    rewrite ?HI, ?forallb_app, ?exports_room; cbn [andb].
  1, 2, 3: by try destruct (forallb room _).
  set (hes := mjoin (export_hooks (Some what) <$> es)) in *. set (his := mjoin (import_hooks (Some what) <$> is_)) in *.
  destruct hes as [|h hes], his as [|h' his]; [done|..]; cbn [length]; destruct (forallb room _); try done;
    by rewrite ?(proj2 (Z.ltb_lt _ _)) by lia.
Qed.

Lemma table_lines_spec show sep fin (table : list HookEntry) : table <> [] -> exists ls,
  table_lines show sep fin table = Done ls /\ length ls = length table /\
  forall k h, table !! k = Some h -> ls !! k = Some (show h +:+ (if (S k =? length table)%nat then fin else sep)).
Proof.
  intros Hne. destruct table as [|h t _] using rev_ind; [done|]. unfold table_lines. rewrite last_snoc. eexists. split; [done|].
  rewrite !length_app, Nat.add_sub, take_app_length. split; [by rewrite length_fmap|].
  intros k h'. destruct (Nat.lt_ge_cases k (length t)) as [Hk|Hk].
  - rewrite !lookup_app_l by (rewrite ?length_fmap; lia). rewrite list_lookup_fmap. intros ->. cbn [fmap option_fmap option_map length].
    by rewrite (proj2 (Nat.eqb_neq _ _)) by lia.
  - rewrite !lookup_app_r by (rewrite ?length_fmap; lia). rewrite length_fmap. destruct (k - length t)%nat eqn:E; [|done].
    intros [= <-]. cbn [lookup list_lookup length]. by rewrite (proj2 (Nat.eqb_eq _ _)) by lia.
Qed.
End Listed.
Arguments Library {T}. Arguments table_of {T}. Arguments name_of {T}. Arguments nids_of {T}.

(** The lines of the three tables of the source: the NIDs, the NIDs of the
    libraries and the hooks *)
Definition lists_hooks (table : list HookEntry) (nids libs ptrs : list string) : Prop :=
  length nids = length table /\ length libs = length table /\ length ptrs = length table /\
  forall k h, table !! k = Some h -> let last := (S k =? length table)%nat in
    nids !! k = Some ("    0x" +:+ hex (h_nid h) +:+ if last then "};" else ",") /\
    libs !! k = Some ("    0x" +:+ hex (h_lib_nid h) +:+ if last then "};" else ",") /\
    ptrs !! k = Some ("    HOOK_FUNC_PTR(" +:+ h_nid_name h +:+ ")" +:+ if last then "};" else ",").

Lemma generate_spec kernel sys md text mod_name table : table <> [] -> exists nids libs ptrs,
  generate kernel sys (Some md) text mod_name table =
    Done (nid_head table ++ nids ++ lib_head ++ libs ++ ptr_head sys table ++ ptrs ++
          hooks_init text (if kernel then "ForKernel(KERNEL_PID," else "(") mod_name (bool_decide (md = All))) /\
  lists_hooks table nids libs ptrs.
Proof.
  intros Hne. unfold generate.
  destruct (table_lines_spec (fun h => "    0x" +:+ hex (h_nid h)) "," "};" table Hne) as (nids & -> & Ln & Kn).
  destruct (table_lines_spec (fun h => "    0x" +:+ hex (h_lib_nid h)) "," "};" table Hne) as (libs & -> & Ll & Kl).
  destruct (table_lines_spec (fun h => "    HOOK_FUNC_PTR(" +:+ h_nid_name h +:+ ")") "," "};" table Hne) as (ptrs & -> & Lp & Kp).
  cbn [mbind run_bind].
  exists nids, libs, ptrs. split; [reflexivity|].
  split; [done|]. split; [done|]. split; [done|]. intros k h Hk. cbv zeta.
  rewrite (Kn k h Hk), (Kl k h Hk), (Kp k h Hk). by rewrite !string_app_assoc.
Qed.

(** C33: For a module whose tables are in place, and at least one hook that is
    wanted, what the program does depends only on the blocks that [malloc]
    gives for the names of imports.  If each of those has room for the NUL as
    well, it ends with 0, and the source it writes has, for the hooks of the
    wanted libraries in the order of the module's tables, exports first, one
    line in each of its three tables: the NID, the NID of the library, and the
    hook by the name that the database has for the NID, or of library and
    number; the hooks that [hooks_init] sets are of the kind [kind_wanted].
    If one has none, the copy of its name runs over the block. *)
Theorem hooker_lists_hooks uncompress malloc_usable db fuel argv0 what kernel dbname rest input w mod_name es is_ :
  (String.length argv0 + 9 < 128)%nat ->
  find_module uncompress input = Done (Some w) ->
  read_str (segment w) (segment1 w + entry w + 4) = Done mod_name ->
  module_tables (segment w) (segment1 w) (vaddr w) (segment1 w + entry w) es is_ ->
  (length es < fuel)%nat -> (length is_ < fuel)%nat ->
  let table := hooks_wanted db (segment1 w) (vaddr w) what es is_ in table <> [] ->
  let run := thgn_main uncompress malloc_usable (Some db) fuel (argv0 :: what :: kernel :: dbname :: rest) (Some input) true in
  let has_room h := h_nid_type h = Import ->
    Z.of_nat (String.length (h_nid_name h)) < malloc_usable (Z.of_nat (String.length (h_nid_name h))) in
  ((forall h, h ∈ table -> has_room h) -> exists nids libs ptrs,
    let kind := kind_wanted db (segment1 w) (vaddr w) what es is_ in
    run = Done (0, Some (nid_head table ++ nids ++ lib_head ++ libs ++ ptr_head (bool_decide (rest <> [])) table ++ ptrs ++
      hooks_init (mode_text kind) (if bool_decide (kernel = "kernel"%string) then "ForKernel(KERNEL_PID," else "(")
        mod_name (bool_decide (kind = All)))) /\
    lists_hooks table nids libs ptrs) /\
  ((exists h, h ∈ table /\ ~ has_room h) -> run = Fault FMem).
Proof.
  intros Hl Hw Hn Ht He Hi table Hne run has_room. subst run. unfold thgn_main, output_path. rewrite (proj2 (Nat.leb_gt _ _)) by lia.
  cbn [mbind run_bind negb]. rewrite Hw. cbn [mbind run_bind].
  rewrite (collected db malloc_usable _ _ _ fuel w what es is_ eq_refl eq_refl eq_refl Ht He Hi Hne). fold table.
  assert (forall h, room malloc_usable h = true <-> has_room h) as Hroom.
  { intros h. unfold room, has_room. case_bool_decide as E; cbn [orb]; [done|]. rewrite Z.ltb_lt.
    split; [done|]. intros H. apply H. destruct (decide (h_nid_type h = Import)); done. }
  destruct (forallb _ table) eqn:Ef.
  - split.
    + intros _. cbn [mbind run_bind]. rewrite Hn. cbn [mbind run_bind].
      edestruct generate_spec as (nids & libs & ptrs & -> & H); [exact Hne|]. by exists nids, libs, ptrs.
    + intros (h & Hh & Hno). destruct Hno. apply Hroom. by apply (proj1 (forallb_forall _ _) Ef), list_elem_of_In.
  - split; [|done]. intros Hall. exfalso. rewrite (proj2 (forallb_forall _ _)) in Ef; [done|].
    intros h Hh%list_elem_of_In. by apply Hroom, Hall.
Qed.

(** ** What goes wrong *)

(** Where an allocated block holds no more than was asked for, the first
    import ends in the byte behind its block: the name is copied with a NUL
    there is no room for. *)
Theorem first_import_overruns db m segment1 vaddr i t name nid s :
  convertToImportsTable3xx m (segment1 + i) = Done t -> 0 < im_num_functions t -> im_lib_name t <> 0 ->
  read_str m (segment1 + u32 (im_lib_name t - vaddr)) = Done name ->
  load32 m (segment1 + im_func_nid_table t - vaddr) = Done nid ->
  import_table (Some db) (fun n => n) m segment1 vaddr None i s = Fault FMem.
Proof.
  intros Ht Hn Hl Hr Hw. unfold import_table. rewrite Ht. cbn [mbind run_bind].
  destruct (Z.to_nat (im_num_functions t)) eqn:E; [lia|]. cbn [for_loop].
  assert (import_entry (Some db) (fun n => n) m segment1 vaddr None t 0 s = Fault FMem) as ->; [|done].
  unfold import_entry. rewrite (proj2 (Z.eqb_neq _ _) Hl), Hr. cbn [mbind run_bind other_library].
  change (4 * 0) with 0. rewrite Z.add_0_r, Hw. cbn [mbind run_bind]. rewrite hook_name_spec. cbn [mbind run_bind].
  by rewrite (proj2 (Z.ltb_lt _ _)) by lia.
Qed.

(** A table of an unknown size, as later firmwares have them, is never left. *)
Lemma unknown_import_format_hangs db usable m segment1 vaddr lib mod_info top btm size nids :
  impTop m mod_info = Done top -> impBtm m mod_info = Done btm -> 0 <= top < btm -> btm < 2 ^ 32 ->
  load16 m (segment1 + top) = Done size -> size <> 36 -> size <> 52 ->
  forall fuel, getImports (Some db) usable m segment1 vaddr lib fuel mod_info nids = OutOfFuel.
Proof.
  intros Et Eb Hi Hb Es H36 H52 fuel. unfold getImports. rewrite Et, Eb. cbn [mbind run_bind]. apply tables_loop_stuck; [done..|].
  intros s. exists s. unfold import_table, convertToImportsTable3xx. rewrite Es. cbn [mbind run_bind].
  unfold sizeof_2xx, sizeof_3xx. rewrite (proj2 (Z.eqb_neq _ _) H36), (proj2 (Z.eqb_neq _ _) H52). done.
Qed.

(** Without a hook the program is ended by an exception. *)
Lemma no_hooks_abort kernel sys mode text mod_name : generate kernel sys mode text mod_name [] = Fault FAssert.
Proof. done. Qed.

(** ** A module with two exports and an import *)

Definition sample_elf : mem :=
  elf_magic ++ replicate 8 0 ++
  bytes_of [half 0; half 0; word 0; word 0; word 52; word 0; word 0; half 0; half 0; half 0; half 0; half 0; half 0;
    word 1; word 84; word 0x81000000; word 0; word 0; word 0; word 0; word 0; half 0; half 0] ++
  str_bytes "mod" ++ replicate 25 0 ++
  bytes_of [word 0; word 92; word 124; word 124; word 160; word 7; word 0; word 0; word 0; word 0; word 0; word 0; word 0;
    word 0; word 0;
    half 32; half 0; half 0; half 2; word 0; word 0; word 0x11; word (0x81000000 + 160); word (0x81000000 + 164); word 0;
    half 36; half 0; half 0; half 1; half 0; half 0; word 0x22; word (0x81000000 + 172); word (0x81000000 + 176); word 0; word 0; word 0] ++
  str_bytes "abc" ++ [0] ++ bytes_of [word 0x10; word 0x20] ++ str_bytes "xyz" ++ [0] ++ bytes_of [word 0x30].
Definition sample_db : imports := Imports_ [Some (Lib "lib" 1 [Some (Module_ "abc" 2 false [Some (Stub "f" 0x10)] [])])].
Definition sample_exports : list (library SceExportsTable) :=
  [Library (Exports_ 32 0 0 2 0 0 0x11 (0x81000000 + 160) (0x81000000 + 164) 0) "abc" [0x10; 0x20]].
Definition sample_imports_ : list (library SceImportsTable3xx) :=
  [Library (Imports3xx_ 36 0 0 1 0 0 0x22 (0x81000000 + 172) (0x81000000 + 176) 0 0 0) "xyz" [0x30]].
Definition no_zlib (n : Z) (m : mem) : Z * Z * mem := (0, n, m).

(** An allocator of blocks a byte longer than asked for, and one of blocks as
    long as asked for *)
Lemma hooker_lists_hooks_witness :
  (exists a nids b libs c ptrs,
    thgn_main no_zlib (fun n => n + 1) (Some sample_db) 3 ["m.elf"; "all"; "user"; "db.yml"] (Some sample_elf) true =
      Done (0, Some (a ++ nids ++ b ++ libs ++ c ++ ptrs ++ hooks_init "Export" "(" "mod" true)) /\
    nids !! 1%nat = Some "    0x20," /\ libs !! 2%nat = Some "    0x22};" /\ ptrs !! 0%nat = Some "    HOOK_FUNC_PTR(_f),") /\
  thgn_main no_zlib (fun n => n) (Some sample_db) 3 ["m.elf"; "all"; "user"; "db.yml"] (Some sample_elf) true = Fault FMem.
Proof.
  pose proof (fun usable => hooker_lists_hooks no_zlib usable sample_db 3 "m.elf" "all" "user" "db.yml" [] sample_elf
    (ModuleAt sample_elf 84 0 0x81000000) "mod" sample_exports sample_imports_) as H.
  assert (forall usable, let table := hooks_wanted sample_db 84 0x81000000 "all" sample_exports sample_imports_ in
    let run := thgn_main no_zlib usable (Some sample_db) 3 ["m.elf"; "all"; "user"; "db.yml"] (Some sample_elf) true in
    let has_room h := h_nid_type h = Import ->
      Z.of_nat (String.length (h_nid_name h)) < usable (Z.of_nat (String.length (h_nid_name h))) in
    ((forall h, h ∈ table -> has_room h) -> exists nids libs ptrs,
      run = Done (0, Some (nid_head table ++ nids ++ lib_head ++ libs ++ ptr_head false table ++ ptrs ++
        hooks_init "Export" "(" "mod" true)) /\ lists_hooks table nids libs ptrs) /\
    ((exists h, h ∈ table /\ ~ has_room h) -> run = Fault FMem)) as Hs.
  { intros usable. specialize (H usable). apply H; clear H.
    - cbn. lia.
    - vm_compute. reflexivity.
    - vm_compute. reflexivity.
    - exists 92, 124, 124, 160. repeat (split; [vm_compute; first [reflexivity | discriminate]|]). split.
      + cbn [chained sample_exports table_of ex_size]. split; [lia|]. split; [|done].
        split; [vm_compute; reflexivity|]. split; [intros _; vm_compute; reflexivity|]. split; [|reflexivity].
        intros [|[|k]] x; cbn [lookup list_lookup nids_of]; intros [= <-]; vm_compute; reflexivity.
      + cbn [chained sample_imports_ table_of im_size]. split; [lia|]. split; [|done].
        split; [vm_compute; reflexivity|]. split; [intros _; vm_compute; reflexivity|]. split; [|reflexivity].
        intros [|k] x; cbn [lookup list_lookup nids_of]; intros [= <-]; vm_compute; reflexivity.
    - cbn. lia.
    - cbn. lia.
    - vm_compute. discriminate. }
  clear H. split.
  - destruct (Hs (fun n => n + 1)) as [(nids & libs & ptrs & -> & _ & _ & _ & H) _]; [intros h _ _; lia|].
    eexists _, nids, _, libs, _, ptrs. split; [reflexivity|]. split; [|split].
    + destruct (H 1%nat (Hook 0x20 0x11 Export (84 + 160) "abc_00000020") ltac:(vm_compute; reflexivity)) as (-> & _). vm_compute. reflexivity.
    + destruct (H 2%nat (Hook 0x30 0x22 Import (84 + 172) "xyz_00000030") ltac:(vm_compute; reflexivity)) as (_ & -> & _). vm_compute. reflexivity.
    + destruct (H 0%nat (Hook 0x10 0x11 Export (84 + 160) "_f") ltac:(vm_compute; reflexivity)) as (_ & _ & ->). vm_compute. reflexivity.
  - apply (Hs (fun n => n)). exists (Hook 0x30 0x22 Import (84 + 172) "xyz_00000030"). split.
    + apply (list_elem_of_lookup_2 _ 2). vm_compute. reflexivity.
    + intros Hr. specialize (Hr eq_refl). lia.
Defined.

Lemma first_import_overruns_witness :
  import_table (Some sample_db) (fun n => n) sample_elf 84 0x81000000 None 124 (0, []) = Fault FMem.
Proof.
  apply (first_import_overruns sample_db sample_elf 84 0x81000000 124 (Imports3xx_ 36 0 0 1 0 0 0x22 (0x81000000 + 172) (0x81000000 + 176) 0 0 0)
    "xyz" 0x30); vm_compute; first [reflexivity | discriminate].
Defined.
