(* ===== verification/VitaModule.v ===== *)
(** * The libraries of a module as symbols and as a database

    vitadecompiler-mod/src/vita.cpp, [analyseVitaModule], with the symbol table
    of main.cpp: every exported and imported function becomes a symbol, a line
    in the list of NIDs and, if exported, an entry of a new import database.
    [data] is the first segment, made for [text_addr]; addresses on the host
    have 32 bits.  Messages on the console are left out. *)

From stdpp Require Import prelude gmap strings pretty.
From Stdlib Require Import Ascii.
From S2P Require Import Prelude Bytes CString Yaml VitaImport Nids.

Open Scope Z_scope.

(** ** Symbols (main.h, main.cpp) *)

Definition SYMBOL_SUBROUTINE : Z := 0x1.
Definition SYMBOL_LABEL : Z := 0x2.
Definition SYMBOL_STRING : Z := 0x4.
Definition SYMBOL_EXPORT : Z := 0x8.
Definition SYMBOL_IMPORT : Z := 0x10.
Definition MAX_ARGS : nat := 11.

Record SymbolEntry := Symbol { s_type : Z; s_name : string; n_args : Z; args_stats : list Z }.
(** The null entries that [operator[]] leaves behind are absent here. *)
Abbreviation SymbolMap := (gmap Z SymbolEntry).

(** The first symbol of an address stays. *)
Definition addSymbol (addr : Z) (name : string) (type : Z) (g_symbol_map : SymbolMap) : SymbolMap :=
  match g_symbol_map !! addr with
  | None => <[addr := Symbol type name 0 (replicate MAX_ARGS 0)]> g_symbol_map
  | Some _ => g_symbol_map
  end.

(** ** Text *)

(** [printf] of a text that is taken for the format: a conversion reads an
    argument there is none for. *)
Fixpoint printf_plain (s : string) : run string :=
  match s with
  | EmptyString => Done EmptyString
  | String c s' =>
      if bool_decide (c = "%"%char) then
        match s' with
        | String d s'' => if bool_decide (d = "%"%char) then r ← printf_plain s''; Done (String c r) else Fault FUninit
        | EmptyString => Fault FUninit
        end
      else r ← printf_plain s'; Done (String c r)
  end.

(** A number in an output stream: decimal, or hexadecimal with its base in
    front, except for 0 *)
Definition put (hex : bool) (x : Z) : string :=
  if hex then (if (x =? 0)%Z then "0" else "0x" +:+ lower (fmt_X x)) else pretty x.

(** [{name}_{NID}: 0x{NID}] and the other hexadecimal numbers of the database *)
Definition hex08 (x : Z) : string := "0x" +:+ fmt_0X 8 x.

Definition syslib_nids : list (Z * string) :=
  [(0x70FBA1E7, "module_process_param"); (0x6C2224BA, "module_info"); (0x935CD196, "module_start");
   (0x79F8E492, "module_stop"); (0x913482A9, "module_exit")]%string.

(** [for (uint32_t i = 0; i < ...; i++) if (syslib_nids[i].nid == nid)]: the
    last match; without one [name] is not set. *)
Definition syslib_name (nid : Z) : run string :=
  match last (filter (fun e => e.1 = nid) syslib_nids) with
  | Some e => Done (name64 e.2)
  | None => Fault FUninit
  end.

(** The symbols, the lines of both files, whether numbers in the list of NIDs
    are hexadecimal by now, and the counter [x] *)
Record vstate := VState { symbols : SymbolMap; fnids : list string; fyml : list string; hex : bool; x : Z }.

(** ** The analysis *)

Section Analyse.
Context (imps : option imports) (data : mem) (text_addr : Z).

(** [findNameByNid], whose result is the format of [snprintf] *)
Definition symbol_name (lib_name : string) (nid : Z) : run string :=
  funcName ← findNameByNid imps lib_name nid;
  match funcName with
  | Some f => r ← printf_plain f; Done (name64 r)
  | None => Done (name64 (numbered_name lib_name nid))
  end.

Definition fnids_line (s : vstate) (name : string) (nid addr : Z) : string :=
  "//" +:+ pretty (x s) +:+ ": " +:+ name +:+ " " +:+ put true nid +:+ " @OFF: " +:+ put true (u32 (addr - text_addr)) +:+
  " VADDR: " +:+ put true addr.

Definition lib_comment (s : vstate) (lib_name : string) (module_nid : Z) : list string :=
  [""; "//" +:+ lib_name +:+ ":" +:+ put (hex s) module_nid].

Definition yml_lib (t : SceExportsTable) (n : string) : list string :=
  ["      " +:+ n +:+ ":"; "        nid: " +:+ hex08 (ex_module_nid t);
   "        kernel: " +:+ (if (Z.land (ex_attribute t) 0x4000 =? 0)%Z then "true" else "false"); "        functions:"].
(** [lib_name]: [None] when the field is null *)
Definition export_lib (t : SceExportsTable) (lib_name : option string) (s : vstate) : vstate :=
  match lib_name with
  | None => s
  | Some n =>
      VState (symbols s) (fnids s ++ lib_comment s n (ex_module_nid t))
        (fyml s ++ yml_lib t n) (hex s) (x s)
  end.

Definition export_one (t : SceExportsTable) (lib_name : option string) (j : Z) (s : vstate) : run vstate :=
  nid ← load32 data (u32 (ex_nid_table t - text_addr) + 4 * j);
  addr ← load32 data (u32 (ex_entry_table t - text_addr) + 4 * j);
  name ← match lib_name with Some n => symbol_name n nid | None => syslib_name nid end;
  let yml := match lib_name with
             | Some n => ["          " +:+ numbered_name n nid +:+ ": " +:+ hex08 nid]
             | None => []
             end in
  let wrong := if addr <? text_addr then ["///Something is wrong with NID " +:+ name] else [] in
  Done (VState (addSymbol (Z.land addr 0xFFFFFFFE) name (Z.lor SYMBOL_SUBROUTINE SYMBOL_EXPORT) (symbols s))
          (fnids s ++ [fnids_line s name nid addr] ++ wrong) (fyml s ++ yml) true (x s + 1)).

Definition export_step (i : Z) (s : vstate) : run (Z * vstate) :=
  t ← exports_table data i;
  lib_name ← (if ex_lib_name t =? 0 then Done None
              else n ← read_str data (u32 (ex_lib_name t - text_addr)); Done (Some n));
  s ← for_loop (export_one t lib_name) (Z.to_nat (u32 (ex_num_functions t + ex_num_vars t))) 0 (export_lib t lib_name s);
  Done (ex_size t, s).

Definition import_one (t : SceImportsTable3xx) (lib_name : string) (j : Z) (s : vstate) : run vstate :=
  nid ← load32 data (u32 (im_func_nid_table t - text_addr) + 4 * j);
  addr ← load32 data (u32 (im_func_entry_table t - text_addr) + 4 * j);
  name ← symbol_name lib_name nid;
  let type := Z.lor SYMBOL_SUBROUTINE SYMBOL_IMPORT in
  Done (VState (addSymbol (u32 (addr + 4)) name type (addSymbol addr name type (symbols s)))
          (fnids s ++ [fnids_line s name nid addr]) (fyml s) true (x s + 1)).

Definition import_step (i : Z) (s : vstate) : run (Z * vstate) :=
  t ← convertToImportsTable3xx data i;
  s ← (if im_lib_name t =? 0 then Done s
       else
         lib_name ← read_str data (u32 (im_lib_name t - text_addr));
         for_loop (import_one t lib_name) (Z.to_nat (im_num_functions t)) 0
           (VState (symbols s) (fnids s ++ lib_comment s lib_name (im_module_nid t)) (fyml s) (hex s) (x s)));
  Done (im_size t, s).

Definition yml_head (opt_ver mod_name : string) (nid : Z) : list string :=
  ["version: 0x2"; "firmware: " +:+ opt_ver; "modules:"; "  " +:+ mod_name +:+ ":"; "    nid: " +:+ hex08 nid;
   "    libraries:"].

(** The lines of [{path}.nids.txt] and of [{module name}.yml] end up in the
    state; the result is the offset of the module information, which is the
    one it was given. *)
Definition analyseVitaModule (fuel : nat) (offset : Z) (opt_ver : string) (g_symbol_map : SymbolMap) : run (Z * vstate) :=
  mod_name ← read_str data (offset + 4);
  nid ← load32 data (offset + 52);
  expTop ← load32 data (offset + 36); expBtm ← load32 data (offset + 40);
  impTop ← load32 data (offset + 44); impBtm ← load32 data (offset + 48);
  s ← tables_loop export_step fuel expTop expBtm
        (VState g_symbol_map ["//EXPORTS: "] (yml_head opt_ver mod_name nid) false 0);
  s ← tables_loop import_step fuel impTop impBtm
        (VState (symbols s) (fnids s ++ ["//IMPORTS: "]) (fyml s) (hex s) 0);
  Done (offset, s).
End Analyse.

(** ** What the symbols are *)

(** A function of a library: its NID, its address, and the name it gets *)
Record func := Func { f_nid : Z; f_addr : Z; f_name : string }.
(** A library as it stands in memory; an export may have no name. *)
Record exported := Exported { e_table : SceExportsTable; e_name : option string; e_funcs : list func }.
Record imported := Imported { i_table : SceImportsTable3xx; i_name : string; i_funcs : list func }.

Section Symbols.
Context (imps : option imports) (data : mem) (text_addr : Z).

Definition exported_at (i : Z) (e : exported) : Prop :=
  let t := e_table e in
  exports_table data i = Done t /\
  match e_name e with
  | None => ex_lib_name t = 0
  | Some n => ex_lib_name t <> 0 /\ read_str data (u32 (ex_lib_name t - text_addr)) = Done n
  end /\
  words_at data (u32 (ex_nid_table t - text_addr)) (f_nid <$> e_funcs e) /\
  words_at data (u32 (ex_entry_table t - text_addr)) (f_addr <$> e_funcs e) /\
  Z.to_nat (u32 (ex_num_functions t + ex_num_vars t)) = length (e_funcs e) /\
  Forall (fun f => match e_name e with Some n => symbol_name imps n (f_nid f) | None => syslib_name (f_nid f) end =
    Done (f_name f)) (e_funcs e).

Definition imported_at (i : Z) (e : imported) : Prop :=
  let t := i_table e in
  convertToImportsTable3xx data i = Done t /\ im_lib_name t <> 0 /\
  read_str data (u32 (im_lib_name t - text_addr)) = Done (i_name e) /\
  words_at data (u32 (im_func_nid_table t - text_addr)) (f_nid <$> i_funcs e) /\
  words_at data (u32 (im_func_entry_table t - text_addr)) (f_addr <$> i_funcs e) /\
  Z.to_nat (im_num_functions t) = length (i_funcs e) /\
  Forall (fun f => symbol_name imps (i_name e) (f_nid f) = Done (f_name f)) (i_funcs e).

(** The effect of one function, and of one library *)
Definition with_export (n : option string) (f : func) (s : vstate) : vstate :=
  VState (addSymbol (Z.land (f_addr f) 0xFFFFFFFE) (f_name f) (Z.lor SYMBOL_SUBROUTINE SYMBOL_EXPORT) (symbols s))
    (fnids s ++ [fnids_line text_addr s (f_name f) (f_nid f) (f_addr f)] ++
       (if f_addr f <? text_addr then ["///Something is wrong with NID " +:+ f_name f] else []))
    (fyml s ++ match n with Some n => ["          " +:+ numbered_name n (f_nid f) +:+ ": " +:+ hex08 (f_nid f)] | None => [] end)
    true (x s + 1).
Definition with_exported (e : exported) (s : vstate) : vstate :=
  foldl (fun s f => with_export (e_name e) f s) (export_lib (e_table e) (e_name e) s) (e_funcs e).
Definition with_import (f : func) (s : vstate) : vstate :=
  let type := Z.lor SYMBOL_SUBROUTINE SYMBOL_IMPORT in
  VState (addSymbol (u32 (f_addr f + 4)) (f_name f) type (addSymbol (f_addr f) (f_name f) type (symbols s)))
    (fnids s ++ [fnids_line text_addr s (f_name f) (f_nid f) (f_addr f)]) (fyml s) true (x s + 1).
Definition with_imported (e : imported) (s : vstate) : vstate :=
  foldl (fun s f => with_import f s)
    (VState (symbols s) (fnids s ++ lib_comment s (i_name e) (im_module_nid (i_table e))) (fyml s) (hex s) (x s)) (i_funcs e).

Lemma export_step_spec i e s : exported_at i e ->
  export_step imps data text_addr i s = Done (ex_size (e_table e), with_exported e s).
Proof.
  intros (Ht & Hn & Hw & Ha & Hl & Hf). unfold export_step. rewrite Ht. cbn [mbind run_bind].
  match goal with |- (?m ≫= _) = _ => assert (m = Done (e_name e)) as -> end.
  { destruct (e_name e) as [n|]; [|by rewrite Hn]. destruct Hn as [H0 Hn]. rewrite (proj2 (Z.eqb_neq _ _) H0), Hn. done. }
  cbn [mbind run_bind]. rewrite Hl. erewrite for_loop_spec; [done|]. intros k f s' Hk. unfold export_one. rewrite Z.add_0_l.
  rewrite (Hw k (f_nid f)), (Ha k (f_addr f)) by (by rewrite list_lookup_fmap, Hk). cbn [mbind run_bind].
  pose proof (Forall_lookup_1 _ _ _ _ Hf Hk) as Hname. cbn beta in Hname. rewrite Hname. done.
Qed.

Lemma import_step_spec i e s : imported_at i e ->
  import_step imps data text_addr i s = Done (im_size (i_table e), with_imported e s).
Proof.
  intros (Ht & Hz & Hn & Hw & Ha & Hl & Hf). unfold import_step. rewrite Ht. cbn [mbind run_bind].
  rewrite (proj2 (Z.eqb_neq _ _) Hz), Hn. cbn [mbind run_bind]. rewrite Hl.
  erewrite for_loop_spec; [done|]. intros k f s' Hk. unfold import_one. rewrite Z.add_0_l.
  rewrite (Hw k (f_nid f)), (Ha k (f_addr f)) by (by rewrite list_lookup_fmap, Hk). cbn [mbind run_bind].
  by rewrite (Forall_lookup_1 _ _ _ _ Hf Hk).
Qed.

(** The module information at [offset], with its libraries in place *)
Definition module_in (offset : Z) (mod_name : string) (nid : Z) (es : list exported) (is_ : list imported) : Prop :=
  read_str data (offset + 4) = Done mod_name /\ load32 data (offset + 52) = Done nid /\
  exists et eb it ib, load32 data (offset + 36) = Done et /\ load32 data (offset + 40) = Done eb /\
    load32 data (offset + 44) = Done it /\ load32 data (offset + 48) = Done ib /\
    0 <= et /\ eb < 2 ^ 32 /\ 0 <= it /\ ib < 2 ^ 32 /\
    chained (fun e => ex_size (e_table e)) exported_at et eb es /\
    chained (fun e => im_size (i_table e)) imported_at it ib is_.

Definition analysed (es : list exported) (is_ : list imported) (s : vstate) : vstate :=
  let s := foldl (fun s e => with_exported e s) s es in
  foldl (fun s e => with_imported e s) (VState (symbols s) (fnids s ++ ["//IMPORTS: "]) (fyml s) (hex s) 0) is_.

Lemma analyse_spec fuel offset opt_ver m0 mod_name nid es is_ : module_in offset mod_name nid es is_ ->
  (length es < fuel)%nat -> (length is_ < fuel)%nat ->
  analyseVitaModule imps data text_addr fuel offset opt_ver m0 =
  Done (offset, analysed es is_ (VState m0 ["//EXPORTS: "] (yml_head opt_ver mod_name nid) false 0)).
Proof.
  intros (Hn & Hd & et & eb & it & ib & E1 & E2 & E3 & E4 & H1 & H2 & H3 & H4 & Hes & His) He Hi.
  unfold analyseVitaModule. rewrite Hn, Hd, E1, E2, E3, E4. cbn [mbind run_bind].
  erewrite (tables_loop_spec _ _ _ with_exported); [|by intros; apply export_step_spec|done..]. cbn [mbind run_bind].
  erewrite (tables_loop_spec _ _ _ with_imported); [|by intros; apply import_step_spec|done..]. done.
Qed.

(** *** The table as a list: what stands first in it is found *)

Definition entry : Type := Z * (Z * string).
Definition entry_symbol (e : entry) : SymbolEntry := Symbol e.2.1 e.2.2 0 (replicate MAX_ARGS 0).
Definition add_entry (m : SymbolMap) (e : entry) : SymbolMap := addSymbol e.1 e.2.2 e.2.1 m.
Definition first_at (a : Z) (l : list entry) : option SymbolEntry :=
  (fun p => entry_symbol p.2) <$> list_find (fun e => e.1 = a) l.

Lemma first_at_cons a e l : first_at a (e :: l) = if bool_decide (e.1 = a) then Some (entry_symbol e) else first_at a l.
Proof.
  unfold first_at. cbn [list_find]. case_bool_decide as E; [by rewrite decide_True|]. rewrite decide_False by done.
  by match goal with |- context [list_find ?P l] => destruct (list_find P l) as [[? ?]|] end.
Qed.

Lemma add_entries_lookup a l : forall m, foldl add_entry m l !! a = match m !! a with Some s => Some s | None => first_at a l end.
Proof.
  induction l as [|e l IH]; intros m; cbn [foldl]; [by destruct (m !! a)|]. rewrite IH, first_at_cons. unfold add_entry, addSymbol.
  case_bool_decide as E.
  - subst a. destruct (m !! e.1) as [s|] eqn:Em; [by rewrite Em|]. by rewrite lookup_insert_eq.
  - destruct (m !! e.1) eqn:Em; [done|]. by rewrite lookup_insert_ne.
Qed.

Definition export_entries (e : exported) : list entry :=
  (fun f => (Z.land (f_addr f) 0xFFFFFFFE, (Z.lor SYMBOL_SUBROUTINE SYMBOL_EXPORT, f_name f))) <$> e_funcs e.
Definition import_entries (e : imported) : list entry :=
  f ← i_funcs e; [(f_addr f, (Z.lor SYMBOL_SUBROUTINE SYMBOL_IMPORT, f_name f));
                  (u32 (f_addr f + 4), (Z.lor SYMBOL_SUBROUTINE SYMBOL_IMPORT, f_name f))].

Lemma with_exported_symbols e s : symbols (with_exported e s) = foldl add_entry (symbols s) (export_entries e).
Proof.
  unfold with_exported, export_entries. assert (symbols s = symbols (export_lib (e_table e) (e_name e) s)) as ->.
  { by destruct (e_name e). }
  generalize (export_lib (e_table e) (e_name e) s). generalize (e_funcs e). clear s.
  induction l as [|f l IH]; intros s; [done|]. cbn [foldl fmap list_fmap]. by rewrite IH.
Qed.

Lemma with_imported_symbols e s : symbols (with_imported e s) = foldl add_entry (symbols s) (import_entries e).
Proof.
  unfold with_imported, import_entries. set (s' := VState _ _ _ _ _). change (symbols s) with (symbols s'). generalize s'.
  generalize (i_funcs e). clear s s'. induction l as [|f l IH]; intros s; [done|]. cbn [foldl mbind list_bind]. by rewrite IH.
Qed.

(** All entries, exports first *)
Definition all_entries (es : list exported) (is_ : list imported) : list entry :=
  (e ← es; export_entries e) ++ (e ← is_; import_entries e).

Lemma analysed_symbols es is_ s : symbols (analysed es is_ s) = foldl add_entry (symbols s) (all_entries es is_).
Proof.
  unfold analysed, all_entries. rewrite foldl_app.
  assert (forall es s, symbols (foldl (fun s e => with_exported e s) s es) = foldl add_entry (symbols s) (e ← es; export_entries e)) as <-.
  { clear. induction es as [|e es IH]; intros s; [done|]. cbn [foldl mbind list_bind]. by rewrite IH, foldl_app, with_exported_symbols. }
  set (s1 := foldl _ s es). set (s2 := VState _ _ _ _ 0). change (symbols s1) with (symbols s2). generalize s2. clear.
  induction is_ as [|e is_ IH]; intros s; [done|]. cbn [foldl mbind list_bind]. by rewrite IH, foldl_app, with_imported_symbols.
Qed.
End Symbols.

(** C35: Analysing a module adds to the table of symbols, whatever is in it
    already, at every address that has none the first function of the module's
    libraries at it, exports before imports, with the name of that function;
    an exported function is found at its even address, an imported one at both
    halves of its stub; what had a symbol before keeps it. *)
Theorem module_symbols imps data text_addr fuel offset opt_ver m0 mod_name nid es is_ :
  module_in imps data text_addr offset mod_name nid es is_ -> (length es < fuel)%nat -> (length is_ < fuel)%nat ->
  exists s, analyseVitaModule imps data text_addr fuel offset opt_ver m0 = Done (offset, s) /\
    forall a, symbols s !! a = match m0 !! a with Some old => Some old | None => first_at a (all_entries es is_) end.
Proof.
  intros Hm He Hi. eexists. split; [by apply analyse_spec|]. intros a. by rewrite analysed_symbols, add_entries_lookup.
Qed.

(** ** The new database *)

(** A document in block style: the text libyaml reads back as these mappings *)
Fixpoint block (indent : string) (n : yaml_node) : list string :=
  match n with
  | Mapping _ ps =>
      (fix go (ps : list (yaml_node * yaml_node)) : list string :=
         match ps with
         | (Scalar _ k _, v) :: ps' =>
             (match v with
              | Scalar _ s _ => [indent +:+ k +:+ ": " +:+ s]
              | _ => (indent +:+ k +:+ ":") :: block (indent +:+ "  ") v
              end) ++ go ps'
         | _ => []
         end) ps
  | _ => []
  end.

Definition func_doc (n : string) (f : func) : yaml_node * yaml_node := (scalar (numbered_name n (f_nid f)), scalar (hex08 (f_nid f))).
Definition lib_doc (e : string * exported) : yaml_node * yaml_node :=
  (scalar e.1,
   mapping [(scalar "nid", scalar (hex08 (ex_module_nid (e_table e.2))));
            (scalar "kernel", scalar (if (Z.land (ex_attribute (e_table e.2)) 0x4000 =? 0)%Z then "true" else "false"));
            (scalar "functions", mapping (func_doc e.1 <$> e_funcs e.2))]).
(** The libraries that have a name *)
Definition named (es : list exported) : list (string * exported) :=
  omap (fun e => match e_name e with Some n => Some (n, e) | None => None end) es.
Definition document (opt_ver mod_name : string) (nid : Z) (es : list exported) : yaml_node :=
  mapping [(scalar "version", scalar "0x2"); (scalar "firmware", scalar opt_ver);
           (scalar "modules", mapping [(scalar mod_name,
              mapping [(scalar "nid", scalar (hex08 nid)); (scalar "libraries", mapping (lib_doc <$> named es))])])].

(** The database of that document *)
Definition func_stub (n : string) (f : func) : option stub := Some (Stub (numbered_name n (f_nid f)) (f_nid f)).
Definition lib_module (e : string * exported) : module :=
  Module_ e.1 (ex_module_nid (e_table e.2)) (Z.land (ex_attribute (e_table e.2)) 0x4000 =? 0) (func_stub e.1 <$> e_funcs e.2) [].
Definition database (mod_name : string) (nid : Z) (es : list exported) : imports :=
  Imports_ [Some (Lib mod_name nid (Some <$> (lib_module <$> named es)))].

(** *** The text *)

Lemma block_nil indent : block indent (mapping []) = [].
Proof. done. Qed.
Lemma block_mapping indent k ps' qs : block indent (mapping ((scalar k, mapping ps') :: qs)) =
  (indent +:+ k +:+ ":") :: block (indent +:+ "  ") (mapping ps') ++ block indent (mapping qs).
Proof. done. Qed.
Lemma block_scalar indent k s qs : block indent (mapping ((scalar k, scalar s) :: qs)) =
  (indent +:+ k +:+ ": " +:+ s) :: block indent (mapping qs).
Proof. done. Qed.

Lemma block_funcs n fs : block "          " (mapping (func_doc n <$> fs)) =
  (fun f => "          " +:+ numbered_name n (f_nid f) +:+ ": " +:+ hex08 (f_nid f)) <$> fs.
Proof. induction fs as [|f fs IH]; [done|]. cbn [fmap list_fmap]. unfold func_doc at 1. by rewrite block_scalar, IH. Qed.

Definition lib_lines (e : string * exported) : list string :=
  yml_lib (e_table e.2) e.1 ++ ((fun f => "          " +:+ numbered_name e.1 (f_nid f) +:+ ": " +:+ hex08 (f_nid f)) <$> e_funcs e.2).

Lemma block_libs es : block "      " (mapping (lib_doc <$> es)) = e ← es; lib_lines e.
Proof.
  induction es as [|e es IH]; [done|]. cbn [fmap list_fmap mbind list_bind]. unfold lib_doc at 1.
  rewrite block_mapping, !block_scalar, block_mapping, block_nil, app_nil_r.
  change (("      " +:+ "  ") +:+ "  ") with "          "%string. rewrite block_funcs, IH. done.
Qed.

Lemma with_exported_yml text_addr e s :
  fyml (with_exported text_addr e s) = fyml s ++ match e_name e with Some n => lib_lines (n, e) | None => [] end.
Proof.
  unfold with_exported. assert (forall n l s, fyml (foldl (fun s f => with_export text_addr n f s) s l) = fyml s ++
    match n with Some n => (fun f => "          " +:+ numbered_name n (f_nid f) +:+ ": " +:+ hex08 (f_nid f)) <$> l | None => [] end) as H.
  { clear. intros n. induction l as [|f l IH]; intros s; [destruct n; by rewrite app_nil_r|]. cbn [foldl]. rewrite IH.
    cbn [with_export fyml]. rewrite <- app_assoc. by destruct n. }
  rewrite H. destruct (e_name e); [|done]. cbn [export_lib fyml]. by rewrite <- app_assoc.
Qed.

Lemma analysed_yml text_addr es is_ s : fyml (analysed text_addr es is_ s) = fyml s ++ (e ← named es; lib_lines e).
Proof.
  unfold analysed. set (s1 := foldl _ s es).
  assert (fyml s1 = fyml s ++ (e ← named es; lib_lines e)) as <-.
  { unfold s1. clear. revert s. induction es as [|e es IH]; intros s; [by rewrite app_nil_r|]. cbn [foldl]. rewrite IH, with_exported_yml.
    unfold named. cbn [omap list_omap]. destruct (e_name e); [|by rewrite app_nil_r]. cbn [mbind list_bind]. by rewrite <- app_assoc. }
  set (s2 := VState _ _ _ _ 0). change (fyml s1) with (fyml s2). generalize s2. clear.
  induction is_ as [|e is_ IH]; intros s; [done|]. cbn [foldl]. rewrite IH. unfold with_imported.
  set (s' := VState _ _ _ _ _). change (fyml s) with (fyml s'). generalize s'. generalize (i_funcs e). clear.
  induction l as [|f l IH]; intros s; [done|]. cbn [foldl]. by rewrite IH.
Qed.

Lemma yml_head_block opt_ver mod_name nid es :
  block "" (document opt_ver mod_name nid es) = yml_head opt_ver mod_name nid ++ (e ← named es; lib_lines e).
Proof.
  unfold document. rewrite !block_scalar, !block_mapping, block_scalar, block_mapping, !block_nil, !app_nil_r.
  change (("" +:+ "  ") +:+ "  ") with "    "%string. change ("    " +:+ "  ") with "      "%string. by rewrite block_libs.
Qed.

(** *** What it loads as *)

Lemma scan_fmt_0X k : forall x, 0 <= x < 16 ^ Z.of_nat k -> forall acc rest,
  scan_digits 16 (fmt_0X k x +:+ rest) acc = scan_digits 16 rest (acc * 16 ^ Z.of_nat k + x).
Proof.
  induction k as [|k IH]; intros x Hx acc rest; cbn [fmt_0X].
  - cbn [Z.of_nat] in *. change (16 ^ 0) with 1 in *. change ("" +:+ rest) with rest. f_equal. lia.
  - rewrite Nat2Z.inj_succ, Z.pow_succ_r in * by lia. pose proof (Z.mod_pos_bound x 16 ltac:(lia)). pose proof (Z.div_mod x 16 ltac:(lia)).
    destruct (hex_digit_val (x mod 16)) as (c & Hc & Hd); [done|]. rewrite string_app_assoc, IH.
    + rewrite Hc. change (String c "" +:+ rest) with (String c rest). rewrite (scan_digits_cons _ _ _ _ _ Hd) by lia. f_equal. lia.
    + split; [apply Z.div_pos; lia|]. apply Z.div_lt_upper_bound; lia.
Qed.

Lemma fmt_0X_head k x : 0 <= x < 16 ^ Z.of_nat (S k) -> exists c s, fmt_0X (S k) x = String c s /\ is_digit 16 c = true.
Proof.
  revert x. induction k as [|k IH]; intros x Hx.
  - cbn [fmt_0X]. destruct (hex_digit_val (x mod 16)) as (c & -> & Hd); [by apply Z.mod_pos_bound|]. exists c, ""%string.
    split; [done|]. unfold is_digit. rewrite Hd. pose proof (Z.mod_pos_bound x 16). lia.
  - destruct (IH (x / 16)) as (c & s & E & Hc).
    { rewrite Nat2Z.inj_succ, Z.pow_succ_r in Hx by lia. split; [apply Z.div_pos; lia|]. apply Z.div_lt_upper_bound; lia. }
    exists c, (s +:+ hex_digit (x mod 16))%string. split; [|done].
    change (fmt_0X (S (S k)) x) with (fmt_0X (S k) (x / 16) +:+ hex_digit (x mod 16))%string. by rewrite E.
Qed.

(** A number of the database reads back. *)
Lemma hex08_reads n nid : 0 <= n < 2 ^ 32 -> process_32bit_integer (scalar (hex08 n)) nid = (0, n).
Proof.
  intros Hn. destruct (fmt_0X_head 7 n) as (c & s & E & Hc); [done|]. pose proof (scan_fmt_0X 8 n Hn 0 "") as Hs.
  unfold scalar, process_32bit_integer, hex08. rewrite E in *. rewrite !string_app_cons. change ("" +:+ ?z) with z.
  unfold strtoul. change (take_sign (skip_space ?z)) with (false, z). cbv beta iota. rewrite (take_base_x c s Hc), Hc.
  rewrite string_app_nil_r in Hs. rewrite Hs. cbn [scan_digits]. change (16 ^ Z.of_nat 8) with (2 ^ 32).
  replace (0 * 2 ^ 32 + n) with n by lia. unfold ULONG_MAX. rewrite (proj2 (Z.ltb_ge _ _)) by lia.
  rewrite bool_decide_true by done. cbn [negb]. by rewrite u32_small.
Qed.

(** What comes out of memory as a C string has no NUL. *)
Lemma cstr_strdup fuel m : bytes_ok m -> forall off s, cstr fuel m off = Done s -> strdup s = s.
Proof.
  intros Hm. induction fuel as [|fuel IH]; intros off s; cbn [cstr]; [done|].
  destruct (load8 m off) as [b| |] eqn:Eb; cbn [mbind run_bind]; [|done..]. pose proof (load8_byte _ _ _ Hm Eb).
  destruct (Z.eqb_spec b 0) as [->|Hb]; [by intros [= <-]|]. destruct (cstr fuel m (off + 1)) as [s'| |] eqn:E; cbn; [|done..].
  intros [= <-]. cbn [strdup]. destruct (Ascii.eqb_spec (ascii_of_nat (Z.to_nat b)) zero) as [Ez|_].
  - exfalso. apply (f_equal nat_of_ascii) in Ez. rewrite nat_ascii_embedding in Ez by lia. change (nat_of_ascii zero) with 0%nat in Ez. lia.
  - by rewrite (IH _ _ E).
Qed.

Lemma fmt_0X_strdup k x : 0 <= x -> strdup (fmt_0X k x) = fmt_0X k x.
Proof.
  revert x. induction k as [|k IH]; intros x Hx; cbn [fmt_0X]; [done|].
  rewrite strdup_app by (apply IH; apply Z.div_pos; lia). f_equal.
  destruct (hex_digit_val (x mod 16)) as (c & -> & Hd); [by apply Z.mod_pos_bound|].
  cbn [strdup]. destruct (Ascii.eqb_spec c zero) as [->|]; done.
Qed.
Lemma numbered_name_strdup n nid : strdup n = n -> 0 <= nid -> strdup (numbered_name n nid) = numbered_name n nid.
Proof. intros Hn Hnid. unfold numbered_name. rewrite strdup_app by done. f_equal. rewrite strdup_app by done. by rewrite fmt_0X_strdup. Qed.

(** Every name is one, and every number one of 32 bits. *)
Definition func_ok (f : func) : Prop := 0 <= f_nid f < 2 ^ 32.
Definition lib_ok (e : string * exported) : Prop :=
  strdup e.1 = e.1 /\ 0 <= ex_module_nid (e_table e.2) < 2 ^ 32 /\ Forall func_ok (e_funcs e.2).

(** An iteration whose functor appends what each pair stands for *)
Lemma iterate_pushes {S A E} (f : yaml_node -> yaml_node -> S * log -> Z * (S * log)) (pair : A -> yaml_node * yaml_node)
    (mk : A -> option E) (push : list (option E) -> S) (ok : A -> Prop) xs err :
  (forall e acc, ok e -> f (pair e).1 (pair e).2 (push acc, err) = (0, (push (acc ++ [mk e]), err))) ->
  forall acc, Forall ok xs -> yaml_iterate_mapping (mapping (pair <$> xs)) f (push acc, err) = (0, (push (acc ++ (mk <$> xs)), err)).
Proof.
  intros Hf acc Hxs. cbn [yaml_iterate_mapping mapping]. revert acc. induction Hxs as [|e xs He _ IH]; intros acc; [by rewrite app_nil_r|].
  cbn [fmap list_fmap]. specialize (Hf e acc He). destruct (pair e) as [l r]. cbn in Hf. rewrite (iterate_pairs_step _ _ _ _ _ _ Hf), IH.
  by rewrite <- app_assoc.
Qed.

Ltac key :=
  cbn [is_scalar negb scalar scalar_value position_of]; repeat (case_bool_decide; try solve [exfalso; congruence]).

Lemma func_doc_loads n f name nid k vs err acc : strdup n = n -> func_ok f ->
  process_import_functions (func_doc n f).1 (func_doc n f).2 (Module_ name nid k acc vs, err) =
  (0, (Module_ name nid k (acc ++ [func_stub n f]) vs, err)).
Proof.
  intros Hn Hf. unfold process_import_functions, func_doc. cbn -[process_32bit_integer numbered_name hex08].
  rewrite hex08_reads by done. cbn. rewrite numbered_name_strdup by (unfold func_ok in Hf; lia || done). done.
Qed.

Lemma lib_doc_loads e name nid acc err : lib_ok e ->
  process_libraries (lib_doc e).1 (lib_doc e).2 (Lib name nid acc, err) = (0, (Lib name nid (acc ++ [Some (lib_module e)]), err)).
Proof.
  intros (Hn & Hi & Hf). unfold process_libraries, lib_doc. cbn [fst snd is_scalar negb scalar yaml_iterate_mapping mapping].
  erewrite iterate_pairs_step by (unfold process_library; key; fold (scalar (hex08 (ex_module_nid (e_table e.2)))); rewrite hex08_reads by done; reflexivity).
  erewrite iterate_pairs_step by (apply process_library_kernel).
  cbn [module_name module_NID is_kernel functions variables vita_imports_module_new replicate scalar_value]. rewrite Hn.
  rewrite (iterate_pairs_step _ _ _ _ _ (lib_module e, err)); [done|]. unfold process_library. key.
  match goal with |- context [Module_ ?a ?b ?k [] ?d] =>
    pose proof (iterate_pushes process_import_functions (func_doc e.1) (func_stub e.1) (fun fs => Module_ a b k fs d) func_ok (e_funcs e.2) err
      ltac:(intros f acc'; by apply func_doc_loads) [] Hf) as -> end.
  reflexivity.
Qed.

Lemma document_loads opt_ver mod_name nid es : strdup mod_name = mod_name -> 0 <= nid < 2 ^ 32 -> Forall lib_ok (named es) ->
  read_vita_imports (document opt_ver mod_name nid es) [] = (Some (database mod_name nid es), []).
Proof.
  intros Hn Hi Hl. unfold read_vita_imports, document, mapping. cbn [length Nat.ltb Nat.leb read_roots]. key. cbn [andb yaml_iterate_mapping].
  rewrite (iterate_pairs_step _ _ _ _ _ (database mod_name nid es, [])); [done|]. unfold process_import_list. cbn [is_scalar negb scalar yaml_iterate_mapping scalar_value].
  erewrite iterate_pairs_step by (unfold process_import; key; fold (scalar (hex08 nid)); rewrite hex08_reads by done; reflexivity).
  rewrite (iterate_pairs_step _ _ _ _ _ (Lib mod_name nid (Some <$> (lib_module <$> named es)), [])); [done|]. unfold process_import. key.
  cbn [lib_name lib_NID modules vita_imports_lib_new replicate]. rewrite Hn.
  pose proof (iterate_pushes process_libraries lib_doc (fun e => Some (lib_module e)) (Lib mod_name nid) lib_ok (named es) []
    ltac:(intros e acc; by apply lib_doc_loads) [] Hl) as E. unfold mapping in E. rewrite E. cbn. unfold database. by rewrite <- list_fmap_compose.
Qed.

(** No mapping is empty: the text of an empty one would read as a null. *)
Fixpoint in_block (n : yaml_node) : bool :=
  match n with
  | Mapping _ [] => false
  | Mapping _ ps =>
      (fix go (ps : list (yaml_node * yaml_node)) : bool :=
         match ps with
         | [] => true
         | (Scalar _ _ _, v) :: ps' => in_block v && go ps'
         | _ => false
         end) ps
  | Scalar _ _ _ => true
  | Sequence _ _ => false
  end.

Lemma in_block_mapping {A} (pair : A -> string * yaml_node) xs : xs <> [] -> Forall (fun x => in_block (pair x).2 = true) xs ->
  in_block (mapping ((fun x => (scalar (pair x).1, (pair x).2)) <$> xs)) = true.
Proof.
  intros Hne Hf. destruct xs as [|x xs]; [done|]. clear Hne. cbn [fmap list_fmap mapping in_block]. unfold scalar at 1.
  apply Forall_cons in Hf as [-> Hf]. cbn [andb]. induction Hf as [|y ys Hy _ IH]; [done|]. cbn [fmap list_fmap]. unfold scalar at 1. by rewrite Hy.
Qed.

Lemma in_block_fields ps : ps <> [] -> Forall (fun p => in_block p.2 = true) ps ->
  in_block (mapping ((fun p => (scalar p.1, p.2)) <$> ps)) = true.
Proof. intros Hne Hf. by apply (in_block_mapping id). Qed.

Lemma document_in_block opt_ver mod_name nid es : named es <> [] -> Forall (fun e => e_funcs e.2 <> []) (named es) ->
  in_block (document opt_ver mod_name nid es) = true.
Proof.
  intros Hne Hf. assert (in_block (mapping (lib_doc <$> named es)) = true) as Hl.
  { apply (in_block_mapping (fun e => (e.1, (lib_doc e).2))); [done|]. eapply Forall_impl; [exact Hf|]. intros e He. cbn [lib_doc snd].
    apply (in_block_fields [("nid", _); ("kernel", _); ("functions", _)]%string); [done|]. repeat constructor. cbn [snd].
    apply (in_block_mapping (fun f => (numbered_name e.1 (f_nid f), scalar (hex08 (f_nid f))))); [done|]. by apply Forall_true. }
  apply (in_block_fields [("version", _); ("firmware", _); ("modules", _)]%string); [done|]. repeat constructor. cbn [snd].
  apply (in_block_fields [(mod_name, _)]); [done|]. repeat constructor. cbn [snd].
  apply (in_block_fields [("nid", _); ("libraries", _)]%string); [done|]. by repeat constructor.
Qed.

(** The module of a library, and a function of it, in the database *)
Lemma library_found (es : list (string * exported)) n x :
  module_named (lib_module <$> es) n = Some x -> exists e, (n, e) ∈ es /\ x = lib_module (n, e).
Proof.
  induction es as [|[n' e] es IH]; [done|]. cbn [fmap list_fmap]. rewrite module_named_cons. cbn [module_name lib_module fst].
  case_bool_decide as En.
  - intros [= <-]. subst n'. exists e. split; [by left|done].
  - intros (e' & Hin & ->)%IH. exists e'. split; [by right|done].
Qed.

Lemma library_there (es : list (string * exported)) n e : NoDup es.*1 -> (n, e) ∈ es ->
  module_named (lib_module <$> es) n = Some (lib_module (n, e)).
Proof.
  induction es as [|x es IH]; intros Hnd Hin; [by apply not_elem_of_nil in Hin|].
  cbn [fmap list_fmap] in *. apply NoDup_cons in Hnd as [Hx Hnd]. rewrite module_named_cons. cbn [module_name lib_module].
  apply elem_of_cons in Hin as [<-|Hin]; [by rewrite bool_decide_true|]. rewrite bool_decide_false; [by apply IH|].
  intros E. apply Hx. rewrite E. apply list_elem_of_fmap. by exists (n, e).
Qed.

Lemma function_found n fs k : generic_find (func_stub n <$> fs) k =
  if bool_decide (k ∈ f_nid <$> fs) then Some (Stub (numbered_name n k) k) else None.
Proof.
  induction fs as [|f fs IH]; [done|]. cbn [fmap list_fmap generic_find func_stub]. unfold NID, stub_common. cbn [stub_NID].
  destruct (Z.eqb_spec (f_nid f) k) as [<-|Hne].
  - rewrite bool_decide_true by (by left). done.
  - etransitivity; [exact IH|]. rewrite (bool_decide_ext (k ∈ f_nid f :: (f_nid <$> fs)) (k ∈ f_nid <$> fs)); [done|].
    rewrite elem_of_cons. split; [by intros [->|?]|by right].
Qed.

(** The database gives names to its exports, and to nothing else. *)
Lemma database_finds mod_name nid es n k name : NoDup (named es).*1 ->
  findNameByNid (Some (database mod_name nid es)) n k = Done (Some name) <->
  name = numbered_name n k /\ exists e f, (n, e) ∈ named es /\ f ∈ e_funcs e /\ f_nid f = k.
Proof.
  intros Hnd. rewrite findNameByNid_spec. unfold all_modules, database. cbn [libs omap list_omap id mbind list_bind modules].
  rewrite app_nil_r. assert (forall l : list module, omap id (Some <$> l) = l) as -> by (induction l as [|x l IH]; [done|]; cbn; by f_equal).
  split.
  - destruct (module_named _ n) as [x|] eqn:Ex; [|done]. apply library_found in Ex as (e & He & ->).
    cbn [mbind option_bind]. unfold vita_imports_find_function. cbn [functions lib_module fst snd]. rewrite function_found.
    case_bool_decide as Hk; [|done]. cbn. intros [= <-]. split; [done|]. apply list_elem_of_fmap in Hk as (f & -> & Hf). by exists e, f.
  - intros (-> & e & f & He & Hf & <-). rewrite (library_there _ _ _ Hnd He).
    cbn [mbind option_bind]. unfold vita_imports_find_function. cbn [functions lib_module fst snd]. rewrite function_found.
    rewrite bool_decide_true by (apply list_elem_of_fmap; by exists f). done.
Qed.

(** The values that come out of memory are in range. *)
Lemma chained_Forall {T} (size : T -> Z) (at_ : Z -> T -> Prop) (P : T -> Prop) ts : (forall i t, at_ i t -> P t) ->
  forall i btm, chained size at_ i btm ts -> Forall P ts.
Proof. intros Hp. induction ts as [|t ts IH]; intros i btm; [done|]. intros (_ & Ha & Hc). constructor; [by eapply Hp|by eapply IH]. Qed.

Lemma exported_ok imps data text_addr i e : bytes_ok data -> exported_at imps data text_addr i e ->
  match e_name e with Some n => lib_ok (n, e) | None => True end.
Proof.
  intros Hm (Ht & Hn & Hw & _). destruct (e_name e) as [n|]; [|done]. destruct Hn as [_ Hn]. split; [by eapply cstr_strdup|]. split.
  - unfold exports_table in Ht. run_inv. cbn [snd]. match goal with H : Exports_ _ _ _ _ _ _ _ _ _ _ = _ |- _ => rewrite <- H end. by eapply load32_range.
  - cbn [snd]. apply Forall_lookup_2. intros k f Hk. eapply load32_range; [exact Hm|]. apply (Hw k). rewrite list_lookup_fmap; cbn [snd] in Hk; by rewrite Hk.
Qed.

Lemma module_in_ok imps data text_addr offset mod_name nid es is_ : bytes_ok data ->
  module_in imps data text_addr offset mod_name nid es is_ ->
  strdup mod_name = mod_name /\ 0 <= nid < 2 ^ 32 /\ Forall lib_ok (named es).
Proof.
  intros Hm (Hn & Hi & et & eb & it & ib & _ & _ & _ & _ & _ & _ & _ & _ & Hc & _). split; [by eapply cstr_strdup|].
  split; [by eapply load32_range|]. apply (chained_Forall _ _ (fun e => match e_name e with Some n => lib_ok (n, e) | None => True end)) in Hc;
    [|intros; by eapply exported_ok]. unfold named. induction Hc as [|e es He _ IH]; cbn; [done|]. destruct (e_name e); [by constructor|done].
Qed.


(** A function of the library without a name that the table does not know is
    printed and entered under a name that was not set. *)
Lemma unknown_syslib_nid imps data text_addr t j s nid addr :
  load32 data (u32 (ex_nid_table t - text_addr) + 4 * j) = Done nid ->
  load32 data (u32 (ex_entry_table t - text_addr) + 4 * j) = Done addr -> nid ∉ syslib_nids.*1 ->
  export_one imps data text_addr t None j s = Fault FUninit.
Proof.
  intros Hn Ha Hni. unfold export_one. rewrite Hn, Ha. cbn [mbind run_bind]. unfold syslib_name.
  assert (filter (fun e : Z * string => e.1 = nid) syslib_nids = []) as ->; [|done].
  revert Hni. generalize syslib_nids. induction l as [|e l IH]; intros Hni; [done|]. cbn [fmap list_fmap] in Hni.
  apply not_elem_of_cons in Hni as [Hne Hni]. rewrite filter_cons, decide_False by congruence. by apply IH.
Qed.

(** ** A module with two exports and an import *)

Definition sample_data : mem :=
  replicate 4 0 ++ str_bytes "mod" ++ replicate 25 0 ++
  bytes_of [word 0; word 92; word 124; word 124; word 160; word 7; word 0; word 0; word 0; word 0; word 0; word 0; word 0;
    word 0; word 0;
    half 32; half 0; half 0x4000; half 2; word 0; word 0; word 0x11; word (0x81000000 + 160); word (0x81000000 + 164);
    word (0x81000000 + 180);
    half 36; half 0; half 0; half 1; half 0; half 0; word 0x22; word (0x81000000 + 172); word (0x81000000 + 176);
    word (0x81000000 + 188); word 0; word 0] ++
  str_bytes "abc" ++ [0] ++ bytes_of [word 0x10; word 0x20] ++ str_bytes "xyz" ++ [0] ++
  bytes_of [word 0x30; word 0x81000101; word 0x81000200; word 0x81000300].
Definition sample_db : imports := Imports_ [Some (Lib "lib" 1 [Some (Module_ "abc" 2 false [Some (Stub "f" 0x10)] [])])].
Definition sample_exports : list exported :=
  [Exported (Exports_ 32 0 0x4000 2 0 0 0x11 (0x81000000 + 160) (0x81000000 + 164) (0x81000000 + 180)) (Some "abc")
     [Func 0x10 0x81000101 "f"; Func 0x20 0x81000200 "abc_00000020"]].
Definition sample_imports_ : list imported :=
  [Imported (Imports3xx_ 36 0 0 1 0 0 0x22 (0x81000000 + 172) (0x81000000 + 176) (0x81000000 + 188) 0 0) "xyz"
     [Func 0x30 0x81000300 "xyz_00000030"]].

Ltac lookups := intros [|[|k]] z; cbn; intros [= <-]; vm_compute; reflexivity.
Lemma sample_in : module_in (Some sample_db) sample_data 0x81000000 0 "mod" 7 sample_exports sample_imports_.
Proof.
  split; [vm_compute; reflexivity|]. split; [vm_compute; reflexivity|]. exists 92, 124, 124, 160.
  repeat (split; [vm_compute; first [reflexivity | discriminate]|]). split.
  - cbn [chained sample_exports e_table ex_size]. split; [lia|]. split; [|done]. split; [vm_compute; reflexivity|].
    split; [split; [done|vm_compute; reflexivity]|]. split; [lookups|]. split; [lookups|]. split; [done|].
    repeat constructor; vm_compute; reflexivity.
  - cbn [chained sample_imports_ i_table im_size]. split; [lia|]. split; [|done]. split; [vm_compute; reflexivity|].
    split; [done|]. split; [vm_compute; reflexivity|]. split; [lookups|]. split; [lookups|]. split; [done|].
    repeat constructor; vm_compute; reflexivity.
Qed.

Lemma module_symbols_witness : exists s,
  analyseVitaModule (Some sample_db) sample_data 0x81000000 2 0 "3.60" {[0x81000200 := Symbol 1 "main" 0 (replicate 11 0)]} = Done (0, s) /\
  symbols s !! 0x81000100 = Some (Symbol 9 "f" 0 (replicate 11 0)) /\
  symbols s !! 0x81000200 = Some (Symbol 1 "main" 0 (replicate 11 0)) /\
  symbols s !! 0x81000304 = Some (Symbol 17 "xyz_00000030" 0 (replicate 11 0)) /\ symbols s !! 0x81000101 = None.
Proof.
  destruct (module_symbols (Some sample_db) sample_data 0x81000000 2 0 "3.60" {[0x81000200 := Symbol 1 "main" 0 (replicate 11 0)]}
    "mod" 7 sample_exports sample_imports_ sample_in)
    as (s & E & H); [cbn; lia..|].
  exists s. split; [exact E|]. rewrite !H. split; [vm_compute; reflexivity|]. split; [vm_compute; reflexivity|]. split; vm_compute; reflexivity.
Defined.

