(* ===== verification/Translate.v ===== *)
(** * Instructions as pseudo code

    vitadecompiler-mod/src/main.cpp, utils.cpp and instructions.h: an
    instruction, as the disassembler delivers it, becomes a line of C by
    substituting its operands into a pattern.  What registers hold is kept as
    text, so that an operand can be replaced by the expression it was assigned;
    the instruction that made the assignment is then left out.  The host has
    32-bit pointers, as the program takes words of the module for pointers. *)

From stdpp Require Import prelude gmap strings pretty.
From Stdlib Require Import Ascii.
From S2P Require Import Prelude Bytes CString Yaml VitaImport Nids VitaModule.

Open Scope Z_scope.

(** ** Instructions (capstone)

    [o_word] is the first word of the operand's union: the register, the
    immediate or the base register of a memory operand. *)

Inductive op_type := OP_REG | OP_IMM | OP_MEM | OP_OTHER.
Inductive shifter := SFT_INVALID | SFT_ASR | SFT_LSL | SFT_LSR | SFT_ROR | SFT_RRX
  | SFT_ASR_REG | SFT_LSL_REG | SFT_LSR_REG | SFT_ROR_REG | SFT_RRX_REG.
Record cs_arm_op := Op { o_type : op_type; o_word : Z; o_index : Z; o_disp : Z; shift_type : shifter; shift_value : Z }.
Inductive arm_cc := CC_INVALID | CC_AL | CC_OTHER.
(** [operands]: all of the array, also behind [op_count] *)
Record cs_insn := Insn {
  mnemonic : string; op_str : string; cc : arm_cc; update_flags : bool; op_count : nat; operands : nat -> cs_arm_op
}.

Definition isConditional (i : cs_insn) : bool := match cc i with CC_OTHER => true | _ => false end.

(** ** Strings *)

Definition nl : string := String (ascii_of_nat 10) "".
Definition backslash : ascii := "\"%char.
Definition quote : string := String (ascii_of_nat 34) "".

(** [subject.find(search, pos)] *)
Definition find_from (subject search : string) (pos : nat) : option nat :=
  if (String.length subject <? pos)%nat then None
  else match strstr (str_drop pos subject) search with Some k => Some (pos + k)%nat | None => None end.
Definition contains (subject search : string) : bool := bool_decide (is_Some (strstr subject search)).

Fixpoint replace_loop (fuel : nat) (subject search replace : string) (pos : nat) : run string :=
  match fuel with
  | O => OutOfFuel
  | S fuel' =>
      match find_from subject search pos with
      | None => Done subject
      | Some p =>
          let subject := str_take p subject +:+ replace +:+ str_drop (p + String.length search) subject in
          replace_loop fuel' subject search replace (p + String.length replace)
      end
  end.
Definition replaceAll (subject search replace : string) : run string :=
  replace_loop (S (String.length subject)) subject search replace 0.

(** [s.substr(pos, n)]: an exception behind the end *)
Definition substr (s : string) (pos n : nat) : run string :=
  if (String.length s <? pos)%nat then Fault FAssert else Done (str_take n (str_drop pos s)).
(** [s[i]]: the NUL at the end may be read *)
Definition char_at (s : string) (i : nat) : run ascii :=
  match String.get i s with
  | Some c => Done c
  | None => if (i =? String.length s)%nat then Done zero else Fault FMem
  end.

Fixpoint all_chars (p : ascii -> bool) (s : string) : bool :=
  match s with EmptyString => true | String c s' => p c && all_chars p s' end.
Definition one_of (set : string) (c : ascii) : bool := contains set (String c "").

(** [s[0] == quote && s[s.size()-1] == quote] *)
Definition isString (s : string) : run bool :=
  match s with
  | EmptyString => Done false
  | String c _ =>
      if bool_decide (String c "" = quote) then
        d ← char_at s (String.length s - 1); Done (bool_decide (String d "" = quote))
      else Done false
  end.
Definition isHex (s : string) : bool :=
  (2 <? String.length s)%nat && String.prefix "0x" s && all_chars (one_of "0123456789abcdefABCDEF") (str_drop 2 s).
Definition isDec (s : string) : bool :=
  negb (bool_decide (s = ""%string)) && all_chars (one_of "-0123456789") s.

(** [strtoul(s, NULL, 16)] with 32-bit longs *)
Definition strToHex (s : string) : Z :=
  let '(neg, t) := take_sign (skip_space s) in
  let t := match t with
           | String z (String x (String d r)) =>
               if (char_code z =? 48) && ((char_code x =? 120) || (char_code x =? 88)) && is_digit 16 d then String d r else t
           | _ => t
           end in
  let v := fst (scan_digits 16 t 0) in
  if 2 ^ 32 - 1 <? v then 2 ^ 32 - 1 else if neg then u32 (- v) else v.

(** [snprintf(buf, n, ...)] *)
Definition snprintf (n : nat) (s : string) : string := str_take (n - 1) s.

(** ** Patterns (instructions.h) *)

Fixpoint assoc {A} (l : list (string * A)) (k : string) : option A :=
  match l with [] => None | (k', v) :: l' => if bool_decide (k' = k) then Some v else assoc l' k end.

Definition conditions : list (string * (string * string)) :=
  [("eq", ("if (Z == 1) // ==", "if (COND_X == COND_Y)"));
   ("ne", ("if (Z == 0) // !=", "if (COND_X != COND_Y)"));
   ("hs", ("if (C == 1) // unsigned >=", "if ((unsigned)(COND_X) >= (unsigned)(COND_Y))"));
   ("lo", ("if (C == 0) // unsigned <", "if ((unsigned)(COND_X) < (unsigned)(COND_Y))"));
   ("hi", ("if (C == 1 && Z == 0) // unsigned >", "if ((unsigned)(COND_X) > (unsigned)(COND_Y))"));
   ("ls", ("if (C == 0 || Z == 1) // unsigned <=", "if ((unsigned)(COND_X) <= (unsigned)(COND_Y))"));
   ("ge", ("if (N == V) // signed >=", "if ((signed)(COND_X) >= (signed)(COND_Y))"));
   ("lt", ("if (N != V) // signed <", "if ((signed)(COND_X) < (signed)(COND_Y))"));
   ("gt", ("if (Z == 0 && N == V) // signed >", "if ((signed)(COND_X) > (signed)(COND_Y))"));
   ("le", ("if (Z == 1 || N != V) // signed <=", "if ((signed)(COND_X) <= (signed)(COND_Y))"));
   ("mi", ("if (N == 1) // signed < 0", "")); ("pl", ("if (N == 0) // signed > 0", ""));
   ("vs", ("if (V == 1) // Signed overflow", "")); ("vc", ("if (V == 0) // No signed overflow", ""));
   ("al", ("if (1) // Always", ""))]%string.

Definition shift_op (t : shifter) : string :=
  match t with
  | SFT_ASR | SFT_ASR_REG => ">>" | SFT_LSL | SFT_LSL_REG => "<<" | SFT_LSR | SFT_LSR_REG => ">>"
  | _ => ""
  end.
Definition shift_by_reg (t : shifter) : bool :=
  match t with SFT_ASR_REG | SFT_LSL_REG | SFT_LSR_REG | SFT_ROR_REG | SFT_RRX_REG => true | _ => false end.

Definition tab : string := String (ascii_of_nat 9) "".
Definition instructions : list (string * string) :=
  [("cmp", "FLAGS = op0 - op1;"); ("cmn", "FLAGS = op0 + op1;"); ("tst", "FLAGS = op0 & op1;");
   ("cbz", "if (op0 == 0)\" +:+ tab +:+ "goto symbol;"); ("cbnz", "if (op0 != 0)\" +:+ tab +:+ "goto symbol;");
   ("b", "goto symbol;"); ("bl", "a1 = symbol(...);"); ("blx", "a1 = symbol(...);");
   ("add", "op0 = op1 + op2;"); ("addw", "op0 = op1 + op2;"); ("adc", "op0 = op1 + op2;");
   ("sub", "op0 = op1 - op2;"); ("subw", "op0 = op1 - op2;"); ("rsb", "op0 = op2 - op1;"); ("sbc", "op0 = op1 - op2;");
   ("asr", "op0 = op1 >> op2;"); ("asl", "op0 = op1 << op2;");
   ("mul", "op0 = op1 * op2;"); ("mla", "op0 = op1 * op2 + op3;"); ("mls", "op0 = op1 * op2 - op3;");
   ("umull", "op0 = (op2 * op3) << 32;\op1 = (op2 * op3) & 0xFFFFFFFF;");
   ("and", "op0 = op1 & op2;"); ("bic", "op0 = op1 & ~op2;"); ("eor", "op0 = op1 ^ op2;"); ("orr", "op0 = op1 | op2;");
   ("lsr", "op0 = op1 >> op2;"); ("lsl", "op0 = op1 << op2;");
   ("ubfx", "op0 = (op1 >> op2) & ((1 << op3) - 1);");
   ("rev", "op0 = __builtin_bswap32(op1);"); ("rev16", "op0 = __builtin_bswap16(op1);");
   ("mov", "op0 = op1;"); ("mvn", "op0 = ~op1;"); ("movt", "op0 = op10000 | op0;"); ("movw", "op0 = op1;");
   ("uxtb", "op0 = (uint8_t)op1;"); ("uxth", "op0 = (uint16_t)op1;"); ("sxtb", "op0 = (int8_t)op1;"); ("sxth", "op0 = (int16_t)op1;");
   ("ldr", "op0 = *(uint32_t *)(op1);"); ("ldrb", "op0 = *(uint8_t *)(op1);"); ("ldrsb", "op0 = *(int8_t *)(op1);");
   ("ldrh", "op0 = *(uint16_t *)(op1);"); ("ldrsh", "op0 = *(int16_t *)(op1);");
   ("ldrd", "op0 = *(uint32_t *)(op2);\op1 = *(uint32_t *)(op2 + 0x4);");
   ("str", "*(uint32_t *)(op1) = op0;"); ("strb", "*(uint8_t *)(op1) = op0;"); ("strsb", "*(int8_t *)(op1) = op0;");
   ("strh", "*(uint16_t *)(op1) = op0;"); ("strsh", "*(int16_t *)(op1) = op0;");
   ("strd", "*(uint32_t *)(op2) = op0;\*(uint32_t *)(op2 + 0x4) = op1;")]%string.
Definition instructions2 : list (string * string) :=
  [("add", "op0 = op0 + op1;"); ("sub", "op0 = op0 - op1;"); ("mul", "op0 = op0 * op1;");
   ("asr", "op0 = op0 >> op1;"); ("asl", "op0 = op0 << op1;");
   ("and", "op0 = op0 & op1;"); ("bic", "op0 = op0 & ~op1;"); ("eor", "op0 = op0 ^ op1;"); ("orr", "op0 = op0 | op1;");
   ("lsr", "op0 = op0 >> op1;"); ("lsl", "op0 = op0 << op1;")]%string.

(** The pattern; empty for an unknown instruction *)
Definition getInstructionCode (i : cs_insn) (mnemonic : string) : string :=
  match assoc instructions mnemonic with
  | None => ""
  | Some code =>
      let code := if (op_count i =? 2)%nat then default code (assoc instructions2 mnemonic) else code in
      if update_flags i && negb (bool_decide (mnemonic ∈ ["cmp"; "cmn"; "tst"]%string))
      then (code +:+ "\FLAGS = op0;")%string else code
  end.

(** The mnemonic without its suffixes, and the texts of the condition *)
Definition trimMnemonic (i : cs_insn) (m : string) : run (string * (string * string)) :=
  let m := match strstr m ".w" with Some k => str_take k m | None => m end in
  '(m, conds) ← (if isConditional i then
                   if (String.length m <? 2)%nat then Fault FAssert
                   else
                     match assoc conditions (str_drop (String.length m - 2) m) with
                     | Some c => Done (str_take (String.length m - 2) m, c)
                     | None => Done (m, ("", ""))
                     end
                 else Done (m, ("", "")))%string;
  if update_flags i then
    if (String.length m =? 0)%nat then Fault FMem
    else c ← char_at m (String.length m - 1);
         Done (if bool_decide (c = "s"%char) then str_take (String.length m - 1) m else m, conds)
  else Done (m, conds).

(** ** The segments on the host *)

Record host := Host {
  text_base : Z; text_bytes : mem; text_addr : Z; text_size : Z;
  data_base : Z; data_bytes : mem; data_addr : Z; data_size : Z
}.

Definition host_load8 (h : host) (p : Z) : run Z :=
  if (text_base h <=? p) && (p <? text_base h + mlen (text_bytes h)) then load8 (text_bytes h) (p - text_base h)
  else load8 (data_bytes h) (p - data_base h).
Fixpoint host_load (n : nat) (h : host) (p : Z) : run Z :=
  match n with O => Done 0 | S n' => b ← host_load8 h p; r ← host_load n' h (p + 1); Done (b + 256 * r) end.
Fixpoint host_str (fuel : nat) (h : host) (p : Z) : run string :=
  match fuel with
  | O => Fault FMem
  | S fuel' =>
      b ← host_load8 h p;
      if b =? 0 then Done ""%string else s ← host_str fuel' h (p + 1); Done (String (ascii_of_nat (Z.to_nat b)) s)
  end.
Definition host_size (h : host) : nat := length (text_bytes h) + length (data_bytes h).
Definition read_host (h : host) (p : Z) : run string := host_str (S (host_size h)) h p.

(** [strnlen(string, n)] *)
Fixpoint strnlen (n : nat) (h : host) (p : Z) : run Z :=
  match n with
  | O => Done 0
  | S n' => b ← host_load8 h p; if b =? 0 then Done 0 else r ← strnlen n' h (p + 1); Done (1 + r)
  end.
(** [while (string[i] >= 0x20) i++] on signed characters *)
Fixpoint printable_run (fuel : nat) (h : host) (p i : Z) : run Z :=
  match fuel with
  | O => Fault FMem
  | S fuel' => b ← host_load8 h (p + i); if (0x20 <=? b) && (b <? 0x80) then printable_run fuel' h p (i + 1) else Done i
  end.

(** The bounds are pointers to words: a size counts four times. *)
Definition isascii4 (h : host) (p : Z) : run bool :=
  if ((data_base h <? p) && (p + 16 <? data_base h + 4 * data_size h))
     || ((text_base h <? p) && (p + 16 <? text_base h + 4 * text_size h)) then
    len ← strnlen 4 h p;
    i ← printable_run (S (host_size h)) h p 0;
    if (0 <? i) && (len <=? i) && negb (len =? 0) then Done true
    else if (text_base h <? p) && (p <? text_base h + 4 * text_size h) && (i =? 0) then
      b ← host_load8 h p; Done (b =? 0)
    else Done false
  else Done false.

Definition in_text (h : host) (a : Z) : bool := (text_addr h <? a) && (a <? u32 (text_addr h + text_size h)).
Definition in_data (h : host) (a : Z) : bool := (data_addr h <? a) && (a <? u32 (data_addr h + data_size h)).

(** The chain of pointers from an address; [None]: the pointer to the value
    itself, and the word that is pointed to *)
Fixpoint follow (fuel : nat) (h : host) (inside : Z -> bool) (base addr : Z) (p : option Z) (a : Z) : run (option Z * Z) :=
  match fuel with
  | O => OutOfFuel
  | S fuel' =>
      if inside a then
        let q := base + (a - addr) in a' ← host_load 4 h q; follow fuel' h inside base addr (Some q) a'
      else Done (p, a)
  end.
Definition checkDwordValue (fuel : nat) (h : host) (value : Z) : run (option Z * Z) :=
  if value =? 0 then Done (None, value)
  else
    '(p, a) ← follow fuel h (in_text h) (text_base h) (text_addr h) None value;
    follow fuel h (in_data h) (data_base h) (data_addr h) p a.

(** A subroutine; a subroutine or a label *)
Definition is_subroutine (e : SymbolEntry) : bool := negb (Z.land (s_type e) SYMBOL_SUBROUTINE =? 0).
Definition is_place (e : SymbolEntry) : bool := negb (Z.land (s_type e) (Z.lor SYMBOL_SUBROUTINE SYMBOL_LABEL) =? 0).

(** ** The state *)

Record RegisterAssignmentEntry := Assign { assign : string; assign_addr : Z; assign_flags : bool }.
Record gstate := GState {
  g_symbol_map : SymbolMap;
  g_ignore_map : gset Z;
  g_reg_assign_map : gmap Z RegisterAssignmentEntry;
  g_use_flags : bool;
  g_condition_regs : string * string
}.
Definition set_regs (f : gmap Z RegisterAssignmentEntry -> gmap Z RegisterAssignmentEntry) (s : gstate) : gstate :=
  GState (g_symbol_map s) (g_ignore_map s) (f (g_reg_assign_map s)) (g_use_flags s) (g_condition_regs s).
Definition set_flags (b : bool) (s : gstate) : gstate :=
  GState (g_symbol_map s) (g_ignore_map s) (g_reg_assign_map s) b (g_condition_regs s).
Definition set_conditions (c : string * string) (s : gstate) : gstate :=
  GState (g_symbol_map s) (g_ignore_map s) (g_reg_assign_map s) (g_use_flags s) c.
Definition set_ignored (a : Z) (s : gstate) : gstate :=
  GState (g_symbol_map s) ({[a]} ∪ g_ignore_map s) (g_reg_assign_map s) (g_use_flags s) (g_condition_regs s).

Definition freeRegAssignMap : gstate -> gstate := set_regs (fun _ => ∅).

Definition getImmString (imm : Z) (is_mem : bool) : string :=
  if ((-9 <=? s32 imm) && (s32 imm <=? 9)) || (is_mem && negb (Z.land (u32 imm) 0x80000000 =? 0))
  then pretty (s32 imm) else ("0x" +:+ fmt_X imm)%string.

Section Translate.
(** The numbers of the registers r0 to r15 and of no register; the segments *)
Context (ARM_REG : nat -> Z) (ARM_REG_INVALID : Z) (h : host).

Definition reg_names : list string :=
  ["a1"; "a2"; "a3"; "a4"; "v1"; "v2"; "v3"; "v4"; "v5"; "sb"; "sl"; "fp"; "ip"; "sp"; "lr"; "pc"]%string.
Definition getRegName (reg_id : Z) : string :=
  match list_find (fun i => ARM_REG i = reg_id) (seq 0 16) with
  | Some (i, _) => nth i reg_names "unk"
  | None => "unk"
  end%string.

(** [ARM_REG_R0+i] *)
Definition reg (i : nat) : Z := ARM_REG 0 + Z.of_nat i.

Definition clearRegAssignMapAfterBranch : gstate -> gstate :=
  set_regs (fun m => foldl (fun m i => delete (ARM_REG i) m) m [0; 1; 2; 3]%nat).

Definition ignoreAddr (r : Z) (s : gstate) : gstate :=
  match g_reg_assign_map s !! r with
  | None => s
  | Some e => if assign_flags e && g_use_flags s then s else set_ignored (assign_addr e) s
  end.

(** [for (int i = 0; i < min(n_args, MAX_ARGS); i++)]; [n]: turns left *)
Fixpoint args_loop (n i : nat) (input analyse : bool) (s : gstate) : string * gstate :=
  match n with
  | O => (""%string, s)
  | S n' =>
      let '(text, s) :=
        if input then
          if (i <? 4)%nat then
            match g_reg_assign_map s !! reg i with
            | Some e => ((assign e +:+ ", ")%string, if analyse then ignoreAddr (reg i) s else s)
            | None => (("a" +:+ pretty (Z.of_nat i + 1) +:+ ", ")%string, s)
            end
          else (("*(sp+" +:+ pretty ((Z.of_nat i - 4) * 4) +:+ "), ")%string, s)
        else (("int arg" +:+ pretty (Z.of_nat i + 1) +:+ ", ")%string, s) in
      let '(rest, s) := args_loop n' (S i) input analyse s in ((text +:+ rest)%string, s)
  end.
(** Without the last separator; of no text nothing is cut off. *)
Definition getArgsString (n_args : Z) (input analyse : bool) (s : gstate) : string * gstate :=
  let '(t, s) := args_loop (Nat.min (Z.to_nat n_args) MAX_ARGS) 0 input analyse s in
  (str_take (String.length t - 2) t, s).

Definition handleShift (r : string) (op : cs_arm_op) : string :=
  match shift_type op with
  | SFT_INVALID => r
  | t =>
      if (shift_value op =? 0)%Z then r
      else if shift_by_reg t
      then snprintf 256 ("(" +:+ r +:+ " " +:+ shift_op t +:+ " " +:+ getRegName (shift_value op) +:+ ")")
      else snprintf 256 ("(" +:+ r +:+ " " +:+ shift_op t +:+ " 0x" +:+ fmt_X (shift_value op) +:+ ")")
  end%string.

Definition composeRegister (reg_str : string) (r : Z) (analyse : bool) (s : gstate) : run (string * gstate) :=
  if r =? ARM_REG 13 then Done (reg_str, s)
  else
    match g_reg_assign_map s !! r with
    | Some e =>
        if (String.length (assign e) <? 128)%nat then
          is_string ← isString (assign e);
          let set_brackets := negb is_string && contains (assign e) " " in
          Done ((if set_brackets then "(" +:+ assign e +:+ ")" else assign e)%string, if analyse then ignoreAddr r s else s)
        else Done (reg_str, s)
    | None => Done (reg_str, s)
    end.

(** ** One operand: [i] of [n] *)

Definition op_name (i : nat) : string := ("op" +:+ pretty (Z.of_nat i))%string.

Definition parse_operand (insn : cs_insn) (is_cmp analyse : bool) (i : nat) (cs : string * gstate) : run (string * gstate) :=
  let '(code, s) := cs in
  let op := operands insn i in
  let assigned := contains code (op_name i +:+ " = ") in
  match o_type op with
  | OP_REG =>
      '(r, s) ← (if assigned then Done (getRegName (o_word op), s)
                 else composeRegister (getRegName (o_word op)) (o_word op) analyse s);
      let r := if (S i =? op_count insn)%nat then handleShift r op else r in
      let s := if is_cmp then
                 match i with
                 | 0%nat => set_conditions (r, snd (g_condition_regs s)) s
                 | 1%nat => set_conditions (fst (g_condition_regs s), r) s
                 | _ => s
                 end
               else s in
      code ← replaceAll code (op_name i) r; Done (code, s)
  | OP_IMM => code ← replaceAll code (op_name i) (getImmString (o_word op) false); Done (code, s)
  | OP_MEM =>
      '(r, s) ← (if assigned then Done (getRegName (o_word op), s)
                 else composeRegister (getRegName (o_word op)) (o_word op) analyse s);
      let str := if negb (o_index op =? ARM_REG_INVALID)
                 then (r +:+ " + " +:+ handleShift (getRegName (o_index op)) (operands insn 0))%string
                 else (r +:+ " + " +:+ getImmString (o_disp op) true)%string in
      let str := match find_from str " + 0" (String.length str - 4) with
                 | Some pos => if (4 <=? String.length str)%nat then str_take pos str else str
                 | None => str
                 end in
      code ← replaceAll code (op_name i) str; Done (code, s)
  | OP_OTHER => Done (code, s)
  end.

Fixpoint parse_loop (insn : cs_insn) (is_cmp analyse : bool) (n i : nat) (cs : string * gstate) : run (string * gstate) :=
  match n with
  | O => Done cs
  | S n' => cs ← parse_operand insn is_cmp analyse i cs; parse_loop insn is_cmp analyse n' (S i) cs
  end.
Definition parseOperations (insn : cs_insn) (mnemonic : string) (code : string) (analyse : bool) (s : gstate)
    : run (string * gstate) :=
  parse_loop insn (bool_decide (mnemonic = "cmp"%string)) analyse (op_count insn) 0 (code, s).

(** ** Assignments *)

(** [code.substr(5, code.find(";")-5)] *)
Definition assigned_text (code : string) : run string :=
  substr code 5 (match strstr code ";" with
                 | Some k => if (k <? 5)%nat then String.length code else (k - 5)%nat
                 | None => String.length code
                 end).

(** [isascii4] of the place, then of what its chain of pointers ends at: where
    the text is, if there is one; where the chain ended, and the word there *)
Definition find_text (fuel : nat) (p value : Z) : run (option Z * (option Z * Z)) :=
  here ← isascii4 h p;
  if here : bool then Done (Some p, (None, value))
  else
    chain ← checkDwordValue fuel h value;
    match fst chain with
    | None => Done (None, chain)
    | Some q => b ← isascii4 h q; Done (if b : bool then Some q else None, chain)
    end.

(** What a full 32-bit address is printed as; a pointer to [value] itself sees
    that it has been made even. *)
Definition word_text (fuel : nat) (s : gstate) (value : Z) : run string :=
  if in_text h value then
    found ← find_text fuel (text_base h + (value - text_addr h)) value;
    match found with
    | (Some r, _) => t ← read_host h r; Done ("/*s_text_" +:+ fmt_0X 8 value +:+ "*/ " +:+ quote +:+ t +:+ quote)%string
    | (None, (q, w)) =>
        let even := Z.land value 0xFFFFFFFE in
        match g_symbol_map s !! even with
        | None => Done (fmt_0X 8 value)
        | Some e =>
            if is_subroutine e then printf_plain (s_name e)
            else Done ("/*text_" +:+ fmt_0X 8 even +:+ "*/ 0x" +:+ fmt_0X 8 (match q with Some _ => w | None => even end))%string
        end
    end
  else if in_data h value then
    found ← find_text fuel (data_base h + (value - data_addr h)) value;
    match found with
    | (Some r, _) => t ← read_host h r; Done ("/*s_data_" +:+ fmt_0X 8 value +:+ "*/ " +:+ quote +:+ t +:+ quote)%string
    | (None, (_, w)) => Done ("/*data_" +:+ fmt_0X 8 value +:+ "*/ 0x" +:+ fmt_0X 8 w)%string
    end
  else Done ("/*data_" +:+ fmt_0X 8 value +:+ "*/")%string.

Definition assignRegister (fuel : nat) (insn : cs_insn) (mnemonic : string) (addr : Z) (code : string) (analyse : bool) (s : gstate)
    : run (string * gstate) :=
  let r := o_word (operands insn 0) in
  if isConditional insn then Done (code, set_regs (delete r) s)
  else
    text ← assigned_text code;
    '(code, text, s) ←
      (match bool_decide (mnemonic = "movt"%string), g_reg_assign_map s !! r with
       | true, Some e =>
           if isHex (assign e) || isDec (assign e) then
             let movt_val := strToHex (match strstr text " " with Some k => str_take k text | None => text end) in
             buf ← word_text fuel s (Z.lor movt_val (strToHex (assign e)));
             newline_esc ← replaceAll (snprintf 1024 buf) nl "()n";
             if (1024 <=? String.length newline_esc)%nat then Fault FMem
             else Done ((getRegName r +:+ " = " +:+ newline_esc +:+ ";")%string, newline_esc, if analyse then ignoreAddr r s else s)
           else Done (code, text, s)
       | _, _ => Done (code, text, s)
       end);
    Done (code, set_regs (fun m => <[r := Assign text addr (update_flags insn)]> m) s).

(** ** The whole line *)

(** [for (int i = 0; i < 2; i++)]: both operands, whether the instruction has
    them or not *)
Definition replace_symbol (insn : cs_insn) (analyse : bool) (i : nat) (cs : string * gstate) : run (string * gstate) :=
  let '(code, s) := cs in
  match g_symbol_map s !! u32 (o_word (operands insn i)) with
  | Some e =>
      if is_place e then
        code ← replaceAll code "symbol" (s_name e);
        if is_subroutine e then
          let '(args, s) := getArgsString (n_args e) true analyse s in
          code ← replaceAll code "..." args; Done (code, s)
        else Done (code, s)
      else Done (code, s)
  | None => if (i =? 1)%nat then code ← replaceAll code "symbol" (op_str insn); Done (code, s) else Done (code, s)
  end.

Definition translateCode (fuel : nat) (insn : cs_insn) (mnemonic : string) (addr : Z) (code : string) (analyse : bool) (s : gstate)
    : run (string * gstate) :=
  let s := if isConditional insn then set_flags true s else s in
  let s := if update_flags insn then set_conditions ("", "")%string (set_flags false s) else s in
  '(code, s) ← parseOperations insn mnemonic code analyse s;
  c3 ← char_at code 3;
  is_assignment ← (if bool_decide (c3 = "="%char) then t ← substr code 5 6; Done (negb (bool_decide (t = "symbol"%string)))
                   else Done false);
  '(code, s) ← (if is_assignment : bool then assignRegister fuel insn mnemonic addr code analyse s else Done (code, s));
  '(code, s) ← replace_symbol insn analyse 0 (code, s);
  '(code, s) ← replace_symbol insn analyse 1 (code, s);
  if bool_decide (mnemonic = "bl"%string) || bool_decide (mnemonic = "blx"%string)
  then Done (code, set_flags false (clearRegAssignMapAfterBranch s))
  else Done (code, s).

(** What is appended to the output for an instruction *)
Definition pseudoCode (fuel : nat) (insn : cs_insn) (addr : Z) (s : gstate) : run (string * gstate) :=
  '(m, (cond_flags, cond_regs)) ← trimMnemonic insn (mnemonic insn);
  let code := getInstructionCode insn m in
  if bool_decide (code = ""%string) then
    Done ((if bool_decide (m = "bx"%string) && bool_decide (op_str insn = "lr"%string) then tab +:+ "return a1;" +:+ nl
           else if bool_decide (m = "pop"%string) then tab +:+ "return a1; // " +:+ m +:+ " " +:+ op_str insn +:+ nl
           else if bool_decide (m = "push"%string) then tab +:+ "// " +:+ m +:+ " " +:+ op_str insn +:+ nl
           else if bool_decide (m = "nop"%string) || String.prefix "it" m then ""
           else tab +:+ "asm(" +:+ quote +:+ m +:+ " " +:+ op_str insn +:+ "\n" +:+ quote +:+ ");" +:+ nl)%string, s)
  else
    '(code, s) ← translateCode fuel insn m addr code false s;
    let has_condition := negb (bool_decide (cond_flags = "" /\ cond_regs = ""))%string in
    let head := if has_condition then (tab +:+ cond_flags +:+ nl)%string else ""%string in
    let indent := if has_condition then (tab +:+ tab)%string else tab in
    code ← replaceAll code "\" (nl +:+ indent);
    code ← replaceAll code "()n" "\n";
    Done ((head +:+ if bool_decide (addr ∈ g_ignore_map s) then "" else indent +:+ code +:+ nl)%string, s).
End Translate.

(** ** Replacing is substitution *)

(** From left to right, every occurrence that does not overlap the one before;
    [skip]: characters of the last occurrence that are still to be left out *)
Fixpoint subst (search replace : string) (skip : nat) (s : string) : string :=
  match s with
  | EmptyString => EmptyString
  | String c s' =>
      match skip with
      | S k => subst search replace k s'
      | O => if String.prefix search s then replace +:+ subst search replace (String.length search - 1) s'
             else String c (subst search replace 0 s')
      end
  end.

Section Replace.
Context (search replace : string) (Hne : search <> ""%string).

Lemma subst_skip k : forall s, subst search replace k s = subst search replace 0 (str_drop k s).
Proof. induction k as [|k IH]; intros [|c s]; cbn [str_drop]; [done..|]. cbn [subst]. apply IH. Qed.

Lemma subst_none s : strstr s search = None -> subst search replace 0 s = s.
Proof.
  induction s as [|c s IH]; [done|]. cbn [strstr subst]. destruct (String.prefix search (String c s)); [done|].
  destruct (strstr s search); [done|]. intros _. by rewrite IH.
Qed.

Lemma subst_some s k : strstr s search = Some k ->
  subst search replace 0 s = str_take k s +:+ replace +:+ subst search replace 0 (str_drop (k + String.length search) s).
Proof.
  revert k. induction s as [|c s IH]; intros k.
  - cbn [strstr]. destruct search; [done|]. done.
  - cbn [strstr subst]. destruct (String.prefix search (String c s)).
    + intros [= <-]. cbn [str_take Nat.add]. change ("" +:+ ?x)%string with x. f_equal. rewrite subst_skip. f_equal.
      destruct search as [|d r]; [done|]. cbn [String.length]. rewrite Nat.sub_succ, Nat.sub_0_r. done.
    + destruct (strstr s search) as [k'|]; [|done]. intros [= <-]. rewrite (IH k' eq_refl). done.
Qed.

Lemma str_drop_drop a b s : str_drop a (str_drop b s) = str_drop (b + a) s.
Proof. revert s. induction b as [|b IH]; intros [|c s]; cbn [str_drop Nat.add]; [done|done|by destruct a|apply IH]. Qed.
Lemma str_take_plus pre k s : str_take (String.length pre + k) (pre +:+ s)%string = (pre +:+ str_take k s)%string.
Proof. induction pre as [|c pre IH]; [done|]. exact (f_equal (String c) IH). Qed.
Lemma str_drop_plus pre k s : str_drop (String.length pre + k) (pre +:+ s)%string = str_drop k s.
Proof. rewrite <- str_drop_drop. by rewrite str_drop_app. Qed.

Lemma replace_loop_spec fuel : forall pre s, (String.length s < fuel)%nat ->
  replace_loop fuel (pre +:+ s) search replace (String.length pre) = Done (pre +:+ subst search replace 0 s)%string.
Proof.
  induction fuel as [|fuel IH]; intros pre s Hf; [lia|]. cbn [replace_loop]. unfold find_from.
  rewrite (proj2 (Nat.ltb_ge _ _)) by (rewrite string_length_app; lia). rewrite str_drop_app.
  destruct (strstr s search) as [k|] eqn:E; [|by rewrite subst_none].
  pose proof (strstr_Some _ _ _ E) as [_ Hk]. rewrite str_take_plus, <- Nat.add_assoc, str_drop_plus, (subst_some _ _ E).
  assert (0 < String.length search)%nat by (destruct search; [done|cbn; lia]).
  rewrite <- !string_app_assoc. replace (String.length pre + k + String.length replace)%nat with (String.length ((pre +:+ str_take k s) +:+ replace)%string).
  2: { rewrite !string_length_app, str_take_length by lia. done. }
  rewrite IH by (rewrite str_drop_length by lia; lia). by rewrite !string_app_assoc.
Qed.

Lemma replaceAll_spec s : replaceAll s search replace = Done (subst search replace 0 s).
Proof. unfold replaceAll. exact (replace_loop_spec (S (String.length s)) "" s (Nat.lt_succ_diag_r _)). Qed.
End Replace.

(** C40: Replacing a text that is not empty ends, and is the substitution of its
    occurrences from left to right, also when what is put in contains the
    text itself. *)
Theorem replaceAll_substitutes search replace s : search <> ""%string -> replaceAll s search replace = Done (subst search replace 0 s).
Proof. intros Hne. by apply replaceAll_spec. Qed.

(** An empty one would be put in for ever. *)
Lemma replaceAll_empty fuel replace : forall s pos, (pos <= String.length s)%nat -> replace_loop fuel s "" replace pos = OutOfFuel.
Proof.
  induction fuel as [|fuel IH]; intros s pos Hp; [done|]. cbn [replace_loop]. unfold find_from. rewrite (proj2 (Nat.ltb_ge _ _)) by lia.
  assert (strstr (str_drop pos s) "" = Some 0%nat) as -> by (by destruct (str_drop pos s)).
  rewrite !Nat.add_0_r. apply IH. rewrite !string_length_app, str_take_length by lia. lia.
Qed.

(** ** The value of a pair of half words *)

(** A number below 10 is printed in decimal. *)
Lemma getImmString_small imm : 0 <= imm < 10 -> exists c, getImmString imm false = String c "" /\
  digit_val c = Some imm /\ one_of "-0123456789" c = true.
Proof.
  intros H. assert (imm ∈ seqZ 0 10) as Hin by (apply elem_of_seqZ; lia).
  revert Hin. generalize imm. clear. rewrite <- Forall_forall.
  repeat (apply Forall_cons_2; [eexists; split; [vm_compute; reflexivity|split; vm_compute; reflexivity]|]). apply Forall_nil_2.
Qed.
Lemma getImmString_large imm : 10 <= imm < 2 ^ 31 -> getImmString imm false = ("0x" +:+ fmt_X imm)%string.
Proof.
  intros H. unfold getImmString. rewrite s32_small by lia. rewrite (proj2 (Z.leb_le _ _)), (proj2 (Z.leb_gt _ _)) by lia. done.
Qed.

Lemma strToHex_0x c s : is_digit 16 c = true ->
  strToHex (String "0" (String "x" (String c s))) =
  let v := fst (scan_digits 16 (String c s) 0) in if 2 ^ 32 - 1 <? v then 2 ^ 32 - 1 else v.
Proof. intros Hc. unfold strToHex. change (take_sign (skip_space ?z)) with (false, z). cbv beta iota. by rewrite Hc. Qed.

Lemma strToHex_digit c s d : digit_val c = Some d -> one_of "-0123456789" c = true -> 0 <= d < 10 ->
  all_chars (fun c => bool_decide (c = "0"%char)) s = true ->
  strToHex (String c s) = let v := fst (scan_digits 16 s d) in if 2 ^ 32 - 1 <? v then 2 ^ 32 - 1 else v.
Proof.
  intros Hd Ho Hr Hs. unfold strToHex.
  assert (take_sign (skip_space (String c s)) = (false, String c s)) as ->.
  { unfold digit_val in Hd. unfold skip_space, isspace, take_sign. repeat case_match; simplify_eq; try done; lia. }
  cbv beta iota. assert (match s with
    | String x (String e r) => if (char_code c =? 48) && ((char_code x =? 120) || (char_code x =? 88)) && is_digit 16 e then String e r else String c s
    | _ => String c s end = String c s) as ->.
  { destruct s as [|x [|e r]]; [done|done|]. cbn [all_chars] in Hs. apply andb_true_iff in Hs as [Hx _]. apply bool_decide_eq_true in Hx as ->.
    change (char_code "0"%char =? 120) with false. change (char_code "0"%char =? 88) with false. by rewrite andb_false_r. }
  rewrite (scan_digits_cons _ _ _ _ _ Hd) by lia. done.
Qed.

Lemma scan_zeros k : forall acc, scan_digits 16 (String.string_of_list_ascii (replicate k "0"%char)) acc = (acc * 16 ^ Z.of_nat k, ""%string).
Proof.
  induction k as [|k IH]; intros acc; [by rewrite Z.mul_1_r|]. cbn [replicate String.string_of_list_ascii].
  rewrite (scan_digits_cons 16 "0"%char 0) by (reflexivity || lia). rewrite IH. f_equal. rewrite Nat2Z.inj_succ, Z.pow_succ_r by lia. ring.
Qed.

(** An immediate of 16 bits, with or without four zeros behind it *)
Lemma strToHex_imm imm k : 0 <= imm < 2 ^ 16 -> (k = 0 \/ k = 4)%nat ->
  strToHex (getImmString imm false +:+ String.string_of_list_ascii (replicate k "0"%char)) = imm * 16 ^ Z.of_nat k.
Proof.
  intros Hi Hk. assert (imm * 16 ^ Z.of_nat k < 2 ^ 32) as Hb by (destruct Hk as [-> | ->]; cbn; lia).
  destruct (Z.lt_ge_cases imm 10) as [Hs|Hl].
  - destruct (getImmString_small imm) as (c & -> & Hd & Ho); [lia|]. change ((String c "" +:+ ?r)%string) with (String c r).
    rewrite (strToHex_digit _ _ _ Hd Ho) by (lia || (destruct Hk as [-> | ->]; reflexivity)). rewrite scan_zeros. cbn [fst].
    by rewrite (proj2 (Z.ltb_ge _ _)) by lia.
  - rewrite getImmString_large by lia. unfold fmt_X. rewrite u32_small by lia.
    destruct (scan_fmt_hex 7 imm) as (n & c & s & E & Hc & _ & Hscan); [cbn; lia|].
    set (r := String.string_of_list_ascii (replicate k "0"%char)). specialize (Hscan 0 r). rewrite E in *.
    change (strToHex (String "0" (String "x" (String c (s +:+ r)%string))) = imm * 16 ^ Z.of_nat k).
    rewrite strToHex_0x by done. cbv zeta. change (String c (s +:+ r)%string) with (String c s +:+ r)%string.
    rewrite Hscan. unfold r. rewrite scan_zeros. cbn [fst].
    rewrite Z.mul_0_l, Z.add_0_l. by rewrite (proj2 (Z.ltb_ge _ _)) by lia.
Qed.

Lemma fmt_hex_hex k : forall x, 0 <= x -> all_chars (one_of "0123456789abcdefABCDEF") (fmt_hex k x) = true.
Proof.
  assert (forall a b, all_chars (one_of "0123456789abcdefABCDEF") (a +:+ b)%string =
    all_chars (one_of "0123456789abcdefABCDEF") a && all_chars (one_of "0123456789abcdefABCDEF") b) as Happ.
  { induction a as [|c a IH]; intros b; [done|]. rewrite string_app_cons. cbn [all_chars]. by rewrite IH, andb_assoc. }
  induction k as [|k IH]; intros x Hx; cbn [fmt_hex]; [done|]. rewrite Happ. apply andb_true_iff. split.
  - destruct (Z.ltb_spec x 16); [done|]. apply IH. apply Z.div_pos; lia.
  - assert (x mod 16 ∈ seqZ 0 16) as Hin by (apply elem_of_seqZ; pose proof (Z.mod_pos_bound x 16); lia).
    revert Hin. generalize (x mod 16). rewrite <- Forall_forall. repeat (apply Forall_cons_2; [vm_compute; reflexivity|]). apply Forall_nil_2.
Qed.

Lemma getImmString_number imm : 0 <= imm < 2 ^ 16 -> isHex (getImmString imm false) || isDec (getImmString imm false) = true.
Proof.
  intros Hi. destruct (Z.lt_ge_cases imm 10) as [Hs|Hl].
  - destruct (getImmString_small imm) as (c & -> & _ & Ho); [lia|]. apply orb_true_iff. right. unfold isDec. cbn [all_chars]. by rewrite Ho.
  - rewrite getImmString_large by lia. apply orb_true_iff. left. unfold isHex, fmt_X. rewrite u32_small by lia.
    destruct (scan_fmt_hex 7 imm) as (n & c & s & E & _); [cbn; lia|]. pose proof (fmt_hex_hex 8 imm ltac:(lia)) as Hh. rewrite E in *.
    rewrite !string_app_cons. change ("" +:+ ?z)%string with z. cbn [str_drop]. rewrite Hh. done.
Qed.

Lemma strstr_char c a b : all_chars (fun d => negb (bool_decide (d = c))) a = true ->
  strstr (a +:+ String c b) (String c "") = Some (String.length a).
Proof.
  induction a as [|d a IH]; intros H.
  - change ("" +:+ String c b)%string with (String c b). cbn [strstr String.prefix]. destruct (ascii_dec c c); [|done]. by destruct b.
  - cbn [all_chars] in H. apply andb_true_iff in H as [Hd H]. apply negb_true_iff, bool_decide_eq_false in Hd.
    rewrite string_app_cons. cbn [strstr String.prefix]. destruct (ascii_dec c d) as [->|_]; [done|]. by rewrite IH.
Qed.

Lemma all_chars_app p a b : all_chars p (a +:+ b)%string = all_chars p a && all_chars p b.
Proof. induction a as [|c a IH]; [done|]. rewrite string_app_cons. cbn [all_chars]. by rewrite IH, andb_assoc. Qed.
Lemma all_chars_impl (p q : ascii -> bool) s : (forall c, p c = true -> q c = true) -> all_chars p s = true -> all_chars q s = true.
Proof. intros H. induction s as [|c s IH]; [done|]. cbn [all_chars]. intros [Hc Hs]%andb_true_iff. by rewrite (H c Hc), IH. Qed.

(** No semicolon and no space *)
Definition plain_char (c : ascii) : bool := negb (bool_decide (c = ";"%char)) && negb (bool_decide (c = " "%char)).
Lemma plain_imm imm : 0 <= imm < 2 ^ 16 -> all_chars plain_char (getImmString imm false) = true.
Proof.
  intros Hi. destruct (Z.lt_ge_cases imm 10) as [Hs|Hl].
  - destruct (getImmString_small imm) as (c & -> & _ & Ho); [lia|]. cbn [all_chars]. rewrite andb_true_r. revert Ho.
    unfold plain_char. destruct (bool_decide_reflect (c = ";"%char)) as [->|]; [done|].
    by destruct (bool_decide_reflect (c = " "%char)) as [->|].
  - rewrite getImmString_large by lia. rewrite all_chars_app. change (all_chars plain_char "0x") with true. cbn [andb].
    apply (all_chars_impl (one_of "0123456789abcdefABCDEF")); [|apply fmt_hex_hex; by apply u32_range].
    intros c Ho. unfold plain_char. destruct (bool_decide_reflect (c = ";"%char)) as [->|]; [done|].
    by destruct (bool_decide_reflect (c = " "%char)) as [->|].
Qed.
Lemma plain_semicolon s : all_chars plain_char s = true -> all_chars (fun d => negb (bool_decide (d = ";"%char))) s = true.
Proof. apply all_chars_impl. intros c [H _]%andb_true_iff. exact H. Qed.
Lemma plain_space s : all_chars plain_char s = true -> all_chars (fun d => negb (bool_decide (d = " "%char))) s = true.
Proof. apply all_chars_impl. intros c [_ H]%andb_true_iff. exact H. Qed.

Lemma reg_name_shape n : n ∈ reg_names -> String.length n = 2%nat /\ all_chars plain_char n = true.
Proof. revert n. apply Forall_forall. repeat (apply Forall_cons_2; [split; reflexivity|]). apply Forall_nil_2. Qed.

(** The two halves of an address, loaded by a move and a move to the top
    half, are put together: the second instruction is translated to the
    assignment of what the whole address stands for, and the register is
    known by that from then on. *)
Theorem movt_composes ARM_REG h fuel insn addr s e lo hi t : isConditional insn = false ->
  let r := o_word (operands insn 0) in let rn := getRegName ARM_REG r in
  rn ∈ reg_names -> 0 <= lo < 2 ^ 16 -> 0 <= hi < 2 ^ 16 ->
  g_reg_assign_map s !! r = Some e -> assign e = getImmString lo false ->
  word_text h fuel s (hi * 2 ^ 16 + lo) = Done t ->
  let t' := subst nl "()n" 0 (snprintf 1024 t) in (String.length t' < 1024)%nat ->
  assignRegister ARM_REG h fuel insn "movt" addr (rn +:+ " = " +:+ getImmString hi false +:+ "0000 | " +:+ rn +:+ ";") false s =
  Done ((rn +:+ " = " +:+ t' +:+ ";")%string, set_regs (fun m => <[r := Assign t' addr (update_flags insn)]> m) s).
Proof.
  intros Hc r rn Hr Hlo Hhi He Hl Ht t' Hlen. destruct (reg_name_shape _ Hr) as [Hn Hp].
  unfold assignRegister. fold r. rewrite Hc. set (imm := getImmString hi false).
  assert (assigned_text (rn +:+ " = " +:+ imm +:+ "0000 | " +:+ rn +:+ ";") = Done (imm +:+ "0000 | " +:+ rn)%string) as ->.
  { unfold assigned_text. set (text := (imm +:+ "0000 | " +:+ rn)%string).
    assert ((rn +:+ " = " +:+ imm +:+ "0000 | " +:+ rn +:+ ";") = ((rn +:+ " = ") +:+ text +:+ String ";" ""))%string as ->.
    { unfold text. by rewrite !string_app_assoc. }
    assert (String.length (rn +:+ " = ")%string = 5%nat) as H5 by (by rewrite string_length_app, Hn).
    rewrite <- string_app_assoc, strstr_char, string_length_app, H5.
    2: { unfold text, imm. rewrite !all_chars_app, (plain_semicolon _ Hp), (plain_semicolon _ (plain_imm hi Hhi)). done. }
    replace (5 + String.length text <? 5)%nat with false by (symmetry; apply Nat.ltb_ge; lia). unfold substr.
    assert (str_drop 5 (((rn +:+ " = ") +:+ text) +:+ String ";" "") = text +:+ String ";" "")%string as ->.
    { rewrite <- H5, string_app_assoc. apply str_drop_app. }
    rewrite !string_length_app, Hn. rewrite (proj2 (Nat.ltb_ge _ _)) by (cbn; lia).
    replace (5 + String.length text - 5)%nat with (String.length text) by lia. by rewrite str_take_app. }
  cbn [mbind run_bind]. rewrite bool_decide_true, He by done. rewrite Hl, (getImmString_number lo Hlo).
  assert (strstr (imm +:+ "0000 | " +:+ rn) " " = Some (String.length (imm +:+ "0000")))%string as ->.
  { change ("0000 | " +:+ rn)%string with ("0000" +:+ String " " ("| " +:+ rn))%string. rewrite <- string_app_assoc. apply strstr_char.
    unfold imm. by rewrite all_chars_app, (plain_space _ (plain_imm hi Hhi)). }
  assert (str_take (String.length (imm +:+ "0000")) (imm +:+ "0000 | " +:+ rn) = (imm +:+ "0000"))%string as ->.
  { change ("0000 | " +:+ rn)%string with ("0000" +:+ (" | " +:+ rn))%string. rewrite <- string_app_assoc. apply str_take_app. }
  pose proof (strToHex_imm hi 4 Hhi ltac:(auto)) as Eh. change (String.string_of_list_ascii (replicate 4 "0"%char)) with "0000"%string in Eh.
  fold imm in Eh. rewrite Eh. pose proof (strToHex_imm lo 0 Hlo ltac:(auto)) as El.
  change (String.string_of_list_ascii (replicate 0 "0"%char)) with ""%string in El. rewrite string_app_nil_r in El. rewrite El.
  change (16 ^ Z.of_nat 4) with (2 ^ 16). change (16 ^ Z.of_nat 0) with 1. rewrite Z.mul_1_r, (lor_mul_pow2 hi lo 16) by lia.
  rewrite Ht. cbn [mbind run_bind]. rewrite replaceAll_spec by done. fold t'. cbn [mbind run_bind].
  by rewrite (proj2 (Nat.leb_gt _ _)) by lia.
Qed.

(** ** What goes wrong *)

(** A word of the text that is its own address is followed for ever. *)
Lemma self_pointer_hangs h a : in_text h a = true -> a <> 0 -> host_load 4 h (text_base h + (a - text_addr h)) = Done a ->
  forall fuel, checkDwordValue fuel h a = OutOfFuel.
Proof.
  intros Hi H0 Hl fuel. unfold checkDwordValue. rewrite (proj2 (Z.eqb_neq _ _) H0).
  assert (forall fuel p, follow fuel h (in_text h) (text_base h) (text_addr h) p a = OutOfFuel) as H; [|by rewrite H].
  clear fuel. induction fuel as [|fuel IH]; intros p; cbn [follow]; [done|]. rewrite Hi, Hl. cbn [mbind run_bind]. apply IH.
Qed.

(** ** Samples *)

Definition sample_regs (n : nat) : Z := nth n [66; 67; 68; 69; 70; 71; 72; 73; 74; 75; 76; 77; 78; 12; 10; 11] 0.
Definition sample_host : host := Host 0x1000 (replicate 64 0) 0x81000000 64 0x2000 (replicate 64 0) 0x81100000 64.
Definition sample_state : gstate := GState ∅ ∅ ∅ false ("", "")%string.
Definition no_op : cs_arm_op := Op OP_OTHER 0 0 0 SFT_INVALID 0.
Definition reg_op (n : nat) : cs_arm_op := Op OP_REG (sample_regs n) 0 0 SFT_INVALID 0.
Definition imm_op (v : Z) : cs_arm_op := Op OP_IMM v 0 0 SFT_INVALID 0.
Definition insn_of (m : string) (ops : list cs_arm_op) : cs_insn :=
  Insn m "" CC_AL false (length ops) (fun i => nth i ops no_op).

Example three_registers : pseudoCode sample_regs 0 sample_host 0 (insn_of "add" [reg_op 0; reg_op 1; reg_op 2]) 0x81000000 sample_state =
  Done ((tab +:+ "a1 = a2 + a3;" +:+ nl)%string, set_regs (fun m => <[66 := Assign "a2 + a3" 0x81000000 false]> m) sample_state).
Proof. vm_compute. reflexivity. Qed.

(** The index of a load is scaled by the shift of the first operand, which has
    none, and not by its own. *)
Example scale_is_lost : exists s,
  pseudoCode sample_regs 0 sample_host 0 (insn_of "ldr" [reg_op 0; Op OP_MEM (sample_regs 1) (sample_regs 2) 0 SFT_LSL 2]) 0x81000000 sample_state =
  Done ((tab +:+ "a1 = *(uint32_t *)(a2 + a3);" +:+ nl)%string, s).
Proof. eexists. vm_compute. reflexivity. Qed.

(** The zeros for the top half are put behind a number below 10, too, which is
    printed in decimal: 50000 stands for 0x50000. *)
Example small_top_half : exists s,
  pseudoCode sample_regs 0 sample_host 0 (insn_of "movt" [reg_op 0; imm_op 5]) 0x81000000 sample_state =
  Done ((tab +:+ "a1 = 50000 | a1;" +:+ nl)%string, s).
Proof. eexists. vm_compute. reflexivity. Qed.

Lemma replaceAll_substitutes_witness : replaceAll "op1 + op2 + op1" "op1" "(op1)" = Done "(op1) + op2 + (op1)"%string.
Proof. rewrite (replaceAll_substitutes "op1" "(op1)" "op1 + op2 + op1"); [reflexivity|discriminate]. Defined.

Lemma movt_composes_witness :
  assignRegister sample_regs sample_host 9 (insn_of "movt" [reg_op 4; imm_op 0xE000]) "movt" 0x81000004 "v1 = 0xE0000000 | v1;" false
    (set_regs (fun m => <[70 := Assign "0x1234" 0x81000000 false]> m) sample_state) =
  Done ("v1 = /*data_E0001234*/;"%string,
    set_regs (fun m => <[70 := Assign "/*data_E0001234*/" 0x81000004 false]> m)
      (set_regs (fun m => <[70 := Assign "0x1234" 0x81000000 false]> m) sample_state)).
Proof.
  apply (movt_composes sample_regs sample_host 9 (insn_of "movt" [reg_op 4; imm_op 0xE000]) 0x81000004
    (set_regs (fun m => <[70 := Assign "0x1234" 0x81000000 false]> m) sample_state) (Assign "0x1234" 0x81000000 false) 0x1234 0xE000
    "/*data_E0001234*/").
  - reflexivity.
  - apply (bool_decide_unpack _). vm_compute. exact I.
  - lia.
  - lia.
  - vm_compute. reflexivity.
  - vm_compute. reflexivity.
  - vm_compute. reflexivity.
  - apply Nat.ltb_lt. vm_compute. reflexivity.
Defined.
