(* ===== verification/Decompiler.v ===== *)
(** * The decompiler

    vitadecompiler-mod/src/main.cpp: the passes over the code of a module that
    find its symbols, count the arguments of its subroutines, find out which
    assignments can be left out, and write the pseudo code.  The disassembler is
    a pure function of the offset in the text, the number of bytes left and the
    address: an instruction and its length, or nothing.  What a handle of
    capstone remembers between calls is not represented: the state of an IT
    block, which gives the instructions in it their conditions, and the effect
    on it of the look-ahead behind returns (main.cpp:992).  Messages are left
    out. *)

From stdpp Require Import prelude gmap strings pretty.
From Stdlib Require Import Ascii.
From S2P Require Import Prelude Bytes CString Yaml VitaImport ElfTools Reloc Nids VitaModule Translate.

Open Scope Z_scope.

(** ** One walk over the code

    [before]: what is done at an address before it is disassembled; [step]: for
    an instruction, its address, and where the next one is: offset, bytes
    left and address.  Where nothing is recognised two bytes are skipped. *)

Definition position : Type := Z * Z * Z.

Section Sweep.
Context (disasm : Z -> Z -> Z -> option (cs_insn * Z)).
Context {S : Type} (before : Z -> S -> S) (step : cs_insn -> Z -> position -> S -> run S).

Fixpoint sweep (fuel : nat) (p : position) (s : S) : run S :=
  match fuel with
  | O => OutOfFuel
  | Datatypes.S fuel' =>
      let '(off, size, address) := p in
      if size =? 0 then Done s
      else
        let s := before address s in
        match disasm off size address with
        | None => sweep fuel' (off + 2, u32 (size - 2), u32 (address + 2)) s
        | Some (insn, n) =>
            let next := (off + n, u32 (size - n), u32 (address + n)) in
            s ← step insn address next s; sweep fuel' next s
        end
  end.
End Sweep.

Section Decompiler.
Context (ARM_REG : nat -> Z) (ARM_REG_INVALID : Z) (disasm : Z -> Z -> Z -> option (cs_insn * Z)).
Context (h : host) (mod_info_offset : Z).

(** The whole code: from the start of the text to the module information *)
Definition whole : position := (0, mod_info_offset, text_addr h).

Definition in_code (a : Z) : bool := (text_addr h <=? a) && (a <? u32 (text_addr h + text_size h)).
Definition op_at (insn : cs_insn) (i : nat) : Z := o_word (operands insn i).
Definition is_one (m : string) (names : list string) : bool := bool_decide (m ∈ names).

(** ** Symbols *)

(** The symbols, and what the last move to a register was *)
Record astate := AState { a_symbols : SymbolMap; g_movw_map : gmap Z Z }.

(** [%s_%08X] *)
Definition place_name (prefix : string) (a : Z) : string := prefix +:+ "_" +:+ fmt_0X 8 a.
Definition add_place (prefix : string) (a type : Z) (s : astate) : astate :=
  AState (addSymbol a (place_name prefix a) type (a_symbols s)) (g_movw_map s).
Definition add_target (prefix : string) (a type : Z) (s : astate) : astate :=
  if in_code a then add_place prefix a type s else s.

Definition first_step (insn : cs_insn) (addr : Z) (next : position) (s : astate) : run astate :=
  '(m, _) ← trimMnemonic insn (mnemonic insn);
  if is_one m ["b"; "bl"; "blx"]%string then
    let isBranch := is_one m ["b"]%string in
    Done (add_target (if isBranch then "loc" else "sub") (u32 (op_at insn 0))
            (if isBranch then SYMBOL_LABEL else SYMBOL_SUBROUTINE) s)
  else if is_one m ["cbz"; "cbnz"]%string then Done (add_target "loc" (u32 (op_at insn 1)) SYMBOL_LABEL s)
  else if is_one m ["mov"; "movw"]%string then
    Done (AState (a_symbols s) (<[op_at insn 0 := u32 (op_at insn 1)]> (g_movw_map s)))
  else if is_one m ["movt"]%string then
    let value := Z.lor (u32 (Z.shiftl (op_at insn 1) 16)) (default 0 (g_movw_map s !! op_at insn 0)) in
    if in_code value then
      let p := text_base h + (value - text_addr h) in
      is_text ← (if u32 (text_addr h + mod_info_offset) <? value then Done true else isascii4 h p);
      if is_text : bool then
        t ← read_host h p; Done (AState (addSymbol value t SYMBOL_STRING (a_symbols s)) (g_movw_map s))
      else Done (add_place "sub" (Z.land value 0xFFFFFFFE) SYMBOL_SUBROUTINE s)
    else Done s
  else Done s.

(** The instruction behind a return is the start of a subroutine; a single
    [nop] is skipped. *)
Definition second_step (insn : cs_insn) (addr : Z) (next : position) (s : astate) : run astate :=
  '(m, _) ← trimMnemonic insn (mnemonic insn);
  if is_one m ["pop"; "bx"]%string then
    let '(off, size, address) := next in
    let start := match disasm off size address with
                 | Some (insn2, n) => if bool_decide (mnemonic insn2 = "nop"%string) then u32 (address + n) else address
                 | None => address
                 end in
    Done (add_place "sub" start SYMBOL_SUBROUTINE s)
  else Done s.

Definition analyseSymbols (fuel : nat) (secondRun : bool) (s : astate) : run astate :=
  if secondRun then
    s ← sweep disasm (fun _ s => s) second_step fuel whole s;
    Done (add_place "sub" (text_addr h) SYMBOL_SUBROUTINE s)
  else sweep disasm (fun _ s => s) first_step fuel whole s.

(** ** Arguments *)

(** How many arguments the instructions since the last call can have set *)
Definition stack_args (disp n_args : Z) : Z :=
  if (0 <=? disp) && (disp <? 0xC) then
    let n := 4 + (Z.shiftr disp 2 + 1) in if n_args <=? n then n else n_args
  else n_args.
Definition reg_args (r n_args : Z) : Z :=
  if (ARM_REG 0 <=? r) && (r <? ARM_REG 4) then
    if (r =? ARM_REG 0) && (n_args <=? 0) then 1
    else if (r =? ARM_REG 1) && (n_args <=? 1) then 2
    else if (r =? ARM_REG 2) && (n_args <=? 2) then 3
    else if (r =? ARM_REG 3) && (n_args <=? 3) then 4
    else n_args
  else n_args.
Definition count_args (insn : cs_insn) (m code : string) (n_args : Z) : Z :=
  if is_one m ["str"]%string then
    let op := operands insn 1 in if o_word op =? ARM_REG 13 then stack_args (o_disp op) n_args else n_args
  else if is_one m ["strd"]%string then
    let op := operands insn 2 in if o_word op =? ARM_REG 13 then stack_args (o_disp op) n_args else n_args
  else if contains code "op0 = " then
    let n_args := reg_args (op_at insn 0) n_args in
    if is_one m ["ldrd"]%string then reg_args (op_at insn 1) n_args else n_args
  else n_args.

(** [args_stats[n]++] *)
Definition bump (n : Z) (e : SymbolEntry) : SymbolEntry :=
  Symbol (s_type e) (s_name e) (n_args e) (alter (Z.add 1) (Z.to_nat n) (args_stats e)).

Definition args_step (insn : cs_insn) (addr : Z) (next : position) (s : Z * SymbolMap) : run (Z * SymbolMap) :=
  let '(n, symbols) := s in
  let n := match symbols !! addr with Some _ => 0 | None => n end in
  '(m, _) ← trimMnemonic insn (mnemonic insn);
  let code := getInstructionCode insn m in
  if bool_decide (code = ""%string) then Done (n, symbols)
  else
    let n := count_args insn m code n in
    if is_one m ["bl"; "blx"]%string then
      let target := u32 (op_at insn 0) in
      Done (0, if in_code target && (n <? Z.of_nat MAX_ARGS) then alter (bump n) target symbols else symbols)
    else Done (n, symbols).

(** [for (int i = 0; i < MAX_ARGS; i++)]: the first of the greatest counts *)
Fixpoint most_frequent (stats : list Z) (i reg max : Z) : Z :=
  match stats with
  | [] => reg
  | c :: stats' => if max <? c then most_frequent stats' (i + 1) i c else most_frequent stats' (i + 1) reg max
  end.
Definition settle (e : SymbolEntry) : SymbolEntry :=
  if is_subroutine e then Symbol (s_type e) (s_name e) (most_frequent (args_stats e) 0 0 0) (args_stats e) else e.

Definition analyseArguments (fuel : nat) (symbols : SymbolMap) : run SymbolMap :=
  s ← sweep disasm (fun _ s => s) args_step fuel whole (0, symbols);
  Done (settle <$> snd s : SymbolMap).

(** ** Assignments that can be left out *)

Definition reset_at (address : Z) (s : gstate) : gstate :=
  match g_symbol_map s !! address with Some _ => set_flags false (freeRegAssignMap s) | None => s end.

Definition code_step (fuel : nat) (insn : cs_insn) (addr : Z) (next : position) (s : gstate) : run gstate :=
  '(m, _) ← trimMnemonic insn (mnemonic insn);
  let code := getInstructionCode insn m in
  if bool_decide (code = ""%string) then Done s
  else '(_, s) ← translateCode ARM_REG ARM_REG_INVALID h fuel insn m addr code true s; Done s.
Definition analyseCode (fuel : nat) (s : gstate) : run gstate := sweep disasm reset_at (code_step fuel) fuel whole s.

(** ** The output *)

(** The source and the header so far; what the instruction the disassembler was
    last given holds *)
Record output := Output { c_text : string; h_text : string; first : bool; first_import : bool; insn_ : option cs_insn }.

Definition parameters (e : SymbolEntry) (s : gstate) : string := fst (getArgsString ARM_REG (n_args e) false false s).
Definition prototype (e : SymbolEntry) (s : gstate) : string := "int " +:+ s_name e +:+ "(" +:+ parameters e s +:+ ")".
Definition place_comment (address : Z) : string :=
  "//VADDR: " +:+ put true address +:+ " OFF: " +:+ put true (u32 (address - text_addr h)) +:+ nl.

(** What precedes the code at an address that has a symbol *)
Definition put_place (address : Z) (e : SymbolEntry) (s : gstate) (o : output) : output :=
  if is_subroutine e then
    Output (c_text o +:+ (if first o then "" else "}" +:+ nl +:+ nl) +:+ place_comment address +:+
              (if Z.land (s_type e) SYMBOL_EXPORT =? 0 then "" else "// Exported" +:+ nl)%Z +:+
              prototype e s +:+ nl +:+ "{" +:+ nl)%string
      (h_text o +:+ prototype e s +:+ ";" +:+ nl)%string false (first_import o) (insn_ o)
  else if negb (Z.land (s_type e) SYMBOL_LABEL =? 0) then
    Output (c_text o +:+ nl +:+ s_name e +:+ ":" +:+ nl +:+ place_comment address)%string
      (h_text o) (first o) (first_import o) (insn_ o)
  else o.

Definition is_import (e : SymbolEntry) : bool := negb (Z.land (s_type e) SYMBOL_IMPORT =? 0).
Definition put_import (e : SymbolEntry) (s : gstate) (o : output) : output :=
  Output (c_text o +:+ (if first_import o then "}" +:+ nl +:+ nl else "") +:+ prototype e s +:+ ";" +:+ nl)%string
    (h_text o +:+ prototype e s +:+ ";" +:+ nl)%string (first o) false (insn_ o).

(** Where nothing is recognised the instruction before it is written again. *)
Definition put_unknown (o : output) : run output :=
  match insn_ o with
  | None => Fault FUninit
  | Some i => Done (Output (c_text o +:+ tab +:+ "asm(" +:+ quote +:+ mnemonic i +:+ " " +:+ op_str i +:+ "\n" +:+ quote +:+ ");" +:+ nl)
                (h_text o) (first o) (first_import o) (insn_ o))
  end%string.

Fixpoint decompile_loop (chain fuel : nat) (p : position) (s : gstate) (o : output) : run (gstate * output) :=
  match fuel with
  | O => OutOfFuel
  | S fuel' =>
      let '(off, size, address) := p in
      if size =? 0 then Done (s, o)
      else
        let s := reset_at address s in
        let symbol := g_symbol_map s !! address in
        match symbol with
        | Some e =>
            if is_import e then
              decompile_loop chain fuel' (off + 0x10, u32 (size - 0x10), u32 (address + 0x10)) s (put_import e s o)
            else decompile_code chain fuel' p s (put_place address e s o)
        | None => decompile_code chain fuel' p s o
        end
  end
with decompile_code (chain fuel : nat) (p : position) (s : gstate) (o : output) : run (gstate * output) :=
  match fuel with
  | O => OutOfFuel
  | S fuel' =>
      let '(off, size, address) := p in
      match disasm off size address with
      | None => o ← put_unknown o; decompile_loop chain fuel' (off + 2, u32 (size - 2), u32 (address + 2)) s o
      | Some (insn, n) =>
          '(t, s) ← pseudoCode ARM_REG ARM_REG_INVALID h chain insn address s;
          decompile_loop chain fuel' (off + n, u32 (size - n), u32 (address + n)) s
            (Output (c_text o +:+ t) (h_text o) (first o) (first_import o) (Some insn))
      end
  end.
End Decompiler.

(** ** The instructions that are met *)

Section Listing.
Context (disasm : Z -> Z -> Z -> option (cs_insn * Z)).

Record met := Met { m_insn : cs_insn; m_addr : Z; m_next : position }.
Fixpoint listing (fuel : nat) (p : position) : option (list met) :=
  match fuel with
  | O => None
  | S fuel' =>
      let '(off, size, address) := p in
      if size =? 0 then Some []
      else
        match disasm off size address with
        | None => listing fuel' (off + 2, u32 (size - 2), u32 (address + 2))
        | Some (insn, n) =>
            let next := (off + n, u32 (size - n), u32 (address + n)) in
            l ← listing fuel' next; Some (Met insn address next :: l)
        end
  end.

Fixpoint fold_run {S} (step : cs_insn -> Z -> position -> S -> run S) (l : list met) (s : S) : run S :=
  match l with [] => Done s | x :: l' => s ← step (m_insn x) (m_addr x) (m_next x) s; fold_run step l' s end.

Lemma sweep_listing {S} (step : cs_insn -> Z -> position -> S -> run S) fuel : forall p l s, listing fuel p = Some l ->
  sweep disasm (fun _ s => s) step fuel p s = fold_run step l s.
Proof.
  induction fuel as [|fuel IH]; intros [[off size] address] l s; cbn [listing sweep]; [done|].
  destruct (size =? 0); [by intros [= <-]|]. destruct (disasm off size address) as [[insn n]|]; [|by apply IH].
  destruct (listing fuel _) as [l'|] eqn:E; [|done]. intros [= <-]. cbn [fold_run m_insn m_addr m_next].
  destruct (step _ _ _ s) as [s'| |]; cbn [mbind run_bind]; [|done..]. by apply IH.
Qed.

(** An instruction has two or four bytes, which are there. *)
Definition lawful : Prop := forall off size address insn n, disasm off size address = Some (insn, n) ->
  (n = 2 \/ n = 4) /\ n <= size.

(** The walk over a whole number of half words ends. *)
Lemma listing_total : lawful -> forall fuel off k address, 2 * Z.of_nat k < 2 ^ 32 -> (k < fuel)%nat ->
  exists l, listing fuel (off, 2 * Z.of_nat k, address) = Some l.
Proof.
  intros Hlaw. induction fuel as [|fuel IH]; intros off k address Hk Hf; [lia|]. cbn [listing].
  destruct (Z.eqb_spec (2 * Z.of_nat k) 0) as [|Hne]; [by eexists|].
  destruct (disasm off (2 * Z.of_nat k) address) as [[insn n]|] eqn:E.
  - destruct (Hlaw _ _ _ _ _ E) as [[-> | ->] Hn]; rewrite u32_small by lia.
    + destruct (IH (off + 2) (k - 1)%nat (u32 (address + 2))) as [l Hl]; [lia..|].
      replace (2 * Z.of_nat k - 2) with (2 * Z.of_nat (k - 1)) by lia. rewrite Hl. by eexists.
    + destruct (IH (off + 4) (k - 2)%nat (u32 (address + 4))) as [l Hl]; [lia..|].
      replace (2 * Z.of_nat k - 4) with (2 * Z.of_nat (k - 2)) by lia. rewrite Hl. by eexists.
  - rewrite u32_small by lia. replace (2 * Z.of_nat k - 2) with (2 * Z.of_nat (k - 1)) by lia. apply IH; lia.
Qed.

(** One byte that is left over is skipped together with one that is not
    there: the number of bytes left wraps. *)
Lemma odd_size_wraps {S} before (step : cs_insn -> Z -> position -> S -> run S) fuel off address s :
  disasm off 1 address = None ->
  sweep disasm before step (Datatypes.S fuel) (off, 1, address) s =
  sweep disasm before step fuel (off + 2, 2 ^ 32 - 1, u32 (address + 2)) (before address s).
Proof. intros E. cbn [sweep]. rewrite E. done. Qed.

(** Of steps that only add to something, what each has added is there at the
    end. *)
Lemma fold_run_grows {S K A} `{Countable K} (view : S -> gmap K A) (step : cs_insn -> Z -> position -> S -> run S) l : forall s,
  (forall x s, x ∈ l -> exists s', step (m_insn x) (m_addr x) (m_next x) s = Done s' /\ view s ⊆ view s') ->
  exists s', fold_run step l s = Done s' /\ view s ⊆ view s' /\
    forall x, x ∈ l -> exists s0 s1, step (m_insn x) (m_addr x) (m_next x) s0 = Done s1 /\ view s1 ⊆ view s'.
Proof.
  induction l as [|x l IH]; intros s Hs; cbn [fold_run].
  { exists s. split; [done|]. split; [done|]. intros x Hx. by apply not_elem_of_nil in Hx. }
  destruct (Hs x s) as (s1 & E1 & H1); [left|]. rewrite E1. cbn [mbind run_bind].
  destruct (IH s1) as (s' & E & Hm & Hx); [intros y s2 Hy; apply Hs; by right|].
  exists s'. split; [done|]. split; [by etrans|]. intros y [->|Hy]%elem_of_cons; [by exists s, s1|by apply Hx].
Qed.
End Listing.

(** ** Every target has a symbol *)

Lemma addSymbol_grows a n t m : m ⊆ addSymbol a n t m.
Proof. unfold addSymbol. destruct (m !! a) eqn:E; [done|]. by apply insert_subseteq. Qed.
Lemma addSymbol_there a n t m : is_Some (addSymbol a n t m !! a).
Proof. unfold addSymbol. destruct (m !! a) eqn:E; [by rewrite E|]. rewrite lookup_insert_eq. by eexists. Qed.
Lemma there_grows (m m' : SymbolMap) a : m ⊆ m' -> is_Some (m !! a) -> is_Some (m' !! a).
Proof. intros Hs [e He]. exists e. by eapply lookup_weaken. Qed.

Section Targets.
Context (disasm : Z -> Z -> Z -> option (cs_insn * Z)) (h : host) (mod_info_offset : Z).

(** The mnemonic without its suffixes *)
Definition trimmed (insn : cs_insn) (m : string) : Prop := exists c, trimMnemonic insn (mnemonic insn) = Done (m, c).

Lemma add_target_grows p a t s : a_symbols s ⊆ a_symbols (add_target h p a t s).
Proof. unfold add_target. destruct (in_code h a); [apply addSymbol_grows|done]. Qed.

Lemma first_step_grows insn addr next s s' : first_step h mod_info_offset insn addr next s = Done s' -> a_symbols s ⊆ a_symbols s'.
Proof.
  unfold first_step. intros Hs. apply run_bind_Done in Hs as ([m c] & _ & Hs).
  destruct (is_one m _); [injection Hs as <-; apply add_target_grows|]. destruct (is_one m _); [injection Hs as <-; apply add_target_grows|].
  destruct (is_one m _); [by injection Hs as <-|]. destruct (is_one m _); [|by injection Hs as <-].
  destruct (in_code h _); [|by injection Hs as <-]. apply run_bind_Done in Hs as (b & _ & Hs).
  destruct b; [apply run_bind_Done in Hs as (t & _ & Hs)|]; injection Hs as <-; apply addSymbol_grows.
Qed.

Lemma first_step_branch insn addr next s s' m : first_step h mod_info_offset insn addr next s = Done s' -> trimmed insn m ->
  m ∈ ["b"; "bl"; "blx"]%string -> in_code h (u32 (op_at insn 0)) = true -> is_Some (a_symbols s' !! u32 (op_at insn 0)).
Proof.
  intros Hs (c & Em) Hm Hi. unfold first_step in Hs. rewrite Em in Hs. cbn [mbind run_bind] in Hs. unfold is_one in Hs at 1.
  rewrite bool_decide_true in Hs by done. injection Hs as <-. unfold add_target. rewrite Hi. apply addSymbol_there.
Qed.

Lemma first_step_compare insn addr next s s' m : first_step h mod_info_offset insn addr next s = Done s' -> trimmed insn m ->
  m ∈ ["cbz"; "cbnz"]%string -> in_code h (u32 (op_at insn 1)) = true -> is_Some (a_symbols s' !! u32 (op_at insn 1)).
Proof.
  intros Hs (c & Em) Hm Hi. unfold first_step in Hs. rewrite Em in Hs. cbn [mbind run_bind] in Hs. unfold is_one in Hs at 1.
  rewrite bool_decide_false in Hs by (apply elem_of_cons in Hm as [->|Hm%list_elem_of_singleton]; [|subst]; by compute_done).
  unfold is_one in Hs at 1. rewrite bool_decide_true in Hs by done. injection Hs as <-. unfold add_target. rewrite Hi. apply addSymbol_there.
Qed.

(** Where the code behind a return begins *)
Definition behind_return (next : position) : Z :=
  let '(off, size, address) := next in
  match disasm off size address with
  | Some (insn2, n) => if bool_decide (mnemonic insn2 = "nop"%string) then u32 (address + n) else address
  | None => address
  end.

Lemma second_step_spec insn addr next s m : trimmed insn m -> second_step disasm insn addr next s =
  Done (if is_one m ["pop"; "bx"]%string then add_place "sub" (behind_return next) SYMBOL_SUBROUTINE s else s).
Proof. intros (c & Em). unfold second_step. rewrite Em. cbn [mbind run_bind]. destruct next as [[off size] address]. by destruct (is_one m _). Qed.

(** C37: After both walks over the code of a module every branch, call, and
    compare-and-branch into the text has a symbol at its target, so has the
    code behind every return and the start of the text; the symbols that were
    there before are kept. *)
Theorem targets_have_symbols fuel k l s : lawful disasm -> mod_info_offset = 2 * Z.of_nat k -> mod_info_offset < 2 ^ 32 -> (k < fuel)%nat ->
  listing disasm fuel (whole h mod_info_offset) = Some l ->
  (forall x s, x ∈ l -> exists s', first_step h mod_info_offset (m_insn x) (m_addr x) (m_next x) s = Done s') ->
  exists s1 s2, analyseSymbols disasm h mod_info_offset fuel false s = Done s1 /\
    analyseSymbols disasm h mod_info_offset fuel true s1 = Done s2 /\ a_symbols s ⊆ a_symbols s2 /\
    is_Some (a_symbols s2 !! text_addr h) /\
    forall x m, x ∈ l -> trimmed (m_insn x) m ->
      (m ∈ ["b"; "bl"; "blx"]%string -> in_code h (u32 (op_at (m_insn x) 0)) = true -> is_Some (a_symbols s2 !! u32 (op_at (m_insn x) 0))) /\
      (m ∈ ["cbz"; "cbnz"]%string -> in_code h (u32 (op_at (m_insn x) 1)) = true -> is_Some (a_symbols s2 !! u32 (op_at (m_insn x) 1))) /\
      (m ∈ ["pop"; "bx"]%string -> is_Some (a_symbols s2 !! behind_return (m_next x))).
Proof.
  intros Hlaw Hk Hb Hf Hl Hok.
  destruct (fold_run_grows a_symbols (first_step h mod_info_offset) l s) as (s1 & E1 & G1 & X1).
  { intros x s0 Hx. destruct (Hok x s0 Hx) as [s' E]. exists s'. split; [done|]. by eapply first_step_grows. }
  assert (forall x, x ∈ l -> exists m, trimmed (m_insn x) m) as Htrim.
  { intros x Hx. destruct (Hok x s Hx) as [s' E]. unfold first_step in E. apply run_bind_Done in E as ([m c] & E & _). by exists m, c. }
  destruct (fold_run_grows a_symbols (second_step disasm) l s1) as (s2 & E2 & G2 & X2).
  { intros x s0 Hx. destruct (Htrim x Hx) as [m Hm]. rewrite (second_step_spec _ _ _ _ _ Hm). eexists. split; [done|].
    destruct (is_one m _); [apply addSymbol_grows|done]. }
  set (s3 := add_place "sub" (text_addr h) SYMBOL_SUBROUTINE s2). assert (a_symbols s2 ⊆ a_symbols s3) as G3 by apply addSymbol_grows.
  assert (a_symbols s1 ⊆ a_symbols s3) as G13 by by transitivity (a_symbols s2).
  exists s1, s3. unfold analyseSymbols. rewrite !(sweep_listing _ _ _ _ _ _ Hl), E1, E2. split; [done|]. split; [done|].
  split; [by transitivity (a_symbols s1)|]. split; [apply addSymbol_there|]. intros x m Hx Hm.
  destruct (X1 x Hx) as (a0 & a1 & Ea & Ga). destruct (X2 x Hx) as (b0 & b1 & Eb & Gb). split; [|split].
  - intros Hi Hc. eapply there_grows; [|by eapply first_step_branch]. by transitivity (a_symbols s1).
  - intros Hi Hc. eapply there_grows; [|by eapply first_step_compare]. by transitivity (a_symbols s1).
  - intros Hi. rewrite (second_step_spec _ _ _ _ _ Hm) in Eb. unfold is_one in Eb. rewrite bool_decide_true in Eb by done. injection Eb as <-.
    eapply there_grows; [exact G3|]. eapply there_grows; [exact Gb|]. apply addSymbol_there.
Qed.
End Targets.

(** ** The arguments of a subroutine *)

Lemma most_frequent_spec stats : forall i reg max, let r := most_frequent stats i reg max in
  (r = reg /\ forall k c, stats !! k = Some c -> c <= max) \/
  (exists k c, stats !! k = Some c /\ r = i + Z.of_nat k /\ max < c /\
     forall k' c', stats !! k' = Some c' -> c' <= c /\ ((k' < k)%nat -> c' < c)).
Proof.
  induction stats as [|c stats IH]; intros i reg max; cbn [most_frequent]; [by left|].
  destruct (Z.ltb_spec max c) as [Hc|Hc].
  - right. destruct (IH (i + 1) i c) as [[Hr Hle]|(k & d & Hk & Hr & Hd & Hle)].
    + exists 0%nat, c. split; [done|]. split; [rewrite Hr; lia|]. split; [done|].
      intros [|k'] c' H'; cbn in H'; [injection H' as <-; split; [done|lia]|]. specialize (Hle k' c' H'). split; [done|lia].
    + exists (Datatypes.S k), d. split; [done|]. split; [rewrite Hr; lia|]. split; [lia|].
      intros [|k'] c' H'; cbn in H'; [injection H' as <-; lia|]. destruct (Hle k' c' H'). split; [done|]. intros. auto with lia.
  - destruct (IH (i + 1) reg max) as [[Hr Hle]|(k & d & Hk & Hr & Hd & Hle)].
    + left. split; [done|]. intros [|k'] c' H'; cbn in H'; [by injection H' as <-|by eapply Hle].
    + right. exists (Datatypes.S k), d. split; [done|]. split; [rewrite Hr; lia|]. split; [done|].
      intros [|k'] c' H'; cbn in H'; [injection H' as <-; lia|]. destruct (Hle k' c' H'). split; [done|]. intros. auto with lia.
Qed.

Section Arguments.
Context (ARM_REG : nat -> Z) (disasm : Z -> Z -> Z -> option (cs_insn * Z)) (h : host) (mod_info_offset : Z).

Lemma count_args_bounds insn m code n : 0 <= n <= 7 -> 0 <= count_args ARM_REG insn m code n <= 7.
Proof.
  intros Hn. assert (forall r n, 0 <= n <= 7 -> 0 <= reg_args ARM_REG r n <= 7) as Hr.
  { intros r k Hk. unfold reg_args. repeat case_match; lia. }
  assert (forall d n, 0 <= n <= 7 -> 0 <= stack_args d n <= 7) as Hs.
  { intros d k Hk. unfold stack_args. destruct ((0 <=? d) && (d <? 12)) eqn:E; [|done].
    assert (0 <= Z.shiftr d 2 < 3) by (rewrite Z.shiftr_div_pow2 by lia; change (2 ^ 2) with 4; div_lia). case_match; lia. }
  unfold count_args. repeat case_match; eauto.
Qed.

(** The calls that are met, with the number of arguments that can have been
    set for each; [places]: the addresses that have a symbol *)
Fixpoint calls (places : gset Z) (n : Z) (l : list met) : list (Z * Z) :=
  match l with
  | [] => []
  | x :: l' =>
      let n := if bool_decide (m_addr x ∈ places) then 0 else n in
      match trimMnemonic (m_insn x) (mnemonic (m_insn x)) with
      | Done (m, _) =>
          let code := getInstructionCode (m_insn x) m in
          if bool_decide (code = ""%string) then calls places n l'
          else
            let n := count_args ARM_REG (m_insn x) m code n in
            if is_one m ["bl"; "blx"]%string then (u32 (op_at (m_insn x) 0), n) :: calls places 0 l' else calls places n l'
      | _ => []
      end
  end.

(** How often a subroutine is called with [n] arguments *)
Definition times (cs : list (Z * Z)) (a n : Z) : Z := Z.of_nat (length (filter (.= (a, n)) cs)).

Definition tally (a : Z) (cs : list (Z * Z)) (e : SymbolEntry) : SymbolEntry :=
  foldl (fun e c => if bool_decide (c.1 = a) then bump c.2 e else e) e cs.

Lemma tally_cons a t n cs e : tally a ((t, n) :: cs) e = tally a cs (if bool_decide (t = a) then bump n e else e).
Proof. done. Qed.

Lemma tally_keeps a cs : forall e, s_type (tally a cs e) = s_type e /\ s_name (tally a cs e) = s_name e.
Proof.
  induction cs as [|[t n] cs IH]; intros e; [done|]. rewrite tally_cons.
  destruct (IH (if bool_decide (t = a) then bump n e else e)) as [-> ->]. by case_bool_decide.
Qed.

Lemma tally_length a cs : forall e, length (args_stats (tally a cs e)) = length (args_stats e).
Proof. induction cs as [|[t n] cs IH]; intros e; [done|]. rewrite tally_cons, IH. case_bool_decide; [apply length_alter|done]. Qed.

Lemma tally_stats a cs : Forall (fun c => 0 <= c.2) cs -> forall e (j : nat),
  args_stats (tally a cs e) !! j = (Z.add (times cs a (Z.of_nat j))) <$> args_stats e !! j.
Proof.
  induction 1 as [|[t n] cs Hn _ IH]; intros e j.
  { unfold times. cbn. by destruct (_ !! _). }
  rewrite tally_cons, IH. unfold times. rewrite filter_cons. cbn [snd] in Hn.
  case_bool_decide as Ht; [subst t|].
  - cbn [bump args_stats]. destruct (decide (Z.of_nat j = n)) as [Hj|Hj].
    + rewrite decide_True by (cbn; congruence). replace (Z.to_nat n) with j by lia. rewrite list_lookup_alter_eq.
      destruct (args_stats e !! j); cbn [fmap option_fmap option_map length]; [f_equal; lia|done].
    + rewrite decide_False by (cbn; congruence). by rewrite list_lookup_alter_ne by lia.
  - by rewrite decide_False by (cbn; congruence).
Qed.

Lemma calls_bounds places l : forall n, 0 <= n <= 7 -> Forall (fun c => 0 <= c.2 <= 7) (calls places n l).
Proof.
  induction l as [|x l IH]; intros n Hn; cbn [calls]; [constructor|]. set (k := if bool_decide _ then 0 else n).
  assert (0 <= k <= 7) as Hk by (subst k; case_match; lia). destruct (trimMnemonic _ _) as [[m c]| |]; [|constructor..].
  case_match; [by apply IH|]. pose proof (count_args_bounds (m_insn x) m (getInstructionCode (m_insn x) m) k Hk).
  case_match; [constructor; [done|apply IH; lia]|by apply IH].
Qed.

Lemma place_reset (symbols : SymbolMap) (a n : Z) :
  (if bool_decide (a ∈ (dom symbols : gset Z)) then 0 else n) = match symbols !! a with Some _ => 0 | None => n end.
Proof.
  destruct (symbols !! a) eqn:E; [by rewrite bool_decide_true by (by eapply elem_of_dom_2)|].
  by rewrite bool_decide_false by (by apply not_elem_of_dom).
Qed.

Lemma args_step_spec insn addr next n (symbols : SymbolMap) m c : trimMnemonic insn (mnemonic insn) = Done (m, c) ->
  args_step ARM_REG h insn addr next (n, symbols) =
  let n := if bool_decide (addr ∈ (dom symbols : gset Z)) then 0 else n in
  let code := getInstructionCode insn m in
  if bool_decide (code = ""%string) then Done (n, symbols)
  else
    let n := count_args ARM_REG insn m code n in
    if is_one m ["bl"; "blx"]%string then
      let target := u32 (op_at insn 0) in
      Done (0, if in_code h target && (n <? Z.of_nat MAX_ARGS) then alter (bump n) target symbols else symbols)
    else Done (n, symbols).
Proof. intros E. rewrite place_reset. unfold args_step. by rewrite E. Qed.

Lemma times_none cs a j : Forall (fun c => c.2 <> j) cs -> times cs a j = 0.
Proof.
  unfold times. induction 1 as [|[t n] cs Hn _ IH]; [done|]. rewrite filter_cons, decide_False; [done|]. cbn in Hn. congruence.
Qed.

Lemma args_fold l : forall n (symbols : SymbolMap), (forall x, x ∈ l -> exists m, trimmed (m_insn x) m) -> 0 <= n <= 7 ->
  exists k symbols', fold_run (args_step ARM_REG h) l (n, symbols) = Done (k, symbols') /\
    forall a, in_code h a = true -> symbols' !! a = tally a (calls (dom symbols) n l) <$> symbols !! a.
Proof.
  induction l as [|x l IH]; intros n symbols Ht Hn; cbn [fold_run].
  { exists n, symbols. split; [done|]. intros a _. by destruct (symbols !! a). }
  destruct (Ht x) as (m & c & Em); [left|]. rewrite (args_step_spec _ _ _ _ _ _ _ Em). cbn [calls]. rewrite Em. cbv zeta.
  set (k := if bool_decide _ then 0 else n). assert (0 <= k <= 7) as Hk by (subst k; case_match; lia).
  assert (forall y, y ∈ l -> exists m, trimmed (m_insn y) m) as Hl by (intros y Hy; apply Ht; by right).
  case_bool_decide as Hc; cbn [mbind run_bind]; [by apply IH|].
  pose proof (count_args_bounds (m_insn x) m (getInstructionCode (m_insn x) m) k Hk) as Hb. set (q := count_args _ _ _ _ _) in *.
  destruct (is_one m _); cbn [mbind run_bind]; [|by apply IH].
  set (t := u32 (op_at (m_insn x) 0)). set (s1 := if in_code h t && _ then _ else _).
  assert (dom s1 = dom symbols) as Hd by (subst s1; case_match; [by rewrite dom_alter_L|done]).
  destruct (IH 0 s1 Hl) as (k' & s' & E & Hs); [lia|]. exists k', s'. split; [done|]. intros a Ha. rewrite (Hs a Ha), Hd. subst s1.
  replace (q <? Z.of_nat MAX_ARGS) with true by (symmetry; apply Z.ltb_lt; change (Z.of_nat MAX_ARGS) with 11; lia).
  rewrite andb_true_r. destruct (decide (t = a)) as [<-|Hne].
  - rewrite Ha, lookup_alter_eq. destruct (symbols !! t); [|done]. cbn [fmap option_fmap option_map]. by rewrite tally_cons, bool_decide_true.
  - replace ((if in_code h t then alter (bump q) t symbols else symbols) !! a) with (symbols !! a)
      by (destruct (in_code h t); [by rewrite lookup_alter_ne|done]).
    destruct (symbols !! a); [|done]. cbn [fmap option_fmap option_map]. by rewrite tally_cons, bool_decide_false.
Qed.

Lemma majority_spec (f : Z -> Z) stats : length stats = MAX_ARGS -> (forall j, (j < MAX_ARGS)%nat -> stats !! j = Some (f (Z.of_nat j))) ->
  (forall j, 0 <= f j) -> (forall j, 7 < j -> f j = 0) -> let r := most_frequent stats 0 0 0 in
  0 <= r <= 7 /\ forall j, 0 <= j -> f j <= f r /\ (j < r -> f j < f r).
Proof.
  intros Hlen Hf Hp Hz r. assert (forall j, 0 <= j <= 7 -> stats !! Z.to_nat j = Some (f j)) as Hs.
  { intros j Hj. rewrite Hf by (unfold MAX_ARGS; lia). f_equal. f_equal. lia. }
  destruct (most_frequent_spec stats 0 0 0) as [[Hr Hle]|(k & c & Hk & Hr & Hc & Hle)]; fold r in Hr.
  - rewrite Hr. split; [lia|]. intros j Hj. split; [|lia]. destruct (decide (j <= 7)) as [H7|H7]; [|rewrite Hz by lia; apply Hp].
    pose proof (Hle _ _ (Hs j (conj Hj H7))). specialize (Hp 0). lia.
  - assert (k <= 7)%nat as H7.
    { destruct (decide (k <= 7)%nat); [done|exfalso]. destruct (decide (k < MAX_ARGS)%nat) as [Hm|Hm].
      - rewrite (Hf k Hm) in Hk. injection Hk as <-. rewrite Hz in Hc by lia. lia.
      - apply lookup_lt_Some in Hk. lia. }
    assert (f r = c) as Hfr by (rewrite Hf in Hk by (unfold MAX_ARGS; lia); injection Hk as <-; f_equal; lia).
    split; [lia|]. intros j Hj. rewrite Hfr. destruct (decide (j <= 7)) as [Hj7|Hj7]; [|rewrite Hz by lia; lia].
    destruct (Hle _ _ (Hs j (conj Hj Hj7))) as [H1 H2]. split; [done|]. intros Hl. apply H2. lia.
Qed.

(** C38: A subroutine of the text gets the number of arguments it is called with
    most often, the smallest of these numbers when there are several, and none
    when it is never called; that number is at most seven.  Its name and type
    stay, and so does what is no subroutine. *)
Theorem arguments_by_majority fuel l (symbols : SymbolMap) : listing disasm fuel (whole h mod_info_offset) = Some l ->
  (forall x, x ∈ l -> exists m, trimmed (m_insn x) m) ->
  exists symbols', analyseArguments ARM_REG disasm h mod_info_offset fuel symbols = Done symbols' /\
    forall a e, symbols !! a = Some e -> in_code h a = true -> args_stats e = replicate MAX_ARGS 0 ->
      exists e', symbols' !! a = Some e' /\ s_name e' = s_name e /\ s_type e' = s_type e /\
        if is_subroutine e then
          0 <= n_args e' <= 7 /\
          forall j, 0 <= j -> let cs := calls (dom symbols) 0 l in
            times cs a j <= times cs a (n_args e') /\ (j < n_args e' -> times cs a j < times cs a (n_args e'))
        else n_args e' = n_args e.
Proof.
  intros Hl Ht. destruct (args_fold l 0 symbols Ht) as (k & s' & E & Hs); [lia|]. eexists. split.
  { unfold analyseArguments. rewrite (sweep_listing _ _ _ _ _ _ Hl), E. done. }
  intros a e Ha Hc He. rewrite lookup_fmap. cbn [snd]. rewrite (Hs a Hc), Ha. cbn [fmap option_fmap option_map].
  eexists. split; [done|]. set (cs := calls _ _ _). destruct (tally_keeps a cs e) as [Hty Hna]. unfold settle, is_subroutine. rewrite Hty.
  destruct (negb _); [|split; [done|]; split; [done|]]; cycle 1.
  { clear. subst cs. revert e. induction (calls _ _ _) as [|[t q] cs IH]; intros e; [done|]. rewrite tally_cons, IH. by case_bool_decide. }
  split; [done|]. split; [done|]. cbn [n_args].
  assert (Forall (fun c => 0 <= c.2 <= 7) cs) as Hb by (apply calls_bounds; lia).
  assert (forall j, (j < MAX_ARGS)%nat -> args_stats (tally a cs e) !! j = Some (times cs a (Z.of_nat j))) as Hst.
  { intros j Hj. rewrite tally_stats by (eapply Forall_impl; [exact Hb|cbn; lia]). rewrite He, lookup_replicate_2 by done. cbn. f_equal. lia. }
  assert (forall j, 7 < j -> times cs a j = 0) as Hbig.
  { intros j Hj. apply times_none. eapply Forall_impl; [exact Hb|]. cbn. lia. }
  apply (majority_spec (times cs a)); [|done| |done]; [by rewrite tally_length, He, length_replicate|]. intros j. unfold times. lia.
Qed.
End Arguments.

(** ** The translation leaves the symbols alone *)

(** Whatever comes out carries the symbols of [s]. *)
Definition keeps {A} (s : gstate) (r : run (A * gstate)) : Prop := forall x s', r = Done (x, s') -> g_symbol_map s' = g_symbol_map s.

Lemma symbols_ret {A} s (x : A) s' : g_symbol_map s' = g_symbol_map s -> keeps s (Done (x, s')).
Proof. by intros H y s1 [= _ <-]. Qed.
Lemma symbols_fail {A} s f : keeps (A := A) s (Fault f).
Proof. done. Qed.
Lemma symbols_any {A B} s (r : run A) (k : A -> run (B * gstate)) : (forall a, keeps s (k a)) -> keeps s (r ≫= k).
Proof. intros H x s' E. apply run_bind_Done in E as (a & _ & E). by eapply H. Qed.
Lemma symbols_bind {A B} s (r : run (A * gstate)) (k : A * gstate -> run (B * gstate)) :
  keeps s r -> (forall a s1, g_symbol_map s1 = g_symbol_map s -> keeps s1 (k (a, s1))) -> keeps s (r ≫= k).
Proof.
  intros Hr Hk x s' E. apply run_bind_Done in E as ([a s1] & E1 & E). rewrite <-(Hr _ _ E1). eapply Hk; [by eapply Hr|exact E].
Qed.

Create HintDb keeps.
#[export] Hint Resolve symbols_ret symbols_fail : keeps.

Section Keeps.
Context (ARM_REG : nat -> Z) (ARM_REG_INVALID : Z) (h : host).

Lemma ignoreAddr_keeps r s : g_symbol_map (ignoreAddr r s) = g_symbol_map s.
Proof. unfold ignoreAddr. destruct (g_reg_assign_map s !! r); [|done]. by destruct (_ && _). Qed.

Lemma args_loop_keeps n : forall i input analyse s, g_symbol_map (snd (args_loop ARM_REG n i input analyse s)) = g_symbol_map s.
Proof.
  induction n as [|n IH]; intros i input analyse s; cbn [args_loop]; [done|].
  set (p := if input then _ else _). assert (g_symbol_map p.2 = g_symbol_map s) as Hp.
  { subst p. destruct input; [|done]. destruct (i <? 4)%nat; [|done]. destruct (g_reg_assign_map s !! reg ARM_REG i); [|done].
    cbn [snd]. destruct analyse; [apply ignoreAddr_keeps|done]. }
  destruct p as [t s1]. specialize (IH (S i) input analyse s1). destruct (args_loop _ n _ _ _ s1). cbn [snd] in *. by rewrite IH.
Qed.

Lemma getArgsString_keeps n input analyse s : g_symbol_map (snd (getArgsString ARM_REG n input analyse s)) = g_symbol_map s.
Proof.
  unfold getArgsString. pose proof (args_loop_keeps (Nat.min (Z.to_nat n) MAX_ARGS) 0 input analyse s) as H.
  by destruct (args_loop _ _ _ _ _ s).
Qed.

Lemma composeRegister_keeps t r analyse s : keeps s (composeRegister ARM_REG t r analyse s).
Proof.
  unfold composeRegister. destruct (r =? ARM_REG 13); [auto with keeps|]. destruct (g_reg_assign_map s !! r); [|auto with keeps].
  destruct (_ <? 128)%nat; [|auto with keeps]. apply symbols_any. intros b. apply symbols_ret. destruct analyse; [apply ignoreAddr_keeps|done].
Qed.

Lemma parse_operand_keeps insn c analyse i code s : keeps s (parse_operand ARM_REG ARM_REG_INVALID insn c analyse i (code, s)).
Proof.
  unfold parse_operand. destruct (o_type _).
  - apply symbols_bind; [destruct (contains _ _); [auto with keeps|apply composeRegister_keeps]|]. intros r s1 H1.
    apply symbols_any. intros t. apply symbols_ret. destruct c; [|done]. by destruct i as [|[|i]].
  - apply symbols_any. auto with keeps.
  - apply symbols_bind; [destruct (contains _ _); [auto with keeps|apply composeRegister_keeps]|]. intros r s1 H1.
    apply symbols_any. auto with keeps.
  - auto with keeps.
Qed.

Lemma parse_loop_keeps insn c analyse n : forall i code s, keeps s (parse_loop ARM_REG ARM_REG_INVALID insn c analyse n i (code, s)).
Proof.
  induction n as [|n IH]; intros i code s; cbn [parse_loop]; [auto with keeps|]. apply symbols_bind; [apply parse_operand_keeps|]. auto.
Qed.

Lemma assignRegister_keeps fuel insn m a code analyse s : keeps s (assignRegister ARM_REG h fuel insn m a code analyse s).
Proof.
  unfold assignRegister. destruct (isConditional insn); [auto with keeps|]. apply symbols_any. intros text.
  assert (forall c, keeps s (A := string * string) c -> keeps s ('(code, text, s) ← c;
    Done (code, set_regs (fun r => <[o_word (operands insn 0) := Assign text a (update_flags insn)]> r) s))) as Hk.
  { intros c Hc. apply symbols_bind; [done|]. intros [c1 t1] s1 _. auto with keeps. }
  apply Hk. destruct (bool_decide _); [|auto with keeps]. destruct (g_reg_assign_map s !! _); [|auto with keeps].
  destruct (_ || _); [|auto with keeps]. apply symbols_any. intros buf. apply symbols_any. intros t.
  destruct (1024 <=? _)%nat; [auto with keeps|]. apply symbols_ret. destruct analyse; [apply ignoreAddr_keeps|done].
Qed.

Lemma replace_symbol_keeps insn analyse i code s : keeps s (replace_symbol ARM_REG insn analyse i (code, s)).
Proof.
  unfold replace_symbol. destruct (g_symbol_map s !! _) as [e|].
  - destruct (is_place e); [|auto with keeps]. apply symbols_any. intros t. destruct (is_subroutine e); [|auto with keeps].
    pose proof (getArgsString_keeps (n_args e) true analyse s) as H. destruct (getArgsString _ _ _ _ s) as [args s1]. cbn [snd] in H.
    apply symbols_any. auto with keeps.
  - destruct (i =? 1)%nat; [apply symbols_any|]; auto with keeps.
Qed.

Lemma translateCode_keeps fuel insn m a code analyse s : keeps s (translateCode ARM_REG ARM_REG_INVALID h fuel insn m a code analyse s).
Proof.
  unfold translateCode. set (s0 := if update_flags insn then _ else _).
  assert (g_symbol_map s0 = g_symbol_map s) as H0 by (subst s0; by destruct (update_flags insn), (isConditional insn)).
  intros x s' E. rewrite <-H0. revert x s' E. fold (keeps s0 (A := string)). clearbody s0.
  apply symbols_bind; [apply parse_loop_keeps|]. intros c1 s1 _. apply symbols_any. intros c3. apply symbols_any. intros b.
  apply symbols_bind; [destruct b; [apply assignRegister_keeps|auto with keeps]|]. intros c2 s2 _.
  apply symbols_bind; [apply replace_symbol_keeps|]. intros c4 s4 _. apply symbols_bind; [apply replace_symbol_keeps|]. intros c5 s5 _.
  destruct (_ || _); auto with keeps.
Qed.

Lemma pseudoCode_keeps fuel insn a s : keeps s (pseudoCode ARM_REG ARM_REG_INVALID h fuel insn a s).
Proof.
  unfold pseudoCode. apply symbols_any. intros [m [cf cr]]. case_bool_decide; [auto with keeps|].
  apply symbols_bind; [apply translateCode_keeps|]. intros code s1 _. apply symbols_any. intros t. apply symbols_any. auto with keeps.
Qed.
End Keeps.

(** ** What the header declares *)

Fixpoint joined (l : list string) : string :=
  match l with
  | [] => ""
  | [x] => x
  | x :: l' => x +:+ ", " +:+ joined l'
  end.
Definition parameter (i : nat) : string := ("int arg" +:+ pretty (Z.of_nat i + 1))%string.
(** [int name(int arg1, ..., int argN)], with at most eleven arguments *)
Definition declaration (e : SymbolEntry) : string :=
  ("int " +:+ s_name e +:+ "(" +:+ joined (parameter <$> seq 0 (Nat.min (Z.to_nat (n_args e)) MAX_ARGS)) +:+ ")")%string.

Definition trailing (l : list string) : string := foldr (fun x t => x +:+ ", " +:+ t)%string ""%string l.
Lemma trailing_joined l : l <> [] -> trailing l = (joined l +:+ ", ")%string.
Proof.
  induction l as [|x l IH]; [done|]. intros _. cbn [trailing foldr]. fold (trailing l). destruct l as [|y l]; [done|].
  rewrite IH by done. change (joined (x :: y :: l)) with (x +:+ ", " +:+ joined (y :: l))%string. by rewrite !string_app_assoc.
Qed.
Lemma trailing_cut l : str_take (String.length (trailing l) - 2) (trailing l) = joined l.
Proof.
  destruct (decide (l = [])) as [->|Hl]; [done|]. rewrite trailing_joined by done. rewrite string_length_app.
  change (String.length ", ") with 2%nat. rewrite Nat.add_sub. apply str_take_app.
Qed.

Section Header.
Context (ARM_REG : nat -> Z) (ARM_REG_INVALID : Z) (disasm : Z -> Z -> Z -> option (cs_insn * Z)) (h : host).

Lemma args_loop_parameters n : forall i analyse s, args_loop ARM_REG n i false analyse s = (trailing (parameter <$> seq i n), s).
Proof.
  induction n as [|n IH]; intros i analyse s; cbn [args_loop]; [done|]. rewrite IH. cbn [seq fmap list_fmap trailing foldr].
  unfold parameter at 2. by rewrite !string_app_assoc.
Qed.
Lemma prototype_declaration e s : prototype ARM_REG e s = declaration e.
Proof.
  unfold prototype, parameters, getArgsString. rewrite args_loop_parameters. cbn [fst]. by rewrite trailing_cut.
Qed.

(** What is met on the way through the code: an import, an instruction, two
    bytes that are none *)
Inductive item := ImportAt (e : SymbolEntry) | CodeAt (a : Z) (insn : cs_insn) | UnknownAt (a : Z).
Fixpoint items (symbols : SymbolMap) (fuel : nat) (p : position) : option (list item) :=
  match fuel with
  | O => None
  | S fuel' =>
      let '(off, size, address) := p in
      if size =? 0 then Some []
      else
        let code :=
          match disasm off size address with
          | None => l ← items symbols fuel' (off + 2, u32 (size - 2), u32 (address + 2)); Some (UnknownAt address :: l)
          | Some (insn, n) => l ← items symbols fuel' (off + n, u32 (size - n), u32 (address + n)); Some (CodeAt address insn :: l)
          end in
        match symbols !! address with
        | Some e =>
            if is_import e then l ← items symbols fuel' (off + 0x10, u32 (size - 0x10), u32 (address + 0x10)); Some (ImportAt e :: l)
            else code
        | None => code
        end
  end.

(** The subroutines among them *)
Definition declared (symbols : SymbolMap) (x : item) : option SymbolEntry :=
  match x with
  | ImportAt e => Some e
  | CodeAt a _ | UnknownAt a => e ← symbols !! a; if is_subroutine e then Some e else None
  end.
Fixpoint header_of (es : list SymbolEntry) : string :=
  match es with [] => "" | e :: es' => declaration e +:+ ";" +:+ nl +:+ header_of es' end.
(** Behind the imports the first bytes are an instruction. *)
Fixpoint starts_known (l : list item) : Prop :=
  match l with [] | CodeAt _ _ :: _ => True | UnknownAt _ :: _ => False | ImportAt _ :: l' => starts_known l' end.

Lemma reset_at_symbols a s : g_symbol_map (reset_at a s) = g_symbol_map s.
Proof. unfold reset_at. by destruct (g_symbol_map s !! a). Qed.

Lemma put_place_header a e s o : h_text (put_place ARM_REG h a e s o) =
  (h_text o +:+ header_of (if is_subroutine e then [e] else []))%string /\ insn_ (put_place ARM_REG h a e s o) = insn_ o.
Proof.
  unfold put_place. destruct (is_subroutine e); cbn [h_text insn_ header_of]; [by rewrite prototype_declaration, !string_app_nil_r|].
  rewrite string_app_nil_r. by destruct (negb _).
Qed.

Lemma header_of_app a b : header_of (a ++ b) = (header_of a +:+ header_of b)%string.
Proof. induction a as [|e a IH]; [done|]. cbn [header_of app]. by rewrite IH, !string_app_assoc. Qed.

Lemma put_import_header e s o : h_text (put_import ARM_REG e s o) = (h_text o +:+ header_of [e])%string /\
  insn_ (put_import ARM_REG e s o) = insn_ o.
Proof. unfold put_import. cbn [h_text insn_ header_of]. by rewrite prototype_declaration, !string_app_nil_r. Qed.

(** What is done at a place that is no import *)
Definition at_place (address : Z) (s : gstate) (o : output) : output :=
  match g_symbol_map s !! address with Some e => put_place ARM_REG h address e s o | None => o end.
Lemma at_place_header a x s o : (exists insn, x = CodeAt a insn) \/ x = UnknownAt a ->
  h_text (at_place a s o) = (h_text o +:+ header_of (option_list (declared (g_symbol_map s) x)))%string /\
  insn_ (at_place a s o) = insn_ o.
Proof.
  intros Hx. replace (declared (g_symbol_map s) x) with (e ← g_symbol_map s !! a; if is_subroutine e then Some e else None)
    by (by destruct Hx as [[insn ->] | ->]). unfold at_place.
  destruct (g_symbol_map s !! a) as [e|]; cbn [mbind option_bind]; [|by rewrite string_app_nil_r].
  destruct (put_place_header a e s o) as [-> ->]. by destruct (is_subroutine e).
Qed.

Lemma decompile_loop_code chain fuel off size a s o : (size =? 0) = false ->
  match g_symbol_map s !! a with Some e => is_import e = false | None => True end ->
  decompile_loop ARM_REG ARM_REG_INVALID disasm h chain (S fuel) (off, size, a) s o =
  decompile_code ARM_REG ARM_REG_INVALID disasm h chain fuel (off, size, a) (reset_at a s) (at_place a (reset_at a s) o).
Proof.
  intros Hs Hi. cbn [decompile_loop]. rewrite Hs. unfold at_place. rewrite reset_at_symbols.
  destruct (g_symbol_map s !! a) as [e|]; [by rewrite Hi|done].
Qed.

Lemma decompile_code_step chain fuel off size a s o : decompile_code ARM_REG ARM_REG_INVALID disasm h chain (S fuel) (off, size, a) s o =
  match disasm off size a with
  | None => o ← put_unknown o; decompile_loop ARM_REG ARM_REG_INVALID disasm h chain fuel (off + 2, u32 (size - 2), u32 (a + 2)) s o
  | Some (insn, n) =>
      '(t, s) ← pseudoCode ARM_REG ARM_REG_INVALID h chain insn a s;
      decompile_loop ARM_REG ARM_REG_INVALID disasm h chain fuel (off + n, u32 (size - n), u32 (a + n)) s
        (Output (c_text o +:+ t) (h_text o) (first o) (first_import o) (Some insn))
  end.
Proof. done. Qed.

Lemma decompile_loop_import chain fuel off size a s o e : (size =? 0) = false -> g_symbol_map s !! a = Some e -> is_import e = true ->
  decompile_loop ARM_REG ARM_REG_INVALID disasm h chain (S fuel) (off, size, a) s o =
  decompile_loop ARM_REG ARM_REG_INVALID disasm h chain fuel (off + 0x10, u32 (size - 0x10), u32 (a + 0x10)) (reset_at a s)
    (put_import ARM_REG e (reset_at a s) o).
Proof. intros Hs He Hi. cbn [decompile_loop]. by rewrite Hs, reset_at_symbols, He, Hi. Qed.

Lemma put_unknown_spec o : insn_ o <> None -> exists o', put_unknown o = Done o' /\ h_text o' = h_text o /\ insn_ o' = insn_ o.
Proof. unfold put_unknown. destruct (insn_ o) eqn:E; [|done]. intros _. by eexists. Qed.

Lemma items_mono symbols fuel : forall fuel' p l, (fuel <= fuel')%nat -> items symbols fuel p = Some l -> items symbols fuel' p = Some l.
Proof.
  induction fuel as [|fuel IH]; intros [|fuel'] [[off size] a] l Hf; [done|done|lia|]. cbn [items].
  destruct (size =? 0); [done|].
  assert (forall p (x : item) l, (l ← items symbols fuel p; Some (x :: l)) = Some l -> (l ← items symbols fuel' p; Some (x :: l)) = Some l) as H.
  { intros p x l0 (l' & Hl & <-)%bind_Some. by rewrite (IH fuel' p l') by (lia || done). }
  destruct (symbols !! a) as [e|]; [destruct (is_import e)|]; [apply H|..];
    destruct (disasm off size a) as [[insn k]|]; apply H.
Qed.

(** One item at a time *)
Lemma items_step symbols fuel off size a l : items symbols (S fuel) (off, size, a) = Some l -> (size =? 0) = false ->
  (exists e l', symbols !! a = Some e /\ is_import e = true /\ l = ImportAt e :: l' /\
     items symbols fuel (off + 0x10, u32 (size - 0x10), u32 (a + 0x10)) = Some l') \/
  match symbols !! a with Some e => is_import e = false | None => True end /\
  match disasm off size a with
  | None => exists l', l = UnknownAt a :: l' /\ items symbols fuel (off + 2, u32 (size - 2), u32 (a + 2)) = Some l'
  | Some (insn, n) => exists l', l = CodeAt a insn :: l' /\ items symbols fuel (off + n, u32 (size - n), u32 (a + n)) = Some l'
  end.
Proof.
  cbn [items]. intros Hl Hs. rewrite Hs in Hl. destruct (symbols !! a) as [e|]; [destruct (is_import e) eqn:Hi|].
  - left. apply bind_Some in Hl as (l' & Hl & [= <-]). by exists e, l'.
  - right. split; [done|]. destruct (disasm off size a) as [[insn n]|]; apply bind_Some in Hl as (l' & Hl & [= <-]); by exists l'.
  - right. split; [done|]. destruct (disasm off size a) as [[insn n]|]; apply bind_Some in Hl as (l' & Hl & [= <-]); by exists l'.
Qed.

Lemma omap_cons_list {A B} (f : A -> option B) x l : omap f (x :: l) = option_list (f x) ++ omap f l.
Proof. cbn [omap list_omap]. by destruct (f x). Qed.

(** The translation of a met instruction, for whatever is remembered of the
    registers *)
Definition translates_to (chain : nat) (symbols : SymbolMap) (l : list item) (out : run (string * gstate)) : Prop :=
  exists a insn s1, CodeAt a insn ∈ l /\ g_symbol_map s1 = symbols /\
    pseudoCode ARM_REG ARM_REG_INVALID h chain insn a s1 = out.

Lemma translates_later chain symbols x l out : translates_to chain symbols l out -> translates_to chain symbols (x :: l) out.
Proof. intros (a & insn & s1 & Hx & H). exists a, insn, s1. split; [by right|done]. Qed.

(** What [decompile] may come to, with the items [l] before it *)
Definition header_outcome (chain : nat) (symbols : SymbolMap) (l : list item) (before : string) (r : run (gstate * output)) : Prop :=
  match r with
  | Done (_, o) => h_text o = (before +:+ header_of (omap (declared symbols) l))%string
  | Fault f => translates_to chain symbols l (Fault f)
  | OutOfFuel => translates_to chain symbols l OutOfFuel
  end.

Lemma outcome_cons chain symbols x l before before' r :
  before' = (before +:+ header_of (option_list (declared symbols x)))%string ->
  header_outcome chain symbols l before' r -> header_outcome chain symbols (x :: l) before r.
Proof.
  intros ->. destruct r as [[s o]|f|]; cbn [header_outcome]; [|by apply translates_later..].
  intros ->. by rewrite omap_cons_list, header_of_app, string_app_assoc.
Qed.

Lemma decompile_outcome chain fuel : forall n p l s o, (2 * fuel <= n)%nat -> items (g_symbol_map s) fuel p = Some l ->
  insn_ o <> None \/ starts_known l ->
  header_outcome chain (g_symbol_map s) l (h_text o) (decompile_loop ARM_REG ARM_REG_INVALID disasm h chain n p s o).
Proof.
  induction fuel as [|fuel IH]; intros n [[off size] a] l s o Hn Hl Hk; [done|].
  destruct n as [|[|n]]; [lia..|]. destruct (size =? 0) eqn:Es.
  { cbn [items] in Hl. rewrite Es in Hl. injection Hl as <-. cbn [decompile_loop]. rewrite Es. cbn. by rewrite string_app_nil_r. }
  set (s1 := reset_at a s).
  assert (g_symbol_map s1 = g_symbol_map s) as H1 by apply reset_at_symbols. rewrite <-H1 in Hl |- *.
  destruct (items_step _ _ _ _ _ _ Hl Es) as [(e & l' & He & Hi & -> & Hl')|[Hi Hd]].
  - rewrite H1 in He. rewrite (decompile_loop_import _ _ _ _ _ _ _ _ Es He Hi). fold s1.
    destruct (put_import_header e s1 o) as [Ht Hi1]. eapply outcome_cons; [exact Ht|].
    apply (IH (S n)); [lia|done|by rewrite Hi1].
  - rewrite H1 in Hi. rewrite decompile_loop_code by done. fold s1. rewrite decompile_code_step.
    destruct (disasm off size a) as [[insn k]|]; destruct Hd as (l' & -> & Hl').
    + destruct (pseudoCode ARM_REG ARM_REG_INVALID h chain insn a s1) as [[t s2]|f|] eqn:E; cbn [mbind run_bind];
        [|exists a, insn, s1; split; [left|done]..].
      assert (g_symbol_map s2 = g_symbol_map s1) as H2 by (by eapply pseudoCode_keeps).
      destruct (at_place_header a (CodeAt a insn) s1 o) as [Ht _]; [left; by exists insn|].
      eapply outcome_cons; [exact Ht|]. rewrite <-H2 in Hl' |- *.
      eapply (IH n) in Hl'; [exact Hl'|lia|by left].
    + destruct (at_place_header a (UnknownAt a) s1 o) as [Ht Hu]; [by right|]. destruct Hk as [Hk|[]].
      destruct (put_unknown_spec (at_place a s1 o)) as (o1 & E & Ht1 & Hn1); [by rewrite Hu|]. rewrite E. cbn [mbind run_bind].
      eapply outcome_cons; [exact Ht|]. rewrite <-Ht1. apply (IH n); [lia|done|left; by rewrite Hn1, Hu].
Qed.

(** Behind imports only, what is not recognised is written out before an
    instruction was read. *)
Lemma unknown_start chain fuel : forall n p l s o, (2 * fuel <= n)%nat -> items (g_symbol_map s) fuel p = Some l ->
  insn_ o = None -> ~ starts_known l -> decompile_loop ARM_REG ARM_REG_INVALID disasm h chain n p s o = Fault FUninit.
Proof.
  induction fuel as [|fuel IH]; intros n [[off size] a] l s o Hn Hl Ho Hk; [done|].
  destruct n as [|[|n]]; [lia..|]. destruct (size =? 0) eqn:Es.
  { cbn [items] in Hl. rewrite Es in Hl. injection Hl as <-. by destruct Hk. }
  set (s1 := reset_at a s).
  assert (g_symbol_map s1 = g_symbol_map s) as H1 by apply reset_at_symbols. rewrite <-H1 in Hl.
  destruct (items_step _ _ _ _ _ _ Hl Es) as [(e & l' & He & Hi & -> & Hl')|[Hi Hd]].
  - rewrite H1 in He. rewrite (decompile_loop_import _ _ _ _ _ _ _ _ Es He Hi). fold s1.
    destruct (put_import_header e s1 o) as [_ Hi1]. eapply (IH (S n)); [lia|exact Hl'|by rewrite Hi1|done].
  - rewrite H1 in Hi. rewrite decompile_loop_code by done. fold s1. rewrite decompile_code_step.
    destruct (disasm off size a) as [[insn k]|]; destruct Hd as (l' & -> & Hl'); [by destruct Hk|].
    destruct (at_place_header a (UnknownAt a) s1 o) as [_ Hu]; [by right|].
    unfold put_unknown. by rewrite Hu, Ho.
Qed.

(** [decompile] comes to its end only where the way through the code does. *)
Lemma decompile_ends chain : forall n p s o so,
  decompile_loop ARM_REG ARM_REG_INVALID disasm h chain n p s o = Done so -> exists l, items (g_symbol_map s) n p = Some l.
Proof.
  intros n. induction (lt_wf n) as [n _ IH]. intros [[off size] a] s o so E. destruct n as [|n]; [done|].
  cbn [items]. destruct (size =? 0) eqn:Es; [by eexists|].
  set (s1 := reset_at a s). assert (g_symbol_map s1 = g_symbol_map s) as H1 by apply reset_at_symbols.
  assert (forall m p s2, (m <= S m <= S n)%nat -> g_symbol_map s2 = g_symbol_map s ->
    (exists o so, decompile_loop ARM_REG ARM_REG_INVALID disasm h chain m p s2 o = Done so) ->
    exists l, items (g_symbol_map s) n p = Some l) as Hm.
  { intros m p s2 Hm E2 (o2 & so2 & H). apply IH in H as [l H]; [|lia]. rewrite E2 in H. exists l. eapply items_mono; [|exact H]. lia. }
  assert (forall e, g_symbol_map s !! a = Some e -> is_import e = true -> exists l,
    items (g_symbol_map s) n (off + 0x10, u32 (size - 0x10), u32 (a + 0x10)) = Some l) as Himp.
  { intros e He Hi. rewrite (decompile_loop_import _ _ _ _ _ _ _ _ Es He Hi) in E. eapply (Hm n); [lia|exact H1|by eexists _, _]. }
  assert (match g_symbol_map s !! a with Some e => is_import e = false | None => True end -> exists l,
    items (g_symbol_map s) n match disasm off size a with None => (off + 2, u32 (size - 2), u32 (a + 2))
      | Some (_, k) => (off + k, u32 (size - k), u32 (a + k)) end = Some l) as Hcode.
  { intros Hi. rewrite decompile_loop_code in E by done. destruct n as [|n]; [done|]. rewrite decompile_code_step in E. fold s1 in E.
    destruct (disasm off size a) as [[insn k]|]; apply run_bind_Done in E as (x & Ex & E).
    - destruct x as [t s2]. eapply (Hm n); [lia| |by eexists _, _]. rewrite <-H1. by eapply pseudoCode_keeps.
    - eapply (Hm n); [lia|exact H1|by eexists _, _]. }
  assert (forall x : item, forall p, (exists l, items (g_symbol_map s) n p = Some l) ->
    exists l, (l ← items (g_symbol_map s) n p; Some (x :: l)) = Some l) as Hx by (intros x p [l ->]; by eexists).
  destruct (g_symbol_map s !! a) as [e|] eqn:He; [destruct (is_import e) eqn:Hi|]; [apply Hx; by eapply Himp|..];
    destruct (disasm off size a) as [[insn k]|]; apply Hx; by apply Hcode.
Qed.

(** C39: Where the way through the code comes to its end, [decompile] does one of
    these things.  If its first bytes behind imports are no instruction, it
    prints one that was never read.  Otherwise it ends, and its header
    declares exactly the subroutines and imports that are met on the way, in
    their order, each with its name and with as many arguments as it was
    given; unless the translation of an instruction that is met fails or goes
    on for ever, which is how [decompile] then fails or goes on for ever.
    Where the way does not come to its end, neither does [decompile]. *)
Theorem header_declares chain p s o :
  (forall fuel n l, items (g_symbol_map s) fuel p = Some l -> (2 * fuel <= n)%nat ->
    let r := decompile_loop ARM_REG ARM_REG_INVALID disasm h chain n p s o in
    (insn_ o = None /\ ~ starts_known l -> r = Fault FUninit) /\
    (insn_ o <> None \/ starts_known l ->
       match r with
       | Done (_, o') => h_text o' = (h_text o +:+ header_of (omap (declared (g_symbol_map s)) l))%string
       | Fault f => translates_to chain (g_symbol_map s) l (Fault f)
       | OutOfFuel => translates_to chain (g_symbol_map s) l OutOfFuel
       end)) /\
  ((forall fuel, items (g_symbol_map s) fuel p = None) -> forall n so,
    decompile_loop ARM_REG ARM_REG_INVALID disasm h chain n p s o <> Done so).
Proof.
  split.
  - intros fuel n l Hl Hn r. split.
    + intros [Ho Hk]. by eapply unknown_start.
    + intros Hk. by eapply decompile_outcome in Hl.
  - intros Hi n so E. apply decompile_ends in E as [l E]. by rewrite Hi in E.
Qed.
End Header.

(** ** A small module

    [mov r0, #1; bl 0x81000008; bx; bx] *)

Definition sample_code (off : Z) : option (cs_insn * Z) :=
  if off =? 0 then Some (insn_of "mov" [reg_op 0; imm_op 1], 2)
  else if off =? 2 then Some (insn_of "bl" [imm_op 0x81000008], 4)
  else if off =? 6 then Some (insn_of "bx" [reg_op 14], 2)
  else if off =? 8 then Some (insn_of "bx" [reg_op 14], 2)
  else None.
Definition sample_disasm (off size address : Z) : option (cs_insn * Z) :=
  p ← sample_code off; if snd p <=? size then Some p else None.
Definition sample_listing : list met :=
  [Met (insn_of "mov" [reg_op 0; imm_op 1]) 0x81000000 (2, 8, 0x81000002);
   Met (insn_of "bl" [imm_op 0x81000008]) 0x81000002 (6, 4, 0x81000006);
   Met (insn_of "bx" [reg_op 14]) 0x81000006 (8, 2, 0x81000008);
   Met (insn_of "bx" [reg_op 14]) 0x81000008 (10, 0, 0x8100000A)].

Lemma sample_lawful : lawful sample_disasm.
Proof.
  intros off size address insn n Hs. unfold sample_disasm in Hs. destruct (sample_code off) as [[i k]|] eqn:E; [|done].
  cbn [mbind option_bind snd] in Hs. destruct (Z.leb_spec k size) as [Hle|]; [|done]. injection Hs as _ <-. split; [|done].
  revert E. unfold sample_code. repeat case_match; intros [= _ <-]; lia.
Qed.

Lemma sample_trims x : x ∈ sample_listing -> exists m, trimmed (m_insn x) m.
Proof. intros Hx. repeat (apply elem_of_cons in Hx as [->|Hx]; [by eexists _, _|]). by apply not_elem_of_nil in Hx. Qed.

Lemma targets_have_symbols_witness :
  exists s1 s2, analyseSymbols sample_disasm sample_host 10 20 false (AState ∅ ∅) = Done s1 /\
    analyseSymbols sample_disasm sample_host 10 20 true s1 = Done s2 /\ is_Some (a_symbols s2 !! 0x81000008).
Proof.
  destruct (targets_have_symbols sample_disasm sample_host 10 20 5 sample_listing (AState ∅ ∅)) as (s1 & s2 & E1 & E2 & _ & _ & H).
  - apply sample_lawful.
  - reflexivity.
  - lia.
  - lia.
  - reflexivity.
  - intros x s Hx. repeat (apply elem_of_cons in Hx as [->|Hx]; [eexists; reflexivity|]). by apply not_elem_of_nil in Hx.
  - exists s1, s2. split; [exact E1|]. split; [exact E2|].
    destruct (H (Met (insn_of "bl" [imm_op 0x81000008]) 0x81000002 (6, 4, 0x81000006)) "bl"%string) as (Hb & _ & _).
    + right. left.
    + by eexists.
    + apply Hb; [right; left|reflexivity].
Defined.

Definition sample_symbols : SymbolMap := <[0x81000008 := Symbol SYMBOL_SUBROUTINE "callee" 0 (replicate MAX_ARGS 0)]> ∅.

Lemma arguments_by_majority_witness : exists symbols' e',
  analyseArguments sample_regs sample_disasm sample_host 10 20 sample_symbols = Done symbols' /\
  symbols' !! 0x81000008 = Some e' /\ s_name e' = "callee"%string /\ n_args e' = 1.
Proof.
  destruct (arguments_by_majority sample_regs sample_disasm sample_host 10 20 sample_listing sample_symbols) as (s' & E & H).
  - reflexivity.
  - exact sample_trims.
  - destruct (H 0x81000008 (Symbol SYMBOL_SUBROUTINE "callee" 0 (replicate MAX_ARGS 0))) as (e' & He & Hn & _ & _ & Hb); [reflexivity..|].
    exists s', e'. split; [exact E|]. split; [exact He|]. split; [exact Hn|].
    destruct (Z.eq_dec (n_args e') 1) as [Hy|Hy]; [exact Hy|exfalso].
    assert (calls sample_regs (dom sample_symbols) 0 sample_listing = [(0x81000008, 1)]) as Hc by (vm_compute; reflexivity).
    destruct (Hb 1) as [Hle _]; [lia|]. revert Hle. cbv zeta. rewrite Hc. unfold times.
    rewrite !filter_cons, filter_nil, decide_True, decide_False by congruence. change (1 <= 0 -> False). lia.
Defined.

(** [push; bx], then an import of sixteen bytes *)
Definition stub_code (off : Z) : option (cs_insn * Z) :=
  if off =? 0 then Some (insn_of "push" [], 2) else if off =? 2 then Some (insn_of "bx" [reg_op 14], 2) else None.
Definition stub_disasm (off size address : Z) : option (cs_insn * Z) :=
  p ← stub_code off; if snd p <=? size then Some p else None.
Definition stub_symbols : SymbolMap :=
  <[0x81000000 := Symbol SYMBOL_SUBROUTINE "f" 2 (replicate MAX_ARGS 0)]>
  (<[0x81000004 := Symbol (Z.lor SYMBOL_SUBROUTINE SYMBOL_IMPORT) "g" 0 (replicate MAX_ARGS 0)]> ∅).

Lemma header_declares_witness :
  (exists s' o',
    decompile_loop sample_regs 0 stub_disasm sample_host 9 8 (0, 0x14, 0x81000000) (GState stub_symbols ∅ ∅ false ("", "")%string)
      (Output "" "" true true None) = Done (s', o') /\
    h_text o' = ("int f(int arg1, int arg2);" +:+ nl +:+ "int g();" +:+ nl)%string) /\
  decompile_loop sample_regs 0 stub_disasm sample_host 9 8 (4, 2, 0x81000000) (GState ∅ ∅ ∅ false ("", "")%string)
    (Output "" "" true true None) = Fault FUninit.
Proof.
  split.
  - destruct (proj1 (header_declares sample_regs 0 stub_disasm sample_host 9 (0, 0x14, 0x81000000)
      (GState stub_symbols ∅ ∅ false ("", "")%string) (Output "" "" true true None)) 4%nat 8%nat
      [CodeAt 0x81000000 (insn_of "push" []); CodeAt 0x81000002 (insn_of "bx" [reg_op 14]);
       ImportAt (Symbol (Z.lor SYMBOL_SUBROUTINE SYMBOL_IMPORT) "g" 0 (replicate MAX_ARGS 0))])
      as [_ H]; [reflexivity|lia|].
    specialize (H (or_intror I)).
    destruct (decompile_loop _ _ _ _ _ _ _ _ _) as [[s' o']|f|].
    + exists s', o'. split; [reflexivity|]. rewrite H. reflexivity.
    + exfalso. destruct H as (a & insn & s1 & Hx & _ & E).
      repeat (apply elem_of_cons in Hx as [Hx|Hx]; [first [discriminate Hx | injection Hx as -> ->; discriminate E]|]).
      by apply not_elem_of_nil in Hx.
    + exfalso. destruct H as (a & insn & s1 & Hx & _ & E).
      repeat (apply elem_of_cons in Hx as [Hx|Hx]; [first [discriminate Hx | injection Hx as -> ->; discriminate E]|]).
      by apply not_elem_of_nil in Hx.
  - apply (proj1 (header_declares sample_regs 0 stub_disasm sample_host 9 (4, 2, 0x81000000)
      (GState ∅ ∅ ∅ false ("", "")%string) (Output "" "" true true None)) 4%nat 8%nat [UnknownAt 0x81000000]); [reflexivity|lia|].
    split; [reflexivity|]. by intros [].
Defined.
