(* ===== verification/DecompMain.v ===== *)
(** * The decompiler's main function

    vitadecompiler-mod/src/main.cpp from [handleSegments] on: the options, the
    segments of an ELF or SELF file, their relocation ([Reloc]), the search for
    the module information, the analysis of the module ([VitaModule]), and the
    passes ([Decompiler]).  [uncompress] is zlib's: from the size of the
    destination and the source, the result and the destination.  [calloc]
    succeeds. *)

From stdpp Require Import prelude gmap strings pretty.
From Stdlib Require Import Ascii.
From S2P Require Import Prelude Bytes CString Yaml VitaImport ElfTools Reloc Nids VitaModule Translate Decompiler.

Open Scope Z_scope.

(** ** The segments *)

Section Segments.
Context (uncompress : Z -> mem -> Z * mem).

(** [fseek(fin, off, SEEK_SET); fread(buf, n, 1, fin)] into zeroed bytes: what
    the file has of them *)
Definition read_at (fin : mem) (off n size : Z) : mem :=
  let got := take (Z.to_nat n) (drop (Z.to_nat off) fin) in
  got ++ replicate (Z.to_nat size - length got) 0.

Definition handleSegments (compression : Z) (fin : mem) (off filesz memsz : Z) : mem :=
  let sz := if filesz <? memsz then memsz else filesz in
  let input := read_at fin off filesz sz in
  if compression =? 2 then
    let '(ret, destination) := uncompress sz (take (Z.to_nat filesz) input) in
    if ret =? Z_OK then destination else input
  else input.

Definition HEADER_LEN : nat := 0x1000.

Definition p_type (m : mem) (p i : Z) : run Z := load32 m (p + 32 * i).
Definition p_vaddr_of (m : mem) (p i : Z) : run Z := load32 m (p + 32 * i + 8).
Definition p_memsz_of (m : mem) (p i : Z) : run Z := load32 m (p + 32 * i + 20).

(** The table as [uvl_relocate] sees it: all that fits into the header *)
Fixpoint seg_table (n : nat) (m : mem) (p i : Z) : list seg :=
  match n with
  | O => []
  | S n' => match p_vaddr_of m p i, p_memsz_of m p i with
            | Done v, Done s => Seg v s :: seg_table n' m p (i + 1)
            | _, _ => []
            end
  end.
Definition segs_of (m : mem) (p : Z) : list seg := seg_table (length m) m p 0.

(** A loaded segment: its bytes, its address and the size it is said to have *)
Record loaded := Loaded { l_bytes : mem; l_addr : Z; l_size : Z }.
(** The header, and the two segments *)
Record lstate := LState { l_input : mem; l_text : option loaded; l_data : option loaded }.

Definition sized (filesz memsz : Z) : Z := if filesz <? memsz then memsz else filesz.

(** What a SELF says of segment [i] is written into the program header; its
    length is compared with the size of the first segment. *)
Definition self_info (input : mem) (phdr i : Z) : run (mem * Z) :=
  sinfo ← section_info_offset input;
  offset ← seg_offset input sinfo i;
  input ← store32 input (phdr + 32 * i + 4) (u32 offset);
  length ← seg_length input sinfo i;
  filesz0 ← p_filesz input phdr 0;
  input ← (if filesz0 <? length then store32 input (phdr + 32 * i + 16) (u32 length) else Done input);
  compression ← seg_compression input sinfo i;
  Done (input, u32 compression).

Definition load_segment (opt_relocs : bool) (fin : mem) (phdr i : Z) (s : lstate) : run lstate :=
  mg ← magic (l_input s);
  '(input, compression) ← (if mg =? SCE_MAGIC then self_info (l_input s) phdr i else Done (l_input s, 0));
  off ← p_offset input phdr i; filesz ← p_filesz input phdr i;
  vaddr ← p_vaddr_of input phdr i; memsz ← p_memsz_of input phdr i; type ← p_type input phdr i;
  let segment := handleSegments compression fin off filesz memsz in
  let it := Loaded segment vaddr (sized filesz memsz) in
  if i =? 0 then Done (LState input (Some it) (l_data s))
  else if i =? 1 then Done (LState input (l_text s) (Some it))
  else if opt_relocs && (type =? 0x60000000) then
    match l_text s, l_data s with
    | Some t, Some d =>
        r ← uvl_relocate segment filesz (segs_of input phdr) (l_bytes t) (l_bytes d);
        Done (LState input (Some (Loaded (text_seg r) (l_addr t) (l_size t))) (Some (Loaded (data_seg r) (l_addr d) (l_size d))))
    | _, _ => Fault FMem
    end
  else Done (LState input (l_text s) (l_data s)).

(** [for(int i = 0; i < ehdr->e_phnum; i++)] *)
Fixpoint segments_loop (fuel : nat) (opt_relocs : bool) (fin : mem) (ehdr phdr i : Z) (s : lstate) : run lstate :=
  match fuel with
  | O => OutOfFuel
  | S fuel' =>
      n ← e_phnum (l_input s) ehdr;
      if i <? n then s ← load_segment opt_relocs fin phdr i s; segments_loop fuel' opt_relocs fin ehdr phdr (i + 1) s
      else Done s
  end.

(** Where the headers are: [None] for what is no ELF *)
Definition headers (input : mem) : run (option (Z * Z)) :=
  p0 ← e_phoff input 0;
  mg ← magic input;
  if mg =? SCE_MAGIC then e ← elf_offset input; p ← phdr_offset input; Done (Some (e, p))
  else elf ← is_elf input 0; Done (if elf : bool then Some (0, p0) else None).

Definition load_file (opt_relocs : bool) (fin : mem) : run (option (lstate * Z)) :=
  if (length fin <? HEADER_LEN)%nat then Done None
  else
    let input := take HEADER_LEN fin in
    h ← headers input;
    match h with
    | None => Done None
    | Some (ehdr, phdr) =>
        s ← segments_loop (Z.to_nat 65537) opt_relocs fin ehdr phdr 0 (LState input None None);
        e_entry ← load32 (l_input s) (ehdr + 24);
        Done (Some (s, e_entry))
    end.
End Segments.

(** ** The module information *)

(** [bx lr; nop], and the first bytes of the module information *)
Definition check : list Z := [0xE0; 0xE3; 0x1E; 0xFF; 0x2F; 0xE1; 0; 0; 0xA0; 0xE1; 0; 0; 0; 0; 0; 0].

(** [while (i < sizeof(check))]: from the end of the text down *)
Fixpoint search (fuel : nat) (text : mem) (text_addr ep : Z) (i : nat) : run (option Z) :=
  match fuel with
  | O => OutOfFuel
  | S fuel' =>
      match check !! i with
      | None => Done (Some ep)
      | Some c =>
          if u32 (text_addr + ep) <=? text_addr then Done None
          else
            b ← load8 text (ep + Z.of_nat i);
            if b =? c then search fuel' text text_addr ep (S i) else search fuel' text text_addr (u32 (ep - 1)) 0
      end
  end.

Definition find_entry (fuel : nat) (h : host) (e_entry : Z) : run (option Z) :=
  named ← isascii4 h (text_base h + e_entry + 4);
  if named : bool then Done (Some e_entry)
  else
    ep ← search fuel (text_bytes h) (text_addr h) (text_size h) 0;
    Done (match ep with Some ep => Some (u32 (ep + 14)) | None => None end).

(** ** [main] *)

(** The options *)
Record options := Options { opt_relocs : bool; opt_yaml : bool; opt_ver : string; fname : string; dbname : string }.

Definition argument (argv : list string) (i : nat) : run string :=
  match argv !! i with Some s => Done s | None => Fault FMem end.

(** [argv]: the arguments behind the program's name *)
Definition parse_options (argv : list string) : run options :=
  first ← argument argv 0;
  '(relocs, yaml, ver, offset) ←
    (if String.prefix "-" first then
       '(ver, offset) ← (if contains first "v" then v ← argument argv 1; Done (v, 1%nat) else Done ("3.60"%string, 0%nat));
       Done (contains first "r", contains first "y", ver, S offset)
     else Done (false, false, "3.60"%string, 0%nat));
  f ← argument argv offset; d ← argument argv (S offset);
  Done (Options relocs yaml ver f d).

(** The files that are written, by name, and the result *)
Record written := Written { exit_code : Z; files : list (string * string) }.

Definition lines (l : list string) : string := String.concat "" (map (fun s => s +:+ nl)%string l).

Section Main.
Context {P : Type} `{!YamlParser P}.
Context (uncompress : Z -> mem -> Z * mem) (disasm : mem -> Z -> Z -> Z -> option (cs_insn * Z)).
Context (ARM_REG : nat -> Z) (ARM_REG_INVALID : Z) (text_ptr data_ptr : Z).
(** The files that can be read, and those that can be created *)
Context (fopen_text : string -> option P) (fopen_rb : string -> option mem) (fopen_wb : string -> bool).

(** The passes over the code; [None] when the header cannot be created *)
Definition passes (fuel : nat) (h : host) (mod_info_offset : Z) (symbols : SymbolMap) (header : bool) : run (option (string * string)) :=
  let d := disasm (text_bytes h) in
  s ← analyseSymbols d h mod_info_offset fuel false (AState symbols ∅);
  s ← analyseSymbols d h mod_info_offset fuel true s;
  symbols ← analyseArguments ARM_REG d h mod_info_offset fuel (a_symbols s);
  g ← analyseCode ARM_REG ARM_REG_INVALID d h mod_info_offset fuel (GState symbols ∅ ∅ false ("", "")%string);
  if header : bool then
    '(_, o) ← decompile_loop ARM_REG ARM_REG_INVALID d h fuel fuel (whole h mod_info_offset) g (Output "" "" true true None);
    Done (Some (c_text o, h_text o))
  else Done None.

Definition vita_main (fuel : nat) (argv : list string) : run written :=
  match argv with
  | [] => Done (Written 1 [])
  | _ =>
      o ← parse_options argv;
      '(imps, _) ← vita_imports_load fopen_text fuel (dbname o);
      match fopen_rb (fname o) with
      | None => Fault FMem
      | Some fin =>
          l ← load_file uncompress (opt_relocs o) fin;
          match l with
          | Some (LState _ (Some t) (Some d), e_entry) =>
              let h := Host text_ptr (l_bytes t) (l_addr t) (l_size t) data_ptr (l_bytes d) (l_addr d) (l_size d) in
              ep ← find_entry fuel h e_entry;
              match ep with
              | None => Done (Written 0 [])
              | Some ep =>
                  '(off, v) ← analyseVitaModule imps (l_bytes t) (l_addr t) fuel ep (opt_ver o) ∅;
                  name ← read_str (l_bytes t) (ep + 4);
                  let nids := [((fname o +:+ ".nids.txt")%string, lines (fnids v)); ((name +:+ ".yml")%string, lines (fyml v))] in
                  let nids := filter (fun f => fopen_wb f.1) nids in
                  if opt_yaml o then Done (Written 0 nids)
                  else if fopen_wb (fname o +:+ ".c") then
                    let off := if off =? 0 then l_size t else off in
                    r ← passes fuel h off (symbols v) (fopen_wb (fname o +:+ ".h"));
                    Done (Written 0 (nids ++ match r with
                                             | Some (c, hd) => [((fname o +:+ ".c")%string, c); ((fname o +:+ ".h")%string, hd)]
                                             | None => [((fname o +:+ ".c")%string, ""%string)]
                                             end))
                  else Done (Written 0 nids)
              end
          | _ => Done (Written 0 [])
          end
      end
  end.
End Main.

(** ** What is loaded *)

Lemma sized_max f m : sized f m = f `max` m.
Proof. unfold sized. destruct (Z.ltb_spec f m); lia. Qed.

Lemma read_at_spec fin off n size : 0 <= off -> 0 <= n <= size ->
  length (read_at fin off n size) = Z.to_nat size /\
  forall j, 0 <= j < size -> read_at fin off n size !! Z.to_nat j =
    Some (if j <? n then default 0 (fin !! Z.to_nat (off + j)) else 0).
Proof.
  intros Ho Hn. unfold read_at. set (got := take _ _). assert (length got <= Z.to_nat n)%nat as Hg by (subst got; rewrite length_take; lia).
  split; [rewrite length_app, length_replicate; lia|]. intros j Hj.
  destruct (decide (Z.to_nat j < length got)%nat) as [Hl|Hl].
  - rewrite lookup_app_l by done. replace (j <? n) with true by lia. subst got.
    rewrite lookup_take_lt, lookup_drop by lia. rewrite length_take, length_drop in Hl.
    replace (Z.to_nat off + Z.to_nat j)%nat with (Z.to_nat (off + j)) by lia.
    destruct (lookup_lt_is_Some_2 fin (Z.to_nat (off + j))) as [b ->]; [lia|done].
  - rewrite lookup_app_r, lookup_replicate_2 by lia. f_equal. destruct (Z.ltb_spec j n); [|done].
    subst got. rewrite length_take, length_drop in Hl. by rewrite lookup_ge_None_2 by lia.
Qed.

Section Loaded.
Context (uncompress : Z -> mem -> Z * mem) (fin : mem) (p : Z).
(** Program header [i] *)
Record header := Header { h_offset : Z; h_filesz : Z; h_vaddr : Z; h_memsz : Z }.
Definition header_at (input : mem) (i : Z) (x : header) : Prop :=
  p_offset input p i = Done (h_offset x) /\ p_filesz input p i = Done (h_filesz x) /\ p_vaddr_of input p i = Done (h_vaddr x) /\
  p_memsz_of input p i = Done (h_memsz x) /\ (exists t, p_type input p i = Done t) /\
  0 <= h_offset x /\ 0 <= h_filesz x.

(** The bytes of the file, and zeros behind them *)
Definition image_of (x : header) (l : loaded) : Prop :=
  l_addr l = h_vaddr x /\ l_size l = h_filesz x `max` h_memsz x /\ mlen (l_bytes l) = l_size l /\
  forall j, 0 <= j < l_size l ->
    load8 (l_bytes l) j = Done (if j <? h_filesz x then default 0 (fin !! Z.to_nat (h_offset x + j)) else 0).

Definition image (x : header) : loaded :=
  Loaded (read_at fin (h_offset x) (h_filesz x) (sized (h_filesz x) (h_memsz x))) (h_vaddr x) (sized (h_filesz x) (h_memsz x)).

Lemma image_correct x : 0 <= h_offset x -> 0 <= h_filesz x -> image_of x (image x).
Proof.
  intros Ho Hf. unfold image, image_of. cbn [l_addr l_size l_bytes]. rewrite sized_max.
  destruct (read_at_spec fin (h_offset x) (h_filesz x) (h_filesz x `max` h_memsz x)) as [Hl Hb]; [lia..|].
  split; [done|]. split; [done|]. split; [unfold mlen; rewrite Hl; lia|]. intros j Hj. unfold load8.
  replace (j <? 0) with false by lia. by rewrite Hb.
Qed.

Lemma load_segment_plain s i x mg : magic (l_input s) = Done mg -> mg <> SCE_MAGIC -> header_at (l_input s) i x ->
  load_segment uncompress false fin p i s =
  Done (LState (l_input s) (if i =? 0 then Some (image x) else l_text s)
          (if (negb (i =? 0) && (i =? 1))%bool then Some (image x) else l_data s)).
Proof.
  intros Hm Hs (Ho & Hf & Hv & Hz & (t & Ht) & _). unfold load_segment. rewrite Hm. cbn [mbind run_bind].
  replace (mg =? SCE_MAGIC) with false by (symmetry; by apply Z.eqb_neq). cbn [mbind run_bind].
  rewrite Ho, Hf, Hv, Hz, Ht. cbn [mbind run_bind]. unfold handleSegments. change (0 =? 2) with false. cbv iota.
  destruct (i =? 0); [done|]. cbn [negb andb]. by destruct (i =? 1).
Qed.

Lemma segments_loop_plain n x0 x1 e mg : 2 <= n -> forall k fuel i s, i = n - Z.of_nat k -> (k < fuel)%nat -> 0 <= i ->
  magic (l_input s) = Done mg -> mg <> SCE_MAGIC -> e_phnum (l_input s) e = Done n ->
  (forall j, 0 <= j < n -> exists x, header_at (l_input s) j x /\ (j = 0 -> x = x0) /\ (j = 1 -> x = x1)) ->
  segments_loop uncompress fuel false fin e p i s =
  Done (LState (l_input s) (if i <=? 0 then Some (image x0) else l_text s) (if i <=? 1 then Some (image x1) else l_data s)).
Proof.
  intros Hn. induction k as [|k IH]; intros [|fuel] i s Hi Hf Hp Hm Hs He Hx; try lia; cbn [segments_loop]; rewrite He; cbn [mbind run_bind].
  - replace (i <? n) with false by lia. replace (i <=? 0) with false by lia. replace (i <=? 1) with false by lia. by destruct s.
  - replace (i <? n) with true by lia. destruct (Hx i) as (x & Hh & H0 & H1); [lia|].
    rewrite (load_segment_plain _ _ _ _ Hm Hs Hh). cbn [mbind run_bind]. rewrite IH; [|lia|lia|lia|done..]. cbn [l_input l_text l_data].
    f_equal. f_equal.
    + replace (i + 1 <=? 0) with false by lia. destruct (Z.eqb_spec i 0) as [->|]; [by rewrite H0|]. by replace (i <=? 0) with false by lia.
    + destruct (Z.eqb_spec i 0) as [->|Hne]; [done|]. cbn [negb andb]. destruct (Z.eqb_spec i 1) as [->|]; [by rewrite H1|].
      replace (i + 1 <=? 1) with false by lia. by replace (i <=? 1) with false by lia.
Qed.

Lemma load_file_spec relocs e x s e_entry : (HEADER_LEN <= length fin)%nat -> headers (take HEADER_LEN fin) = Done (Some (e, x)) ->
  segments_loop uncompress (Z.to_nat 65537) relocs fin e x 0 (LState (take HEADER_LEN fin) None None) = Done s ->
  load32 (l_input s) (e + 24) = Done e_entry -> load_file uncompress relocs fin = Done (Some (s, e_entry)).
Proof.
  intros Hl Hh Hs He. apply Nat.ltb_ge in Hl. unfold load_file. rewrite Hl, Hh. cbn [mbind run_bind]. rewrite Hs. cbn [mbind run_bind]. by rewrite He.
Qed.

(** Of an ELF file the first two segments are loaded as they will stand in
    memory: at their addresses, with the bytes of the file and zeros behind
    them, in the greater of both sizes. *)
Theorem elf_segments_loaded n x0 x1 e_entry : (HEADER_LEN <= length fin)%nat -> let input := take HEADER_LEN fin in
  magic input = Done 0x464C457F -> is_elf input 0 = Done true -> e_phoff input 0 = Done p -> e_phnum input 0 = Done n -> 2 <= n < 65536 ->
  load32 input 24 = Done e_entry ->
  (forall j, 0 <= j < n -> exists x, header_at input j x /\ (j = 0 -> x = x0) /\ (j = 1 -> x = x1)) ->
  exists t d, load_file uncompress false fin = Done (Some (LState input (Some t) (Some d), e_entry)) /\ image_of x0 t /\ image_of x1 d.
Proof.
  intros Hl input Hm He Hp Hn Hb Hen Hx. exists (image x0), (image x1). split.
  - apply (load_file_spec false 0 p); [done| | |done].
    + fold input. unfold headers. by rewrite Hp, Hm, He.
    + fold input. rewrite (segments_loop_plain n x0 x1 0 0x464C457F (proj1 Hb) (Z.to_nat n)); [done|lia|lia|lia|done..].
  - destruct (Hx 0) as (? & (_ & _ & _ & _ & _ & Ho & Hf) & H0 & _); [lia|].
    destruct (Hx 1) as (? & (_ & _ & _ & _ & _ & Ho1 & Hf1) & _ & H1); [lia|].
    rewrite <-H0, <-H1 by done. split; by apply image_correct.
Qed.
End Loaded.

(** The search starts behind the last byte of the text. *)
Lemma entry_search_overruns fuel h e_entry : isascii4 h (text_base h + e_entry + 4) = Done false ->
  0 < text_size h -> 0 <= text_addr h -> text_addr h + text_size h < 2 ^ 32 -> mlen (text_bytes h) = text_size h ->
  find_entry (S fuel) h e_entry = Fault FMem.
Proof.
  intros Hn Hs Ha Hb Hl. unfold find_entry. rewrite Hn. cbn [mbind run_bind search check]. change ([_] !! 0%nat) with (Some 0xE0).
  rewrite u32_small by lia. replace (text_addr h + text_size h <=? text_addr h) with false by lia.
  unfold load8. replace (text_size h + Z.of_nat 0 <? 0) with false by lia.
  destruct (text_bytes h !! _) eqn:E; [|done]. apply lookup_lt_Some in E. unfold mlen in Hl. lia.
Qed.

(** A file with a text of three bytes in five, and two bytes of data *)
Definition sample_headers : mem :=
  elf_magic ++ replicate 16 0 ++ le 4 0x10 ++ le 4 52 ++ replicate 12 0 ++ le 2 2 ++ replicate 6 0 ++
  le 4 1 ++ le 4 0x1000 ++ le 4 0x81000000 ++ le 4 0 ++ le 4 3 ++ le 4 5 ++ le 8 0 ++
  le 4 1 ++ le 4 0x1003 ++ le 4 0x81100000 ++ le 4 0 ++ le 4 2 ++ le 4 2 ++ le 8 0.
Definition sample_file : mem := sample_headers ++ replicate (HEADER_LEN - length sample_headers) 0 ++ [1; 2; 3; 4; 5].

Lemma elf_segments_loaded_witness : exists t d, load_file (fun sz m => (0, m)) false sample_file =
    Done (Some (LState (take HEADER_LEN sample_file) (Some t) (Some d), 0x10)) /\
  image_of sample_file (Header 0x1000 3 0x81000000 5) t /\ image_of sample_file (Header 0x1003 2 0x81100000 2) d.
Proof.
  apply (elf_segments_loaded (fun sz m => (0, m)) sample_file 52 2 (Header 0x1000 3 0x81000000 5) (Header 0x1003 2 0x81100000 2) 0x10).
  - unfold sample_file. rewrite !length_app, length_replicate. lia.
  - reflexivity.
  - reflexivity.
  - reflexivity.
  - reflexivity.
  - lia.
  - reflexivity.
  - intros j Hj. assert (j = 0 \/ j = 1) as [-> | ->] by lia.
    + exists (Header 0x1000 3 0x81000000 5). split; [|split; [reflexivity|discriminate]].
      repeat (split; [reflexivity|]). split; [by eexists|]. split; discriminate.
    + exists (Header 0x1003 2 0x81100000 2). split; [|split; [discriminate|reflexivity]].
      repeat (split; [reflexivity|]). split; [by eexists|]. split; discriminate.
Defined.
