(* ===== verification/KdumpExtract.v ===== *)
(** * Cutting modules out of a kernel dump (kdump-extract, main.c)

    The tool searches a dump for module information blocks by a byte pattern
    and writes the first segment of each module it finds as an ELF file of its
    own.  [m] is the memory from the input buffer on: the [sz] bytes of the
    file and whatever lies behind the block, since the search reads past its
    end.  Messages are left out. *)

From stdpp Require Import prelude strings.
From S2P Require Import Prelude Bytes CString ElfTools ImageExtract.

Definition check : list Z := [0; 0; 0; 0; 7; 0; 1; 1].
Definition KNOWN_MODNAME : mem := bytes_of "SceSysmem".
Definition sizeof_SceModuleInfo : Z := 0x5C.

(** [SceModuleInfo] at [a] *)
Definition mi_name (a : Z) : Z := a + 4.
Definition mi_expTop (m : mem) (a : Z) : run Z := load32 m (a + 36).

(** [while (i < sizeof(check)) { ... }]: the offset it leaves *)
Fixpoint find_check (fuel : nat) (m : mem) (sz off : Z) (i : nat) : run Z :=
  match fuel with
  | O => OutOfFuel
  | S fuel' =>
      match check !! i with
      | None => Done off
      | Some c =>
          if sz <? off then Done off
          else
            b ← load8 m (off + Z.of_nat i);
            if negb (b =? c) then
              if (i =? 6)%nat then find_check fuel' m sz off (S i)
              else find_check fuel' m sz (off + 1) 0
            else find_check fuel' m sz off (S i)
      end
  end.

(** [for (int j = 0; j < 0x100; j++)]: a mismatch moves the end and starts
    again, at [j = 1] *)
Fixpoint find_end (fuel : nat) (m : mem) (seg0_end : Z) (j : Z) : run Z :=
  match fuel with
  | O => OutOfFuel
  | S fuel' =>
      if j <? 0x100 then
        a ← load8 m (seg0_end + j);
        b ← load8 m seg0_end;
        if negb (a =? b) then find_end fuel' m (seg0_end + 1) 1
        else find_end fuel' m seg0_end (j + 1)
      else Done seg0_end
  end.

(** The ELF header and the program header *)
Definition myhdr (ep : Z) : mem :=
  [0x7F; 69; 76; 70; 1; 1; 1; 0] ++ replicate 8 0 ++ le 2 4 ++ le 2 0x28 ++ le 4 1 ++ le 4 ep ++
  le 4 0x34 ++ le 4 0 ++ le 4 0x05000000 ++ le 2 0x34 ++ le 2 0x20 ++ le 2 1 ++ le 2 0 ++ le 2 0 ++ le 2 0.
Definition phdr (vaddr seg0_sz : Z) : mem :=
  le 4 1 ++ le 4 0xC0 ++ le 4 vaddr ++ le 4 0 ++ le 4 seg0_sz ++ le 4 seg0_sz ++ le 4 (Z.lor 4 1) ++ le 4 1.

Definition elf_file (ep vaddr seg0_sz : Z) (seg : mem) : mem :=
  fwrite_all [] [(0, myhdr ep); (0x34, phdr vaddr seg0_sz); (0xC0, seg)].

(** The body for a pattern found at [off]: [vaddr_off] afterwards, and the
    file written; [fopen] fails on the names for which [can_write] is false. *)
Definition extract_module (can_write : string -> bool) (m : mem) (sysmem_seg0_addr vaddr_off off : Z)
    : run (Z * list effect) :=
  let mod_info_off := u32 (off + 8 - 4) in
  expTop ← mi_expTop m mod_info_off;
  let ep := u32 (expTop - sizeof_SceModuleInfo) in
  let seg0_start := u32 (mod_info_off - ep) in
  if 0 <? s32 seg0_start then
    seg0_end ← find_end (257 * S (length m)) m off 0;
    let seg0_sz := u32 (seg0_end - seg0_start) in
    known ← str_matches m (mi_name mod_info_off) KNOWN_MODNAME;
    let vaddr_off := if known && (vaddr_off =? 0) then seg0_start else vaddr_off in
    if negb (vaddr_off =? 0) then
      name ← read_str m (mi_name mod_info_off);
      let outpath := str_take 127 (name +:+ ".elf")%string in
      if can_write outpath then
        seg ← slice m seg0_start (Z.to_nat seg0_sz);
        Done (vaddr_off,
              [Save outpath (elf_file ep (u32 (sysmem_seg0_addr + seg0_start - vaddr_off)) seg0_sz seg)])
      else Fault FNull
    else Done (vaddr_off, [])
  else Done (vaddr_off, []).

(** [while (off < sz) { ... off++; }] *)
Fixpoint scan_dump (fuel : nat) (can_write : string -> bool) (m : mem) (sz sysmem_seg0_addr vaddr_off off : Z)
    : run (list effect) :=
  match fuel with
  | O => OutOfFuel
  | S fuel' =>
      if off <? sz then
        off ← find_check (9 * S (S (Z.to_nat sz))) m sz off 0;
        '(vaddr_off, es) ←
          (if off <? sz then extract_module can_write m sysmem_seg0_addr vaddr_off off
           else Done (vaddr_off, []));
        rest ← scan_dump fuel' can_write m sz sysmem_seg0_addr vaddr_off (off + 1);
        Done (es ++ rest)
      else Done []
  end.

(** [main] with the file's bytes, and the memory behind the buffer *)
Definition kdump_extract (can_write : string -> bool) (input beyond : mem) : run (list effect) :=
  sysmem_seg0_addr ← load32 (input ++ beyond) 0;
  scan_dump (S (length input)) can_write (input ++ beyond) (mlen input) sysmem_seg0_addr 0 0.

Definition kdump_main (fopen_rb : string -> option mem) (can_write : string -> bool) (beyond : mem)
    (argv : list string) : run (Z * list effect) :=
  match argv with
  | [_; input] =>
      match fopen_rb input with
      | None => Done (1, [])
      | Some [] => Done (1, [])      (* [fread] of no bytes does not return 1 *)
      | Some input => es ← kdump_extract can_write input beyond; Done (0, es)
      end
  | _ => Done (1, [])
  end.

(** ** The search *)

(** The pattern at [o]; its byte 6 may be anything. *)
Definition matches_at (m : mem) (o : Z) : Prop :=
  forall i c, check !! i = Some c -> i <> 6%nat -> load8 m (o + Z.of_nat i) = Done c.

(** The first [n] bytes of it *)
Definition matches_upto (m : mem) (o : Z) (n : nat) : Prop :=
  forall i c, (i < n)%nat -> check !! i = Some c -> i <> 6%nat -> load8 m (o + Z.of_nat i) = Done c.

Lemma matches_upto_all m o : matches_upto m o 8 <-> matches_at m o.
Proof.
  split; intros H i c; [|by intros _; apply H].
  intros Hc. apply H; [|done]. apply lookup_lt_Some in Hc. exact Hc.
Qed.

(** With eight bytes behind the end of the file in memory, the search ends on
    the first match up to the end, or just behind it. *)
Lemma find_check_spec fuel m sz off i :
  0 <= off <= sz + 1 -> (i <= 8)%nat -> (off = sz + 1 -> i = 0%nat) -> sz + 8 <= mlen m ->
  matches_upto m off i -> 9 * (sz + 1 - off) + 9 - Z.of_nat i <= Z.of_nat fuel ->
  exists off', find_check fuel m sz off i = Done off' /\ off <= off' <= sz + 1 /\
    (forall o, off <= o < off' -> ~ matches_at m o) /\ (off' <= sz -> matches_at m off').
Proof.
  revert off i. induction fuel as [|fuel IH]; intros off i Ho Hi Hend Hm Hp Hf; [lia|].
  cbn [find_check]. destruct (check !! i) as [c|] eqn:Ec.
  - pose proof (lookup_lt_Some _ _ _ Ec) as Hi8. change (length check) with 8%nat in Hi8.
    destruct (Z.ltb_spec sz off).
    { exists off. split; [done|]. split; [lia|]. split; [intros; lia|lia]. }
    destruct (load8_total m (off + Z.of_nat i)) as [b Hb]; [lia|]. rewrite Hb. cbn [mbind run_bind].
    assert (b = c \/ i = 6%nat -> matches_upto m off (S i)) as Hnext.
    { intros Hor j d Hj Hd Hj6. destruct (decide (j = i)) as [->|]; [|apply Hp; [lia|done..]].
      rewrite Ec in Hd. injection Hd as <-. destruct Hor as [->|]; [exact Hb|done]. }
    destruct (Z.eqb_spec b c) as [Hbc|Hbc]; cbn [negb]; [|destruct (Nat.eqb_spec i 6)].
    + apply IH; [lia|lia|lia|lia|by apply Hnext; left|lia].
    + apply IH; [lia|lia|lia|lia|by apply Hnext; right|lia].
    + destruct (IH (off + 1) 0%nat) as (off' & E & Hr & Hno & Hyes); [lia|lia|done|lia| |lia|].
      { intros j d Hj. lia. }
      exists off'. split; [exact E|]. split; [lia|]. split; [|done].
      intros o Hor. destruct (decide (o = off)) as [->|]; [|apply Hno; lia].
      intros Hma. specialize (Hma i c Ec n). rewrite Hb in Hma. by injection Hma.
  - apply lookup_ge_None in Ec. change (length check) with 8%nat in Ec.
    exists off. split; [done|]. split; [lia|]. split; [intros; lia|]. intros _.
    apply matches_upto_all. by replace 8%nat with i by lia.
Qed.

(** The search from [off] stops at the first occurrence of the pattern,
    byte 6 being anything, or behind the end of the file when there is none;
    it needs nine rounds per byte. *)
Theorem find_check_first m sz off :
  0 <= off <= sz -> sz + 8 <= mlen m ->
  exists off', find_check (9 * S (S (Z.to_nat sz))) m sz off 0 = Done off' /\ off <= off' <= sz + 1 /\
    (forall o, off <= o < off' -> ~ matches_at m o) /\ (off' <= sz -> matches_at m off').
Proof. intros Ho Hm. apply find_check_spec; [lia..| |lia]. intros i c Hi. lia. Qed.

(** The search in the file alone: without a match it reads behind the end. *)
Lemma find_check_overreads fuel m off i :
  0 <= off <= mlen m -> (i <= 8)%nat -> (off = mlen m -> i = 0%nat) ->
  matches_upto m off i -> (forall o, off <= o -> ~ matches_at m o) ->
  9 * (mlen m + 1 - off) + 9 - Z.of_nat i <= Z.of_nat fuel ->
  find_check fuel m (mlen m) off i = Fault FMem.
Proof.
  revert off i. induction fuel as [|fuel IH]; intros off i Ho Hi Hend Hp Hno Hf; [lia|].
  cbn [find_check]. destruct (check !! i) as [c|] eqn:Ec.
  - pose proof (lookup_lt_Some _ _ _ Ec) as Hi8. change (length check) with 8%nat in Hi8.
    destruct (Z.ltb_spec (mlen m) off); [lia|].
    destruct (load8 m (off + Z.of_nat i)) as [b|f|] eqn:Hb; cbn [mbind run_bind].
    + assert (off + Z.of_nat i < mlen m) as Hlt.
      { apply load8_inv in Hb as [? Hb]. apply lookup_lt_Some in Hb. unfold mlen. lia. }
      assert (b = c \/ i = 6%nat -> matches_upto m off (S i)) as Hnext.
      { intros Hor j d Hj Hd Hj6. destruct (decide (j = i)) as [->|]; [|apply Hp; [lia|done..]].
        rewrite Ec in Hd. injection Hd as <-. destruct Hor as [->|]; [exact Hb|done]. }
      destruct (Z.eqb_spec b c) as [Hbc|Hbc]; cbn [negb]; [|destruct (Nat.eqb_spec i 6)].
      * apply IH; [lia|lia|lia|by apply Hnext; left|done|lia].
      * apply IH; [lia|lia|lia|by apply Hnext; right|done|lia].
      * apply IH; [lia|lia|done| |intros o Hoo; apply Hno; lia|lia]. intros j d Hj. lia.
    + unfold load8 in Hb. repeat case_match; congruence.
    + exfalso. by apply (ends_load8 m (off + Z.of_nat i)).
  - apply lookup_ge_None in Ec. change (length check) with 8%nat in Ec.
    exfalso. apply (Hno off); [lia|]. apply matches_upto_all. by replace 8%nat with i by lia.
Qed.

(** The tool reads behind its input: on a dump in which the pattern does
    not occur, the search leaves the block that holds the file. *)
Theorem kdump_overreads can_write input :
  4 <= mlen input -> (forall o, 0 <= o -> ~ matches_at input o) ->
  kdump_extract can_write input [] = Fault FMem.
Proof.
  intros Hl Hno. unfold kdump_extract. rewrite app_nil_r.
  destruct (load_le_total 4 input 0) as [v ->]; [lia|lia|]. cbn [mbind run_bind scan_dump].
  replace (0 <? mlen input) with true by lia.
  rewrite find_check_overreads; [done|lia|lia|lia| |done|unfold mlen; lia]. intros i c Hi. lia.
Qed.

(** ** The end of the segment *)

(** 256 equal bytes from [e] on, [n] of them checked *)
Definition run_upto (m : mem) (e n : Z) : Prop := forall k, 0 <= k < n -> load8 m (e + k) = load8 m e.

Lemma find_end_spec fuel m off j e :
  0 <= off <= e -> 0 <= j <= 0x100 -> e + 0x100 <= mlen m ->
  run_upto m off j -> run_upto m e 0x100 -> (forall o, off <= o < e -> ~ run_upto m o 0x100) ->
  257 * (e - off) + 257 - j <= Z.of_nat fuel ->
  find_end fuel m off j = Done e.
Proof.
  revert off j. induction fuel as [|fuel IH]; intros off j Ho Hj He Hrun Hre Hno Hf; [lia|].
  cbn [find_end]. destruct (Z.ltb_spec j 0x100).
  - destruct (load8_total m (off + j)) as [a Ha]; [lia|]. destruct (load8_total m off) as [b Hb]; [lia|].
    rewrite Ha, Hb. cbn [mbind run_bind]. destruct (Z.eqb_spec a b) as [->|Hne]; cbn [negb].
    + apply IH; [lia|lia|lia| |done|done|lia]. intros k Hk.
      destruct (decide (k = j)) as [->|]; [congruence|apply Hrun; lia].
    + assert (off <> e) as Hoe.
      { intros ->. specialize (Hre j ltac:(lia)). rewrite Ha, Hb in Hre. congruence. }
      apply IH; [lia|lia|lia| |done| |lia].
      * intros k Hk. by replace k with 0 by lia; rewrite Z.add_0_r.
      * intros o Hoo. apply Hno. lia.
  - replace j with 0x100 in Hrun by lia. f_equal.
    destruct (decide (off = e)) as [|Hne]; [done|]. by destruct (Hno off); [lia|].
Qed.

Lemma str_matches_total m off pat : 0 <= off -> off + mlen pat <= mlen m ->
  exists b, str_matches m off pat = Done b.
Proof.
  revert off. induction pat as [|p pat IH]; intros off Ho Hl; cbn [str_matches]; [eauto|].
  assert (mlen (p :: pat) = mlen pat + 1) as E by (unfold mlen; cbn [length]; lia).
  destruct (load8_total m off) as [b ->]; [unfold mlen in *; lia|]. cbn [mbind run_bind].
  case_match; [|eauto]. apply IH; lia.
Qed.

(** ** The file written *)

Lemma length_myhdr ep : length (myhdr ep) = 0x34%nat.
Proof. unfold myhdr. rewrite !length_app, !length_le. reflexivity. Qed.
Lemma length_phdr v s : length (phdr v s) = 0x20%nat.
Proof. unfold phdr. rewrite !length_app, !length_le. reflexivity. Qed.

Lemma elf_file_holds ep vaddr seg0_sz seg :
  Forall (holds_at (elf_file ep vaddr seg0_sz seg)) [(0, myhdr ep); (0x34, phdr vaddr seg0_sz); (0xC0, seg)].
Proof.
  apply fwrite_all_holds. cbn [pairwise_disjoint]. unfold disjoint_writes. cbn [fst snd].
  rewrite length_myhdr, length_phdr.
  split_and!; repeat (apply Forall_cons_2 || apply Forall_nil_2); cbn [fst snd]; try rewrite length_phdr; lia.
Qed.

(** A module found at [off] is written whole: its file holds an ELF header
    with the entry point of the module, one program header with the address
    that the module has relative to SceSysmem, and at 0xC0 the bytes of the
    dump from the segment's start up to the first run of 256 equal bytes. *)
Theorem extract_module_saves can_write m sysmem_seg0_addr vaddr_off off expTop e name known :
  let mod_info_off := off + 4 in
  let ep := u32 (expTop - sizeof_SceModuleInfo) in
  let start := u32 (mod_info_off - ep) in
  let vaddr_off' := if known && (vaddr_off =? 0) then start else vaddr_off in
  0 <= off -> off + 4 < 2 ^ 32 -> mi_expTop m mod_info_off = Done expTop -> 0 < s32 start ->
  off <= e -> e < 2 ^ 32 -> e + 0x100 <= mlen m -> run_upto m e 0x100 ->
  (forall o, off <= o < e -> ~ run_upto m o 0x100) -> start <= e ->
  str_matches m (mi_name mod_info_off) KNOWN_MODNAME = Done known ->
  read_str m (mi_name mod_info_off) = Done name -> vaddr_off' <> 0 ->
  can_write (str_take 127 (name +:+ ".elf")%string) = true ->
  exists f seg, extract_module can_write m sysmem_seg0_addr vaddr_off off =
      Done (vaddr_off', [Save (str_take 127 (name +:+ ".elf")%string) f]) /\
    slice m start (Z.to_nat (e - start)) = Done seg /\ mlen seg = e - start /\
    holds_at f (0, myhdr ep) /\ holds_at f (0xC0, seg) /\
    holds_at f (0x34, phdr (u32 (sysmem_seg0_addr + start - vaddr_off')) (mlen seg)).
Proof.
  intros mod_info_off ep start vaddr_off' Ho H32 Hexp Hs He He32 Hm Hrun Hno Hse Hk Hname Hv Hw.
  assert (0 <= start) as Hs0 by apply u32_range.
  destruct (slice_total m start (Z.to_nat (e - start))) as [seg Hseg]; [lia|lia|].
  assert (mlen seg = e - start) as Hlen.
  { apply slice_inv in Hseg as (_ & Hb & ->). unfold mlen in *.
    rewrite length_take, length_drop. lia. }
  pose proof (elf_file_holds ep (u32 (sysmem_seg0_addr + start - vaddr_off')) (e - start) seg) as Hf.
  apply Forall_cons in Hf as [Hh Hf]. apply Forall_cons in Hf as [Hp Hf]. apply Forall_cons in Hf as [Hg _].
  eexists _, seg. split; [|rewrite Hlen; split_and!; [done|done|exact Hh|exact Hg|exact Hp]].
  unfold extract_module. replace (u32 (off + 8 - 4)) with mod_info_off
    by (rewrite u32_small; unfold mod_info_off; lia).
  rewrite Hexp. cbn [mbind run_bind]. fold ep. fold start. replace (0 <? s32 start) with true by lia.
  rewrite (find_end_spec _ m off 0 e); [|lia|lia|lia| |done|done|unfold mlen in Hm; lia].
  2: { intros k Hkk. lia. }
  cbn [mbind run_bind]. rewrite Hk. cbn [mbind run_bind]. fold vaddr_off'.
  replace (vaddr_off' =? 0) with false by lia. cbn [negb]. rewrite Hname. cbn [mbind run_bind].
  rewrite Hw. rewrite (u32_small (e - start)) by lia. rewrite Hseg. done.
Qed.

(** ** Witnesses *)

(** A dump with one module at 16, "SceSysmem", its segment from 4 on *)
Definition sample_dump : mem :=
  le 4 0x81000000 ++ [1; 2; 3; 4; 5; 6; 7; 8; 9; 10; 11; 12] ++ [0; 0; 0; 0; 7; 0; 5; 1] ++
  KNOWN_MODNAME ++ replicate 18 0 ++ [6] ++ le 4 0 ++ le 4 (0x5C + 16) ++ replicate 300 0xEE.

Lemma find_check_first_witness : exists off',
  find_check (9 * S (S (Z.to_nat (mlen sample_dump)))) (sample_dump ++ replicate 8 0) (mlen sample_dump) 3 0
    = Done off' /\ 3 <= off' <= mlen sample_dump + 1 /\
  (off' <= mlen sample_dump -> matches_at (sample_dump ++ replicate 8 0) off').
Proof.
  destruct (find_check_first (sample_dump ++ replicate 8 0) (mlen sample_dump) 3) as (o & E & Hr & _ & Hyes);
    [vm_compute; split; discriminate|vm_compute; discriminate|].
  exists o. split; [exact E|]. split; [exact Hr|exact Hyes].
Defined.

Lemma kdump_overreads_witness : kdump_extract (fun _ => true) (replicate 100 0xFF) [] = Fault FMem.
Proof.
  apply (kdump_overreads (fun _ => true) (replicate 100 0xFF)); [vm_compute; discriminate|].
  intros o Ho H. specialize (H 0%nat 0 eq_refl ltac:(done)). apply load8_inv in H as [_ H].
  by apply lookup_replicate in H as [H _].
Defined.

Lemma sample_run : run_upto sample_dump 60 0x100.
Proof.
  intros k Hk. assert (forallb (fun k => match load8 sample_dump (60 + k) with Done b => b =? 0xEE | _ => false end)
    (seqZ 0 0x100) = true) as H by (vm_compute; reflexivity).
  rewrite forallb_forall in H. specialize (H k). rewrite <- list_elem_of_In, elem_of_seqZ in H.
  specialize (H ltac:(lia)). destruct (load8 sample_dump (60 + k)) as [b| |]; [|done..].
  change (load8 sample_dump 60) with (Done 0xEE). f_equal. lia.
Qed.

Lemma sample_no_run o : 16 <= o < 60 -> ~ run_upto sample_dump o 0x100.
Proof.
  intros Ho Hr. assert (forallb (fun o => match load8 sample_dump (o + (60 - o)), load8 sample_dump o,
      load8 sample_dump (o + (59 - o)), load8 sample_dump (o + 1) with
    | Done a, Done b, Done c, Done d => negb (a =? b) || negb (c =? b) || negb (d =? b) | _, _, _, _ => false end)
    (seqZ 16 44) = true) as H by (vm_compute; reflexivity).
  rewrite forallb_forall in H. specialize (H o). rewrite <- list_elem_of_In, elem_of_seqZ in H.
  specialize (H ltac:(lia)).
  pose proof (Hr (60 - o) ltac:(lia)) as H1. pose proof (Hr (59 - o) ltac:(lia)) as H2.
  pose proof (Hr 1 ltac:(lia)) as H3. rewrite H1, H2, H3 in H.
  destruct (load8 sample_dump o); [lia|done..].
Qed.

Lemma extract_module_saves_witness : exists f seg,
  extract_module (fun _ => true) sample_dump 0x81000000 0 16 = Done (4, [Save "SceSysmem.elf" f]) /\
  mlen seg = 56 /\ holds_at f (0xC0, seg) /\ holds_at f (0x34, phdr 0x81000000 (mlen seg)).
Proof.
  destruct (extract_module_saves (fun _ => true) sample_dump 0x81000000 0 16 (0x5C + 16) 60 "SceSysmem" true)
    as (f & seg & E & _ & Hl & _ & Hg & Hp);
    [lia|lia|vm_compute; reflexivity|vm_compute; reflexivity|lia|lia|vm_compute; discriminate|exact sample_run
    |exact sample_no_run|vm_compute; discriminate|vm_compute; reflexivity|vm_compute; reflexivity|discriminate|reflexivity|].
  exists f, seg. split; [exact E|]. split; [exact Hl|]. split; [exact Hg|exact Hp].
Defined.
