(* ===== verification/ShipLog.v ===== *)
(** * ShipLog (ShipLog2.0/src)

    The older logger: a kernel plugin that collects debug output in one buffer
    ([Log], backdoor_exe.c and utils.c) and empties it to a socket or a file
    ([Net], cj_net.c), its settings ([Settings], settings.c and parser.c) and
    the menu of its configuration application ([Menu], config_app/main.c and
    menu.c).  The threads of the plugin are taken one call or one round of the
    network thread at a time. *)

From stdpp Require Import prelude strings.
From S2P Require Import Prelude Bytes CString Hoare Atoi Yaml Utf16 ImageExtract.

(** ** The log buffer (backdoor_exe.c, utils.c) *)

Class LogKernel (W : Type) := {
  ksceIoMkdir_dump : W -> W;
  (** [ksceIoOpen(LOG_FILE, ... | SCE_O_APPEND)] *)
  ksceIoOpen_log : W -> Z * W;
  ksceIoWrite : Z -> mem -> W -> W;
  ksceIoClose : Z -> W -> W;
  ksceKernelClearEventFlag : Z -> W -> W;
  ksceKernelSetEventFlag : Z -> W -> W;
}.

Module Log.
Definition BUF_SIZE : nat := 1024 * 32.
Definition SEND_OUT : Z := 2.

Record shiplog (W : Type) := Ship { buffer : mem; buf_pos : Z; kernel : W }.
Arguments Ship {W}. Arguments buffer {W}. Arguments buf_pos {W}. Arguments kernel {W}.

Section Log.
Context {W : Type} `{!LogKernel W}.
Abbreviation M := (SM (shiplog W)).

Definition klog (f : W -> W) : M unit := sm_modify (fun s => Ship (buffer s) (buf_pos s) (f (kernel s))).

Definition bufLength : M Z := sm_gets buf_pos.
Definition bufClear : M unit := sm_modify (fun s => Ship (replicate BUF_SIZE 0) 0 (kernel s)).

(** [log_write(data, length)] on the bytes *)
Definition log_write (data : mem) : M unit :=
  _ ← klog ksceIoMkdir_dump;
  fd ← (fun s => let '(fd, w) := ksceIoOpen_log (kernel s) in Done (fd, Ship (buffer s) (buf_pos s) w));
  if fd <? 0 then mret tt
  else _ ← klog (ksceIoWrite fd data); klog (ksceIoClose fd).

(** [log_write(buffer + off, n)] *)
Definition log_write_at (off n : Z) : M unit :=
  b ← sm_gets buffer; data ← sm_lift (slice b off (Z.to_nat n)); log_write data.

Definition stopSend : M unit := klog (ksceKernelClearEventFlag (Z.lnot SEND_OUT)).
Definition startSend : M unit := klog (ksceKernelSetEventFlag SEND_OUT).

(** "if the buffer is full, write it out whole and clear it" *)
Definition make_room (length : Z) : M unit :=
  pos ← sm_gets buf_pos;
  if Z.of_nat BUF_SIZE <? pos + length then
    _ ← log_write_at 0 (Z.of_nat BUF_SIZE); bufClear
  else mret tt.

(** [formatted] is what the format gives; [snprintf] cuts it to 511 bytes. *)
Definition debugHandler (formatted : mem) : M unit :=
  let buf := take 511 (until_nul formatted) in
  _ ← stopSend;
  _ ← make_room (mlen buf);
  pos ← sm_gets buf_pos; b ← sm_gets buffer;
  b ← sm_lift (blit b pos buf);
  _ ← sm_modify (fun s => Ship b (pos + mlen buf) (kernel s));
  startSend.

Definition putchar_handler (c : Z) : M Z :=
  _ ← stopSend;
  _ ← make_room 1;
  pos ← sm_gets buf_pos; b ← sm_gets buffer;
  b ← sm_lift (store8 b pos c);
  _ ← sm_modify (fun s => Ship b (pos + 1) (kernel s));
  _ ← startSend;
  mret c.

Definition shipLogBufLength : M Z := bufLength.
Definition shipLogBufClear : M unit := bufClear.
Definition shipLogDumpToDisk : M unit :=
  pos ← sm_gets buf_pos; _ ← log_write_at 0 pos; bufClear.
End Log.
End Log.
Export Log.

(** ** Standard output (backdoor_exe.c) *)

Class StdoutKernel (W : Type) := {
  continue_GetStdout : W -> Z * W;
  ksceKernelGetProcessId : W -> Z;
  ksceKernelStrncpyUserToKernel : mem -> nat -> W -> mem * W;
  (** [ksceIoOpen(fn, SCE_O_WRONLY | SCE_O_CREAT | SCE_O_APPEND, 6)] *)
  ksceIoOpen_append : mem -> W -> Z * W;
  ksceKernelCreateUserUid : Z -> Z -> W -> Z * W;
  ENTER_SYSCALL : W -> W;
  EXIT_SYSCALL : W -> W;
}.

Module Stdout.
Record stdout (W : Type) := StdoutState { __stdout_fd : Z; __stdout_ufd : Z; __stdout_upid : Z; sys : W }.
Arguments StdoutState {W}. Arguments __stdout_fd {W}. Arguments __stdout_ufd {W}.
Arguments __stdout_upid {W}. Arguments sys {W}.

Section Stdout.
Context {W : Type} `{!StdoutKernel W}.

Definition sceKernelGetStdout_patched (s : stdout W) : Z * stdout W :=
  let '(fd, w) := continue_GetStdout (ENTER_SYSCALL (sys s)) in
  let fd := if __stdout_upid s =? ksceKernelGetProcessId w then __stdout_ufd s else fd in
  (fd, StdoutState (__stdout_fd s) (__stdout_ufd s) (__stdout_upid s) (EXIT_SYSCALL w)).

(** [res] holds [res0] until it is assigned. *)
Definition shipLogToFile (res0 : Z) (out : mem) (s : stdout W) : Z * stdout W :=
  let '(fn, w) := ksceKernelStrncpyUserToKernel out 256 (ENTER_SYSCALL (sys s)) in
  let '(fd, w) := ksceIoOpen_append fn w in
  if -1 <? fd then
    let upid := ksceKernelGetProcessId w in
    let '(res, w) := ksceKernelCreateUserUid upid fd w in
    (res, StdoutState fd res upid (EXIT_SYSCALL w))
  else (res0, StdoutState fd (__stdout_ufd s) (__stdout_upid s) (EXIT_SYSCALL w)).

(** After a successful [shipLogToFile] the process that called it, and no
    other, is given the file as its standard output. *)
Lemma stdout_redirected res0 out s res s' w :
  shipLogToFile res0 out s = (res, s') -> -1 < __stdout_fd s' ->
  (sceKernelGetStdout_patched (StdoutState (__stdout_fd s') (__stdout_ufd s') (__stdout_upid s') w)).1 =
    if __stdout_upid s' =? ksceKernelGetProcessId (continue_GetStdout (ENTER_SYSCALL w)).2 then res
    else (continue_GetStdout (ENTER_SYSCALL w)).1.
Proof.
  unfold shipLogToFile, sceKernelGetStdout_patched. cbn [sys __stdout_upid __stdout_ufd].
  destruct (continue_GetStdout _) as [fd w1]. cbn [fst snd].
  destruct (ksceKernelStrncpyUserToKernel _ _ _) as [fn w2].
  destruct (ksceIoOpen_append _ _) as [fd2 w3]. destruct (Z.ltb_spec (-1) fd2).
  - destruct (ksceKernelCreateUserUid _ _ _) as [r w4]. by intros [= <- <-] _.
  - intros [= <- <-]. cbn [__stdout_fd]. lia.
Qed.
End Stdout.
End Stdout.

(** ** The network thread (cj_net.c) *)

Class ShipNet (W : Type) := {
  ksceNetSocketClose : Z -> W -> W;
  ksceNetSocket : W -> Z * W;
  ksceNetConnect : Z -> W -> Z * W;
  ksceNetSend : Z -> mem -> W -> Z * W;
  ksceKernelDelayThread : Z -> W -> W;
  ksceKernelWaitEventFlag : Z -> W -> W;
}.

Module Net.
Record netdbg := NetDbg { _dbgsock : Z; is_connected : bool; netEnable : Z; fileLog : Z }.

Section Net.
Context {W : Type} `{!LogKernel W, !ShipNet W}.
Abbreviation M := (SM (netdbg * shiplog W)).

(** a computation on the buffer, and calls of the kernel *)
Definition on_log {A} (m : SM (shiplog W) A) : M A := fun '(n, s) =>
  '(a, s) ← m s; Done (a, (n, s)).
Definition ncall_ (f : W -> W) : M unit := on_log (klog f).
Definition ncall {A} (f : W -> A * W) : M A := on_log (fun s =>
  let '(a, w) := f (kernel s) in Done (a, Ship (buffer s) (buf_pos s) w)).
Definition get_net {A} (f : netdbg -> A) : M A := sm_gets (fun s => f s.1).
Definition set_net (f : netdbg -> netdbg) : M unit := sm_modify (fun '(n, s) => (f n, s)).

Definition set_sock sock n := NetDbg sock (is_connected n) (netEnable n) (fileLog n).
Definition set_connected c n := NetDbg (_dbgsock n) c (netEnable n) (fileLog n).

(** [while (sent < bufLength()) { ... }]: every call is given the length of the
    whole buffer *)
Fixpoint send_loop (fuel : nat) (sent : Z) : M unit :=
  match fuel with
  | O => fun _ => OutOfFuel
  | S fuel' =>
      len ← on_log bufLength;
      if sent <? len then
        b ← on_log (sm_gets buffer);
        data ← sm_lift (slice b sent (Z.to_nat len));
        sock ← get_net _dbgsock;
        ret ← ncall (ksceNetSend sock data);
        fl ← get_net fileLog;
        _ ← (if negb (fl =? 0) then on_log (log_write_at sent (u32 ret)) else mret tt);
        if ret <? 0 then set_net (set_connected false)
        else send_loop fuel' (sent + ret)
      else mret tt
  end.

(** [init_netdbg]: the thread starts with no socket. *)
Definition init_netdbg (net file : Z) : netdbg := NetDbg (-1) false net file.

(** [fini_netdbg] *)
Definition fini_netdbg : M unit :=
  sock ← get_net _dbgsock;
  if negb (sock =? 0) then
    _ ← ncall_ (ksceNetSocketClose sock);
    set_net (set_sock 0)
  else mret tt.

(** The message printed when connected comes back as a call of
    [debugHandler], a call of its own here. *)
Definition net_connect : M unit :=
  en ← get_net netEnable; c ← get_net is_connected;
  if negb (en =? 0) && negb c then
    sock ← get_net _dbgsock;
    _ ← (if -1 <? sock then ncall_ (ksceNetSocketClose sock) else mret tt);
    sock ← ncall ksceNetSocket;
    _ ← set_net (set_sock sock);
    r ← ncall (ksceNetConnect sock);
    _ ← (if -1 <? r then set_net (set_connected true) else mret tt);
    ncall_ (ksceKernelDelayThread 300000)
  else mret tt.

(** one round of [while (1)] *)
Definition net_round (fuel : nat) : M unit :=
  _ ← net_connect;
  len ← on_log bufLength;
  if 0 <? len then
    c ← get_net is_connected; en ← get_net netEnable; fl ← get_net fileLog;
    _ ← (if (c : bool) && negb (en =? 0) then
           _ ← ncall_ (ksceKernelWaitEventFlag SEND_OUT);
           _ ← send_loop fuel 0;
           c ← get_net is_connected;
           if c : bool then on_log bufClear else mret tt
         else if negb (fl =? 0) && (0 <? len) then
           _ ← ncall_ (ksceKernelWaitEventFlag SEND_OUT);
           _ ← on_log (log_write_at 0 len);
           _ ← on_log bufClear;
           ncall_ (ksceKernelDelayThread 400000)
         else mret tt);
    ncall_ (ksceKernelDelayThread 100000)
  else mret tt.
End Net.
End Net.
Export Net.

(** ** Settings (settings.c, parser.c) *)

Class ShipOs (W : Type) := {
  (** text to address; [None] when it is none *)
  sceNetInetPton : mem -> option Z;
  (** address, and the array of 15 bytes it is written to *)
  sceNetInetNtop : Z -> mem -> mem;
  (** the result and the bytes read, when the file opens *)
  read_config : nat -> W -> option (Z * mem);
  write_config : mem -> W -> W;
  (** what a fresh array on the stack holds *)
  stack_array : nat -> W -> mem;
  sceIoMkdir : W -> W;
  call_shipLogDumpToDisk : W -> W;
  sceKernelDelayThread : Z -> W -> W;
  SCE_CTRL_CROSS : Z;
  SCE_CTRL_DOWN : Z;
  SCE_CTRL_UP : Z;
  SCE_CTRL_CIRCLE : Z;
}.

Module Settings.
Record settings := Set_ { _ip : mem; _port : Z; _updated : Z; _isNet : Z; _isFile : Z }.

Definition ip_size : nat := 15.
Definition settings_static : settings := Set_ (replicate ip_size 0) 0 1 0 0.

Definition setPort port s := Set_ (_ip s) port (_updated s) (_isNet s) (_isFile s).
Definition setFile file s := Set_ (_ip s) (_port s) (_updated s) (_isNet s) file.
Definition setNet net s := Set_ (_ip s) (_port s) (_updated s) net (_isFile s).
Definition setIP (ip : mem) s := Set_ (strncpy ip ip_size) (_port s) (_updated s) (_isNet s) (_isFile s).
Definition updated bol s := Set_ (_ip s) (_port s) bol (_isNet s) (_isFile s).

(** [strcpy] out of [_ip]: without a NUL in it, the copy goes on behind it *)
Definition getIP s : run mem :=
  if bool_decide (0 ∈ _ip s) then Done (until_nul (_ip s)) else Fault FMem.

(** [config_file]: netEnable, fileLog, ip, port *)
Definition config_bytes (net file ip port : Z) : mem := le 4 net ++ le 4 file ++ le 4 ip ++ le 4 port.
Definition sizeof_config_file : nat := 16.

Section Config.
Context {W : Type} `{!ShipOs W}.

Definition saveConfig (s : settings) (w : W) : run W :=
  text ← getIP s;
  let ip := match sceNetInetPton text with Some a => a | None => 0 end in
  Done (write_config (config_bytes (_isNet s) (_isFile s) ip (_port s)) w).

Definition loadConfig (s : settings) (w : W) : run (Z * settings) :=
  match read_config sizeof_config_file w with
  | None => Done (-1, s)
  | Some (r, bs) =>
      if r <? 0 then Done (-1, s)
      else
        let config := bs ++ replicate (sizeof_config_file - length bs) 0 in
        net ← load32 config 0; file ← load32 config 4; ip ← load32 config 8; port ← load32 config 12;
        let ip_text := sceNetInetNtop ip (stack_array ip_size w) in
        Done (0, setPort (s32 port) (setNet (s32 net) (setFile (s32 file) (setIP ip_text s))))
  end.
End Config.
End Settings.
Export Settings.

(** ** The menu of the application (config_app/main.c, menu.c) *)

Module Menu.
Record shipapp (W : Type) := ShipApp {
  page : Z; pos : Z; maxpos : Z; shown_dial : Z; conf : settings;
  dialog : string * mem * Z;   (** title, initial text and length of the last dialog *)
  sys : W;
}.
Arguments ShipApp {W}. Arguments page {W}. Arguments pos {W}. Arguments maxpos {W}.
Arguments shown_dial {W}. Arguments conf {W}. Arguments dialog {W}. Arguments sys {W}.

(** [entries - 1] of [renderMenu]: the lines drawn on a page *)
Definition renderMenu (page : Z) : Z :=
  if page =? 0 then 5 else if page =? 1 then 4 else if page =? 4 then 1 else 0.

Section Menu.
Context {W : Type} `{!ShipOs W}.
Abbreviation M := (SM (shipapp W)).

Definition goto (p q : Z) (s : shipapp W) : shipapp W :=
  ShipApp p q (maxpos s) (shown_dial s) (conf s) (dialog s) (sys s).
Definition set_conf c (s : shipapp W) : shipapp W :=
  ShipApp (page s) (pos s) (maxpos s) (shown_dial s) c (dialog s) (sys s).
Definition set_dial b (s : shipapp W) : shipapp W :=
  ShipApp (page s) (pos s) (maxpos s) b (conf s) (dialog s) (sys s).
Definition set_max m (s : shipapp W) : shipapp W :=
  ShipApp (page s) (pos s) m (shown_dial s) (conf s) (dialog s) (sys s).
Definition set_dialog d (s : shipapp W) : shipapp W :=
  ShipApp (page s) (pos s) (maxpos s) (shown_dial s) (conf s) d (sys s).
Definition set_sys w (s : shipapp W) : shipapp W :=
  ShipApp (page s) (pos s) (maxpos s) (shown_dial s) (conf s) (dialog s) w.

Definition change (f : settings -> settings) : M unit := sm_modify (fun s => set_conf (f (conf s)) s).
Definition scall_ (f : W -> W) : M unit := sm_modify (fun s => set_sys (f (sys s)) s).

Definition toggle (x : Z) : Z := if x =? 0 then 1 else 0.

Definition press_save : M unit := fun s =>
  w ← saveConfig (conf s) (sys s); Done (tt, set_conf (updated 1 (conf s)) (set_sys w s)).

Definition press_ip : M unit := fun s =>
  ip ← getIP (conf s);
  Done (tt, set_dial 1 (set_dialog ("Please enter an IP:"%string, ip, 15) s)).

(** [sprintf] writes into five bytes. *)
Definition press_port : M unit := fun s =>
  let sPort := bytes_of (fmt_d (_port (conf s))) in
  if (5 <=? length sPort)%nat then Fault FMem
  else Done (tt, set_dial 1 (set_dialog ("Please enter an port:"%string, sPort, 5) s)).

(** [case 0]: the main page *)
Definition cross_main (q : Z) : M unit :=
  if q =? 1 then scall_ call_shipLogDumpToDisk
  else if q =? 2 then sm_modify (goto 1 1)
  else if q =? 3 then change (fun c => updated 0 (setNet (toggle (_isNet c)) c))
  else if q =? 4 then change (fun c => updated 0 (setFile (toggle (_isFile c)) c))
  else if q =? 5 then press_save
  else mret tt.

(** [case 1]: the network page *)
Definition cross_network (q : Z) : M unit :=
  if q =? 1 then press_ip
  else if q =? 2 then press_port
  else if q =? 3 then sm_modify (goto 0 2)
  else mret tt.

Definition press_cross : M unit :=
  p ← sm_gets page; q ← sm_gets pos;
  _ ← (if p =? 0 then cross_main q
       else if p =? 1 then cross_network q
       else if (p =? 4) && (q =? 1) then sm_modify (goto 0 2)
       else mret tt);
  scall_ (sceKernelDelayThread (500 * 1000)).

Definition held (buttons b : Z) : bool := negb (Z.land buttons b =? 0).

Definition handleInput (buttons max : Z) : M unit :=
  _ ← (if held buttons SCE_CTRL_CROSS then press_cross else mret tt);
  q ← sm_gets pos; p ← sm_gets page;
  if held buttons SCE_CTRL_DOWN && (q <? max) then
    _ ← sm_modify (goto p (q + 1)); scall_ (sceKernelDelayThread (200 * 1000))
  else if held buttons SCE_CTRL_UP && (1 <? q) then
    _ ← scall_ (sceKernelDelayThread (200 * 1000)); sm_modify (goto p (q - 1))
  else if held buttons SCE_CTRL_CIRCLE && (0 <? p) then
    _ ← sm_modify (goto 0 (p + 1)); scall_ (sceKernelDelayThread (500 * 1000))
  else mret tt.

(** What [sceImeDialogGetStatus] and [sceImeDialogGetResult] report: still
    running, closed, or text in the array [ime_input_text_utf16] *)
Inductive dialog_status := Running | Closed | Entered (text : list Z).

(** [oslOskGetText(userText)], with [userText[32]] *)
Definition oslOskGetText (text : list Z) : run mem :=
  utf8 ← utf16_to_utf8 text (replicate 513 0);
  let t := until_nul utf8 in
  if (32 <=? length t)%nat then Fault FMem else Done t.

Definition handleDialog (st : dialog_status) : M unit :=
  match st with
  | Running => mret tt
  | Closed => sm_modify (set_dial 0)
  | Entered text =>
      userText ← sm_lift (oslOskGetText text);
      p ← sm_gets page; q ← sm_gets pos;
      _ ← (if p =? 1 then
             if q =? 1 then change (fun c => updated 0 (setIP userText c))
             else if q =? 2 then
               (* [sscanf("%d")] leaves 0 when there is no number *)
               change (fun c => updated 0 (setPort (s32 (atoi (chars userText))) c))
             else mret tt
           else mret tt);
      sm_modify (set_dial 0)
  end.

(** one round of the loop of [module_start] *)
Definition frame (buttons : Z) (st : dialog_status) : M unit :=
  d ← sm_gets shown_dial;
  _ ← (if negb (d =? 0) then handleDialog st
       else sm_modify (fun s => set_max (renderMenu (page s)) s));
  d ← sm_gets shown_dial;
  if (d =? 0) && negb (buttons =? 0) then m ← sm_gets maxpos; handleInput buttons m
  else mret tt.

(** [module_start] up to the loop *)
Definition first_ip : mem := bytes_of "192.168.1.1".
Definition ship_start (w : W) : run (shipapp W) :=
  '(r, c) ← loadConfig settings_static w;
  if r <? 0 then
    let w := sceIoMkdir w in
    let c := setNet 0 (setFile 0 (setPort 3333 (setIP first_ip c))) in
    w ← saveConfig c w;
    Done (ShipApp 4 1 1 0 c (EmptyString, [], 0) w)
  else Done (ShipApp 0 1 1 0 c (EmptyString, [], 0) w).
End Menu.
End Menu.
Export Menu.

(** ** What becomes of the bytes that are collected *)

(** A disk with the log file: a descriptor that opened appends to it.
    [openings] counts the calls that open it; [opens n] says whether the call
    number [n] succeeds. *)
Class LogDisk (W : Type) `{!LogKernel W} := {
  log_file : W -> mem;
  openings : W -> nat;
  opens : nat -> bool;
  mkdir_log w : log_file (ksceIoMkdir_dump w) = log_file w /\ openings (ksceIoMkdir_dump w) = openings w;
  open_log w : let '(fd, w') := ksceIoOpen_log w in
    opens (openings w) = (0 <=? fd) /\ log_file w' = log_file w /\ openings w' = S (openings w);
  write_log fd data w : 0 <= fd ->
    log_file (ksceIoWrite fd data w) = log_file w ++ data /\ openings (ksceIoWrite fd data w) = openings w;
  close_log fd w : log_file (ksceIoClose fd w) = log_file w /\ openings (ksceIoClose fd w) = openings w;
  clear_log bits w : log_file (ksceKernelClearEventFlag bits w) = log_file w /\
    openings (ksceKernelClearEventFlag bits w) = openings w;
  set_log bits w : log_file (ksceKernelSetEventFlag bits w) = log_file w /\
    openings (ksceKernelSetEventFlag bits w) = openings w;
}.

Section LogProps.
Context {W : Type} `{!LogKernel W}.
Implicit Types s : shiplog W.

Local Ltac step := erewrite sm_bind_Done by reflexivity.
Local Ltac step_by H := rewrite (sm_bind_Done _ _ _ _ _ H).

(** The position lies in the buffer, which is clear behind it. *)
Definition buf_ok s : Prop :=
  length (buffer s) = BUF_SIZE /\ 0 <= buf_pos s <= Z.of_nat BUF_SIZE /\
  Forall (fun b => b = 0) (drop (Z.to_nat (buf_pos s)) (buffer s)).

Definition nonzero (l : mem) : mem := filter (fun b => b <> 0) l.

Lemma nonzero_app l k : nonzero (l ++ k) = nonzero l ++ nonzero k.
Proof. apply filter_app. Qed.

Lemma nonzero_zeros l : Forall (fun b => b = 0) l -> nonzero l = [].
Proof.
  unfold nonzero. induction 1 as [|b l -> _ IH]; [done|]. rewrite filter_cons.
  case_decide; [done|exact IH].
Qed.

Lemma zeros_replicate l : Forall (fun b => b = 0) l -> l = replicate (length l) 0.
Proof. induction 1 as [|b l -> _ IH]; [done|]. cbn. by f_equal. Qed.

Context `{!LogDisk W}.

(** The bytes in the buffer; and all that can be seen of a state: the number
    of times the file was opened, the file, and the buffer *)
Definition content s : mem := take (Z.to_nat (buf_pos s)) (buffer s).
Definition seen s : nat * mem * mem := (openings (kernel s), log_file (kernel s), content s).

(** The file [f] after opening number [n] of it, to write [data] *)
Definition file_after (n : nat) (f data : mem) : mem := if opens n then f ++ data else f.

Lemma log_write_Done data s : exists w, log_write data s = Done (tt, Ship (buffer s) (buf_pos s) w) /\
  log_file w = file_after (openings (kernel s)) (log_file (kernel s)) data /\ openings w = S (openings (kernel s)).
Proof.
  unfold log_write. step.
  set (s1 := Ship (buffer s) (buf_pos s) (ksceIoMkdir_dump (kernel s))).
  pose proof (open_log (kernel s1)) as Ho. destruct (ksceIoOpen_log (kernel s1)) as [fd w] eqn:E.
  destruct Ho as (Ho & Hf & Hn). unfold s1 in Ho, Hf, Hn. cbn [kernel] in Ho, Hf, Hn.
  destruct (mkdir_log (kernel s)) as [M1 M2]. rewrite M1 in Hf. rewrite M2 in Ho, Hn.
  rewrite (sm_bind_Done _ _ s1 fd (Ship (buffer s) (buf_pos s) w)) by (by rewrite E).
  unfold file_after. rewrite Ho. destruct (Z.ltb_spec fd 0) as [Hfd|Hfd].
  - rewrite (proj2 (Z.leb_gt _ _)) by lia. eexists. split; [reflexivity|]. done.
  - rewrite (proj2 (Z.leb_le _ _)) by lia. step. eexists. split; [reflexivity|]. cbn [kernel].
    destruct (close_log fd (ksceIoWrite fd data w)) as [-> ->]. destruct (write_log fd data w Hfd) as [-> ->].
    by rewrite Hf.
Qed.

Lemma log_write_at_Done off n s bs : slice (buffer s) off (Z.to_nat n) = Done bs ->
  exists w, log_write_at off n s = Done (tt, Ship (buffer s) (buf_pos s) w) /\
    log_file w = file_after (openings (kernel s)) (log_file (kernel s)) bs /\ openings w = S (openings (kernel s)).
Proof.
  intros Hs. unfold log_write_at. step.
  rewrite (sm_bind_Done _ _ s bs s) by (unfold sm_lift; by rewrite Hs). apply log_write_Done.
Qed.

Lemma cleared_ok (w : W) : buf_ok (Ship (replicate BUF_SIZE 0) 0 w).
Proof.
  split; [apply length_replicate|]. split; [cbn [buf_pos]; lia|]. apply Forall_drop, Forall_replicate. done.
Qed.

(** The buffer with room for [n] bytes: it is left alone, or the whole of it
    is written, the clear bytes behind the position too. *)
Definition roomy (n : nat) (v : nat * mem * mem) : nat * mem * mem :=
  let '(k, f, buf) := v in
  if (BUF_SIZE <? length buf + n)%nat
  then (S k, file_after k f (buf ++ replicate (BUF_SIZE - length buf) 0), []) else v.

Lemma length_content s : buf_ok s -> Z.of_nat (length (content s)) = buf_pos s.
Proof. intros (Hl & Hp & _). unfold content. rewrite length_take. lia. Qed.

Lemma make_room_Done n s : buf_ok s -> (n <= BUF_SIZE)%nat ->
  exists s', make_room (Z.of_nat n) s = Done (tt, s') /\ buf_ok s' /\ buf_pos s' + Z.of_nat n <= Z.of_nat BUF_SIZE /\
    seen s' = roomy n (seen s).
Proof.
  intros Hok Hn. pose proof Hok as (Hl & Hp & Hz). pose proof (length_content s Hok) as Hc.
  unfold make_room, roomy. step. unfold seen at 2.
  destruct (Z.ltb_spec (Z.of_nat BUF_SIZE) (buf_pos s + Z.of_nat n)) as [H|H].
  2: { rewrite (proj2 (Nat.ltb_ge _ _)) by lia. exists s. split_and!; [done|done|lia|done]. }
  rewrite (proj2 (Nat.ltb_lt _ _)) by lia.
  assert (slice (buffer s) 0 (Z.to_nat (Z.of_nat BUF_SIZE)) = Done (buffer s)) as Hs.
  { rewrite Nat2Z.id, <- Hl. apply slice_all. }
  destruct (log_write_at_Done _ _ _ _ Hs) as (w & E & Hw & Hk). step_by E.
  eexists. split; [reflexivity|]. split; [apply cleared_ok|]. split; [cbn [buf_pos]; lia|].
  unfold seen, content. cbn [kernel buf_pos buffer Z.to_nat take]. rewrite Hk, Hw. do 3 f_equal.
  rewrite <- (take_drop (Z.to_nat (buf_pos s)) (buffer s)) at 1. f_equal.
  replace (BUF_SIZE - _)%nat with (length (drop (Z.to_nat (buf_pos s)) (buffer s)))
    by (rewrite length_drop; unfold content in Hc; lia).
  by apply zeros_replicate.
Qed.

(** Bytes put behind the position *)
Lemma put_bytes s bs w : buf_ok s -> buf_pos s + mlen bs <= Z.of_nat BUF_SIZE ->
  exists b, blit (buffer s) (buf_pos s) bs = Done b /\
    buf_ok (Ship b (buf_pos s + mlen bs) w) /\
    take (Z.to_nat (buf_pos s + mlen bs)) b = take (Z.to_nat (buf_pos s)) (buffer s) ++ bs.
Proof.
  intros (Hl & Hp & Hz) Hn. unfold blit, mlen in *.
  replace (_ && _) with true by lia. eexists. split; [done|].
  assert (length (take (Z.to_nat (buf_pos s)) (buffer s)) = Z.to_nat (buf_pos s)) as Ht
    by (rewrite length_take; lia).
  replace (Z.to_nat (buf_pos s + Z.of_nat (length bs))) with (Z.to_nat (buf_pos s) + length bs)%nat by lia.
  assert (Z.to_nat (buf_pos s) + length bs = length (take (Z.to_nat (buf_pos s)) (buffer s) ++ bs))%nat as Hlen
    by (rewrite length_app; lia).
  split.
  - split; [|split]; cbn [buffer buf_pos].
    + rewrite !length_app, Ht, length_drop. lia.
    + lia.
    + replace (Z.to_nat (buf_pos s + Z.of_nat (length bs))) with (Z.to_nat (buf_pos s) + length bs)%nat by lia.
      rewrite app_assoc, Hlen at 1. rewrite drop_app_length, <- drop_drop. by apply Forall_drop.
  - rewrite app_assoc, Hlen at 1. by rewrite take_app_length.
Qed.

(** ** Producers *)

Inductive produce := PChar (c : Z) | PText (formatted : mem) | PDump.

Definition produce_one (p : produce) : SM (shiplog W) unit :=
  match p with
  | PChar c => _ ← putchar_handler c; mret tt
  | PText formatted => debugHandler formatted
  | PDump => shipLogDumpToDisk
  end.
Definition produced (p : produce) : mem :=
  match p with PChar c => [u8 c] | PText formatted => take 511 (until_nul formatted) | PDump => [] end.

Fixpoint produce_all (ps : list produce) : SM (shiplog W) unit :=
  match ps with [] => mret tt | p :: ps' => _ ← produce_one p; produce_all ps' end.

(** What is seen after a sequence of them *)
Fixpoint logged (ps : list produce) (v : nat * mem * mem) : nat * mem * mem :=
  match ps with
  | [] => v
  | PDump :: ps' => let '(k, f, buf) := v in logged ps' (S k, file_after k f buf, [])
  | p :: ps' => let '(k, f, buf) := roomy (length (produced p)) v in logged ps' (k, f, buf ++ produced p)
  end.

Lemma seen_kernel b n w w' : log_file w' = log_file w /\ openings w' = openings w ->
  seen (Ship b n w') = seen (Ship b n w).
Proof. intros [E1 E2]. unfold seen. cbn [kernel]. by rewrite E1, E2. Qed.

Lemma seen_put b s n bs :
  take (Z.to_nat n) b = take (Z.to_nat (buf_pos s)) (buffer s) ++ bs ->
  seen (Ship b n (kernel s)) = let '(k, f, buf) := seen s in (k, f, buf ++ bs).
Proof. intros Ht. unfold seen, content. cbn [kernel buffer buf_pos]. by rewrite Ht. Qed.

Lemma putchar_Done c s : buf_ok s ->
  exists s', putchar_handler c s = Done (c, s') /\ buf_ok s' /\ seen s' = logged [PChar c] (seen s).
Proof.
  intros Hok. unfold putchar_handler. step.
  set (s1 := Ship (buffer s) (buf_pos s) (ksceKernelClearEventFlag (Z.lnot SEND_OUT) (kernel s))).
  assert (seen s1 = seen s) as Hc by (destruct s; apply seen_kernel, clear_log).
  destruct (make_room_Done 1 s1) as (s2 & E2 & Hok2 & Hp2 & Hn2); [exact Hok|unfold BUF_SIZE; lia|].
  step_by E2. do 2 step.
  destruct (put_bytes s2 [u8 c] (ksceKernelSetEventFlag SEND_OUT (kernel s2)) Hok2) as (b & Eb & Hokb & Ht);
    [change (mlen [u8 c]) with 1; lia|].
  assert (store8 (buffer s2) (buf_pos s2) c = Done b) as Es.
  { destruct Hok2 as (Hl2 & Hr2 & _). unfold blit in Eb. case_match; [|done]. injection Eb as <-.
    rewrite store8_total by (unfold mlen; lia). f_equal.
    rewrite <- (take_drop_middle (buffer s2) (Z.to_nat (buf_pos s2)) (nth (Z.to_nat (buf_pos s2)) (buffer s2) 0)) at 1.
    - rewrite insert_app_r_alt by (rewrite length_take; lia). rewrite length_take.
      replace (_ - _)%nat with 0%nat by lia. cbn. by rewrite Nat.add_1_r.
    - destruct (lookup_lt_is_Some_2 (buffer s2) (Z.to_nat (buf_pos s2))) as [x Hx]; [lia|].
      rewrite Hx. f_equal. symmetry. by apply nth_lookup_Some. }
  rewrite (sm_bind_Done _ _ s2 b s2) by (unfold sm_lift; by rewrite Es).
  do 2 step. eexists. split; [reflexivity|]. split; [exact Hokb|].
  change (buf_pos s2 + 1) with (buf_pos s2 + mlen [u8 c]).
  rewrite (seen_kernel b _ (kernel s2)) by apply set_log.
  cbn [buf_pos buffer kernel logged produced length]. by rewrite (seen_put _ _ _ _ Ht), Hn2, Hc.
Qed.

Lemma debug_Done formatted s : buf_ok s ->
  exists s', debugHandler formatted s = Done (tt, s') /\ buf_ok s' /\ seen s' = logged [PText formatted] (seen s).
Proof.
  intros Hok. unfold debugHandler. cbn [logged produced]. set (buf := take 511 (until_nul formatted)).
  assert (length buf <= BUF_SIZE)%nat as Hb by (unfold buf; rewrite length_take; unfold BUF_SIZE; lia).
  step. set (s1 := Ship (buffer s) (buf_pos s) (ksceKernelClearEventFlag (Z.lnot SEND_OUT) (kernel s))).
  assert (seen s1 = seen s) as Hc by (destruct s; apply seen_kernel, clear_log).
  destruct (make_room_Done (length buf) s1) as (s2 & E2 & Hok2 & Hp2 & Hn2); [exact Hok|exact Hb|].
  step_by E2. do 2 step.
  destruct (put_bytes s2 buf (ksceKernelSetEventFlag SEND_OUT (kernel s2)) Hok2 Hp2) as (b & Eb & Hokb & Ht).
  rewrite (sm_bind_Done _ _ s2 b s2) by (unfold sm_lift; by rewrite Eb).
  step. eexists. split; [reflexivity|]. split; [exact Hokb|].
  rewrite (seen_kernel b _ (kernel s2)) by apply set_log.
  cbn [buf_pos buffer kernel]. by rewrite (seen_put _ _ _ _ Ht), Hn2, Hc.
Qed.

Lemma dump_Done s : buf_ok s ->
  exists s', shipLogDumpToDisk s = Done (tt, s') /\ buf_ok s' /\ seen s' = logged [PDump] (seen s).
Proof.
  intros (Hl & Hp & Hz). unfold shipLogDumpToDisk. step.
  destruct (slice_total (buffer s) 0 (Z.to_nat (buf_pos s))) as [bs Hbs]; [lia|unfold mlen; lia|].
  destruct (log_write_at_Done _ _ _ _ Hbs) as (w & E & Hw & Hk). step_by E.
  eexists. split; [reflexivity|]. split; [apply cleared_ok|].
  cbn [logged]. unfold seen, content. cbn [kernel buf_pos Z.to_nat take]. rewrite Hk, Hw.
  by apply slice_inv in Hbs as (_ & _ & ->).
Qed.

Lemma logged_cons p ps v : logged (p :: ps) v = logged ps (logged [p] v).
Proof. destruct v as [[k f] buf], p; cbn [logged]; try done; by destruct (roomy _ _) as [[? ?] ?]. Qed.

(** While the file opens, only NUL bytes are added. *)
Lemma logged_nonzero ps : (forall n, opens n = true) -> forall v,
  nonzero ((logged ps v).1.2 ++ (logged ps v).2) = nonzero (v.1.2 ++ v.2 ++ (ps ≫= produced)).
Proof.
  intros Ho. induction ps as [|p ps IH]; intros [[k f] buf]; [by cbn; rewrite app_nil_r|].
  rewrite logged_cons, IH. change ((p :: ps) ≫= produced) with (produced p ++ (ps ≫= produced)).
  rewrite !nonzero_app, !app_assoc. f_equal.
  destruct p; cbn [logged]; unfold roomy; try destruct (BUF_SIZE <? _)%nat; unfold file_after; rewrite ?Ho; cbn [fst snd produced];
    rewrite ?nonzero_app, ?(nonzero_zeros (replicate _ _)) by (by apply Forall_replicate);
    change (nonzero []) with (@nil Z); rewrite ?app_nil_r, ?app_assoc, ?app_nil_r; done.
Qed.

(** C34: Whatever sequence of characters, texts and dumps the plugin handles,
    the buffer is never overrun, and the file and the buffer hold exactly what
    [logged] says: every byte that was produced, in order, is put behind the
    others in the buffer; when the next text does not fit, the whole buffer is
    appended to the file, NUL bytes behind the last byte included; a dump
    appends what was collected.  When the file does not open for this, the
    buffer is lost.  So if it always opens, the file followed by the buffer
    holds everything produced, with only NUL bytes added. *)
Theorem producers_keep_everything ps s : buf_ok s ->
  exists s', produce_all ps s = Done (tt, s') /\ buf_ok s' /\ seen s' = logged ps (seen s) /\
    ((forall n, opens n = true) ->
      nonzero (log_file (kernel s') ++ content s') =
      nonzero (log_file (kernel s) ++ content s ++ (ps ≫= produced))).
Proof.
  intros Hok. assert (exists s', produce_all ps s = Done (tt, s') /\ buf_ok s' /\ seen s' = logged ps (seen s))
    as (s' & E & Hok' & Hs).
  { revert s Hok. induction ps as [|p ps IH]; intros s Hok; cbn [produce_all]; [by exists s|].
    assert (exists s1, produce_one p s = Done (tt, s1) /\ buf_ok s1 /\ seen s1 = logged [p] (seen s)) as (s1 & E & Hok1 & Hn).
    { destruct p as [c|f|]; cbn [produce_one].
      - destruct (putchar_Done c s Hok) as (s1 & E & H). exists s1. by rewrite (sm_bind_Done _ _ _ _ _ E).
      - by apply debug_Done.
      - by apply dump_Done. }
    step_by E. destruct (IH s1 Hok1) as (s' & E' & Hok' & Hn'). exists s'. split; [done|]. split; [done|].
    by rewrite Hn', Hn, <- logged_cons. }
  exists s'. do 3 (split; [done|]). intros Ho. pose proof (logged_nonzero ps Ho (seen s)) as H.
  rewrite <- Hs in H. exact H.
Qed.
End LogProps.

(** ** Sending *)

Section NetProps.
Context {W : Type} `{!LogKernel W, !ShipNet W}.
Implicit Types (n : netdbg) (s : shiplog W).

(** One round of the loop when nothing is logged to the file *)
Lemma send_loop_round fuel sent n s data ret w :
  sent < buf_pos s -> slice (buffer s) sent (Z.to_nat (buf_pos s)) = Done data -> fileLog n = 0 ->
  ksceNetSend (_dbgsock n) data (kernel s) = (ret, w) ->
  send_loop (S fuel) sent (n, s) =
    if ret <? 0 then Done (tt, (set_connected false n, Ship (buffer s) (buf_pos s) w))
    else send_loop fuel (sent + ret) (n, Ship (buffer s) (buf_pos s) w).
Proof.
  intros Hlt Hs Hfl Hsend. cbn [send_loop].
  unfold mbind, sm_bind, on_log, bufLength, sm_gets, get_net, ncall, sm_lift, sm_modify, mret, sm_ret.
  cbn [mbind run_bind fst snd]. replace (sent <? buf_pos s) with true by lia.
  cbn [mbind run_bind]. rewrite Hs. cbn [mbind run_bind fst]. unfold sm_gets, on_log. cbn [fst].
  rewrite Hsend. cbn [mbind run_bind fst kernel buffer buf_pos]. rewrite Hfl. cbn [negb Z.eqb].
  by destruct (ret <? 0).
Qed.

(** After a partial send of [k] of the [len] bytes in the buffer, the loop
    sends [len] bytes again, not the [len - k] left: behind the rest of the
    text it sends the [k] bytes that follow it in the buffer, and when they do
    not fit in the buffer it reads behind its end. *)
Theorem partial_send_overreads fuel n s k w :
  let len := buf_pos s in
  length (buffer s) = BUF_SIZE -> 0 < k < len -> len <= Z.of_nat BUF_SIZE ->
  fileLog n = 0 -> ksceNetSend (_dbgsock n) (take (Z.to_nat len) (buffer s)) (kernel s) = (k, w) ->
  send_loop (S (S fuel)) 0 (n, s) =
    if k + len <=? Z.of_nat BUF_SIZE then
      let data := drop (Z.to_nat k) (take (Z.to_nat len) (buffer s)) ++
                  take (Z.to_nat k) (drop (Z.to_nat len) (buffer s)) in
      let '(ret, w) := ksceNetSend (_dbgsock n) data w in
      if ret <? 0 then Done (tt, (set_connected false n, Ship (buffer s) len w))
      else send_loop fuel (k + ret) (n, Ship (buffer s) len w)
    else Fault FMem.
Proof.
  intros len Hl Hk Hlen Hfl Hsend.
  assert (slice (buffer s) 0 (Z.to_nat len) = Done (take (Z.to_nat len) (buffer s))) as Hs0.
  { unfold slice, mlen. replace (_ && _) with true by lia. change (Z.to_nat 0) with 0%nat. by rewrite drop_0. }
  rewrite (send_loop_round _ 0 n s _ k w ltac:(unfold len in *; lia) Hs0 Hfl Hsend).
  replace (k <? 0) with false by lia. rewrite Z.add_0_l.
  set (s1 := Ship (buffer s) (buf_pos s) w).
  destruct (Z.leb_spec (k + len) (Z.of_nat BUF_SIZE)) as [Hfit|Hfit].
  - assert (slice (buffer s1) k (Z.to_nat (buf_pos s1)) =
      Done (drop (Z.to_nat k) (take (Z.to_nat len) (buffer s)) ++
            take (Z.to_nat k) (drop (Z.to_nat len) (buffer s)))) as Hs1.
    { unfold slice, mlen. cbn [buffer buf_pos s1]. fold len. replace (_ && _) with true by lia.
      f_equal. rewrite <- (take_drop (Z.to_nat len) (buffer s)) at 1.
      rewrite drop_app_le by (rewrite length_take; lia).
      rewrite take_app_ge by (rewrite length_drop, length_take; lia). do 2 f_equal.
      rewrite length_drop, length_take. lia. }
    cbv zeta. match goal with |- context [ksceNetSend ?a ?d w] =>
      destruct (ksceNetSend a d w) as [ret w2] eqn:E2 end.
    rewrite (send_loop_round _ k n s1 _ ret w2 ltac:(cbn [buf_pos s1]; unfold len in *; lia) Hs1 Hfl E2).
    done.
  - assert (slice (buffer s1) k (Z.to_nat (buf_pos s1)) = Fault FMem) as Hs1.
    { unfold slice, mlen. cbn [buffer buf_pos s1]. fold len. by replace (_ && _) with false by lia. }
    cbn [send_loop]. unfold mbind, sm_bind, on_log, bufLength, sm_gets, sm_lift. cbn [mbind run_bind].
    replace (k <? buf_pos s1) with true by (cbn [buf_pos s1]; unfold len in *; lia).
    cbn [mbind run_bind]. by rewrite Hs1.
Qed.
End NetProps.

(** ** Settings *)

Lemma setIP_zero ip s : (length ip < ip_size)%nat -> Forall (fun b => b <> 0) ip ->
  _ip (setIP ip s) = ip ++ 0 :: replicate (ip_size - length ip - 1) 0.
Proof.
  intros Hl Hip. unfold setIP, strncpy. cbn [_ip]. rewrite until_nul_id by done.
  rewrite take_ge by lia. f_equal. destruct (ip_size - length ip)%nat as [|k] eqn:E; [lia|].
  cbn [replicate]. by rewrite Nat.sub_succ, Nat.sub_0_r.
Qed.

Lemma getIP_ext s s' : _ip s = _ip s' -> getIP s = getIP s'.
Proof. unfold getIP. by intros ->. Qed.

(** The address field holds fourteen characters: up to that length
    [getIP] gives back what [setIP] stored, and with the fifteen characters of
    an address such as 192.168.100.100 it copies on behind the field. *)
Theorem setIP_getIP ip s : Forall (fun b => b <> 0) ip ->
  getIP (setIP ip s) = if (length ip <? ip_size)%nat then Done ip else Fault FMem.
Proof.
  intros Hip. unfold getIP. destruct (Nat.ltb_spec (length ip) ip_size).
  - rewrite setIP_zero by done. rewrite bool_decide_eq_true_2.
    + by rewrite until_nul_app.
    + apply elem_of_app. right. by left.
  - rewrite bool_decide_eq_false_2; [done|]. unfold setIP, strncpy. cbn [_ip].
    rewrite until_nul_id by done. rewrite length_take.
    replace (ip_size - _)%nat with 0%nat by lia. rewrite app_nil_r.
    intros Hin. eapply Forall_forall in Hin; [|apply Forall_take; exact Hip]. done.
Qed.

Section ConfigProps.
Context {W : Type} `{!ShipOs W}.

(** Round trip: settings with an address of at most fourteen characters
    that were saved are loaded again, given that the address conversions are
    inverse on it. *)
Theorem shiplog_config_roundtrip ip addr port net file upd s0 w w' :
  Forall (fun b => b <> 0) ip -> (length ip < ip_size)%nat ->
  sceNetInetPton ip = Some addr -> 0 <= addr < 2 ^ 32 ->
  (forall buf, length buf = ip_size -> exists rest, sceNetInetNtop addr buf = ip ++ 0 :: rest) ->
  length (stack_array ip_size w') = ip_size ->
  - 2 ^ 31 <= port < 2 ^ 31 -> - 2 ^ 31 <= net < 2 ^ 31 -> - 2 ^ 31 <= file < 2 ^ 31 ->
  let s := setIP ip (Set_ [] port upd net file) in
  saveConfig s w = Done (write_config (config_bytes net file addr port) w) /\
  (read_config sizeof_config_file w' = Some (16, config_bytes net file addr port) ->
   exists s', loadConfig s0 w' = Done (0, s') /\ _port s' = port /\ _isNet s' = net /\
     _isFile s' = file /\ getIP s' = Done ip).
Proof.
  intros Hip Hl Hpton Haddr Hntop Hst Hport Hnet Hfile s.
  assert (getIP s = Done ip) as Hget.
  { unfold s, getIP. rewrite setIP_zero by done. rewrite bool_decide_eq_true_2.
    - by rewrite until_nul_app.
    - apply elem_of_app. right. by left. }
  split.
  - unfold saveConfig. rewrite Hget. cbn [mbind run_bind]. by rewrite Hpton.
  - intros Hread. unfold loadConfig. rewrite Hread. cbn [Z.ltb Z.compare].
    assert (length (config_bytes net file addr port) = 16%nat) as Hlen
      by (unfold config_bytes; rewrite !length_app, !length_le; done).
    rewrite Hlen. change (sizeof_config_file - 16)%nat with 0%nat. cbn [replicate]. rewrite app_nil_r.
    pose proof (load_le_le 4 [] net (le 4 file ++ le 4 addr ++ le 4 port)) as E1.
    pose proof (load_le_le 4 (le 4 net) file (le 4 addr ++ le 4 port)) as E2.
    pose proof (load_le_le 4 (le 4 net ++ le 4 file) addr (le 4 port)) as E3.
    pose proof (load_le_le 4 (le 4 net ++ le 4 file ++ le 4 addr) port []) as E4.
    rewrite app_nil_r, <- !app_assoc in E4. rewrite <- !app_assoc in E3. cbn [app] in E1.
    change (mlen []) with 0 in E1. change (mlen (le 4 net)) with 4 in E2.
    change (mlen (le 4 net ++ le 4 file)) with 8 in E3.
    change (mlen (le 4 net ++ le 4 file ++ le 4 addr)) with 12 in E4.
    unfold config_bytes. rewrite E1, E2, E3, E4. cbn [mbind run_bind].
    change (256 ^ Z.of_nat 4) with (2 ^ 32). rewrite (Z.mod_small addr) by lia.
    destruct (Hntop (stack_array ip_size w') Hst) as [rest ->].
    assert (forall x, - 2 ^ 31 <= x < 2 ^ 31 -> s32 (x mod 2 ^ 32) = x) as Hs32.
    { intros x Hx. rewrite <- (s32_small x Hx) at 2. unfold s32. change (x mod 2 ^ 32) with (u32 x).
      by rewrite u32_idem. }
    eexists. split; [reflexivity|]. unfold setPort, setNet, setFile, setIP. cbn.
    rewrite !Hs32 by done. split_and!; [done..|].
    rewrite <- Hget. apply getIP_ext. unfold s, setIP, strncpy. cbn [_ip].
    by rewrite until_nul_app, until_nul_id.
Qed.
End ConfigProps.

(** ** The menu *)

Section MenuProps.
Context {W : Type} `{!ShipOs W}.
Implicit Types s : shipapp W.

(** A page that exists, a selection that is on it; while a dialog is shown, the
    number of lines kept from the last drawn page is at most that of page 1. *)
Definition menu_ok s : Prop :=
  page s ∈ [0; 1; 4] /\ 1 <= pos s <= renderMenu (page s) /\
  (shown_dial s <> 0 -> page s <> 4 /\ maxpos s <= 4).

(** A state whose selection and page are those of another *)
Definition same_place s s' : Prop :=
  page s' = page s /\ pos s' = pos s /\ maxpos s' = maxpos s.

Lemma press_save_place s a s' : press_save s = Done (a, s') -> same_place s s' /\ shown_dial s' = shown_dial s.
Proof. unfold press_save. destruct (saveConfig _ _); cbn; [by intros [= <- <-]|done..]. Qed.
Lemma press_ip_place s a s' : press_ip s = Done (a, s') -> same_place s s'.
Proof. unfold press_ip. destruct (getIP _); cbn; [by intros [= <- <-]|done..]. Qed.
Lemma press_port_place s a s' : press_port s = Done (a, s') -> same_place s s'.
Proof. unfold press_port. case_match; [done|by intros [= <- <-]]. Qed.

(** Where the button that selects leads *)
Lemma press_cross_moves s a s' : press_cross s = Done (a, s') ->
  maxpos s' = maxpos s /\
  (page s' = page s /\ pos s' = pos s /\ (shown_dial s' = shown_dial s \/ page s = 1) \/
   page s = 0 /\ page s' = 1 /\ pos s' = 1 /\ shown_dial s' = shown_dial s \/
   page s <> 0 /\ page s' = 0 /\ pos s' = 2 /\ shown_dial s' = shown_dial s).
Proof.
  unfold press_cross. do 2 (erewrite sm_bind_Done by reflexivity).
  set (m := if page s =? 0 then _ else _). intros E.
  destruct (sm_bind_ends _ _ _ _ E) as ([] & s1 & E1 & E2). injection E2 as _ <-.
  cbn [page pos maxpos shown_dial set_sys].
  clear E. revert E1. unfold m, cross_main, cross_network. clear m.
  repeat case_match; intros E1;
    repeat match goal with H : (_ =? _) = true |- _ => apply Z.eqb_eq in H
                         | H : (_ =? _) = false |- _ => apply Z.eqb_neq in H
                         | H : _ && _ = true |- _ => apply andb_prop in H as [? ?] end;
    try (injection E1 as <-; cbn; split; [done|]; tauto);
    first [ destruct (press_save_place _ _ _ E1) as ((-> & -> & ->) & ->)
          | destruct (press_ip_place _ _ _ E1) as (-> & -> & ->)
          | destruct (press_port_place _ _ _ E1) as (-> & -> & ->) ]; (split; [done|]; tauto).
Qed.

(** Where the other buttons lead *)
Lemma handleInput_moves buttons max s a s' :
  handleInput buttons max s = Done (a, s') -> exists s1,
  (s1 = s \/ exists b, press_cross s = Done (b, s1)) /\
  maxpos s' = maxpos s1 /\ shown_dial s' = shown_dial s1 /\
  (page s' = page s1 /\ pos s' = pos s1 \/
   page s' = page s1 /\ pos s1 < max /\ pos s' = pos s1 + 1 \/
   page s' = page s1 /\ 1 < pos s1 /\ pos s' = pos s1 - 1 \/
   0 < page s1 /\ page s' = 0 /\ pos s' = page s1 + 1).
Proof.
  unfold handleInput. set (m := if held buttons SCE_CTRL_CROSS then press_cross else mret tt).
  intros ([] & s1 & E1 & E)%sm_bind_ends. exists s1. split.
  { unfold m in E1. destruct (held _ SCE_CTRL_CROSS); [by eauto|injection E1 as <-; auto]. }
  do 2 (erewrite sm_bind_Done in E by reflexivity). revert E.
  destruct (held buttons SCE_CTRL_DOWN && (pos s1 <? max)) eqn:Hd.
  { erewrite sm_bind_Done by reflexivity. intros [= <- <-]. cbn. apply andb_prop in Hd as [_ Hd]. lia. }
  destruct (held buttons SCE_CTRL_UP && (1 <? pos s1)) eqn:Hu.
  { erewrite sm_bind_Done by reflexivity. intros [= <- <-]. cbn. apply andb_prop in Hu as [_ Hu]. lia. }
  destruct (held buttons SCE_CTRL_CIRCLE && (0 <? page s1)) eqn:Hc.
  { erewrite sm_bind_Done by reflexivity. intros [= <- <-]. cbn. apply andb_prop in Hc as [_ Hc]. lia. }
  intros [= <- <-]. tauto.
Qed.

Lemma handleInput_ok buttons s a s' :
  menu_ok s -> shown_dial s = 0 -> maxpos s <= renderMenu (page s) ->
  handleInput buttons (maxpos s) s = Done (a, s') -> menu_ok s'.
Proof.
  intros (Hp & Hq & _) Hd Hm E. rewrite !elem_of_cons, elem_of_nil in Hp.
  destruct (handleInput_moves _ _ _ _ _ E) as (s1 & H1 & Em & Ed & H2).
  assert (maxpos s1 = maxpos s /\
    (page s1 = page s /\ pos s1 = pos s /\ (shown_dial s1 = shown_dial s \/ page s = 1) \/
     page s = 0 /\ page s1 = 1 /\ pos s1 = 1 /\ shown_dial s1 = shown_dial s \/
     page s <> 0 /\ page s1 = 0 /\ pos s1 = 2 /\ shown_dial s1 = shown_dial s)) as [Em1 H].
  { destruct H1 as [->|[b H1]]; [tauto|by eapply press_cross_moves]. }
  clear H1 E. unfold menu_ok. rewrite Em, Ed, Em1, !elem_of_cons, elem_of_nil.
  assert (renderMenu 0 = 5 /\ renderMenu 1 = 4 /\ renderMenu 4 = 1) as (R0 & R1 & R4) by done.
  destruct Hp as [Hp|[Hp|[Hp|[]]]]; rewrite Hp in *; rewrite ?R0, ?R1, ?R4 in *;
    destruct H as [H|[H|H]]; destruct H2 as [H2|[H2|[H2|H2]]];
    try lia; destruct_and?; repeat match goal with H : page _ = _ |- _ => rewrite H in * end;
    rewrite ?R0, ?R1, ?R4; lia.
Qed.

Lemma handleDialog_ok st s a s' : menu_ok s -> handleDialog st s = Done (a, s') -> menu_ok s' /\ same_place s s'.
Proof.
  intros Hok. assert (menu_ok (set_dial 0 s)) as Hc by (by destruct Hok as (? & ? & ?)).
  destruct st as [| |text]; cbn [handleDialog]; [by intros [= <- <-]..|].
  intros (t & s1 & E1 & E)%sm_bind_ends. unfold sm_lift in E1.
  destruct (oslOskGetText text) as [t'| |]; [|done..]. injection E1 as <- <-. revert E.
  do 2 (erewrite sm_bind_Done by reflexivity). repeat case_match; by intros [= <- <-].
Qed.

(** Every frame of the application leaves the menu on a page that exists
    with a selection that is one of its lines, whatever buttons are held at
    once and whatever the dialog returns, although the number of lines it
    compares with is the one of the page drawn before the button was
    handled. *)
Theorem frame_menu_ok buttons st s s' :
  menu_ok s -> frame buttons st s = Done (tt, s') -> menu_ok s'.
Proof.
  intros Hok. unfold frame. erewrite sm_bind_Done by reflexivity.
  intros ([] & s1 & E1 & E)%sm_bind_ends.
  assert (menu_ok s1 /\ (shown_dial s1 = 0 -> maxpos s1 <= renderMenu (page s1))) as [Hok1 Hm1].
  { destruct (Z.eqb_spec (shown_dial s) 0) as [E0|E0]; cbn [negb] in E1.
    - injection E1 as <-. destruct Hok as (? & ? & ?). split; [|cbn; lia].
      split; [done|]. split; [done|]. by intros [].
    - destruct (handleDialog_ok _ _ _ _ Hok E1) as (Hok1 & -> & _ & ->). split; [done|]. intros _.
      destruct Hok as (Hp & _ & H4). rewrite !elem_of_cons, elem_of_nil in Hp.
      destruct H4 as [H4 H5]; [done|]. destruct Hp as [Hp|[Hp|[Hp|[]]]]; [|  |done]; rewrite Hp; cbn; lia. }
  erewrite sm_bind_Done in E by reflexivity. revert E.
  destruct ((shown_dial s1 =? 0) && negb (buttons =? 0)) eqn:Eb; [|by intros [= <-]].
  apply andb_prop in Eb as [Eb%Z.eqb_eq _]. erewrite sm_bind_Done by reflexivity.
  intros E. by eapply handleInput_ok; eauto.
Qed.

(** The application starts in such a state. *)
Lemma ship_start_ok w s : ship_start w = Done s -> menu_ok s.
Proof.
  unfold ship_start. destruct (loadConfig _ _) as [[r c]| |]; cbn [mbind run_bind]; [|done..].
  destruct (r <? 0).
  - destruct (saveConfig _ _); cbn [mbind run_bind]; [|done..]. intros [= <-].
    split; [by repeat constructor|]. split; [cbn; lia|]. by intros [].
  - intros [= <-]. split; [by repeat constructor|]. split; [cbn; lia|]. by intros [].
Qed.
End MenuProps.

(** ** Concrete kernels *)

Module SimShip.
(** A file of the log, what was sent, the configuration file; a connection that
    takes three bytes at a time *)
Record harbour := Harbour { h_log : mem; h_sent : list mem; h_config : mem; h_opened : nat }.

#[export] Instance sim_log : LogKernel harbour := {|
  ksceIoMkdir_dump w := w;
  ksceIoOpen_log w := (3, Harbour (h_log w) (h_sent w) (h_config w) (S (h_opened w)));
  ksceIoWrite fd data w := Harbour (h_log w ++ data) (h_sent w) (h_config w) (h_opened w);
  ksceIoClose fd w := w;
  ksceKernelClearEventFlag bits w := w;
  ksceKernelSetEventFlag bits w := w;
|}.

#[export] Instance sim_log_disk : LogDisk harbour.
Proof. by refine {| log_file := h_log; openings := h_opened; opens n := true |}. Defined.

#[export] Instance sim_ship_net : ShipNet harbour := {|
  ksceNetSocketClose sock w := w;
  ksceNetSocket w := (7, w);
  ksceNetConnect sock w := (0, w);
  ksceNetSend sock data w := (Z.min 3 (mlen data), Harbour (h_log w) (h_sent w ++ [data]) (h_config w) (h_opened w));
  ksceKernelDelayThread us w := w;
  ksceKernelWaitEventFlag bits w := w;
|}.

Definition home : mem := bytes_of "10.0.0.7".

#[export] Instance sim_ship_os : ShipOs harbour := {|
  sceNetInetPton text := if bool_decide (text = home) then Some 0x0700000a else None;
  sceNetInetNtop a buf := if a =? 0x0700000a then home ++ 0 :: drop 9 buf else buf;
  read_config n w := Some (Z.min (Z.of_nat n) (mlen (h_config w)), take n (h_config w));
  write_config bs w := Harbour (h_log w) (h_sent w) bs (h_opened w);
  stack_array n w := replicate n 0xcc;
  sceIoMkdir w := w;
  call_shipLogDumpToDisk w := w;
  sceKernelDelayThread us w := w;
  SCE_CTRL_CROSS := 0x4000;
  SCE_CTRL_DOWN := 0x40;
  SCE_CTRL_UP := 0x10;
  SCE_CTRL_CIRCLE := 0x2000;
|}.

Definition port0 : harbour := Harbour [] [] [] 0.
End SimShip.
Import SimShip.

Lemma producers_keep_everything_witness : exists s',
  produce_all [PChar 65; PText [66; 67; 0; 68]; PDump; PChar 69]
    (Ship (replicate BUF_SIZE 0) 0 port0) = Done (tt, s') /\
  seen s' = (1%nat, [65; 66; 67], [69]) /\ nonzero (log_file (kernel s') ++ content s') = [65; 66; 67; 69].
Proof.
  destruct (producers_keep_everything [PChar 65; PText [66; 67; 0; 68]; PDump; PChar 69]
    (Ship (replicate BUF_SIZE 0) 0 port0)) as (s' & E & _ & Hs & H); [apply cleared_ok|].
  exists s'. split; [exact E|]. split; [|rewrite H by done; reflexivity].
  rewrite Hs. unfold seen, content. cbn [kernel buf_pos Z.to_nat take log_file openings sim_log_disk port0 h_log h_opened].
  reflexivity.
Defined.

(** Of the text ABCDE three bytes are sent; then DE and three bytes that are
    no text. *)
Lemma partial_send_overreads_witness :
  let s := Ship ([65; 66; 67; 68; 69] ++ replicate (BUF_SIZE - 5) 0) 5 port0 in
  send_loop 3 0 (NetDbg 7 true 1 0, s) =
    Done (tt, (NetDbg 7 true 1 0, Ship (buffer s) 5
      (Harbour [] [[65; 66; 67; 68; 69]; [68; 69; 0; 0; 0]] [] 0))).
Proof.
  intros s. rewrite (partial_send_overreads 1 (NetDbg 7 true 1 0) s 3
    (Harbour [] [[65; 66; 67; 68; 69]] [] 0)).
  - reflexivity.
  - unfold s. cbn [buffer]. rewrite length_app, length_replicate. reflexivity.
  - cbn. lia.
  - unfold BUF_SIZE. cbn [buf_pos s]. lia.
  - reflexivity.
  - reflexivity.
Defined.

Lemma setIP_getIP_witness :
  getIP (setIP home settings_static) = Done home /\
  getIP (setIP (bytes_of "192.168.100.100") settings_static) = Fault FMem.
Proof.
  split.
  - rewrite (setIP_getIP home); [reflexivity|]. repeat (constructor; [vm_compute; discriminate|]). constructor.
  - rewrite (setIP_getIP (bytes_of "192.168.100.100")); [reflexivity|].
    repeat (constructor; [vm_compute; discriminate|]). constructor.
Defined.

Lemma shiplog_config_roundtrip_witness : exists s',
  let w := Harbour [] [] (config_bytes 1 0 0x0700000a 3333) 0 in
  saveConfig (setIP home (Set_ [] 3333 1 1 0)) port0 = Done w /\
  loadConfig settings_static w = Done (0, s') /\ _port s' = 3333 /\ getIP s' = Done home.
Proof.
  destruct (shiplog_config_roundtrip home 0x0700000a 3333 1 0 1 settings_static port0
    (Harbour [] [] (config_bytes 1 0 0x0700000a 3333) 0)) as [Hs Hl].
  - repeat (constructor; [vm_compute; discriminate|]). constructor.
  - vm_compute. lia.
  - reflexivity.
  - lia.
  - intros buf _. by exists (drop 9 buf).
  - reflexivity.
  - lia.
  - lia.
  - lia.
  - destruct (Hl eq_refl) as (s' & E & Hp & _ & _ & Hg). exists s'. split; [exact Hs|].
    split; [exact E|]. split; [exact Hp|exact Hg].
Defined.

(** All four buttons at once on the network line of the main page *)
Lemma frame_menu_ok_witness : exists s',
  frame 0x6050 Closed (ShipApp 0 2 1 0 settings_static (EmptyString, [], 0) port0) = Done (tt, s') /\
  menu_ok s' /\ page s' = 1 /\ pos s' = 2.
Proof.
  eexists. split; [vm_compute; reflexivity|].
  split; [|split; reflexivity].
  apply (frame_menu_ok 0x6050 Closed (ShipApp 0 2 1 0 settings_static (EmptyString, [], 0) port0));
    [|vm_compute; reflexivity].
  split; [repeat constructor|]. split; [cbn; lia|by intros []].
Defined.
