(* ===== verification/FagMenu.v ===== *)
(** * The menus of FAGDec (FAGDec/src/app/menu.c, main.c)

    A menu is a doubly linked list of entries on the heap, with a pointer to
    the selected one.  The heap is a finite map from addresses to entries; a
    pointer that is not in it has been freed, and following one is a fault.
    [menu_holds] relates a heap to the list of its entries, and the theorems
    say what each operation does to that list. *)

From stdpp Require Import prelude gmap strings.
From S2P Require Import Prelude Bytes CString Hoare.

(** ** Data (menu.h) *)

Inductive MenuDrawType := MENU_TITLE | MENU_SUBTITLE | MENU_NORMAL.
Inductive MenuType :=
  | MENU_NONE | MENU_WARNING | MENU_BAD | MENU_ENTER | MENU_BACK | MENU_CANCEL | MENU_START | MENU_DISABLE.
Inductive MenuPaneSide := PANE_LEFT | PANE_RIGHT | PANE_FULLSCREEN.
Inductive MenuDir := MENU_UP | MENU_DOWN.

#[export] Instance MenuDrawType_eq_dec : EqDecision MenuDrawType.
Proof. solve_decision. Defined.
#[export] Instance MenuType_eq_dec : EqDecision MenuType.
Proof. solve_decision. Defined.

(** [click_cb] is the number of a callback function. *)
Record MenuEntry := Entry {
  draw_type : MenuDrawType;
  type : MenuType;
  entry_active : Z;
  index : Z;
  text : mem;
  click_cb : option Z;
  next : option positive;
  prev : option positive;
}.

Definition set_type t e := Entry (draw_type e) t (entry_active e) (index e) (text e) (click_cb e) (next e) (prev e).
Definition set_index i e := Entry (draw_type e) (type e) (entry_active e) i (text e) (click_cb e) (next e) (prev e).
Definition set_next p e := Entry (draw_type e) (type e) (entry_active e) (index e) (text e) (click_cb e) p (prev e).
Definition set_prev p e := Entry (draw_type e) (type e) (entry_active e) (index e) (text e) (click_cb e) (next e) p.

Abbreviation heap := (gmap positive MenuEntry).

Record Menu := MenuRec {
  menu_active : Z;
  visible : Z;
  entry_index : Z;
  entry_top : Z;
  entry_bottom : Z;
  entry_selected : option positive;
  pane : MenuPaneSide;
  entry_start : option positive;
  entry_end : option positive;
  entries : heap;       (** the entries allocated for this menu *)
}.

Definition set_active a m := MenuRec a (visible m) (entry_index m) (entry_top m) (entry_bottom m)
  (entry_selected m) (pane m) (entry_start m) (entry_end m) (entries m).
Definition set_entry_index i m := MenuRec (menu_active m) (visible m) i (entry_top m) (entry_bottom m)
  (entry_selected m) (pane m) (entry_start m) (entry_end m) (entries m).
Definition set_top t m := MenuRec (menu_active m) (visible m) (entry_index m) t (entry_bottom m)
  (entry_selected m) (pane m) (entry_start m) (entry_end m) (entries m).
Definition set_selected p m := MenuRec (menu_active m) (visible m) (entry_index m) (entry_top m) (entry_bottom m)
  p (pane m) (entry_start m) (entry_end m) (entries m).
Definition set_view p v m := MenuRec (menu_active m) v (entry_index m) (entry_top m) (entry_bottom m)
  (entry_selected m) p (entry_start m) (entry_end m) (entries m).
Definition set_start p m := MenuRec (menu_active m) (visible m) (entry_index m) (entry_top m) (entry_bottom m)
  (entry_selected m) (pane m) p (entry_end m) (entries m).
Definition set_end p m := MenuRec (menu_active m) (visible m) (entry_index m) (entry_top m) (entry_bottom m)
  (entry_selected m) (pane m) (entry_start m) p (entries m).
Definition set_entries h m := MenuRec (menu_active m) (visible m) (entry_index m) (entry_top m) (entry_bottom m)
  (entry_selected m) (pane m) (entry_start m) (entry_end m) h.

(** ** The heap *)

Abbreviation M := (SM Menu).

Definition deref (h : heap) (p : positive) : run MenuEntry :=
  match h !! p with Some e => Done e | None => Fault FMem end.
Definition not_null (p : option positive) : run positive :=
  match p with Some p => Done p | None => Fault FNull end.

Definition read (p : positive) : M MenuEntry := h ← sm_gets entries; sm_lift (deref h p).
Definition update (p : positive) (f : MenuEntry -> MenuEntry) : M unit :=
  e ← read p; sm_modify (fun m => set_entries (<[p := f e]> (entries m)) m).
Definition malloc (e : MenuEntry) : M positive := fun m =>
  let p := fresh (dom (entries m)) in Done (p, set_entries (<[p := e]> (entries m)) m).
Definition free (p : positive) : M unit :=
  _ ← read p; sm_modify (fun m => set_entries (delete p (entries m)) m).

(** enough rounds for a loop along the links *)
Definition rounds (h : heap) : nat := S (size h).

(** ** Operations (menu.c) *)

Definition MenuCreate (pane : MenuPaneSide) : Menu := MenuRec 0 1 0 0 0 None pane None None ∅.

(** [while(menu_entry->next != NULL) { ... }] of [MenuDelete] *)
Fixpoint delete_loop (fuel : nat) (p : positive) : M positive :=
  match fuel with
  | O => fun _ => OutOfFuel
  | S fuel' =>
      e ← read p;
      match next e with
      | None => mret p
      | Some q =>
          e' ← read q;
          _ ← (match prev e' with Some r => free r | None => mret tt end);
          delete_loop fuel' q
      end
  end.

(** what is left allocated is what was not freed *)
Definition MenuDelete : M unit :=
  p ← sm_gets entry_start;
  p ← sm_lift (not_null p);
  h ← sm_gets entries;
  p ← delete_loop (rounds h) p;
  free p.

Definition text_size : nat := 128.

(** Linking an entry in at the end *)
Definition append_entry (last : option positive) (p : positive) : M unit :=
  _ ← (match last with
       | Some q => update q (set_next (Some p))
       | None =>
           start ← sm_gets entry_start;
           match start with None => sm_modify (set_start (Some p)) | Some _ => mret tt end
       end);
  sm_modify (set_end (Some p)).

Definition MenuAddEntry (dt : MenuDrawType) (t : mem) (cb : option Z) : M positive :=
  last ← sm_gets entry_end;
  i ← sm_gets entry_index;
  p ← malloc (Entry dt MENU_NONE 0 i (strncpy t text_size) cb None last);
  _ ← sm_modify (set_entry_index (i + 1));
  _ ← append_entry last p;
  _ ← (if bool_decide (dt <> MENU_NORMAL) then update p (set_type MENU_DISABLE)
       else
         sel ← sm_gets entry_selected;
         match sel with None => sm_modify (set_selected (Some p)) | Some _ => mret tt end);
  mret p.

Fixpoint find_entry_loop (fuel : nat) (h : heap) (p : option positive) (i : Z) : run (option positive) :=
  match fuel with
  | O => OutOfFuel
  | S fuel' =>
      match p with
      | None => Done None
      | Some p => e ← deref h p; if index e =? i then Done (Some p) else find_entry_loop fuel' h (next e) i
      end
  end.

Definition MenuFindEntry (i : Z) : M (option positive) :=
  n ← sm_gets entry_index;
  if n <? i then mret None
  else p ← sm_gets entry_start; h ← sm_gets entries; sm_lift (find_entry_loop (rounds h) h p i).

Fixpoint find_type_loop (fuel : nat) (h : heap) (p : option positive) (t : MenuType) : run (option positive) :=
  match fuel with
  | O => OutOfFuel
  | S fuel' =>
      match p with
      | None => Done None
      | Some p => e ← deref h p; if bool_decide (type e = t) then Done (Some p) else find_type_loop fuel' h (prev e) t
      end
  end.

Definition MenuFindType (t : MenuType) : M (option positive) :=
  p ← sm_gets entry_end; h ← sm_gets entries; sm_lift (find_type_loop (rounds h) h p t).

(** The loops of [MenuFindNextEntry]; what follows them returns [start]. *)
Definition link (d : MenuDir) (e : MenuEntry) : option positive :=
  match d with MENU_DOWN => next e | MENU_UP => prev e end.

Fixpoint next_entry_loop (fuel : nat) (h : heap) (d : MenuDir) (start p : positive) : run positive :=
  match fuel with
  | O => OutOfFuel
  | S fuel' =>
      e ← deref h p;
      match link d e with
      | None => Done start
      | Some q =>
          e' ← deref h q;
          if bool_decide (type e' <> MENU_DISABLE) then Done q else next_entry_loop fuel' h d start q
      end
  end.

Definition MenuFindNextEntry (start : positive) (d : MenuDir) : M positive :=
  h ← sm_gets entries; sm_lift (next_entry_loop (rounds h) h d start start).

(** [if(menu->entry_selected && ...)]: the assignment in the inner condition
    always gives a pointer, so that the selection is always cleared. *)
Definition move_selection (p : positive) (i : Z) : M unit :=
  sel ← sm_gets entry_selected;
  match sel with
  | None => mret tt
  | Some s =>
      e ← read s;
      if index e =? i then
        q ← MenuFindNextEntry p MENU_UP;
        _ ← sm_modify (set_selected (Some q));
        e ← read q;
        if index e =? i then
          q ← MenuFindNextEntry p MENU_DOWN;
          _ ← sm_modify (set_selected (Some q));
          sm_modify (set_selected None)
        else mret tt
      else mret tt
  end.

(** Taking an entry out of the list; what was behind it *)
Definition unlink (p : positive) : M (option positive) :=
  e ← read p;
  _ ← (match prev e with
       | Some q => update q (set_next (next e))
       | None => sm_modify (set_start (next e))
       end);
  e ← read p;
  _ ← (match next e with
       | Some q => update q (set_prev (prev e))
       | None => sm_modify (set_end (prev e))
       end);
  _ ← free p;
  n ← sm_gets entry_index;
  _ ← sm_modify (set_entry_index (n - 1));
  mret (next e).

Fixpoint delete_entry_loop (fuel : nat) (p : option positive) (i : Z) : M unit :=
  match fuel with
  | O => fun _ => OutOfFuel
  | S fuel' =>
      match p with
      | None => mret tt
      | Some p =>
          e ← read p;
          if index e =? i then
            _ ← move_selection p i;
            q ← unlink p;
            delete_entry_loop fuel' q i
          else
            _ ← (if i <? index e then update p (set_index (index e - 1)) else mret tt);
            e ← read p;
            delete_entry_loop fuel' (next e) i
      end
  end.

Definition MenuDeleteEntry (i : Z) : M unit :=
  n ← sm_gets entry_index;
  if n <? i then mret tt
  else p ← sm_gets entry_start; h ← sm_gets entries; delete_entry_loop (rounds h) p i.

(** ** Drawing and input (draw.c, main.c) *)

(** What [drawMenu] does to the scroll position: the entries drawn, with their
    vertical positions, and the last entry that fits *)
Definition height (d : MenuDrawType) : Z :=
  match d with MENU_NORMAL => 20 | MENU_TITLE => 25 | MENU_SUBTITLE => 15 end.

Fixpoint draw_loop (fuel : nat) (h : heap) (top : Z) (p : option positive) (y bottom : Z)
    : run (list (Z * Z) * Z) :=
  match fuel with
  | O => OutOfFuel
  | S fuel' =>
      match p with
      | None => Done ([], bottom)
      | Some p =>
          e ← deref h p;
          if index e <? top then draw_loop fuel' h top (next e) y bottom
          else
            let bottom := if y + 45 <? 540 then index e else bottom in
            if bottom <? index e then Done ([], bottom)
            else
              let y := y + height (draw_type e) in
              '(drawn, bottom) ← draw_loop fuel' h top (next e) y bottom;
              Done ((index e, y) :: drawn, bottom)
      end
  end.

Definition set_bottom b m := MenuRec (menu_active m) (visible m) (entry_index m) (entry_top m) b
  (entry_selected m) (pane m) (entry_start m) (entry_end m) (entries m).

Definition drawMenu : M (list (Z * Z)) :=
  v ← sm_gets visible;
  if v =? 0 then mret []
  else
    sel ← sm_gets entry_selected;
    top ← sm_gets entry_top;
    top ← (match sel with
           | Some q => e ← read q; mret (if index e <? top then top - 1 else top)
           | None => mret 0
           end);
    let top := if top <? 0 then 0 else top in
    _ ← sm_modify (set_top top);
    p ← sm_gets entry_start; h ← sm_gets entries; bottom ← sm_gets entry_bottom;
    '(drawn, bottom) ← sm_lift (draw_loop (rounds h) h top p 0 bottom);
    _ ← sm_modify (set_bottom bottom);
    _ ← (match sel with
         | Some q => e ← read q; if bottom <? index e then sm_modify (set_top (top + 1)) else mret tt
         | None => mret tt
         end);
    mret drawn.

Class FagPad := {
  SCE_CTRL_UP : Z; SCE_CTRL_DOWN : Z; SCE_CTRL_LEFT : Z; SCE_CTRL_RIGHT : Z;
  SCE_CTRL_CROSS : Z; SCE_CTRL_CIRCLE : Z; SCE_CTRL_START : Z;
}.

Section Input.
Context {pad : FagPad}.
(** A call of the callback function with the given number and index: the menu
    to go on with is the state afterwards. *)
Context (call : Z -> Z -> M unit).

Definition held (buttons b : Z) : bool := negb (Z.land buttons b =? 0).

Definition press_down : M unit :=
  sel ← sm_gets entry_selected; sel ← sm_lift (not_null sel);
  q ← MenuFindNextEntry sel MENU_DOWN;
  _ ← sm_modify (set_selected (Some q));
  e ← read q; bottom ← sm_gets entry_bottom;
  if bottom <? index e then sm_modify (fun m => set_top (entry_top m + 1) m) else mret tt.

Definition press_up : M unit :=
  sel ← sm_gets entry_selected; sel ← sm_lift (not_null sel);
  q ← MenuFindNextEntry sel MENU_UP;
  s ← read sel; e ← read q; top ← sm_gets entry_top;
  if negb (index s =? index e) then
    _ ← sm_modify (set_selected (Some q));
    if index e <? top then sm_modify (set_top (top - 1)) else mret tt
  else if 0 <? index e then sm_modify (set_top (top - 1)) else mret tt.

Definition press_cross : M unit :=
  sel ← sm_gets entry_selected; sel ← sm_lift (not_null sel);
  e ← read sel;
  _ ← (match click_cb e with Some cb => call cb (index e) | None => mret tt end);
  sm_modify (set_active 1).

(** circle and start run the last entry of their type *)
Definition press_type (t : MenuType) : M unit :=
  p ← MenuFindType t;
  _ ← (match p with
       | Some p =>
           e ← read p;
           match click_cb e with Some cb => call cb (index e) | None => mret tt end
       | None => mret tt
       end);
  sm_modify (set_active 1).

Definition when (b : bool) (m : M unit) : M unit := if b then m else mret tt.

(** the delays of the code are left out *)
Definition handleInput (buttons : Z) : M unit :=
  a ← sm_gets menu_active; sel ← sm_gets entry_selected;
  when (negb (a =? 0) && bool_decide (sel <> None))
    (_ ← when (held buttons SCE_CTRL_DOWN) press_down;
     _ ← when (held buttons SCE_CTRL_UP) press_up;
     _ ← when (held buttons SCE_CTRL_CROSS) press_cross;
     _ ← when (held buttons SCE_CTRL_CIRCLE) (press_type MENU_BACK);
     when (held buttons SCE_CTRL_START) (press_type MENU_START)).

(** [MenuDeleteEntry] or the warning, on the right menu *)
Definition mark_or_delete : M unit :=
  sel ← sm_gets entry_selected;
  match sel with
  | None => mret tt
  | Some p =>
      e ← read p;
      if bool_decide (type e = MENU_WARNING) then MenuDeleteEntry (index e)
      else update p (set_type MENU_WARNING)
  end.

Definition handleSpecInput (buttons : Z) (l r : Menu) : run (Menu * Menu) :=
  let l := set_view PANE_LEFT 1 l in
  let r := set_view PANE_RIGHT 1 r in
  let '(l, r) :=
    if held buttons SCE_CTRL_LEFT then
      let '(l, r) :=
        if negb (menu_active l =? 0) then (set_view PANE_FULLSCREEN (visible l) l, set_view (pane r) 0 r)
        else (l, r) in
      (set_active 1 l, set_active 0 r)
    else (l, r) in
  let '(l, r) :=
    if held buttons SCE_CTRL_RIGHT then
      let '(l, r) :=
        if negb (menu_active r =? 0) then (set_view (pane l) 0 l, set_view PANE_FULLSCREEN (visible r) r)
        else (l, r) in
      (set_active 0 l, set_active 1 r)
    else (l, r) in
  if held buttons SCE_CTRL_CIRCLE && negb (menu_active r =? 0) then
    '(_, r) ← mark_or_delete r; Done (l, r)
  else Done (l, r).
End Input.

(** ** The list a menu holds *)

Definition node : Type := MenuDrawType * MenuType * Z * mem * option Z.
Definition data (e : MenuEntry) : node := (draw_type e, type e, entry_active e, text e, click_cb e).
Definition node_type (n : node) : MenuType := let '(_, t, _, _, _) := n in t.

Definition prev_of (ps : list positive) (i : nat) : option positive :=
  match i with O => None | S j => ps !! j end.

(** The addresses [ps] carry the data [ds], linked in order; the indices are
    the positions up to [n] and one more from there on. *)
Record links (h : heap) (ps : list positive) (ds : list node) (n : nat) : Prop := {
  links_nodup : NoDup ps;
  links_length : length ds = length ps;
  links_dom : dom h = list_to_set ps;
  links_at j p : ps !! j = Some p -> exists e, h !! p = Some e /\
    next e = ps !! S j /\ prev e = prev_of ps j /\ ds !! j = Some (data e) /\
    index e = if (j <? n)%nat then Z.of_nat j else Z.of_nat j + 1;
}.

Record menu_holds (m : Menu) (ps : list positive) (ds : list node) : Prop := {
  holds_links : links (entries m) ps ds (length ps);
  holds_start : entry_start m = ps !! 0%nat;
  holds_end : entry_end m = prev_of ps (length ps);
  holds_index : entry_index m = Z.of_nat (length ps);
  holds_selected p : entry_selected m = Some p -> p ∈ ps;
}.

Lemma links_size h ps ds n : links h ps ds n -> size h = length ps.
Proof.
  intros H. rewrite <- size_dom, (links_dom _ _ _ _ H).
  rewrite size_list_to_set by apply (links_nodup _ _ _ _ H). done.
Qed.

Lemma links_deref h ps ds n j p : links h ps ds n -> ps !! j = Some p -> exists e,
  deref h p = Done e /\ next e = ps !! S j /\ prev e = prev_of ps j /\ ds !! j = Some (data e) /\
  index e = (if (j <? n)%nat then Z.of_nat j else Z.of_nat j + 1) /\ h !! p = Some e.
Proof.
  intros H Hj. destruct (links_at _ _ _ _ H j p Hj) as (e & He & H1 & H2 & H3 & H4).
  exists e. unfold deref. rewrite He. done.
Qed.

(** ** Searches *)

Lemma find_entry_loop_at h ps ds k : links h ps ds (length ps) -> forall fuel i,
  (i <= k)%nat -> (length ps - i < fuel)%nat ->
  find_entry_loop fuel h (ps !! i) (Z.of_nat k) = Done (ps !! k).
Proof.
  intros H. induction fuel as [|fuel IH]; intros i Hi Hf; [lia|]. cbn [find_entry_loop].
  destruct (ps !! i) as [p|] eqn:Hp.
  - destruct (links_deref _ _ _ _ _ _ H Hp) as (e & -> & Hn & _ & _ & Hx & _).
    pose proof (lookup_lt_Some _ _ _ Hp). replace (i <? length ps)%nat with true in Hx
      by (symmetry; apply Nat.ltb_lt; done).
    cbn [mbind run_bind]. rewrite Hx. destruct (Z.eqb_spec (Z.of_nat i) (Z.of_nat k)) as [E|E].
    + apply Nat2Z.inj in E as <-. by rewrite Hp.
    + rewrite Hn. apply IH; lia.
  - apply lookup_ge_None in Hp. by rewrite lookup_ge_None_2 by lia.
Qed.

(** The last position before [i] with the given type *)
Fixpoint last_of_type (ds : list node) (t : MenuType) (i : nat) : option nat :=
  match i with
  | O => None
  | S j =>
      match ds !! j with
      | Some d => if bool_decide (node_type d = t) then Some j else last_of_type ds t j
      | None => last_of_type ds t j
      end
  end.

Lemma find_type_loop_at h ps ds t n : links h ps ds n -> forall fuel i,
  (i <= length ps)%nat -> (i < fuel)%nat ->
  find_type_loop fuel h (prev_of ps i) t = Done (last_of_type ds t i ≫= fun j => ps !! j).
Proof.
  intros H. induction fuel as [|fuel IH]; intros i Hi Hf; [lia|]. cbn [find_type_loop].
  destruct i as [|i]; cbn [prev_of last_of_type]; [done|].
  destruct (lookup_lt_is_Some_2 ps i) as [p Hp]; [lia|]. rewrite Hp.
  destruct (links_deref _ _ _ _ _ _ H Hp) as (e & -> & _ & Hv & Hd & _ & _).
  cbn [mbind run_bind]. rewrite Hd. change (node_type (data e)) with (type e).
  destruct (bool_decide (type e = t)); [by cbn; rewrite Hp|]. rewrite Hv. apply IH; lia.
Qed.

(** The nearest entry that can be selected, above and below; the entry itself
    when there is none *)
Fixpoint above (ds : list node) (i : nat) : option nat :=
  match i with
  | O => None
  | S j =>
      match ds !! j with
      | Some d => if bool_decide (node_type d <> MENU_DISABLE) then Some j else above ds j
      | None => above ds j
      end
  end.
Fixpoint below (fuel : nat) (ds : list node) (i : nat) : option nat :=
  match fuel with
  | O => None
  | S fuel' =>
      match ds !! S i with
      | Some d => if bool_decide (node_type d <> MENU_DISABLE) then Some (S i) else below fuel' ds (S i)
      | None => None
      end
  end.

Lemma above_lt ds i j : above ds i = Some j -> (j < i)%nat.
Proof.
  induction i as [|i IH]; cbn [above]; [done|]. repeat case_match; [intros [= <-]; lia|..];
    intros E; specialize (IH E); lia.
Qed.
Lemma below_gt fuel ds i j : below fuel ds i = Some j -> (i < j < length ds)%nat.
Proof.
  revert i. induction fuel as [|fuel IH]; intros i; cbn [below]; [done|].
  destruct (ds !! S i) eqn:E; [|done]. apply lookup_lt_Some in E.
  case_match; [intros [= <-]; lia|]. intros E'. specialize (IH _ E'). lia.
Qed.

Lemma next_up_at h ps ds n start : links h ps ds n -> forall fuel i p,
  ps !! i = Some p -> (i < fuel)%nat ->
  next_entry_loop fuel h MENU_UP start p = Done (default start (above ds i ≫= fun j => ps !! j)).
Proof.
  intros H. induction fuel as [|fuel IH]; intros i p Hp Hf; [lia|]. cbn [next_entry_loop].
  destruct (links_deref _ _ _ _ _ _ H Hp) as (e & -> & _ & Hv & _ & _ & _).
  cbn [mbind run_bind link]. rewrite Hv. destruct i as [|i]; cbn [prev_of above]; [done|].
  pose proof (lookup_lt_Some _ _ _ Hp).
  destruct (lookup_lt_is_Some_2 ps i) as [q Hq]; [lia|]. rewrite Hq.
  destruct (links_deref _ _ _ _ _ _ H Hq) as (e' & -> & _ & _ & Hd & _ & _).
  cbn [mbind run_bind]. rewrite Hd. change (node_type (data e')) with (type e').
  destruct (bool_decide (type e' <> MENU_DISABLE)); [by cbn; rewrite Hq|]. apply IH; [done|lia].
Qed.

Lemma next_down_at h ps ds n start : links h ps ds n -> forall fuel i p,
  ps !! i = Some p -> (length ps - i <= fuel)%nat ->
  next_entry_loop fuel h MENU_DOWN start p = Done (default start (below fuel ds i ≫= fun j => ps !! j)).
Proof.
  intros H. induction fuel as [|fuel IH]; intros i p Hp Hf.
  { apply lookup_lt_Some in Hp. lia. }
  cbn [next_entry_loop below].
  destruct (links_deref _ _ _ _ _ _ H Hp) as (e & -> & Hn & _ & _ & _ & _).
  cbn [mbind run_bind link]. rewrite Hn. destruct (ps !! S i) as [q|] eqn:Hq.
  - destruct (links_deref _ _ _ _ _ _ H Hq) as (e' & -> & _ & _ & Hd & _ & _).
    cbn [mbind run_bind]. rewrite Hd. change (node_type (data e')) with (type e').
    destruct (bool_decide (type e' <> MENU_DISABLE)); [by cbn; rewrite Hq|]. apply IH; [done|lia].
  - apply lookup_ge_None in Hq. rewrite lookup_ge_None_2; [done|]. rewrite (links_length _ _ _ _ H). lia.
Qed.

(** ** Steps on a menu that holds a list *)

Local Ltac step := erewrite sm_bind_Done by reflexivity.
Local Ltac step_by H := rewrite (sm_bind_Done _ _ _ _ _ H).

Lemma read_Done m p e : entries m !! p = Some e -> read p m = Done (e, m).
Proof. intros H. unfold read. step. unfold sm_lift, deref. by rewrite H. Qed.

Lemma update_Done m p e f : entries m !! p = Some e ->
  update p f m = Done (tt, set_entries (<[p := f e]> (entries m)) m).
Proof. intros H. unfold update. by step_by (read_Done _ _ _ H). Qed.

Lemma update_alter m p f : is_Some (entries m !! p) ->
  update p f m = Done (tt, set_entries (alter f p (entries m)) m).
Proof.
  intros [e He]. rewrite (update_Done _ _ _ _ He). do 3 f_equal. apply map_eq. intros x.
  destruct (decide (x = p)) as [->|]; [by rewrite lookup_insert_eq, lookup_alter_eq, He|].
  by rewrite lookup_insert_ne, lookup_alter_ne.
Qed.

Lemma free_Done m p e : entries m !! p = Some e ->
  free p m = Done (tt, set_entries (delete p (entries m)) m).
Proof. intros H. unfold free. by step_by (read_Done _ _ _ H). Qed.

Lemma set_entries_entries m : set_entries (entries m) m = m.
Proof. by destruct m. Qed.

Lemma find_entry_spec m ps ds k : menu_holds m ps ds ->
  MenuFindEntry (Z.of_nat k) m = Done (ps !! k, m).
Proof.
  intros H. unfold MenuFindEntry. step. rewrite (holds_index _ _ _ H).
  destruct (Z.ltb_spec (Z.of_nat (length ps)) (Z.of_nat k)).
  - by rewrite lookup_ge_None_2 by lia.
  - do 2 step. unfold sm_lift. rewrite (holds_start _ _ _ H).
    rewrite (find_entry_loop_at _ _ _ k (holds_links _ _ _ H)) by
      (unfold rounds; rewrite ?(links_size _ _ _ _ (holds_links _ _ _ H)); lia). done.
Qed.

Lemma find_type_spec m ps ds t : menu_holds m ps ds ->
  MenuFindType t m = Done (last_of_type ds t (length ps) ≫= fun j => ps !! j, m).
Proof.
  intros H. unfold MenuFindType. do 2 step. unfold sm_lift. rewrite (holds_end _ _ _ H).
  rewrite (find_type_loop_at _ _ _ _ _ (holds_links _ _ _ H)) by
    (unfold rounds; rewrite ?(links_size _ _ _ _ (holds_links _ _ _ H)); lia). done.
Qed.

(** The entry that [MenuFindNextEntry] goes to *)
Definition next_pos (ds : list node) (d : MenuDir) (i : nat) : nat :=
  default i (match d with MENU_UP => above ds i | MENU_DOWN => below (S (length ds)) ds i end).

Lemma next_pos_lt ds d i : (i < length ds)%nat -> (next_pos ds d i < length ds)%nat.
Proof.
  intros Hi. unfold next_pos. destruct d.
  - destruct (above ds i) eqn:E; cbn; [apply above_lt in E; lia|done].
  - destruct (below _ ds i) eqn:E; cbn; [apply below_gt in E; lia|done].
Qed.

Lemma next_entry_spec m ps ds d i p : links (entries m) ps ds (length ps) -> ps !! i = Some p ->
  exists q, ps !! next_pos ds d i = Some q /\ MenuFindNextEntry p d m = Done (q, m).
Proof.
  intros H Hp. pose proof (lookup_lt_Some _ _ _ Hp) as Hi.
  assert (next_pos ds d i < length ps)%nat as Hlt
    by (rewrite <- (links_length _ _ _ _ H) in *; by apply next_pos_lt).
  destruct (lookup_lt_is_Some_2 ps (next_pos ds d i) Hlt) as [q Hq]. exists q. split; [done|].
  unfold MenuFindNextEntry. step. unfold sm_lift, rounds. rewrite (links_size _ _ _ _ H).
  unfold next_pos in Hq. destruct d.
  - rewrite (next_up_at _ _ _ _ _ H _ i) by (done || lia).
    destruct (above ds i) as [n|]; [change (default i (Some n)) with n in Hq; cbn; by rewrite Hq|cbn in *; by simplify_eq].
  - rewrite (next_down_at _ _ _ _ _ H _ i) by (done || lia).
    rewrite (links_length _ _ _ _ H) in Hq.
    destruct (below _ ds i) as [n|]; [change (default i (Some n)) with n in Hq|change (default i None) with i in Hq; cbn; congruence].
    change (Some n ≫= fun j => ps !! j) with (ps !! n). by rewrite Hq.
Qed.

(** ** Adding *)

Definition new_node (dt : MenuDrawType) (t : mem) (cb : option Z) : node :=
  (dt, if bool_decide (dt <> MENU_NORMAL) then MENU_DISABLE else MENU_NONE, 0, strncpy t text_size, cb).

Lemma links_insert h ps ds n j p e f : links h ps ds n -> ps !! j = Some p -> h !! p = Some e ->
  next (f e) = next e -> prev (f e) = prev e -> index (f e) = index e ->
  links (<[p := f e]> h) ps (<[j := data (f e)]> ds) n.
Proof.
  intros H Hj He Hn Hv Hx. split.
  - apply (links_nodup _ _ _ _ H).
  - rewrite length_insert. apply (links_length _ _ _ _ H).
  - rewrite dom_insert_lookup_L by eauto. apply (links_dom _ _ _ _ H).
  - intros j' p' Hj'. destruct (links_at _ _ _ _ H j' p' Hj') as (e' & He' & H1 & H2 & H3 & H4).
    destruct (decide (p' = p)) as [->|Hne].
    + assert (j' = j) as -> by (by eapply NoDup_lookup; [apply (links_nodup _ _ _ _ H)|..]).
      rewrite He in He'. injection He' as <-. exists (f e). rewrite lookup_insert_eq.
      split_and!; [done|congruence..| |congruence].
      apply list_lookup_insert_eq. by apply lookup_lt_Some in H3.
    + exists e'. rewrite lookup_insert_ne by done. split_and!; [done..| |done].
      rewrite list_lookup_insert_ne; [done|]. intros ->. simplify_eq.
Qed.

(** A new last entry *)
Lemma links_snoc h ps ds p e e' :
  links h ps ds (length ps) -> h !! p = None ->
  next e = None -> prev e = prev_of ps (length ps) -> index e = Z.of_nat (length ps) ->
  (forall q, prev_of ps (length ps) = Some q -> h !! q = Some e') ->
  links (match prev_of ps (length ps) with
         | Some q => <[q := set_next (Some p) e']> (<[p := e]> h) | None => <[p := e]> h end)
    (ps ++ [p]) (ds ++ [data e]) (length (ps ++ [p])).
Proof.
  intros H Hp Hn Hv Hx He'.
  assert (p ∉ ps) as Hnot.
  { intros Hin. apply not_elem_of_dom in Hp. apply Hp. rewrite (links_dom _ _ _ _ H).
    by apply elem_of_list_to_set. }
  assert (forall q, prev_of ps (length ps) = Some q -> ps !! (length ps - 1)%nat = Some q /\ q ∈ ps) as Hlast.
  { intros q Hq. destruct ps as [|x ps]; [done|]. cbn [prev_of length] in Hq |- *. rewrite Nat.sub_succ, Nat.sub_0_r.
    split; [done|]. by eapply list_elem_of_lookup_2. }
  split.
  - apply NoDup_app. split; [apply (links_nodup _ _ _ _ H)|]. split; [|apply NoDup_singleton].
    intros x Hx' ->%list_elem_of_singleton. done.
  - rewrite !length_app, (links_length _ _ _ _ H). done.
  - rewrite list_to_set_app_L, <- (links_dom _ _ _ _ H). cbn [list_to_set]. rewrite union_empty_r_L.
    destruct (prev_of ps (length ps)) as [q|]; [|by rewrite dom_insert_L, union_comm_L].
    rewrite dom_insert_lookup_L, dom_insert_L; [by rewrite union_comm_L|].
    rewrite lookup_insert_ne; [by eauto|]. intros ->. by apply Hnot, Hlast.
  - intros j x Hj. pose proof (lookup_lt_Some _ _ _ Hj) as Hlt.
    replace (j <? length (ps ++ [p]))%nat with true by (symmetry; by apply Nat.ltb_lt).
    rewrite length_app in Hlt. cbn in Hlt.
    destruct (decide (j = length ps)) as [->|Hne].
    + rewrite list_lookup_middle in Hj by done. injection Hj as <-. exists e.
      assert ((match prev_of ps (length ps) with
         | Some q => <[q := set_next (Some p) e']> (<[p := e]> h) | None => <[p := e]> h end) !! p = Some e) as ->.
      { destruct (prev_of ps (length ps)) as [q|] eqn:Eq; [|by rewrite lookup_insert_eq].
        rewrite lookup_insert_ne, lookup_insert_eq; [done|]. intros ->. by apply Hnot, Hlast. }
      split; [done|]. split; [by rewrite Hn, lookup_ge_None_2 by (rewrite length_app; cbn; lia)|].
      split; [rewrite Hv; destruct ps; [done|]; cbn [prev_of length]; by rewrite lookup_app_l by (cbn; lia)|].
      split; [|done]. by rewrite <- (links_length _ _ _ _ H), list_lookup_middle.
    + rewrite lookup_app_l in Hj by lia.
      destruct (links_at _ _ _ _ H j x Hj) as (ex & Hex & H1 & H2 & H3 & H4).
      replace (j <? length ps)%nat with true in H4 by (symmetry; apply Nat.ltb_lt; lia).
      assert (x <> p) by (intros ->; congruence).
      assert (prev_of (ps ++ [p]) j = prev_of ps j) as Epv by (destruct j; [done|]; cbn; by rewrite lookup_app_l by lia).
      assert ((ds ++ [data e]) !! j = Some (data ex)) as Ed by
        (rewrite lookup_app_l by (rewrite (links_length _ _ _ _ H); lia); done).
      destruct (decide (j = (length ps - 1)%nat)) as [->|Hj1].
      * destruct (prev_of ps (length ps)) as [q|] eqn:Eq.
        2: { destruct ps as [|y ps]; [done|]. cbn [prev_of length] in Eq. apply lookup_ge_None in Eq. cbn in Eq. lia. }
        destruct (Hlast q eq_refl) as [Hq _]. assert (q = x) as -> by congruence.
        rewrite (He' x eq_refl) in Hex. injection Hex as ->.
        exists (set_next (Some p) ex). rewrite lookup_insert_eq. split; [done|].
        split; [|by rewrite Epv]. cbn [next set_next].
        replace (S (length ps - 1)) with (length ps) by lia. by rewrite list_lookup_middle.
      * exists ex. split.
        { destruct (prev_of ps (length ps)) as [q|] eqn:Eq; [|by rewrite lookup_insert_ne].
          rewrite !lookup_insert_ne; [done|done|]. intros ->. destruct (Hlast x eq_refl) as [Hq _].
          apply Hj1. by eapply NoDup_lookup; [apply (links_nodup _ _ _ _ H)|..]. }
        split; [rewrite lookup_app_l by lia; done|]. by rewrite Epv.
Qed.

Lemma prev_of_last ps ds h n q : links h ps ds n -> prev_of ps (length ps) = Some q -> is_Some (h !! q).
Proof.
  intros H. destruct ps as [|x ps]; [done|]. cbn [prev_of length]. intros Hq.
  destruct (links_at _ _ _ _ H _ _ Hq) as (e & He & _). by eexists.
Qed.

Lemma prev_of_none ps : prev_of ps (length ps) = None -> ps = [].
Proof.
  destruct ps as [|x ps]; [done|]. cbn [prev_of length]. intros Hq%lookup_ge_None. cbn [length] in Hq. lia.
Qed.

Lemma prev_of_snoc ps p : prev_of (ps ++ [p]) (length (ps ++ [p])) = Some p.
Proof. rewrite length_app, Nat.add_1_r. cbn [prev_of]. by rewrite list_lookup_middle. Qed.

(** The heap after an entry is linked in at the end *)
Lemma add_linked m ps ds p e : menu_holds m ps ds -> entries m !! p = None ->
  next e = None -> prev e = entry_end m -> index e = entry_index m ->
  exists m', append_entry (entry_end m) p
      (set_entry_index (entry_index m + 1) (set_entries (<[p := e]> (entries m)) m)) = Done (tt, m') /\
    menu_holds m' (ps ++ [p]) (ds ++ [data e]) /\ entry_selected m' = entry_selected m /\
    entries m' !! p = Some e.
Proof.
  intros H Hp Hn Hv Hx. pose proof (holds_links _ _ _ H) as Hl.
  rewrite (holds_end _ _ _ H) in *. rewrite (holds_index _ _ _ H) in *.
  set (m1 := set_entry_index _ _). unfold append_entry.
  assert (forall p0 : positive, entry_selected m = Some p0 -> p0 ∈ ps ++ [p]) as Hsel
    by (intros q Hq; apply elem_of_app; left; by apply (holds_selected _ _ _ H)).
  destruct (prev_of ps (length ps)) as [q|] eqn:Eq.
  - destruct (prev_of_last _ _ _ _ _ Hl Eq) as [eq Heq].
    assert (q <> p) as Hqp by congruence.
    assert (entries m1 !! q = Some eq) as Hq by (cbn; by rewrite lookup_insert_ne).
    step_by (update_Done _ _ _ (set_next (Some p)) Hq). eexists. split; [reflexivity|].
    pose proof (links_snoc _ _ _ p e eq Hl Hp Hn) as L. rewrite Eq in L.
    split; [split|split].
    + cbn. apply L; [done|done|]. by intros ? [= <-].
    + cbn. rewrite (holds_start _ _ _ H). destruct ps; [done|]. done.
    + cbn. by rewrite prev_of_snoc.
    + cbn. rewrite length_app. cbn. lia.
    + exact Hsel.
    + done.
    + cbn. by rewrite lookup_insert_ne, lookup_insert_eq.
  - pose proof (prev_of_none _ Eq) as ->. rewrite sm_bind_Done with (a := tt)
      (s' := set_start (Some p) m1) by (step; cbn; by rewrite (holds_start _ _ _ H)).
    eexists. split; [reflexivity|].
    pose proof (links_snoc _ _ _ p e e Hl Hp Hn) as L. rewrite Eq in L.
    split; [split|split]; [|done|done|done|exact Hsel|done|cbn; by rewrite lookup_insert_eq].
    cbn. by apply L.
Qed.

Lemma add_entry_spec m ps ds dt t cb : menu_holds m ps ds -> exists p m',
  MenuAddEntry dt t cb m = Done (p, m') /\ (p ∉ ps) /\
  menu_holds m' (ps ++ [p]) (ds ++ [new_node dt t cb]) /\
  entry_selected m' =
    match entry_selected m with
    | Some q => Some q | None => if bool_decide (dt <> MENU_NORMAL) then None else Some p end.
Proof.
  intros H. unfold MenuAddEntry. do 3 step. set (p := fresh _). set (e := Entry _ _ _ _ _ _ _ _).
  assert (entries m !! p = None) as Hp by (apply not_elem_of_dom, is_fresh).
  assert (p ∉ ps) as Hnot.
  { rewrite <- (elem_of_list_to_set (C := gset positive)), <- (links_dom _ _ _ _ (holds_links _ _ _ H)).
    by apply not_elem_of_dom. }
  step. destruct (add_linked m ps ds p e H Hp) as (m1 & E & H1 & Hs1 & He1); [done..|].
  step_by E. exists p. destruct (decide (dt = MENU_NORMAL)) as [->|Hdt].
  - rewrite bool_decide_eq_false_2 by (intros []; done). unfold mbind, sm_bind, sm_gets. rewrite Hs1.
    assert (entry_selected m = None \/ exists q, entry_selected m = Some q) as [E0|[q E0]]
      by (destruct (entry_selected m); eauto); rewrite E0.
    + exists (set_selected (Some p) m1). split; [done|]. split; [done|]. split; [|done].
      destruct H1 as [L1 L2 L3 L4 L5]. split; [exact L1|exact L2|exact L3|exact L4|].
      intros q [= <-]. apply elem_of_app. right. by apply list_elem_of_singleton.
    + exists m1. split; [done|]. split; [done|]. split; [exact H1|congruence].
  - rewrite bool_decide_eq_true_2 by done.
    step_by (update_Done m1 p e (set_type MENU_DISABLE) He1). eexists. split; [reflexivity|].
    split; [done|]. split; [|cbn; rewrite Hs1; by destruct (entry_selected m)].
    pose proof (links_insert _ _ _ _ (length ps) p e (set_type MENU_DISABLE) (holds_links _ _ _ H1)
      ltac:(by rewrite list_lookup_middle) He1 eq_refl eq_refl eq_refl) as L.
    rewrite <- (links_length _ _ _ _ (holds_links _ _ _ H)), insert_app_r_alt, Nat.sub_diag in L by lia.
    destruct H1 as [L1 L2 L3 L4 L5]. split; [|exact L2|exact L3|exact L4|exact L5].
    unfold new_node. rewrite bool_decide_eq_true_2 by done. exact L.
Qed.

(** ** Deleting *)

Definition upd (o : option positive) (f : MenuEntry -> MenuEntry) (h : heap) : heap :=
  match o with Some q => alter f q h | None => h end.

Lemma lookup_upd_ne o f h x : o <> Some x -> upd o f h !! x = h !! x.
Proof. destruct o as [q|]; cbn; [|done]. intros Hne. apply lookup_alter_ne. congruence. Qed.
Lemma lookup_upd o f h x : o = Some x -> upd o f h !! x = f <$> h !! x.
Proof. intros ->. apply lookup_alter_eq. Qed.
Lemma dom_upd o f h : dom (upd o f h) = dom h.
Proof. destruct o; [apply dom_alter_L|done]. Qed.

Lemma prev_of_delete ps k j : (j <= k)%nat -> prev_of (delete k ps) j = prev_of ps j.
Proof. destruct j; cbn; [done|]. intros Hj. by apply list_lookup_delete_lt. Qed.

Lemma NoDup_lookup_ne (ps : list positive) i j p q : NoDup ps -> ps !! i = Some p -> ps !! j = Some q ->
  i <> j -> p <> q.
Proof. intros Hn Hi Hj Hne ->. apply Hne. by eapply NoDup_lookup. Qed.

(** The neighbours of position [k] are joined and its entry freed. *)
Lemma links_delete h ps ds k p e : links h ps ds (length ps) -> ps !! k = Some p -> h !! p = Some e ->
  links (delete p (upd (next e) (set_prev (prev e)) (upd (prev e) (set_next (next e)) h)))
    (delete k ps) (delete k ds) k.
Proof.
  intros H Hk He. pose proof (links_nodup _ _ _ _ H) as Hnd. pose proof (lookup_lt_Some _ _ _ Hk) as Hlt.
  destruct (links_at _ _ _ _ H k p Hk) as (e0 & He0 & Hn & Hv & Hd & _). rewrite He in He0. injection He0 as <-.
  rewrite Hn, Hv. split.
  - eapply sublist_NoDup; [exact Hnd|]. apply sublist_delete.
  - rewrite !length_delete; [by rewrite (links_length _ _ _ _ H)|by eexists..].
  - rewrite dom_delete_L, !dom_upd, (links_dom _ _ _ _ H).
    rewrite (delete_Permutation ps k p Hk) at 1. cbn [list_to_set].
    rewrite difference_union_distr_l_L, difference_diag_L, union_empty_l_L.
    apply difference_disjoint_L. apply disjoint_singleton_r. rewrite elem_of_list_to_set.
    rewrite (delete_Permutation ps k p Hk) in Hnd. by apply NoDup_cons in Hnd as [? _].
  - assert (forall i x ex, ps !! i = Some x -> h !! x = Some ex -> i <> k ->
      delete p (upd (ps !! S k) (set_prev (prev_of ps k)) (upd (prev_of ps k) (set_next (ps !! S k)) h)) !! x =
      Some (if decide (S i = k) then set_next (ps !! S k) ex
            else if decide (i = S k) then set_prev (prev_of ps k) ex else ex)) as Hh.
    { intros i x ex Hi Hex Hik. rewrite lookup_delete_ne by (by eapply NoDup_lookup_ne).
      destruct (decide (S i = k)) as [<-|].
      - rewrite lookup_upd_ne, lookup_upd by first [done|intros E; revert E; by eapply (NoDup_lookup_ne ps (S (S i)) i)|
          intros E; pose proof (NoDup_lookup _ _ _ _ Hnd E Hi); lia].
        by rewrite Hex.
      - assert (prev_of ps k <> Some x).
        { destruct k as [|k']; cbn; [done|]. intros E. pose proof (NoDup_lookup _ _ _ _ Hnd E Hi). lia. }
        destruct (decide (i = S k)) as [->|].
        + rewrite lookup_upd, lookup_upd_ne by done. by rewrite Hex.
        + rewrite !lookup_upd_ne; [done|done|]. intros E. pose proof (NoDup_lookup _ _ _ _ Hnd E Hi). lia. }
    intros j x Hj. destruct (decide (j < k)%nat) as [Hjk|Hjk].
    + rewrite list_lookup_delete_lt in Hj by done.
      destruct (links_at _ _ _ _ H j x Hj) as (ex & Hex & H1 & H2 & H3 & H4).
      rewrite (Hh _ _ _ Hj Hex) by lia. eexists. split; [done|].
      rewrite prev_of_delete, (list_lookup_delete_lt ds) by lia.
      replace (j <? k)%nat with true by (symmetry; by apply Nat.ltb_lt).
      replace (j <? length ps)%nat with true in H4 by (symmetry; apply Nat.ltb_lt; lia).
      destruct (decide (S j = k)) as [<-|].
      * rewrite list_lookup_delete_ge by lia. done.
      * rewrite decide_False by lia. rewrite list_lookup_delete_lt by lia. done.
    + rewrite list_lookup_delete_ge in Hj by lia.
      destruct (links_at _ _ _ _ H (S j) x Hj) as (ex & Hex & H1 & H2 & H3 & H4).
      rewrite (Hh _ _ _ Hj Hex) by lia. eexists. split; [done|].
      rewrite decide_False by lia. rewrite !list_lookup_delete_ge by lia.
      replace (j <? k)%nat with false by (symmetry; apply Nat.ltb_ge; lia).
      apply lookup_lt_Some in Hj.
      replace (S j <? length ps)%nat with true in H4 by (symmetry; by apply Nat.ltb_lt).
      destruct (decide (S j = S k)) as [E|].
      * injection E as ->. rewrite prev_of_delete by lia. split_and!; [done..|cbn [index set_prev]; lia].
      * destruct j as [|j']; [lia|]. cbn [prev_of] in *. rewrite list_lookup_delete_ge by lia.
        split_and!; [done..|lia].
Qed.

Lemma start_after ps k : (k < length ps)%nat ->
  match prev_of ps k with Some _ => ps !! 0%nat | None => ps !! S k end = delete k ps !! 0%nat.
Proof.
  intros Hk. destruct k as [|k]; cbn [prev_of]; [by rewrite list_lookup_delete_ge|].
  destruct (lookup_lt_is_Some_2 ps k) as [x ->]; [lia|]. by rewrite list_lookup_delete_lt by lia.
Qed.

Lemma end_after ps k : (k < length ps)%nat ->
  match ps !! S k with Some _ => prev_of ps (length ps) | None => prev_of ps k end =
  prev_of (delete k ps) (length ps - 1).
Proof.
  intros Hk. destruct (ps !! S k) eqn:E.
  - apply lookup_lt_Some in E. destruct (length ps) as [|[|n]] eqn:El; [lia..|].
    cbn [prev_of Nat.sub]. by rewrite list_lookup_delete_ge by lia.
  - apply lookup_ge_None in E. replace (length ps - 1)%nat with k by lia. by rewrite prev_of_delete.
Qed.

Lemma unlink_Done m ps ds k p : menu_holds m ps ds -> ps !! k = Some p -> exists m',
  unlink p m = Done (ps !! S k, m') /\ links (entries m') (delete k ps) (delete k ds) k /\
  entry_start m' = delete k ps !! 0%nat /\ entry_end m' = prev_of (delete k ps) (length (delete k ps)) /\
  entry_index m' = Z.of_nat (length (delete k ps)) /\ entry_selected m' = entry_selected m.
Proof.
  intros H Hk. pose proof (holds_links _ _ _ H) as L. pose proof (lookup_lt_Some _ _ _ Hk) as Hlt.
  destruct (links_at _ _ _ _ L k p Hk) as (e & He & Hn & Hv & _).
  pose proof (links_delete _ _ _ _ _ _ L Hk He) as L'.
  assert (forall o x, (o = ps !! S k \/ o = prev_of ps k) -> o = Some x -> x <> p /\ is_Some (entries m !! x)) as Ho.
  { intros o x Ho ->. destruct Ho as [Ho|Ho].
    - split; [by eapply (NoDup_lookup_ne ps (S k) k); [apply (links_nodup _ _ _ _ L)|..]; first [done|lia]|].
      destruct (links_at _ _ _ _ L _ _ (eq_sym Ho)) as (? & -> & _). by eexists.
    - destruct k as [|k']; [done|]. cbn in Ho.
      split; [by eapply (NoDup_lookup_ne ps k' (S k')); [apply (links_nodup _ _ _ _ L)|..]; first [done|lia]|].
      destruct (links_at _ _ _ _ L _ _ (eq_sym Ho)) as (? & -> & _). by eexists. }
  unfold unlink. step_by (read_Done _ _ _ He).
  set (h1 := upd (prev e) (set_next (next e)) (entries m)) in *.
  set (m1 := set_entries h1 (match prev e with Some _ => m | None => set_start (next e) m end)).
  assert ((match prev e with Some q => update q (set_next (next e)) | None => sm_modify (set_start (next e)) end) m
    = Done (tt, m1)) as E1.
  { unfold m1, h1. destruct (prev e) as [q|] eqn:Eq; [|done].
    destruct (Ho _ q (or_intror Hv) eq_refl) as [_ Hq]. exact (update_alter _ _ _ Hq). }
  step_by E1. assert (entries m1 !! p = Some e) as He1.
  { cbn. unfold h1. rewrite lookup_upd_ne; [done|]. intros E. by destruct (Ho _ p (or_intror Hv) E). }
  step_by (read_Done _ _ _ He1).
  set (h2 := upd (next e) (set_prev (prev e)) h1) in *.
  set (m2 := set_entries h2 (match next e with Some _ => m1 | None => set_end (prev e) m1 end)).
  assert ((match next e with Some q => update q (set_prev (prev e)) | None => sm_modify (set_end (prev e)) end) m1
    = Done (tt, m2)) as E2.
  { unfold m2, h2. destruct (next e) as [q|] eqn:Eq; [|done].
    destruct (Ho _ q (or_introl Hn) eq_refl) as [_ Hq].
    apply (update_alter m1). cbn. unfold h1. destruct (prev e) as [r|]; [|done]. cbn.
    destruct (decide (r = q)) as [->|]; [rewrite lookup_alter_eq; by apply fmap_is_Some|by rewrite lookup_alter_ne]. }
  step_by E2. assert (entries m2 !! p = Some e) as He2.
  { cbn. unfold h2. rewrite lookup_upd_ne; [done|]. intros E. by destruct (Ho _ p (or_introl Hn) E). }
  step_by (free_Done _ _ _ He2). do 2 step. rewrite Hn. eexists. split; [reflexivity|].
  cbn [entries entry_start entry_end entry_index entry_selected set_entry_index set_entries m2].
  split; [exact L'|]. rewrite length_delete by by eexists.
  rewrite <- start_after, <- end_after by done. rewrite <- Hv, <- Hn.
  unfold m1. destruct (next e), (prev e); cbn; rewrite ?(holds_start _ _ _ H), ?(holds_end _ _ _ H),
    ?(holds_index _ _ _ H); split_and!; done || lia.
Qed.

Lemma links_shift h ps ds i p e : links h ps ds i -> ps !! i = Some p -> h !! p = Some e ->
  links (<[p := set_index (index e - 1) e]> h) ps ds (S i).
Proof.
  intros H Hp He. split; [apply (links_nodup _ _ _ _ H)|apply (links_length _ _ _ _ H)| |].
  - rewrite dom_insert_lookup_L by eauto. apply (links_dom _ _ _ _ H).
  - intros j x Hj. destruct (links_at _ _ _ _ H j x Hj) as (ex & Hex & H1 & H2 & H3 & H4).
    destruct (decide (x = p)) as [->|Hne].
    + assert (j = i) as -> by (by eapply NoDup_lookup; [apply (links_nodup _ _ _ _ H)|..]).
      rewrite He in Hex. injection Hex as <-. exists (set_index (index e - 1) e). rewrite lookup_insert_eq.
      split_and!; [done..|]. cbn [index set_index]. rewrite H4.
      replace (i <? i)%nat with false by (symmetry; apply Nat.ltb_irrefl).
      replace (i <? S i)%nat with true by (symmetry; apply Nat.ltb_lt; lia). lia.
    + exists ex. rewrite lookup_insert_ne by done. split_and!; [done..|].
      rewrite H4. assert (j <> i) by (intros ->; simplify_eq).
      destruct (Nat.ltb_spec j i), (Nat.ltb_spec j (S i)); lia.
Qed.

(** The loop behind the deleted entry: every index goes down by one. *)
Lemma shift_loop ps ds k : forall fuel i m, links (entries m) ps ds i -> (k <= i <= length ps)%nat ->
  (length ps - i < fuel)%nat ->
  exists h, delete_entry_loop fuel (ps !! i) (Z.of_nat k) m = Done (tt, set_entries h m) /\
    links h ps ds (length ps).
Proof.
  induction fuel as [|fuel IH]; intros i m H Hi Hf; [lia|]. cbn [delete_entry_loop].
  destruct (ps !! i) as [p|] eqn:Hp.
  - destruct (links_at _ _ _ _ H i p Hp) as (e & He & Hn & _ & _ & Hx).
    rewrite Nat.ltb_irrefl in Hx. step_by (read_Done _ _ _ He).
    replace (index e =? Z.of_nat k) with false by lia. replace (Z.of_nat k <? index e) with true by lia.
    step_by (update_Done _ _ _ (set_index (index e - 1)) He).
    pose proof (links_shift _ _ _ _ _ _ H Hp He) as H'. set (m' := set_entries _ m).
    assert (entries m' !! p = Some (set_index (index e - 1) e)) as He' by (cbn; by rewrite lookup_insert_eq).
    step_by (read_Done _ _ _ He'). cbn [next set_index]. rewrite Hn. apply lookup_lt_Some in Hp.
    destruct (IH (S i) m' H') as (h & E & Hh); [lia..|]. exists h. rewrite E. done.
  - apply lookup_ge_None in Hp. exists (entries m). rewrite set_entries_entries. split; [done|].
    by replace (length ps) with i by lia.
Qed.

(** The loop before it changes nothing. *)
Lemma skip_loop m ps ds k : links (entries m) ps ds (length ps) -> forall d fuel i, (i + d = k)%nat ->
  (k <= length ps)%nat ->
  delete_entry_loop (d + fuel) (ps !! i) (Z.of_nat k) m = delete_entry_loop fuel (ps !! k) (Z.of_nat k) m.
Proof.
  intros H. induction d as [|d IH]; intros fuel i Hd Hk; [by rewrite <- Hd, Nat.add_0_r|].
  cbn [Nat.add delete_entry_loop].
  destruct (lookup_lt_is_Some_2 ps i) as [p Hp]; [lia|]. rewrite Hp.
  destruct (links_at _ _ _ _ H i p Hp) as (e & He & Hn & _ & _ & Hx).
  replace (i <? length ps)%nat with true in Hx by (symmetry; apply Nat.ltb_lt; lia).
  step_by (read_Done _ _ _ He). replace (index e =? Z.of_nat k) with false by lia.
  replace (Z.of_nat k <? index e) with false by lia. step. step_by (read_Done _ _ _ He). rewrite Hn.
  apply IH; lia.
Qed.

Definition sel_after_delete (ps : list positive) (ds : list node) (k : nat) (sel : option positive) : option positive :=
  if bool_decide (sel = ps !! k) then above ds k ≫= fun j => ps !! j else sel.

Lemma move_selection_Done m ps ds k p : menu_holds m ps ds -> ps !! k = Some p ->
  move_selection p (Z.of_nat k) m = Done (tt, set_selected (sel_after_delete ps ds k (entry_selected m)) m).
Proof.
  intros H Hk. pose proof (holds_links _ _ _ H) as L. pose proof (lookup_lt_Some _ _ _ Hk) as Hlt.
  assert (set_selected (entry_selected m) m = m) as Hid by (by destruct m).
  unfold move_selection, sel_after_delete. step. rewrite Hk.
  destruct (entry_selected m) as [s|] eqn:Es; [|by rewrite bool_decide_eq_false_2, Hid by done].
  destruct (list_elem_of_lookup_1 ps s) as [i Hi]; [by apply (holds_selected _ _ _ H)|].
  assert (forall j x, ps !! j = Some x -> exists e, entries m !! x = Some e /\ index e = Z.of_nat j) as Hat.
  { intros j x Hj. destruct (links_at _ _ _ _ L j x Hj) as (e & He & _ & _ & _ & Hx). exists e. split; [done|].
    apply lookup_lt_Some in Hj. by replace (j <? length ps)%nat with true in Hx by (symmetry; by apply Nat.ltb_lt). }
  destruct (Hat i s Hi) as (e & He & Hx). step_by (read_Done _ _ _ He). rewrite Hx.
  destruct (Z.eqb_spec (Z.of_nat i) (Z.of_nat k)) as [E|E].
  2: { rewrite bool_decide_eq_false_2; [by rewrite Hid|]. intros [= ->]. apply E. f_equal.
       by eapply NoDup_lookup; [apply (links_nodup _ _ _ _ L)|..]. }
  apply Nat2Z.inj in E as ->. assert (s = p) as -> by congruence. rewrite bool_decide_eq_true_2 by done.
  destruct (next_entry_spec m ps ds MENU_UP k p L Hk) as (q & Hq & E). step_by E. step.
  destruct (Hat _ q Hq) as (eq & Heq & Hxq). step_by (read_Done (set_selected (Some q) m) _ _ Heq). rewrite Hxq.
  unfold next_pos in *. destruct (above ds k) as [j|] eqn:Ea.
  - change (default k (Some j)) with j in *. apply above_lt in Ea.
    replace (Z.of_nat j =? Z.of_nat k) with false by lia. cbn [option_bind mbind]. by rewrite Hq.
  - change (default k None) with k in *. rewrite Z.eqb_refl.
    destruct (next_entry_spec (set_selected (Some q) m) ps ds MENU_DOWN k p L Hk) as (r & Hr & Er).
    step_by Er. step. done.
Qed.

Lemma sel_after_delete_in ps ds k s : NoDup ps -> (forall q, s = Some q -> q ∈ ps) -> (k < length ps)%nat ->
  forall q, sel_after_delete ps ds k s = Some q -> q ∈ delete k ps.
Proof.
  intros Hnd Hs Hk q. unfold sel_after_delete. case_bool_decide as E.
  - destruct (above ds k) as [j|] eqn:Ea; cbn; [|done]. apply above_lt in Ea. intros Hq.
    apply list_elem_of_lookup. exists j. by rewrite list_lookup_delete_lt.
  - intros ->. destruct (list_elem_of_lookup_1 ps q (Hs q eq_refl)) as [i Hi].
    assert (i <> k) by congruence. apply list_elem_of_lookup. destruct (decide (i < k)%nat).
    + exists i. by rewrite list_lookup_delete_lt.
    + exists (i - 1)%nat. rewrite list_lookup_delete_ge by lia. by replace (S (i - 1)) with i by lia.
Qed.

Lemma delete_past {A} (l : list A) k : (length l <= k)%nat -> delete k l = l.
Proof.
  intros Hk. apply list_eq. intros i. destruct (decide (i < k)%nat).
  - by rewrite list_lookup_delete_lt.
  - rewrite list_lookup_delete_ge by lia. by rewrite !lookup_ge_None_2 by lia.
Qed.

Lemma delete_entry_spec m ps ds k : menu_holds m ps ds -> exists m',
  MenuDeleteEntry (Z.of_nat k) m = Done (tt, m') /\ menu_holds m' (delete k ps) (delete k ds) /\
  entry_selected m' = if (k <? length ps)%nat then sel_after_delete ps ds k (entry_selected m)
                      else entry_selected m.
Proof.
  intros H. pose proof (holds_links _ _ _ H) as L. unfold MenuDeleteEntry. step. rewrite (holds_index _ _ _ H).
  destruct (Nat.ltb_spec k (length ps)) as [Hk|Hk].
  2: { exists m. rewrite !delete_past by (rewrite ?(links_length _ _ _ _ L); lia). split; [|done].
       destruct (Z.ltb_spec (Z.of_nat (length ps)) (Z.of_nat k)); [done|]. do 2 step.
       rewrite (holds_start _ _ _ H). unfold rounds. rewrite (links_size _ _ _ _ L).
       replace (S (length ps)) with (k + 1)%nat by lia. rewrite (skip_loop m ps ds k L k 1 0) by lia.
       rewrite lookup_ge_None_2 by lia. done. }
  replace (Z.of_nat (length ps) <? Z.of_nat k) with false by lia. do 2 step.
  rewrite (holds_start _ _ _ H). unfold rounds. rewrite (links_size _ _ _ _ L).
  replace (S (length ps)) with (k + S (length ps - k))%nat by lia.
  rewrite (skip_loop m ps ds k L k (S (length ps - k)) 0) by lia.
  destruct (lookup_lt_is_Some_2 ps k Hk) as [p Hp]. rewrite Hp. cbn [delete_entry_loop].
  destruct (links_at _ _ _ _ L k p Hp) as (e & He & _ & _ & _ & Hx).
  replace (k <? length ps)%nat with true in Hx by (symmetry; by apply Nat.ltb_lt).
  step_by (read_Done _ _ _ He). rewrite Hx, Z.eqb_refl. step_by (move_selection_Done _ _ _ _ _ H Hp).
  set (m1 := set_selected _ m).
  assert (forall q, entry_selected m1 = Some q -> q ∈ delete k ps) as Hsel.
  { apply sel_after_delete_in; [apply (links_nodup _ _ _ _ L)|apply (holds_selected _ _ _ H)|done]. }
  assert (menu_holds m1 ps ds) as H1.
  { destruct H as [? ? ? ? ?]. split; [done..|]. intros q Hq%Hsel. by eapply list_elem_of_delete_inv. }
  destruct (unlink_Done m1 ps ds k p H1 Hp) as (m2 & E2 & L2 & Hs2 & He2 & Hi2 & Hsel2). step_by E2.
  assert (delete k ps !! k = ps !! S k) as <- by (by apply list_lookup_delete_ge).
  assert (length (delete k ps) = length ps - 1)%nat as Hlen by (apply length_delete; by eexists).
  destruct (shift_loop _ _ k (length ps - k) k m2 L2) as (h & E & Hh); [lia..|]. rewrite E.
  eexists. split; [reflexivity|]. split; [|exact Hsel2].
  split; [exact Hh|exact Hs2|exact He2|exact Hi2|]. intros q. cbn. rewrite Hsel2. apply Hsel.
Qed.

(** ** Deleting the whole menu *)

Lemma delete_loop_Done ps : NoDup ps -> forall fuel i m p, ps !! i = Some p -> (length ps - i <= fuel)%nat ->
  dom (entries m) = list_to_set (drop i ps) ->
  (forall j x, (i <= j)%nat -> ps !! j = Some x -> exists e, entries m !! x = Some e /\
     next e = ps !! S j /\ prev e = prev_of ps j) ->
  exists q h, delete_loop fuel p m = Done (q, set_entries h m) /\ dom h = {[ q ]}.
Proof.
  intros Hnd. induction fuel as [|fuel IH]; intros i m p Hp Hf Hdom Hat.
  { apply lookup_lt_Some in Hp. lia. }
  cbn [delete_loop]. destruct (Hat i p (le_n i) Hp) as (e & He & Hn & _). step_by (read_Done _ _ _ He).
  rewrite Hn. rewrite (drop_S _ p) in Hdom by done.
  destruct (ps !! S i) as [q|] eqn:Hq.
  - destruct (Hat (S i) q ltac:(lia) Hq) as (e' & He' & _ & Hv). step_by (read_Done _ _ _ He').
    rewrite Hv. cbn [prev_of]. rewrite Hp. step_by (free_Done _ _ _ He).
    set (m' := set_entries _ m).
    assert (p ∉ drop (S i) ps) as Hnot.
    { intros Hin. rewrite <- (take_drop i ps), (drop_S _ p) in Hnd by done.
      apply NoDup_app in Hnd as (_ & _ & Hnd). by apply NoDup_cons in Hnd as [? _]. }
    destruct (IH (S i) m' q Hq) as (r & h & E & Hh); [lia|..].
    + cbn [entries m' set_entries]. rewrite dom_delete_L, Hdom. cbn [list_to_set].
      rewrite difference_union_distr_l_L, difference_diag_L, union_empty_l_L.
      apply difference_disjoint_L. by apply disjoint_singleton_r; rewrite elem_of_list_to_set.
    + intros j x Hj Hx. destruct (Hat j x ltac:(lia) Hx) as (ex & Hex & Hnx). exists ex. split; [|done].
      cbn [entries m' set_entries]. rewrite lookup_delete_ne; [done|]. by eapply (NoDup_lookup_ne ps i j); first [done|lia].
    + exists r, h. rewrite E. done.
  - exists p, (entries m). rewrite set_entries_entries. split; [done|]. rewrite Hdom.
    apply lookup_ge_None in Hq. rewrite drop_ge by done. cbn. by rewrite union_empty_r_L.
Qed.

Lemma delete_menu_spec m ps ds : menu_holds m ps ds ->
  if bool_decide (ps = []) then MenuDelete m = Fault FNull
  else exists m', MenuDelete m = Done (tt, m') /\ entries m' = ∅.
Proof.
  intros H. pose proof (holds_links _ _ _ H) as L. unfold MenuDelete. step. rewrite (holds_start _ _ _ H).
  case_bool_decide as E; [by subst|].
  destruct ps as [|p ps']; [done|]. cbn [lookup list_lookup]. step. step. unfold rounds.
  rewrite (links_size _ _ _ _ L).
  destruct (delete_loop_Done _ (links_nodup _ _ _ _ L) (S (length (p :: ps'))) 0 m p eq_refl)
    as (q & h & Eh & Hdom); [lia|exact (links_dom _ _ _ _ L)|..].
  { intros j x _ Hj. destruct (links_at _ _ _ _ L j x Hj) as (e & He & ? & ? & _). by exists e. }
  step_by Eh. assert (is_Some (h !! q)) as [e He] by (apply elem_of_dom; rewrite Hdom; by apply elem_of_singleton).
  rewrite (free_Done (set_entries h m) q e He). eexists. split; [reflexivity|]. cbn [entries set_entries].
  apply dom_empty_inv_L. rewrite dom_delete_L, Hdom. apply difference_diag_L.
Qed.

(** ** The list of entries as an abstract type

    A list of entries and the position of the selected one *)

Definition listing : Type := list node * option nat.

Inductive menu_op :=
  | OAdd (dt : MenuDrawType) (t : mem) (cb : option Z)
  | ODelete (k : nat)
  | OSelect (d : MenuDir).      (** the selection moves, as in [press_down] *)

Definition spec_op (l : listing) (o : menu_op) : listing :=
  let '(ds, sel) := l in
  match o with
  | OAdd dt t cb =>
      (ds ++ [new_node dt t cb],
       match sel with
       | Some j => Some j
       | None => if bool_decide (dt <> MENU_NORMAL) then None else Some (length ds)
       end)
  | ODelete k =>
      (delete k ds,
       match sel with
       | Some j => if bool_decide (j = k) then above ds k
                   else if bool_decide (j < k)%nat then Some j else Some (j - 1)%nat
       | None => None
       end)
  | OSelect d => (ds, next_pos ds d <$> sel)
  end.

Definition run_op (o : menu_op) : M unit :=
  match o with
  | OAdd dt t cb => _ ← MenuAddEntry dt t cb; mret tt
  | ODelete k => MenuDeleteEntry (Z.of_nat k)
  | OSelect d =>
      sel ← sm_gets entry_selected;
      match sel with
      | Some s => q ← MenuFindNextEntry s d; sm_modify (set_selected (Some q))
      | None => mret tt
      end
  end.

Fixpoint run_ops (os : list menu_op) : M unit :=
  match os with [] => mret tt | o :: os' => _ ← run_op o; run_ops os' end.

(** The menu holds the listing, at the addresses [ps]. *)
Definition represents (m : Menu) (ps : list positive) (l : listing) : Prop :=
  menu_holds m ps l.1 /\ entry_selected m = l.2 ≫= (fun j => ps !! j) /\
  forall j, l.2 = Some j -> (j < length l.1)%nat.

Lemma represents_create pane : represents (MenuCreate pane) [] ([], None).
Proof.
  split; [|split; [done|by intros ? [=]]]. split; [|done|done|done|by intros ? [=]].
  split; [apply NoDup_nil_2|done|apply dom_empty_L|by intros ? ? [=]].
Qed.

Lemma holds_lengths m ps ds : menu_holds m ps ds -> length ds = length ps.
Proof. intros H. apply (links_length _ _ _ _ (holds_links _ _ _ H)). Qed.

Lemma set_selected_holds m ps ds p : menu_holds m ps ds -> p ∈ ps -> menu_holds (set_selected (Some p) m) ps ds.
Proof. intros [? ? ? ? ?] Hp. split; [done..|]. by intros q [= <-]. Qed.

Lemma run_op_represents o m ps l : represents m ps l -> exists m' ps',
  run_op o m = Done (tt, m') /\ represents m' ps' (spec_op l o).
Proof.
  destruct l as [ds sel]. intros (H & Hs & Hb). cbn [fst snd] in *. pose proof (holds_lengths _ _ _ H) as Hl.
  destruct o as [dt t cb|k|d]; cbn [run_op spec_op].
  - destruct (add_entry_spec _ _ _ dt t cb H) as (p & m' & E & _ & H' & Hs'). step_by E.
    exists m', (ps ++ [p]). split; [done|]. split; [done|]. cbn [fst snd]. rewrite Hs', Hs.
    destruct sel as [j|]; cbn.
    + specialize (Hb j eq_refl). destruct (lookup_lt_is_Some_2 ps j) as [s Hj]; [lia|]. rewrite Hj.
      rewrite lookup_app_l, Hj by lia. split; [done|]. intros ? [= <-]. rewrite length_app. lia.
    + case_bool_decide; [done|]. cbn [option_bind mbind]. rewrite Hl, list_lookup_middle by done. split; [done|].
      intros ? [= <-]. rewrite length_app. cbn. lia.
  - destruct (delete_entry_spec _ _ _ k H) as (m' & E & H' & Hs'). exists m', (delete k ps).
    split; [done|]. split; [done|]. cbn [fst snd]. rewrite Hs', Hs. unfold sel_after_delete.
    destruct sel as [j|]; cbn [option_bind mbind].
    2: { split; [|done]. destruct (Nat.ltb_spec k (length ps)) as [Hk|]; [|done].
         destruct (lookup_lt_is_Some_2 ps k Hk) as [x ->]. done. }
    specialize (Hb j eq_refl). destruct (lookup_lt_is_Some_2 ps j) as [s Hj]; [lia|]. rewrite Hj.
    destruct (Nat.ltb_spec k (length ps)) as [Hk|Hk].
    + assert (length (delete k ds) = length ds - 1)%nat as Hld by (apply length_delete, lookup_lt_is_Some; lia).
      destruct (decide (j = k)) as [->|Hne].
      * rewrite Hj, !bool_decide_eq_true_2 by done. destruct (above ds k) as [i|] eqn:Ea; [|done].
        apply above_lt in Ea. cbn. split; [by rewrite list_lookup_delete_lt|]. intros ? [= <-]. lia.
      * rewrite (bool_decide_eq_false_2 (j = k)) by done. rewrite bool_decide_eq_false_2.
        2: { intros E'. symmetry in E'. apply Hne.
             by eapply NoDup_lookup; [apply (links_nodup _ _ _ _ (holds_links _ _ _ H))|..]. }
        case_bool_decide; cbn.
        -- split; [by rewrite list_lookup_delete_lt|]. intros ? [= <-]. lia.
        -- split; [rewrite list_lookup_delete_ge by lia; by replace (S (j - 1)) with j by lia|].
           intros ? [= <-]. lia.
    + rewrite !delete_past by lia. rewrite bool_decide_eq_false_2, bool_decide_eq_true_2 by lia. cbn.
      split; [done|]. intros ? [= <-]. lia.
  - step. rewrite Hs. destruct sel as [j|]; cbn [option_bind mbind].
    2: { exists m, ps. split; [done|]. split; [done|]. split; [done|]. by intros ? [=]. }
    specialize (Hb j eq_refl). destruct (lookup_lt_is_Some_2 ps j) as [s Hj]; [lia|]. rewrite Hj.
    destruct (next_entry_spec _ _ _ d _ _ (holds_links _ _ _ H) Hj) as (q & Hq & E). step_by E.
    eexists _, ps. split; [reflexivity|]. split; [|split].
    + apply set_selected_holds; [done|]. by eapply list_elem_of_lookup_2.
    + cbn. by rewrite Hq.
    + cbn. intros ? [= <-]. by apply next_pos_lt.
Qed.

Lemma run_ops_represents os m ps l : represents m ps l -> exists m' ps',
  run_ops os m = Done (tt, m') /\ represents m' ps' (foldl spec_op l os).
Proof.
  revert m ps l. induction os as [|o os IH]; intros m ps l H; cbn [run_ops foldl]; [by exists m, ps|].
  destruct (run_op_represents o m ps l H) as (m1 & ps1 & E & H1). step_by E. by eapply IH.
Qed.

(** C6: Refinement: a menu built with any sequence of [MenuAddEntry],
    [MenuDeleteEntry] and moves of the selection implements a list with a
    cursor.  No operation follows a freed pointer; the links, the indices and
    the counter agree with the list; entries are found by position and by
    type; and [MenuDelete] frees every entry of a menu that has some, while of
    an empty or emptied menu it dereferences the null start pointer. *)
Theorem menu_implements_list pane os :
  let '(ds, sel) := foldl spec_op ([], None) os in
  exists m ps, run_ops os (MenuCreate pane) = Done (tt, m) /\ represents m ps (ds, sel) /\
    (forall k, MenuFindEntry (Z.of_nat k) m = Done (ps !! k, m)) /\
    (forall t, MenuFindType t m = Done (last_of_type ds t (length ds) ≫= fun j => ps !! j, m)) /\
    match ds with
    | [] => MenuDelete m = Fault FNull
    | _ => exists m', MenuDelete m = Done (tt, m') /\ entries m' = ∅
    end.
Proof.
  destruct (run_ops_represents os _ _ _ (represents_create pane)) as (m & ps & E & H).
  destruct (foldl spec_op ([], None) os) as [ds sel]. exists m, ps. pose proof H as (Hh & _ & _). cbn [fst] in Hh.
  split; [done|]. split; [done|]. split; [intros k; by eapply find_entry_spec|].
  split; [intros t; rewrite (holds_lengths _ _ _ Hh); by eapply find_type_spec|].
  pose proof (delete_menu_spec _ _ _ Hh) as Hd. pose proof (holds_lengths _ _ _ Hh) as Hl.
  by destruct ds, ps.
Qed.

(** ** Input *)

Definition menu_ok (m : Menu) : Prop := exists ps ds, menu_holds m ps ds.
Definition ready (m : Menu) : Prop := menu_ok m /\ entry_selected m <> None.

(** A selected entry, and the position it is at *)
Lemma selected_at m ps ds s : menu_holds m ps ds -> entry_selected m = Some s -> exists i e,
  ps !! i = Some s /\ entries m !! s = Some e /\ index e = Z.of_nat i /\ ds !! i = Some (data e).
Proof.
  intros H Hs. destruct (list_elem_of_lookup_1 ps s) as [i Hi]; [by apply (holds_selected _ _ _ H)|].
  destruct (links_at _ _ _ _ (holds_links _ _ _ H) i s Hi) as (e & He & _ & _ & Hd & Hx).
  exists i, e. split_and!; [done..| |done]. apply lookup_lt_Some in Hi.
  by replace (i <? length ps)%nat with true in Hx by (symmetry; by apply Nat.ltb_lt).
Qed.

Lemma holds_frame m m' ps ds : menu_holds m ps ds -> entries m' = entries m -> entry_start m' = entry_start m ->
  entry_end m' = entry_end m -> entry_index m' = entry_index m -> entry_selected m' = entry_selected m ->
  menu_holds m' ps ds.
Proof. intros [? ? ? ? ?] E1 E2 E3 E4 E5. split; by rewrite ?E1, ?E2, ?E3, ?E4, ?E5. Qed.

Lemma ok_frame m m' : menu_ok m -> entries m' = entries m -> entry_start m' = entry_start m ->
  entry_end m' = entry_end m -> entry_index m' = entry_index m -> entry_selected m' = entry_selected m ->
  menu_ok m'.
Proof. intros (ps & ds & H) ? ? ? ? ?. exists ps, ds. by eapply holds_frame. Qed.

Ltac frame := match goal with
  | H : menu_ok ?m |- menu_ok ?m' => solve [apply (ok_frame m m' H); reflexivity]
  end.

Lemma when_total b (op : M unit) P : total P op (fun _ => P) -> total P (when b op) (fun _ => P).
Proof. intros H. apply total_if; [done|]. by apply total_ret. Qed.

Lemma move_ready d m : ready m -> exists s q e e', entry_selected m = Some s /\
  MenuFindNextEntry s d m = Done (q, m) /\ entries m !! s = Some e /\ entries m !! q = Some e' /\
  ready (set_selected (Some q) m).
Proof.
  intros [(ps & ds & H) Hs]. destruct (entry_selected m) as [s|] eqn:Es; [|done].
  destruct (selected_at _ _ _ _ H Es) as (i & e & Hi & He & _).
  destruct (next_entry_spec _ _ _ d _ _ (holds_links _ _ _ H) Hi) as (q & Hq & E).
  destruct (links_at _ _ _ _ (holds_links _ _ _ H) _ q Hq) as (e' & He' & _).
  exists s, q, e, e'. split_and!; [done..|]. split; [|done]. exists ps, ds.
  apply set_selected_holds; [done|]. by eapply list_elem_of_lookup_2.
Qed.

Section InputProps.
Context {pad : FagPad} (call : Z -> Z -> M unit).

Lemma press_down_ready : total ready press_down (fun _ => ready).
Proof.
  intros m Hm. destruct (move_ready MENU_DOWN m Hm) as (s & q & e & e' & Es & E & He & He' & Hr).
  unfold press_down. step. rewrite Es. step. step_by E. step.
  step_by (read_Done (set_selected (Some q) m) _ _ He'). step. destruct Hr as [Hr Hn].
  case_match; eexists _, _; (split; [reflexivity|]); (split; [|done]); [frame|done].
Qed.

Lemma press_up_ready : total ready press_up (fun _ => ready).
Proof.
  intros m Hm. destruct (move_ready MENU_UP m Hm) as (s & q & e & e' & Es & E & He & He' & [Hr Hn]).
  destruct Hm as [Hm Hs].
  unfold press_up. step. rewrite Es. step. step_by E. step_by (read_Done _ _ _ He). step_by (read_Done _ _ _ He').
  step. repeat case_match; eexists _, _; (split; [reflexivity|]); (split; [|done || congruence]);
    first [frame|done].
Qed.

Hypothesis call_ok : forall cb i, total menu_ok (call cb i) (fun _ => menu_ok).

Lemma active_ok : total menu_ok (sm_modify (set_active 1)) (fun _ => menu_ok).
Proof. apply total_modify. intros m Hm. frame. Qed.

Lemma call_back_ok cb i :
  total menu_ok (match cb with Some cb => call cb i | None => mret tt end) (fun _ => menu_ok).
Proof. destruct cb; [apply call_ok|by apply total_ret]. Qed.

Lemma press_cross_ok : total ready (press_cross call) (fun _ => menu_ok).
Proof.
  intros m [(ps & ds & H) Hs]. destruct (entry_selected m) as [s|] eqn:Es; [|done].
  destruct (selected_at _ _ _ _ H Es) as (i & e & _ & He & _).
  unfold press_cross. step. rewrite Es. step. step_by (read_Done _ _ _ He).
  apply (total_bind menu_ok (fun _ => menu_ok)); [apply call_back_ok|intros _; apply active_ok|by exists ps, ds].
Qed.

Lemma press_type_ok t : total menu_ok (press_type call t) (fun _ => menu_ok).
Proof.
  intros m (ps & ds & H). unfold press_type. step_by (find_type_spec _ _ _ t H).
  assert (menu_ok m) as Hm by (by exists ps, ds). revert m H Hm.
  destruct (last_of_type ds t (length ps)) as [j|] eqn:El; cbn [option_bind mbind].
  2: { intros m H Hm. step. by apply active_ok. }
  intros m H Hm. destruct (ps !! j) as [p|] eqn:Hp; [|step; by apply active_ok].
  destruct (links_at _ _ _ _ (holds_links _ _ _ H) j p Hp) as (e & He & _).
  assert (total (fun m' => m' = m) (e ← read p; match click_cb e with Some cb => call cb (index e) | None => mret tt end)
    (fun _ => menu_ok)) as Ht.
  { intros m' ->. step_by (read_Done _ _ _ He). by apply call_back_ok. }
  apply (total_bind (fun m' => m' = m) (fun _ => menu_ok) _ _ _ Ht); [intros _; apply active_ok|done].
Qed.

(** The input handler never goes wrong: whatever buttons are held at once,
    in a menu that is well formed it follows no null or freed pointer, and
    leaves a well-formed menu, as long as the callbacks do. *)
Theorem fag_handleInput_ok buttons m : menu_ok m ->
  exists m', handleInput call buttons m = Done (tt, m') /\ menu_ok m'.
Proof.
  intros Hm. unfold handleInput. do 2 step.
  destruct (negb (menu_active m =? 0) && bool_decide (entry_selected m <> None)) eqn:Eb;
    cbn [when]; [|by exists m].
  apply andb_prop in Eb as [_ Hs%bool_decide_eq_true].
  match goal with |- exists m', ?op m = _ /\ _ => assert (total ready op (fun _ => menu_ok)) as H end.
  - eapply total_bind; [apply when_total, press_down_ready|intros []].
    eapply total_bind; [apply when_total, press_up_ready|intros []].
    eapply (total_bind _ (fun _ => menu_ok)).
    { unfold when. apply total_if; [apply press_cross_ok|]. apply total_ret. by intros s [? _]. }
    intros []. eapply total_bind; [apply when_total, press_type_ok|intros []].
    apply when_total, press_type_ok.
  - destruct (H m) as ([] & m' & E & Hm'); [done|]. by exists m'.
Qed.
End InputProps.

Lemma mark_or_delete_ok : total menu_ok mark_or_delete (fun _ => menu_ok).
Proof.
  intros m (ps & ds & H). unfold mark_or_delete. step.
  destruct (entry_selected m) as [s|] eqn:Es; [|exists tt, m; split; [done|]; by exists ps, ds].
  destruct (selected_at _ _ _ _ H Es) as (i & e & Hi & He & Hx & Hd). step_by (read_Done _ _ _ He).
  case_bool_decide.
  - rewrite Hx. destruct (delete_entry_spec _ _ _ i H) as (m' & E & H' & _). exists tt, m'. split; [done|].
    by eexists _, _.
  - rewrite (update_Done _ _ _ _ He). eexists _, _. split; [reflexivity|].
    exists ps, (<[i := data (set_type MENU_WARNING e)]> ds).
    pose proof (links_insert _ _ _ _ _ _ _ (set_type MENU_WARNING) (holds_links _ _ _ H) Hi He eq_refl eq_refl eq_refl) as L.
    destruct H as [? ? ? ? ?]. by split.
Qed.

(** The same for the buttons that switch between the two menus and for the one
    that deletes from the right menu. *)
Lemma handleSpecInput_ok {pad : FagPad} buttons l r : menu_ok l -> menu_ok r ->
  exists l' r', handleSpecInput buttons l r = Done (l', r') /\ menu_ok l' /\ menu_ok r'.
Proof.
  intros Hl Hr. unfold handleSpecInput.
  set (p1 := if held buttons SCE_CTRL_LEFT then _ else _).
  assert (menu_ok p1.1 /\ menu_ok p1.2) as [Hl1 Hr1].
  { unfold p1. repeat case_match; simplify_eq; cbn; split; frame. }
  destruct p1 as [l1 r1]. cbn in Hl1, Hr1. clear Hl Hr.
  set (p2 := if held buttons SCE_CTRL_RIGHT then _ else _).
  assert (menu_ok p2.1 /\ menu_ok p2.2) as [Hl2 Hr2].
  { unfold p2. repeat case_match; simplify_eq; cbn; split; first [done|frame]. }
  destruct p2 as [l2 r2]. cbn in Hl2, Hr2.
  destruct (held buttons SCE_CTRL_CIRCLE && negb (menu_active r2 =? 0)); [|by exists l2, r2].
  destruct (mark_or_delete_ok r2 Hr2) as ([] & r' & E & Hr'). rewrite E. by exists l2, r'.
Qed.

(** Deleting the topmost entry that can be selected clears the selection,
    whatever stands below it: the inner condition assigns a pointer and never
    compares. *)
Lemma delete_clears_selection m ps ds k p : menu_holds m ps ds -> ps !! k = Some p ->
  entry_selected m = Some p -> above ds k = None ->
  exists m', MenuDeleteEntry (Z.of_nat k) m = Done (tt, m') /\ entry_selected m' = None.
Proof.
  intros H Hp Hs Ha. destruct (delete_entry_spec _ _ _ k H) as (m' & E & _ & Hs'). exists m'. split; [done|].
  rewrite Hs', Hs. apply lookup_lt_Some in Hp as Hk. replace (k <? length ps)%nat with true
    by (symmetry; by apply Nat.ltb_lt). unfold sel_after_delete.
  by rewrite Hp, bool_decide_eq_true_2, Ha.
Qed.

(** ** A concrete pad *)

Module SimPad.
#[export] Instance sim_pad : FagPad := {|
  SCE_CTRL_UP := 0x10; SCE_CTRL_DOWN := 0x40; SCE_CTRL_LEFT := 0x80; SCE_CTRL_RIGHT := 0x20;
  SCE_CTRL_CROSS := 0x4000; SCE_CTRL_CIRCLE := 0x2000; SCE_CTRL_START := 8;
|}.

(** every callback adds a line *)
Definition sim_call (cb i : Z) : M unit := _ ← MenuAddEntry MENU_NORMAL [108] (Some cb); mret tt.

Lemma sim_call_ok cb i : total menu_ok (sim_call cb i) (fun _ => menu_ok).
Proof.
  intros m (ps & ds & H). unfold sim_call.
  destruct (add_entry_spec _ _ _ MENU_NORMAL [108] (Some cb) H) as (p & m' & E & _ & H' & _).
  step_by E. exists tt, m'. split; [done|]. by eexists _, _.
Qed.
End SimPad.
Import SimPad.

Lemma fag_handleInput_ok_witness : exists m (ps : list positive),
  run_ops [OAdd MENU_TITLE [116] None; OAdd MENU_NORMAL [111] (Some 1)]
    (MenuCreate PANE_LEFT) = Done (tt, m) /\ entry_selected m = ps !! 1%nat /\
  exists m', handleInput sim_call 0x6058 (set_active 1 m) = Done (tt, m') /\ menu_ok m'.
Proof.
  destruct (run_ops_represents [OAdd MENU_TITLE [116] None; OAdd MENU_NORMAL [111] (Some 1)]
    _ _ _ (represents_create PANE_LEFT)) as (m & ps & E & H & Hs & _).
  exists m, ps. split; [exact E|]. split; [exact Hs|].
  apply (fag_handleInput_ok sim_call sim_call_ok 0x6058 (set_active 1 m)).
  apply (ok_frame m); try reflexivity. exists ps. eexists. exact H.
Defined.
