(* ===== verification/Kentente.v ===== *)
(** * The kernel plugin of FAGDec (FAGDec/src/kplugin/kentente.c)

    [decrypt_self] has the security processor decrypt the segments of a SELF
    file: it reads a segment in blocks of 64 KiB, hands each block over, and
    writes the result to a file of its own.  Kernel calls are the class
    [Entente]; pointers of the kernel heap are numbers, paths are strings.
    Written log texts are left out; the status they set is kept. *)

From stdpp Require Import prelude strings.
From S2P Require Import Prelude Bytes CString Yaml Hoare ElfTools.
Import ElfTools.Layout.

Class Entente (W : Type) := {
  PATH_MAX : nat;
  (** result and context *)
  sceSblAuthMgrSmStartForKernel : W -> (Z * Z) * W;
  sceSblAuthMgrSmFinalizeForKernel : Z -> W -> W;
  (** result, and the header and the context block afterwards *)
  sceSblAuthMgrAuthHeaderForKernel : Z -> mem -> Z -> mem -> W -> (Z * mem * mem) * W;
  sceSblAuthMgrLoadSelfSegmentForKernel : Z -> Z -> Z -> Z -> W -> Z * W;
  (** result, and the buffer afterwards *)
  sceSblAuthMgrLoadSelfBlockForKernel : Z -> mem -> Z -> W -> (Z * mem) * W;
  sceSysmemMallocForKernel : Z -> W -> option Z * W;
  sceSysmemFreeForKernel : Z -> W -> W;
  sceIoGetPathIdExForDriver : string -> W -> (Z * Z) * W;
  (** for reading, and with [SCE_O_WRONLY | SCE_O_CREAT | SCE_O_TRUNC] *)
  ksceIoOpen : string -> W -> Z * W;
  ksceIoOpen_create : string -> W -> Z * W;
  (** result and the bytes read *)
  ksceIoRead : Z -> Z -> W -> (Z * mem) * W;
  ksceIoWrite : Z -> mem -> W -> Z * W;
  ksceIoLseek : Z -> Z -> W -> Z * W;
  ksceIoClose : Z -> W -> W;
  ksceIoRename : string -> string -> W -> W;
  (** type and size *)
  ksceKernelAllocMemBlock : Z -> Z -> W -> Z * W;
  ksceKernelFreeMemBlock : Z -> W -> W;
  ksceKernelGetMemBlockBase : Z -> W -> Z * W;
  (** the first bytes of a memory block *)
  memblock_bytes : Z -> nat -> W -> mem;
  (** what a fresh buffer holds *)
  fresh_bytes : nat -> W -> mem;
  ksceNpDrmGetRifVitaKey : mem -> W -> (Z * mem) * W;
  CONTEXT_130_BASE_KERNEL : mem;
  CONTEXT_130_BASE_SCESHELL : mem;
}.

Definition ENTENTE_NONE : Z := 0.
Definition ENTENTE_UPDATE : Z := 1.
Definition ENTENTE_DONE : Z := 2.
Definition ENTENTE_DONESEG : Z := 3.
Definition HEADER_LEN : Z := 0x1000.
Definition BLOCK : Z := 0x10000.

Record ententeParams := Params {
  path : string; outpath : string; rifpath : option string;
  path_id : Z; usecdram : bool; self_auth : bool; self_type : Z }.

Record entente (W : Type) := EntenteState { status : Z; world : W }.
Arguments EntenteState {W}. Arguments status {W}. Arguments world {W}.

(** [encryption] of a segment *)
Definition seg_encryption (m : mem) (s i : Z) : run Z := load64 m (s + 32 * i + 24).

Section Entente.
Context {W : Type} `{!Entente W}.
Abbreviation M := (SM (entente W)).

Definition ecall {A} (f : W -> A * W) : M A := fun s =>
  let '(a, w) := f (world s) in Done (a, EntenteState (status s) w).
Definition ecall_ (f : W -> W) : M unit := sm_modify (fun s => EntenteState (status s) (f (world s))).
Definition eask {A} (f : W -> A) : M A := sm_gets (fun s => f (world s)).
Definition _log (stat : Z) : M unit := sm_modify (fun s => EntenteState stat (world s)).

Definition kuEntenteGetLogs : M unit := _log ENTENTE_NONE.
Definition kuEntenteStatus : M Z := sm_gets status.

(** The data buffer is handed on.  [while (length > 0 && (num_read = ksceIoRead(...)) > 0)]; a read error
    counts as a large [num_read]. *)
Fixpoint block_loop (fuel : nat) (fd wfd ctx : Z) (data : mem) (off length to_read : Z) : M mem :=
  match fuel with
  | O => fun _ => OutOfFuel
  | S fuel' =>
      if 0 <? length then
        '(r, bs) ← ecall (ksceIoRead fd to_read);
        let num_read := u32 r in
        if num_read =? 0 then mret data
        else
          data ← sm_lift (blit data off bs);
          let off := u32 (off + num_read) in
          let length := u32 (length - num_read) in
          if num_read <? to_read then block_loop fuel' fd wfd ctx data off length (to_read - num_read)
          else
            '(ret, data) ← ecall (sceSblAuthMgrLoadSelfBlockForKernel ctx data off);
            _ ← (if s32 ret <? 0 then _log ENTENTE_UPDATE else mret tt);
            _ ← ecall (ksceIoWrite wfd (take (Z.to_nat to_read) data));
            block_loop fuel' fd wfd ctx data 0 length (if BLOCK <? length then BLOCK else length)
      else mret data
  end.

(** [while ((off += ksceIoWrite(wfd, pgr_buf+off, p_filesz-off)) < p_filesz);] *)
Fixpoint write_loop (fuel : nat) (wfd : Z) (pgr_buf : mem) (off filesz : Z) : M unit :=
  match fuel with
  | O => fun _ => OutOfFuel
  | S fuel' =>
      bs ← sm_lift (slice pgr_buf off (Z.to_nat (u32 (filesz - off))));
      r ← ecall (ksceIoWrite wfd bs);
      let off := u32 (off + r) in
      if off <? filesz then write_loop fuel' wfd pgr_buf off filesz else mret tt
  end.

Definition temp_path (outpath : string) (i : Z) : string :=
  str_take (PATH_MAX - 1) (outpath +:+ ".temp" +:+ fmt_d i).
Definition seg_path (outpath : string) (i : Z) : string :=
  str_take (Nat.div PATH_MAX 2 - 1) (outpath +:+ ".seg" +:+ fmt_d i).

(** The old name is kept in the second half of the buffer. *)
Definition rename_segment (outpath : string) (i : Z) : M unit :=
  let temp := temp_path outpath i in
  if (Nat.div PATH_MAX 2 <=? String.length temp)%nat then fun _ => Fault FMem
  else ecall_ (ksceIoRename temp (seg_path outpath i)).

(** The body for an encrypted segment from the open file on; [inl ret] is a
    [break]. *)
Definition load_segment (fuel : nat) (ctx fd wfd blkid : Z) (hdr data : mem) (phdrs segs i : Z)
    (outpath : string) : M (Z + Z * mem) :=
  filesz ← sm_lift (p_filesz hdr phdrs i);
  len ← sm_lift (seg_length hdr segs i);
  r ← ecall (ksceKernelGetMemBlockBase blkid);
  if r <? 0 then mret (inl r)
  else
    r ← ecall (sceSblAuthMgrLoadSelfSegmentForKernel ctx i (u32 len) filesz);
    if r <? 0 then mret (inl r)
    else
      offset ← sm_lift (seg_offset hdr segs i);
      r ← ecall (ksceIoLseek fd offset);
      if s32 r <? 0 then mret (inl (s32 r))
      else
        let length := u32 len in
        data ← block_loop fuel fd wfd ctx data 0 length (if BLOCK <? length then BLOCK else length);
        pgr_buf ← eask (memblock_bytes blkid (Z.to_nat filesz));
        _ ← write_loop fuel wfd pgr_buf 0 filesz;
        _ ← ecall_ (ksceIoClose wfd);
        _ ← rename_segment outpath i;
        _ ← _log ENTENTE_DONESEG;
        mret (inr (s32 r, data)).

(** [for (int i = 0; i < e_phnum; i++)]: the block and the result left *)
Fixpoint segment_loop (n fuel : nat) (ctx fd wfd blkid : Z) (usecdram : bool) (hdr data : mem)
    (phdrs segs i : Z) (outpath : string) (ret : Z) : M (Z * Z) :=
  match n with
  | O => mret (blkid, ret)
  | S n' =>
      _ ← _log ENTENTE_UPDATE;
      enc ← sm_lift (seg_encryption hdr segs i);
      if enc =? 1 then
        _ ← ecall_ (ksceIoClose wfd);
        wfd ← ecall (ksceIoOpen_create (temp_path outpath i));
        if wfd <? 0 then mret (blkid, ret)
        else
          filesz ← sm_lift (p_filesz hdr phdrs i);
          let aligned_size := Z.land (u32 (filesz + 4095)) 0xFFFFF000 in
          _ ← (if negb (blkid =? 0) then ecall_ (ksceKernelFreeMemBlock blkid) else mret tt);
          blkid ← (if usecdram then ecall (ksceKernelAllocMemBlock 0x40404006 0x4000000)
                   else ecall (ksceKernelAllocMemBlock 0x1020D006 aligned_size));
          r ← load_segment fuel ctx fd wfd blkid hdr data phdrs segs i outpath;
          match r with
          | inl ret => mret (blkid, ret)
          | inr (ret, data) => segment_loop n' fuel ctx fd wfd blkid usecdram hdr data phdrs segs (i + 1) outpath ret
          end
      else segment_loop n' fuel ctx fd wfd blkid usecdram hdr data phdrs segs (i + 1) outpath ret
  end.

Definition free_opt (p : option Z) : M unit :=
  match p with Some p => ecall_ (sceSysmemFreeForKernel p) | None => mret tt end.

(** [fail:] *)
Definition fail (ctx fd : Z) (context_130 hdr_buf data_buf : option Z) : M Z :=
  _ ← _log ENTENTE_DONE;
  _ ← ecall_ (sceSblAuthMgrSmFinalizeForKernel ctx);
  _ ← (if negb (fd =? 0) then ecall_ (ksceIoClose fd) else mret tt);
  _ ← free_opt context_130;
  _ ← free_opt hdr_buf;
  _ ← free_opt data_buf;
  mret 1.

(** [called_self_auth_info] and its [klicensee] in [SceSblSmCommContext130] *)
Definition off_self_type : Z := 4.
Definition off_called : Z := 0x98.
Definition off_klicensee : Z := off_called + 0x60.
Definition off_path_id : Z := 0x128.

Definition base_context (klicensee : option mem) (self_type : Z) : run mem :=
  match klicensee with
  | None =>
      c ← blit (replicate 0x130 0) 0 CONTEXT_130_BASE_KERNEL;
      store32 c off_self_type self_type
  | Some k =>
      c ← blit (replicate 0x130 0) 0 CONTEXT_130_BASE_SCESHELL;
      blit c off_klicensee (take 16 k)
  end.

(** the authentication information of the file, without its key *)
Definition save_auth (outpath : string) (context : mem) : M unit :=
  wfd ← ecall (ksceIoOpen_create (str_take (PATH_MAX - 1) (outpath +:+ ".auth")));
  context ← sm_lift (blit context off_klicensee (replicate 16 0));
  info ← sm_lift (slice context off_called 0x90);
  _ ← ecall (ksceIoWrite wfd info);
  ecall_ (ksceIoClose wfd).

(** from the header buffer on *)
Definition decrypt_opened (fuel : nat) (ctx : Z) (p : ententeParams) (c h fd : Z) (context : mem) : M Z :=
  '(_, hdr) ← ecall (ksceIoRead fd HEADER_LEN);
  len ← sm_lift (header_len hdr);
  if HEADER_LEN <? len then fail ctx fd (Some c) (Some h) None
  else
    '(ret, hdr, context) ← ecall (sceSblAuthMgrAuthHeaderForKernel ctx hdr len context);
    if ret <? 0 then fail ctx fd (Some c) (Some h) None
    else
      elf ← sm_lift (elf_offset hdr);
      phdrs ← sm_lift (phdr_offset hdr);
      segs ← sm_lift (section_info_offset hdr);
      d ← ecall (sceSysmemMallocForKernel (BLOCK + 63));
      match d with
      | None => fail ctx fd (Some c) (Some h) None
      | Some d =>
          data ← eask (fresh_bytes (Z.to_nat BLOCK));
          n ← sm_lift (e_phnum hdr elf);
          '(blkid, ret) ← segment_loop (Z.to_nat n) fuel ctx fd 0 0 (usecdram p) hdr data phdrs segs 0
                            (outpath p) ret;
          _ ← (if negb (blkid =? 0) then ecall_ (ksceKernelFreeMemBlock blkid) else mret tt);
          _ ← (if self_auth p then save_auth (outpath p) context else mret tt);
          fail ctx fd (Some c) (Some h) (Some d)
      end.

Definition decrypt_self (fuel : nat) (p : ententeParams) (klicensee : option mem) : M Z :=
  '(ret, ctx) ← ecall sceSblAuthMgrSmStartForKernel;
  if ret <? 0 then mret 1
  else
    c ← ecall (sceSysmemMallocForKernel 0x130);
    match c with
    | None => fail ctx 0 None None None
    | Some c =>
        context ← sm_lift (base_context klicensee (self_type p));
        '(ret, id) ← (if 0 <=? path_id p then mret (0, path_id p)
                      else ecall (sceIoGetPathIdExForDriver (path p)));
        if ret <? 0 then fail ctx 0 (Some c) None None
        else
          context ← sm_lift (store32 context off_path_id id);
          h ← ecall (sceSysmemMallocForKernel (HEADER_LEN + 63));
          match h with
          | None => fail ctx 0 (Some c) None None
          | Some h =>
              fd ← ecall (ksceIoOpen (path p));
              if fd <? 0 then fail ctx fd (Some c) (Some h) None
              else decrypt_opened fuel ctx p c h fd context
          end
    end.

(** A null pointer from the heap is used unchecked. *)
Definition getlicensee_rif (rif : string) : M mem :=
  b ← ecall (sceSysmemMallocForKernel (0x200 + 63));
  b ← sm_lift (match b with Some b => Done b | None => Fault FNull end);
  buf ← eask (fresh_bytes 0x200);
  fd ← ecall (ksceIoOpen rif);
  '(_, bs) ← ecall (ksceIoRead fd 0x200);
  buf ← sm_lift (blit buf 0 bs);
  _ ← ecall_ (ksceIoClose fd);
  '(_, key) ← ecall (ksceNpDrmGetRifVitaKey buf);
  _ ← ecall_ (sceSysmemFreeForKernel b);
  mret key.

(** The copies of the paths live in buffers of the heap: [rif] is that of the
    licence with its buffer. *)
Definition decrypt_thread (fuel : nat) (p : ententeParams) (rif : option (string * Z)) (outb pathb : Z) : M unit :=
  _ ← _log ENTENTE_UPDATE;
  key ← (match rif with
         | Some (inpath, b) =>
             _ ← _log ENTENTE_UPDATE;
             k ← getlicensee_rif inpath;
             _ ← ecall_ (sceSysmemFreeForKernel b);
             mret (Some k)
         | None => mret None
         end);
  _ ← decrypt_self fuel p key;
  _ ← ecall_ (sceSysmemFreeForKernel outb);
  ecall_ (sceSysmemFreeForKernel pathb).

(** The buffers for the paths of the thread: licence, output and input.  The
    results of the allocations are used unchecked. *)
Definition hand_over (p : ententeParams) (inb outb pathb : option Z)
    : M (option (string * Z) * Z * Z) :=
  match pathb, outb with
  | Some pathb, Some outb =>
      match rifpath p, inb with
      | Some rif, Some b => mret (Some (rif, b), outb, pathb)
      | Some _, None => fun _ => Fault FNull
      | None, _ => _ ← free_opt inb; mret (None, outb, pathb)
      end
  | _, _ => fun _ => Fault FNull
  end.

Definition kuEntenteDecryptSelf (p : ententeParams) : M (option (string * Z) * Z * Z) :=
  outb ← ecall (sceSysmemMallocForKernel (Z.of_nat PATH_MAX + 63));
  inb ← ecall (sceSysmemMallocForKernel (Z.of_nat PATH_MAX + 63));
  pathb ← ecall (sceSysmemMallocForKernel (Z.of_nat PATH_MAX + 63));
  hand_over p inb outb pathb.

(** a request from the application, and the thread that it starts *)
Definition request (fuel : nat) (p : ententeParams) : M unit :=
  '(rif, outb, pathb) ← kuEntenteDecryptSelf p; decrypt_thread fuel p rif outb pathb.
End Entente.

(** ** Memory of the kernel heap *)

(** The blocks allocated and not yet freed; no other call changes them. *)
Class EntenteHeap (W : Type) `{!Entente W} := {
  live : W -> list Z;
  live_malloc n w : live (sceSysmemMallocForKernel n w).2 ≡ₚ
    option_list (sceSysmemMallocForKernel n w).1 ++ live w;
  live_free p l w : live w ≡ₚ p :: l -> live (sceSysmemFreeForKernel p w) ≡ₚ l;
  live_start w : live (sceSblAuthMgrSmStartForKernel w).2 ≡ₚ live w;
  live_finalize c w : live (sceSblAuthMgrSmFinalizeForKernel c w) ≡ₚ live w;
  live_header c h n x w : live (sceSblAuthMgrAuthHeaderForKernel c h n x w).2 ≡ₚ live w;
  live_segment c i n m w : live (sceSblAuthMgrLoadSelfSegmentForKernel c i n m w).2 ≡ₚ live w;
  live_block c d o w : live (sceSblAuthMgrLoadSelfBlockForKernel c d o w).2 ≡ₚ live w;
  live_pathid s w : live (sceIoGetPathIdExForDriver s w).2 ≡ₚ live w;
  live_open s w : live (ksceIoOpen s w).2 ≡ₚ live w;
  live_create s w : live (ksceIoOpen_create s w).2 ≡ₚ live w;
  live_read f n w : live (ksceIoRead f n w).2 ≡ₚ live w;
  live_write f d w : live (ksceIoWrite f d w).2 ≡ₚ live w;
  live_seek f o w : live (ksceIoLseek f o w).2 ≡ₚ live w;
  live_close f w : live (ksceIoClose f w) ≡ₚ live w;
  live_rename s t w : live (ksceIoRename s t w) ≡ₚ live w;
  live_memblock t n w : live (ksceKernelAllocMemBlock t n w).2 ≡ₚ live w;
  live_freeblock b w : live (ksceKernelFreeMemBlock b w) ≡ₚ live w;
  live_base b w : live (ksceKernelGetMemBlockBase b w).2 ≡ₚ live w;
  live_rif b w : live (ksceNpDrmGetRifVitaKey b w).2 ≡ₚ live w;
}.

Section Heap.
Context {W : Type} `{!Entente W, !EntenteHeap W}.
Abbreviation M := (SM (entente W)).

(** exactly the blocks [l] are allocated *)
Definition owns (l : list Z) (s : entente W) : Prop := live (world s) ≡ₚ l.
(** From [l] allocated, [m] ends with the blocks [l' a] when it returns [a]. *)
Definition turns {A} (l : list Z) (m : M A) (l' : A -> list Z) : Prop :=
  forall s a s', owns l s -> m s = Done (a, s') -> owns (l' a) s'.

Lemma turns_bind {A B} l (l1 : A -> list Z) (l2 : B -> list Z) (m : M A) (f : A -> M B) :
  turns l m l1 -> (forall a, turns (l1 a) (f a) l2) -> turns l (m ≫= f) l2.
Proof. intros Hm Hf s b s' Hs (a & s1 & E & E')%sm_bind_ends. by apply (Hf a s1 b s' (Hm s a s1 Hs E)). Qed.
(** a step that leaves the heap alone *)
Lemma turns_then {A B} l (l2 : B -> list Z) (m : M A) (f : A -> M B) :
  preserves (owns l) m -> (forall a, turns l (f a) l2) -> turns l (m ≫= f) l2.
Proof. intros Hm. apply turns_bind. intros s a s'. apply Hm. Qed.
Lemma turns_ret {A} l (l' : A -> list Z) a : l ≡ₚ l' a -> turns l (mret a) l'.
Proof. intros Hp s b s' Hs [= <- <-]. unfold owns in *. by rewrite Hs. Qed.
Lemma turns_lift {A B} l (l2 : B -> list Z) (a : A) (f : A -> M B) :
  turns l (f a) l2 -> turns l (sm_lift (Done a) ≫= f) l2.
Proof. intros H s b s' Hs E. by apply (H s b s' Hs). Qed.
Lemma turns_fault {A} l (l' : A -> list Z) f : turns l (fun _ => Fault f) l'.
Proof. by intros s a s' _ E. Qed.
Lemma turns_if {A} (b : bool) l (l' : A -> list Z) (m m' : M A) :
  turns l m l' -> turns l m' l' -> turns l (if b then m else m') l'.
Proof. by destruct b. Qed.

Lemma preserves_ecall {A} l (f : W -> A * W) : (forall w, live (f w).2 ≡ₚ live w) -> preserves (owns l) (ecall f).
Proof.
  intros H s a s' Hs. unfold ecall. specialize (H (world s)). destruct (f (world s)) as [b w].
  intros [= <- <-]. unfold owns in *. cbn in *. by rewrite H.
Qed.
Lemma preserves_ecall_ l (f : W -> W) : (forall w, live (f w) ≡ₚ live w) -> preserves (owns l) (ecall_ f).
Proof. intros H. apply preserves_modify. intros s Hs. unfold owns in *. cbn. by rewrite H. Qed.
Lemma preserves_log l st : preserves (owns l) (_log (W := W) st).
Proof. by apply preserves_modify. Qed.
Lemma preserves_eask {A} l (f : W -> A) : preserves (owns l) (eask f).
Proof. apply preserves_gets. Qed.
Hint Resolve preserves_log preserves_eask : preserves.
Hint Extern 1 (preserves _ (ecall _)) => apply preserves_ecall; intros ? : preserves.
Hint Extern 1 (preserves _ (ecall_ _)) => apply preserves_ecall_; intros ? : preserves.
Hint Resolve live_start live_finalize live_header live_segment live_block live_pathid live_open live_create
  live_read live_write live_seek live_close live_rename live_memblock live_freeblock live_base live_rif : preserves.

Lemma block_loop_keeps l fuel fd wfd ctx data off n r : preserves (owns l) (block_loop fuel fd wfd ctx data off n r).
Proof.
  revert data off n r. induction fuel as [|fuel IH]; intros data off n r; cbn [block_loop]; preserves_tac; apply IH.
Qed.
Lemma write_loop_keeps l fuel wfd b off n : preserves (owns l) (write_loop fuel wfd b off n).
Proof. revert off. induction fuel as [|fuel IH]; intros off; cbn [write_loop]; preserves_tac; apply IH. Qed.
Hint Resolve block_loop_keeps write_loop_keeps : preserves.
Lemma rename_keeps l o i : preserves (owns l) (rename_segment o i).
Proof. unfold rename_segment. preserves_tac. Qed.
Hint Resolve rename_keeps : preserves.
Lemma load_segment_keeps l fuel ctx fd wfd b hdr data ph sg i o :
  preserves (owns l) (load_segment fuel ctx fd wfd b hdr data ph sg i o).
Proof. unfold load_segment. preserves_tac. Qed.
Hint Resolve load_segment_keeps : preserves.
Lemma segment_loop_keeps l n : forall fuel ctx fd wfd b u hdr data ph sg i o r,
  preserves (owns l) (segment_loop n fuel ctx fd wfd b u hdr data ph sg i o r).
Proof. induction n as [|n IH]; intros; cbn [segment_loop]; preserves_tac; apply IH. Qed.
Lemma save_auth_keeps l o c : preserves (owns l) (save_auth o c).
Proof. unfold save_auth. preserves_tac. Qed.
Hint Resolve segment_loop_keeps save_auth_keeps : preserves.

(** *** Allocation and release *)

Lemma turns_malloc l n :
  turns l (ecall (sceSysmemMallocForKernel n)) (fun p => option_list p ++ l).
Proof.
  intros s p s' Hs. unfold ecall. pose proof (live_malloc n (world s)) as H.
  destruct (sceSysmemMallocForKernel n (world s)) as [q w]. cbn in H. intros [= <- <-].
  unfold owns in *. cbn. by rewrite H, Hs.
Qed.

Lemma turns_free_opt l p : turns (option_list p ++ l) (free_opt p) (fun _ => l).
Proof.
  intros s [] s' Hs. destruct p as [p|]; cbn in *; intros [= <-]; [|exact Hs].
  unfold owns in *. cbn. by apply live_free.
Qed.

Lemma turns_free l p : turns (p :: l) (ecall_ (sceSysmemFreeForKernel p)) (fun _ => l).
Proof. apply (turns_free_opt l (Some p)). Qed.

Lemma turns_fail l ctx fd c h d :
  turns (option_list c ++ option_list h ++ option_list d ++ l) (fail ctx fd c h d) (fun _ => l).
Proof.
  unfold fail. do 3 (apply turns_then; [by preserves_tac|intros ?]).
  eapply turns_bind; [apply turns_free_opt|intros ?].
  eapply turns_bind; [apply turns_free_opt|intros ?].
  eapply turns_bind; [apply turns_free_opt|intros ?]. by apply turns_ret.
Qed.

Lemma turns_perm {A} l1 l2 (m : M A) l' : l1 ≡ₚ l2 -> turns l1 m l' -> turns l2 m l'.
Proof. intros Hp H s a s' Hs. apply H. unfold owns in *. by rewrite Hs, Hp. Qed.

Local Ltac quiet := apply turns_then; [by preserves_tac|intros ?].
Local Tactic Notation "quiet" "as" simple_intropattern(p) := apply turns_then; [by preserves_tac|intros p].

Lemma turns_opened l fuel ctx p c h fd context :
  turns (h :: c :: l) (decrypt_opened fuel ctx p c h fd context) (fun _ => l).
Proof.
  assert (forall d : option Z, option_list (Some c) ++ option_list (Some h) ++ option_list d ++ l ≡ₚ
    option_list d ++ h :: c :: l) as Hp.
  { intros [d|]; cbn [option_list app]; [|apply Permutation_swap].
    etrans; [apply (Permutation_middle [h; d] l c)|apply perm_swap]. }
  assert (forall d, turns (option_list d ++ h :: c :: l) (fail ctx fd (Some c) (Some h) d) (fun _ => l)) as Hfail.
  { intros d. eapply turns_perm; [apply Hp|apply turns_fail]. }
  unfold decrypt_opened. quiet as [? hdr]. quiet. apply turns_if; [apply (Hfail None)|].
  quiet as [[ret hdr'] context']. apply turns_if; [apply (Hfail None)|]. do 3 quiet.
  eapply turns_bind; [apply turns_malloc|intros [d|]]; [|apply (Hfail None)].
  do 2 quiet. quiet as [blkid r]. do 2 quiet. apply (Hfail (Some d)).
Qed.

Lemma turns_decrypt_self l fuel p k : turns l (decrypt_self fuel p k) (fun _ => l).
Proof.
  unfold decrypt_self. quiet as [ret ctx]. apply turns_if; [by apply turns_ret|].
  eapply turns_bind; [apply turns_malloc|intros [c|]]; [|apply (turns_fail l ctx 0 None None None)].
  cbn [option_list app]. quiet. quiet as [r id].
  apply turns_if; [apply (turns_fail l ctx 0 (Some c) None None)|]. quiet.
  eapply turns_bind; [apply turns_malloc|intros [h|]]; [|apply (turns_fail l ctx 0 (Some c) None None)].
  cbn [option_list app]. quiet. apply turns_if; [|apply turns_opened].
  eapply turns_perm; [apply perm_swap|]. apply (turns_fail l ctx _ (Some c) (Some h) None).
Qed.

Lemma turns_getlicensee l rif : turns l (getlicensee_rif rif) (fun _ => l).
Proof.
  unfold getlicensee_rif. eapply turns_bind; [apply turns_malloc|intros [b|]]; cbn [option_list app].
  2: { intros s r s' _ E. discriminate E. }
  apply turns_lift. do 2 quiet. quiet as [? bs]. do 2 quiet. quiet as [? key].
  eapply turns_bind; [apply turns_free|intros ?]. by apply turns_ret.
Qed.

Lemma turns_decrypt_thread l fuel p rif outb pathb :
  turns (option_list (snd <$> rif) ++ outb :: pathb :: l) (decrypt_thread fuel p rif outb pathb) (fun _ => l).
Proof.
  unfold decrypt_thread. quiet.
  apply turns_bind with (l1 := fun _ => outb :: pathb :: l).
  { destruct rif as [[rif b]|]; cbn [option_list fmap option_fmap option_map snd app]; [|by apply turns_ret].
    quiet. eapply turns_bind; [apply turns_getlicensee|intros k].
    eapply turns_bind; [apply turns_free|intros ?]. by apply turns_ret. }
  intros k. eapply turns_bind; [apply turns_decrypt_self|intros ?].
  eapply turns_bind; [apply turns_free|intros ?]. apply turns_free.
Qed.

Lemma turns_request l fuel p : turns l (request fuel p) (fun _ => l).
Proof.
  unfold request. apply turns_bind with (l1 := fun '(rif, outb, pathb) => option_list (snd <$> rif) ++ outb :: pathb :: l);
    [|intros [[rif outb] pathb]; apply turns_decrypt_thread].
  unfold kuEntenteDecryptSelf.
  eapply turns_bind; [apply turns_malloc|intros outb].
  eapply turns_bind; [apply turns_malloc|intros inb].
  eapply turns_bind; [apply turns_malloc|intros pathb]. unfold hand_over.
  destruct pathb as [pathb|]; [|apply turns_fault]. destruct outb as [outb|]; [|apply turns_fault].
  cbn [option_list app].
  destruct (rifpath p) as [rif|].
  - destruct inb as [b|]; [|apply turns_fault]. apply turns_ret. cbn.
    etrans; [apply perm_swap|]. constructor. apply perm_swap.
  - eapply turns_perm; [symmetry; apply (Permutation_middle (option_list inb) (outb :: l) pathb)|].
    eapply turns_bind; [apply turns_free_opt|intros ?]. apply turns_ret. cbn. apply perm_swap.
Qed.

(** The heap of the plugin: whatever file is asked for and whatever fails
    on the way, a request that ends has freed every buffer it allocated, each
    one once, and no other. *)
Theorem request_frees_all fuel p s s' : request fuel p s = Done (tt, s') -> live (world s') ≡ₚ live (world s).
Proof. intros E. apply (turns_request (live (world s)) fuel p s tt s'); [by unfold owns|exact E]. Qed.
End Heap.

(** ** The blocks of a segment *)

(** A file that is read from front to back, a processor that decrypts a block in
    place, and an output file that writes append to *)
Class EntenteFile (W : Type) `{!Entente W} (fd wfd ctx : Z) := {
  rest : W -> mem;           (** what is still to be read *)
  blocks : W -> list mem;    (** the blocks handed over so far *)
  written : W -> mem;
  plain : mem -> mem;        (** the block decrypted *)
  plain_length b : length (plain b) = length b;
  read_rest n w : 0 <= n -> exists bs w', ksceIoRead fd n w = ((mlen bs, bs), w') /\ mlen bs <= n /\
    rest w = bs ++ rest w' /\ (bs = [] -> n = 0 \/ rest w = []) /\ blocks w' = blocks w /\ written w' = written w;
  load_block d off w : 0 <= off <= mlen d -> exists r w',
    sceSblAuthMgrLoadSelfBlockForKernel ctx d off w =
      ((r, plain (take (Z.to_nat off) d) ++ drop (Z.to_nat off) d), w') /\
    blocks w' = blocks w ++ [take (Z.to_nat off) d] /\ rest w' = rest w /\ written w' = written w;
  write_out bs w : exists r w', ksceIoWrite wfd bs w = (r, w') /\
    written w' = written w ++ bs /\ rest w' = rest w /\ blocks w' = blocks w;
}.

Definition block_size : nat := Z.to_nat BLOCK.
Lemma block_size_Z : Z.of_nat block_size = BLOCK.
Proof. apply Z2Nat.id. by unfold BLOCK. Qed.
Lemma BLOCK_range : 0 < BLOCK < 2 ^ 32.
Proof. by unfold BLOCK. Qed.
Lemma block_size_large : (16 <= block_size)%nat.
Proof. pose proof block_size_Z as H. unfold BLOCK in H. lia. Qed.
#[local] Opaque block_size BLOCK.

Fixpoint chunks_upto (k : nat) (l : mem) : list mem :=
  match k, l with
  | O, _ | _, [] => []
  | S k', _ => take block_size l :: chunks_upto k' (drop block_size l)
  end.
(** A list in blocks of 64 KiB, the last one shorter *)
Definition chunks (l : mem) : list mem := chunks_upto (length l) l.

Lemma chunks_upto_enough k l : (length l <= k)%nat -> chunks_upto k l = chunks l.
Proof.
  unfold chunks. revert l. induction k as [k IH] using lt_wf_ind. intros l Hk.
  destruct l as [|x l]; [by destruct k|]. destruct k as [|k]; [cbn in Hk; lia|].
  cbn [length] in *. unfold chunks_upto at 1 2; fold chunks_upto. f_equal.
  assert (length (drop block_size (x :: l)) <= length l)%nat as Hd.
  { rewrite length_drop. pose proof block_size_Z. pose proof BLOCK_range. cbn [length]. lia. }
  rewrite (IH k) by lia. destruct (decide (length l < S k)%nat) as [Hlt|]; [|lia].
  by rewrite (IH (length l)) by lia.
Qed.

Lemma chunks_cons l : l <> [] -> chunks l = take block_size l :: chunks (drop block_size l).
Proof.
  intros Hl. rewrite <- (chunks_upto_enough (S (length l)) l) by lia.
  destruct l as [|x l]; [done|]. unfold chunks_upto at 1; fold chunks_upto. f_equal.
  apply chunks_upto_enough. rewrite length_drop. lia.
Qed.

Section Blocks.
Context {W : Type} `{!Entente W} (fd wfd ctx : Z) `{!EntenteFile W fd wfd ctx}.
Implicit Types s : entente W.

Local Ltac step := erewrite sm_bind_Done by reflexivity.
Local Ltac step_by H := rewrite (sm_bind_Done _ _ _ _ _ H).

Lemma ecall_Done {A} (f : W -> A * W) s a w : f (world s) = (a, w) ->
  ecall f s = Done (a, EntenteState (status s) w).
Proof. intros H. unfold ecall. by rewrite H. Qed.

(** Every read returns as much as it was asked for, while there is as much. *)
Definition full_reads : Prop := forall n w bs w', 0 <= n <= mlen (rest w) ->
  ksceIoRead fd n w = ((mlen bs, bs), w') -> mlen bs = n.

(** A complete block: the processor and the output file get it. *)
Lemma finish_block fuel data off len n s : 0 <= off <= mlen data -> exists w data',
  (('(ret, data) ← ecall (sceSblAuthMgrLoadSelfBlockForKernel ctx data off);
    _ ← (if s32 ret <? 0 then _log ENTENTE_UPDATE else mret tt);
    _ ← ecall (ksceIoWrite wfd (take (Z.to_nat n) data));
    block_loop fuel fd wfd ctx data 0 len (if BLOCK <? len then BLOCK else len)) : SM (entente W) mem) s =
    block_loop fuel fd wfd ctx data' 0 len (if BLOCK <? len then BLOCK else len) w /\
  length data' = length data /\ rest (world w) = rest (world s) /\
  blocks (world w) = blocks (world s) ++ [take (Z.to_nat off) data] /\
  written (world w) = written (world s) ++
    take (Z.to_nat n) (plain (take (Z.to_nat off) data) ++ drop (Z.to_nat off) data).
Proof.
  intros Hoff. destruct (load_block data off (world s) Hoff) as (r & w1 & E1 & Hb1 & Hr1 & Hw1).
  step_by (ecall_Done _ s _ _ E1). set (data' := plain _ ++ _).
  set (st := if s32 r <? 0 then ENTENTE_UPDATE else status s).
  rewrite (sm_bind_Done _ _ _ tt (EntenteState st w1)) by (unfold st; by destruct (s32 r <? 0)).
  destruct (write_out (take (Z.to_nat n) data') w1) as (r2 & w2 & E2 & Hw2 & Hr2 & Hb2).
  step_by (ecall_Done (ksceIoWrite wfd _) (EntenteState st w1) _ _ E2).
  eexists _, data'. split; [reflexivity|]. cbn [world]. split_and!; try congruence.
  unfold data'. rewrite length_app, plain_length, length_take, length_drop. lia.
Qed.

(** The first block of a list that begins with a full block, or with all there is *)
Lemma chunks_first (p q : mem) : p <> [] -> (length p = block_size \/ (length p < block_size)%nat /\ q = []) ->
  chunks (p ++ q) = p :: chunks q.
Proof.
  intros Hp Hl. rewrite chunks_cons by (by destruct p). destruct Hl as [Hl|[Hl ->]].
  - by rewrite <- Hl, take_app_length, drop_app_length.
  - rewrite app_nil_r, take_ge, drop_ge by lia. done.
Qed.

Lemma block_loop_spec : forall fuel data off len to_read s,
  length data = block_size -> 0 <= off -> 0 <= len < 2 ^ 32 -> len <= mlen (rest (world s)) ->
  (len = 0 /\ off = 0 \/ 0 < to_read <= len /\ off + to_read = Z.min BLOCK (off + len)) ->
  (Z.to_nat len < fuel)%nat ->
  exists data' s', block_loop fuel fd wfd ctx data off len to_read s = Done (data', s') /\
    rest (world s') = drop (Z.to_nat len) (rest (world s)) /\
    blocks (world s') = blocks (world s) ++
      chunks (take (Z.to_nat off) data ++ take (Z.to_nat len) (rest (world s))) /\
    (full_reads -> off = 0 -> written (world s') = written (world s) ++
      concat (plain <$> chunks (take (Z.to_nat len) (rest (world s))))).
Proof.
  pose proof block_size_Z as Hbs. induction fuel as [|fuel IH]; intros data off len to_read s Hd Hoff Hlen Hr Hinv Hf;
    [lia|]. cbn [block_loop]. destruct (Z.ltb_spec 0 len) as [Hpos|Hz].
  2: { assert (len = 0) as -> by lia. assert (off = 0) as -> by lia. exists data, s.
       change (Z.to_nat 0) with 0%nat. rewrite drop_0, !take_0. cbn. rewrite !app_nil_r.
       split; [reflexivity|]. split; [reflexivity|]. split; [reflexivity|]. intros; reflexivity. }
  destruct Hinv as [?|[Htr Hinv]]; [lia|].
  destruct (read_rest to_read (world s)) as (bs & w & E & Hn & Hrest & Hnil & Hb & Hw); [lia|].
  step_by (ecall_Done _ s _ _ E). set (s1 := EntenteState _ w).
  assert (bs <> []) as Hne. { intros ->. destruct (Hnil eq_refl) as [?|E0]; [lia|]. rewrite E0 in Hr. unfold mlen in Hr. cbn [length] in Hr. lia. }
  assert (0 < mlen bs) as Hbpos by (destruct bs; [by destruct Hne|]; unfold mlen; cbn [length]; lia).
  pose proof BLOCK_range.
  assert (u32 (mlen bs) = mlen bs) as Hu by (unfold u32; apply Z.mod_small; lia). rewrite Hu.
  replace (mlen bs =? 0) with false by lia.
  set (data1 := take (Z.to_nat off) data ++ bs ++ drop (Z.to_nat off + length bs) data).
  assert (blit data off bs = Done data1) as Eb by (unfold blit, mlen in *; by replace (_ && _) with true by lia).
  rewrite (sm_bind_Done _ _ s1 data1 s1) by (unfold sm_lift; by rewrite Eb).
  assert (u32 (off + mlen bs) = off + mlen bs) as Hu1 by (unfold u32; apply Z.mod_small; lia).
  assert (u32 (len - mlen bs) = len - mlen bs) as Hu2 by (unfold u32; apply Z.mod_small; lia). rewrite Hu1, Hu2.
  assert (length data1 = block_size) as Hd1.
  { unfold data1, mlen in *. rewrite !length_app, length_take, length_drop. lia. }
  assert (take (Z.to_nat (off + mlen bs)) data1 = take (Z.to_nat off) data ++ bs) as Ht.
  { unfold data1. rewrite app_assoc. apply take_app_length'. unfold mlen in *. rewrite length_app, length_take. lia. }
  assert (mlen (rest (world s)) = mlen bs + mlen (rest w)) as Hml by (rewrite Hrest; unfold mlen; rewrite length_app; lia).
  assert (take (Z.to_nat len) (rest (world s)) = bs ++ take (Z.to_nat (len - mlen bs)) (rest w)) as Htl.
  { rewrite Hrest, take_app_ge by (unfold mlen in *; lia). do 2 f_equal. unfold mlen in *. lia. }
  assert (drop (Z.to_nat (len - mlen bs)) (rest w) = drop (Z.to_nat len) (rest (world s))) as Hdl.
  { rewrite Hrest, drop_app_ge by (unfold mlen in *; lia). f_equal. unfold mlen in *. lia. }
  destruct (Z.ltb_spec (mlen bs) to_read) as [Hlt|Hge].
  - destruct (IH data1 (off + mlen bs) (len - mlen bs) (to_read - mlen bs) s1) as (data' & s' & E' & H1 & H2 & _);
      [done|lia|lia|cbn; lia|right; lia|lia|].
    exists data', s'. split; [exact E'|]. split; [rewrite H1; exact Hdl|].
    split; [rewrite H2, Ht; cbn [world s1]; rewrite Hb, Htl, app_assoc; done|].
    intros Hfull _. pose proof (Hfull to_read (world s) bs w ltac:(lia) E). lia.
  - assert (mlen bs = to_read) as Hfin by lia.
    destruct (finish_block fuel data1 (off + mlen bs) (len - mlen bs) to_read s1) as (s2 & data2 & E2 & Hl2 & Hr2 & Hb2 & Hw2);
      [unfold mlen in *; lia|]. rewrite E2.
    destruct (IH data2 0 (len - mlen bs) (if BLOCK <? len - mlen bs then BLOCK else len - mlen bs) s2)
      as (data' & s' & E' & H1 & H2 & H3);
      [congruence|lia|lia|rewrite Hr2; cbn; lia|destruct (Z.ltb_spec BLOCK (len - mlen bs)); lia|lia|].
    exists data', s'. split; [exact E'|]. rewrite H1, Hr2. split; [exact Hdl|].
    assert (chunks (take (Z.to_nat off) data ++ take (Z.to_nat len) (rest (world s))) =
      (take (Z.to_nat off) data ++ bs) :: chunks (take (Z.to_nat (len - mlen bs)) (rest w))) as Hc.
    { rewrite Htl, app_assoc. apply chunks_first; [by destruct (take (Z.to_nat off) data), bs|].
      rewrite length_app, length_take. unfold mlen in *. destruct (Z.le_gt_cases BLOCK (off + len)); [left; lia|].
      right. split; [lia|]. by replace (Z.to_nat (len - Z.of_nat (length bs))) with 0%nat by lia. }
    split.
    + rewrite H2, Hb2, Ht, Hc, Hr2. cbn [world s1]. change (Z.to_nat 0) with 0%nat. rewrite take_0, Hb.
      by rewrite <- app_assoc.
    + intros Hfull ->. rewrite (H3 Hfull eq_refl), Hw2, Hr2, Ht. change (Z.to_nat 0) with 0%nat in *.
      rewrite take_0 in *. cbn [app] in Hc |- *. rewrite Hc. cbn [world s1 fmap list_fmap concat].
      rewrite Hw, <- app_assoc. do 2 f_equal. apply take_app_length'.
      rewrite plain_length. unfold mlen in *. lia.
Qed.

(** C15: Whatever portions the segment is read in, the processor is handed
    exactly its blocks of 64 KiB, in order and complete, and the reads stop
    behind the segment; when no read is short, the output is the blocks
    decrypted. *)
Theorem blocks_decrypted len data s :
  0 <= len < 2 ^ 32 -> len <= mlen (rest (world s)) -> length data = block_size ->
  exists data' s', block_loop (S (Z.to_nat len)) fd wfd ctx data 0 len (if BLOCK <? len then BLOCK else len) s =
      Done (data', s') /\
    rest (world s') = drop (Z.to_nat len) (rest (world s)) /\
    blocks (world s') = blocks (world s) ++ chunks (take (Z.to_nat len) (rest (world s))) /\
    (full_reads -> written (world s') = written (world s) ++
      concat (plain <$> chunks (take (Z.to_nat len) (rest (world s))))).
Proof.
  intros Hlen Hr Hd. pose proof BLOCK_range.
  destruct (block_loop_spec (S (Z.to_nat len)) data 0 len (if BLOCK <? len then BLOCK else len) s)
    as (data' & s' & E & H1 & H2 & H3); [done|lia|done|done|destruct (Z.ltb_spec BLOCK len); lia|lia|].
  exists data', s'. split; [exact E|]. split; [done|]. split; [exact H2|]. intros Hf. by apply H3.
Qed.

(** A short read loses data: when a block is read in two portions, only as
    many bytes of it are written as the second portion held. *)
Theorem short_read_truncates fuel data a b s w1 w2 :
  a <> [] -> b <> [] -> mlen (a ++ b) <= BLOCK -> length data = block_size ->
  ksceIoRead fd (mlen (a ++ b)) (world s) = ((mlen a, a), w1) ->
  ksceIoRead fd (mlen b) w1 = ((mlen b, b), w2) -> written w2 = written (world s) ->
  exists data' s', block_loop (S (S (S fuel))) fd wfd ctx data 0 (mlen (a ++ b)) (mlen (a ++ b)) s = Done (data', s') /\
    written (world s') = written (world s) ++ take (length b) (plain (a ++ b)).
Proof.
  intros Ha Hb Hl Hd E1 E2 Hw. pose proof block_size_Z as Hbs. unfold mlen in Hl. rewrite length_app in Hl.
  assert (0 < mlen a) by (destruct a; [by destruct Ha|]; unfold mlen; cbn [length]; lia).
  assert (0 < mlen b) by (destruct b; [by destruct Hb|]; unfold mlen; cbn [length]; lia).
  assert (mlen (a ++ b) = mlen a + mlen b) as Hab by (unfold mlen; rewrite length_app; lia).
  pose proof BLOCK_range. assert (mlen a + mlen b <= BLOCK) by (unfold mlen; lia).
  assert (forall x, 0 <= x <= BLOCK -> u32 x = x) as Hu by (intros; unfold u32; apply Z.mod_small; lia).
  set (f1 := S fuel). set (f2 := S f1). cbn [block_loop]. replace (0 <? mlen (a ++ b)) with true by lia. step_by (ecall_Done _ s _ _ E1).
  rewrite (Hu (mlen a)) by lia. replace (mlen a =? 0) with false by lia.
  set (d1 := a ++ drop (length a) data).
  assert (blit data 0 a = Done d1) as B1 by (unfold blit, mlen in *; replace (_ && _) with true by lia; done).
  rewrite (sm_bind_Done _ _ _ d1 (EntenteState (status s) w1)) by (unfold sm_lift; by rewrite B1).
  rewrite Z.add_0_l, (Hu (mlen a)), (Hu (mlen (a ++ b) - mlen a)) by lia.
  replace (mlen a <? mlen (a ++ b)) with true by lia.
  replace (mlen (a ++ b) - mlen a) with (mlen b) by lia.
  unfold f2. cbn [block_loop]. replace (0 <? mlen b) with true by lia.
  step_by (ecall_Done _ (EntenteState (status s) w1) _ _ E2).
  rewrite (Hu (mlen b)) by lia. replace (mlen b =? 0) with false by lia.
  set (d2 := (a ++ b) ++ drop (length a + length b) data).
  assert (length d2 = block_size) as Hd2 by (unfold d2, mlen in *; rewrite !length_app, length_drop; lia).
  assert (blit d1 (mlen a) b = Done d2) as B2.
  { unfold blit, d1, mlen in *. rewrite length_app, length_drop. replace (_ && _) with true by lia.
    rewrite Nat2Z.id, take_app_length, drop_app_ge by lia. unfold d2. rewrite <- app_assoc, drop_drop. do 3 f_equal. f_equal. lia. }
  rewrite (sm_bind_Done _ _ _ d2 (EntenteState (status (EntenteState (status s) w1)) w2)) by (unfold sm_lift; by rewrite B2).
  rewrite (Hu (mlen a + mlen b)), Z.sub_diag, (Hu 0), Z.ltb_irrefl by lia. cbn [status].
  destruct (finish_block f1 d2 (mlen a + mlen b) 0 (mlen b) (EntenteState (status s) w2))
    as (s' & d' & E & _ & _ & _ & Hw'); [unfold mlen in *; lia|]. rewrite E.
  unfold f1. cbn [block_loop]. eexists d', s'. split; [reflexivity|]. rewrite Hw'. cbn [world]. rewrite Hw. f_equal.
  assert (take (Z.to_nat (mlen a + mlen b)) d2 = a ++ b) as ->
    by (unfold d2; apply take_app_length'; unfold mlen; rewrite length_app; lia).
  rewrite take_app_le; [unfold mlen; by rewrite Nat2Z.id|]. rewrite plain_length, length_app. unfold mlen. lia.
Qed.
End Blocks.

(** The loop that writes the decrypted segment never ends on a disk that
    takes no more bytes: a result of 0 is no progress and no error. *)
Theorem full_disk_diverges {W} `{!Entente W} fuel wfd pgr_buf filesz (s : entente W) :
  (forall bs w, (ksceIoWrite wfd bs w).1 = 0) -> 0 < filesz < 2 ^ 32 -> filesz <= mlen pgr_buf ->
  write_loop fuel wfd pgr_buf 0 filesz s = OutOfFuel.
Proof.
  intros H0 Hf Hl. revert s. induction fuel as [|fuel IH]; intros s; [done|]. cbn [write_loop].
  assert (u32 (filesz - 0) = filesz) as -> by (unfold u32; rewrite Z.sub_0_r; apply Z.mod_small; lia).
  destruct (slice_total pgr_buf 0 (Z.to_nat filesz)) as [bs Hbs]; [lia|lia|].
  rewrite (sm_bind_Done _ _ s bs s) by (unfold sm_lift; by rewrite Hbs).
  pose proof (H0 bs (world s)) as E. destruct (ksceIoWrite wfd bs (world s)) as [r w] eqn:Ew. cbn in E. subst r.
  rewrite (sm_bind_Done _ _ s 0 (EntenteState (status s) w)) by (unfold ecall; by rewrite Ew).
  change (u32 (0 + 0)) with 0. replace (0 <? filesz) with true by lia. apply IH.
Qed.

(** ** A concrete kernel *)

Module SimEntente.
Record kernel := Kernel {
  k_rest : mem;            (** the file being read *)
  k_limit : Z;             (** the most that one read returns *)
  k_blocks : list mem;
  k_written : mem;
  k_live : list Z;
}.

Definition set_rest l k := Kernel l (k_limit k) (k_blocks k) (k_written k) (k_live k).
Definition add_block b k := Kernel (k_rest k) (k_limit k) (k_blocks k ++ [b]) (k_written k) (k_live k).
Definition add_written b k := Kernel (k_rest k) (k_limit k) (k_blocks k) (k_written k ++ b) (k_live k).
Definition set_live l k := Kernel (k_rest k) (k_limit k) (k_blocks k) (k_written k) l.

Definition sim_read (n : Z) (k : kernel) : (Z * mem) * kernel :=
  let m := Z.to_nat (Z.min n (Z.max 1 (k_limit k))) in
  let bs := take m (k_rest k) in ((mlen bs, bs), set_rest (drop m (k_rest k)) k).
Fixpoint remove_one (p : Z) (l : list Z) : list Z :=
  match l with [] => [] | x :: l' => if x =? p then l' else x :: remove_one p l' end.
Lemma remove_one_perm p l : p ∈ l -> l ≡ₚ p :: remove_one p l.
Proof.
  induction l as [|x l IH]; [by intros ?%elem_of_nil|]. cbn [remove_one].
  destruct (Z.eqb_spec x p) as [->|Hne]; [done|]. intros [?|Hin]%elem_of_cons; [by subst|].
  rewrite (IH Hin) at 1. apply perm_swap.
Qed.
Definition sim_free (p : Z) (k : kernel) : kernel := set_live (remove_one p (k_live k)) k.
Definition flip_bits (b : mem) : mem := (fun x => Z.lxor x 0xFF) <$> b.

(** [full]: the disk takes no more bytes *)
Definition sim (full : bool) : Entente kernel := {|
  PATH_MAX := 1024;
  sceSblAuthMgrSmStartForKernel k := ((0, 5), k);
  sceSblAuthMgrSmFinalizeForKernel _ k := k;
  sceSblAuthMgrAuthHeaderForKernel _ h _ c k := ((0, h, c), k);
  sceSblAuthMgrLoadSelfSegmentForKernel _ _ _ _ k := (0, k);
  sceSblAuthMgrLoadSelfBlockForKernel _ d off k :=
    ((0, flip_bits (take (Z.to_nat off) d) ++ drop (Z.to_nat off) d), add_block (take (Z.to_nat off) d) k);
  sceSysmemMallocForKernel _ k :=
    let p := Z.of_nat (length (k_live k)) + 1 in (Some p, set_live (p :: k_live k) k);
  sceSysmemFreeForKernel := sim_free;
  sceIoGetPathIdExForDriver _ k := ((0, 7), k);
  ksceIoOpen _ k := (3, k);
  ksceIoOpen_create _ k := (4, k);
  ksceIoRead _ := sim_read;
  ksceIoWrite _ bs k := if full then (0, k) else (mlen bs, add_written bs k);
  ksceIoLseek _ o k := (o, k);
  ksceIoClose _ k := k;
  ksceIoRename _ _ k := k;
  ksceKernelAllocMemBlock _ _ k := (9, k);
  ksceKernelFreeMemBlock _ k := k;
  ksceKernelGetMemBlockBase _ k := (0, k);
  memblock_bytes _ n _ := replicate n 0;
  fresh_bytes n _ := replicate n 0xAA;
  ksceNpDrmGetRifVitaKey _ k := ((0, replicate 16 1), k);
  CONTEXT_130_BASE_KERNEL := replicate 0x130 0;
  CONTEXT_130_BASE_SCESHELL := replicate 0x130 0;
|}.

Definition sim_file : EntenteFile kernel (Entente0 := sim false) 3 4 5.
Proof.
  refine {| rest := k_rest : kernel -> mem; blocks := k_blocks; written := k_written; plain := flip_bits |}.
  - intros b. apply length_fmap.
  - intros n w Hn. cbn. unfold sim_read. set (m := Z.to_nat _).
    exists (take m (k_rest w)), (set_rest (drop m (k_rest w)) w). split; [done|]. cbn.
    split; [unfold mlen; rewrite length_take; lia|]. split; [by rewrite take_drop|]. split; [|done].
    intros E. destruct (k_rest w) as [|x l] eqn:El; [by right|left].
    assert (m = 0)%nat by (destruct m; [done|discriminate E]). lia.
  - intros d off w Hoff. by eexists _, _.
  - intros bs w. by eexists _, _.
Defined.

Definition sim_heap : EntenteHeap kernel (Entente0 := sim false).
Proof.
  refine {| live := k_live : kernel -> list Z |}; try done.
  intros p l w Hl. cbn. apply (Permutation_cons_inv (a := p)). rewrite <- Hl. symmetry.
  apply remove_one_perm. rewrite Hl. by left.
Defined.
End SimEntente.
Import SimEntente.

(** A SELF whose header claims to be longer than the buffer *)
Definition long_header : kernel := Kernel (replicate 16 0 ++ le 8 0x2000) 4096 [] [] [42].

Lemma request_frees_all_witness : exists s',
  request (Entente0 := sim false) 0 (Params "a" "b" None (-1) false false 1)
    (EntenteState ENTENTE_DONE long_header) = Done (tt, s') /\
  k_live (world s') ≡ₚ [42].
Proof.
  eexists. split; [vm_compute; reflexivity|].
  apply (request_frees_all (Entente0 := sim false) (EntenteHeap0 := sim_heap) 0
    (Params "a" "b" None (-1) false false 1) (EntenteState ENTENTE_DONE long_header)).
  vm_compute. reflexivity.
Defined.

Definition four_bytes (limit : Z) : entente kernel := EntenteState ENTENTE_UPDATE (Kernel [1; 2; 3; 4] limit [] [] []).

(** three of four bytes, read two at a time *)
Lemma blocks_decrypted_witness : exists data' s',
  block_loop (Entente0 := sim false) 4 3 4 5 (replicate block_size 0) 0 3 3 (four_bytes 2) = Done (data', s') /\
  k_blocks (world s') = [[1; 2; 3]].
Proof.
  destruct (blocks_decrypted (Entente0 := sim false) 3 4 5 (EntenteFile0 := sim_file) 3 (replicate block_size 0)
    (four_bytes 2)) as (data' & s' & E & _ & Hb & _); [lia|vm_compute; discriminate|apply length_replicate|].
  exists data', s'. split; [exact E|]. etrans; [exact Hb|]. pose proof block_size_large.
  apply (chunks_first [1; 2; 3] []); [discriminate|right]. cbn [length]. split; [lia|reflexivity].
Defined.

Lemma short_read_truncates_witness : exists data' s',
  block_loop (Entente0 := sim false) 3 3 4 5 (replicate block_size 0) 0 3 3 (four_bytes 2) = Done (data', s') /\
  k_written (world s') = [0xFE].
Proof.
  apply (short_read_truncates (Entente0 := sim false) 3 4 5 (EntenteFile0 := sim_file) 0 (replicate block_size 0)
    [1; 2] [3] (four_bytes 2) (Kernel [3; 4] 2 [] [] []) (Kernel [4] 2 [] [] []));
    [discriminate|discriminate|vm_compute; discriminate|apply length_replicate|reflexivity|reflexivity|reflexivity].
Defined.

Lemma full_disk_diverges_witness : forall fuel,
  write_loop (Entente0 := sim true) fuel 4 [1; 2] 0 2 (four_bytes 2) = OutOfFuel.
Proof.
  intros fuel. apply (full_disk_diverges (Entente0 := sim true) fuel 4 [1; 2] 2 (four_bytes 2));
    [reflexivity|lia|vm_compute; discriminate].
Defined.
