(* ===== verification/Zlib.v ===== *)
(** * zlib

    The compression library as the class [Zlib], what the programs rely on of
    it as the class [ZlibLaws], and a small instance of both, [Stored], on which
    the theorems are tried. *)

From stdpp Require Import prelude.
From S2P Require Import Prelude Bytes.

Definition Z_OK : Z := 0.
Definition Z_STREAM_END : Z := 1.
Definition Z_NEED_DICT : Z := 2.
Definition Z_ERRNO : Z := -1.
Definition Z_STREAM_ERROR : Z := -2.
Definition Z_DATA_ERROR : Z := -3.
Definition Z_MEM_ERROR : Z := -4.
Definition Z_BUF_ERROR : Z := -5.
Definition Z_NO_FLUSH : Z := 0.
Definition Z_FINISH : Z := 4.
Definition Z_DEFAULT_COMPRESSION : Z := -1.

(** What a call to [deflate] or [inflate] gives: the return code, the bytes
    put into the output buffer, how many bytes of the input it took, and the
    state of the stream. *)
Record zstep (S : Type) := ZStep { ret : Z; out : mem; used : nat; next : S }.
Arguments ZStep {S}. Arguments ret {S}. Arguments out {S}. Arguments used {S}. Arguments next {S}.

Class Zlib (D I : Type) := {
  deflateInit : Z -> Z * D;
  (** state, flush, available input, space in the output buffer *)
  deflate : D -> Z -> mem -> nat -> zstep D;
  inflateInit : Z * I;
  inflate : I -> mem -> nat -> zstep I;
}.

(** The documented behaviour.  [inflates st i o]: [i] is the rest of a stream
    and [o] the rest of what it decompresses to; [corrupt i]: no stream begins
    like this.  [running st i o]: the compressor has taken [i] and given [o];
    [finishing st p i o]: it is being flushed and [p] is still to be taken;
    [to_come] bounds what it has yet to give. *)
Class ZlibLaws (D I : Type) `{!Zlib D I} := {
  inflates : I -> mem -> mem -> Prop;
  corrupt : mem -> Prop;
  running : D -> mem -> mem -> Prop;
  finishing : D -> mem -> mem -> mem -> Prop;
  to_come : D -> mem -> nat;
  inflateInit_ok : inflateInit.1 = Z_OK;
  inflates_nonempty o : ~ inflates inflateInit.2 [] o;
  inflate_stream st i1 i2 o avail : inflates st (i1 ++ i2) o -> (0 < avail)%nat ->
    let r := inflate st i1 avail in exists o',
    o = out r ++ o' /\ inflates (next r) (drop (used r) i1 ++ i2) o' /\
    (length (out r) <= avail)%nat /\
    (ret r = Z_STREAM_END /\ o' = [] /\ drop (used r) i1 ++ i2 = [] \/
     ret r = Z_OK \/ ret r = Z_BUF_ERROR /\ out r = [] /\ used r = 0%nat) /\
    ((length (out r) < avail)%nat -> drop (used r) i1 = [] /\ (i2 = [] -> ret r = Z_STREAM_END));
  inflate_corrupt i1 i2 avail : corrupt (i1 ++ i2) -> (2 <= length i1)%nat ->
    ret (inflate inflateInit.2 i1 avail) = Z_DATA_ERROR;
  deflateInit_running level : (deflateInit level).1 = Z_OK -> running (deflateInit level).2 [] [];
  running_finishing st p i o : running st i o -> finishing st p i o;
  deflate_running st p i o avail : running st i o -> (0 < avail)%nat ->
    let r := deflate st Z_NO_FLUSH p avail in
    running (next r) (i ++ take (used r) p) (o ++ out r) /\ (length (out r) <= avail)%nat /\
    ret r <> Z_STREAM_ERROR /\
    (to_come (next r) (drop (used r) p) + length (out r) <= to_come st p)%nat /\
    ((length (out r) < avail)%nat -> drop (used r) p = []);
  deflate_finishing st p i o avail : finishing st p i o -> (0 < avail)%nat ->
    let r := deflate st Z_FINISH p avail in
    finishing (next r) (drop (used r) p) (i ++ take (used r) p) (o ++ out r) /\
    (length (out r) <= avail)%nat /\ ret r <> Z_STREAM_ERROR /\
    (to_come (next r) (drop (used r) p) + length (out r) <= to_come st p)%nat /\
    ((length (out r) < avail)%nat -> drop (used r) p = [] /\ ret r = Z_STREAM_END /\
       inflates inflateInit.2 (o ++ out r) (i ++ p));
}.

(** ** A zlib to try the theorems on

    Each byte is stored behind a one, and a zero ends the stream. *)

Module Stored.
Record dst := Dst { queue : mem; flushed : bool }.
Record ist := Ist { phase : Z; pend : mem }.

Definition enc (i : mem) : mem := b ← i; [1; b].
Definition feed1 (st : ist) (b : Z) : ist :=
  if phase st =? 0 then
    Ist (if b =? 0 then 2 else if b =? 1 then 1 else 3) (pend st)
  else if phase st =? 1 then Ist 0 (pend st ++ [b])
  else Ist 3 (pend st).
Definition feed (st : ist) (i : mem) : ist := foldl feed1 st i.

#[export] Instance zlib : Zlib dst ist := {
  deflateInit _ := (0, Dst [] false);
  deflate st flush inp avail :=
    let q := queue st ++ enc inp ++ (if (flush =? Z_FINISH) && negb (flushed st) then [0] else []) in
    ZStep (if (flush =? Z_FINISH) && (length (drop avail q) =? 0)%nat then Z_STREAM_END else Z_OK)
      (take avail q) (length inp) (Dst (drop avail q) (flushed st || (flush =? Z_FINISH)));
  inflateInit := (0, Ist 0 []);
  inflate st inp avail :=
    let st := feed st inp in
    if phase st =? 3 then ZStep Z_DATA_ERROR [] (length inp) st
    else ZStep (if (phase st =? 2) && (length (drop avail (pend st)) =? 0)%nat then Z_STREAM_END else Z_OK)
      (take avail (pend st)) (length inp) (Ist (phase st) (drop avail (pend st)));
}.

Lemma feed_app st i1 i2 : feed st (i1 ++ i2) = feed (feed st i1) i2.
Proof. apply foldl_app. Qed.
Lemma feed_bad st i : phase st = 3 -> phase (feed st i) = 3.
Proof.
  revert st. induction i as [|b i IH]; intros st H; [done|].
  change (feed st (b :: i)) with (feed (feed1 st b) i). apply IH. unfold feed1. by rewrite H.
Qed.
Lemma feed_pend ph p i : feed (Ist ph p) i = Ist (phase (feed (Ist ph []) i)) (p ++ pend (feed (Ist ph []) i)).
Proof.
  assert (forall st, feed (Ist (phase st) (p ++ pend st)) i =
    Ist (phase (feed st i)) (p ++ pend (feed st i))) as H.
  { induction i as [|b i IH]; intros st; [done|].
    change (feed ?st (b :: i)) with (feed (feed1 st b) i). rewrite <- IH. f_equal.
    unfold feed1. cbn [phase pend]. case_match; [done|]. case_match; [|done]. cbn. by rewrite app_assoc. }
  specialize (H (Ist ph [])). cbn [phase pend] in H. by rewrite app_nil_r in H.
Qed.
Lemma feed_end st i : phase st = 2 -> phase (feed st i) = 2 -> i = [].
Proof.
  intros H. destruct i as [|b i]; [done|]. change (feed st (b :: i)) with (feed (feed1 st b) i).
  intros E. rewrite feed_bad in E; [done|]. unfold feed1. by rewrite H.
Qed.
Lemma feed_enc i p : feed (Ist 0 p) (enc i ++ [0]) = Ist 2 (p ++ i).
Proof.
  revert p. induction i as [|b i IH]; intros p; [by rewrite app_nil_r|].
  change (enc (b :: i)) with (1 :: b :: enc i). cbn [app feed foldl].
  change (feed1 (feed1 (Ist 0 p) 1) b) with (Ist 0 (p ++ [b])). unfold feed in IH. rewrite IH.
  by rewrite <- app_assoc.
Qed.
Lemma enc_app a b : enc (a ++ b) = enc a ++ enc b.
Proof. apply bind_app. Qed.
Lemma enc_length a : length (enc a) = (2 * length a)%nat.
Proof. induction a as [|b a IH]; [done|]. change (enc (b :: a)) with (1 :: b :: enc a). cbn in *. lia. Qed.

#[export, refine] Instance zlib_laws : ZlibLaws dst ist := {
  inflates st i o := feed st i = Ist 2 o;
  corrupt i := exists b t, i = b :: t /\ b <> 0 /\ b <> 1;
  running st i o := flushed st = false /\ o ++ queue st = enc i;
  finishing st p i o := flushed st = false /\ o ++ queue st = enc i \/
    flushed st = true /\ p = [] /\ o ++ queue st = enc i ++ [0];
  to_come st p := (length (queue st) + 2 * length p + (if flushed st then 0 else 1))%nat;
}.
Proof.
  - done.
  - by intros o.
  - intros [ph p] i1 i2 o avail H Ha. rewrite feed_app in H. cbn [inflate zlib].
    destruct (feed (Ist ph p) i1) as [ph1 p1] eqn:E1. cbn [phase pend].
    assert (ph1 <> 3) as Hne.
    { intros ->. pose proof (feed_bad (Ist 3 p1) i2 eq_refl) as H'. by rewrite H in H'. }
    rewrite (proj2 (Z.eqb_neq _ _) Hne). cbn [ret out used next]. rewrite drop_all.
    rewrite feed_pend in H. injection H as H2 Ho. exists (drop avail p1 ++ pend (feed (Ist ph1 []) i2)).
    rewrite app_assoc, take_drop. split_and!.
    + done.
    + cbn [app]. by rewrite feed_pend, H2.
    + rewrite length_take. lia.
    + destruct ((ph1 =? 2) && (length (drop avail p1) =? 0)%nat) eqn:Eb; [left|by right; left].
      apply andb_prop in Eb as [Eb1%Z.eqb_eq Eb2%Nat.eqb_eq%length_zero_iff_nil]. subst ph1.
      assert (i2 = []) as -> by (eapply (feed_end (Ist 2 [])); done). by rewrite Eb2.
    + intros Hl. split; [done|]. intros ->. cbn in H2. subst ph1. rewrite length_take in Hl.
      rewrite drop_ge by lia. done.
  - intros i1 i2 avail (b & t & Ei & Hb0 & Hb1) Hl. destruct i1 as [|b' i1]; [cbn in Hl; lia|].
    injection Ei as -> _. cbn [inflate zlib inflateInit snd feed foldl]. unfold feed1 at 2. cbn [phase pend Z.eqb].
    rewrite (proj2 (Z.eqb_neq _ _) Hb0), (proj2 (Z.eqb_neq _ _) Hb1).
    pose proof (feed_bad (Ist 3 []) i1 eq_refl) as E. unfold feed in E. by rewrite E.
  - by split.
  - intros st p i o H. by left.
  - intros [q f] p i o avail [Hf Hq] Ha. cbn [flushed queue] in *. subst f.
    cbn [deflate zlib ret out used next queue flushed]. change (Z_NO_FLUSH =? Z_FINISH) with false.
    cbn [andb orb]. rewrite app_nil_r, firstn_all, drop_all, enc_app, <- Hq. split_and!.
    + done.
    + by rewrite <- !app_assoc, take_drop.
    + rewrite length_take. lia.
    + done.
    + pose proof (enc_length p). rewrite length_drop, length_take, length_app. cbn [length]. lia.
    + done.
  - intros [q f] p i o avail H Ha. cbn [flushed queue] in *.
    cbn [deflate zlib ret out used next queue flushed]. change (Z_FINISH =? Z_FINISH) with true.
    cbn [andb]. rewrite firstn_all, drop_all. set (q' := q ++ _).
    assert (o ++ q' = enc (i ++ p) ++ [0]) as Hq'.
    { unfold q'. rewrite enc_app. destruct H as [[-> H]|(-> & -> & H)].
      - by rewrite app_assoc, H, <- app_assoc.
      - cbn [enc mbind list_bind negb app]. by rewrite !app_nil_r. }
    assert (length q' <= length q + 2 * length p + (if f then 0 else 1))%nat as Hl.
    { unfold q'. rewrite !length_app, enc_length. destruct f; cbn; lia. }
    split_and!.
    + right. split; [by destruct f|]. split; [done|]. by rewrite <- app_assoc, take_drop.
    + rewrite length_take. lia.
    + by destruct (length _ =? 0)%nat.
    + replace (f || true) with true by (by destruct f). rewrite length_drop, length_take. cbn [length]. lia.
    + intros Hlt. rewrite length_take in Hlt. rewrite drop_ge, firstn_all2 by lia. split; [done|]. split; [done|].
      rewrite Hq'. apply (feed_enc (i ++ p) []).
Defined.
End Stored.

