(* ===== verification/ElfBuilder.v ===== *)
(** * The ELF builder (PSVita-ELF-builder/src/main.c, file.c)

    The tool puts an ELF file together from the headers of a SELF and from the
    dumped, usually compressed, segments.  The disk is a map from paths to
    contents; zlib is the class [Zlib] with the laws [ZlibLaws], [def] and [inf]
    run files through it.  A stream that is being written stands at the end of
    the file it has created.  Progress messages are left out, and allocations
    of a non-negative size do not fail. *)

From stdpp Require Import prelude gmap strings pretty.
From S2P Require Import Prelude Bytes CString Yaml Hoare ElfTools Zlib.

Definition CHUNK : nat := Z.to_nat 16384.

Lemma CHUNK_pos : (2 <= CHUNK)%nat.
Proof. unfold CHUNK. lia. Qed.
#[global] Opaque CHUNK.

(** ** Files *)

(** [room]: the bytes left on the disk, if it can fill up; reading a file of
    [failing] sets the error indicator of the stream. *)
Record world := World { files : gmap string mem; room : option nat; failing : gset string }.
Abbreviation M := (SM world).

Definition fault {A} (e : fault) : M A := fun _ => Fault e.

Definition newline : string := String (Ascii.ascii_of_nat 10) "".

Section Builder.
Context {D I : Type} {zlib : Zlib D I}.
(** Does the C library accept [fclose(NULL)], which files can be created, and
    the fuel of the loops of [def] and [inf]. *)
Context (tolerant : bool) (writable : string -> bool) (fuel : nat).

(** [fopen(path, "rb")] *)
Definition fopen_rb (path : string) : M (option string) :=
  fs ← sm_gets files;
  mret (if decide (is_Some (fs !! path)) then Some path else None).

(** [fopen(path, "w+b")] *)
Definition fopen_wb (path : string) : M (option string) :=
  if writable path then
    sm_modify (fun w => World (<[path := []]> (files w))
      (r ← room w; Some (r + length (files w !!! path))%nat) (failing w));;
    mret (Some path)
  else mret None.

(** [fopen(path, "a")] *)
Definition fopen_a (path : string) : M (option string) :=
  if writable path then
    sm_modify (fun w => World (<[path := files w !!! path]> (files w)) (room w) (failing w));;
    mret (Some path)
  else mret None.

Definition fclose (f : option string) : M unit :=
  match f with
  | Some _ => mret tt
  | None => if tolerant then mret tt else fault FNull
  end.

(** Up to [n] bytes from [pos] on, and [ferror] *)
Definition fread (f : option string) (pos n : nat) : M (mem * bool) :=
  match f with
  | None => fault FNull
  | Some path => sm_gets (fun w =>
      if decide (path ∈ failing w) then ([], true) else (take n (drop pos (files w !!! path)), false))
  end.

(** The number of bytes that fit *)
Definition fwrite (f : option string) (bs : mem) : M nat :=
  match f with
  | None => fault FNull
  | Some path => fun w =>
      let k := match room w with None => length bs | Some r => min r (length bs) end in
      Done (k, World (<[path := (files w !!! path) ++ take k bs]> (files w))
                 (r ← room w; Some (r - k)%nat) (failing w))
  end.

(** ** Compression, main.c [def] *)

(** The inner loop; [inl] is what [def] returns. *)
Fixpoint def_out (n : nat) (st : D) (flush : Z) (inp : mem) (dest : option string)
    : M (Z + (Z * D)) :=
  match n with
  | O => fun _ => OutOfFuel
  | S n' =>
      let r := deflate st flush inp CHUNK in
      if ret r =? Z_STREAM_ERROR then fault FAssert
      else
        have ← fwrite dest (out r);
        if negb (have =? length (out r))%nat then mret (inl Z_ERRNO)
        else if (length (out r) =? CHUNK)%nat then
          def_out n' (next r) flush (drop (used r) inp) dest
        else if negb (length (drop (used r) inp) =? 0)%nat then fault FAssert
        else mret (inr (ret r, next r))
  end.

Fixpoint def_in (n : nat) (st : D) (source : option string) (pos : nat) (dest : option string)
    : M Z :=
  match n with
  | O => fun _ => OutOfFuel
  | S n' =>
      '(inp, ferror) ← fread source pos CHUNK;
      if ferror : bool then mret Z_ERRNO
      else
        let flush := if (length inp <? CHUNK)%nat then Z_FINISH else Z_NO_FLUSH in
        r ← def_out fuel st flush inp dest;
        match r with
        | inl e => mret e
        | inr (ret, st) =>
            if flush =? Z_FINISH then
              (if ret =? Z_STREAM_END then mret Z_OK else fault FAssert)
            else def_in n' st source (pos + CHUNK) dest
        end
  end.

Definition def (source dest : option string) (level : Z) : M Z :=
  let '(ret, st) := deflateInit level in
  if negb (ret =? Z_OK) then mret ret else def_in fuel st source 0 dest.

(** ** Decompression, main.c [inf] *)

Fixpoint inf_out (n : nat) (st : I) (inp : mem) (dest : option string) : M (Z + (Z * I)) :=
  match n with
  | O => fun _ => OutOfFuel
  | S n' =>
      let r := inflate st inp CHUNK in
      if ret r =? Z_STREAM_ERROR then fault FAssert
      else if ret r =? Z_NEED_DICT then mret (inl Z_DATA_ERROR)
      else if (ret r =? Z_DATA_ERROR) || (ret r =? Z_MEM_ERROR) then mret (inl (ret r))
      else
        have ← fwrite dest (out r);
        if negb (have =? length (out r))%nat then mret (inl Z_ERRNO)
        else if (length (out r) =? CHUNK)%nat then inf_out n' (next r) (drop (used r) inp) dest
        else mret (inr (ret r, next r))
  end.

Fixpoint inf_in (n : nat) (st : I) (source : option string) (pos : nat) (dest : option string)
    : M Z :=
  match n with
  | O => fun _ => OutOfFuel
  | S n' =>
      '(inp, ferror) ← fread source pos CHUNK;
      if ferror : bool then mret Z_ERRNO
      else if (length inp =? 0)%nat then mret Z_DATA_ERROR
      else
        r ← inf_out fuel st inp dest;
        match r with
        | inl e => mret e
        | inr (ret, st) =>
            if ret =? Z_STREAM_END then mret Z_OK else inf_in n' st source (pos + CHUNK) dest
        end
  end.

Definition inf (source dest : option string) : M Z :=
  let '(ret, st) := inflateInit in
  if negb (ret =? Z_OK) then mret ret else inf_in fuel st source 0 dest.

Definition zlib_compress (inputFile_path outputFile_path : string) : M Z :=
  fp ← fopen_rb inputFile_path;
  fs ← fopen_wb outputFile_path;
  ret ← def fp fs Z_DEFAULT_COMPRESSION;
  fclose fp;; fclose fs;; mret ret.

Definition zlib_decompress (inputFile_path outputFile_path : string) : M Z :=
  fp ← fopen_rb inputFile_path;
  match fp with
  | None => mret (-3)
  | Some _ =>
      fs ← fopen_wb outputFile_path;
      ret ← inf fp fs;
      fclose fp;; fclose fs;; mret ret
  end.

(** ** Building the ELF, main.c [makeElf] and file.c *)

(** [sprintf] into an array of [size] characters *)
Definition sprintf (size : nat) (s : string) : M string :=
  if (String.length s <? size)%nat then mret s else fault FTable.

Definition seg_path (segmentsPath : string) (current : Z) : string :=
  segmentsPath +:+ ".seg" +:+ pretty current.

(** [fread] into a buffer all of whose [n] bytes are used afterwards *)
Definition read_exactly (f : option string) (pos n : nat) : M mem :=
  '(bs, _) ← fread f pos n;
  if (length bs =? n)%nat then mret bs else fault FUninit.

(** file.c: a character is signed. *)
Definition read_byte (f : option string) (offset : nat) : M Z :=
  bs ← read_exactly f offset 1;
  let b := nth 0 bs 0 in
  let b0 := if b <? 128 then b else b - 256 in
  mret (if b0 <? 0 then b0 + 0x100 else b0).

(** The three bytes that are read of an offset *)
Definition read_offset (f : option string) (offset : nat) : M Z :=
  b0 ← read_byte f offset; b1 ← read_byte f (offset + 1); b2 ← read_byte f (offset + 2);
  mret (b0 * 0x1 + b1 * 0x100 + b2 * 0x10000).

(** [lSize] bytes from [pos] on copied to the output, through a buffer of
    that size; [malloc] of a negative size gives no buffer. *)
Definition copy_part (f : option string) (pos : nat) (lSize : Z) (dest : option string) : M unit :=
  if lSize <? 0 then fault FNull
  else bs ← read_exactly f pos (Z.to_nat lSize); fwrite dest bs;; mret tt.

(** [for (int i = 0; i < n; i++) fwrite] of a zero *)
Definition fwrite_zeros (dest : option string) (n : Z) : M unit :=
  fwrite dest (replicate (Z.to_nat n) 0);; mret tt.

(** The segment files; [inl] is what [makeElf] returns. *)
Fixpoint count_segments (n : nat) (segmentsPath : string) (current segmentsNumber : Z)
    : M (Z + Z) :=
  match n with
  | O => mret (inr segmentsNumber)
  | S n' =>
      path ← sprintf 1024 (seg_path segmentsPath current);
      f ← fopen_rb path;
      match f with
      | None =>
          if current =? 0 then mret (inl 1)
          else fclose f;; count_segments n' segmentsPath (current + 1) segmentsNumber
      | Some _ => fclose f;; count_segments n' segmentsPath (current + 1) (segmentsNumber + 1)
      end
  end.

(** The file a segment is taken from: what it decompresses to, or itself *)
Definition segment_source (segmentsPath : string) (current : Z) : M string :=
  path ← sprintf 256 (seg_path segmentsPath current);
  output ← sprintf 256 (path +:+ ".bin");
  ret ← zlib_decompress path output;
  if ret =? -3 then sprintf 256 path else mret output.

(** One segment and the zeros behind it; [offsets] are the four offsets. *)
Definition add_segment (segmentsPath : string) (dest : option string) (offsets : list Z) (current : Z)
    : M (option Z) :=
  path ← segment_source segmentsPath current;
  f ← fopen_rb path;
  match f with
  | None => fclose f;; mret (Some 1)
  | Some _ =>
      fs ← sm_gets files;
      let size := s32 (mlen (fs !!! path)) in
      copy_part f 0 size dest;;
      (if current <? 3 then
         let here := nth (Z.to_nat current) offsets 0 in
         let after := nth (S (Z.to_nat current)) offsets 0 in
         fwrite_zeros dest (s32 (after - (here + size)))
       else mret tt);;
      mret None
  end.

Fixpoint add_segments (n : nat) (segmentsPath : string) (dest : option string) (offsets : list Z)
    (current : Z) : M (option Z) :=
  match n with
  | O => mret None
  | S n' =>
      r ← add_segment segmentsPath dest offsets current;
      match r with
      | Some code => mret (Some code)
      | None => add_segments n' segmentsPath dest offsets (current + 1)
      end
  end.

(** The command that packs the ELF again, added to a batch file *)
Definition write_script (authid : Z) (outputPath : string) : M unit :=
  f ← fopen_a "BATCH_MAKE_FSELF.BAT";
  text ← sprintf 256 (newline +:+ "vita-make-fself -c -a 0x" +:+ fmt_hex 16 authid +:+ " "
    +:+ outputPath +:+ " " +:+ outputPath +:+ ".self");
  fwrite f (str_bytes text);; fclose f.

(** The little-endian number that the bytes read leave in a variable of zero *)
Definition le_of (bs : mem) : Z := foldr (fun b r => b + 256 * r) 0 bs.

(** The name of the module goes to a list; it is an array of 256 characters
    that need not hold a NUL. *)
Definition write_info (authid firstSegmentOffset : Z) (originalPath outputPath : string) : M unit :=
  f ← fopen_rb outputPath;
  '(entry, _) ← fread f 0x18 4;
  let elf_entrypoint := s32 (le_of entry) in
  let pos := s32 (firstSegmentOffset + elf_entrypoint + 4) in
  '(name, _) ← fread f (if pos <? 0 then 0 else Z.to_nat pos) 256;
  fclose f;;
  g ← fopen_a "module_info_backup_list.txt";
  module_name ← (if existsb (Z.eqb 0) name then mret (until_nul name)
                 else fault (if (length name =? 256)%nat then FTable else FUninit));
  text_2 ← sprintf 512 (newline +:+ "|-" +:+ newline +:+ "| [[" +:+ chars module_name
    +:+ "]] || 0x" +:+ fmt_hex 16 authid +:+ " || " +:+ originalPath);
  fwrite g (str_bytes text_2);; fclose g.

Definition makeElf (originalPath segmentsPath outputPath : string) : M Z :=
  fcheck_original ← fopen_rb originalPath;
  match fcheck_original with
  | None => fclose fcheck_original;; mret 1
  | Some _ =>
      r ← count_segments 5 segmentsPath 0 0;
      match r with
      | inl code => mret code
      | inr segmentsNumber =>
          foriginal ← fopen_rb originalPath;
          foutputelf ← fopen_wb outputPath;
          firstSegmentOffset ← read_offset foriginal 0xE4;
          secondSegmentOffset ← read_offset foriginal 0x104;
          thirdSegmentOffset ← read_offset foriginal 0x124;
          fourthSegmentOffset ← read_offset foriginal 0x144;
          copy_part foriginal 0xA0 0x30 foutputelf;;
          copy_part foriginal 0xDC (firstSegmentOffset - 0x3C) foutputelf;;
          authid ← read_exactly foriginal 0x80 8;
          fwrite_zeros foutputelf 0xC;;
          r ← add_segments (Z.to_nat segmentsNumber) segmentsPath foutputelf
                [firstSegmentOffset; secondSegmentOffset; thirdSegmentOffset; fourthSegmentOffset] 0;
          match r with
          | Some code => mret code
          | None =>
              write_script (le_of authid) outputPath;;
              write_info (le_of authid) firstSegmentOffset originalPath outputPath;;
              mret 0
          end
      end
  end.

(** The arguments after the program name; a failed build is only reported. *)
Definition main (args : list string) : M Z :=
  match args with
  | [original; input] =>
      if decide (original = ""%string) then mret 1
      else
        output ← sprintf 1024 (input +:+ ".elf");
        makeElf original input output;; mret 0
  | _ => mret 1
  end.
End Builder.

(** ** Streams of zlib *)

Definition set_file (path : string) (bs : mem) (w : world) : world :=
  World (<[path := bs]> (files w)) (room w) (failing w).

Lemma set_file_twice p a b w : set_file p b (set_file p a w) = set_file p b w.
Proof. unfold set_file. cbn. by rewrite insert_insert_eq. Qed.
Lemma set_file_same p a w : files (set_file p a w) !! p = Some a.
Proof. apply lookup_insert_eq. Qed.
Lemma set_file_id p c w : files w !! p = Some c -> set_file p c w = w.
Proof. intros H. unfold set_file. rewrite insert_id by done. by destruct w. Qed.
Lemma set_file_total p a w : files (set_file p a w) !!! p = a.
Proof. apply lookup_total_insert_eq. Qed.
Lemma set_file_other p q a w : p <> q -> files (set_file p a w) !! q = files w !! q.
Proof. intros H. by apply lookup_insert_ne. Qed.
Lemma set_file_other_total p q a w : p <> q -> files (set_file p a w) !!! q = files w !!! q.
Proof. intros H. by apply lookup_total_insert_ne. Qed.

Lemma fclose_Some tolerant p w : fclose tolerant (Some p) w = Done (tt, w).
Proof. done. Qed.

(** The disk does not fill up. *)
Lemma fwrite_unbounded p bs w : room w = None ->
  fwrite (Some p) bs w = Done (length bs, set_file p ((files w !!! p) ++ bs) w).
Proof. intros H. unfold fwrite, set_file. rewrite H. cbn. by rewrite firstn_all. Qed.

Lemma fread_ok p pos n w : p ∉ failing w ->
  fread (Some p) pos n w = Done (take n (drop pos (files w !!! p)), false, w).
Proof. intros H. unfold fread, sm_gets. by rewrite decide_False. Qed.

(** One turn of the inner loops, when the output [r] was written whole *)
Ltac def_out_step :=
  cbn [def_out];
  match goal with r := deflate _ _ _ _, H : ret ?r <> _, Hr : room ?w = None |- context [fwrite (Some ?q) _] =>
    fold r; rewrite (proj2 (Z.eqb_neq _ _) H), (sm_bind_Done _ _ _ _ _ (fwrite_unbounded q (out r) w Hr)),
      Nat.eqb_refl
  end;
  cbn [negb];
  match goal with
  | E : length _ = CHUNK |- _ => rewrite (proj2 (Nat.eqb_eq _ _) E)
  | E : length _ <> CHUNK |- _ => rewrite (proj2 (Nat.eqb_neq _ _) E)
  end.

Ltac inf_out_step :=
  cbn [inf_out];
  match goal with r := inflate _ _ _, Hr : room ?w = None, H3 : ret ?r = _ /\ _ \/ _ |- context [fwrite (Some ?q) _] =>
    fold r;
    replace (ret r =? Z_STREAM_ERROR) with false by (by destruct H3 as [(-> & _)|[->|[-> _]]]);
    replace (ret r =? Z_NEED_DICT) with false by (by destruct H3 as [(-> & _)|[->|[-> _]]]);
    replace ((ret r =? Z_DATA_ERROR) || (ret r =? Z_MEM_ERROR)) with false
      by (by destruct H3 as [(-> & _)|[->|[-> _]]]);
    rewrite (sm_bind_Done _ _ _ _ _ (fwrite_unbounded q (out r) w Hr)), Nat.eqb_refl
  end;
  cbn [negb];
  match goal with
  | E : length _ = CHUNK |- _ => rewrite (proj2 (Nat.eqb_eq _ _) E)
  | E : length _ <> CHUNK |- _ => rewrite (proj2 (Nat.eqb_neq _ _) E)
  end.

Section Streams.
Context {D I : Type} {zlib : Zlib D I} {laws : ZlibLaws D I}.

Lemma def_out_running st inp i o q w : room w = None -> running st i o ->
  exists code st' outs, running st' (i ++ inp) (o ++ outs) /\
  forall n, (to_come st inp < n)%nat -> def_out n st Z_NO_FLUSH inp (Some q) w =
    Done (inr (code, st'), set_file q ((files w !!! q) ++ outs) w).
Proof.
  pose proof CHUNK_pos. intros Hr Hst. remember (to_come st inp) as k eqn:Hk.
  revert st inp i o w Hr Hst Hk. induction k as [k IH] using lt_wf_ind. intros st inp i o w Hr Hst ->.
  destruct (deflate_running st inp i o CHUNK Hst ltac:(lia)) as (H1 & H2 & H3 & H4 & H5).
  set (r := deflate st Z_NO_FLUSH inp CHUNK) in *.
  destruct (Nat.eqb_spec (length (out r)) CHUNK) as [E|E].
  - destruct (IH (to_come (next r) (drop (used r) inp)) ltac:(lia) (next r) (drop (used r) inp) _ _
      (set_file q ((files w !!! q) ++ out r) w) Hr H1 eq_refl) as (code & st' & outs & H' & E').
    exists code, st', (out r ++ outs).
    split; [by rewrite <- (app_assoc i), take_drop, <- app_assoc in H'|].
    intros [|n] Hn; [lia|]. def_out_step. rewrite E' by lia.
    by rewrite set_file_twice, set_file_total, <- app_assoc.
  - specialize (H5 ltac:(lia)). exists (ret r), (next r), (out r).
    split; [by rewrite <- (take_drop (used r) inp), H5, app_nil_r|].
    intros [|n] Hn; [lia|]. def_out_step. by rewrite H5.
Qed.

Lemma def_out_finishing st inp i o q w : room w = None -> finishing st inp i o ->
  exists st' outs, inflates inflateInit.2 (o ++ outs) (i ++ inp) /\
  forall n, (to_come st inp < n)%nat -> def_out n st Z_FINISH inp (Some q) w =
    Done (inr (Z_STREAM_END, st'), set_file q ((files w !!! q) ++ outs) w).
Proof.
  pose proof CHUNK_pos. intros Hr Hst. remember (to_come st inp) as k eqn:Hk.
  revert st inp i o w Hr Hst Hk. induction k as [k IH] using lt_wf_ind. intros st inp i o w Hr Hst ->.
  destruct (deflate_finishing st inp i o CHUNK Hst ltac:(lia)) as (H1 & H2 & H3 & H4 & H5).
  set (r := deflate st Z_FINISH inp CHUNK) in *.
  destruct (Nat.eqb_spec (length (out r)) CHUNK) as [E|E].
  - destruct (IH (to_come (next r) (drop (used r) inp)) ltac:(lia) (next r) (drop (used r) inp) _ _
      (set_file q ((files w !!! q) ++ out r) w) Hr H1 eq_refl) as (st' & outs & H' & E').
    exists st', (out r ++ outs).
    split; [by rewrite <- (app_assoc i), take_drop, <- app_assoc in H'|].
    intros [|n] Hn; [lia|]. def_out_step. rewrite E' by lia.
    by rewrite set_file_twice, set_file_total, <- app_assoc.
  - destruct (H5 ltac:(lia)) as (Hd & He & Hi). exists (next r), (out r). split; [done|].
    intros [|n] Hn; [lia|]. def_out_step. by rewrite Hd, He.
Qed.

(** The outer loop of [def], from any position of the file *)
Lemma def_in_ok p q i k : p <> q -> forall pos st o w, room w = None -> p ∉ failing w ->
  files w !!! p = i -> running st (take pos i) o -> (length (drop pos i) <= k)%nat ->
  exists N outs, inflates inflateInit.2 (o ++ outs) i /\
  forall fuel n, (N <= fuel)%nat -> (k < n)%nat ->
    def_in fuel n st (Some p) pos (Some q) w = Done (Z_OK, set_file q ((files w !!! q) ++ outs) w).
Proof.
  intros Hpq. pose proof CHUNK_pos. induction k as [k IH] using lt_wf_ind.
  intros pos st o w Hr Hf Hi Hst Hk. set (inp := take CHUNK (drop pos i)).
  destruct (Nat.ltb_spec (length inp) CHUNK) as [El|El].
  - assert (inp = drop pos i) as Ei.
    { unfold inp in *. rewrite length_take in El. apply take_ge. lia. }
    destruct (def_out_finishing st inp (take pos i) o q w Hr
      (running_finishing _ _ _ _ Hst)) as (st' & outs & Hin & E').
    exists (S (to_come st inp)), outs. split; [by rewrite Ei, take_drop in Hin|].
    intros fuel [|n] HN Hn; [lia|]. cbn [def_in].
    rewrite (sm_bind_Done _ _ _ _ _ (fread_ok p pos CHUNK w Hf)), Hi. fold inp.
    rewrite (proj2 (Nat.ltb_lt _ _) El). cbn zeta. by rewrite (sm_bind_Done _ _ _ _ _ (E' fuel ltac:(lia))).
  - destruct (def_out_running st inp (take pos i) o q w Hr Hst) as (code & st' & outs & Hst' & E').
    assert (length (drop (pos + CHUNK) i) < k)%nat as Hlt.
    { unfold inp in El. rewrite length_take in El. rewrite length_drop in *. lia. }
    assert (take pos i ++ inp = take (pos + CHUNK) i) as Et by (unfold inp; by rewrite take_take_drop).
    rewrite Et in Hst'.
    destruct (IH _ Hlt (pos + CHUNK)%nat st' (o ++ outs) (set_file q ((files w !!! q) ++ outs) w) Hr Hf
      ltac:(by rewrite set_file_other_total by done) Hst' ltac:(lia)) as (N & outs' & Hin & E2).
    exists (N + S (to_come st inp))%nat, (outs ++ outs'). split; [by rewrite app_assoc|].
    intros fuel [|n] HN Hn; [lia|]. cbn [def_in].
    rewrite (sm_bind_Done _ _ _ _ _ (fread_ok p pos CHUNK w Hf)), Hi. fold inp.
    rewrite (proj2 (Nat.ltb_ge _ _) El). cbn zeta. rewrite (sm_bind_Done _ _ _ _ _ (E' fuel ltac:(lia))).
    cbn [Z.eqb Z_NO_FLUSH Z_FINISH]. rewrite E2 by lia.
    by rewrite set_file_twice, set_file_total, <- app_assoc.
Qed.

(** The inner loop of [inf] on the part [i1] of a stream *)
Lemma inf_out_ok st i1 i2 o q w : room w = None -> inflates st (i1 ++ i2) o ->
  exists code st' outs o', o = outs ++ o' /\ inflates st' i2 o' /\
  (code = Z_STREAM_END /\ i2 = [] /\ o' = [] \/ code <> Z_STREAM_END /\ i2 <> []) /\
  forall n, (length o < n)%nat -> inf_out n st i1 (Some q) w =
    Done (inr (code, st'), set_file q ((files w !!! q) ++ outs) w).
Proof.
  pose proof CHUNK_pos. intros Hr Hst. remember (length o) as k eqn:Hk.
  revert st i1 o w Hr Hst Hk. induction k as [k IH] using lt_wf_ind. intros st i1 o w Hr Hst ->.
  destruct (inflate_stream st i1 i2 o CHUNK Hst ltac:(lia)) as (o' & -> & H1 & H2 & H3 & H4).
  set (r := inflate st i1 CHUNK) in *.
  destruct (Nat.eqb_spec (length (out r)) CHUNK) as [E|E].
  - rewrite length_app in IH.
    destruct (IH (length o') ltac:(lia) (next r) (drop (used r) i1) o'
      (set_file q ((files w !!! q) ++ out r) w) Hr H1 eq_refl)
      as (code & st' & outs & o'' & -> & H' & Hc & E').
    exists code, st', (out r ++ outs), o''. rewrite <- app_assoc. split_and!; [done..|].
    intros [|n] Hn; [lia|]. inf_out_step. rewrite E' by (rewrite !length_app in *; lia).
    by rewrite set_file_twice, set_file_total, <- app_assoc.
  - destruct (H4 ltac:(lia)) as [Hd Hi2]. rewrite Hd in H1, H3.
    exists (ret r), (next r), (out r), o'. split_and!; [done|done| |].
    + destruct i2 as [|b i2]; [left; specialize (Hi2 eq_refl)|right].
      * destruct H3 as [(? & ? & ?)|[H3|[H3 _]]]; [done|by rewrite Hi2 in H3..].
      * split; [|done]. by destruct H3 as [(? & ? & ?)|[->|[-> _]]].
    + intros [|n] Hn; [lia|]. by inf_out_step.
Qed.

(** The outer loop of [inf] on the part of a stream that the file holds: it
    ends well exactly when nothing is missing. *)
Lemma inf_in_ok p q i miss fuel k : p <> q -> forall pos st o c w, room w = None -> p ∉ failing w ->
  files w !!! p = i -> files w !! q = Some c -> inflates st (drop pos i ++ miss) o ->
  (drop pos i = [] -> miss <> []) -> (length (drop pos i) <= k)%nat -> (length o < fuel)%nat ->
  exists outs o', o = outs ++ o' /\ (miss = [] -> o' = []) /\
  forall n, (k < n)%nat -> inf_in fuel n st (Some p) pos (Some q) w =
    Done (if decide (miss = []) then Z_OK else Z_DATA_ERROR, set_file q (c ++ outs) w).
Proof.
  intros Hpq. pose proof CHUNK_pos. induction k as [k IH] using lt_wf_ind.
  intros pos st o c w Hr Hf Hi Hc Hst Hne Hk Ho. set (inp := take CHUNK (drop pos i)).
  assert (drop pos i = inp ++ drop (pos + CHUNK) i) as Ed.
  { unfold inp. by rewrite <- drop_drop, take_drop. }
  destruct (Nat.eqb_spec (length inp) 0) as [El|El].
  - assert (drop pos i = []) as Ei.
    { unfold inp in El. rewrite length_take in El. apply length_zero_iff_nil. lia. }
    specialize (Hne Ei). exists [], o. split; [done|]. split; [done|].
    intros [|n] Hn; [lia|]. cbn [inf_in].
    rewrite (sm_bind_Done _ _ _ _ _ (fread_ok p pos CHUNK w Hf)), Hi. fold inp.
    by rewrite (proj2 (Nat.eqb_eq _ _) El), decide_False, app_nil_r, set_file_id by done.
  - rewrite Ed, <- app_assoc in Hst.
    destruct (inf_out_ok st inp (drop (pos + CHUNK) i ++ miss) o q w Hr Hst)
      as (code & st' & outs & o' & -> & Hst' & Hcode & E').
    assert (forall n, inf_in fuel (S n) st (Some p) pos (Some q) w =
      (if code =? Z_STREAM_END then mret Z_OK else inf_in fuel n st' (Some p) (pos + CHUNK) (Some q))
        (set_file q (c ++ outs) w)) as step.
    { intros n. cbn [inf_in]. rewrite (sm_bind_Done _ _ _ _ _ (fread_ok p pos CHUNK w Hf)), Hi. fold inp.
      rewrite (proj2 (Nat.eqb_neq _ _) El), (sm_bind_Done _ _ _ _ _ (E' fuel Ho)).
      by rewrite (lookup_total_correct _ _ _ Hc). }
    destruct Hcode as [(-> & [Hi2 Hm]%app_eq_nil & ->)|(Hcode & Hi2)].
    + exists outs, []. split; [done|]. split; [done|]. intros [|n] Hn; [lia|]. rewrite step.
      by rewrite decide_True.
    + assert (length (drop (pos + CHUNK) i) < k)%nat as Hlt.
      { rewrite Ed, length_app in Hk. lia. }
      rewrite length_app in Ho.
      destruct (IH _ Hlt (pos + CHUNK)%nat st' o' (c ++ outs) (set_file q (c ++ outs) w) Hr Hf
        ltac:(by rewrite set_file_other_total by done) (set_file_same _ _ _) Hst'
        ltac:(by intros E; rewrite E in Hi2) ltac:(lia) ltac:(lia)) as (outs' & o'' & -> & Hm & E2).
      exists (outs ++ outs'), o''. rewrite app_assoc. split; [done|]. split; [done|].
      intros [|n] Hn; [lia|]. rewrite step, (proj2 (Z.eqb_neq _ _) Hcode), E2 by lia.
      by rewrite set_file_twice, app_assoc.
Qed.

(** ** Whole files *)

Section Files.
Context (tolerant : bool) (writable : string -> bool).

Lemma fopen_rb_ok p bs w : files w !! p = Some bs -> fopen_rb p w = Done (Some p, w).
Proof. intros H. unfold fopen_rb, mbind, sm_bind, sm_gets. rewrite decide_True; [done|]. by eexists. Qed.
Lemma fopen_rb_missing p w : files w !! p = None -> fopen_rb p w = Done (None, w).
Proof. intros H. unfold fopen_rb, mbind, sm_bind, sm_gets. rewrite decide_False; [done|]. by intros [? ?]; simplify_eq. Qed.
Lemma fopen_wb_ok p w : writable p = true -> room w = None ->
  fopen_wb writable p w = Done (Some p, set_file p [] w).
Proof. intros H Hr. unfold fopen_wb. rewrite H. unfold mbind, sm_bind, sm_modify, set_file. by rewrite Hr. Qed.
Lemma fopen_a_ok p w : writable p = true ->
  fopen_a writable p w = Done (Some p, set_file p (files w !!! p) w).
Proof. intros H. unfold fopen_a. by rewrite H. Qed.

(** What [zlib_decompress] does with a stream of which [miss] is missing *)
Lemma decompress_spec fuel p q i miss o w : p <> q -> writable q = true -> room w = None ->
  p ∉ failing w -> files w !! p = Some i -> inflates inflateInit.2 (i ++ miss) o -> (i = [] -> miss <> []) ->
  (length i + length o < fuel)%nat -> exists outs o', o = outs ++ o' /\ (miss = [] -> o' = []) /\
  zlib_decompress tolerant writable fuel p q w =
    Done (if decide (miss = []) then Z_OK else Z_DATA_ERROR, set_file q outs w).
Proof.
  intros Hpq Hw Hr Hf Hi Hst Hne Hfuel.
  destruct (inf_in_ok p q i miss fuel (length i) Hpq 0 inflateInit.2 o [] (set_file q [] w) Hr Hf
    ltac:(by rewrite set_file_other_total, (lookup_total_correct _ _ _ Hi)) (set_file_same _ _ _))
    as (outs & o' & -> & Hm & E); [done|done|done|lia|].
  exists outs, o'. split; [done|]. split; [done|]. unfold zlib_decompress.
  rewrite (sm_bind_Done _ _ _ _ _ (fopen_rb_ok p i w Hi)).
  rewrite (sm_bind_Done _ _ _ _ _ (fopen_wb_ok q w Hw Hr)).
  unfold inf. pose proof inflateInit_ok as Hinit. destruct inflateInit as [code st] eqn:Ei.
  cbn [fst snd] in *. rewrite Hinit. cbn [Z.eqb Z_OK negb].
  rewrite (sm_bind_Done _ _ _ _ _ (E fuel ltac:(lia))). cbn. by rewrite set_file_twice.
Qed.

(** Bytes that are no stream are refused with nothing written. *)
Lemma decompress_corrupt fuel p q i w : p <> q -> writable q = true -> room w = None ->
  p ∉ failing w -> files w !! p = Some i -> i = [] \/ corrupt i /\ (2 <= length i)%nat ->
  (0 < fuel)%nat ->
  zlib_decompress tolerant writable fuel p q w = Done (Z_DATA_ERROR, set_file q [] w).
Proof.
  intros Hpq Hw Hr Hf Hi Hc Hfuel. pose proof CHUNK_pos.
  assert (inf_in fuel fuel inflateInit.2 (Some p) 0 (Some q) (set_file q [] w) =
    Done (Z_DATA_ERROR, set_file q [] w)) as E.
  { destruct fuel as [|fuel]; [lia|]. cbn [inf_in].
    rewrite (sm_bind_Done _ _ _ _ _ (fread_ok p 0 CHUNK (set_file q [] w) Hf)).
    rewrite set_file_other_total, (lookup_total_correct _ _ _ Hi), drop_0 by done.
    destruct Hc as [->|[Hc Hl]]; [by rewrite take_nil|].
    pose proof (inflate_corrupt (take CHUNK i) (drop CHUNK i) CHUNK) as Hcorrupt.
    rewrite take_drop, length_take in Hcorrupt. specialize (Hcorrupt Hc ltac:(lia)).
    destruct (Nat.eqb_spec (length (take CHUNK i)) 0) as [E|E]; [rewrite length_take in E; lia|].
    unfold mbind, sm_bind. cbn [inf_out]. by rewrite Hcorrupt. }
  unfold zlib_decompress. rewrite (sm_bind_Done _ _ _ _ _ (fopen_rb_ok p i w Hi)).
  rewrite (sm_bind_Done _ _ _ _ _ (fopen_wb_ok q w Hw Hr)).
  unfold inf. pose proof inflateInit_ok as Hinit. destruct inflateInit as [code st] eqn:Ei.
  cbn [fst snd] in *. rewrite Hinit. cbn [Z.eqb Z_OK negb]. by rewrite (sm_bind_Done _ _ _ _ _ E).
Qed.

(** [zlib_compress] writes a stream of its input. *)
Lemma compress_spec p q i w : p <> q -> writable q = true -> room w = None -> p ∉ failing w ->
  files w !! p = Some i -> (deflateInit Z_DEFAULT_COMPRESSION).1 = Z_OK ->
  exists N outs, inflates inflateInit.2 outs i /\ forall fuel, (N <= fuel)%nat ->
    zlib_compress tolerant writable fuel p q w = Done (Z_OK, set_file q outs w).
Proof.
  intros Hpq Hw Hr Hf Hi Hinit. pose proof (deflateInit_running _ Hinit) as Hst.
  destruct (def_in_ok p q i (length i) Hpq 0 _ [] (set_file q [] w) Hr Hf
    ltac:(by rewrite set_file_other_total, (lookup_total_correct _ _ _ Hi)) Hst) as (N & outs & Hin & E).
  { by rewrite drop_0. }
  exists (S (N + length i)), outs. split; [done|]. intros fuel HN. unfold zlib_compress.
  rewrite (sm_bind_Done _ _ _ _ _ (fopen_rb_ok p i w Hi)).
  rewrite (sm_bind_Done _ _ _ _ _ (fopen_wb_ok q w Hw Hr)).
  unfold def. destruct (deflateInit _) as [code st] eqn:Ei.
  cbn [fst snd] in *. rewrite Hinit. cbn [Z.eqb Z_OK negb].
  rewrite (sm_bind_Done _ _ _ _ _ (E fuel fuel ltac:(lia) ltac:(lia))).
  by rewrite set_file_total, set_file_twice.
Qed.

(** C20: A file compressed by [zlib_compress] and decompressed by
    [zlib_decompress] is the same file again, whatever its length. *)
Theorem zlib_roundtrip p q r i w : p <> q -> q <> r -> writable q = true -> writable r = true ->
  room w = None -> p ∉ failing w -> q ∉ failing w -> files w !! p = Some i ->
  (deflateInit Z_DEFAULT_COMPRESSION).1 = Z_OK ->
  exists N w1 w2, forall fuel, (N <= fuel)%nat ->
    zlib_compress tolerant writable fuel p q w = Done (Z_OK, w1) /\
    zlib_decompress tolerant writable fuel q r w1 = Done (Z_OK, w2) /\ files w2 !! r = Some i.
Proof.
  intros Hpq Hqr Hq Hr Hroom Hfp Hfq Hi Hinit.
  destruct (compress_spec p q i w) as (N & outs & Hin & E); [done..|].
  exists (S (N + length outs + length i)), (set_file q outs w), (set_file r i (set_file q outs w)).
  intros fuel HN. split; [apply E; lia|].
  destruct (decompress_spec fuel q r outs [] i (set_file q outs w)) as (o & o' & -> & Ho & E2);
    [done..|apply set_file_same|by rewrite app_nil_r| |lia|].
  { intros ->. by apply inflates_nonempty in Hin. }
  rewrite Ho, app_nil_r by done. split; [exact E2|]. apply set_file_same.
Qed.
End Files.
End Streams.

(** ** What a built ELF consists of *)

(** What a dumped segment stands for: what it decompresses to, or itself *)
Definition stands_for {D I} {zlib : Zlib D I} {laws : ZlibLaws D I} (raw c : mem) : Prop :=
  inflates inflateInit.2 raw c \/ c = raw /\ (raw = [] \/ corrupt raw /\ (2 <= length raw)%nat).

(** The headers: those of the SELF without the twelve bytes between them *)
Definition elf_header (o : mem) (firstSegmentOffset : Z) : mem :=
  take 0x30 (drop 0xA0 o) ++ take (Z.to_nat (firstSegmentOffset - 0x3C)) (drop 0xDC o) ++ replicate 12 0.

(** The segments from number [k] on, each with its padding *)
Fixpoint elf_body (offsets : list Z) (k : nat) (cs : list mem) : mem :=
  match cs with
  | [] => []
  | c :: cs =>
      c ++ (if (k <? 3)%nat
            then replicate (Z.to_nat (nth (S k) offsets 0 - (nth k offsets 0 + mlen c))) 0 else [])
        ++ elf_body offsets (S k) cs
  end.

Definition bin_path (segmentsPath : string) (current : Z) : string :=
  seg_path segmentsPath current +:+ ".bin".

Lemma seg_path_length s k : 0 <= k < 5 -> String.length (seg_path s k) = (String.length s + 5)%nat.
Proof.
  intros Hk. unfold seg_path. rewrite !string_length_app.
  assert (k = 0 \/ k = 1 \/ k = 2 \/ k = 3 \/ k = 4) as [->|[->|[->|[->| ->]]]] by lia; done.
Qed.

Lemma string_app_inj_l (a b c : string) : a +:+ b = a +:+ c -> b = c.
Proof. induction a as [|x a IH]; [done|]. rewrite !string_app_cons. intros [= E]. by apply IH. Qed.

Lemma seg_path_inj s k j : 0 <= k < 5 -> 0 <= j < 5 -> seg_path s k = seg_path s j -> k = j.
Proof.
  intros Hk Hj E. unfold seg_path in E. do 2 apply string_app_inj_l in E.
  assert (k = 0 \/ k = 1 \/ k = 2 \/ k = 3 \/ k = 4) as [->|[->|[->|[->| ->]]]] by lia;
  assert (j = 0 \/ j = 1 \/ j = 2 \/ j = 3 \/ j = 4) as [->|[->|[->|[->| ->]]]] by lia; done.
Qed.

Lemma seg_path_not_bin s k j : 0 <= k < 5 -> 0 <= j < 5 -> seg_path s k <> bin_path s j.
Proof.
  intros Hk Hj E. apply (f_equal String.length) in E. unfold bin_path in E.
  rewrite string_length_app, !seg_path_length in E by done. cbn in E. lia.
Qed.

(** Only the files of [S] may differ. *)
Definition same_but (S : string -> Prop) (w w' : world) : Prop :=
  room w' = room w /\ failing w' = failing w /\ forall q, ~ S q -> files w' !! q = files w !! q.

Lemma same_but_refl S w : same_but S w w.
Proof. done. Qed.
Lemma same_but_trans S w1 w2 w3 : same_but S w1 w2 -> same_but S w2 w3 -> same_but S w1 w3.
Proof.
  intros (Hr1 & Hf1 & H1) (Hr2 & Hf2 & H2). split_and!; [congruence..|]. intros q Hq. by rewrite H2, H1.
Qed.
Lemma same_but_set (S : string -> Prop) p bs w : S p -> same_but S w (set_file p bs w).
Proof. intros H. split_and!; [done..|]. intros q Hq. apply set_file_other. by intros ->. Qed.

Section Build.
Context {D I : Type} {zlib : Zlib D I} {laws : ZlibLaws D I}.
Context (tolerant : bool) (writable : string -> bool) (fuel : nat) (Hwritable : forall p, writable p = true).

Lemma sprintf_ok n s w : (String.length s < n)%nat -> sprintf n s w = Done (s, w).
Proof. intros H. unfold sprintf. by rewrite (proj2 (Nat.ltb_lt _ _) H). Qed.

Lemma read_exactly_ok p pos n bs w : p ∉ failing w -> files w !! p = Some bs -> (pos + n <= length bs)%nat ->
  read_exactly (Some p) pos n w = Done (take n (drop pos bs), w).
Proof.
  intros Hf Hp Hn. unfold read_exactly. rewrite (sm_bind_Done _ _ _ _ _ (fread_ok p pos n w Hf)).
  rewrite (lookup_total_correct _ _ _ Hp), length_take, length_drop.
  replace (min n (length bs - pos) =? n)%nat with true; [done|]. symmetry. apply Nat.eqb_eq. lia.
Qed.

Lemma read_byte_ok p pos b bs w : p ∉ failing w -> files w !! p = Some bs -> bytes_ok bs ->
  bs !! pos = Some b -> read_byte (Some p) pos w = Done (b, w).
Proof.
  intros Hf Hp Hbs Hb. unfold read_byte. pose proof (lookup_lt_Some _ _ _ Hb).
  rewrite (sm_bind_Done _ _ _ _ _ (read_exactly_ok p pos 1 bs w Hf Hp ltac:(lia))).
  rewrite (drop_S _ _ _ Hb). cbn [take nth].
  pose proof (Forall_lookup_1 _ _ _ _ Hbs Hb) as Hr. cbn in Hr. unfold mret, sm_ret. do 2 f_equal.
  destruct (Z.ltb_spec b 128); [by rewrite (proj2 (Z.ltb_ge _ _)) by lia|].
  rewrite (proj2 (Z.ltb_lt _ _)) by lia. lia.
Qed.

Lemma read_offset_ok p pos v bs w : p ∉ failing w -> files w !! p = Some bs -> bytes_ok bs ->
  load_le 3 bs (Z.of_nat pos) = Done v -> read_offset (Some p) pos w = Done (v, w).
Proof.
  intros Hf Hp Hbs Hv. cbn [load_le] in Hv. run_inv.
  repeat match goal with H : load8 _ _ = Done _ |- _ => apply load8_inv in H as [_ H] end.
  rewrite !Z2Nat.inj_add, Nat2Z.id in * by lia. change (Z.to_nat 1) with 1%nat in *.
  unfold read_offset.
  rewrite (sm_bind_Done _ _ _ _ _ (read_byte_ok p pos _ bs w Hf Hp Hbs ltac:(eassumption))).
  rewrite (sm_bind_Done _ _ _ _ _ (read_byte_ok p (pos + 1) _ bs w Hf Hp Hbs ltac:(eassumption))).
  replace (pos + 1 + 1)%nat with (pos + 2)%nat in * by lia.
  rewrite (sm_bind_Done _ _ _ _ _ (read_byte_ok p (pos + 2) _ bs w Hf Hp Hbs ltac:(eassumption))).
  unfold mret, sm_ret. do 2 f_equal. lia.
Qed.

Lemma copy_part_ok p pos lSize q bs c w : p ∉ failing w -> room w = None -> files w !! p = Some bs ->
  files w !! q = Some c -> 0 <= lSize -> (pos + Z.to_nat lSize <= length bs)%nat ->
  copy_part (Some p) pos lSize (Some q) w =
    Done (tt, set_file q (c ++ take (Z.to_nat lSize) (drop pos bs)) w).
Proof.
  intros Hf Hr Hp Hq Hl Hn. unfold copy_part. rewrite (proj2 (Z.ltb_ge _ _) Hl).
  rewrite (sm_bind_Done _ _ _ _ _ (read_exactly_ok p pos _ bs w Hf Hp Hn)).
  rewrite (sm_bind_Done _ _ _ _ _ (fwrite_unbounded q _ w Hr)).
  by rewrite (lookup_total_correct _ _ _ Hq).
Qed.

Lemma fwrite_zeros_ok q n c w : room w = None -> files w !! q = Some c ->
  fwrite_zeros (Some q) n w = Done (tt, set_file q (c ++ replicate (Z.to_nat n) 0) w).
Proof.
  intros Hr Hq. unfold fwrite_zeros. rewrite (sm_bind_Done _ _ _ _ _ (fwrite_unbounded q _ w Hr)).
  by rewrite (lookup_total_correct _ _ _ Hq).
Qed.

(** The first [k] segment files are there, the others are not. *)
Lemma count_segments_ok s w k j n : (String.length s < 1000)%nat -> (n + j = 5)%nat ->
  (1 <= k)%nat -> tolerant = true \/ k = 5%nat ->
  (forall i, (i < 5)%nat -> is_Some (files w !! seg_path s (Z.of_nat i)) <-> (i < k)%nat) ->
  count_segments tolerant n s (Z.of_nat j) (Z.of_nat (min j k)) w =
    Done (inr (Z.of_nat (min (j + n) k)), w).
Proof.
  intros Hs Hn Hk Ht Hfs. revert j Hn. induction n as [|n IH]; intros j Hn; cbn [count_segments].
  { by rewrite Nat.add_0_r. }
  rewrite (sm_bind_Done _ _ _ _ _ (sprintf_ok 1024 (seg_path s (Z.of_nat j)) w
    ltac:(rewrite seg_path_length; lia))).
  specialize (Hfs j ltac:(lia)) as Hj. specialize (IH (S j) ltac:(lia)).
  replace (S j + n)%nat with (j + S n)%nat in IH by lia. rewrite <- IH.
  replace (Z.of_nat (S j)) with (Z.of_nat j + 1) by lia.
  destruct (files w !! seg_path s (Z.of_nat j)) as [bs|] eqn:E.
  - rewrite (sm_bind_Done _ _ _ _ _ (fopen_rb_ok _ _ _ E)).
    assert (j < k)%nat by (by apply Hj).
    by replace (Z.of_nat (min (S j) k)) with (Z.of_nat (min j k) + 1) by lia.
  - rewrite (sm_bind_Done _ _ _ _ _ (fopen_rb_missing _ _ E)).
    assert (~ (j < k)%nat) by (intros H; by apply Hj in H as [? ?]).
    rewrite (proj2 (Z.eqb_neq _ _)) by lia. destruct Ht as [->|Ht]; [|lia].
    by replace (min (S j) k) with (min j k) by lia.
Qed.

Lemma segment_source_ok s k raw c w : (String.length s < 240)%nat -> 0 <= k < 5 ->
  room w = None -> failing w = ∅ -> files w !! seg_path s k = Some raw -> stands_for raw c ->
  (length raw + length c < fuel)%nat -> exists path x,
  segment_source tolerant writable fuel s k w = Done (path, set_file (bin_path s k) x w) /\
  files (set_file (bin_path s k) x w) !! path = Some c.
Proof.
  intros Hs Hk Hr Hf Hraw Hc Hfuel. unfold segment_source. pose proof (seg_path_length s k Hk) as Hl.
  rewrite (sm_bind_Done _ _ _ _ _ (sprintf_ok 256 (seg_path s k) w ltac:(lia))).
  rewrite (sm_bind_Done _ _ _ _ _ (sprintf_ok 256 (seg_path s k +:+ ".bin") w
    ltac:(rewrite string_length_app, Hl; cbn; lia))).
  change (seg_path s k +:+ ".bin") with (bin_path s k).
  pose proof (seg_path_not_bin s k k Hk Hk) as Hne. destruct Hc as [Hc|[-> Hc]].
  - destruct (decompress_spec tolerant writable fuel (seg_path s k) (bin_path s k) raw [] c w)
      as (o & o' & -> & Ho & E); [done|done|done|by rewrite Hf|done|by rewrite app_nil_r| |lia|].
    { intros ->. by apply inflates_nonempty in Hc. }
    exists (bin_path s k), o. rewrite (sm_bind_Done _ _ _ _ _ E). rewrite Ho, app_nil_r by done.
    split; [done|]. apply set_file_same.
  - exists (seg_path s k), [].
    rewrite (sm_bind_Done _ _ _ _ _ (decompress_corrupt tolerant writable fuel (seg_path s k) (bin_path s k) raw w
      Hne (Hwritable _) Hr ltac:(by rewrite Hf) Hraw Hc ltac:(lia))).
    change (Z_DATA_ERROR =? -3) with true. cbn match.
    split; [apply sprintf_ok; lia|]. by rewrite set_file_other.
Qed.

(** What adding segments may write *)
Definition touched (s outputPath : string) (q : string) : Prop :=
  q = outputPath \/ exists k, 0 <= k < 5 /\ q = bin_path s k.

Record segment_ok (s : string) (k : nat) (raw c : mem) (w : world) : Prop := {
  seg_there : files w !! seg_path s (Z.of_nat k) = Some raw;
  seg_stands : stands_for raw c;
  seg_fuel : (length raw + length c < fuel)%nat;
  seg_size : mlen c < 2 ^ 30;
}.

Definition offset_ok (off : Z) : Prop := 0 <= off < 2 ^ 24.

Lemma offset_nth offs k : Forall offset_ok offs -> offset_ok (nth k offs 0).
Proof.
  intros H. destruct (decide (k < length offs)%nat).
  - by apply List.Forall_nth.
  - rewrite nth_overflow by lia. unfold offset_ok. lia.
Qed.

Lemma add_segment_ok s out offs k raw c f w : (String.length s < 240)%nat -> (k < 5)%nat ->
  room w = None -> failing w = ∅ -> Forall offset_ok offs -> out <> bin_path s (Z.of_nat k) ->
  segment_ok s k raw c w -> files w !! out = Some f -> exists w',
  add_segment tolerant writable fuel s (Some out) offs (Z.of_nat k) w = Done (None, w') /\
  same_but (touched s out) w w' /\ files w' !! out = Some (f ++ elf_body offs k [c]).
Proof.
  intros Hs Hk Hr Hf Hoffs Hout [Hraw Hc Hfuel Hsize] Hw. unfold add_segment.
  destruct (segment_source_ok s (Z.of_nat k) raw c w Hs ltac:(lia) Hr Hf Hraw Hc Hfuel)
    as (path & x & E & Hpath).
  rewrite (sm_bind_Done _ _ _ _ _ E). set (w1 := set_file _ x w) in *.
  rewrite (sm_bind_Done _ _ _ _ _ (fopen_rb_ok path c w1 Hpath)).
  unfold sm_gets at 1. unfold mbind at 1, sm_bind at 1. cbn zeta.
  rewrite (lookup_total_correct _ _ _ Hpath), (s32_small (mlen c)) by (unfold mlen in *; lia).
  assert (files w1 !! out = Some f) as Hout1 by (unfold w1; by rewrite set_file_other by done).
  assert (Z.to_nat (mlen c) = length c) as El by (unfold mlen; lia).
  rewrite (sm_bind_Done _ _ _ _ _ (copy_part_ok path 0 (mlen c) out c f w1 ltac:(cbn; rewrite Hf; set_solver) Hr
    Hpath Hout1 ltac:(unfold mlen; lia) ltac:(lia))).
  rewrite drop_0, El, firstn_all. set (w2 := set_file out (f ++ c) w1).
  assert (forall bs, same_but (touched s out) w (set_file out bs w1)) as Hsame.
  { intros bs. eapply same_but_trans; apply same_but_set; [right; exists (Z.of_nat k); split; [lia|done]|by left]. }
  cbn [elf_body]. rewrite app_nil_r. destruct (Nat.ltb_spec k 3) as [Hk3|Hk3].
  - rewrite (proj2 (Z.ltb_lt _ _)) by lia. rewrite Nat2Z.id.
    pose proof (offset_nth offs k Hoffs). pose proof (offset_nth offs (S k) Hoffs). unfold offset_ok in *.
    rewrite s32_small by (unfold mlen in *; lia).
    rewrite (sm_bind_Done _ _ _ _ _ (fwrite_zeros_ok out _ (f ++ c) w2 Hr (set_file_same _ _ _))).
    eexists. split; [done|]. unfold w2. rewrite set_file_twice, set_file_same, <- app_assoc. by split.
  - rewrite (proj2 (Z.ltb_ge _ _)) by lia. eexists. split; [done|].
    unfold w2. rewrite set_file_same, app_nil_r. by split.
Qed.

Lemma segment_ok_same s out k raw c w w' : (k < 5)%nat -> out <> seg_path s (Z.of_nat k) ->
  same_but (touched s out) w w' -> segment_ok s k raw c w -> segment_ok s k raw c w'.
Proof.
  intros Hk Hout (_ & _ & H) []. split; [|done..]. rewrite H; [done|].
  intros [E|(j & Hj & E)]; [by apply Hout|]. by apply (seg_path_not_bin s (Z.of_nat k) j); [lia|..].
Qed.

Lemma add_segments_ok s out offs : (String.length s < 240)%nat -> Forall offset_ok offs ->
  (forall k, (k < 5)%nat -> out <> seg_path s (Z.of_nat k) /\ out <> bin_path s (Z.of_nat k)) ->
  forall segs k f w, (k + length segs <= 5)%nat -> room w = None -> failing w = ∅ ->
  (forall i rc, segs !! i = Some rc -> segment_ok s (k + i) rc.1 rc.2 w) -> files w !! out = Some f ->
  exists w', add_segments tolerant writable fuel (length segs) s (Some out) offs (Z.of_nat k) w = Done (None, w') /\
  same_but (touched s out) w w' /\ files w' !! out = Some (f ++ elf_body offs k (snd <$> segs)).
Proof.
  intros Hs Hoffs Hout. induction segs as [|[raw c] segs IH]; intros k f w Hk Hr Hf Hsegs Hw.
  { exists w. cbn. rewrite app_nil_r. done. }
  cbn [length] in *. cbn [add_segments]. destruct (Hout k ltac:(lia)) as [Ho1 Ho2].
  destruct (add_segment_ok s out offs k raw c f w Hs ltac:(lia) Hr Hf Hoffs Ho2
    ltac:(specialize (Hsegs 0%nat (raw, c) eq_refl); by rewrite Nat.add_0_r in Hsegs) Hw)
    as (w1 & E & Hsame & Hw1).
  rewrite (sm_bind_Done _ _ _ _ _ E). destruct Hsame as (Hr1 & Hf1 & H1) eqn:Ehs. clear Ehs.
  destruct (IH (S k) (f ++ elf_body offs k [c]) w1) as (w2 & E2 & Hs2 & Hw2);
    [lia|congruence|congruence| |done|].
  { intros i rc Hi. replace (S k + i)%nat with (k + S i)%nat by lia.
    pose proof (lookup_lt_Some _ _ _ Hi). apply (segment_ok_same s out _ _ _ w);
      [lia|apply Hout; lia|done|]. by apply Hsegs. }
  exists w2. replace (Z.of_nat k + 1) with (Z.of_nat (S k)) by lia. split; [done|].
  split; [by eapply same_but_trans|]. rewrite Hw2. f_equal. rewrite <- app_assoc. f_equal.
  cbn [elf_body fmap list_fmap snd]. rewrite app_nil_r, <- app_assoc. done.
Qed.

(** ** The records written after the ELF *)

Lemma hex_digit_length d : (String.length (hex_digit d) <= 1)%nat.
Proof. unfold hex_digit. destruct (String.get _ _); cbn; lia. Qed.
Lemma fmt_hex_length n x : (String.length (fmt_hex n x) <= n)%nat.
Proof.
  revert x. induction n as [|n IH]; intros x; cbn [fmt_hex]; [done|]. rewrite string_length_app.
  pose proof (hex_digit_length (x mod 16)). specialize (IH (x / 16)). case_match; cbn [String.length]; lia.
Qed.

Lemma write_script_ok authid out w : (String.length out <= 100)%nat -> room w = None -> exists w',
  write_script tolerant writable authid out w = Done (tt, w') /\
  same_but (fun q => q = "BATCH_MAKE_FSELF.BAT"%string) w w'.
Proof.
  intros Hl Hr. unfold write_script. rewrite (sm_bind_Done _ _ _ _ _ (fopen_a_ok writable _ w (Hwritable _))).
  pose proof (fmt_hex_length 16 authid) as Hhex. revert Hhex. generalize (fmt_hex 16 authid) as hex. intros hex Hhex.
  match goal with |- context [sprintf 256 ?t] =>
    rewrite (sm_bind_Done _ _ _ _ _ (sprintf_ok 256 t _ ltac:(rewrite !string_length_app; cbn; lia))) end.
  rewrite (sm_bind_Done _ _ _ _ _ (fwrite_unbounded _ _ (set_file _ _ w) Hr)), set_file_twice.
  eexists. split; [done|]. by apply same_but_set.
Qed.

Lemma le_of_load n m off v : 0 <= off -> load_le n m off = Done v ->
  le_of (take n (drop (Z.to_nat off) m)) = v.
Proof.
  revert off v. induction n as [|n IH]; intros off v H0 H; cbn [load_le] in H; run_inv; [done|].
  match goal with H : load8 _ _ = _ |- _ => apply load8_inv in H as [_ H]; rewrite (drop_S _ _ _ H) end.
  cbn [take]. unfold le_of. cbn [foldr]. fold (le_of (take n (drop (S (Z.to_nat off)) m))).
  replace (S (Z.to_nat off)) with (Z.to_nat (off + 1)) by lia. by erewrite IH; [|lia|done].
Qed.

Lemma chars_length l : String.length (chars l) = length l.
Proof. induction l as [|b l IH]; [done|]. exact (f_equal S IH). Qed.

Lemma write_info_ok authid first entry j original out elf w : room w = None -> failing w = ∅ ->
  files w !! out = Some elf -> load32 elf 0x18 = Done entry -> 0 <= first < 2 ^ 24 -> 0 <= entry < 2 ^ 29 ->
  (j < 256)%nat -> elf !! (Z.to_nat (first + entry + 4) + j)%nat = Some 0 ->
  (String.length original <= 200)%nat -> exists w',
  write_info tolerant writable authid first original out w = Done (tt, w') /\
  same_but (fun q => q = "module_info_backup_list.txt"%string) w w'.
Proof.
  intros Hr Hf Hout Hentry Hfirst He Hj Hnul Ho. unfold write_info.
  assert (out ∉ failing w) as Hnf by (rewrite Hf; set_solver).
  rewrite (sm_bind_Done _ _ _ _ _ (fopen_rb_ok out elf w Hout)).
  rewrite (sm_bind_Done _ _ _ _ _ (fread_ok out 0x18 4 w Hnf)). cbn match.
  rewrite (lookup_total_correct _ _ _ Hout).
  pose proof (le_of_load 4 elf 0x18 entry ltac:(lia) Hentry) as El.
  change (Z.to_nat 0x18) with 0x18%nat in El. rewrite El, (s32_small entry), s32_small by lia.
  rewrite (proj2 (Z.ltb_ge _ _)) by lia.
  rewrite (sm_bind_Done _ _ _ _ _ (fread_ok out _ 256 w Hnf)). cbn match.
  rewrite (lookup_total_correct _ _ _ Hout). set (name := take 256 _).
  assert (existsb (Z.eqb 0) name = true) as Hn.
  { apply existsb_exists. exists 0. split; [|done]. apply list_elem_of_In, list_elem_of_lookup. exists j.
    unfold name. by rewrite lookup_take_lt, lookup_drop. }
  rewrite Hn, (sm_bind_Done _ _ _ _ _ (fclose_Some tolerant out w)).
  rewrite (sm_bind_Done _ _ _ _ _ (fopen_a_ok writable _ w (Hwritable _))).
  rewrite (sm_bind_Done (mret (until_nul name)) _ _ _ _ eq_refl).
  pose proof (fmt_hex_length 16 authid) as Hhex. revert Hhex. generalize (fmt_hex 16 authid) as hex. intros hex Hhex.
  pose proof (until_nul_length name).
  assert (length name <= 256)%nat by (unfold name; rewrite length_take; lia).
  match goal with |- context [sprintf 512 ?t] =>
    rewrite (sm_bind_Done _ _ _ _ _ (sprintf_ok 512 t _ ltac:(rewrite !string_length_app, chars_length; cbn; lia))) end.
  rewrite (sm_bind_Done _ _ _ _ _ (fwrite_unbounded _ _ (set_file _ _ w) Hr)), set_file_twice.
  eexists. split; [done|]. by apply same_but_set.
Qed.
End Build.

(** ** The layout of the ELF *)

Lemma load_le_window n pre o a k rest off : 0 <= off -> (Z.to_nat off + n <= k)%nat ->
  (a + k <= length o)%nat ->
  load_le n (pre ++ take k (drop a o) ++ rest) (mlen pre + off) = load_le n o (Z.of_nat a + off).
Proof.
  revert off. induction n as [|n IH]; intros off H0 Hn Ha; cbn [load_le]; [done|].
  rewrite <- !Z.add_assoc, (IH (off + 1)) by lia. rewrite load8_app_r by done.
  replace (load8 (take k (drop a o) ++ rest) off) with (load8 o (Z.of_nat a + off)); [done|].
  unfold load8. rewrite !(proj2 (Z.ltb_ge _ _)) by lia.
  rewrite lookup_app_l by (rewrite length_take, length_drop; lia).
  rewrite lookup_take_lt, lookup_drop by lia. by replace (a + Z.to_nat off)%nat with (Z.to_nat (Z.of_nat a + off)) by lia.
Qed.

Lemma elf_header_length o first : 0xB4 <= first -> 0xA0 + first <= mlen o ->
  mlen (elf_header o first) = first.
Proof.
  unfold mlen, elf_header. intros H1 H2. rewrite !length_app, !length_take, !length_drop, length_replicate. lia.
Qed.

(** The ELF header and the program headers are those of the SELF. *)
Lemma elf_header_load n o first rest a b : 0xB4 <= first -> 0xA0 + first <= mlen o ->
  0 <= a -> (a + Z.of_nat n <= 0x30 /\ b = a + 0xA0) \/ (0x30 <= a /\ a + Z.of_nat n <= first - 0xC /\ b = a + 0xAC) ->
  load_le n (elf_header o first ++ rest) a = load_le n o b.
Proof.
  unfold mlen, elf_header. intros H1 H2 Ha [[H3 ->]|(H3 & H4 & ->)]; rewrite <- !app_assoc.
  - pose proof (load_le_window n [] o 0xA0 0x30 (take (Z.to_nat (first - 0x3C)) (drop 0xDC o) ++ replicate 12 0 ++ rest) a
      Ha ltac:(lia) ltac:(lia)) as E. cbn [app mlen length] in E. change (Z.of_nat 0) with 0 in E.
    rewrite Z.add_0_l in E. rewrite E. f_equal. lia.
  - assert (mlen (take 0x30 (drop 0xA0 o)) = 0x30) as El
      by (unfold mlen; rewrite length_take, length_drop; lia).
    pose proof (load_le_window n (take 0x30 (drop 0xA0 o)) o 0xDC (Z.to_nat (first - 0x3C)) (replicate 12 0 ++ rest)
      (a - 0x30) ltac:(lia) ltac:(lia) ltac:(lia)) as E. rewrite El in E.
    replace (0x30 + (a - 0x30)) with a in E by lia. rewrite E. f_equal. lia.
Qed.

(** Segments that do not overlap stand at their offsets. *)
Lemma elf_body_places offs cs : forall k pre, mlen pre = nth k offs 0 ->
  (forall i c, cs !! i = Some c -> (S i < length cs)%nat -> (k + S i < 4)%nat ->
     nth (k + i) offs 0 + mlen c <= nth (k + S i) offs 0) ->
  forall i c, cs !! i = Some c -> (k + i < 4)%nat ->
    holds_at (pre ++ elf_body offs k cs) (nth (k + i) offs 0, c).
Proof.
  induction cs as [|c0 cs IH]; intros k pre Hpre Hfit i c Hi Hk; [done|]. cbn [elf_body].
  destruct i as [|i].
  - injection Hi as ->. intros j b Hj. cbn [fst snd] in *. rewrite Nat.add_0_r, <- Hpre.
    pose proof (lookup_lt_Some _ _ _ Hj). unfold mlen.
    rewrite lookup_app_r by lia. replace (_ - _)%nat with j by lia. by rewrite lookup_app_l.
  - cbn in Hi. pose proof (lookup_lt_Some _ _ _ Hi).
    specialize (Hfit 0%nat c0 eq_refl ltac:(cbn; lia) ltac:(lia)) as H0. rewrite Nat.add_0_r in H0.
    replace (k + 1)%nat with (S k) in H0 by lia.
    rewrite (proj2 (Nat.ltb_lt k 3)) by lia. rewrite (app_assoc c0), (app_assoc pre).
    replace (k + S i)%nat with (S k + i)%nat by lia. apply IH; [| |done|lia].
    + unfold mlen in *. rewrite !length_app, length_replicate. lia.
    + intros i' c' Hi' Hl Hk'. specialize (Hfit (S i') c' Hi' ltac:(cbn; lia) ltac:(lia)).
      replace (S k + i')%nat with (k + S i')%nat by lia. by replace (S k + S i')%nat with (k + S (S i'))%nat by lia.
Qed.

(** ** The whole tool *)

Section Tool.
Context {D I : Type} {zlib : Zlib D I} {laws : ZlibLaws D I}.
Context (tolerant : bool) (writable : string -> bool) (fuel : nat) (Hwritable : forall p, writable p = true).

(** A SELF [o] with its offsets, and the dumped segments with what they stand
    for; the name of the module ends within segment 0. *)
Record build_input (original s outp : string) (o : mem) (offs : list Z) (segs : list (mem * mem))
    (entry : Z) (w : world) : Prop := {
  b_room : room w = None;
  b_failing : failing w = ∅;
  b_original : files w !! original = Some o;
  b_bytes : bytes_ok o;
  b_offs : Forall offset_ok offs;
  b_offsets : forall i, (i < 4)%nat -> load_le 3 o (0xE4 + 32 * Z.of_nat i) = Done (nth i offs 0);
  b_four : length offs = 4%nat;
  b_first : 0xB4 <= nth 0 offs 0;
  b_headers : 0xA0 + nth 0 offs 0 <= mlen o;
  b_count : (1 <= length segs <= 5)%nat /\ (tolerant = true \/ length segs = 5%nat);
  b_segs : forall i rc, segs !! i = Some rc -> segment_ok fuel s i rc.1 rc.2 w;
  b_missing : forall i, (length segs <= i < 5)%nat -> files w !! seg_path s (Z.of_nat i) = None;
  b_fit : forall i rc, segs !! i = Some rc -> (S i < length segs)%nat -> (S i < 4)%nat ->
    nth i offs 0 + mlen rc.2 <= nth (S i) offs 0;
  b_entry : load32 o 0xB8 = Done entry /\ 0 <= entry < 2 ^ 29;
  b_name : exists rc j, segs !! 0%nat = Some rc /\ (j < 256)%nat /\
    rc.2 !! (Z.to_nat (entry + 4) + j)%nat = Some 0;
  b_lengths : (String.length s < 240 /\ String.length outp <= 100 /\ String.length original <= 200)%nat;
  b_output : outp <> original /\ outp <> "BATCH_MAKE_FSELF.BAT"%string /\
    outp <> "module_info_backup_list.txt"%string;
  b_apart : forall k, (k < 5)%nat -> outp <> seg_path s (Z.of_nat k) /\ outp <> bin_path s (Z.of_nat k);
}.

Lemma elf_body_name offs (segs : list (mem * mem)) pre rc j : segs !! 0%nat = Some rc -> rc.2 !! j = Some 0 ->
  (pre ++ elf_body offs 0 (snd <$> segs)) !! (length pre + j)%nat = Some 0.
Proof.
  destruct segs as [|rc' segs]; [done|]. intros [= ->] Hj. cbn [fmap list_fmap elf_body].
  rewrite lookup_app_r by lia. replace (_ - _)%nat with j by lia. by apply lookup_app_l_Some.
Qed.

(** The headers, with the output already created *)
Lemma build_header original outp o offs w w1 : room w = None -> failing w = ∅ ->
  w1 = set_file outp [] w -> outp <> original -> files w !! original = Some o -> bytes_ok o ->
  (forall i, (i < 4)%nat -> load_le 3 o (0xE4 + 32 * Z.of_nat i) = Done (nth i offs 0)) ->
  0xB4 <= nth 0 offs 0 -> 0xA0 + nth 0 offs 0 <= mlen o -> exists authid, forall A (f : Z -> Z -> Z -> Z -> mem -> M A),
  (firstSegmentOffset ← read_offset (Some original) 0xE4;
   secondSegmentOffset ← read_offset (Some original) 0x104;
   thirdSegmentOffset ← read_offset (Some original) 0x124;
   fourthSegmentOffset ← read_offset (Some original) 0x144;
   copy_part (Some original) 0xA0 0x30 (Some outp);;
   copy_part (Some original) 0xDC (firstSegmentOffset - 0x3C) (Some outp);;
   authid ← read_exactly (Some original) 0x80 8;
   fwrite_zeros (Some outp) 0xC;;
   f firstSegmentOffset secondSegmentOffset thirdSegmentOffset fourthSegmentOffset authid) w1 =
  f (nth 0 offs 0) (nth 1 offs 0) (nth 2 offs 0) (nth 3 offs 0) authid
    (set_file outp (elf_header o (nth 0 offs 0)) w).
Proof.
  intros Hr Hf -> Hne Ho Hbytes Hoffs H1 H2. set (first := nth 0 offs 0) in *.
  set (w1 := set_file outp [] w).
  assert (forall bs, files (set_file outp bs w) !! original = Some o) as Horig by (intros; by rewrite set_file_other).
  assert (forall bs, original ∉ failing (set_file outp bs w)) as Hnf by (intros; cbn; rewrite Hf; set_solver).
  exists (take 8 (drop 0x80 o)). intros A f. unfold mlen in H2.
  rewrite (sm_bind_Done _ _ _ _ _ (read_offset_ok original 0xE4 _ o w1 (Hnf _) (Horig _) Hbytes (Hoffs 0%nat ltac:(lia)))).
  rewrite (sm_bind_Done _ _ _ _ _ (read_offset_ok original 0x104 _ o w1 (Hnf _) (Horig _) Hbytes (Hoffs 1%nat ltac:(lia)))).
  rewrite (sm_bind_Done _ _ _ _ _ (read_offset_ok original 0x124 _ o w1 (Hnf _) (Horig _) Hbytes (Hoffs 2%nat ltac:(lia)))).
  rewrite (sm_bind_Done _ _ _ _ _ (read_offset_ok original 0x144 _ o w1 (Hnf _) (Horig _) Hbytes (Hoffs 3%nat ltac:(lia)))).
  fold first. unfold w1.
  rewrite (sm_bind_Done _ _ _ _ _ (copy_part_ok original 0xA0 0x30 outp o [] _ (Hnf _) Hr (Horig _)
    (set_file_same _ _ _) ltac:(lia) ltac:(lia))), set_file_twice.
  rewrite (sm_bind_Done _ _ _ _ _ (copy_part_ok original 0xDC (first - 0x3C) outp o _ _ (Hnf _) Hr (Horig _)
    (set_file_same _ _ _) ltac:(lia) ltac:(lia))), set_file_twice.
  rewrite (sm_bind_Done _ _ _ _ _ (read_exactly_ok original 0x80 8 o _ (Hnf _) (Horig _) ltac:(lia))).
  rewrite (sm_bind_Done _ _ _ _ _ (fwrite_zeros_ok outp 0xC _ (set_file outp _ w) Hr (set_file_same _ _ _))), set_file_twice.
  unfold elf_header. by rewrite <- !app_assoc.
Qed.

Lemma makeElf_ok original s outp o offs segs entry w : build_input original s outp o offs segs entry w ->
  exists w', makeElf tolerant writable fuel original s outp w = Done (0, w') /\
  files w' !! outp = Some (elf_header o (nth 0 offs 0) ++ elf_body offs 0 (snd <$> segs)).
Proof.
  intros []. pose proof b_lengths0 as (Hls & Hlo & Hlor). pose proof b_output0 as (Hne & Hb & Hm).
  set (first := nth 0 offs 0) in *. set (elf := elf_header o first ++ _).
  assert (offset_ok first) as Hfirst by (by apply offset_nth).
  destruct (build_header original outp o offs w _ b_room0 b_failing0 eq_refl Hne b_original0 b_bytes0
    b_offsets0 b_first0 b_headers0) as (authid & Hhead).
  assert (forall i, (i < 5)%nat -> is_Some (files w !! seg_path s (Z.of_nat i)) <-> (i < length segs)%nat) as Hthere.
  { intros i Hi. destruct (decide (i < length segs)%nat) as [Hl|Hl].
    - destruct (lookup_lt_is_Some_2 segs i Hl) as [rc Hrc]. destruct (b_segs0 i rc Hrc) as [-> _ _ _].
      by split; [|eexists].
    - rewrite b_missing0 by lia. by split; [intros []|lia]. }
  destruct (add_segments_ok tolerant writable fuel Hwritable s outp offs ltac:(lia) b_offs0 b_apart0 segs 0
    (elf_header o first) (set_file outp (elf_header o first) w)) as (w1 & Eadd & (Hr1 & Hf1 & H1) & Hw1);
    [lia|done|done| |apply set_file_same|].
  { intros i rc Hi. pose proof (lookup_lt_Some _ _ _ Hi).
    apply (segment_ok_same fuel s outp _ _ _ w); [lia|apply b_apart0; lia| |by apply b_segs0].
    apply same_but_set. by left. }
  destruct (write_script_ok tolerant writable Hwritable (le_of authid) outp w1 Hlo ltac:(by rewrite Hr1))
    as (w2 & Escript & (Hr2 & Hf2 & H2)).
  assert (files w2 !! outp = Some elf) as Hw2 by (rewrite H2; [exact Hw1|done]).
  destruct b_name0 as (rc & j & Hrc & Hj & Hnul). destruct b_entry0 as [Hentry He].
  pose proof (elf_header_length o first b_first0 b_headers0) as Hhl.
  destruct (write_info_ok tolerant writable Hwritable (le_of authid) first entry j original outp elf w2)
    as (w3 & Einfo & (Hr3 & Hf3 & H3)); [by rewrite Hr2, Hr1|by rewrite Hf2, Hf1| done| | done|done|done| |done|].
  { unfold elf. rewrite (elf_header_load 4 o first _ 0x18 0xB8); [done|done|done|lia|lia]. }
  { unfold offset_ok, mlen in *. replace (Z.to_nat (first + entry + 4) + j)%nat
      with (length (elf_header o first) + (Z.to_nat (entry + 4) + j))%nat by lia.
    by apply (elf_body_name offs segs _ rc). }
  exists w3. split; [|rewrite H3; [exact Hw2|done]]. unfold makeElf.
  rewrite (sm_bind_Done _ _ _ _ _ (fopen_rb_ok original o w b_original0)).
  rewrite (sm_bind_Done _ _ _ _ _ (count_segments_ok tolerant s w (length segs) 0 5
    ltac:(lia) ltac:(lia) ltac:(lia) (proj2 b_count0) Hthere)).
  replace (Z.of_nat (min (0 + 5) (length segs))) with (Z.of_nat (length segs)) by lia.
  rewrite Nat2Z.id, (sm_bind_Done _ _ _ _ _ (fopen_rb_ok original o w b_original0)).
  rewrite (sm_bind_Done _ _ _ _ _ (fopen_wb_ok writable outp w (Hwritable _) b_room0)).
  rewrite Hhead. fold first. replace [first; nth 1 offs 0; nth 2 offs 0; nth 3 offs 0] with offs
    by (by destruct offs as [|? [|? [|? [|? [|]]]]]).
  rewrite (sm_bind_Done _ _ _ _ _ Eadd), (sm_bind_Done _ _ _ _ _ Escript), (sm_bind_Done _ _ _ _ _ Einfo). done.
Qed.

(** C19: On well-formed input ([build_input]) the tool ends with code 0, and in
    the ELF it has built each of the first four segments stands, decompressed,
    at the offset that the program header of that ELF gives.  The input is
    well formed when no write or read fails, the SELF holds its four segment
    offsets, which increase by at least the segments' sizes, each dumped
    segment is a complete zlib stream or raw bytes that zlib refuses, there
    are five of them or the C library tolerates closing a null stream, the
    module name ends within segment 0, and no path is too long for its array
    or names two of the files.  The cases excluded by the second half are
    [truncated_segment_taken_raw] and [missing_segment_crashes]. *)
Theorem makeElf_places_segments original s outp o offs segs entry w :
  build_input original s outp o offs segs entry w -> exists w' elf,
  makeElf tolerant writable fuel original s outp w = Done (0, w') /\ files w' !! outp = Some elf /\
  forall i rc, segs !! i = Some rc -> (i < 4)%nat -> exists off,
    load_le 3 elf (0x34 + 32 * Z.of_nat i + 4) = Done off /\ holds_at elf (off, rc.2).
Proof.
  intros H. destruct (makeElf_ok _ _ _ _ _ _ _ _ H) as (w' & E & Helf). destruct H.
  exists w', (elf_header o (nth 0 offs 0) ++ elf_body offs 0 (snd <$> segs)). split; [done|]. split; [done|].
  intros i rc Hi Hk. exists (nth i offs 0). split.
  - rewrite (elf_header_load 3 o _ _ _ (0xE4 + 32 * Z.of_nat i)); [by apply b_offsets0|done..|lia|]. right. lia.
  - apply (elf_body_places offs (snd <$> segs) 0); [by apply elf_header_length| | |lia].
    + intros k c Hc Hl Hk4. apply list_lookup_fmap_Some_1 in Hc as (rc' & -> & Hc).
      rewrite length_fmap in Hl. by apply b_fit0.
    + by apply list_lookup_fmap_Some_2.
Qed.

(** A segment of which the end is missing is not noticed: its compressed
    bytes are taken for the segment. *)
Theorem truncated_segment_taken_raw s k raw miss o w : (String.length s < 240)%nat -> 0 <= k < 5 ->
  room w = None -> failing w = ∅ -> files w !! seg_path s k = Some raw ->
  inflates inflateInit.2 (raw ++ miss) o -> miss <> [] -> (length raw + length o < fuel)%nat ->
  exists w', segment_source tolerant writable fuel s k w = Done (seg_path s k, w') /\
    files w' !! seg_path s k = Some raw.
Proof.
  intros Hs Hk Hr Hf Hraw Hst Hmiss Hfuel. unfold segment_source. pose proof (seg_path_length s k Hk) as Hl.
  rewrite (sm_bind_Done _ _ _ _ _ (sprintf_ok 256 (seg_path s k) w ltac:(lia))).
  rewrite (sm_bind_Done _ _ _ _ _ (sprintf_ok 256 (seg_path s k +:+ ".bin") w
    ltac:(rewrite string_length_app, Hl; cbn; lia))).
  change (seg_path s k +:+ ".bin") with (bin_path s k). pose proof (seg_path_not_bin s k k Hk Hk) as Hne.
  destruct (decompress_spec tolerant writable fuel (seg_path s k) (bin_path s k) raw miss o w)
    as (outs & o' & -> & _ & E); [done|done|done|by rewrite Hf|done|done|done|lia|].
  exists (set_file (bin_path s k) outs w). rewrite (sm_bind_Done _ _ _ _ _ E), decide_False by done.
  change (Z_DATA_ERROR =? -3) with true. cbn match. split; [apply sprintf_ok; lia|]. by rewrite set_file_other.
Qed.
End Tool.

Section Missing.
Context {D I : Type} {zlib : Zlib D I} (writable : string -> bool) (fuel : nat).

Lemma count_segments_crashes s w raw n : (String.length s < 1000)%nat ->
  files w !! seg_path s 0 = Some raw -> forall j num, (n + j = 5)%nat ->
  (exists k, (j <= k < 5)%nat /\ files w !! seg_path s (Z.of_nat k) = None) ->
  count_segments false n s (Z.of_nat j) num w = Fault FNull.
Proof.
  intros Hs Hraw. induction n as [|n IH]; intros j num Hn (k & Hk & Hmiss); [lia|]. cbn [count_segments].
  rewrite (sm_bind_Done _ _ _ _ _ (sprintf_ok 1024 (seg_path s (Z.of_nat j)) w
    ltac:(rewrite seg_path_length; lia))).
  destruct (files w !! seg_path s (Z.of_nat j)) as [bs|] eqn:E.
  - rewrite (sm_bind_Done _ _ _ _ _ (fopen_rb_ok _ _ _ E)), (sm_bind_Done _ _ _ _ _ (fclose_Some false _ w)).
    replace (Z.of_nat j + 1) with (Z.of_nat (S j)) by lia. apply IH; [lia|]. exists k. split; [|done].
    assert (j <> k) by (intros ->; congruence). lia.
  - rewrite (sm_bind_Done _ _ _ _ _ (fopen_rb_missing _ _ E)).
    assert (Z.of_nat j <> 0) by (intros Ej; rewrite Ej in E; congruence).
    by rewrite (proj2 (Z.eqb_neq _ _)).
Qed.

(** Of a module with fewer than five segments no ELF is built where
    closing a null stream is an error: the tool closes the stream of each
    missing segment. *)
Theorem missing_segment_crashes original s outp o raw w : (String.length s < 1000)%nat ->
  files w !! original = Some o -> files w !! seg_path s 0 = Some raw ->
  (exists k, (1 <= k < 5)%nat /\ files w !! seg_path s (Z.of_nat k) = None) ->
  makeElf false writable fuel original s outp w = Fault FNull.
Proof.
  intros Hs Ho Hraw Hk. unfold makeElf. rewrite (sm_bind_Done _ _ _ _ _ (fopen_rb_ok original o w Ho)).
  destruct Hk as (k & Hk & Hmiss).
  pose proof (count_segments_crashes s w raw 5 Hs Hraw 0 0 ltac:(lia) ltac:(exists k; split; [lia|done])) as E.
  change (Z.of_nat 0) with 0 in E. unfold mbind at 1, sm_bind at 1. by rewrite E.
Qed.
End Missing.

(** ** The theorems at concrete files *)

Lemma zlib_roundtrip_witness : exists N w1 w2, forall fuel, (N <= fuel)%nat ->
  zlib_compress (zlib := Stored.zlib) true (fun _ => true) fuel "a" "b"
    (World {["a"%string := [5; 6; 7]]} None ∅) = Done (Z_OK, w1) /\
  zlib_decompress (zlib := Stored.zlib) true (fun _ => true) fuel "b" "c" w1 = Done (Z_OK, w2) /\
  files w2 !! "c"%string = Some [5; 6; 7].
Proof.
  apply (zlib_roundtrip (laws := Stored.zlib_laws) true (fun _ => true) "a" "b" "c" [5; 6; 7]);
    first [reflexivity|discriminate|set_solver].
Defined.

(** A SELF whose segments are at 0xB4 and 0xC0, with one compressed segment
    and one that is not *)
Definition sample_self : mem := <[0xE4%nat := 0xB4]> (<[0x104%nat := 0xC0]> (replicate 400 0)).
Definition sample_segs : list (mem * mem) :=
  [(Stored.enc [1; 2; 3; 4; 77; 0] ++ [0], [1; 2; 3; 4; 77; 0]); ([9; 8; 7], [9; 8; 7])].
Definition sample_disk : world :=
  World {["m.self"%string := sample_self; "m.seg0"%string := Stored.enc [1; 2; 3; 4; 77; 0] ++ [0];
          "m.seg1"%string := [9; 8; 7]]} None ∅.

Lemma sample_input : build_input (laws := Stored.zlib_laws) true 100 "m.self" "m" "m.elf" sample_self
  [0xB4; 0xC0; 0; 0] sample_segs 0 sample_disk.
Proof.
  split; try reflexivity.
  - apply (bool_decide_unpack _). reflexivity.
  - repeat constructor; cbn; lia.
  - intros [|[|[|[|i]]]] Hi; [reflexivity..|lia].
  - discriminate.
  - cbn. lia.
  - intros [|[|i]] rc [= <-]; split; try reflexivity; cbn [fst snd].
    + left. reflexivity.
    + cbn. lia.
    + right. split; [done|]. right. split; [by exists 9, [8; 7]|cbn; lia].
    + cbn. lia.
  - change (length sample_segs) with 2%nat. intros [|[|[|[|[|i]]]]] Hi; [lia|lia|reflexivity..|lia].
  - change (length sample_segs) with 2%nat. intros [|[|i]] rc [= <-] H1 H2; [|lia]. discriminate.
  - split; [reflexivity|lia].
  - exists (Stored.enc [1; 2; 3; 4; 77; 0] ++ [0], [1; 2; 3; 4; 77; 0]), 1%nat.
    split; [reflexivity|]. split; [lia|reflexivity].
  - cbn. lia.
  - by split_and!.
  - intros [|[|[|[|[|k]]]]] Hk; [by split..|lia].
Qed.

Lemma makeElf_places_segments_witness : exists w' elf,
  makeElf (zlib := Stored.zlib) true (fun _ => true) 100 "m.self" "m" "m.elf" sample_disk = Done (0, w') /\
  files w' !! "m.elf"%string = Some elf /\ forall i rc, sample_segs !! i = Some rc -> (i < 4)%nat -> exists off,
    load_le 3 elf (0x34 + 32 * Z.of_nat i + 4) = Done off /\ holds_at elf (off, rc.2).
Proof.
  apply (makeElf_places_segments (laws := Stored.zlib_laws) true (fun _ => true) 100 (fun _ => eq_refl)
    "m.self" "m" "m.elf" sample_self [0xB4; 0xC0; 0; 0] sample_segs 0 sample_disk sample_input).
Defined.

Lemma truncated_segment_taken_raw_witness : exists w',
  segment_source (zlib := Stored.zlib) true (fun _ => true) 100 "m" 0
    (World {["m.seg0"%string := [1; 5; 1]]} None ∅) = Done (seg_path "m" 0, w') /\
  files w' !! seg_path "m" 0 = Some [1; 5; 1].
Proof.
  apply (truncated_segment_taken_raw (laws := Stored.zlib_laws) true (fun _ => true) 100 (fun _ => eq_refl)
    "m" 0 [1; 5; 1] [6; 0] [5; 6]); first [reflexivity|discriminate|cbn; lia].
Defined.

Lemma missing_segment_crashes_witness :
  makeElf (zlib := Stored.zlib) false (fun _ => true) 100 "m.self" "m" "m.elf" sample_disk = Fault FNull.
Proof.
  apply (missing_segment_crashes (zlib := Stored.zlib) (fun _ => true) 100 "m.self" "m" "m.elf" sample_self
    (Stored.enc [1; 2; 3; 4; 77; 0] ++ [0])); [cbn; lia|reflexivity|reflexivity|].
  exists 2%nat. split; [lia|reflexivity].
Defined.
