(* ===== verification/UnarzlMain.v ===== *)
(** * The command line of unarzl (unarzl/src/main.c)

    [main] reads a file into memory, has [unarzl] decompress it and writes the
    result.  The environment gives for each file what the single calls of
    [fread] deliver and how many bytes those of [fwrite] take; both loops go on
    until everything is through, at the offset of the last portion instead of
    the sum of all. *)

From stdpp Require Import prelude strings.
From S2P Require Import Prelude Bytes Deobf Arzl.

(** What [ftell] gives at the end of the file, and the portions of the reads *)
Record input_file := Input { ftell : Z; portions : list mem }.

Section Main.
(** What [realloc] and [malloc] return; the files that can be opened; the
    fuel of [unarzl] and of the loops. *)
Context (realloc : Z -> Z * mem) (malloc : Z -> option mem).
Context (open_in : string -> option input_file) (open_out : string -> option (list Z)).
Context (fuel : nat).

(** [while ((count = fread(inbuf+count, 1, size, input)) < size) size -= count;]
    gives the buffer and the last [size]. *)
Fixpoint read_loop (n : nat) (inbuf : mem) (size count : Z) (input : list mem) : run (mem * Z) :=
  match n with
  | O => OutOfFuel
  | S n' =>
      let bs := take (Z.to_nat size) (hd [] input) in
      inbuf ← blit inbuf count bs;
      let count := mlen bs in
      if count <? size then read_loop n' inbuf (u32 (size - count)) count (tl input)
      else Done (inbuf, size)
  end.

(** The same for [fwrite]; gives the file written. *)
Fixpoint write_loop (n : nat) (outbuf : mem) (size count : Z) (takes : list Z) (file : mem) : run mem :=
  match n with
  | O => OutOfFuel
  | S n' =>
      bs ← slice outbuf count (Z.to_nat size);
      let count := Z.min size (hd 0 takes) in
      let file := file ++ take (Z.to_nat count) bs in
      if count <? size then write_loop n' outbuf (u32 (size - count)) count (tl takes) file
      else Done file
  end.

(** The exit code and what is in the output file; the jump to [error] closes
    both streams, opened or not. *)
Definition main (args : list string) : run (Z * option mem) :=
  match args with
  | [] => Done (1, None)
  | input_path :: rest =>
      match open_in input_path with
      | None => Fault FNull
      | Some input =>
          match open_out (hd "uncompressed_data.bin"%string rest) with
          | None => Fault FNull
          | Some takes =>
              let size := u32 (ftell input) in
              match malloc size with
              | None => Done (1, Some [])
              | Some inbuf =>
                  '(inbuf, size) ← read_loop fuel inbuf size 0 (portions input);
                  '(outbuf, size) ← unarzl fuel realloc inbuf size;
                  file ← write_loop fuel outbuf size 0 takes [];
                  Done (0, Some file)
              end
          end
      end
  end.

(** ** A file that is read and written whole *)

Lemma read_loop_whole n inbuf bs more : mlen inbuf = mlen bs ->
  read_loop (S n) inbuf (mlen bs) 0 (bs :: more) = Done (bs, mlen bs).
Proof.
  intros Hl. cbn [read_loop hd]. replace (Z.to_nat (mlen bs)) with (length bs) by (unfold mlen; lia).
  rewrite firstn_all. unfold blit. replace (_ && _) with true by (unfold mlen in *; lia).
  cbn [mbind run_bind]. rewrite Z.ltb_irrefl. change (Z.to_nat 0) with 0%nat. rewrite take_0.
  rewrite drop_ge by (unfold mlen in Hl; lia). cbn. by rewrite app_nil_r.
Qed.

Lemma write_loop_whole n outbuf size t more : 0 <= size <= mlen outbuf -> size <= t ->
  write_loop (S n) outbuf size 0 (t :: more) [] = Done (take (Z.to_nat size) outbuf).
Proof.
  intros Hs Ht. cbn [write_loop hd]. unfold slice. replace (_ && _) with true by (unfold mlen in *; lia).
  cbn [mbind run_bind]. rewrite Z.min_l, Z.ltb_irrefl by lia. rewrite drop_0. cbn [app].
  by rewrite take_take, Nat.min_id.
Qed.

(** The file of a stored segment: a header of four bytes, and the data *)
Definition packed (hdr : mem) (flags : Z) (data : mem) : mem := hdr ++ stored flags data.

Lemma unarzl_stored n hdr flags data base block m : length hdr = 4%nat -> Z.land flags 0x80 <> 0 ->
  mlen (packed hdr flags data) < 2 ^ 31 -> mlen data <> 0 ->
  realloc (mlen (packed hdr flags data) * 2) = (base, block) ->
  mlen block = mlen (packed hdr flags data) * 2 ->
  arzl_deobfuscate (data ++ drop (length data) block) (mlen data) 2 = Done m ->
  unarzl (S n) realloc (packed hdr flags data) (mlen (packed hdr flags data)) = Done (m, mlen data).
Proof.
  intros Hhdr Hf Hl Hd Hr Hb Hm. unfold unarzl. cbn [unarzl_loop].
  assert (mlen (packed hdr flags data) = 9 + mlen data) as El.
  { unfold mlen, packed, stored, be4. rewrite length_app. cbn [length app]. lia. }
  assert (0 <= mlen data) by (unfold mlen; lia).
  rewrite (u32_small (_ * 2)), Hr by lia. unfold packed. rewrite drop_app_ge by lia.
  rewrite Hhdr. cbn [Nat.sub drop]. fold (packed hdr flags data). rewrite <- Hb.
  rewrite drop_0, stored_fits by (done || lia). cbn [mbind run_bind].
  rewrite (proj2 (Z.eqb_neq _ _)) by lia. cbn [mbind run_bind]. rewrite s32_small by lia. by rewrite Hm.
Qed.

(** From a file whose data are the stored form of some code, run through
    the filter, the tool writes that code. *)
Theorem main_unpacks path rest input takes hdr flags code data base block more :
  open_in path = Some (Input (mlen (packed hdr flags data)) (packed hdr flags data :: more)) ->
  open_out (hd "uncompressed_data.bin"%string rest) = Some (mlen data :: takes) ->
  length hdr = 4%nat -> Z.land flags 0x80 <> 0 -> mlen (packed hdr flags data) < 2 ^ 31 ->
  malloc (mlen (packed hdr flags data)) = Some input -> mlen input = mlen (packed hdr flags data) ->
  realloc (mlen (packed hdr flags data) * 2) = (base, block) ->
  mlen block = mlen (packed hdr flags data) * 2 -> bytes_ok code -> bytes_ok block ->
  code <> [] -> length code = length data ->
  filter_segment act_v2_filter (code ++ drop (length data) block) (mlen data)
    = data ++ drop (length data) block ->
  (0 < fuel)%nat -> main (path :: rest) = Done (0, Some code).
Proof.
  intros Hin Hout Hhdr Hf Hl Hmal Hinput Hr Hb Hcode Hblock Hne Hlen Hfilter Hfuel.
  set (file := packed hdr flags data) in *.
  assert (mlen file = 9 + mlen data) as El.
  { unfold file, mlen, packed, stored, be4. rewrite length_app. cbn [length app]. lia. }
  assert (0 < mlen data) as Hd by (unfold mlen; destruct code; [done|cbn in Hlen; lia]).
  destruct fuel as [|n] eqn:Efuel; [lia|]. unfold main. rewrite Hin, Hout. cbn [ftell portions].
  rewrite (u32_small (mlen file)) by lia. rewrite Hmal, Efuel, read_loop_whole by done. cbn [mbind run_bind].
  assert (arzl_deobfuscate (data ++ drop (length data) block) (mlen data) 2
    = Done (code ++ drop (length data) block)) as Edeobf.
  { rewrite <- Hfilter. apply deobfuscate_v2_filtered; [|done|].
    - apply Forall_app. split; [done|]. by apply Forall_drop.
    - unfold mlen in *. rewrite length_app, length_drop. lia. }
  pose proof (unarzl_stored n hdr flags data base block _ Hhdr Hf Hl ltac:(lia) Hr Hb Edeobf) as E.
  fold file in E. rewrite E. cbn [mbind run_bind].
  rewrite write_loop_whole; [|unfold mlen in *; rewrite length_app; lia|lia].
  cbn [mbind run_bind]. unfold mlen. by rewrite Nat2Z.id, <- Hlen, take_app_length.
Qed.

(** When the file ends before the size that was measured, the tool waits
    for the rest for ever. *)
Theorem read_loop_waits n inbuf size count : 0 < size -> 0 <= count <= mlen inbuf ->
  size < 2 ^ 32 -> read_loop n inbuf size count [] = OutOfFuel.
Proof.
  intros Hs Hc Hu. revert inbuf count Hc. induction n as [|n IH]; intros inbuf count Hc; [done|].
  cbn [read_loop hd tl]. rewrite take_nil. unfold blit.
  replace (_ && _) with true by (unfold mlen in *; cbn; lia). cbn [mbind run_bind app].
  change (mlen []) with 0. rewrite (proj2 (Z.ltb_lt _ _) Hs), u32_small by lia.
  rewrite Z.sub_0_r. apply IH. unfold mlen in *. rewrite !length_app, length_take, length_drop. cbn. lia.
Qed.
End Main.

(** A NOP and its slack, stored; the block given by [realloc] is zero. *)
Lemma main_unpacks_witness :
  main (fun n => (0, replicate (Z.to_nat n) 0)) (fun n => Some (replicate (Z.to_nat n) 0))
    (fun _ => Some (Input 13 [packed [65; 82; 90; 76] 0x80 [0; 0xBF; 0; 0xBF]])) (fun _ => Some [4]) 1
    ["in"; "out"]%string = Done (0, Some [0; 0xBF; 0; 0xBF]).
Proof.
  apply (main_unpacks _ _ _ _ 1 "in" ["out"%string] (replicate 13 0) [] [65; 82; 90; 76] 0x80
    [0; 0xBF; 0; 0xBF] [0; 0xBF; 0; 0xBF] 0 (replicate 26 0) []);
    first [reflexivity | discriminate | lia | by apply (bool_decide_unpack _); reflexivity].
Defined.

Lemma read_loop_waits_witness : read_loop 1000 [1; 2; 3] 2 1 [] = OutOfFuel.
Proof. apply (read_loop_waits 1000 [1; 2; 3] 2 1); unfold mlen; cbn [length]; lia. Defined.
