(* ===== verification/DebugScreen.v ===== *)
(** * The debug screen (Kdumper/src/debugScreen.c)

    Text on a frame buffer: every character is 8 by 8 pixels, drawn twice as
    large.  The frame buffer is a function from word indices, of which the
    block of [SCREEN_FB_SIZE] bytes has [FB_WORDS]; a write behind them is a
    fault.  A text is a buffer of bytes that ends with its NUL; reading behind
    it is a fault.  [char] is unsigned, as on the ARM.

    The specification is a terminal of [COLS] by [ROWS] cells. *)

From stdpp Require Import prelude.
From S2P Require Import Prelude Bytes DebugFont.

Definition SCREEN_WIDTH : Z := 960.
Definition SCREEN_HEIGHT : Z := 544.
Definition SCREEN_FB_WIDTH : Z := 960.
Definition SCREEN_FB_SIZE : Z := 2 * 1024 * 1024.
Definition SCREEN_GLYPH_W : Z := 8.
Definition SCREEN_GLYPH_H : Z := 8.
Definition PSV_DEBUG_SCALE : Z := 2.
Definition COLOR_DEFAULT_FG : Z := 0xFFFFFFFF.
Definition COLOR_DEFAULT_BG : Z := 0xFF000000.
Definition FB_WORDS : Z := SCREEN_FB_SIZE / 4.

(** [psvDebugScreenCoordX] and so on; [base]: [psvDebugScreenFrameBuf.base];
    [locks]: how often [psvDebugScreenMutex] is held *)
Record screen := Screen {
  CoordX : Z; CoordY : Z; ColorFg : Z; ColorBg : Z; base : option (Z -> Z); locks : Z;
}.
Abbreviation S := (SM screen).

Definition screen0 : screen := Screen 0 0 COLOR_DEFAULT_FG COLOR_DEFAULT_BG None 0.
Definition set_coord (x y : Z) s := Screen (u32 x) (u32 y) (ColorFg s) (ColorBg s) (base s) (locks s).
Definition set_fg (c : Z) s := Screen (CoordX s) (CoordY s) (u32 c) (ColorBg s) (base s) (locks s).
Definition set_bg (c : Z) s := Screen (CoordX s) (CoordY s) (ColorFg s) (u32 c) (base s) (locks s).
Definition set_base (b : option (Z -> Z)) s := Screen (CoordX s) (CoordY s) (ColorFg s) (ColorBg s) b (locks s).
Definition add_lock (d : Z) s := Screen (CoordX s) (CoordY s) (ColorFg s) (ColorBg s) (base s) (locks s + d).

Definition psvDebugScreenSetFgColor (color : Z) : S Z :=
  prev ← sm_gets ColorFg; _ ← sm_modify (set_fg color); mret prev.
Definition psvDebugScreenSetBgColor (color : Z) : S Z :=
  prev ← sm_gets ColorBg; _ ← sm_modify (set_bg color); mret prev.

(** One word of the frame buffer *)
Definition set_word (v : Z -> Z) (i w : Z) : Z -> Z := fun k => if k =? i then w else v k.
Definition poke (i w : Z) : S unit :=
  b ← sm_gets base;
  match b with
  | None => fun _ => Fault FNull
  | Some v => if (0 <=? i) && (i <? FB_WORDS) then sm_modify (set_base (Some (set_word v i w))) else fun _ => Fault FMem
  end.

(** [for(i = ..; ..; i++)], [n] turns from [i] on *)
Fixpoint for_loop (n : nat) (i : Z) (body : Z -> S unit) : S unit :=
  match n with O => mret tt | Datatypes.S n' => _ ← body i; for_loop n' (i + 1) body end.

(** ** Escape sequences *)

(** [BIT2BYTE] *)
Definition BIT2BYTE (bit : Z) : Z :=
  Z.lor (Z.lor (if Z.land bit 4 =? 0 then 0 else 2 ^ 23) (if Z.land bit 2 =? 0 then 0 else 2 ^ 15))
        (if Z.land bit 1 =? 0 then 0 else 2 ^ 7).

(** [switch(params[j]/10)] *)
Definition set_attribute (param : Z) : S unit :=
  let bits := BIT2BYTE (param mod 10) in
  let light := Z.lor bits 0x7F7F7F7F in
  let k := param / 10 in
  if k =? 0 then _ ← psvDebugScreenSetFgColor COLOR_DEFAULT_FG; _ ← psvDebugScreenSetBgColor COLOR_DEFAULT_BG; mret tt
  else if k =? 3 then _ ← psvDebugScreenSetFgColor bits; mret tt
  else if k =? 9 then _ ← psvDebugScreenSetFgColor light; mret tt
  else if k =? 4 then _ ← psvDebugScreenSetBgColor bits; mret tt
  else if k =? 10 then _ ← psvDebugScreenSetBgColor light; mret tt
  else mret tt.
Fixpoint set_attributes (params : list Z) : S unit :=
  match params with [] => mret tt | p :: rest => _ ← set_attribute p; set_attributes rest end.

(** [params[p]] of the array of eight *)
Definition param (params : list Z) (p : nat) : run Z :=
  match params !! p with Some v => Done v | None => Fault FTable end.

(** [n]: turns left of the eight *)
Fixpoint escape_loop (n : nat) (str : mem) (i : Z) (p : nat) (params : list Z) : S Z :=
  match n with
  | O => mret i
  | Datatypes.S n' =>
      ch ← sm_lift (load8 str i);
      if ch =? 0 then mret i
      else if (48 <=? ch) && (ch <=? 57) then
        v ← sm_lift (param params p);
        escape_loop n' str (i + 1) p (<[p := v * 10 + (ch - 48)]> params)
      else if ch =? 59 then escape_loop n' str (i + 1) (Datatypes.S p) params
      else if (ch =? 102) || (ch =? 72) then
        x ← sm_lift (param params 0);
        y ← sm_lift (param params 1);
        _ ← sm_modify (set_coord (x * SCREEN_GLYPH_W) (y * SCREEN_GLYPH_H));
        mret i
      else if ch =? 109 then
        _ ← (if (p <? 8)%nat then set_attributes (take (Datatypes.S p) params) else fun _ => Fault FTable);
        mret i
      else escape_loop n' str (i + 1) p params
  end.
Definition psvDebugScreenEscape (str : mem) : S Z := escape_loop 8 str 0 0 (replicate 8 0).

(** ** Drawing *)

(** [alloc]: the new block, or none *)
Definition psvDebugScreenInit (alloc : option (Z -> Z)) (sceDisplaySetFrameBuf : option (Z -> Z) -> Z) : S Z :=
  _ ← (match alloc with Some v => sm_modify (set_base (Some v)) | None => mret tt end);
  b ← sm_gets base;
  mret (sceDisplaySetFrameBuf b).

Definition psvDebugScreenClear (bg_color : Z) : S unit :=
  _ ← sm_modify (set_coord 0 0);
  for_loop (Z.to_nat (SCREEN_WIDTH * SCREEN_HEIGHT)) 0 (fun i => poke i (u32 bg_color)).

(** One of the four pixels for bit [j] of row [i] of the glyph *)
Definition pixel (row i j y x : Z) : S unit :=
  s ← sm_get;
  poke (u32 ((CoordX s + x + j * PSV_DEBUG_SCALE) + (CoordY s + y + i * PSV_DEBUG_SCALE) * SCREEN_FB_WIDTH))
       (if Z.land row (Z.shiftr 128 j) =? 0 then ColorBg s else ColorFg s).

Definition draw_glyph (ch : Z) : S unit :=
  for_loop 8 0 (fun i =>
    row ← sm_lift (load8 psvDebugScreenFont (ch * 8 + i));
    for_loop 8 0 (fun j => for_loop 2 0 (fun y => for_loop 2 0 (fun x => pixel row i j y x)))).

(** [if (psvDebugScreenCoordX + 8 > SCREEN_WIDTH)] and the test behind it *)
Definition wrap : S unit :=
  s ← sm_get;
  _ ← (if SCREEN_WIDTH <? u32 (CoordX s + 8) then sm_modify (set_coord 0 (CoordY s + SCREEN_GLYPH_H * PSV_DEBUG_SCALE))
       else mret tt);
  s ← sm_get;
  if SCREEN_HEIGHT <? u32 (CoordY s + 8) then psvDebugScreenClear (ColorBg s) else mret tt.

(** [for (c = 0; text[c] != '\0'; c++)] *)
Fixpoint puts_loop (fuel : nat) (text : mem) (c : Z) : S Z :=
  match fuel with
  | O => fun _ => OutOfFuel
  | Datatypes.S fuel' =>
      ch ← sm_lift (load8 text c);
      if ch =? 0 then mret c
      else
        _ ← wrap;
        if ch =? 10 then
          _ ← sm_modify (fun s => set_coord 0 (CoordY s + SCREEN_GLYPH_H * PSV_DEBUG_SCALE) s);
          puts_loop fuel' text (c + 1)
        else if ch =? 13 then
          _ ← sm_modify (fun s => set_coord 0 (CoordY s) s);
          puts_loop fuel' text (c + 1)
        else
          escape ← (if ch =? 27 then next ← sm_lift (load8 text (c + 1)); mret (next =? 91) else mret false);
          if escape : bool then
            n ← psvDebugScreenEscape (drop 2 text);
            puts_loop fuel' text (c + (n + 2) + 1)
          else
            _ ← draw_glyph ch;
            _ ← sm_modify (fun s => set_coord (CoordX s + SCREEN_GLYPH_W * PSV_DEBUG_SCALE) (CoordY s) s);
            puts_loop fuel' text (c + 1)
  end.

(** Every turn goes on by one byte at least. *)
Definition psvDebugScreenPuts (text : mem) : S Z :=
  _ ← sm_modify (add_lock 1);
  c ← puts_loop (Datatypes.S (length text)) text 0;
  _ ← sm_modify (add_lock (-1));
  mret c.

(** [formatted]: what the format gives, without its NUL; [buf] is filled by
    [vsnprintf]. *)
Definition psvDebugScreenPrintf (formatted : mem) : S Z :=
  _ ← psvDebugScreenPuts (take 511 formatted ++ [0]);
  mret (mlen formatted).

(** ** The terminal *)

Definition COLS : Z := 60.
Definition ROWS : Z := 34.

Inductive cell := Plain (color : Z) | Glyph (ch fg bg : Z).
Record term := Term { col : Z; row : Z; fg : Z; bg : Z; cells : Z -> Z -> cell }.

Definition glyph_bit (ch i j : Z) : bool :=
  negb (Z.land (default 0 (psvDebugScreenFont !! Z.to_nat (ch * 8 + i))) (Z.shiftr 128 j) =? 0).
(** The color of the pixel in column [dx] and row [dy] of a cell *)
Definition cell_pixel (c : cell) (dx dy : Z) : Z :=
  match c with
  | Plain color => color
  | Glyph ch fg bg => if glyph_bit ch (dy / 2) (dx / 2) then fg else bg
  end.

(** The cursor goes to the next row behind the last column, and to a cleared
    screen behind the last row. *)
Definition term_wrap (t : term) : term :=
  let t := if col t =? COLS then Term 0 (row t + 1) (fg t) (bg t) (cells t) else t in
  if row t =? ROWS then Term 0 0 (fg t) (bg t) (fun _ _ => Plain (bg t)) else t.
Definition term_put (t : term) (ch : Z) : term :=
  let t := term_wrap t in
  if ch =? 10 then Term 0 (row t + 1) (fg t) (bg t) (cells t)
  else if ch =? 13 then Term 0 (row t) (fg t) (bg t) (cells t)
  else Term (col t + 1) (row t) (fg t) (bg t)
         (fun r c => if (r =? row t) && (c =? col t) then Glyph ch (fg t) (bg t) else cells t r c).

Definition shows (v : Z -> Z) (t : term) : Prop := forall r c dx dy,
  0 <= r < ROWS -> 0 <= c < COLS -> 0 <= dx < 16 -> 0 <= dy < 16 ->
  v (c * 16 + dx + (r * 16 + dy) * SCREEN_FB_WIDTH) = cell_pixel (cells t r c) dx dy.
Record shown (s : screen) (t : term) : Prop := {
  shown_base : exists v, base s = Some v /\ shows v t;
  shown_col : CoordX s = col t * 16 /\ 0 <= col t <= COLS;
  shown_row : CoordY s = row t * 16 /\ 0 <= row t <= ROWS /\ (row t = ROWS -> col t = 0);
  shown_colors : ColorFg s = fg t /\ ColorBg s = bg t /\ 0 <= bg t < 2 ^ 32;
}.

(** ** Painting

    A step that paints the picture [img] writes its words in the region [R]
    and leaves the others. *)

Definition paints (img : Z -> Z) (R : Z -> Prop) (m : S unit) (s : screen) : Prop :=
  forall v, base s = Some v -> exists v', m s = Done (tt, set_base (Some v') s) /\
    (forall p, R p -> v' p = img p) /\ (forall p, ~ R p -> v' p = v p) /\ (forall p, v' p = v p \/ v' p = img p).

Lemma paints_loop img (R : Z -> Z -> Prop) n : forall i body s,
  (forall k v, i <= k < i + Z.of_nat n -> paints img (R k) (body k) (set_base (Some v) s)) ->
  paints img (fun p => exists k, i <= k < i + Z.of_nat n /\ R k p) (for_loop n i body) s.
Proof.
  induction n as [|n IH]; intros i body s Hb v Hv.
  - exists v. cbn [for_loop]. split; [by destruct s; cbn in *; subst|]. split; [|by auto]. intros p (k & Hk & _). lia.
  - assert (set_base (Some v) s = s) as Hs by (by destruct s; cbn in *; subst).
    destruct (Hb i v ltac:(lia) v eq_refl) as (v1 & E1 & A1 & B1 & C1). rewrite Hs in E1.
    cbn [for_loop]. rewrite (sm_bind_Done _ _ _ _ _ E1).
    destruct (IH (i + 1) body (set_base (Some v1) s)) with (v := v1) as (v2 & E2 & A2 & B2 & C2); [|done|].
    { intros k w Hk. by apply Hb; lia. }
    exists v2. split; [exact E2|]. split; [|split].
    + intros p (k & Hk & Hp). destruct (decide (k = i)) as [->|]; [|apply A2; exists k; split; [lia|done]].
      destruct (C2 p) as [-> | ->]; [by apply A1|done].
    + intros p Hp. rewrite B2, B1; [done| |].
      * intros H. apply Hp. exists i. split; [lia|done].
      * intros (k & Hk & H). apply Hp. exists k. split; [lia|done].
    + intros p. destruct (C2 p) as [-> | ->]; [apply C1|by right].
Qed.

Lemma sm_bind_lift {A B} (a : A) (f : A -> S B) s : (sm_lift (Done a) ≫= f) s = f a s.
Proof. done. Qed.

Lemma paints_poke img i w s : 0 <= i < FB_WORDS -> img i = w -> paints img (fun p => p = i) (poke i w) s.
Proof.
  intros Hi <- v Hv. exists (set_word v i (img i)). unfold poke.
  rewrite (sm_bind_Done (sm_gets base) _ s (base s) s eq_refl), Hv.
  rewrite (proj2 (Z.leb_le 0 i)), (proj2 (Z.ltb_lt i FB_WORDS)) by lia. split; [done|]. unfold set_word.
  split; [|split].
  - intros p ->. by rewrite Z.eqb_refl.
  - intros p Hp. by rewrite (proj2 (Z.eqb_neq p i)).
  - intros p. destruct (Z.eqb_spec p i) as [->|]; auto.
Qed.

Lemma paints_region img (R R' : Z -> Prop) m s : (forall p, R p <-> R' p) -> paints img R m s -> paints img R' m s.
Proof.
  intros H Hp v Hv. destruct (Hp v Hv) as (v' & E & A & B & C). exists v'. split; [done|].
  split; [|split; [|done]]; intros p Hr; [apply A|apply B]; by rewrite H.
Qed.

(** The picture of a glyph at [X], [Y] *)
Definition glyph_at (ch X Y fg bg p : Z) : Z :=
  if glyph_bit ch ((p / 960 - Y) / 2) ((p mod 960 - X) / 2) then fg else bg.

Lemma div_mod_960 a b : 0 <= a < 960 -> (a + b * 960) / 960 = b /\ (a + b * 960) mod 960 = a.
Proof. intros Ha. split; [rewrite Z.div_add, Z.div_small by lia; lia|rewrite Z.mod_add, Z.mod_small by lia; lia]. Qed.

Lemma font_byte ch i : 0 <= ch < 256 -> 0 <= i < 8 ->
  load8 psvDebugScreenFont (ch * 8 + i) = Done (default 0 (psvDebugScreenFont !! Z.to_nat (ch * 8 + i))).
Proof.
  intros Hc Hi. destruct (load8_total psvDebugScreenFont (ch * 8 + i)) as [b E].
  { unfold mlen. rewrite font_length. lia. }
  rewrite E. by apply load8_inv in E as [_ ->].
Qed.

Lemma draw_glyph_paints ch s : 0 <= ch < 256 -> 0 <= CoordX s <= 944 -> 0 <= CoordY s <= 528 ->
  paints (glyph_at ch (CoordX s) (CoordY s) (ColorFg s) (ColorBg s))
    (fun p => exists dx dy, 0 <= dx < 16 /\ 0 <= dy < 16 /\ p = CoordX s + dx + (CoordY s + dy) * 960)
    (draw_glyph ch) s.
Proof.
  intros Hc Hx Hy. set (img := glyph_at _ _ _ _ _).
  eapply (paints_region _ (fun p => exists i, 0 <= i < 0 + Z.of_nat 8 /\ exists j, 0 <= j < 0 + Z.of_nat 8 /\
    exists y, 0 <= y < 0 + Z.of_nat 2 /\ exists x, 0 <= x < 0 + Z.of_nat 2 /\
    p = CoordX s + x + j * 2 + (CoordY s + y + i * 2) * 960)).
  { intros p. split.
    - intros (i & Hi & j & Hj & y & Hyy & x & Hxx & ->). exists (x + j * 2), (y + i * 2). split; [lia|]. split; [lia|]. lia.
    - intros (dx & dy & Hdx & Hdy & ->). exists (dy / 2). split; [div_lia|]. exists (dx / 2). split; [div_lia|].
      exists (dy mod 2). split; [div_lia|]. exists (dx mod 2). split; [div_lia|]. div_lia. }
  apply paints_loop. intros i v Hi w Hw. rewrite font_byte, sm_bind_lift by lia.
  revert w Hw. apply paints_loop. intros j v1 Hj. apply paints_loop. intros y v2 Hyy. apply paints_loop. intros x v3 Hxx w Hw.
  unfold pixel. rewrite (sm_bind_Done sm_get _ _ _ _ eq_refl). cbn [CoordX CoordY ColorFg ColorBg set_base].
  unfold SCREEN_FB_WIDTH, PSV_DEBUG_SCALE. rewrite u32_small by lia. revert w Hw.
  apply paints_poke; [change FB_WORDS with 524288; lia|].
  unfold img, glyph_at. destruct (div_mod_960 (CoordX s + x + j * 2) (CoordY s + y + i * 2) ltac:(lia)) as [-> ->].
  replace ((CoordY s + y + i * 2 - CoordY s) / 2) with i by div_lia.
  replace ((CoordX s + x + j * 2 - CoordX s) / 2) with j by div_lia. unfold glyph_bit. by destruct (Z.land _ _ =? 0).
Qed.

Lemma clear_paints c s : 0 <= c < 2 ^ 32 ->
  paints (fun _ => c) (fun p => 0 <= p < SCREEN_WIDTH * SCREEN_HEIGHT)
    (for_loop (Z.to_nat (SCREEN_WIDTH * SCREEN_HEIGHT)) 0 (fun i => poke i (u32 c))) s.
Proof.
  intros Hc. eapply (paints_region _ (fun p => exists k, 0 <= k < 0 + Z.of_nat (Z.to_nat (SCREEN_WIDTH * SCREEN_HEIGHT)) /\ p = k)).
  { intros p. rewrite Z2Nat.id by (unfold SCREEN_WIDTH, SCREEN_HEIGHT; lia). split; [intros (k & Hk & ->)|intros Hp; exists p]; lia. }
  apply paints_loop. intros k v Hk. rewrite Z2Nat.id in Hk by (unfold SCREEN_WIDTH, SCREEN_HEIGHT; lia).
  apply paints_poke; [change FB_WORDS with 524288; unfold SCREEN_WIDTH, SCREEN_HEIGHT in *; lia|]. by rewrite u32_small.
Qed.

(** ** A text on the screen *)

Lemma shown_clear s t : shown s t -> exists s', psvDebugScreenClear (ColorBg s) s = Done (tt, s') /\ locks s' = locks s /\
  shown s' (Term 0 0 (fg t) (bg t) (fun _ _ => Plain (bg t))).
Proof.
  intros [(v & Hv & _) _ _ (H1 & H2 & H3)]. unfold psvDebugScreenClear.
  rewrite (sm_bind_Done (sm_modify (set_coord 0 0)) _ s tt _ eq_refl).
  destruct (clear_paints (ColorBg s) (set_coord 0 0 s)) with (v := v) as (v' & E & A & _); [by rewrite H2|done|].
  eexists. split; [exact E|]. split; [done|]. split; cbn; [|by unfold COLS|by unfold ROWS|done].
  exists v'. split; [done|]. intros r c dx dy Hr Hc Hdx Hdy. rewrite A; [done|].
  unfold ROWS, COLS, SCREEN_FB_WIDTH, SCREEN_WIDTH, SCREEN_HEIGHT in *. nia.
Qed.

(** The two tests, on the terminal *)
Definition term_break (t : term) : term :=
  if col t =? COLS then Term 0 (row t + 1) (fg t) (bg t) (cells t) else t.

Lemma shown_break s t : shown s t -> exists s',
  (if SCREEN_WIDTH <? u32 (CoordX s + 8) then sm_modify (set_coord 0 (CoordY s + SCREEN_GLYPH_H * PSV_DEBUG_SCALE))
   else mret tt) s = Done (tt, s') /\ locks s' = locks s /\ shown s' (term_break t) /\ col (term_break t) < COLS.
Proof.
  intros [Hb (HX & Hc) (HY & Hr & Hz) Hcol]. unfold COLS, ROWS in *. unfold term_break, COLS, SCREEN_WIDTH.
  rewrite HX, u32_small by lia. destruct (Z.eqb_spec (col t) 60) as [E|E].
  - rewrite (proj2 (Z.ltb_lt _ _)) by lia. eexists. split; [done|]. split; [done|]. split; [|cbn; lia].
    split; cbn; unfold SCREEN_GLYPH_H, PSV_DEBUG_SCALE, COLS, ROWS; rewrite ?u32_small by lia; try done; lia.
  - rewrite (proj2 (Z.ltb_ge _ _)) by lia. eexists. split; [done|]. split; [done|]. split; [|lia].
    by split; unfold COLS, ROWS.
Qed.

Lemma shown_wrap s t : shown s t -> exists s', wrap s = Done (tt, s') /\ locks s' = locks s /\
  shown s' (term_wrap t) /\ row (term_wrap t) < ROWS /\ col (term_wrap t) < COLS.
Proof.
  intros H. unfold wrap. rewrite (sm_bind_Done sm_get _ _ _ _ eq_refl).
  destruct (shown_break s t H) as (s1 & E1 & L1 & H1 & Hlt).
  rewrite (sm_bind_Done _ _ _ _ _ E1), (sm_bind_Done sm_get _ _ _ _ eq_refl).
  change (term_wrap t) with (let t := term_break t in
    if row t =? ROWS then Term 0 0 (fg t) (bg t) (fun _ _ => Plain (bg t)) else t). cbv zeta.
  destruct (shown_row _ _ H1) as (HY & Hr & _). unfold ROWS in Hr. rewrite HY, u32_small by lia. unfold SCREEN_HEIGHT.
  destruct (Z.eqb_spec (row (term_break t)) ROWS) as [E|E]; unfold ROWS in E.
  - rewrite (proj2 (Z.ltb_lt _ _)) by lia. destruct (shown_clear _ _ H1) as (s2 & E2 & L2 & H2).
    exists s2. split; [done|]. split; [congruence|]. split; [done|]. cbn. unfold ROWS, COLS. lia.
  - rewrite (proj2 (Z.ltb_ge _ _)) by lia. exists s1. split; [done|]. split; [done|]. split; [done|]. unfold ROWS. lia.
Qed.

Lemma shown_glyph s t ch : shown s t -> row t < ROWS -> col t < COLS -> 0 <= ch < 256 -> exists s',
  draw_glyph ch s = Done (tt, s') /\ locks s' = locks s /\ CoordX s' = CoordX s /\ CoordY s' = CoordY s /\
  shown s' (Term (col t) (row t) (fg t) (bg t)
    (fun r c => if (r =? row t) && (c =? col t) then Glyph ch (fg t) (bg t) else cells t r c)).
Proof.
  intros [(v & Hv & Hsh) (HX & Hc) (HY & Hr & Hz) (H1 & H2 & H3)] Hrow Hcol Hch. unfold ROWS, COLS in *.
  destruct (draw_glyph_paints ch s Hch) with (v := v) as (v' & E & A & B & _); [lia|lia|done|].
  eexists. split; [exact E|]. do 3 (split; [done|]). split; cbn; [|unfold COLS; lia|unfold ROWS; lia|done].
  exists v'. split; [done|]. intros r c dx dy Hr' Hc' Hdx Hdy. unfold SCREEN_FB_WIDTH in *.
  unfold ROWS, COLS in *. cbn [cells].
  destruct (Z.eqb_spec r (row t)) as [->|Hne]; [destruct (Z.eqb_spec c (col t)) as [->|Hne]|]; cbn [andb].
  - rewrite A by (exists dx, dy; lia). unfold glyph_at. rewrite HX, HY, H1, H2.
    destruct (div_mod_960 (col t * 16 + dx) (row t * 16 + dy) ltac:(lia)) as [-> ->]. cbn [cell_pixel].
    by replace (row t * 16 + dy - row t * 16) with dy by lia; replace (col t * 16 + dx - col t * 16) with dx by lia.
  - rewrite B; [apply Hsh; unfold ROWS, COLS; lia|]. intros (dx' & dy' & Hdx' & Hdy' & E'). lia.
  - rewrite B; [apply Hsh; unfold ROWS, COLS; lia|]. intros (dx' & dy' & Hdx' & Hdy' & E'). lia.
Qed.

(** A character without meaning to the escape sequences *)
Definition plain (b : Z) : Prop := 1 <= b < 256 /\ b <> 27.

Lemma load8_here pre l : load8 (pre ++ l) (mlen pre) = load8 l 0.
Proof. rewrite <- (load8_app_r pre l 0) by lia. by rewrite Z.add_0_r. Qed.

Lemma puts_loop_plain rest : forall pre tail fuel s t, Forall plain rest -> shown s t -> exists s',
  puts_loop (length rest + fuel) (pre ++ rest ++ tail) (mlen pre) s =
    puts_loop fuel (pre ++ rest ++ tail) (mlen (pre ++ rest)) s' /\
  locks s' = locks s /\ shown s' (foldl term_put t rest).
Proof.
  induction rest as [|b rest IH]; intros pre tail fuel s t Hp Hs.
  { exists s. by rewrite app_nil_r. }
  cbn [length Nat.add puts_loop]. rewrite load8_here. inversion Hp as [|x l [Hb Hne] Hp']; subst.
  change (load8 ((b :: rest) ++ tail) 0) with (Done b). rewrite sm_bind_lift, (proj2 (Z.eqb_neq b 0)) by lia.
  destruct (shown_wrap s t Hs) as (s1 & E1 & L1 & H1 & Hr & Hc). rewrite (sm_bind_Done _ _ _ _ _ E1).
  assert (forall s2, locks s2 = locks s1 -> shown s2 (term_put t b) -> exists s',
    puts_loop (length rest + fuel) (pre ++ (b :: rest) ++ tail) (mlen pre + 1) s2 =
      puts_loop fuel (pre ++ (b :: rest) ++ tail) (mlen (pre ++ b :: rest)) s' /\
    locks s' = locks s /\ shown s' (foldl term_put t (b :: rest))) as Hrec.
  { intros s2 L2 H2. destruct (IH (pre ++ [b]) tail fuel s2 (term_put t b) Hp' H2) as (s' & E & L & H').
    exists s'. replace (mlen (pre ++ [b])) with (mlen pre + 1) in E by (unfold mlen; rewrite length_app; cbn; lia).
    rewrite <- !app_assoc in E. split; [exact E|]. split; [congruence|done]. }
  unfold term_put in Hrec. pose proof H1 as [HB (HX & Hc') (HY & Hr' & Hz) Hcol]. unfold ROWS, COLS in *.
  destruct (Z.eqb_spec b 10) as [->|]; [|destruct (Z.eqb_spec b 13) as [->|]].
  - rewrite (sm_bind_Done (sm_modify _) _ s1 tt _ eq_refl). apply Hrec; [done|].
    split; cbn; unfold SCREEN_GLYPH_H, PSV_DEBUG_SCALE, COLS, ROWS; rewrite ?u32_small by lia; try done; lia.
  - rewrite (sm_bind_Done (sm_modify _) _ s1 tt _ eq_refl). apply Hrec; [done|].
    split; cbn; unfold COLS, ROWS; rewrite ?u32_small by lia; try done; lia.
  - rewrite (proj2 (Z.eqb_neq b 27)) by done. rewrite (sm_bind_Done (mret false) _ s1 false s1 eq_refl).
    destruct (shown_glyph s1 _ b H1) as (s2 & E2 & L2 & X2 & Y2 & H2); [unfold ROWS, COLS; lia..|].
    rewrite (sm_bind_Done _ _ _ _ _ E2), (sm_bind_Done (sm_modify _) _ s2 tt _ eq_refl). apply Hrec; [done|].
    destruct H2 as [B2 [X3 _] [Y3 _] C2]. cbn in *.
    split; cbn; unfold SCREEN_GLYPH_W, PSV_DEBUG_SCALE, COLS, ROWS; rewrite ?X3, ?Y3, ?u32_small by lia; try done; lia.
Qed.

(** C31: A formatted text without escape sequences appears on the screen: what
    the frame buffer shows afterwards is the terminal after its first 511
    characters, with every glyph in its cell and the screen cleared when it is
    full; nothing is written outside the frame buffer, and the mutex is free
    again. *)
Theorem printf_shows_text s t text : shown s t -> Forall plain text -> exists s',
  psvDebugScreenPrintf text s = Done (mlen text, s') /\ locks s' = locks s /\
  shown s' (foldl term_put t (take 511 text)).
Proof.
  intros Hs Hp. unfold psvDebugScreenPrintf, psvDebugScreenPuts.
  set (u := take 511 text).
  destruct (puts_loop_plain u [] [0] 2 (add_lock 1 s) t) as (s' & E & L & H); [by apply Forall_take|by destruct Hs; split|].
  exists (add_lock (-1) s'). split; [|split].
  - cbn [app] in E. change (mlen []) with 0 in E. rewrite length_app. unfold mbind, sm_bind, sm_modify.
    replace (Datatypes.S (length u + length [0])) with (length u + 2)%nat by (cbn; lia). rewrite E.
    cbn [puts_loop]. rewrite load8_here. done.
  - cbn. rewrite L. cbn. lia.
  - by destruct H; split.
Qed.

(** ** Escape sequences that the text has elsewhere *)

(** A byte that does not end a sequence *)
Definition inert (b : Z) : Prop := b <> 0 /\ b <> 102 /\ b <> 72 /\ b <> 109.

Lemma escape_inert n : forall str pre rest p params s, str = pre ++ rest -> (n <= length rest)%nat ->
  Forall inert (take n rest) -> (p + n <= 8)%nat -> length params = 8%nat ->
  escape_loop n str (mlen pre) p params s = Done (mlen pre + Z.of_nat n, s).
Proof.
  induction n as [|n IH]; intros str pre rest p params s -> Hl Hi Hp Hpar; cbn [escape_loop].
  { by rewrite Z.add_0_r. }
  destruct rest as [|b rest]; [cbn in Hl; lia|]. rewrite load8_here. change (load8 (b :: rest) 0) with (Done b).
  rewrite sm_bind_lift. cbn [firstn] in Hi. inversion Hi as [|? ? (H0 & H1 & H2 & H3) Hi']; subst.
  assert (forall p' params', (p' <= Datatypes.S p)%nat -> length params' = 8%nat ->
    escape_loop n (pre ++ b :: rest) (mlen pre + 1) p' params' s = Done (mlen pre + Z.of_nat (Datatypes.S n), s)) as Hrec.
  { intros p' params' Hp' Hl'. replace (mlen pre + 1) with (mlen (pre ++ [b])) by (unfold mlen; rewrite length_app; cbn; lia).
    rewrite (IH _ (pre ++ [b]) rest); [|by rewrite <- app_assoc|cbn in Hl; lia|done|lia|done].
    unfold mlen. rewrite length_app. cbn [length]. do 2 f_equal. lia. }
  rewrite (proj2 (Z.eqb_neq _ _) H0), (proj2 (Z.eqb_neq _ _) H1), (proj2 (Z.eqb_neq _ _) H2), (proj2 (Z.eqb_neq _ _) H3).
  cbn [orb]. destruct ((48 <=? b) && (b <=? 57)).
  - destruct (lookup_lt_is_Some_2 params p ltac:(lia)) as [v Hv]. unfold param. rewrite Hv, sm_bind_lift.
    apply Hrec; [lia|by rewrite length_insert].
  - destruct (b =? 59); apply Hrec; lia || done.
Qed.

Lemma puts_loop_escape pre rest fuel s t : shown s t -> exists s', shown s' (term_wrap t) /\
  puts_loop (Datatypes.S fuel) (pre ++ 27 :: 91 :: rest) (mlen pre) s =
    (n ← psvDebugScreenEscape (drop 2 (pre ++ 27 :: 91 :: rest));
     puts_loop fuel (pre ++ 27 :: 91 :: rest) (mlen pre + (n + 2) + 1)) s'.
Proof.
  intros Hs. destruct (shown_wrap s t Hs) as (s1 & E1 & _ & H1 & _). exists s1. split; [done|].
  cbn [puts_loop]. rewrite load8_here. change (load8 (27 :: 91 :: rest) 0) with (Done 27). rewrite sm_bind_lift.
  change (27 =? 0) with false. cbv iota. rewrite (sm_bind_Done _ _ _ _ _ E1).
  change (27 =? 10) with false. change (27 =? 13) with false. change (27 =? 27) with true. cbv iota.
  rewrite load8_app_r by lia. by rewrite (sm_bind_Done _ _ s1 true s1) by reflexivity.
Qed.

Lemma puts_Fault text e s : puts_loop (Datatypes.S (length text)) text 0 (add_lock 1 s) = Fault e ->
  psvDebugScreenPuts text s = Fault e.
Proof. intros H. unfold psvDebugScreenPuts, mbind, sm_bind, sm_modify. by rewrite H. Qed.

Lemma shown_lock d s t : shown s t -> shown (add_lock d s) t.
Proof. by intros []; split. Qed.

(** A sequence behind at least ten plain characters is not read where it
    stands but at the third character of the text; when none of the eight
    characters there ends a sequence, the text is read on behind its NUL. *)
Theorem late_escape_overruns s t pre seq : shown s t -> Forall plain pre -> (10 <= length pre)%nat ->
  Forall inert (take 8 (drop 2 pre)) -> (length seq <= 8)%nat ->
  psvDebugScreenPuts (pre ++ [27; 91] ++ seq ++ [0]) s = Fault FMem.
Proof.
  intros Hs Hp Hl Hi Hq. apply puts_Fault. set (tail := [27; 91] ++ seq ++ [0]).
  assert (length tail = length seq + 3)%nat as Ht by (unfold tail; rewrite !length_app; cbn; lia).
  destruct (puts_loop_plain pre [] tail (length seq + 4) (add_lock 1 s) t Hp) as (s1 & E & _ & H1); [by apply shown_lock|].
  cbn [app] in E. change (mlen []) with 0 in E. rewrite length_app, Ht.
  replace (Datatypes.S (length pre + (length seq + 3))) with (length pre + (length seq + 4))%nat by lia.
  rewrite E, Nat.add_succ_r. destruct (puts_loop_escape pre (seq ++ [0]) (length seq + 3) s1 _ H1) as (s2 & _ & E2).
  change (27 :: 91 :: seq ++ [0]) with tail in E2. rewrite E2. unfold psvDebugScreenEscape. rewrite drop_app_le by lia.
  assert (escape_loop 8 (drop 2 pre ++ tail) 0 0 (replicate 8 0) s2 = Done (8, s2)) as E3.
  { refine (escape_inert 8 _ [] (drop 2 pre ++ tail) 0 (replicate 8 0) s2 eq_refl _ _ _ eq_refl);
      [rewrite length_app, length_drop; lia| |lia]. rewrite take_app_le; [done|rewrite length_drop; lia]. }
  rewrite (sm_bind_Done _ _ _ _ _ E3), Nat.add_succ_r. cbn [puts_loop].
  assert (load8 (pre ++ tail) (mlen pre + (8 + 2) + 1) = Fault FMem) as ->; [|done].
  unfold load8. rewrite (proj2 (Z.ltb_ge _ 0)) by (unfold mlen; lia).
  rewrite lookup_ge_None_2; [done|]. rewrite length_app, Ht. unfold mlen. lia.
Qed.

(** *** A position near the lower border *)

(** The step moves nothing, or it leaves the frame buffer. *)
Definition draws (m : S unit) (s : screen) : Prop := forall v, base s = Some v ->
  m s = Fault FMem \/ exists v', m s = Done (tt, set_base (Some v') s).

Lemma draws_loop n : forall i body s, (forall k v, i <= k < i + Z.of_nat n -> draws (body k) (set_base (Some v) s)) ->
  draws (for_loop n i body) s.
Proof.
  induction n as [|n IH]; intros i body s Hb v Hv; [right; exists v; by destruct s; cbn in *; subst|].
  assert (set_base (Some v) s = s) as Hs by (by destruct s; cbn in *; subst).
  cbn [for_loop]. destruct (Hb i v ltac:(lia) v eq_refl) as [E|(v' & E)]; rewrite Hs in E.
  - left. unfold mbind, sm_bind. by rewrite E.
  - rewrite (sm_bind_Done _ _ _ _ _ E). apply (IH (i + 1) body (set_base (Some v') s)) with (v := v'); [|done].
    intros k w Hk. by apply Hb; lia.
Qed.

(** A loop one of whose turns faults does so. *)
Lemma loop_faults n k : forall i body s v, (forall k v, i <= k < i + Z.of_nat n -> draws (body k) (set_base (Some v) s)) ->
  i <= k < i + Z.of_nat n -> (forall v, body k (set_base (Some v) s) = Fault FMem) -> base s = Some v ->
  for_loop n i body s = Fault FMem.
Proof.
  induction n as [|n IH]; intros i body s v Hb Hk Hf Hv; [lia|].
  assert (set_base (Some v) s = s) as Hs by (by destruct s; cbn in *; subst).
  cbn [for_loop]. destruct (Hb i v ltac:(lia) v eq_refl) as [E|(v' & E)]; rewrite Hs in E.
  - unfold mbind, sm_bind. by rewrite E.
  - rewrite (sm_bind_Done _ _ _ _ _ E). destruct (decide (i = k)) as [->|].
    + rewrite <- Hs, Hf in E. discriminate E.
    + apply (IH (i + 1) body (set_base (Some v') s) v'); [|lia|done|done]. intros j w Hj. by apply Hb; lia.
Qed.

Lemma draws_pixel row i j y x s : draws (pixel row i j y x) s.
Proof.
  intros v Hv. unfold pixel, poke. rewrite (sm_bind_Done sm_get _ _ _ _ eq_refl).
  rewrite (sm_bind_Done (sm_gets base) _ s (base s) s eq_refl), Hv. case_match; [right; by eexists|by left].
Qed.

(** Row 7 of a glyph at row 536 of the screen *)
Lemma draw_glyph_low ch s v : 0 <= ch < 256 -> CoordX s = 0 -> CoordY s = 536 -> base s = Some v ->
  draw_glyph ch s = Fault FMem.
Proof.
  intros Hc HX HY. apply (loop_faults 8 7); [|lia|].
  - intros i w Hi. rewrite font_byte by lia. intros u Hu. rewrite sm_bind_lift. revert u Hu.
    do 3 (apply draws_loop; intros ? ? ?). apply draws_pixel.
  - intros w. rewrite font_byte by lia. rewrite sm_bind_lift.
    apply (loop_faults 8 0) with (v := w); [do 2 (intros ? ? ?; apply draws_loop); intros ? ? ?; apply draws_pixel|lia| |done].
    intros w1. apply (loop_faults 2 0) with (v := w1); [intros ? ? ?; apply draws_loop; intros ? ? ?; apply draws_pixel|lia| |done].
    intros w2. apply (loop_faults 2 0) with (v := w2); [intros ? ? ?; apply draws_pixel|lia| |done].
    intros w3. unfold pixel. rewrite (sm_bind_Done sm_get _ _ _ _ eq_refl). cbn [CoordX CoordY set_base]. rewrite HX, HY. done.
Qed.

(** A sequence that moves the cursor can put it where the next character,
    which is drawn twice as high as it is tested for, does not fit: it is
    written behind the end of the frame buffer. *)
Theorem position_overruns s t ch : shown s t -> 32 <= ch < 256 ->
  psvDebugScreenPuts [27; 91; 48; 59; 54; 55; 102; ch; 0] s = Fault FMem.
Proof.
  intros Hs Hch. apply puts_Fault. set (rest := [48; 59; 54; 55; 102; ch; 0]).
  destruct (puts_loop_escape [] rest 9 (add_lock 1 s) t (shown_lock 1 s t Hs)) as (s1 & H1 & E).
  cbn [app] in E. change (mlen []) with 0 in E. cbn [length rest]. rewrite E.
  rewrite (sm_bind_Done _ _ s1 4 (set_coord 0 536 s1)) by reflexivity.
  destruct (shown_base _ _ H1) as (v & Hv & _).
  generalize 8%nat as fuel. intros fuel. cbn [puts_loop].
  change (load8 (27 :: 91 :: rest) (0 + (4 + 2) + 1)) with (Done ch). rewrite sm_bind_lift, (proj2 (Z.eqb_neq ch 0)) by lia.
  rewrite (sm_bind_Done wrap _ (set_coord 0 536 s1) tt (set_coord 0 536 s1)) by reflexivity.
  rewrite (proj2 (Z.eqb_neq ch 10)), (proj2 (Z.eqb_neq ch 13)), (proj2 (Z.eqb_neq ch 27)) by lia.
  rewrite (sm_bind_Done (mret false) _ _ false _ eq_refl).
  unfold mbind, sm_bind. by rewrite (draw_glyph_low ch _ v) by (done || lia).
Qed.

(** ** A screen just set up *)

Definition sample_screen : screen := set_base (Some (fun _ => 0)) screen0.
Definition sample_term : term := Term 0 0 COLOR_DEFAULT_FG COLOR_DEFAULT_BG (fun _ _ => Plain 0).
Lemma sample_shown : shown sample_screen sample_term.
Proof. split; try done. by exists (fun _ => 0). Qed.

Lemma printf_shows_text_witness : exists s', psvDebugScreenPrintf [72; 105; 10] sample_screen = Done (3, s') /\
  locks s' = 0 /\ shown s' (foldl term_put sample_term [72; 105; 10]).
Proof.
  apply (printf_shows_text sample_screen sample_term [72; 105; 10] sample_shown).
  repeat constructor; lia.
Defined.

Lemma late_escape_overruns_witness :
  psvDebugScreenPuts (replicate 10 46 ++ [27; 91] ++ [51; 49; 109] ++ [0]) sample_screen = Fault FMem.
Proof.
  apply (late_escape_overruns sample_screen sample_term (replicate 10 46) [51; 49; 109] sample_shown).
  - repeat constructor; lia.
  - cbn. lia.
  - cbn. repeat constructor; done.
  - cbn. lia.
Defined.

Lemma position_overruns_witness : psvDebugScreenPuts [27; 91; 48; 59; 54; 55; 102; 65; 0] sample_screen = Fault FMem.
Proof. apply (position_overruns sample_screen sample_term 65 sample_shown). lia. Defined.
