(* ===== verification/Kdumper.v ===== *)
(** * The kernel dumper (Kdumper/src/main.c)

    The application reads kernel memory through a defect of the sound library
    and sends it to a PC.  What is modelled is its own code: the buttons, the
    search for its data in kernel memory, the description it builds for a
    read, the search for the first module, and the sending of the pages.  The
    kernel's side of the defect is the function [exploit] of that description;
    the kernel's answers ([sceNgsRackGetRequiredMemorySize], the results of
    the network calls) are functions too.  Messages are left out. *)

From stdpp Require Import prelude.
From S2P Require Import Prelude Bytes CString.

(** ** Buttons *)

(** [for (int i = 0; ...)] over the table of buttons *)
Definition first_of (buttons : list Z) (new : Z) : option Z :=
  head (filter (fun b => Z.land new b <> 0) buttons).

(** [get_key]: the samples of the pad still to come, and the static [prev]; a
    result is a button, the samples left and [prev]. *)
Fixpoint get_key (buttons : list Z) (pads : list Z) (prev : Z) : run (Z * list Z * Z) :=
  match pads with
  | [] => OutOfFuel
  | pad :: pads' =>
      let new := Z.lxor prev (Z.land pad prev) in
      match first_of buttons new with
      | Some b => Done (b, pads', pad)
      | None => get_key buttons pads' pad
      end
  end.

(** ** The voice definition *)

Definition PRESET_LIST_OFFSET : Z := 0x130.
Definition FAKE_COPYOUT_OFFSET : Z := 0x40.
Definition FAKE_COPYOUT_SIZE : Z := 0xA0.
Definition COPYOUT_PARAMS_OFFSET : Z := 0xA0.
Definition SCE_NGS_VOICE_DEFINITION_XOR : Z := 0x9e28dcce.
Definition SCE_NGS_ERROR_INVALID_PARAM : Z := 0x804a0002.

(** [uint32_t voiceDef[0x100]]: the word at byte offset [off] *)
Definition store_word (w : list Z) (off v : Z) : run (list Z) :=
  if (0 <=? off) && (off / 4 <? Z.of_nat (length w)) then Done (<[Z.to_nat (off / 4) := u32 v]> w) else Fault FTable.
(** [memset(&voiceDef[off / 4], 0, 4 * n)] *)
Fixpoint clear_words (n : nat) (w : list Z) (off : Z) : run (list Z) :=
  match n with
  | O => Done w
  | S n' => w ← store_word w off 0; clear_words n' w (off + 4)
  end.

Definition set_preset (w : list Z) (i src size : Z) : run (list Z) :=
  let index := u32 (i * 0x18) in
  let offset := u32 (src - (PRESET_LIST_OFFSET + index)) in
  w ← clear_words 6 w (PRESET_LIST_OFFSET + index);
  w ← store_word w (PRESET_LIST_OFFSET + index + 0x08) offset;
  store_word w (PRESET_LIST_OFFSET + index + 0x0c) size.

(** What [leak_sysmem_ngsuser] and [kernel_read_ngsuser] write into it *)
Definition read_request (w : list Z) (dst src size : Z) : run (list Z) :=
  w ← store_word w 0x30 PRESET_LIST_OFFSET;
  w ← store_word w 0x34 2;
  w ← set_preset w 0 0 (u32 (-(0x148 + 2 * 0x18) + COPYOUT_PARAMS_OFFSET));
  w ← set_preset w 1 FAKE_COPYOUT_OFFSET FAKE_COPYOUT_SIZE;
  w ← clear_words 40 w FAKE_COPYOUT_OFFSET;
  w ← store_word w (FAKE_COPYOUT_OFFSET + 0x04) dst;
  w ← store_word w (FAKE_COPYOUT_OFFSET + 0x08) src;
  store_word w (FAKE_COPYOUT_OFFSET + 0x1c) size.

(** ** The kernel's side *)

Class Kernel := {
  required_size : Z -> Z;          (** [sceNgsRackGetRequiredMemorySize] for a pointer *)
  exploit : Z -> list Z -> mem;    (** [trigger_exploit]: what the read gives *)
  sysmem_leak : Z -> list Z -> Z;  (** the same for one word *)
  send_result : nat -> Z;          (** of the [n]th [sceNetSend] *)
  socket_result : nat -> Z;        (** of the [n]th [sceNetSocket] *)
  buffer_addr : Z;                 (** where [buffer] is *)
}.

Section Kdumper.
Context `{!Kernel} (fuel : nat).

(** [for (uint32_t addr = ...; addr < stop; addr += 2)]: the last result, and
    the pointer tried last *)
Fixpoint scan_voice (n : nat) (key addr stop ret ptr : Z) : run (Z * Z) :=
  match n with
  | O => OutOfFuel
  | S n' =>
      if addr <? stop then
        let ptr := Z.lxor addr key in
        let ret := required_size ptr in
        if negb (ret =? SCE_NGS_ERROR_INVALID_PARAM) then Done (ret, ptr)
        else scan_voice n' key (u32 (addr + 2)) stop ret ptr
      else Done (ret, ptr)
  end.

Definition leak_kstack_ngsuser : run Z :=
  '(ret, ptr) ← scan_voice fuel SCE_NGS_VOICE_DEFINITION_XOR 0x01800000 0x03000000 SCE_NGS_ERROR_INVALID_PARAM 0;
  if negb (ret =? SCE_NGS_ERROR_INVALID_PARAM) then
    Done (Z.land (Z.lxor ptr SCE_NGS_VOICE_DEFINITION_XOR) 0xFFFFF000)
  else
    '(ret, ptr) ← scan_voice fuel 0 0 0x03000000 SCE_NGS_ERROR_INVALID_PARAM 0;
    if negb (ret =? SCE_NGS_ERROR_INVALID_PARAM) then Done (Z.land ptr 0xFFFFF000) else Done 0xFFFF.

(** [rackDesc.pVoiceDefn] after the two searches from the stack on *)
Definition find_voice (kstack_addr ptr : Z) : run Z :=
  '(ret, ptr) ← scan_voice fuel SCE_NGS_VOICE_DEFINITION_XOR kstack_addr 0x03000000 0 ptr;
  if ret =? SCE_NGS_ERROR_INVALID_PARAM then
    '(_, ptr) ← scan_voice fuel 0 kstack_addr 0x03000000 ret ptr; Done ptr
  else Done ptr.

(** The same two addresses out of [info], which a call of the motion driver
    has filled *)
Definition leak_kstack_motiondev (info : list Z) : run Z :=
  match info !! 3%nat with Some v => Done (Z.land v 0xFFFFF000) | None => Fault FTable end.
Definition leak_sysmem_motiondev (info : list Z) : run Z :=
  match info !! 0%nat with Some v => Done (Z.land (u32 (v - 0x27000)) 0xFFFF0000) | None => Fault FTable end.

(** The start of [main]: what the motion driver does not give is leaked through
    the sound library. *)
Definition leak_kstack (info : list Z) : run Z :=
  a ← leak_kstack_motiondev info; if a =? 0 then leak_kstack_ngsuser else Done a.

(** [inbuf] of [kernel_read_ngs_word]: the kernel adds its address on the stack
    to the first word. *)
Definition ngs_inbuf (leaked_kstack_addr src : Z) : list Z :=
  let kstack_devctl_inbuf_addr := u32 (leaked_kstack_addr + 0xAF0 - 0x30) in
  [u32 (src - kstack_devctl_inbuf_addr); 0xFFFFFFFF].

(** ** The state *)

Record kdumper := Kd {
  voiceDef : list Z;
  pVoiceDefn : Z;
  dbgsock : Z;               (** [_dbgsock] *)
  net_memory : bool;
  net_ready : bool;          (** the network is initialised *)
  open_socks : list Z;
  socks : nat;               (** calls of [sceNetSocket] *)
  sends : nat;               (** calls of [sceNetSend] *)
  received : mem;            (** what was sent *)
}.
Abbreviation K := (SM kdumper).

Definition set_voice (w : list Z) (p : Z) s := Kd w p (dbgsock s) (net_memory s) (net_ready s) (open_socks s) (socks s) (sends s) (received s).

Definition leak_sysmem_ngsuser (kstack_addr sysmem_base_addr : Z) : K Z :=
  s ← sm_get;
  p ← sm_lift (find_voice kstack_addr (pVoiceDefn s));
  w ← sm_lift (read_request (voiceDef s) sysmem_base_addr (kstack_addr + 0x89C) 4);
  _ ← sm_modify (set_voice w p);
  mret (Z.land (u32 (sysmem_leak p w)) 0xFFFF0000).

(** [kernel_read_ngsuser(&buffer, src, 0x1000)] *)
Definition kernel_read_ngsuser (leaked_kstack_addr src : Z) : K mem :=
  s ← sm_get;
  p ← sm_lift (find_voice leaked_kstack_addr (pVoiceDefn s));
  w ← sm_lift (read_request (voiceDef s) buffer_addr src 0x1000);
  _ ← sm_modify (set_voice w p);
  mret (exploit p w).

(** ** Network *)

Definition init_netdbg : K unit :=
  sm_modify (fun s =>
    let sock := socket_result (socks s) in
    Kd (voiceDef s) (pVoiceDefn s) sock (net_memory s || negb (net_ready s)) true
       (if 0 <=? sock then open_socks s ++ [sock] else open_socks s) (S (socks s)) (sends s) (received s)).

Definition fini_netdbg : K unit :=
  s ← sm_get;
  if negb (dbgsock s =? 0) then
    sm_put (Kd (voiceDef s) (pVoiceDefn s) 0 false false
      (filter (fun x => x <> dbgsock s) (open_socks s)) (socks s) (sends s) (received s))
  else mret tt.

(** [sceNetSend]: as much as its result says is on its way. *)
Definition net_send_buffer (bs : mem) : K Z :=
  s ← sm_get;
  let r := send_result (sends s) in
  _ ← sm_put (Kd (voiceDef s) (pVoiceDefn s) (dbgsock s) (net_memory s) (net_ready s) (open_socks s) (socks s) (S (sends s))
                (received s ++ take (Z.to_nat r) bs));
  mret r.

(** ** The dump *)

Definition sysmem_module_entrypoint_magic : list Z :=
  [0x07; 0x00; 0x01; 0x01; 0x53; 0x63; 0x65; 0x53; 0x79; 0x73; 0x6D; 0x65; 0x6D; 0x00].

(** [for (int j = 0; j < 0x1000; j++) if (!memcmp(buffer + j, ...))]; [n]:
    turns left *)
Fixpoint find_magic (n : nat) (buffer : mem) (j : Z) : run (option Z) :=
  match n with
  | O => Done None
  | S n' =>
      hit ← str_matches buffer j sysmem_module_entrypoint_magic;
      if hit : bool then Done (Some j) else find_magic n' buffer (j + 1)
  end.

(** [debug("found magic !!!!!\n0x%08X\n", addr)] goes the way of the dump. *)
Definition upper_digit (d : Z) : Z := if d <? 10 then 48 + d else 55 + d.
Definition hex8 (v : Z) : mem := (fun k => upper_digit (v / 16 ^ (7 - Z.of_nat k) mod 16)) <$> seq 0 8.
Definition magic_text (addr : Z) : mem :=
  [102; 111; 117; 110; 100; 32; 109; 97; 103; 105; 99; 32; 33; 33; 33; 33; 33; 10; 48; 120] ++ hex8 addr ++ [10].

(** [while (!exit)]: where the magic is *)
Fixpoint search_loop (n : nat) (kstack leaked_sysmem_addr i : Z) : K Z :=
  match n with
  | O => fun _ => OutOfFuel
  | S n' =>
      buffer ← kernel_read_ngsuser kstack (u32 (leaked_sysmem_addr + i * 0x1000));
      hit ← sm_lift (find_magic 0x1000 buffer 0);
      match hit with
      | Some j =>
          let sysmem_seg0_addr := u32 (leaked_sysmem_addr + i * 0x1000 + j) in
          _ ← net_send_buffer (magic_text sysmem_seg0_addr);
          mret sysmem_seg0_addr
      | None => search_loop n' kstack leaked_sysmem_addr (u32 (i + 1))
      end
  end.

(** [kdump_info] *)
Definition kdump_info (sysmem_seg0_addr leaked_sysmem_addr leaked_kstack_addr : Z) (info : list Z) : mem :=
  le 4 sysmem_seg0_addr ++ le 4 0x58 ++ le 4 leaked_sysmem_addr ++ le 4 leaked_kstack_addr ++ concat (le 4 <$> info).

Definition PAGES : Z := 0x65 + 0xD2 + 0x100.

(** [for (uint32_t i = 0; i < PAGES; i++)]: after an error [i--] and a new
    connection *)
Fixpoint dump_loop (n : nat) (kstack sysmem_seg0_addr i : Z) : K unit :=
  match n with
  | O => fun _ => OutOfFuel
  | S n' =>
      if i <? PAGES then
        buffer ← kernel_read_ngsuser kstack (u32 (sysmem_seg0_addr + i * 0x1000));
        ret ← net_send_buffer buffer;
        if 0 <=? ret then dump_loop n' kstack sysmem_seg0_addr (u32 (i + 1))
        else _ ← init_netdbg; dump_loop n' kstack sysmem_seg0_addr (u32 (u32 (i - 1) + 1))
      else mret tt
  end.

(** [case SCE_CTRL_TRIANGLE]; [delta_sub] is 0 *)
Definition dump_kernel (n : nat) (leaked_kstack_addr leaked_sysmem_addr : Z) (info : list Z) : K unit :=
  _ ← init_netdbg;
  found ← search_loop n leaked_kstack_addr leaked_sysmem_addr 0;
  let sysmem_seg0_addr := Z.land (u32 (found - 0x24750)) 0xFFFFF000 in
  _ ← net_send_buffer (kdump_info sysmem_seg0_addr leaked_sysmem_addr leaked_kstack_addr info);
  _ ← dump_loop n leaked_kstack_addr sysmem_seg0_addr 0;
  fini_netdbg.
End Kdumper.

(** ** The description of a read *)

Lemma store_word_spec w off v : 0 <= off -> off / 4 < Z.of_nat (length w) -> exists w', store_word w off v = Done w' /\
  length w' = length w /\ forall k, w' !! k = if decide (k = Z.to_nat (off / 4)) then Some (u32 v) else w !! k.
Proof.
  intros H0 H1. unfold store_word. rewrite (proj2 (Z.leb_le _ _) H0), (proj2 (Z.ltb_lt _ _) H1). cbn [andb].
  eexists. split; [done|]. split; [apply length_insert|]. intros k. case_decide as Hk.
  - subst k. apply list_lookup_insert_eq. div_lia.
  - by apply list_lookup_insert_ne.
Qed.

Lemma clear_words_spec n : forall w off, 0 <= off -> off mod 4 = 0 -> off / 4 + Z.of_nat n <= Z.of_nat (length w) -> exists w',
  clear_words n w off = Done w' /\ length w' = length w /\
  forall k, w' !! k = if decide (off / 4 <= Z.of_nat k < off / 4 + Z.of_nat n) then Some 0 else w !! k.
Proof.
  induction n as [|n IH]; intros w off H0 Hm H1; cbn [clear_words].
  - exists w. split; [done|]. split; [done|]. intros k. rewrite decide_False; [done|lia].
  - destruct (store_word_spec w off 0) as (w1 & -> & L1 & E1); [lia|lia|]. cbn [mbind run_bind].
    assert ((off + 4) / 4 = off / 4 + 1) as Hd by div_lia.
    destruct (IH w1 (off + 4)) as (w2 & -> & L2 & E2); [lia|div_lia|rewrite Hd, L1; lia|].
    exists w2. split; [done|]. split; [congruence|]. intros k. rewrite E2, E1, Hd.
    repeat case_decide; try done; exfalso; div_lia.
Qed.

Ltac word_step L :=
  match goal with
  | |- context [store_word ?w ?off ?v] =>
      let w' := fresh "w" in let E := fresh "E" in let L' := fresh "L" in let F := fresh "F" in
      destruct (store_word_spec w off v) as (w' & E & L' & F); [lia|rewrite ?L; apply Z.ltb_lt; reflexivity|]
  end.

Lemma set_preset_spec w i src size : length w = 256%nat -> 0 <= i < 2 -> exists w', set_preset w i src size = Done w' /\
  length w' = 256%nat /\ (forall k, (k < 76 \/ 88 <= k)%nat -> w' !! k = w !! k) /\
  (forall k, (Z.of_nat k < 76 + 6 * i \/ 82 + 6 * i <= Z.of_nat k) -> w' !! k = w !! k) /\
  w' !! Z.to_nat (78 + 6 * i) = Some (u32 (src - (PRESET_LIST_OFFSET + i * 0x18))) /\ w' !! Z.to_nat (79 + 6 * i) = Some (u32 size).
Proof.
  intros Hl Hi. unfold set_preset, PRESET_LIST_OFFSET. rewrite (u32_small (i * 24)) by lia.
  destruct (clear_words_spec 6 w (304 + i * 24)) as (w1 & -> & L1 & F1); [lia|div_lia|rewrite Hl; div_lia|]. cbn [mbind run_bind].
  destruct (store_word_spec w1 (304 + i * 24 + 8) (u32 (src - (304 + i * 24)))) as (w2 & -> & L2 & F2); [lia|rewrite L1, Hl; div_lia|]. cbn [mbind run_bind].
  destruct (store_word_spec w2 (304 + i * 24 + 12) size) as (w3 & E3 & L3 & F3); [lia|rewrite L2, L1, Hl; div_lia|].
  exists w3. split; [exact E3|]. split; [congruence|].
  assert (forall k, (Z.of_nat k < 76 + 6 * i \/ 82 + 6 * i <= Z.of_nat k) -> w3 !! k = w !! k) as Hout.
  { intros k Hk. rewrite F3, F2, F1. rewrite !decide_False by div_lia. done. }
  split; [intros k Hk; apply Hout; lia|]. split; [exact Hout|]. split.
  - rewrite F3, F2. rewrite decide_False, decide_True by div_lia. f_equal. apply (u32_small (u32 _)). apply u32_range.
  - rewrite F3. rewrite decide_True by div_lia. done.
Qed.

(** The description holds the three parameters of the copy, in a block of its
    own that is otherwise zero, and the two presets that the defect needs. *)
Lemma read_request_spec w dst src size : length w = 256%nat -> exists w', read_request w dst src size = Done w' /\
  length w' = 256%nat /\ w' !! 17%nat = Some (u32 dst) /\ w' !! 18%nat = Some (u32 src) /\ w' !! 23%nat = Some (u32 size) /\
  (forall k, (16 <= k < 56)%nat -> k <> 17%nat -> k <> 18%nat -> k <> 23%nat -> w' !! k = Some 0) /\
  w' !! 12%nat = Some 0x130 /\ w' !! 13%nat = Some 2 /\
  w' !! 79%nat = Some (u32 (-0x178 + 0xA0)) /\ w' !! 84%nat = Some (u32 (0x40 - 0x148)) /\ w' !! 85%nat = Some 0xA0.
Proof.
  intros Hl. unfold read_request.
  destruct (store_word_spec w 0x30 PRESET_LIST_OFFSET) as (w1 & -> & L1 & F1); [lia|rewrite Hl; done|]. cbn [mbind run_bind].
  destruct (store_word_spec w1 0x34 2) as (w2 & -> & L2 & F2); [lia|rewrite L1, Hl; done|]. cbn [mbind run_bind].
  destruct (set_preset_spec w2 0 0 (u32 (-(0x148 + 2 * 0x18) + COPYOUT_PARAMS_OFFSET))) as (w3 & -> & L3 & O3 & _ & _ & S3); [congruence|lia|]. cbn [mbind run_bind].
  destruct (set_preset_spec w3 1 FAKE_COPYOUT_OFFSET FAKE_COPYOUT_SIZE) as (w4 & -> & L4 & O4 & P4 & Q4 & S4); [done|lia|]. cbn [mbind run_bind].
  destruct (clear_words_spec 40 w4 FAKE_COPYOUT_OFFSET) as (w5 & -> & L5 & F5); [done|done|rewrite L4; done|]. cbn [mbind run_bind].
  destruct (store_word_spec w5 (FAKE_COPYOUT_OFFSET + 0x04) dst) as (w6 & -> & L6 & F6); [done|rewrite L5, L4; done|]. cbn [mbind run_bind].
  destruct (store_word_spec w6 (FAKE_COPYOUT_OFFSET + 0x08) src) as (w7 & -> & L7 & F7); [done|rewrite L6, L5, L4; done|]. cbn [mbind run_bind].
  destruct (store_word_spec w7 (FAKE_COPYOUT_OFFSET + 0x1c) size) as (w8 & E8 & L8 & F8); [done|rewrite L7, L6, L5, L4; done|].
  change (Z.to_nat ((FAKE_COPYOUT_OFFSET + 0x04) / 4)) with 17%nat in F6. change (Z.to_nat ((FAKE_COPYOUT_OFFSET + 0x08) / 4)) with 18%nat in F7.
  change (Z.to_nat ((FAKE_COPYOUT_OFFSET + 0x1c) / 4)) with 23%nat in F8. change (FAKE_COPYOUT_OFFSET / 4) with 16 in F5.
  change (Z.to_nat (0x30 / 4)) with 12%nat in F1. change (Z.to_nat (0x34 / 4)) with 13%nat in F2.
  assert (forall k, k <> 17%nat -> k <> 18%nat -> k <> 23%nat -> w8 !! k = w5 !! k) as H58.
  { intros k ? ? ?. by rewrite F8, F7, F6, !decide_False. }
  assert (forall k, (k < 16 \/ 56 <= k)%nat -> w8 !! k = w4 !! k) as H48.
  { intros k Hk. rewrite H58 by lia. rewrite F5, decide_False by lia. done. }
  exists w8. split; [exact E8|]. split; [congruence|]. split; [|split; [|split; [|split; [|split; [|split; [|split; [|split]]]]]]].
  - by rewrite F8, F7, F6.
  - by rewrite F8, F7.
  - by rewrite F8.
  - intros k Hk ? ? ?. rewrite H58 by done. rewrite F5, decide_True by lia. done.
  - by rewrite H48, O4, O3, F2, F1 by lia.
  - by rewrite H48, O4, O3, F2 by lia.
  - rewrite H48, P4 by lia. exact S3.
  - rewrite H48 by lia. exact Q4.
  - rewrite H48 by lia. exact S4.
Qed.

(** ** Buttons *)

(** The buttons that were held in the sample before and are not in this one *)
Definition released (prev pad b : Z) : Prop := Z.land (Z.land prev (Z.lnot pad)) b <> 0.

Lemma new_released prev pad : Z.lxor prev (Z.land pad prev) = Z.land prev (Z.lnot pad).
Proof.
  apply Z.bits_inj'. intros n Hn. rewrite Z.lxor_spec, !Z.land_spec, Z.lnot_spec by lia.
  by destruct (Z.testbit prev n), (Z.testbit pad n).
Qed.

Lemma first_of_Some buttons new b : first_of buttons new = Some b -> exists l1 l2, buttons = l1 ++ b :: l2 /\
  Z.land new b <> 0 /\ Forall (fun c => Z.land new c = 0) l1.
Proof.
  unfold first_of. induction buttons as [|c l IH]; [done|]. rewrite filter_cons. case_decide as Hc.
  - intros [= ->]. exists [], l. by split.
  - intros H. destruct (IH H) as (l1 & l2 & -> & Hb & Hf). exists (c :: l1), l2. split; [done|]. split; [done|].
    constructor; [|done]. destruct (decide (Z.land new c = 0)); [done|by destruct Hc].
Qed.
Lemma first_of_None buttons new : first_of buttons new = None <-> Forall (fun c => Z.land new c = 0) buttons.
Proof.
  unfold first_of. induction buttons as [|c l IH]; [by split|]. rewrite filter_cons, Forall_cons. case_decide as Hc.
  - split; [done|]. by intros [? _].
  - rewrite IH. split; [|by intros []]. intros H. split; [|done]. destruct (decide (Z.land new c = 0)); [done|by destruct Hc].
Qed.

(** [get_key] answers when buttons are let go, with the first one of the table. *)
Lemma get_key_spec buttons before : forall prev pad rest l1 b l2, buttons = l1 ++ b :: l2 ->
  (forall i p q c, (prev :: before) !! i = Some p -> before !! i = Some q -> c ∈ buttons -> ~ released p q c) ->
  released (List.last before prev) pad b -> (forall c, c ∈ l1 -> ~ released (List.last before prev) pad c) ->
  get_key buttons (before ++ pad :: rest) prev = Done (b, rest, pad).
Proof.
  induction before as [|q before IH]; intros prev pad rest l1 b l2 Hb Hno Hr Hl; cbn [app get_key]; rewrite new_released.
  - cbn [List.last] in *. destruct (first_of buttons _) as [b'|] eqn:E.
    + apply first_of_Some in E as (k1 & k2 & Hb' & Hnz & Hf). rewrite Forall_forall in Hf.
      assert (b' = b) as ->; [|done]. subst buttons.
      destruct (app_eq_inv _ _ _ _ Hb') as [(k & -> & Hk)|(k & -> & Hk)]; destruct k as [|x k]; cbn in Hk; simplify_eq; try done.
      * exfalso. apply Hr, Hf. set_solver.
      * exfalso. apply (Hl b'); [set_solver|done].
    + apply first_of_None in E. rewrite Forall_forall in E. exfalso. apply Hr, E. rewrite Hb. set_solver.
  - assert (first_of buttons (Z.land prev (Z.lnot q)) = None) as ->.
    { apply first_of_None, Forall_forall. intros c Hc. destruct (decide (Z.land (Z.land prev (Z.lnot q)) c = 0)) as [|Hn]; [done|].
      exfalso. by apply (Hno 0%nat prev q c eq_refl eq_refl Hc). }
    assert (List.last (q :: before) prev = List.last before q) as El.
    { destruct before as [|x before]; [done|]. cbn. clear. revert x. induction before as [|y before IH]; intros x; [done|]. apply IH. }
    rewrite El in Hr, Hl. eapply IH; [exact Hb| |exact Hr|exact Hl].
    intros i p r c Hp Hq Hc. by apply (Hno (S i) p r c).
Qed.

(** ** The searches end *)

Section Dump.
Context `{!Kernel}.

Lemma scan_voice_ends key stop n : forall addr ret ptr, 0 <= addr -> stop < 2 ^ 31 -> (0 < n)%nat -> stop - addr <= 2 * (Z.of_nat n - 1) ->
  exists ret' ptr', scan_voice n key addr stop ret ptr = Done (ret', ptr').
Proof.
  induction n as [|n IH]; intros addr ret ptr Ha Hs H0 Hn; [lia|]; cbn [scan_voice].
  destruct (Z.ltb_spec addr stop) as [Hlt|Hge]; [|by do 2 eexists].
  case_match; [by do 2 eexists|]. rewrite u32_small by lia. apply IH; lia.
Qed.

(** With enough turns, a stack address is always found or given up. *)
Lemma leak_kstack_ends fuel info : 25165825 < Z.of_nat fuel -> (4 <= length info)%nat -> exists a, leak_kstack fuel info = Done a.
Proof.
  intros Hf Hl. unfold leak_kstack, leak_kstack_motiondev. destruct (lookup_lt_is_Some_2 info 3 ltac:(lia)) as [v ->].
  cbn [mbind run_bind]. case_match; [|by eexists]. unfold leak_kstack_ngsuser.
  destruct (scan_voice_ends SCE_NGS_VOICE_DEFINITION_XOR 0x03000000 fuel 0x01800000 SCE_NGS_ERROR_INVALID_PARAM 0) as (r1 & p1 & ->); [lia..|].
  cbn [mbind run_bind]. case_match; [by eexists|].
  destruct (scan_voice_ends 0 0x03000000 fuel 0 SCE_NGS_ERROR_INVALID_PARAM 0) as (r2 & p2 & ->); [lia..|].
  cbn [mbind run_bind]. case_match; by eexists.
Qed.

(** The word the kernel reads is the one asked for. *)
Lemma ngs_inbuf_address kstack src : 0 <= src < 2 ^ 32 ->
  u32 (List.hd 0 (ngs_inbuf kstack src) + u32 (kstack + 0xAF0 - 0x30)) = src.
Proof. intros Hs. unfold ngs_inbuf, u32. cbn [List.hd]. rewrite Zplus_mod_idemp_l, Z.sub_add. by apply Z.mod_small. Qed.

(** The first address whose description the kernel takes *)
Lemma scan_voice_finds key stop k : forall n addr ret ptr, 0 <= addr -> stop < 2 ^ 31 -> addr + 2 * Z.of_nat k < stop -> (k < n)%nat ->
  (forall i, (i < k)%nat -> required_size (Z.lxor (addr + 2 * Z.of_nat i) key) = SCE_NGS_ERROR_INVALID_PARAM) ->
  let p := Z.lxor (addr + 2 * Z.of_nat k) key in
  required_size p <> SCE_NGS_ERROR_INVALID_PARAM -> scan_voice n key addr stop ret ptr = Done (required_size p, p).
Proof.
  induction k as [|k IH]; intros [|n] addr ret ptr Ha Hs Hk Hn Hbefore p Hp; try lia; cbn [scan_voice];
    rewrite (proj2 (Z.ltb_lt addr stop)) by lia; cbv zeta.
  - unfold p in *. rewrite Z.add_0_r in *. by rewrite (proj2 (Z.eqb_neq _ _) Hp).
  - pose proof (Hbefore 0%nat ltac:(lia)) as H0. rewrite Z.add_0_r in H0. rewrite H0, Z.eqb_refl. cbn [negb].
    rewrite u32_small by lia. replace p with (Z.lxor (addr + 2 + 2 * Z.of_nat k) key) in * by (unfold p; f_equal; lia).
    apply IH; try lia; try done. intros i Hi. specialize (Hbefore (S i) ltac:(lia)).
    by replace (addr + 2 + 2 * Z.of_nat i) with (addr + 2 * Z.of_nat (S i)) by lia.
Qed.

(** ** The dump *)

Context (fuel : nat) (kstack : Z) (memory : Z -> mem).

(** The defect does what the description says, for every pointer that the
    kernel takes; from the stack on there is one. *)
Record reads : Prop := {
  reads_voice ptr : exists p, find_voice fuel kstack ptr = Done p /\ required_size p <> SCE_NGS_ERROR_INVALID_PARAM;
  reads_copy p w src : required_size p <> SCE_NGS_ERROR_INVALID_PARAM -> w !! 17%nat = Some (u32 buffer_addr) ->
    w !! 18%nat = Some src -> w !! 23%nat = Some 0x1000 -> exploit p w = memory src;
  reads_page a : mlen (memory a) = 0x1000;
}.

Definition same_net (s s' : kdumper) : Prop :=
  dbgsock s' = dbgsock s /\ net_memory s' = net_memory s /\ net_ready s' = net_ready s /\ open_socks s' = open_socks s /\
  socks s' = socks s /\ sends s' = sends s /\ received s' = received s.

Lemma kernel_read_spec src s : reads -> length (voiceDef s) = 256%nat -> exists s',
  kernel_read_ngsuser fuel kstack src s = Done (memory (u32 src), s') /\ length (voiceDef s') = 256%nat /\ same_net s s'.
Proof.
  intros [H1 H2 _] Hl. unfold kernel_read_ngsuser. rewrite (sm_bind_Done sm_get _ s s s eq_refl).
  destruct (H1 (pVoiceDefn s)) as (p & Ep & Hp). unfold mbind, sm_bind, sm_lift at 1. rewrite Ep. cbn [mbind run_bind].
  destruct (read_request_spec (voiceDef s) buffer_addr src 0x1000 Hl) as (w & Ew & Lw & W1 & W2 & W3 & _).
  unfold sm_lift. rewrite Ew. cbn [mbind run_bind sm_modify]. exists (set_voice w p s). split; [|by split].
  unfold mret, sm_ret. by rewrite (H2 p w (u32 src) Hp W1 W2 W3).
Qed.

(** The pages before page [k] do not have the magic, and that one has it
    first at [j]. *)
Lemma search_loop_spec leaked k j : reads -> find_magic 0x1000 (memory (u32 (leaked + Z.of_nat k * 0x1000))) 0 = Done (Some j) ->
  (forall i, (i < k)%nat -> find_magic 0x1000 (memory (u32 (leaked + Z.of_nat i * 0x1000))) 0 = Done None) -> Z.of_nat k < 2 ^ 32 ->
  forall d i n s, (i + d = k)%nat -> (d < n)%nat -> length (voiceDef s) = 256%nat -> exists s',
  search_loop fuel n kstack leaked (Z.of_nat i) s = Done (u32 (leaked + Z.of_nat k * 0x1000 + j), s') /\
  length (voiceDef s') = 256%nat /\ sends s' = S (sends s) /\
  received s' = received s ++ take (Z.to_nat (send_result (sends s))) (magic_text (u32 (leaked + Z.of_nat k * 0x1000 + j))).
Proof.
  intros Hr Hk Hbefore Hlt. induction d as [|d IH]; intros i [|n] s Hi Hn Hl; try lia; cbn [search_loop];
    destruct (kernel_read_spec (u32 (leaked + Z.of_nat i * 0x1000)) s Hr Hl) as (s1 & E1 & L1 & N1); rewrite (sm_bind_Done _ _ _ _ _ E1);
    rewrite (u32_small (u32 _)) by apply u32_range.
  - replace i with k by lia. rewrite Hk. change (sm_lift (Done (Some j)) ≫= ?f) with (fun s => f (Some j) s). cbv beta iota.
    destruct N1 as (_ & _ & _ & _ & _ & N6 & N7). unfold net_send_buffer.
    rewrite (sm_bind_Done _ _ s1 (send_result (sends s1)) (Kd (voiceDef s1) (pVoiceDefn s1) (dbgsock s1) (net_memory s1) (net_ready s1)
      (open_socks s1) (socks s1) (S (sends s1)) (received s1 ++ take (Z.to_nat (send_result (sends s1)))
        (magic_text (u32 (leaked + Z.of_nat k * 0x1000 + j)))))) by reflexivity.
    eexists. split; [reflexivity|]. cbn. by rewrite N6, N7.
  - rewrite Hbefore by lia. change (sm_lift (Done None) ≫= ?f) with (fun s => f None s). cbv beta.
    rewrite u32_small by lia. replace (Z.of_nat i + 1) with (Z.of_nat (S i)) by lia.
    destruct (IH (S i) n s1) as (s2 & E2 & L2 & N2 & R2); [lia|lia|done|]. exists s2. split; [exact E2|]. split; [done|].
    destruct N1 as (_ & _ & _ & _ & _ & N6 & N7). rewrite N6 in N2, R2. rewrite N7 in R2. by split.
Qed.

(** There are never more than [retries] refused transmissions in a row. *)
Definition refusals_end (retries : nat) : Prop :=
  forall c, exists d, (d <= retries)%nat /\ 0 <= send_result (c + d).

(** [r] is what some transmission from the [c0]th on took, one not refused. *)
Definition taken_from (c0 : nat) (r : Z) : Prop :=
  exists c, (c0 <= c)%nat /\ r = send_result c /\ 0 <= r.

Lemma page_sent c0 seg i d : reads -> 0 <= i < PAGES -> forall s, (c0 <= sends s)%nat ->
  length (voiceDef s) = 256%nat -> 0 <= send_result (sends s + d) -> exists d' s' r, (d' <= d)%nat /\
  (forall n, dump_loop fuel (S d' + n) kstack seg i s = dump_loop fuel n kstack seg (i + 1) s') /\
  (c0 <= sends s')%nat /\ length (voiceDef s') = 256%nat /\ taken_from c0 r /\
  received s' = received s ++ take (Z.to_nat r) (memory (u32 (seg + i * 0x1000))).
Proof.
  intros Hr Hi. unfold PAGES in Hi. induction d as [|d IH]; intros s Hc Hl Hd.
  all: destruct (kernel_read_spec (u32 (seg + i * 0x1000)) s Hr Hl) as (s1 & E1 & L1 & N1).
  all: rewrite (u32_small (u32 _)) in E1 by apply u32_range.
  all: set (s2 := Kd (voiceDef s1) (pVoiceDefn s1) (dbgsock s1) (net_memory s1) (net_ready s1) (open_socks s1) (socks s1) (S (sends s1))
                (received s1 ++ take (Z.to_nat (send_result (sends s1))) (memory (u32 (seg + i * 0x1000))))).
  all: assert (forall n, dump_loop fuel (S n) kstack seg i s =
    (if 0 <=? send_result (sends s1) then dump_loop fuel n kstack seg (i + 1) else _ ← init_netdbg; dump_loop fuel n kstack seg i) s2) as Hstep
    by (intros n; cbn [dump_loop]; rewrite (proj2 (Z.ltb_lt i PAGES)) by (unfold PAGES; lia);
        rewrite (sm_bind_Done _ _ _ _ _ E1); unfold net_send_buffer;
        rewrite (sm_bind_Done _ _ s1 (send_result (sends s1)) s2) by reflexivity;
        rewrite (u32_small (i + 1)) by lia;
        replace (u32 (u32 (i - 1) + 1)) with i by (unfold u32; rewrite Zplus_mod_idemp_l; rewrite Z.mod_small by lia; lia); done).
  all: destruct N1 as (_ & _ & _ & _ & _ & Hsends & Hrec).
  all: assert (0 <= send_result (sends s1) -> exists d' s' r, (d' <= 0)%nat /\
    (forall n, dump_loop fuel (S d' + n) kstack seg i s = dump_loop fuel n kstack seg (i + 1) s') /\
    (c0 <= sends s')%nat /\ length (voiceDef s') = 256%nat /\ taken_from c0 r /\
    received s' = received s ++ take (Z.to_nat r) (memory (u32 (seg + i * 0x1000)))) as Hok
    by (intros Hpos; exists 0%nat, s2, (send_result (sends s1)); split; [lia|];
        split; [intros n; rewrite Hstep, (proj2 (Z.leb_le _ _) Hpos); done|];
        split; [cbn; lia|]; split; [done|]; split; [exists (sends s1); split; [lia|done]|];
        cbn [received s2]; by rewrite Hrec).
  - rewrite Nat.add_0_r in Hd. apply Hok. by rewrite Hsends.
  - destruct (decide (0 <= send_result (sends s1))) as [Hpos|Hneg].
    { destruct (Hok Hpos) as (d' & s' & r & ? & ?). exists d', s', r. split; [lia|done]. }
    set (s3 := Kd (voiceDef s2) (pVoiceDefn s2) (socket_result (socks s2)) (net_memory s2 || negb (net_ready s2)) true
       (if 0 <=? socket_result (socks s2) then open_socks s2 ++ [socket_result (socks s2)] else open_socks s2) (S (socks s2)) (sends s2) (received s2)).
    destruct (IH s3) as (d' & s' & r & Hd' & E & H1 & H2 & Ht & H3); [cbn; lia|done|change (sends s3) with (S (sends s1)); rewrite Hsends; by replace (S (sends s) + d)%nat with (sends s + S d)%nat by lia|].
    exists (S d'), s', r. split; [lia|]. split; [|split; [done|split; [done|split; [done|]]]].
    + intros n. change (S (S d') + n)%nat with (S (S d' + n)). rewrite Hstep, (proj2 (Z.leb_gt _ _)) by lia.
      rewrite (sm_bind_Done _ _ s2 tt s3) by reflexivity. apply E.
    + rewrite H3. cbn [received s3 s2]. rewrite Hrec. replace (Z.to_nat (send_result (sends s1))) with 0%nat by lia.
      by rewrite take_0, app_nil_r.
Qed.

(** The pages from page [i] on, [r] of them *)
Definition pages (seg i : Z) (r : nat) : mem :=
  concat ((fun k => memory (u32 (seg + (i + Z.of_nat k) * 0x1000))) <$> seq 0 r).
Lemma pages_S seg i r : pages seg i (S r) = memory (u32 (seg + i * 0x1000)) ++ pages seg (i + 1) r.
Proof.
  unfold pages. cbn [seq fmap list_fmap concat]. rewrite Z.add_0_r. f_equal. rewrite <- seq_shift, <- list_fmap_compose.
  f_equal. apply list_fmap_ext. intros k x _. unfold compose. by replace (i + Z.of_nat (S x)) with (i + 1 + Z.of_nat x) by lia.
Qed.

(** What arrives of the pages from page [i] on when their transmissions took
    [rs] bytes *)
Fixpoint sent_pages (seg i : Z) (rs : list Z) : mem :=
  match rs with
  | [] => []
  | r :: rs => take (Z.to_nat r) (memory (u32 (seg + i * 0x1000))) ++ sent_pages seg (i + 1) rs
  end.

Lemma sent_whole_pages seg rs : reads -> Forall (fun r => r = 0x1000) rs -> forall i,
  sent_pages seg i rs = pages seg i (length rs).
Proof.
  intros Hr. induction 1 as [|r rs -> _ IH]; intros i; [done|]. cbn [sent_pages length].
  rewrite pages_S, IH. f_equal. apply take_ge.
  pose proof (reads_page Hr (u32 (seg + i * 0x1000))) as Hp. unfold mlen in Hp. lia.
Qed.

Lemma dump_loop_spec c0 retries seg : reads -> refusals_end retries -> forall r i s, Z.of_nat r = PAGES - i -> 0 <= i ->
  (c0 <= sends s)%nat -> length (voiceDef s) = 256%nat -> exists t s' rs, (t <= r * S retries)%nat /\
  (forall n, dump_loop fuel (t + S n) kstack seg i s = Done (tt, s')) /\
  length rs = r /\ Forall (taken_from c0) rs /\ received s' = received s ++ sent_pages seg i rs.
Proof.
  intros Hr Hs. induction r as [|r IH]; intros i s Hi H0 Hc Hl.
  - exists 0%nat, s, []. split; [lia|]. split; [|by rewrite app_nil_r]. intros n. cbn [Nat.add dump_loop].
    by rewrite (proj2 (Z.ltb_ge _ _)) by lia.
  - destruct (Hs (sends s)) as (d & Hd & Hpos).
    destruct (page_sent c0 seg i d Hr ltac:(lia) s Hc Hl Hpos) as (d' & s1 & x & Hd' & E1 & C1 & L1 & Hx & R1).
    destruct (IH (i + 1) s1) as (t & s2 & rs & Ht & E2 & Hrs & Hall & R2); [lia|lia|done|done|].
    exists (S d' + t)%nat, s2, (x :: rs). split; [lia|]. split; [|split; [cbn; lia|split; [by constructor|]]].
    + intros n. rewrite <- Nat.add_assoc, E1. apply E2.
    + by rewrite R2, R1, <- app_assoc.
Qed.

Lemma length_hex8 v : length (hex8 v) = 8%nat.
Proof. done. Qed.


(** The extractor takes the first word of the dump for the start of the first
    module: it is the beginning of the line about the magic. *)
Lemma dump_begins_with_text found rest : load32 (magic_text found ++ rest) 0 = Done 0x6e756f66.
Proof. reflexivity. Qed.
End Dump.

(** ** A kernel of equal pages *)

Definition sample_page : mem := sysmem_module_entrypoint_magic ++ replicate (0x1000 - 14) 0.
#[local] Instance sample_kernel : Kernel := {|
  required_size _ := 0;
  exploit _ _ := sample_page;
  sysmem_leak _ _ := 0;
  send_result n := match n with O => 29 | 1%nat => 0x58 | _ => 0x1000 end;
  socket_result _ := 5;
  buffer_addr := 0x81000000;
|}.
Definition sample_kdumper : kdumper := Kd (replicate 256 0) 0 0 false false [] 0 0 [].

Lemma sample_reads : reads 1 0x01900000 (fun _ => sample_page).
Proof.
  split; [|done|].
  - intros ptr. by exists (Z.lxor 0x01900000 SCE_NGS_VOICE_DEFINITION_XOR).
  - intros _. unfold mlen, sample_page. by rewrite length_app, length_replicate.
Qed.

