(* ===== verification/Plugins.v ===== *)
(** * Small plugins

    [PhysMem] is physmem-dumper/src/kernel.c, which maps the physical memory
    section by section and writes it to a file; [Unity] is
    unity_debug/src/unity_debug.c, the hooks of a game engine; [NoAslr] is
    noASLR/src/main.c and [BaseHooker] base_hooker/src/base_hooker.c, patches
    and hooks that are taken back when the plugin stops; [Rtc] is
    PSVita-RTC-set/src/kernel.c, and [Asprintf]
    vitadecompiler-mod/src/asprintf.c. *)

From stdpp Require Import prelude gmap strings.
From S2P Require Import Prelude Bytes CString Utf16.

Module PhysMem.

Definition PHYSDUMP_START : Z := 0x402.
Definition PHYSDUMP_END : Z := 0x600.

Section Translation.
(** The translation of a virtual address by the processor *)
Context (translate : Z -> Z).

(** [for (i = 0; i < 0x100000; i++)]; [n]: turns left *)
Fixpoint pa2va_loop (n : nat) (pa i : Z) : Z :=
  match n with
  | O => 0
  | S n' =>
      let vaddr := u32 (Z.shiftl i 12) in
      if Z.land pa 0xFFFFF000 =? Z.land (translate vaddr) 0xFFFFF000 then u32 (vaddr + Z.land pa 0xFFF)
      else pa2va_loop n' pa (i + 1)
  end.
Definition pa2va (pa : Z) : Z := pa2va_loop (Z.to_nat 0x100000) pa 0.

(** The first page that is translated to the wanted one is found. *)
Lemma pa2va_finds pa n i : (i < n)%nat -> Z.of_nat n <= 0x100000 ->
  (forall j, (j < i)%nat -> Z.land (translate (Z.of_nat j * 4096)) 0xFFFFF000 <> Z.land pa 0xFFFFF000) ->
  Z.land (translate (Z.of_nat i * 4096)) 0xFFFFF000 = Z.land pa 0xFFFFF000 ->
  pa2va_loop n pa 0 = Z.of_nat i * 4096 + Z.land pa 0xFFF.
Proof.
  intros Hi Hn Hno He. assert (forall d k n', (k + d = i)%nat -> (d < n')%nat ->
    pa2va_loop n' pa (Z.of_nat k) = Z.of_nat i * 4096 + Z.land pa 0xFFF) as H; [|apply (H i 0%nat); lia].
  assert (0 <= Z.land pa 0xFFF < 4096) as Hl.
  { change 0xFFF with (Z.ones 12). rewrite Z.land_ones by lia. apply Z.mod_pos_bound. lia. }
  assert (forall k, (k <= i)%nat -> u32 (Z.shiftl (Z.of_nat k) 12) = Z.of_nat k * 4096) as Hs.
  { intros k Hk. rewrite Z.shiftl_mul_pow2 by lia. apply u32_small. lia. }
  induction d as [|d IH]; intros k [|n'] Hk Hn'; try lia; cbn [pa2va_loop]; rewrite Hs by lia.
  - replace k with i by lia. rewrite He, Z.eqb_refl. apply u32_small. lia.
  - rewrite (proj2 (Z.eqb_neq _ _)) by (intros E; apply (Hno k); [lia|done]).
    replace (Z.of_nat k + 1) with (Z.of_nat (S k)) by lia. apply IH; lia.
Qed.

End Translation.

Section PhysMem.
(** The bytes of a physical section; the result of the [n]th [ksceIoWrite] of so
    many bytes *)
Context (section : Z -> mem) (io_write : nat -> Z -> Z).

(** The entry of the translation table, the file, and the writes so far *)
Record dump := Dump { entry : Z; file : mem; writes : nat }.

(** The memory seen through the entry: its section, from [off] on *)
Definition window (s : dump) (off : Z) : mem := drop (Z.to_nat off) (section (Z.shiftr (entry s) 20)).

(** [ksceIoWrite(fd, vaddr + off + write, len)]; a negative result writes
    nothing. *)
Definition ksceIoWrite (from len : Z) : SM dump Z :=
  s ← sm_get;
  let r := io_write (writes s) len in
  bs ← (if 0 <=? r then sm_lift (slice (window s from) 0 (Z.to_nat (Z.min r len))) else mret []);
  _ ← sm_put (Dump (entry s) (file s ++ bs) (S (writes s)));
  mret r.

(** [while ((write += ksceIoWrite(...)) < len)]: [write] is an [int], [len] is
    unsigned, and so is the comparison; [false]: [goto error]. *)
Fixpoint write_loop (fuel : nat) (off len write : Z) : SM dump bool :=
  match fuel with
  | O => fun _ => OutOfFuel
  | S fuel' =>
      r ← ksceIoWrite (off + write) (u32 (len - write));
      let write := s32 (write + r) in
      if u32 write <? len then
        if write <? 0 then mret false else write_loop fuel' off len write
      else mret true
  end.

(** [for (i = start; i < end; i++)]; [n]: sections left *)
Fixpoint section_loop (fuel n : nat) (i off len : Z) : SM dump bool :=
  match n with
  | O => mret true
  | S n' =>
      _ ← sm_modify (fun s => Dump (u32 (Z.lor (Z.shiftl i 20) 0x10592)) (file s) (writes s));
      ok ← write_loop fuel off len 0;
      if ok : bool then section_loop fuel n' (i + 1) off len else mret false
  end.

(** [fd]: the result of opening the file, which empties it; the result is always
    0. *)
Definition phy_mem_dump_safe (fuel : nat) (fd start end_ off len : Z) : SM dump Z :=
  if fd <? 0 then mret 0
  else
    _ ← sm_modify (fun s => Dump (entry s) [] (writes s));
    _ ← section_loop fuel (Z.to_nat (end_ - start)) start off len; mret 0.

(** ** What is in the file *)

Lemma entry_section i : 0 <= i < 4096 -> Z.shiftr (u32 (Z.lor (Z.shiftl i 20) 0x10592)) 20 = i.
Proof.
  intros Hi. rewrite Z.shiftl_mul_pow2, lor_mul_pow2, u32_small, Z.shiftr_div_pow2 by lia. div_lia.
Qed.

(** [len] bytes from [off] on of a section *)
Definition part (off len i : Z) : mem := take (Z.to_nat len) (drop (Z.to_nat off) (section i)).

Section Written.
Context (off len : Z) (Hoff : 0 <= off) (Hlen : 0 < len < 2 ^ 31).

(** Every write accepts something, and no more than it is given. *)
Definition progress : Prop := forall c l, 0 < l -> 1 <= io_write c l <= l.
Definition covered (i : Z) : Prop := off + len <= mlen (section i).

Lemma write_loop_spec i : progress -> 0 <= i < 4096 -> covered i -> forall fuel write s, 0 <= write < len ->
  (Z.to_nat (len - write) < fuel)%nat -> entry s = u32 (Z.lor (Z.shiftl i 20) 0x10592) -> exists s',
  write_loop fuel off len write s = Done (true, s') /\ entry s' = entry s /\
  file s' = file s ++ drop (Z.to_nat write) (part off len i).
Proof.
  intros Hp Hi Hc. induction fuel as [|fuel IH]; intros write s Hw Hf He; [lia|]. cbn [write_loop].
  rewrite (u32_small (len - write)) by lia. pose proof (Hp (writes s) (len - write) ltac:(lia)) as Hr.
  set (r := io_write (writes s) (len - write)) in *.
  set (bs := take (Z.to_nat r) (drop (Z.to_nat write) (part off len i))).
  assert (ksceIoWrite (off + write) (len - write) s = Done (r, Dump (entry s) (file s ++ bs) (S (writes s)))) as E.
  { unfold ksceIoWrite. rewrite (sm_bind_Done sm_get _ s s s eq_refl). fold r. rewrite (proj2 (Z.leb_le 0 r)) by lia.
    unfold window. rewrite He, entry_section by done. rewrite Z.min_l by lia.
    assert (slice (drop (Z.to_nat (off + write)) (section i)) 0 (Z.to_nat r) = Done bs) as ->; [|done].
    unfold slice, covered, mlen in *. rewrite length_drop. rewrite (proj2 (Z.leb_le 0 0)), (proj2 (Z.leb_le (0 + _) _)) by lia. cbn [andb].
    f_equal. unfold bs, part. rewrite Z2Nat.inj_0, drop_0, skipn_firstn_comm, take_take, drop_drop.
    rewrite Nat.min_l by lia. by replace (Z.to_nat off + Z.to_nat write)%nat with (Z.to_nat (off + write)) by lia. }
  rewrite (sm_bind_Done _ _ _ _ _ E). rewrite (s32_small (write + r)), (u32_small (write + r)) by lia.
  assert (file s ++ bs ++ drop (Z.to_nat (write + r)) (part off len i) = file s ++ drop (Z.to_nat write) (part off len i)) as Ej.
  { f_equal. unfold bs. rewrite Z2Nat.inj_add, <- drop_drop by lia. apply take_drop. }
  destruct (Z.ltb_spec (write + r) len) as [Hlt|Hge].
  - rewrite (proj2 (Z.ltb_ge _ _)) by lia.
    destruct (IH (write + r) (Dump (entry s) (file s ++ bs) (S (writes s)))) as (s' & E' & He' & Hf'); [lia|lia|done|].
    exists s'. split; [exact E'|]. split; [done|]. cbn [file] in Hf'. by rewrite Hf', <- app_assoc, Ej.
  - eexists. split; [done|]. split; [done|]. cbn [file]. rewrite <- Ej, (drop_ge (part off len i)); [by rewrite app_nil_r|].
    unfold part. rewrite length_take. lia.
Qed.

Lemma section_loop_spec fuel : progress -> (Z.to_nat len < fuel)%nat -> forall n i s, 0 <= i -> i + Z.of_nat n <= 4096 ->
  (forall k, i <= k < i + Z.of_nat n -> covered k) -> exists s',
  section_loop fuel n i off len s = Done (true, s') /\
  file s' = file s ++ concat ((fun k => part off len (i + Z.of_nat k)) <$> seq 0 n).
Proof.
  intros Hp Hf. induction n as [|n IH]; intros i s H0 Hn Hc; cbn [section_loop].
  { exists s. split; [done|]. by rewrite app_nil_r. }
  set (s1 := Dump (u32 (Z.lor (Z.shiftl i 20) 0x10592)) (file s) (writes s)).
  rewrite (sm_bind_Done _ _ s tt s1) by reflexivity.
  destruct (write_loop_spec i Hp ltac:(lia) (Hc i ltac:(lia)) fuel 0 s1) as (s2 & E2 & _ & F2); [lia|lia|done|].
  rewrite (sm_bind_Done _ _ _ _ _ E2).
  destruct (IH (i + 1) s2) as (s3 & E3 & F3); [lia|lia|intros k Hk; apply Hc; lia|].
  exists s3. split; [exact E3|]. rewrite F3, F2. cbn [file s1]. change (Z.to_nat 0) with 0%nat. rewrite drop_0, <- app_assoc.
  f_equal. cbn [seq fmap list_fmap concat]. rewrite Z.add_0_r. f_equal. rewrite <- seq_shift, <- list_fmap_compose. f_equal.
  apply list_fmap_ext. intros k x _. unfold compose. by replace (i + Z.of_nat (S x)) with (i + 1 + Z.of_nat x) by lia.
Qed.

(** C32: However the writes are cut up, the file afterwards is the wanted part of
    every physical section from the first to the last one, in order and nothing
    else, whatever it held before, through one entry of the translation table;
    the loops end. *)
Theorem physical_memory_dumped fuel fd start end_ s : progress -> (Z.to_nat len < fuel)%nat -> 0 <= fd ->
  0 <= start <= end_ -> end_ <= 4096 -> (forall i, start <= i < end_ -> covered i) -> exists s',
  phy_mem_dump_safe fuel fd start end_ off len s = Done (0, s') /\
  file s' = concat ((fun k => part off len (start + Z.of_nat k)) <$> seq 0 (Z.to_nat (end_ - start))).
Proof.
  intros Hp Hf Hfd Hs He Hc. unfold phy_mem_dump_safe. rewrite (proj2 (Z.ltb_ge _ _) Hfd).
  set (s0 := Dump (entry s) [] (writes s)). rewrite (sm_bind_Done _ _ s tt s0) by reflexivity.
  destruct (section_loop_spec fuel Hp Hf (Z.to_nat (end_ - start)) start s0) as (s' & E & F); [lia|lia|intros k Hk; apply Hc; lia|].
  rewrite (sm_bind_Done _ _ _ _ _ E). by exists s'.
Qed.

(** The comparison is unsigned, so that an error ends the section as if it was
    complete; the branch for errors is never taken. *)
Lemma write_error_unnoticed fuel write s : 0 <= write < len -> - 2 ^ 31 <= write + io_write (writes s) (len - write) < 0 ->
  io_write (writes s) (len - write) < 0 ->
  write_loop (S fuel) off len write s = Done (true, Dump (entry s) (file s) (S (writes s))).
Proof.
  intros Hw Hr Hneg. cbn [write_loop]. rewrite (u32_small (len - write)) by lia. set (r := io_write _ _) in *.
  assert (ksceIoWrite (off + write) (len - write) s = Done (r, Dump (entry s) (file s) (S (writes s)))) as E.
  { unfold ksceIoWrite. rewrite (sm_bind_Done sm_get _ s s s eq_refl). fold r. rewrite (proj2 (Z.leb_gt 0 r)) by lia.
    unfold mbind, sm_bind, mret, sm_ret, sm_put. by rewrite app_nil_r. }
  rewrite (sm_bind_Done _ _ _ _ _ E).
  assert (u32 (s32 (write + r)) = write + r + 2 ^ 32) as ->.
  { assert (u32 (write + r) = write + r + 2 ^ 32) as Hu.
    { unfold u32. rewrite <- (Z.mod_add _ 1) by lia. rewrite Z.mul_1_l. apply Z.mod_small. lia. }
    unfold s32. rewrite Hu. rewrite (proj2 (Z.ltb_ge _ _)) by lia. unfold u32.
    replace (write + r + 2 ^ 32 - 2 ^ 32) with (write + r) by lia. exact Hu. }
  by rewrite (proj2 (Z.ltb_ge _ _)) by lia.
Qed.
End Written.
End PhysMem.

Lemma physical_memory_dumped_witness : let section i := [i; i + 1; i + 2; i + 3] in let io_write (n : nat) l := if Nat.eqb n 1 then 1 else l in
  let io c l := if l <=? 1 then 1 else io_write c l in let s := Dump 0 [9] 0 in exists s',
  phy_mem_dump_safe section io 5 3 1 3 1 3 s = Done (0, s') /\ file s' = [2; 3; 4; 3; 4; 5].
Proof.
  cbv zeta. set (section := fun i : Z => [i; i + 1; i + 2; i + 3]). set (io := fun (c : nat) l => if l <=? 1 then 1 else _).
  assert (progress io) as Hp.
  { intros c l Hl. unfold io. destruct (Z.leb_spec l 1); [lia|]. destruct (Nat.eqb c 1); lia. }
  destruct (physical_memory_dumped section io 1 3 ltac:(lia) ltac:(lia) 5 3 1 3 (Dump 0 [9] 0) Hp) as (s' & E & F); try lia.
  { intros i Hi. unfold covered, mlen. cbn. lia. }
  exists s'. split; [exact E|]. rewrite F. reflexivity.
Defined.
End PhysMem.

Module Unity.

(** The functions that can be put in place of one of the engine *)
Inductive internal_call := Original (ptr : Z) | Internal_Log | Internal_Log2 | isDebug.

(** [mono_add_internal_call_patched]: what is registered under [name] *)
Definition mono_add_internal_call_patched (name : string) (ptr : Z) : internal_call :=
  if bool_decide (name = "UnityEngine.DebugLogHandler::Internal_Log"%string) then Internal_Log
  else if bool_decide (name = "UnityEngine.Debug::Internal_Log"%string) then Internal_Log2
  else if bool_decide (name = "UnityEngine.Debug::get_isDebugBuild"%string) then isDebug
  else Original ptr.

(** [Internal_Log] and [Internal_Log2]: the text in [utf8msg[512]], which is
    not set before *)
Definition internal_log (uninit : mem) (strings : list Z) : run mem := utf16_to_utf8 strings uninit.

(** [int hook[3]], and which hooks are installed *)
Record hooks := Hooks { hook : list Z; installed : gset Z }.

Definition set_hook (i : nat) (uid : Z) (s : hooks) : hooks :=
  Hooks (<[i := uid]> (hook s)) (if 0 <=? uid then {[uid]} ∪ installed s else installed s).
(** [taiHookRelease] *)
Definition release (uid : Z) (s : hooks) : hooks := Hooks (hook s) (installed s ∖ {[uid]}).

Definition hooks0 : hooks := Hooks [0; 0; 0] ∅.
(** [uid]: the result of the hook *)
Definition unity_start (uid : Z) (s : hooks) : hooks := set_hook 0 uid s.
Definition sceKernelLoadStartModule_patched (path : string) (uid : Z) (s : hooks) : hooks :=
  if bool_decide (path = "app0:/Media/Modules/mono-vita.suprx"%string) then set_hook 1 uid s else s.
(** [if (hook[i] >= 0) taiHookRelease(hook[i], ...)]: the calls *)
Definition unity_stop (s : hooks) : hooks * list Z :=
  let uids := filter (fun uid => 0 <= uid) (hook s) in
  (foldl (fun s uid => release uid s) s uids, uids).

(** ** What the hooks do *)

(** A text whose UTF-8 form does not fit 512 bytes is written behind the
    array: 171 characters of three bytes are enough, of the 256 there can be. *)
Lemma log_overflows uninit us rest : length uninit = 512%nat -> Forall (fun u => bmp u = true) us ->
  (512 <= length (utf8_text us))%nat -> internal_log uninit (us ++ 0 :: rest) = Fault FMem.
Proof.
  intros Hl Hus Ho. unfold internal_log. rewrite utf16_to_utf8_spec by done. by rewrite (proj2 (Nat.ltb_ge _ _)) by lia.
Qed.
Example euro_signs_overflow uninit rest : length uninit = 512%nat ->
  internal_log uninit (replicate 171 0x20AC ++ 0 :: rest) = Fault FMem.
Proof.
  intros Hl. apply log_overflows; [done|by apply Forall_replicate|]. apply Nat.leb_le. reflexivity.
Qed.

(** A shorter one is logged as it is. *)
Lemma log_converts uninit us rest : length uninit = 512%nat -> Forall (fun u => bmp u = true) us ->
  (length (utf8_text us) < 512)%nat -> exists m, internal_log uninit (us ++ 0 :: rest) = Done m /\ until_nul m = utf8_text us.
Proof.
  intros Hl Hus Ho. unfold internal_log. rewrite utf16_to_utf8_spec by done. rewrite (proj2 (Nat.ltb_lt _ _)) by lia.
  eexists. split; [done|]. apply until_nul_app. apply Forall_concat, Forall_fmap, (Forall_impl _ _ _ Hus).
  intros u Hu. unfold compose, utf8, bmp in *. repeat case_match; repeat constructor; try (intros E; div_lia).
Qed.

(** When the plugin stops, the hooks that were never set are released too,
    under the number 0; those that were set are gone. *)
Lemma stop_releases_unset uid : 0 <= uid -> let s := unity_start uid hooks0 in
  (unity_stop s).2 = [uid; 0; 0] /\ installed (unity_stop s).1 = ∅.
Proof.
  intros Hu. unfold unity_start, set_hook, hooks0, unity_stop. cbn [hook installed insert list_insert].
  rewrite (proj2 (Z.leb_le 0 uid)) by done. rewrite !filter_cons, decide_True by done. cbn. split; [done|]. set_solver.
Qed.
End Unity.

Module NoAslr.

(** Patches of the text of a kernel module: what taiHEN does with them *)
Class Injections (W : Type) := {
  inject : Z -> mem -> W -> Z * W;    (** [taiInjectDataForKernel] at an offset *)
  take_back : Z -> W -> W;              (** [taiInjectReleaseForKernel] *)
  text : W -> mem;
  holds : W -> Z -> option (Z * mem); (** offset and saved bytes of a patch *)
}.
Class InjectionLaws (W : Type) `{!Injections W} := {
  inject_ok off bs w uid w' : inject off bs w = (uid, w') -> 0 <= uid -> exists old,
    slice (text w) off (length bs) = Done old /\ blit (text w) off bs = Done (text w') /\
    holds w uid = None /\ holds w' uid = Some (off, old) /\ forall u, u <> uid -> holds w' u = holds w u;
  inject_fails off bs w uid w' : inject off bs w = (uid, w') -> uid < 0 -> w' = w;
  release_ok uid off old w m : holds w uid = Some (off, old) -> blit (text w) off old = Done m -> text (take_back uid w) = m /\
    holds (take_back uid w) uid = None /\ forall u, u <> uid -> holds (take_back uid w) u = holds w u;
  release_none uid w : holds w uid = None -> take_back uid w = w;
  holds_valid uid w x : holds w uid = Some x -> 0 <= uid;
}.

Definition movs_r0_0 : mem := [0x00; 0x20].
Definition movs_r3_0 : mem := [0x00; 0x23].
Definition nop_x4 : mem := [0x00; 0xBF; 0x00; 0xBF; 0x00; 0xBF; 0x00; 0xBF].

(** The four patches, in order *)
Definition patches : list (Z * mem) := [(0xCC, movs_r0_0); (0xC2, nop_x4); (0xB8, nop_x4); (0xA54, movs_r3_0)].

Section NoAslr.
Context {W : Type} `{!Injections W}.

Fixpoint inject_all (ps : list (Z * mem)) (w : W) : list Z * W :=
  match ps with
  | [] => ([], w)
  | (off, bs) :: ps' =>
      let '(uid, w) := inject off bs w in
      let '(uids, w) := inject_all ps' w in (uid :: uids, w)
  end.
(** [hook_uid] *)
Definition noASLR_start (w : W) : list Z * W := inject_all patches w.
(** the last patch first *)
Definition noASLR_stop (hook_uid : list Z) (w : W) : W := foldl (fun w uid => take_back uid w) w (rev hook_uid).

(** ** The patches are taken back *)

Section Laws.
Context `{!InjectionLaws W}.

Lemma blit_back m off bs m' old : slice m off (length bs) = Done old -> blit m off bs = Done m' -> blit m' off old = Done m.
Proof.
  intros (H0 & Hl & ->)%slice_inv Hb. unfold blit, mlen in *. rewrite (proj2 (Z.leb_le 0 off)), (proj2 (Z.leb_le _ _)) in Hb by lia.
  injection Hb as <-. rewrite !length_app, !length_take, !length_drop.
  rewrite (proj2 (Z.leb_le 0 off)), (proj2 (Z.leb_le _ _)) by lia. f_equal.
  set (k := Z.to_nat off) in *. assert (length (take k m) = k) as Hk by (rewrite length_take; lia).
  rewrite (app_assoc (take k m) bs), (drop_app_ge (take k m ++ bs)) by (rewrite length_app; lia). rewrite length_app, Hk, Nat.min_l, Nat.sub_diag, drop_0 by lia.
  rewrite <- (app_assoc (take k m) bs), take_app_length' by done. rewrite <- drop_drop, take_drop. apply take_drop.
Qed.

Lemma inject_all_back ps : forall w uids w', inject_all ps w = (uids, w') ->
  let w2 := foldl (fun w uid => take_back uid w) w' (rev uids) in text w2 = text w /\ forall u, holds w2 u = holds w u.
Proof.
  induction ps as [|[off bs] ps IH]; intros w uids w'; cbn [inject_all]; [by intros [= <- <-]|].
  destruct (inject off bs w) as [uid w1] eqn:E1. destruct (inject_all ps w1) as [uids1 w2] eqn:E2. intros [= <- <-].
  destruct (IH _ _ _ E2) as [Ht Hh]. cbn [rev]. rewrite foldl_app. cbn [foldl]. set (w3 := foldl _ w2 (rev uids1)) in *.
  destruct (Z.lt_ge_cases uid 0) as [Hneg|Hpos].
  - pose proof (inject_fails _ _ _ _ _ E1 Hneg) as ->. assert (holds w3 uid = None) as Hn.
    { rewrite Hh. destruct (holds w uid) eqn:Eh; [|done]. apply holds_valid in Eh. lia. }
    cbv zeta. rewrite (release_none uid w3 Hn). by split.
  - destruct (inject_ok _ _ _ _ _ E1 Hpos) as (old & Hs & Hb & Hf & Hu & Ho).
    pose proof (blit_back _ _ _ _ _ Hs Hb) as Hback. rewrite <- Ht in Hback.
    destruct (release_ok uid off old w3 (text w)) as (Hr & Hrn & Hro); [by rewrite Hh|done|]. cbv zeta. split; [done|].
    intros u. destruct (decide (u = uid)) as [->|Hne]; [by rewrite Hrn, Hf|]. by rewrite Hro, Hh, Ho.
Qed.

(** The text with the patches that were accepted *)
Fixpoint patched (uids : list Z) (ps : list (Z * mem)) (m : mem) : run mem :=
  match uids, ps with
  | uid :: uids', (off, bs) :: ps' => m ← (if 0 <=? uid then blit m off bs else Done m); patched uids' ps' m
  | _, _ => Done m
  end.

Lemma inject_all_text ps : forall w uids w', inject_all ps w = (uids, w') -> patched uids ps (text w) = Done (text w').
Proof.
  induction ps as [|[off bs] ps IH]; intros w uids w'; cbn [inject_all]; [by intros [= <- <-]|].
  destruct (inject off bs w) as [uid w1] eqn:E1. destruct (inject_all ps w1) as [uids1 w2] eqn:E2. intros [= <- <-].
  cbn [patched]. destruct (Z.leb_spec 0 uid) as [Hp|Hn].
  - destruct (inject_ok _ _ _ _ _ E1 Hp) as (old & _ & Hb & _). rewrite Hb. cbn. by apply IH.
  - apply inject_fails in E1 as ->; [|done]. cbn. by apply IH.
Qed.

(** After the start the module's text is the old one with those patches that
    were accepted, in order; the stop takes back exactly these, so that the
    text and the set of patches are those before, also when some of the four
    were refused or two of them overlap. *)
Theorem patches_taken_back w uids w' : noASLR_start w = (uids, w') ->
  patched uids patches (text w) = Done (text w') /\
  text (noASLR_stop uids w') = text w /\ forall u, holds (noASLR_stop uids w') u = holds w u.
Proof. intros E. split; [by apply inject_all_text|]. by apply inject_all_back in E. Qed.

End Laws.
End NoAslr.

(** The text and the patches given out so far, which are numbered from 0 *)
Definition patched_module : Type := mem * list (option (Z * mem)).
Definition module_holds (w : patched_module) (uid : Z) : option (Z * mem) :=
  if 0 <=? uid then mjoin (w.2 !! Z.to_nat uid) else None.
#[export] Instance module_injections : Injections patched_module := {
  inject off bs w := match slice w.1 off (length bs), blit w.1 off bs with
    | Done old, Done m => (Z.of_nat (length w.2), (m, w.2 ++ [Some (off, old)]))
    | _, _ => (-1, w)
    end;
  take_back uid w := match module_holds w uid with
    | Some (off, old) => match blit w.1 off old with Done m => (m, <[Z.to_nat uid := None]> w.2) | _ => w end
    | None => w
    end;
  text := fst;
  holds := module_holds
}.
#[export] Instance module_injection_laws : InjectionLaws patched_module.
Proof.
  split; unfold inject, take_back, text, holds; cbn [module_injections].
  - intros off bs w uid w'. destruct (slice _ _ _) as [old| |] eqn:Es; try (intros [= <- <-]; lia).
    destruct (blit _ _ _) as [m| |] eqn:Eb; intros [= <- <-] H0; try lia. exists old. unfold module_holds. cbn [fst snd].
    rewrite (proj2 (Z.leb_le 0 _)) by lia. rewrite Nat2Z.id, lookup_ge_None_2, lookup_app_r, Nat.sub_diag by done.
    split; [done|]. split; [done|]. split; [done|]. split; [done|]. intros u Hu. destruct (Z.leb_spec 0 u); [|done].
    destruct (Nat.lt_ge_cases (Z.to_nat u) (length w.2)); [by rewrite lookup_app_l|].
    rewrite !lookup_ge_None_2; [done|lia|rewrite length_app; cbn; lia].
  - intros off bs w uid w'. repeat case_match; intros [= <- <-] ?; try done; lia.
  - intros uid off old w m Hh Hb. rewrite Hh, Hb. unfold module_holds in *. cbn [fst snd]. split; [done|].
    destruct (Z.leb_spec 0 uid); [|done]. split.
    + destruct (w.2 !! Z.to_nat uid) eqn:E; [|done]. by rewrite list_lookup_insert_eq by (eapply lookup_lt_Some; exact E).
    + intros u Hu. destruct (Z.leb_spec 0 u); [|done]. by rewrite list_lookup_insert_ne by lia.
  - intros uid w ->. done.
  - intros uid w x. unfold module_holds. case_match; [lia|done].
Qed.

Lemma patches_taken_back_witness : exists uids w', let w := (replicate 2660 7, [None; Some (0, [1])]) : patched_module in
  noASLR_start w = (uids, w') /\ uids = [2; 3; 4; 5] /\
  patched uids patches (text w) = Done (text w') /\
  text (noASLR_stop uids w') = text w /\ forall u, holds (noASLR_stop uids w') u = holds w u.
Proof.
  destruct (noASLR_start ((replicate 2660 7, [None; Some (0, [1])]) : patched_module)) as [uids w'] eqn:E.
  exists uids, w'. split; [exact E|]. split; [|exact (patches_taken_back _ uids w' E)].
  assert ((noASLR_start ((replicate 2660 7, [None; Some (0, [1])]) : patched_module)).1 = [2; 3; 4; 5]) as H by (vm_compute; reflexivity).
  rewrite E in H. exact H.
Defined.
End NoAslr.

Module BaseHooker.

Section BaseHooker.
(** The state of the process, a byte of its memory, and the function that is
    hooked with its seven arguments *)
Context {W : Type} (byte : W -> Z -> run Z) (original : list Z -> W -> Z * W).

(** What is printed *)
Inductive line := Arguments (rs : list Z) | Bytes (name : string) (bs : mem) | Returned (rs : list Z) (ret : Z).

(** [for (int i = 0; i < length; i++)] *)
Fixpoint dump_bytes (w : W) (n : nat) (addr : Z) : run mem :=
  match n with
  | O => Done []
  | S n' => b ← byte w addr; bs ← dump_bytes w n' (addr + 1); Done (b :: bs)
  end.
Definition hex_dump (w : W) (name : string) (addr : Z) (length : nat) : run (list line) :=
  if (addr <? 0x81000000) || (0x83FFFFFF <? addr) then Done []
  else bs ← dump_bytes w length addr; Done [Bytes name bs].

Fixpoint hex_dumps (w : W) (rs : list (string * Z)) : run (list line) :=
  match rs with
  | [] => Done []
  | (name, r) :: rs' => l ← hex_dump w name (u32 r) 0x50; ls ← hex_dumps w rs'; Done (l ++ ls)
  end.
Definition arg_names : list string :=
  ["hook_func1 r1"; "hook_func1 r2"; "hook_func1 r3"; "hook_func1 r4"]%string.

(** [rs]: [r1] to [r7] *)
Definition hook_func1 (rs : list Z) (w : W) : run (Z * W * list line) :=
  before ← hex_dumps w (zip arg_names rs);
  let '(ret, w) := original rs w in
  after ← hex_dumps w (zip arg_names rs);
  Done (ret, w, Arguments (take 4 rs) :: before ++ after ++ [Returned (take 4 rs) ret]).

(** What is followed can be read: values in the window of the address space. *)
Definition readable (w : W) (rs : list Z) : Prop := Forall (fun r =>
  0x81000000 <= u32 r <= 0x83FFFFFF -> forall i, 0 <= i < 0x50 -> exists b, byte w (u32 r + i) = Done b) rs.

Lemma dump_bytes_done w n : forall addr, (forall i, 0 <= i < Z.of_nat n -> exists b, byte w (addr + i) = Done b) ->
  exists bs, dump_bytes w n addr = Done bs /\ length bs = n.
Proof.
  induction n as [|n IH]; intros addr H; cbn [dump_bytes]; [by exists []|].
  destruct (H 0) as [b Hb]; [lia|]. rewrite Z.add_0_r in Hb. rewrite Hb. cbn.
  destruct (IH (addr + 1)) as (bs & -> & Hl).
  { intros i Hi. replace (addr + 1 + i) with (addr + (i + 1)) by lia. apply H. lia. }
  exists (b :: bs). split; [done|]. cbn. by rewrite Hl.
Qed.

Lemma hex_dumps_done w ns : forall rs, readable w rs -> exists ls, hex_dumps w (zip ns rs) = Done ls.
Proof.
  induction ns as [|n ns IH]; intros [|r rs] H; cbn [zip zip_with hex_dumps]; try by eexists.
  apply Forall_cons in H as [Hr H]. destruct (IH rs H) as [ls ->]. unfold hex_dump.
  destruct (Z.ltb_spec (u32 r) 0x81000000); cbn [orb]; [by eexists|].
  destruct (Z.ltb_spec 0x83FFFFFF (u32 r)); [by eexists|].
  destruct (dump_bytes_done w 0x50 (u32 r)) as (bs & -> & _); [by apply Hr|]. by eexists.
Qed.

(** The hook calls the function once, with its own arguments, and gives its
    result back, if what the arguments point to can be read before and after. *)
Lemma hook_transparent rs w : readable w rs -> readable (original rs w).2 rs ->
  exists ls, hook_func1 rs w = Done (original rs w, ls).
Proof.
  intros H1 H2. unfold hook_func1. destruct (hex_dumps_done w arg_names rs H1) as [l1 E1].
  destruct (hex_dumps_done _ arg_names rs H2) as [l2 E2]. generalize dependent (zip arg_names rs). intros z -> E2. cbn.
  destruct (original rs w) as [ret w']. cbn in E2. rewrite E2. by eexists.
Qed.
End BaseHooker.
End BaseHooker.

Module Rtc.

Definition startDate1970 : Z := 1527811200.
Definition startDate0 : Z := u64 (startDate1970 * 1000 * 1000 + 0xDCBFFEFF2BC000).
(** [timestamp] *)
Definition timestamp : list Z := [u32 startDate0; u32 (Z.shiftr startDate0 32)].

(** The calls of [module_start]; [ret]: of [module_get_export_func] *)
Inductive call := SetCpRtc (t : Z) | SetCurrentTick (t : list Z) | SetNetworkTick (t : list Z)
  | SetSecureTick (t : list Z) | SetDebugNetworkTick (t : list Z).
Definition rtc_start (ret : Z) : list call :=
  (if ret =? 0 then [SetCpRtc (s32 startDate1970)] else []) ++
  [SetCurrentTick timestamp; SetNetworkTick timestamp; SetSecureTick timestamp; SetDebugNetworkTick timestamp].

(** The two words are the tick of the date, the low one first: microseconds
    since the year 1, which is 62135596800 seconds before 1970. *)
Lemma timestamp_of_date : exists lo hi, timestamp = [lo; hi] /\
  lo + 2 ^ 32 * hi = (startDate1970 + 62135596800) * 1000000 /\ 0 <= lo < 2 ^ 32 /\ 0 <= hi < 2 ^ 32.
Proof. do 2 eexists. split; [reflexivity|]. vm_compute. by repeat split. Qed.
End Rtc.

Module Asprintf.

Section Asprintf.
(** The length of the formatted text or an error, and the text *)
Context (vsnprintf : Z) (text : mem) (malloc_ok : bool).

(** The result and [*sptr] *)
Definition vasprintf : Z * option mem :=
  if vsnprintf <? 0 then (-1, None)
  else if malloc_ok then (mlen text, Some (text ++ [0])) else (-1, None).

(** The text is terminated in an array of just its size; without the text there
    is no array to free. *)
Lemma vasprintf_result : vsnprintf = mlen text ->
  vasprintf = if malloc_ok then (mlen text, Some (text ++ [0])) else (-1, None).
Proof. intros H. unfold vasprintf. by rewrite (proj2 (Z.ltb_ge _ _)) by (unfold mlen in *; lia). Qed.
End Asprintf.
End Asprintf.
