(* ===== verification/FagGame.v ===== *)
(** * The game list of FAGDec (FAGDec/src/app/sfo.c, utils.c, game.c)

    The application lists the applications on the device that are encrypted:
    it walks [ur0:/appmeta], looks for the [sce_pfs] folder of each name on
    three devices, takes the title from [param.sfo] and enters it into a menu
    and into an array of games.  The file system is read only here and given
    by functions; paths and names are strings, titles are bytes.  The menu is
    that of [FagMenu]. *)

From stdpp Require Import prelude gmap strings.
From S2P Require Import Prelude Bytes CString Hoare FagMenu.

(** ** param.sfo (sfo.c, sfo.h) *)

Module Sfo.
Definition SFO_MAGIC : Z := 0x46535000.
Definition sizeof_SfoHeader : Z := 20.
Definition sizeof_SfoEntry : Z := 16.

(** [SfoHeader] and [SfoEntry] by offset *)
Definition sfo_magic (m : mem) : run Z := load32 m 0.
Definition keyofs (m : mem) : run Z := load32 m 8.
Definition valofs (m : mem) : run Z := load32 m 12.
Definition count (m : mem) : run Z := load32 m 16.
Definition nameofs (m : mem) (i : Z) : run Z := load16 m (sizeof_SfoHeader + sizeof_SfoEntry * i).
Definition dataofs (m : mem) (i : Z) : run Z := load32 m (sizeof_SfoHeader + sizeof_SfoEntry * i + 12).

(** [strncpy(dst, m + off, n)]: what is in [dst] afterwards *)
Fixpoint strncpy_from (m : mem) (off : Z) (n : nat) : run mem :=
  match n with
  | O => Done []
  | S n' =>
      b ← load8 m off;
      if b =? 0 then Done (replicate n 0)
      else r ← strncpy_from m (off + 1) n'; Done (b :: r)
  end.

(** [string[length - 1] = 0] *)
Definition terminate (s : mem) : mem := <[(length s - 1)%nat := 0]> s.

(** The entries from number [i] on, [n] of them *)
Fixpoint sfo_loop (n : nat) (i : Z) (buffer name str : mem) : run (Z * mem) :=
  match n with
  | O => Done (-2, str)
  | S n' =>
      ko ← keyofs buffer; no ← nameofs buffer i;
      same ← str_matches buffer (ko + no) (name ++ [0]);
      if same : bool then
        vo ← valofs buffer; d ← dataofs buffer i;
        s ← strncpy_from buffer (vo + d) (length str);
        Done (0, terminate s)
      else sfo_loop n' (i + 1) buffer name str
  end.

(** The result, and the array [string] afterwards, whose size is [length] *)
Definition getSfoString (buffer name str : mem) : run (Z * mem) :=
  magic ← sfo_magic buffer;
  if negb (magic =? SFO_MAGIC) then Done (-1, str)
  else n ← count buffer; sfo_loop (Z.to_nat n) 0 buffer name str.

(** *** A file as a list of keys and values *)

Definition nonzero (s : mem) : Prop := Forall (fun b => b <> 0) s.

(** The string [s] stands at [off], with its NUL. *)
Definition spells (m : mem) (off : Z) (s : mem) : Prop :=
  nonzero s /\ exists pre post, m = pre ++ s ++ 0 :: post /\ mlen pre = off.

Record sfo_represents (buffer : mem) (es : list (mem * mem)) : Prop := {
  sfo_magic_ok : sfo_magic buffer = Done SFO_MAGIC;
  sfo_count_ok : count buffer = Done (Z.of_nat (length es));
  sfo_at : exists ko vo, keyofs buffer = Done ko /\ valofs buffer = Done vo /\
    forall i e, es !! i = Some e -> exists no d,
      nameofs buffer (Z.of_nat i) = Done no /\ dataofs buffer (Z.of_nat i) = Done d /\
      spells buffer (ko + no) e.1 /\ spells buffer (vo + d) e.2;
}.

(** The value of the first entry with the key *)
Fixpoint sfo_lookup (es : list (mem * mem)) (name : mem) : option mem :=
  match es with
  | [] => None
  | e :: es => if decide (e.1 = name) then Some e.2 else sfo_lookup es name
  end.

Lemma load8_at pre b post : load8 (pre ++ b :: post) (mlen pre) = Done b.
Proof. replace (mlen pre) with (mlen pre + 0) by lia. by rewrite load8_app_r. Qed.

Lemma spells_cons (pre : mem) b (s post : mem) : pre ++ (b :: s) ++ post = (pre ++ [b]) ++ s ++ post.
Proof. by rewrite <- app_assoc. Qed.
Lemma mlen_snoc (pre : mem) b : mlen (pre ++ [b]) = mlen pre + 1.
Proof. unfold mlen. rewrite length_app. cbn. lia. Qed.

Lemma str_matches_at pre s post name : nonzero s -> nonzero name ->
  str_matches (pre ++ s ++ 0 :: post) (mlen pre) (name ++ [0]) = Done (bool_decide (s = name)).
Proof.
  intros Hs. revert pre name. induction Hs as [|b s Hb Hs IH]; intros pre [|c name] Hname;
    cbn [app str_matches]; rewrite load8_at; cbn [mbind run_bind].
  - done.
  - apply Forall_cons in Hname as [Hc _]. by rewrite (proj2 (Z.eqb_neq _ _)) by done.
  - by rewrite (proj2 (Z.eqb_neq _ _)).
  - apply Forall_cons in Hname as [Hc Hname]. destruct (Z.eqb_spec b c) as [->|Hne].
    + pose proof (spells_cons pre c s (0 :: post)) as E. cbn [app] in E. rewrite E, <- mlen_snoc with (b := c), IH by done.
      f_equal. apply bool_decide_ext. split; [by intros ->|by intros [= ->]].
    + rewrite bool_decide_eq_false_2; [done|]. by intros [= -> _].
Qed.

Lemma strncpy_from_at pre s post n : nonzero s ->
  strncpy_from (pre ++ s ++ 0 :: post) (mlen pre) n = Done (strncpy s n).
Proof.
  intros Hs. revert pre n. induction Hs as [|b s Hb Hs IH]; intros pre [|n]; cbn [app strncpy_from].
  - done.
  - rewrite load8_at. cbn [mbind run_bind]. done.
  - done.
  - rewrite load8_at. cbn [mbind run_bind]. rewrite (proj2 (Z.eqb_neq _ _)) by done.
    pose proof (spells_cons pre b s (0 :: post)) as E. cbn [app] in E. rewrite E, <- mlen_snoc with (b := b), IH.
    cbn [mbind run_bind]. unfold strncpy. cbn [until_nul]. rewrite (proj2 (Z.eqb_neq _ _)) by done. done.
Qed.

Lemma sfo_loop_lookup buffer es name str : sfo_represents buffer es -> nonzero name ->
  forall n i, (n + i)%nat = length es ->
  sfo_loop n (Z.of_nat i) buffer name str =
    Done (match sfo_lookup (drop i es) name with
          | Some v => (0, terminate (strncpy v (length str)))
          | None => (-2, str)
          end).
Proof.
  intros [_ _ (ko & vo & Hko & Hvo & Hat)] Hname. induction n as [|n IH]; intros i Hn; cbn [sfo_loop].
  { by rewrite drop_ge by lia. }
  destruct (lookup_lt_is_Some_2 es i) as [e He]; [lia|].
  destruct (Hat i e He) as (no & d & Hno & Hd & (Hk & pre & post & Ek & Hpre) & (Hv & pre' & post' & Ev & Hpre')).
  rewrite Hko, Hno. cbn [mbind run_bind]. rewrite Ek at 1. rewrite <- Hpre, str_matches_at by done.
  cbn [mbind run_bind]. rewrite (drop_S es e i He). cbn [sfo_lookup].
  destruct (decide (e.1 = name)) as [E|E].
  - rewrite bool_decide_eq_true_2, Hvo, Hd by done. cbn [mbind run_bind].
    rewrite Ev at 1. rewrite <- Hpre', strncpy_from_at by done. done.
  - rewrite bool_decide_eq_false_2 by done. replace (Z.of_nat i + 1) with (Z.of_nat (S i)) by lia. apply IH. lia.
Qed.

Lemma getSfoString_spec buffer es name str : sfo_represents buffer es -> nonzero name ->
  getSfoString buffer name str =
    Done (match sfo_lookup es name with
          | Some v => (0, terminate (strncpy v (length str)))
          | None => (-2, str)
          end).
Proof.
  intros H Hname. unfold getSfoString. rewrite (sfo_magic_ok _ _ H). cbn [mbind run_bind].
  change (negb (SFO_MAGIC =? SFO_MAGIC)) with false. cbv iota. rewrite (sfo_count_ok _ _ H). cbn [mbind run_bind].
  rewrite Nat2Z.id. by apply (sfo_loop_lookup buffer es name str H Hname (length es) 0); lia.
Qed.

Lemma sfo_lookup_nonzero buffer es name v : sfo_represents buffer es -> sfo_lookup es name = Some v -> nonzero v.
Proof.
  intros [_ _ (ko & vo & _ & _ & Hat)] Hl.
  assert (exists i e, es !! i = Some e /\ e.2 = v) as (i & e & Hi & <-).
  { clear Hat. induction es as [|e es IH]; [done|]. cbn [sfo_lookup] in Hl. destruct (decide (e.1 = name)).
    - injection Hl as <-. by exists 0%nat, e.
    - destruct (IH Hl) as (i & e' & Hi & E). by exists (S i), e'. }
  by destruct (Hat i e Hi) as (no & d & _ & _ & _ & Hv & _).
Qed.

(** An array filled by [strncpy] and terminated holds the string, cut. *)
Lemma until_nul_terminate v n : nonzero v -> (0 < n)%nat ->
  until_nul (terminate (strncpy v n)) = take (n - 1) v.
Proof.
  intros Hv Hn. unfold terminate. rewrite strncpy_length. unfold strncpy.
  rewrite (until_nul_id v Hv). destruct (Nat.ltb_spec (length v) n) as [Hl|Hl].
  - rewrite (firstn_all2 (n := n)), (firstn_all2 (n := n - 1)) by lia.
    rewrite insert_app_r_alt by lia. destruct (n - length v)%nat as [|d] eqn:Ed; [lia|].
    replace (n - 1 - length v)%nat with d by lia. destruct d as [|d]; cbn; by rewrite until_nul_app.
  - rewrite length_take, Nat.min_l, Nat.sub_diag, app_nil_r by lia. cbn [replicate].
    destruct n as [|n]; [lia|]. cbn [Nat.sub]. rewrite Nat.sub_0_r.
    destruct (lookup_lt_is_Some_2 v n) as [b Hb]; [lia|]. rewrite (take_S_r _ _ _ Hb).
    rewrite insert_app_r_alt by (rewrite length_take; lia). rewrite length_take, Nat.min_l, Nat.sub_diag by lia.
    cbn. rewrite until_nul_app; [done|]. by apply Forall_take.
Qed.

(** On a file that represents a list of keys and values the search ends
    with the value of the first entry that has the key, cut to what fits into
    the array with its NUL, and with -2 and an unchanged array if there is
    none. *)
Theorem getSfoString_finds buffer es name str : sfo_represents buffer es -> nonzero name ->
  (0 < length str)%nat ->
  match sfo_lookup es name with
  | Some v => exists s, getSfoString buffer name str = Done (0, s) /\
      length s = length str /\ until_nul s = take (length str - 1) v
  | None => getSfoString buffer name str = Done (-2, str)
  end.
Proof.
  intros H Hname Hl. rewrite (getSfoString_spec buffer es name str H Hname).
  destruct (sfo_lookup es name) as [v|] eqn:E; [|done]. eexists. split; [done|].
  split; [unfold terminate; by rewrite length_insert, strncpy_length|].
  apply until_nul_terminate; [by eapply sfo_lookup_nonzero|done].
Qed.
End Sfo.
Export Sfo.

(** ** The list of games (game.c, and the file functions of utils.c it uses) *)

Definition PATH_MAX : nat := Z.to_nat 1024.
Lemma PATH_MAX_large : (1000 <= PATH_MAX)%nat.
Proof. unfold PATH_MAX. lia. Qed.
#[global] Opaque PATH_MAX.

Definition DEVICES : list string := ["ux0:"; "gro0:"; "grw0:"]%string.

Inductive GameType := SELF_NP | SELF_SYSTEM.

(** Without [path], which is never used *)
Record GameEntry := Game { title : mem; titleid : mem; game_type : GameType; menu_index : Z }.

(** The variables of game.c, with the menu being built *)
Record GameApp := App {
  menu : Menu; games : list GameEntry; games_index : nat; system_entries : Z; menu_start_index : Z }.

(** The callback functions *)
Definition gameStatusCB : Z := 1.
Definition gameCreditCB : Z := 2.
Definition gameEntryCB : Z := 3.

Definition set_menu m a := App m (games a) (games_index a) (system_entries a) (menu_start_index a).
Definition set_games gs a := App (menu a) gs (games_index a) (system_entries a) (menu_start_index a).
Definition set_games_index n a := App (menu a) (games a) n (system_entries a) (menu_start_index a).
Definition set_system_entries n a := App (menu a) (games a) (games_index a) n (menu_start_index a).
Definition set_menu_start n a := App (menu a) (games a) (games_index a) (system_entries a) n.

Definition set_title t g := Game t (titleid g) (game_type g) (menu_index g).
Definition set_titleid t g := Game (title g) t (game_type g) (menu_index g).
Definition set_game_type t g := Game (title g) (titleid g) t (menu_index g).
Definition set_menu_index i g := Game (title g) (titleid g) (game_type g) i.

Abbreviation G := (SM GameApp).

Definition in_menu {A} (op : SM Menu A) : G A := fun a =>
  match op (menu a) with
  | Done (x, m) => Done (x, set_menu m a)
  | Fault f => Fault f
  | OutOfFuel => OutOfFuel
  end.

(** [games[games_index]], inside the array *)
Definition this_game : G GameEntry := fun a =>
  match games a !! games_index a with Some g => Done (g, a) | None => Fault FTable end.
Definition update_game (f : GameEntry -> GameEntry) : G unit :=
  g ← this_game; sm_modify (fun a => set_games (<[games_index a := f g]> (games a)) a).

Section Games.
(** [sceIoGetstat]; what opening a file gives, its contents or an error; the
    entries of [ur0:/appmeta], with the result of the read behind the last *)
Context (sceIoGetstat : string -> Z) (contents : string -> mem + Z)
  (appmeta : option (list string * Z)).
(** What [malloc] leaves in an element of [games] *)
Context (junk : GameEntry).

Definition checkExists (path : string) : Z := sceIoGetstat path.
Definition getFileSize (file : string) : Z :=
  match contents file with inl c => s32 (mlen c) | inr fd => fd end.
(** The result, and what is read *)
Definition ReadFile (file : string) (size : Z) : Z * mem :=
  match contents file with
  | inl c => let bs := take (Z.to_nat size) c in (mlen bs, bs)
  | inr fd => (fd, [])
  end.

(** [snprintf(path, PATH_MAX, ...)] into an array of [size] characters *)
Definition snprintf (size : nat) (s : string) : run string :=
  let t := str_take (PATH_MAX - 1) s in
  if (String.length t <? size)%nat then Done t else Fault FTable.

(** The first path that exists *)
Fixpoint device_loop (devices : list string) (size : nat) (fmt : string -> string -> string)
    (titleid : string) : run (option string) :=
  match devices with
  | [] => Done None
  | d :: devices' =>
      path ← snprintf size (fmt d titleid);
      if checkExists path =? 0 then Done (Some path) else device_loop devices' size fmt titleid
  end.
Definition getPathDevice (size : nat) (fmt : string -> string -> string) (titleid : string)
    : run (option string) := device_loop DEVICES size fmt titleid.

(** [getPathDevice(.., first, ..) || getPathDevice(.., second, ..)] *)
Definition either_path (size : nat) (first second : string -> string -> string) (titleid : string)
    : run (option string) :=
  p ← getPathDevice size first titleid;
  match p with Some p => Done (Some p) | None => getPathDevice size second titleid end.

Definition checkIfPFS (titleid : string) : run bool :=
  p ← either_path 128 (fun d t => d +:+ "/app/" +:+ t +:+ "/sce_pfs")
        (fun d t => d +:+ "/patch/" +:+ t +:+ "/sce_pfs") titleid;
  Done (bool_decide (is_Some p)).

(** A size of an error code is larger than the heap: no buffer *)
Definition getSfoBuffer (titleid : string) : run (option mem) :=
  p ← either_path PATH_MAX (fun d t => d +:+ "/app/" +:+ t +:+ "/sce_sys/param.sfo")
        (fun d t => d +:+ "/patch/" +:+ t +:+ "/sce_sys/param.sfo") titleid;
  match p with
  | None => Done None
  | Some path =>
      let sz := u32 (getFileSize path) in
      if sz <? sizeof_SfoHeader then Done None
      else
        let '(res, bs) := ReadFile path sz in
        Done (if res <? 0 then None else Some bs)
  end.

Fixpoint count_loop (names : list string) (games_amt : nat) : run nat :=
  match names with
  | [] => Done games_amt
  | name :: names' =>
      pfs ← checkIfPFS name;
      count_loop names' (if pfs : bool then S games_amt else games_amt)
  end.
Definition gameCount : run nat :=
  match appmeta with None => Done 0%nat | Some (names, _) => count_loop names 0 end.

Definition gameAdd (tid : mem) (type : GameType) : G unit :=
  g ← this_game;
  p ← in_menu (MenuAddEntry MENU_NORMAL (title g) (Some gameEntryCB));
  e ← in_menu (read p);
  _ ← update_game (set_menu_index (index e));
  _ ← update_game (set_titleid (strncpy tid 20));
  _ ← update_game (set_game_type type);
  sm_modify (fun a => set_games_index (S (games_index a)) a).

(** One system folder *)
Definition add_system (name : string) : G unit :=
  _ ← update_game (set_title (strncpy (str_bytes name) 128));
  _ ← gameAdd (str_bytes "SYSTEM") SELF_SYSTEM;
  sm_modify (fun a => set_system_entries (system_entries a + 1) a).

(** [while((newline = strchr(title,'\n')) != NULL) *newline = ' '] *)
Fixpoint blank_newlines (t : mem) : mem :=
  match t with
  | [] => []
  | b :: t' => if b =? 0 then t else (if b =? 10 then 32 else b) :: blank_newlines t'
  end.

(** One name of the folder; [continue] and the end of the body are one. *)
Definition add_game (name : string) : G unit :=
  pfs ← sm_lift (checkIfPFS name);
  if pfs : bool then
    sfo_buffer ← sm_lift (getSfoBuffer name);
    match sfo_buffer with
    | None => mret tt
    | Some b =>
        '(res, t) ← sm_lift (getSfoString b (str_bytes "STITLE") (replicate 128 0));
        if res =? 0 then
          _ ← update_game (set_title (blank_newlines t));
          gameAdd (str_bytes name) SELF_NP
        else mret tt
    end
  else mret tt.

Fixpoint add_games (names : list string) : G unit :=
  match names with [] => mret tt | name :: names' => _ ← add_game name; add_games names' end.

Definition add_label (dt : MenuDrawType) (t : string) (cb : option Z) : G positive :=
  in_menu (MenuAddEntry dt (str_bytes t) cb).

(** The head of the menu, and the system folders *)
Definition head_menu : G unit :=
  _ ← add_label MENU_TITLE "FRENCH-AMERICAN GAME DECRYPTER" None;
  _ ← add_label MENU_SUBTITLE "REV ENG BY @CelesteBlue123 (HE IS AMAZING)" None;
  _ ← add_label MENU_SUBTITLE "DEVELOPED BY @dots_tb" None;
  p ← add_label MENU_NORMAL "Decrypt modules in list" (Some gameStatusCB);
  _ ← in_menu (update p (set_type MENU_START));
  p ← add_label MENU_NORMAL "Further Credits" (Some gameCreditCB);
  _ ← in_menu (update p (set_type MENU_BACK));
  _ ← add_label MENU_TITLE "SYSTEM:" None;
  _ ← add_system "os0:"; _ ← add_system "vs0:"; _ ← add_system "ux0:/os0_em";
  _ ← add_system "ux0:/vs0_em"; _ ← add_system "ux0:/app_em"; _ ← add_system "ux0:/patch_em";
  _ ← add_label MENU_TITLE "PFS TITLES FOUND:" None;
  sm_modify (fun a => set_menu_start (entry_index (menu a)) a).

(** The read that ends the folder with 0 leaves an empty name, which is
    looked at too. *)
Definition gameGenerateMenu : run (bool * GameApp) :=
  amt ← gameCount;
  ((_ ← head_menu;
    match appmeta with
    | None => mret false
    | Some (names, res) => _ ← add_games (names ++ if res =? 0 then [""%string] else []); mret true
    end) : G bool)
  (App (MenuCreate PANE_LEFT) (replicate (amt + 6) junk) 0 0 0).

(** The number of the game that the callback [gameEntryCB] opens *)
Definition entry_game (a : GameApp) (index : Z) : option Z :=
  if index - menu_start_index a <? 0 then Some (system_entries a + 1 + index - menu_start_index a)
  else if index - menu_start_index a <=? Z.of_nat (games_index a) then
    Some (index - menu_start_index a + system_entries a)
  else None.

Definition gameGetGameFromIndex (a : GameApp) (index : Z) : option GameEntry :=
  if index <? 0 then None else games a !! Z.to_nat index.
End Games.

(** ** The array and the menu agree *)

Definition game_node (g : GameEntry) : node := new_node MENU_NORMAL (title g) (Some gameEntryCB).

(** The menu of [a] holds [ds], and game number [k] is entry number [idx !! k]. *)
Definition holds_games (a : GameApp) (ds : list node) (idx : list nat) : Prop :=
  (exists ps, menu_holds (menu a) ps ds) /\ games_index a = length idx /\
  forall k i, idx !! k = Some i -> exists g,
    games a !! k = Some g /\ menu_index g = Z.of_nat i /\ ds !! i = Some (game_node g).

(** What adding a game or a label leaves alone *)
Definition same_counts (a a' : GameApp) : Prop :=
  length (games a') = length (games a) /\ menu_start_index a' = menu_start_index a.

Lemma in_menu_Done {A} (op : SM Menu A) a x m :
  op (menu a) = Done (x, m) -> in_menu op a = Done (x, set_menu m a).
Proof. intros E. unfold in_menu. by rewrite E. Qed.

Lemma this_game_Done a g : games a !! games_index a = Some g -> this_game a = Done (g, a).
Proof. intros E. unfold this_game. by rewrite E. Qed.

Lemma update_game_Done f a g : games a !! games_index a = Some g -> exists a',
  update_game f a = Done (tt, a') /\ games a' !! games_index a' = Some (f g) /\
  menu a' = menu a /\ games a' = <[games_index a := f g]> (games a) /\ games_index a' = games_index a /\
  system_entries a' = system_entries a /\ menu_start_index a' = menu_start_index a.
Proof.
  intros E. exists (set_games (<[games_index a := f g]> (games a)) a). unfold update_game.
  rewrite (sm_bind_Done _ _ _ _ _ (this_game_Done a g E)). split; [done|]. split; [|done].
  apply list_lookup_insert_eq. exact (lookup_lt_Some _ _ _ E).
Qed.

Lemma holds_games_app a a' ds n idx : holds_games a ds idx -> games a' = games a ->
  games_index a' = games_index a -> (exists ps, menu_holds (menu a') ps (ds ++ [n])) ->
  holds_games a' (ds ++ [n]) idx.
Proof.
  intros (_ & Hi & H) Hg Hi' Hm. split; [done|]. split; [by rewrite Hi'|].
  intros k i Hk. destruct (H k i Hk) as (g & E1 & E2 & E3). exists g. rewrite Hg. split; [done|]. split; [done|].
  by apply lookup_app_l_Some.
Qed.

Lemma add_label_spec dt t cb a ds idx : holds_games a ds idx -> exists p a',
  add_label dt t cb a = Done (p, a') /\ holds_games a' (ds ++ [new_node dt (str_bytes t) cb]) idx /\
  (exists ps, menu_holds (menu a') (ps ++ [p]) (ds ++ [new_node dt (str_bytes t) cb])) /\
  same_counts a a' /\ system_entries a' = system_entries a.
Proof.
  intros H. destruct H as ((ps & Hm) & Hr) eqn:E0. clear E0.
  destruct (add_entry_spec (menu a) ps ds dt (str_bytes t) cb Hm) as (p & m & E & _ & Hm' & _).
  exists p, (set_menu m a). split; [by apply in_menu_Done|]. split; [|split; [by exists ps|by split]].
  apply (holds_games_app a); [by split; [exists ps|]|done|done|by exists (ps ++ [p])].
Qed.

(** Setting the title of the next game changes nothing that is listed. *)
Lemma update_next_spec f a ds idx : holds_games a ds idx -> (length idx < length (games a))%nat -> exists g a',
  update_game f a = Done (tt, a') /\ holds_games a' ds idx /\ same_counts a a' /\
  games a' !! games_index a' = Some (f g) /\ system_entries a' = system_entries a.
Proof.
  intros (Hm & Hi & H) Hl. destruct (lookup_lt_is_Some_2 (games a) (games_index a)) as [g Hg]; [by rewrite Hi|].
  destruct (update_game_Done f a g Hg) as (a' & E & E1 & E2 & E3 & E4 & E5 & E6). exists g, a'.
  split; [done|]. split; [|split; [split; [rewrite E3; apply length_insert|done]|done]].
  split; [by rewrite E2|]. split; [by rewrite E4|]. intros k i Hk. pose proof (lookup_lt_Some _ _ _ Hk).
  rewrite E3, list_lookup_insert_ne by lia. by apply H.
Qed.

Lemma gameAdd_spec tid ty a ds idx g : holds_games a ds idx -> games a !! games_index a = Some g ->
  exists a', gameAdd tid ty a = Done (tt, a') /\
  holds_games a' (ds ++ [game_node g]) (idx ++ [length ds]) /\ same_counts a a' /\
  system_entries a' = system_entries a.
Proof.
  intros ((ps & Hm) & Hi & H) Hg. unfold gameAdd.
  rewrite (sm_bind_Done _ _ _ _ _ (this_game_Done a g Hg)).
  destruct (add_entry_spec (menu a) ps ds MENU_NORMAL (title g) (Some gameEntryCB) Hm) as (p & m & E & _ & Hm' & _).
  rewrite (sm_bind_Done _ _ _ _ _ (in_menu_Done _ a p m E)).
  pose proof (holds_lengths _ _ _ Hm) as Hlen.
  destruct (links_at _ _ _ _ (holds_links _ _ _ Hm') (length ps) p) as (e & He & _ & _ & _ & Hx).
  { rewrite lookup_app_r, Nat.sub_diag by lia. done. }
  rewrite length_app, (proj2 (Nat.ltb_lt _ _)) in Hx by (cbn; lia).
  rewrite (sm_bind_Done _ _ _ _ _ (in_menu_Done (read p) (set_menu m a) e m (read_Done m p e He))).
  set (a1 := set_menu m (set_menu m a)). pose proof (lookup_lt_Some _ _ _ Hg) as Hlt.
  destruct (update_game_Done (set_menu_index (index e)) a1 g Hg) as (a2 & U2 & G2 & M2 & L2 & I2 & S2 & T2).
  rewrite (sm_bind_Done _ _ _ _ _ U2).
  destruct (update_game_Done (set_titleid (strncpy tid 20)) a2 _ G2) as (a3 & U3 & G3 & M3 & L3 & I3 & S3 & T3).
  rewrite (sm_bind_Done _ _ _ _ _ U3).
  destruct (update_game_Done (set_game_type ty) a3 _ G3) as (a4 & U4 & G4 & M4 & L4 & I4 & S4 & T4).
  rewrite (sm_bind_Done _ _ _ _ _ U4). eexists. split; [done|].
  assert (games_index a4 = games_index a) as Ei by (by rewrite I4, I3, I2).
  assert (menu a4 = m) as Em by (by rewrite M4, M3, M2).
  assert (length (games a4) = length (games a)) as El by (by rewrite L4, length_insert, L3, length_insert, L2, length_insert).
  split; [|split; [split; [done|cbn; by rewrite T4, T3, T2]|cbn; by rewrite S4, S3, S2]].
  split; [exists (ps ++ [p]); cbn; by rewrite Em|].
  split; [cbn; rewrite length_app; cbn; lia|].
  intros k i Hk. cbn. apply lookup_app_Some in Hk as [Hk|[Hk1 Hk2]].
  - pose proof (lookup_lt_Some _ _ _ Hk). destruct (H k i Hk) as (g' & E1 & E2 & E3). exists g'.
    rewrite L4, list_lookup_insert_ne, L3, list_lookup_insert_ne, L2, list_lookup_insert_ne by lia.
    split; [done|]. split; [done|]. by apply lookup_app_l_Some.
  - apply list_lookup_singleton_Some in Hk2 as [Hk2 <-]. assert (k = games_index a4) as -> by lia.
    eexists. split; [exact G4|]. cbn. split; [by rewrite Hx, Hlen|].
    rewrite lookup_app_r, Nat.sub_diag by lia. done.
Qed.

Lemma add_system_spec name a ds idx : holds_games a ds idx -> (length idx < length (games a))%nat ->
  exists a' n, add_system name a = Done (tt, a') /\ holds_games a' (ds ++ [n]) (idx ++ [length ds]) /\
  same_counts a a' /\ system_entries a' = system_entries a + 1.
Proof.
  intros H Hl. destruct (update_next_spec (set_title (strncpy (str_bytes name) 128)) a ds idx H Hl)
    as (g & a1 & E1 & H1 & (L1 & M1) & G1 & S1).
  destruct (gameAdd_spec (str_bytes "SYSTEM") SELF_SYSTEM a1 ds idx _ H1 G1) as (a2 & E2 & H2 & (L2 & M2) & S2).
  exists (set_system_entries (system_entries a2 + 1) a2), (game_node (set_title (strncpy (str_bytes name) 128) g)).
  unfold add_system. rewrite (sm_bind_Done _ _ _ _ _ E1), (sm_bind_Done _ _ _ _ _ E2). split; [done|].
  split; [exact H2|]. split; [split; cbn; congruence|]. cbn. congruence.
Qed.

(** Before any game is listed, the type of the entry just added *)
Lemma set_type_spec t a ds ps p : holds_games a ds [] -> menu_holds (menu a) (ps ++ [p]) ds -> exists a' ds',
  in_menu (update p (set_type t)) a = Done (tt, a') /\ holds_games a' ds' [] /\ length ds' = length ds /\
  same_counts a a' /\ system_entries a' = system_entries a.
Proof.
  intros (_ & Hi & _) Hm.
  destruct (links_at _ _ _ _ (holds_links _ _ _ Hm) (length ps) p) as (e & He & H1 & H2 & H3 & Hx).
  { rewrite lookup_app_r, Nat.sub_diag by lia. done. }
  pose proof (links_insert (entries (menu a)) (ps ++ [p]) ds _ (length ps) p e (set_type t) (holds_links _ _ _ Hm)) as Hins.
  exists (set_menu (set_entries (<[p := set_type t e]> (entries (menu a))) (menu a)) a),
    (<[length ps := data (set_type t e)]> ds).
  split; [apply in_menu_Done; by apply update_Done|]. split; [|split; [apply length_insert|by split]].
  split; [exists (ps ++ [p])|by split].
  destruct Hm as [Hl Hs He' Hx' Hsel]. split; [|exact Hs|exact He'|exact Hx'|exact Hsel].
  apply Hins; [|done..]. by rewrite lookup_app_r, Nat.sub_diag by lia.
Qed.

(** The head of the menu, by the number of entries so far *)
Definition listed (a : GameApp) (n : nat) (idx : list nat) : Prop :=
  exists ds, holds_games a ds idx /\ length ds = n.

(** What each step leaves alone *)
Definition step_ok (a a' : GameApp) (k : Z) : Prop :=
  same_counts a a' /\ system_entries a' = system_entries a + k.

Lemma label_step dt t cb a n idx : listed a n idx -> exists p a',
  add_label dt t cb a = Done (p, a') /\ listed a' (S n) idx /\ step_ok a a' 0.
Proof.
  intros (ds & H & Hn). destruct (add_label_spec dt t cb a ds idx H) as (p & a' & E & H' & _ & C & S).
  exists p, a'. split; [done|]. split; [|split; [done|lia]]. eexists. split; [exact H'|]. rewrite length_app. cbn. lia.
Qed.

Lemma typed_label_step {B} dt t cb ty a n (k : G B) : listed a n [] -> exists a',
  (p ← add_label dt t cb; _ ← in_menu (update p (set_type ty)); k) a = k a' /\
  listed a' (S n) [] /\ step_ok a a' 0.
Proof.
  intros (ds & H & Hn). destruct (add_label_spec dt t cb a ds [] H) as (p & a1 & E & H1 & (ps & Hp) & C & S).
  destruct (set_type_spec ty a1 _ ps p H1 Hp) as (a2 & ds2 & E2 & H2 & L2 & C2 & S2).
  exists a2. rewrite (sm_bind_Done _ _ _ _ _ E), (sm_bind_Done _ _ _ _ _ E2). split; [done|].
  split; [exists ds2; split; [done|rewrite L2, length_app; cbn; lia]|]. unfold step_ok, same_counts in *. lia.
Qed.

Lemma system_step name a n idx : listed a n idx -> (length idx < length (games a))%nat -> exists a',
  add_system name a = Done (tt, a') /\ listed a' (S n) (idx ++ [n]) /\ step_ok a a' 1.
Proof.
  intros (ds & H & Hn) Hl. destruct (add_system_spec name a ds idx H Hl) as (a' & nd & E & H' & C & S).
  exists a'. split; [done|]. split; [|by split]. eexists. rewrite <- Hn. split; [exact H'|].
  rewrite length_app. cbn. lia.
Qed.

(** Follows the chain of steps from the state that is [listed]. *)
Ltac head_step :=
  match goal with H : listed ?a ?n ?idx |- context [@mbind (SM GameApp) _ _ _ _ ?op ?a] =>
    let p := fresh "p" in let a' := fresh "a" in let E := fresh "E" in let H' := fresh "H" in
    let C := fresh "C" in
    lazymatch op with
    | add_label ?dt ?t ?cb =>
        destruct (label_step dt t cb a n idx H) as (p & a' & E & H' & C)
    | add_system ?name =>
        destruct (system_step name a n idx H) as (a' & E & H' & C);
        [unfold step_ok, same_counts in *; cbn [length app] in *; lia|]
    end; rewrite (sm_bind_Done _ _ _ _ _ E); cbv beta; clear E H
  end.
Ltac head_typed :=
  match goal with H : listed ?a ?n [] |- context [@mbind (SM GameApp) _ _ _ (fun p => in_menu (update p (set_type ?ty)) ≫= fun _ => ?k) (add_label ?dt ?t ?cb) ?a] =>
    let a' := fresh "a" in let E := fresh "E" in let H' := fresh "H" in let C := fresh "C" in
    destruct (typed_label_step dt t cb ty a n k H) as (a' & E & H' & C); rewrite E; clear E H
  end.

Lemma holds_create gs : holds_games (App (MenuCreate PANE_LEFT) gs 0 0 0) [] [].
Proof. split; [|by split]. exists []. apply (represents_create PANE_LEFT). Qed.

Lemma holds_entry_index a ds idx : holds_games a ds idx -> entry_index (menu a) = Z.of_nat (length ds).
Proof. intros ((ps & Hm) & _). rewrite (holds_index _ _ _ Hm). by rewrite <- (holds_lengths _ _ _ Hm). Qed.

Lemma head_menu_spec gs : (6 <= length gs)%nat -> exists a ds,
  head_menu (App (MenuCreate PANE_LEFT) gs 0 0 0) = Done (tt, a) /\
  holds_games a ds [6; 7; 8; 9; 10; 11]%nat /\ length ds = 13%nat /\ length (games a) = length gs /\
  menu_start_index a = 13 /\ system_entries a = 6.
Proof.
  intros Hgs. unfold head_menu. set (a0 := App _ gs 0 0 0).
  assert (listed a0 0 []) as H by (exists []; split; [apply holds_create|done]).
  assert (length (games a0) = length gs) as L0 by done. assert (system_entries a0 = 0) as S0 by done.
  clearbody a0. do 3 head_step. do 2 head_typed. do 8 head_step.
  match goal with H : listed ?a _ _ |- _ => destruct H as (ds & H & Hl); exists (set_menu_start (entry_index (menu a)) a), ds end.
  split; [reflexivity|]. split; [done|]. split; [done|].
  unfold step_ok, same_counts in *. cbn [games menu_start_index system_entries set_menu_start].
  split; [lia|]. split; [|lia]. by erewrite holds_entry_index, Hl by done.
Qed.

(** ** The whole list *)

Lemma str_take_all n s : (String.length s <= n)%nat -> str_take n s = s.
Proof.
  revert s. induction n as [|n IH]; intros [|c s] Hn; cbn in *; try done; [lia|]. by rewrite IH by lia.
Qed.

Section List.
Context (sceIoGetstat : string -> Z) (contents : string -> mem + Z).

Abbreviation pfs_of := (checkIfPFS sceIoGetstat).
Abbreviation buffer_of := (getSfoBuffer sceIoGetstat contents).

Lemma device_loop_ends size fmt t ds : (size <= PATH_MAX)%nat ->
  Forall (fun d => (String.length (fmt d t) < size)%nat) ds ->
  exists p, device_loop sceIoGetstat ds size fmt t = Done p.
Proof.
  intros Hsize. induction 1 as [|d ds Hd _ IH]; cbn [device_loop]; [by eexists|].
  unfold snprintf. rewrite str_take_all by lia. rewrite (proj2 (Nat.ltb_lt _ _) Hd). cbn [mbind run_bind].
  destruct (checkExists _ _ =? 0); [by eexists|done].
Qed.

Lemma either_path_ends size f g t : (size <= PATH_MAX)%nat ->
  (forall d, d ∈ DEVICES -> (String.length (f d t) < size)%nat /\ (String.length (g d t) < size)%nat) ->
  exists p, either_path sceIoGetstat size f g t = Done p.
Proof.
  intros Hsize H. unfold either_path, getPathDevice.
  destruct (device_loop_ends size f t DEVICES Hsize) as [p ->]; [apply Forall_forall; intros d Hd; by apply H|].
  destruct p as [p|]; [by exists (Some p)|]. cbn [mbind run_bind].
  apply device_loop_ends; [done|]. apply Forall_forall. intros d Hd. by apply H.
Qed.

Lemma device_length d : d ∈ DEVICES -> (String.length d <= 5)%nat.
Proof.
  revert d. apply Forall_forall. unfold DEVICES. repeat (constructor; [cbn; lia|]). constructor.
Qed.

Definition short_name (name : string) : Prop := (String.length name <= 107)%nat.

Lemma checkIfPFS_ends name : short_name name -> exists b, pfs_of name = Done b.
Proof.
  unfold short_name. intros Hn. unfold checkIfPFS. pose proof PATH_MAX_large.
  match goal with |- context [either_path _ 128 ?f ?g name] => destruct (either_path_ends 128 f g name) as [p ->] end.
  - lia.
  - intros d Hd. pose proof (device_length d Hd). rewrite !string_length_app. cbn. lia.
  - by eexists.
Qed.

Lemma getSfoBuffer_ends name : short_name name -> exists b, buffer_of name = Done b.
Proof.
  unfold short_name. intros Hn. unfold getSfoBuffer. pose proof PATH_MAX_large.
  match goal with |- context [either_path _ PATH_MAX ?f ?g name] =>
    destruct (either_path_ends PATH_MAX f g name) as [p ->] end.
  - done.
  - intros d Hd. pose proof (device_length d Hd). rewrite !string_length_app. cbn. lia.
  - cbn [mbind run_bind]. destruct p as [p|]; [|by eexists].
    destruct (_ <? sizeof_SfoHeader); [by eexists|]. destruct (ReadFile _ _ _). by eexists.
Qed.

(** The names that [gameCount] counts *)
Fixpoint pfs_count (names : list string) : nat :=
  match names with
  | [] => 0
  | name :: names' => (match pfs_of name with Done true => 1 | _ => 0 end) + pfs_count names'
  end.

Lemma count_loop_spec names k : Forall short_name names ->
  count_loop sceIoGetstat names k = Done (k + pfs_count names)%nat.
Proof.
  intros H. revert k. induction H as [|name names Hn _ IH]; intros k; cbn [count_loop pfs_count]; [f_equal; lia|].
  destruct (checkIfPFS_ends name Hn) as [b ->]. cbn [mbind run_bind]. rewrite IH. destruct b; f_equal; lia.
Qed.

(** After [n] games of the folder *)
Record games_at (a : GameApp) (n : nat) : Prop := {
  at_listed : listed a (13 + n) (seq 6 6 ++ seq 13 n);
  at_start : menu_start_index a = 13;
  at_system : system_entries a = 6;
}.

Definition sfo_ok (name : string) : Prop :=
  forall b, buffer_of name = Done (Some b) -> exists es, sfo_represents b es.

Lemma add_game_spec name a n : short_name name -> sfo_ok name -> games_at a n ->
  (6 + n + pfs_count [name] <= length (games a))%nat -> exists a' n',
  add_game sceIoGetstat contents name a = Done (tt, a') /\ games_at a' n' /\
  (n' <= n + pfs_count [name])%nat /\ length (games a') = length (games a).
Proof.
  intros Hn Hsfo Ha Hl. destruct Ha as [(ds & H & Hds) Hs Hy] eqn:E0. clear E0.
  unfold add_game. cbn [pfs_count] in *. destruct (checkIfPFS_ends name Hn) as [b Hb]. rewrite Hb in *.
  rewrite (sm_bind_Done (sm_lift (Done b)) _ a b a eq_refl).
  destruct b; [|exists a, n; split; [done|]; split; [done|]; split; [lia|done]].
  destruct (getSfoBuffer_ends name Hn) as [buf Hbuf]. rewrite Hbuf.
  rewrite (sm_bind_Done (sm_lift (Done buf)) _ a buf a eq_refl).
  destruct buf as [buf|]; [|exists a, n; split; [done|]; split; [done|]; split; [lia|done]].
  destruct (Hsfo buf Hbuf) as (es & Hes). rewrite (getSfoString_spec buf es _ _ Hes).
  2: { unfold nonzero. apply (bool_decide_unpack _). reflexivity. }
  match goal with |- context [sm_lift (Done ?r)] => rewrite (sm_bind_Done (sm_lift (Done r)) _ a r a eq_refl) end.
  destruct (sfo_lookup es _) as [v|]; cbn match; [|exists a, n; split; [done|]; split; [done|]; split; [lia|done]].
  change (0 =? 0) with true. cbn match. set (t := blank_newlines _).
  assert (length (seq 6 6 ++ seq 13 n) = 6 + n)%nat as Hidx by (rewrite length_app, !length_seq; done).
  destruct (update_next_spec (set_title t) a ds (seq 6 6 ++ seq 13 n) H
    ltac:(rewrite Hidx; lia)) as (g & a1 & E1 & H1 & (L1 & M1) & G1 & S1).
  rewrite (sm_bind_Done _ _ _ _ _ E1).
  destruct (gameAdd_spec (str_bytes name) SELF_NP a1 ds _ _ H1 G1) as (a2 & E2 & H2 & (L2 & M2) & S2).
  exists a2, (S n). split; [done|]. split; [|split; [lia|congruence]].
  split; [|congruence..]. exists (ds ++ [game_node (set_title t g)]). split; [|rewrite length_app, Hds; cbn; lia].
  replace (seq 13 (S n)) with (seq 13 n ++ [13 + n]%nat) by (by rewrite seq_S).
  rewrite app_assoc, <- Hds. exact H2.
Qed.

Lemma add_games_spec names : forall a n, Forall short_name names -> Forall sfo_ok names -> games_at a n ->
  (6 + n + pfs_count names <= length (games a))%nat -> exists a' n',
  add_games sceIoGetstat contents names a = Done (tt, a') /\ games_at a' n' /\
  (6 + n' <= length (games a'))%nat.
Proof.
  induction names as [|name names IH]; intros a n Hn Hs Ha Hl; cbn [add_games].
  { exists a, n. cbn in Hl. split; [done|]. split; [done|lia]. }
  apply Forall_cons in Hn as [Hn Hns]. apply Forall_cons in Hs as [Hs Hss].
  assert (pfs_count (name :: names) = pfs_count [name] + pfs_count names)%nat as Ec by (cbn; lia).
  destruct (add_game_spec name a n Hn Hs Ha ltac:(lia)) as (a1 & n1 & E & H1 & Hle & Hlen).
  rewrite (sm_bind_Done _ _ _ _ _ E). apply (IH a1 n1); [done..|lia].
Qed.

Lemma pfs_count_app xs ys : pfs_count (xs ++ ys) = (pfs_count xs + pfs_count ys)%nat.
Proof. induction xs as [|x xs IH]; [done|]. cbn. rewrite IH. lia. Qed.

(** The array of games is large enough for the folder, and menu and array
    agree: every game has an entry with its title, and the callback of that
    entry opens this game and no other. *)
Theorem game_menu_agrees names res junk : Forall short_name names -> Forall sfo_ok names ->
  sfo_ok "" -> pfs_of "" = Done false ->
  exists a, gameGenerateMenu sceIoGetstat contents (Some (names, res)) junk = Done (true, a) /\
  forall k, (k < games_index a)%nat -> exists g p e,
    gameGetGameFromIndex a (Z.of_nat k) = Some g /\
    MenuFindEntry (menu_index g) (menu a) = Done (Some p, menu a) /\ entries (menu a) !! p = Some e /\
    text e = strncpy (title g) text_size /\ click_cb e = Some gameEntryCB /\
    entry_game a (index e) = Some (Z.of_nat k).
Proof.
  intros Hn Hs Hs0 Hpfs. unfold gameGenerateMenu, gameCount.
  rewrite (count_loop_spec names 0 Hn). cbn [mbind run_bind Nat.add].
  destruct (head_menu_spec (replicate (pfs_count names + 6) junk)) as (a & ds & E & H & Hds & Hl & Hst & Hsy).
  { rewrite length_replicate. lia. }
  rewrite length_replicate in Hl.
  destruct (add_games_spec (names ++ if res =? 0 then [""%string] else []) a 0) as (a' & n & E' & Ha & Hfit).
  - apply Forall_app. split; [done|]. destruct (res =? 0); [|done]. apply Forall_singleton. unfold short_name. cbn. lia.
  - apply Forall_app. split; [done|]. destruct (res =? 0); [|done]. by apply Forall_singleton.
  - split; [|done..]. exists ds. split; [exact H|done].
  - rewrite pfs_count_app. assert (pfs_count (if res =? 0 then [""%string] else []) = 0%nat) as ->
      by (destruct (res =? 0); [cbn [pfs_count]; by rewrite Hpfs|done]). lia.
  - exists a'. split.
    + match goal with |- ?op ?s = _ => change (op s) with ((head_menu ≫= fun _ => add_games sceIoGetstat contents (names ++ if res =? 0 then [""%string] else []) ≫= fun _ => mret true) s) end.
      by rewrite (sm_bind_Done _ _ _ _ _ E), (sm_bind_Done _ _ _ _ _ E').
    + destruct Ha as [(ds' & ((ps & Hm) & Hi & Hall) & Hds') Hst' Hsy']. intros k Hk.
      rewrite Hi, length_app, !length_seq in Hk.
      assert (exists i, (seq 6 6 ++ seq 13 n) !! k = Some i /\ (i < 13 + n)%nat /\
        entry_game a' (Z.of_nat i) = Some (Z.of_nat k)) as (i & Hki & Hin & Hopen).
      { unfold entry_game. rewrite Hst', Hsy', Hi, length_app, !length_seq. destruct (decide (k < 6)%nat) as [H6|H6].
        - exists (6 + k)%nat. rewrite lookup_app_l, lookup_seq_lt by (rewrite ?length_seq; lia).
          split; [done|]. split; [lia|]. rewrite (proj2 (Z.ltb_lt _ _)) by lia. f_equal. lia.
        - exists (7 + k)%nat. rewrite lookup_app_r, length_seq, lookup_seq_lt by (rewrite ?length_seq; lia).
          split; [f_equal; lia|]. split; [lia|]. rewrite (proj2 (Z.ltb_ge _ _)), (proj2 (Z.leb_le _ _)) by lia. f_equal. lia. }
      destruct (Hall k i Hki) as (g & Hg & Hmi & Hd).
      destruct (lookup_lt_is_Some_2 ps i) as [p Hp]; [rewrite <- (holds_lengths _ _ _ Hm); lia|].
      destruct (links_at _ _ _ _ (holds_links _ _ _ Hm) i p Hp) as (e & He & _ & _ & He3 & Hx).
      rewrite (proj2 (Nat.ltb_lt _ _)) in Hx by (rewrite <- (holds_lengths _ _ _ Hm); lia).
      exists g, p, e. rewrite Hmi, (find_entry_spec _ _ _ i Hm), Hp.
      rewrite Hd in He3. injection He3 as H1 H2 H3 H4 H5. rewrite Hx.
      split; [unfold gameGetGameFromIndex; rewrite (proj2 (Z.ltb_ge _ _)), Nat2Z.id by lia; exact Hg|].
      split; [reflexivity|]. split; [exact He|]. split; [by symmetry|]. split; [by symmetry|exact Hopen].
Qed.
End List.

(** ** The theorems on a small file and a small device *)

(** Two entries, "A" with "xy" and "STITLE" with "Go" *)
Definition sample_sfo : mem :=
  le 4 SFO_MAGIC ++ le 4 0x101 ++ le 4 52 ++ le 4 61 ++ le 4 2 ++
  (le 2 0 ++ [0; 2] ++ le 4 3 ++ le 4 3 ++ le 4 0) ++ (le 2 2 ++ [0; 2] ++ le 4 3 ++ le 4 3 ++ le 4 3) ++
  [65; 0] ++ str_bytes "STITLE" ++ [0] ++ [120; 121; 0] ++ [71; 111; 0].
Definition sample_es : list (mem * mem) := [([65], [120; 121]); (str_bytes "STITLE", [71; 111])].

Lemma nonzero_dec s : forallb (fun b => negb (b =? 0)) s = true -> nonzero s.
Proof.
  intros H. apply Forall_forall. intros b Hb. rewrite forallb_forall in H.
  apply list_elem_of_In, H in Hb. destruct (Z.eqb_spec b 0); [done|done].
Qed.

Lemma spells_by m off s : nonzero s -> 0 <= off ->
  m = take (Z.to_nat off) m ++ s ++ 0 :: drop (Z.to_nat off + length s + 1) m ->
  (Z.to_nat off <= length m)%nat -> spells m off s.
Proof.
  intros Hs H0 Hm Hl. split; [done|]. eexists _, _. split; [exact Hm|]. unfold mlen. rewrite length_take. lia.
Qed.

Lemma sample_sfo_represents : sfo_represents sample_sfo sample_es.
Proof.
  split; [reflexivity..|]. exists 52, 61. split; [reflexivity|]. split; [reflexivity|].
  intros [|[|i]] e [= <-].
  - exists 0, 0. split; [reflexivity|]. split; [reflexivity|].
    split; (apply spells_by; [by apply nonzero_dec|lia|reflexivity|cbn; lia]).
  - exists 2, 3. split; [reflexivity|]. split; [reflexivity|].
    split; (apply spells_by; [by apply nonzero_dec|lia|reflexivity|cbn; lia]).
Qed.

Lemma getSfoString_finds_witness : exists s,
  getSfoString sample_sfo (str_bytes "STITLE") (replicate 8 1) = Done (0, s) /\ length s = 8%nat /\
  until_nul s = [71; 111].
Proof.
  exact (getSfoString_finds sample_sfo sample_es (str_bytes "STITLE") (replicate 8 1) sample_sfo_represents
    (nonzero_dec (str_bytes "STITLE") eq_refl) ltac:(cbn; lia)).
Defined.

(** One encrypted application, ABCD *)
Definition sample_stat (path : string) : Z :=
  if bool_decide (path = "gro0:/app/ABCD/sce_pfs"%string \/ path = "gro0:/app/ABCD/sce_sys/param.sfo"%string)
  then 0 else -1.
Definition sample_contents (path : string) : mem + Z := inl sample_sfo.

Lemma game_menu_agrees_witness : exists a,
  gameGenerateMenu sample_stat sample_contents (Some (["ABCD"; "EFGH"]%string, 0)) (Game [] [] SELF_NP 0) = Done (true, a) /\
  forall k, (k < games_index a)%nat -> exists g p e,
    gameGetGameFromIndex a (Z.of_nat k) = Some g /\
    MenuFindEntry (menu_index g) (menu a) = Done (Some p, menu a) /\ entries (menu a) !! p = Some e /\
    text e = strncpy (title g) text_size /\ click_cb e = Some gameEntryCB /\
    entry_game a (index e) = Some (Z.of_nat k).
Proof.
  assert (forall name, sfo_ok sample_stat sample_contents name) as Hsfo.
  { intros name b Hb. unfold getSfoBuffer in Hb. run_inv. destruct x as [path|]; [|done].
    change (u32 (getFileSize sample_contents path) <? sizeof_SfoHeader) with false in *.
    change (ReadFile sample_contents path (u32 (getFileSize sample_contents path))) with (mlen sample_sfo, sample_sfo) in *.
    change (mlen sample_sfo <? 0) with false in *. cbv iota beta zeta in *. simplify_eq. exists sample_es.
    apply sample_sfo_represents. }
  apply (game_menu_agrees sample_stat sample_contents ["ABCD"; "EFGH"]%string 0 (Game [] [] SELF_NP 0)).
  - repeat constructor; unfold short_name; cbn; lia.
  - by repeat constructor.
  - done.
  - vm_compute. reflexivity.
Defined.
