(* ===== verification/FagScan.v ===== *)
(** * The search for modules of FAGDec (FAGDec/src/app/dump.c)

    A thread walks the folders of a game and enters every file that begins
    with the magic number of SELF files into a menu, until the user goes back,
    which sets [force_end].  The folders and files are given by functions;
    [stop n] is the value of [force_end] when it is looked at for the [n]th
    time.  The menu is that of [FagMenu].  The paths that are made of the
    entries later are here too. *)

From stdpp Require Import prelude gmap strings.
From S2P Require Import Prelude Bytes CString Hoare ElfTools FagMenu FagGame.

(** ** Walking the folders *)

Definition dumpModuleMenuEntryCB_id : Z := 4.
Definition dumpAllCB_id : Z := 5.
Definition dumpModuleEntryBackCB_id : Z := 6.

(** The menu being filled, how often [force_end] was looked at, and the
    folders that are open *)
Record scan := Scan { scan_menu : Menu; polls : nat; opened : Z }.
Abbreviation W := (SM scan).

Definition hasEndSlash (path : string) : run bool :=
  match String.get (String.length path - 1) path with
  | Some c => Done ((Ascii.nat_of_ascii c =? 47)%nat)
  | None => Fault FMem
  end.

Section Walk.
(** What opening a folder gives, its names and whether they are folders; what
    opening a file gives; what is in [self_buffer] before it is read into;
    [force_end] *)
Context (sceIoDopen : string -> option (list (string * bool))) (contents : string -> mem + Z).
Context (junk : mem) (stop : nat -> bool).

Definition checkSceHeader (file : string) : Z :=
  let '(res, bs) := ReadFile contents file 4 in
  if 0 <? res then
    (if foldr (fun b r => b + 256 * r) 0 (bs ++ drop (length bs) junk) =? SCE_MAGIC then 1 else 0)
  else res.

Definition force_end : W bool :=
  n ← sm_gets polls;
  _ ← sm_modify (fun s => Scan (scan_menu s) (S n) (opened s));
  mret (stop n).

Definition scan_in_menu {A} (op : SM Menu A) : W A := fun s =>
  match op (scan_menu s) with
  | Done (x, m) => Done (x, Scan m (polls s) (opened s))
  | Fault f => Fault f
  | OutOfFuel => OutOfFuel
  end.

Definition set_opened (d : Z) : W unit :=
  sm_modify (fun s => Scan (scan_menu s) (polls s) (opened s + d)).

(** [if(checkSceHeader(path)==1 && !force_end && menu) MenuAddEntry(...)] *)
Definition add_if_sce (path : string) : W unit :=
  if checkSceHeader path =? 1 then
    f ← force_end;
    if f : bool then mret tt
    else _ ← scan_in_menu (MenuAddEntry MENU_NORMAL (str_bytes path) (Some dumpModuleMenuEntryCB_id)); mret tt
  else mret tt.

Definition sub_path (path name : string) : run string :=
  slash ← hasEndSlash path;
  Done (str_take (PATH_MAX - 2) (path +:+ (if slash : bool then "" else "/") +:+ name)).

(** The loop over the names of a folder; [rec] is the call for a folder in
    it.  The result tells whether the function returns from inside the loop. *)
Fixpoint entry_loop (rec : string -> W Z) (path : string) (dirs : list (string * bool)) : W bool :=
  match dirs with
  | [] => mret false
  | (name, is_dir) :: dirs' =>
      f ← force_end;
      if f : bool then mret true
      else
        new_path ← sm_lift (sub_path path name);
        if is_dir : bool then
          r ← rec new_path;
          if r <? 0 then mret false else entry_loop rec path dirs'
        else _ ← add_if_sce new_path; entry_loop rec path dirs'
  end.

(** [fuel]: more than the folders are deep *)
Fixpoint dumpParseFolder (fuel : nat) (path : string) : W Z :=
  match fuel with
  | O => fun _ => OutOfFuel
  | S fuel' =>
      f ← force_end;
      if f : bool then mret (-1)
      else
        match sceIoDopen path with
        | Some dirs =>
            _ ← set_opened 1;
            returned ← entry_loop (dumpParseFolder fuel') path dirs;
            if returned : bool then mret (-1) else _ ← set_opened (-1); mret 1
        | None => _ ← add_if_sce path; mret 1
        end
  end.

(** ** The thread that fills the menu *)

Fixpoint scan_devices (fuel : nat) (devices : list string) (titleid : string) : W unit :=
  match devices with
  | [] => mret tt
  | d :: devices' =>
      p ← sm_lift (snprintf PATH_MAX (d +:+ "/patch/" +:+ titleid));
      _ ← dumpParseFolder fuel p;
      p ← sm_lift (snprintf PATH_MAX (d +:+ "/app/" +:+ titleid));
      _ ← dumpParseFolder fuel p;
      scan_devices fuel devices' titleid
  end.

Definition set_text (t : mem) (e : MenuEntry) : MenuEntry :=
  Entry (draw_type e) (FagMenu.type e) (entry_active e) (index e) t (click_cb e) (next e) (prev e).

(** [mounted]: the result of [gamePfsDecrypt]; the call of [sceAppMgrUmount]
    behind the scan is left out. *)
Definition dumpPopulateThread (fuel : nat) (type : GameType) (title titleid : string) (mounted : Z) : W unit :=
  p ← scan_in_menu (MenuAddEntry MENU_NORMAL (str_bytes "DECRYPT ALL (CURRENTLY LOOKING FOR MODULES...)") (Some dumpAllCB_id));
  _ ← scan_in_menu (update p (set_type MENU_WARNING));
  p ← scan_in_menu (MenuAddEntry MENU_NORMAL (str_bytes "Back to main menu") (Some dumpModuleEntryBackCB_id));
  _ ← scan_in_menu (update p (set_type MENU_BACK));
  _ ← (match type with
       | SELF_SYSTEM => _ ← dumpParseFolder fuel title; mret tt
       | SELF_NP => if 0 <=? mounted then scan_devices fuel DEVICES titleid else mret tt
       end);
  entry ← scan_in_menu (MenuFindType MENU_WARNING);
  p ← sm_lift (not_null entry);
  _ ← scan_in_menu (update p (set_type MENU_NONE));
  scan_in_menu (update p (set_text (strncpy (str_bytes "DECRYPT ALL(DONE)") text_size))).
End Walk.

(** ** The tree of files and its modules *)

Inductive fnode := NFile (content : mem + Z) | NDir (children : list (string * fnode)).

Definition is_dir (n : fnode) : bool := match n with NDir _ => true | NFile _ => false end.

Fixpoint depth (n : fnode) : nat :=
  match n with
  | NFile _ => 0
  | NDir ch => S (foldr (fun x d => max (depth x.2) d) 0%nat ch)
  end.

Definition join (path name : string) : string :=
  path +:+ (match hasEndSlash path with Done true => "" | _ => "/" end) +:+ name.

Section Tree.
Context (sceIoDopen : string -> option (list (string * bool))) (contents : string -> mem + Z).
Context (junk : mem) (stop : nat -> bool).
(** Once set, [force_end] stays. *)
Context (Hstop : forall n m, (n <= m)%nat -> stop n = true -> stop m = true).

(** The tree [n] is what the functions show at [path]. *)
Inductive fs_at : string -> fnode -> Prop :=
  | at_file path c : sceIoDopen path = None -> contents path = c -> fs_at path (NFile c)
  | at_dir path ch : path <> ""%string ->
      sceIoDopen path = Some ((fun x => (x.1, is_dir x.2)) <$> ch) ->
      (forall x, x ∈ ch -> (String.length (join path x.1) <= PATH_MAX - 2)%nat) ->
      (forall x, x ∈ ch -> fs_at (join path x.1) x.2) ->
      fs_at path (NDir ch).

(** Its modules, in the order of the walk *)
Fixpoint sce_files (path : string) (n : fnode) : list string :=
  match n with
  | NFile _ => if checkSceHeader contents junk path =? 1 then [path] else []
  | NDir ch => flat_map (fun x => sce_files (join path x.1) x.2) ch
  end.

Definition module_node (path : string) : FagMenu.node :=
  new_node MENU_NORMAL (str_bytes path) (Some dumpModuleMenuEntryCB_id).

(** From [s] to [s'] a prefix of [files] was entered, all of it unless
    [force_end] is set by now, nothing if it was set before. *)
Record entered (s s' : scan) (files : list string) : Prop := {
  ent_polls : (polls s <= polls s')%nat;
  ent_menu : forall ps ds, menu_holds (scan_menu s) ps ds -> exists ps' l,
    menu_holds (scan_menu s') (ps ++ ps') (ds ++ (module_node <$> l)) /\ l `prefix_of` files /\
    (l = files \/ stop (polls s') = true) /\ (stop (polls s) = true -> l = []);
}.

Lemma entered_refl s : entered s s [].
Proof.
  split; [done|]. intros ps ds H. exists [], []. rewrite !app_nil_r. split; [done|].
  split; [done|]. split; [by left|done].
Qed.

Lemma entered_frame s s' files : (polls s <= polls s')%nat -> scan_menu s' = scan_menu s ->
  stop (polls s') = true \/ files = [] -> entered s s' files.
Proof.
  intros Hp Hm Hs. split; [done|]. intros ps ds H. exists [], []. rewrite !app_nil_r, Hm. split; [done|].
  split; [apply prefix_nil|]. split; [|done]. destruct Hs as [Hs| ->]; [by right|by left].
Qed.

Lemma entered_trans s s1 s2 f1 f2 : entered s s1 f1 -> entered s1 s2 f2 -> entered s s2 (f1 ++ f2).
Proof.
  intros [P1 M1] [P2 M2]. split; [lia|]. intros ps ds H.
  destruct (M1 ps ds H) as (ps1 & l1 & H1 & Hp1 & He1 & Hn1).
  destruct (M2 _ _ H1) as (ps2 & l2 & H2 & Hp2 & He2 & Hn2).
  exists (ps1 ++ ps2), (l1 ++ l2). rewrite fmap_app, !app_assoc. split; [done|].
  destruct He1 as [->|He1].
  - split; [by apply prefix_app|]. split; [destruct He2 as [->|]; [by left|by right]|].
    intros Hs. rewrite (Hn1 Hs). apply Hn2. by apply (Hstop (polls s)).
  - rewrite (Hn2 He1), app_nil_r. split; [by apply prefix_app_r|].
    split; [right; by apply (Hstop (polls s1))|done].
Qed.

(** A walk that stops goes on with nothing. *)
Lemma entered_stopped s s' f1 f2 : entered s s' f1 -> stop (polls s') = true -> entered s s' (f1 ++ f2).
Proof.
  intros H Hs. eapply entered_trans; [exact H|]. apply entered_frame; [done|done|by left].
Qed.

Lemma force_end_step s : force_end stop s =
  Done (stop (polls s), Scan (scan_menu s) (S (polls s)) (opened s)).
Proof. done. Qed.

Lemma set_opened_step d s : set_opened d s = Done (tt, Scan (scan_menu s) (polls s) (opened s + d)).
Proof. done. Qed.

Lemma add_if_sce_spec path s : menu_ok (scan_menu s) -> exists s',
  add_if_sce contents junk stop path s = Done (tt, s') /\
  entered s s' (if checkSceHeader contents junk path =? 1 then [path] else []) /\
  opened s' = opened s /\ menu_ok (scan_menu s').
Proof.
  intros (ps0 & ds0 & Hok). unfold add_if_sce. destruct (checkSceHeader _ _ path =? 1).
  2: { exists s. split; [done|]. split; [apply entered_refl|]. split; [done|]. by exists ps0, ds0. }
  rewrite (sm_bind_Done _ _ _ _ _ (force_end_step s)). set (s1 := Scan _ _ _).
  destruct (stop (polls s)) eqn:Es.
  - exists s1. split; [done|]. split; [|split; [done|by exists ps0, ds0]].
    apply entered_frame; [cbn; lia|done|left]. apply (Hstop (polls s)); [cbn; lia|done].
  - destruct (add_entry_spec (scan_menu s) ps0 ds0 MENU_NORMAL (str_bytes path) (Some dumpModuleMenuEntryCB_id) Hok)
      as (p & m & E & _ & Hm & _).
    exists (Scan m (S (polls s)) (opened s)). split; [|split; [|split; [done|by exists (ps0 ++ [p]), (ds0 ++ [module_node path])]]].
    + unfold scan_in_menu, mbind, sm_bind. cbn [scan_menu s1]. by rewrite E.
    + split; [cbn; lia|]. intros ps ds H.
      destruct (add_entry_spec (scan_menu s) ps ds MENU_NORMAL (str_bytes path) (Some dumpModuleMenuEntryCB_id) H)
        as (p' & m' & E' & _ & Hm' & _).
      rewrite E in E'. injection E' as <- <-. exists [p], [path]. cbn [scan_menu polls].
      split; [exact Hm'|]. split; [done|]. split; [by left|congruence].
Qed.

Lemma sub_path_join path name : path <> ""%string ->
  (String.length (join path name) <= PATH_MAX - 2)%nat -> sub_path path name = Done (join path name).
Proof.
  intros Hp Hl. unfold sub_path, join in *.
  assert (exists b, hasEndSlash path = Done b) as [b Hb].
  { unfold hasEndSlash. destruct (String.get _ path) eqn:E; [by eexists|]. exfalso.
    destruct path as [|c path]; [done|]. clear -E. cbn [String.length Nat.sub] in E. rewrite Nat.sub_0_r in E.
    revert c E. induction path as [|c' path IH]; intros c E; [done|]. cbn [String.length String.get] in E. by apply (IH c'). }
  rewrite Hb in *. cbn [mbind run_bind]. destruct b; by rewrite str_take_all.
Qed.

(** What a walk over [files] guarantees; [quiet]: nobody goes back. *)
Definition quiet : Prop := forall n, stop n = false.
Definition walked {A} (good : A -> Prop) (s : scan) (m : run (A * scan)) (files : list string) : Prop :=
  exists r s', m = Done (r, s') /\ entered s s' files /\ menu_ok (scan_menu s') /\
    (good r \/ stop (polls s') = true) /\ (quiet -> opened s' = opened s).

Lemma entry_loop_spec rec path ch : path <> ""%string ->
  (forall x, x ∈ ch -> (String.length (join path x.1) <= PATH_MAX - 2)%nat) ->
  (forall x, x ∈ ch -> is_dir x.2 = false -> exists c, x.2 = NFile c) ->
  (forall x, x ∈ ch -> is_dir x.2 = true -> forall s, menu_ok (scan_menu s) ->
     walked (fun r => r = 1) s (rec (join path x.1) s) (sce_files (join path x.1) x.2)) ->
  forall s, menu_ok (scan_menu s) ->
  walked (fun r => r = false) s (entry_loop contents junk stop rec path ((fun x => (x.1, is_dir x.2)) <$> ch) s)
    (flat_map (fun x => sce_files (join path x.1) x.2) ch).
Proof.
  intros Hp. induction ch as [|[name n] ch IH]; intros Hlen Hfile Hrec s Hs; cbn [entry_loop fmap list_fmap flat_map].
  { exists false, s. split; [done|]. split; [apply entered_refl|]. split; [done|]. split; [by left|done]. }
  rewrite (sm_bind_Done _ _ _ _ _ (force_end_step s)). set (s1 := Scan _ _ _).
  destruct (stop (polls s)) eqn:Es.
  { exists true, s1. assert (stop (polls s1) = true) as E1 by (apply (Hstop (polls s)); [cbn; lia|done]).
    split; [done|]. split; [by apply entered_frame; [cbn; lia|done|left]|]. split; [done|]. split; [by right|].
    intros Hq. by rewrite Hq in Es. }
  assert (entered s s1 []) as Hent1 by (apply entered_frame; [cbn; lia|done|by right]).
  specialize (IH ltac:(intros x Hx; apply Hlen; by right) ltac:(intros x Hx; apply Hfile; by right)
    ltac:(intros x Hx; apply Hrec; by right)).
  unfold sm_lift at 1. rewrite sub_path_join by (done || (apply (Hlen (name, n)); by left)).
  unfold mbind at 1, sm_bind at 1. cbn [mbind run_bind fst snd].
  destruct (is_dir n) eqn:Ed.
  - destruct (Hrec (name, n) ltac:(by left) Ed s1 Hs) as (r & s2 & E & Hent & Hok & Hr & Hopen). cbn [fst snd] in *.
    rewrite (sm_bind_Done _ _ _ _ _ E). pose proof (entered_trans _ _ _ _ _ Hent1 Hent) as Hent2. cbn [app] in Hent2.
    destruct (r <? 0) eqn:Er.
    + assert (stop (polls s2) = true) as E2 by (destruct Hr as [->|]; done).
      exists false, s2. split; [done|]. split; [by apply entered_stopped|]. split; [done|]. split; [by left|done].
    + destruct (IH s2 Hok) as (r' & s3 & E3 & Hent3 & Hok3 & Hr3 & Hopen3). exists r', s3.
      split; [done|]. split; [by eapply entered_trans|]. split; [done|]. split; [done|].
      intros Hq. rewrite Hopen3, Hopen by done. done.
  - destruct (Hfile (name, n) ltac:(by left) Ed) as [c Hc]. cbn [snd] in Hc. subst n.
    destruct (add_if_sce_spec (join path name) s1 Hs) as (s2 & E & Hent & Hopen & Hok).
    rewrite (sm_bind_Done _ _ _ _ _ E). pose proof (entered_trans _ _ _ _ _ Hent1 Hent) as Hent2. cbn [app] in Hent2.
    destruct (IH s2 Hok) as (r' & s3 & E3 & Hent3 & Hok3 & Hr3 & Hopen3). exists r', s3.
    split; [done|]. split; [by eapply entered_trans|]. split; [done|]. split; [done|].
    intros Hq. by rewrite Hopen3, Hopen by done.
Qed.

Lemma depth_child (ch : list (string * fnode)) x : x ∈ ch -> (depth x.2 < depth (NDir ch))%nat.
Proof.
  cbn [depth]. induction ch as [|y ch IH]; intros Hx; [by apply not_elem_of_nil in Hx|]. cbn [foldr].
  apply elem_of_cons in Hx as [->|Hx]; [lia|]. specialize (IH Hx). lia.
Qed.

Lemma walk_spec fuel : forall path n s, fs_at path n -> (depth n < fuel)%nat -> menu_ok (scan_menu s) ->
  walked (fun r => r = 1) s (dumpParseFolder sceIoDopen contents junk stop fuel path s) (sce_files path n).
Proof.
  induction fuel as [|fuel IH]; intros path n s Hfs Hd Hs; [lia|]. cbn [dumpParseFolder].
  rewrite (sm_bind_Done _ _ _ _ _ (force_end_step s)). set (s1 := Scan _ _ _).
  destruct (stop (polls s)) eqn:Es.
  { exists (-1), s1. assert (stop (polls s1) = true) as E1 by (apply (Hstop (polls s)); [cbn; lia|done]).
    split; [done|]. split; [by apply entered_frame; [cbn; lia|done|left]|]. split; [done|]. split; [by right|].
    intros Hq. by rewrite Hq in Es. }
  assert (entered s s1 []) as Hent1 by (apply entered_frame; [cbn; lia|done|by right]).
  destruct Hfs as [path c Hno Hc|path ch Hp Hopen Hlen Hch].
  - rewrite Hno. destruct (add_if_sce_spec path s1 Hs) as (s2 & E & Hent & Hop & Hok).
    rewrite (sm_bind_Done _ _ _ _ _ E). exists 1, s2. split; [done|].
    split; [by eapply (entered_trans _ _ _ [])|]. split; [done|]. split; [by left|done].
  - rewrite Hopen. rewrite (sm_bind_Done _ _ _ _ _ (set_opened_step 1 s1)). set (s2 := Scan (scan_menu s1) _ _).
    destruct (entry_loop_spec (dumpParseFolder sceIoDopen contents junk stop fuel) path ch Hp Hlen) with (s := s2)
      as (r & s3 & E & Hent & Hok & Hr & Hop); [| |done|].
    { intros [name [c|ch']] Hx Hf; [by exists c|done]. }
    { intros x Hx Hdir s' Hs'. apply IH; [by apply Hch| |done]. pose proof (depth_child ch x Hx). lia. }
    rewrite (sm_bind_Done _ _ _ _ _ E).
    assert (entered s s3 (sce_files path (NDir ch))) as Hent3.
    { eapply (entered_trans _ s2 _ []); [|exact Hent]. by apply entered_frame; [cbn; lia|done|right]. }
    destruct r.
    + assert (stop (polls s3) = true) as E3 by (by destruct Hr). exists (-1), s3.
      split; [done|]. split; [done|]. split; [done|]. split; [by right|]. intros Hq. by rewrite Hq in E3.
    + exists 1, (Scan (scan_menu s3) (polls s3) (opened s3 + -1)). split; [done|].
      split; [destruct Hent3; by split|]. split; [done|]. split; [by left|].
      intros Hq. cbn. rewrite Hop by done. cbn. lia.
Qed.

(** *** The thread *)

(** The folders that the thread walks *)
Definition device_roots (titleid : string) (d : string) : list string :=
  [d +:+ "/patch/" +:+ titleid; d +:+ "/app/" +:+ titleid]%string.
Definition roots (type : GameType) (title titleid : string) (mounted : Z) : list string :=
  match type with
  | SELF_SYSTEM => [title]
  | SELF_NP => if 0 <=? mounted then flat_map (device_roots titleid) DEVICES else []
  end.

Context (tree : string -> fnode) (fuel : nat).
Abbreviation modules_of := (flat_map (fun p => sce_files p (tree p))).

Lemma snprintf_fits n p : (String.length p < n)%nat -> (n <= PATH_MAX)%nat -> snprintf n p = Done p.
Proof.
  intros Hp Hn. unfold snprintf. rewrite str_take_all by lia. by rewrite (proj2 (Nat.ltb_lt _ _) Hp).
Qed.

Lemma scan_devices_spec devices titleid : (String.length titleid <= 100)%nat ->
  (forall d, d ∈ devices -> (String.length d <= 5)%nat) ->
  (forall p, p ∈ flat_map (device_roots titleid) devices -> fs_at p (tree p) /\ (depth (tree p) < fuel)%nat) ->
  forall s, menu_ok (scan_menu s) ->
  walked (fun _ => True) s (scan_devices sceIoDopen contents junk stop fuel devices titleid s)
    (modules_of (flat_map (device_roots titleid) devices)).
Proof.
  intros Ht. induction devices as [|d devices IH]; intros Hd Hp s Hs; cbn [scan_devices flat_map].
  { exists tt, s. split; [done|]. split; [apply entered_refl|]. split; [done|]. split; [by left|done]. }
  pose proof PATH_MAX_large as Hmax. pose proof (Hd d ltac:(by left)) as Hdl. cbn [flat_map device_roots app] in Hp.
  rewrite !snprintf_fits by (rewrite ?string_length_app; cbn; lia).
  rewrite (sm_bind_Done (sm_lift (Done (d +:+ "/patch/" +:+ titleid))) _ s _ s eq_refl).
  destruct (Hp (d +:+ "/patch/" +:+ titleid)%string ltac:(by left)) as [F1 D1].
  destruct (Hp (d +:+ "/app/" +:+ titleid)%string ltac:(right; by left)) as [F2 D2].
  destruct (walk_spec fuel _ _ s F1 D1 Hs) as (r1 & s1 & E1 & H1 & O1 & _ & Q1).
  destruct (walk_spec fuel _ _ s1 F2 D2 O1) as (r2 & s2 & E2 & H2 & O2 & _ & Q2).
  destruct (IH ltac:(intros x Hx; apply Hd; by right) ltac:(intros x Hx; apply Hp; by do 2 right) s2 O2)
    as (r3 & s3 & E3 & H3 & O3 & _ & Q3).
  rewrite (sm_bind_Done _ _ _ _ _ E1), (sm_bind_Done (sm_lift (Done (d +:+ "/app/" +:+ titleid))) _ s1 _ s1 eq_refl),
    (sm_bind_Done _ _ _ _ _ E2).
  exists r3, s3. split; [exact E3|]. split.
  - cbn [app device_roots flat_map]. eapply entered_trans; [exact H1|]. by eapply entered_trans.
  - split; [done|]. split; [by left|]. intros Hq. by rewrite Q3, Q2, Q1 by done.
Qed.

(** What the thread leaves in the menu before the modules *)
Definition done_node : FagMenu.node :=
  (MENU_NORMAL, MENU_NONE, 0, strncpy (str_bytes "DECRYPT ALL(DONE)") text_size, Some dumpAllCB_id).
Definition back_node : FagMenu.node :=
  (MENU_NORMAL, MENU_BACK, 0, strncpy (str_bytes "Back to main menu") text_size, Some dumpModuleEntryBackCB_id).

Lemma scan_in_menu_Done {A} (op : SM Menu A) s x m : op (scan_menu s) = Done (x, m) ->
  scan_in_menu op s = Done (x, Scan m (polls s) (opened s)).
Proof. intros E. unfold scan_in_menu. by rewrite E. Qed.

Lemma update_at f m ps ds j p : menu_holds m ps ds -> ps !! j = Some p ->
  (forall e, next (f e) = next e /\ prev (f e) = prev e /\ index (f e) = index e) ->
  exists e m', update p f m = Done (tt, m') /\ ds !! j = Some (data e) /\
    menu_holds m' ps (<[j := data (f e)]> ds).
Proof.
  intros Hm Hp Hf. destruct (links_at _ _ _ _ (holds_links _ _ _ Hm) j p Hp) as (e & He & _ & _ & Hd & _).
  destruct (Hf e) as (F1 & F2 & F3). eexists e, _. split; [by apply update_Done|]. split; [done|].
  pose proof (links_insert _ _ _ _ _ _ _ f (holds_links _ _ _ Hm) Hp He F1 F2 F3) as Hl.
  destruct Hm as [_ Hs He' Hx Hsel]. by split.
Qed.

Lemma last_of_type_app ds l t j : ds !! j = Some l -> node_type l = t -> forall n, (j < n)%nat ->
  (forall i d, (j < i < n)%nat -> ds !! i = Some d -> node_type d <> t) -> last_of_type ds t n = Some j.
Proof.
  intros Hj Ht. induction n as [|n IH]; intros Hn Hno; [lia|]. cbn [last_of_type].
  destruct (decide (n = j)) as [->|Hne].
  - rewrite Hj. by rewrite bool_decide_eq_true_2.
  - assert (last_of_type ds t n = Some j) as -> by (apply IH; [lia|]; intros i d Hi; apply Hno; lia).
    destruct (ds !! n) as [d|] eqn:Ed; [|done]. rewrite bool_decide_eq_false_2; [done|].
    apply (Hno n d); [lia|done].
Qed.

Definition typed_node (t : string) (cb : Z) (ty : MenuType) : FagMenu.node :=
  (MENU_NORMAL, ty, 0, strncpy (str_bytes t) text_size, Some cb).

Lemma typed_entry_spec {A} t cb ty s ps ds (k : W A) : menu_holds (scan_menu s) ps ds -> exists p m,
  (p ← scan_in_menu (MenuAddEntry MENU_NORMAL (str_bytes t) (Some cb)); _ ← scan_in_menu (update p (set_type ty)); k) s
    = k (Scan m (polls s) (opened s)) /\
  menu_holds m (ps ++ [p]) (ds ++ [typed_node t cb ty]).
Proof.
  intros H. destruct (add_entry_spec _ ps ds MENU_NORMAL (str_bytes t) (Some cb) H) as (p & m & E & _ & Hm & _).
  assert ((ps ++ [p]) !! length ps = Some p) as Hp by (by rewrite lookup_app_r, Nat.sub_diag by lia).
  destruct (update_at (set_type ty) m _ _ _ _ Hm Hp) as (e & m' & E' & Hd & Hm'); [done|].
  exists p, m'. rewrite (sm_bind_Done _ _ _ _ _ (scan_in_menu_Done _ s _ _ E)).
  rewrite (sm_bind_Done _ _ _ _ _ (scan_in_menu_Done (update p (set_type ty)) (Scan m (polls s) (opened s)) tt m' E')).
  split; [done|]. rewrite <- (holds_lengths _ _ _ H) in Hd, Hm'.
  rewrite lookup_app_r, Nat.sub_diag in Hd by lia. injection Hd as D1 D2 D3 D4 D5.
  rewrite insert_app_r_alt, Nat.sub_diag in Hm' by lia. unfold data in Hm'. cbn [draw_type entry_active text click_cb FagMenu.type set_type list_insert] in Hm'.
  rewrite <- D1, <- D3, <- D4, <- D5 in Hm'. exact Hm'.
Qed.

(** The entry that shows the search is found again behind any modules. *)
Lemma found_again ds l : last_of_type (ds ++ [typed_node "DECRYPT ALL (CURRENTLY LOOKING FOR MODULES...)" dumpAllCB_id MENU_WARNING; back_node] ++
    (module_node <$> l)) MENU_WARNING (length ds + 2 + length l) = Some (length ds).
Proof.
  apply (last_of_type_app _ (typed_node "DECRYPT ALL (CURRENTLY LOOKING FOR MODULES...)" dumpAllCB_id MENU_WARNING)); [|reflexivity|lia|].
  - by rewrite lookup_app_r, Nat.sub_diag by lia.
  - intros i d Hi Hd. rewrite lookup_app_r in Hd by lia. destruct (i - length ds)%nat as [|[|j]] eqn:Ei; [lia| |].
    + injection Hd as <-. done.
    + change ((module_node <$> l) !! j = Some d) in Hd.
      rewrite list_lookup_fmap in Hd. destruct (l !! j); [|done]. by injection Hd as <-.
Qed.

(** The end of the thread *)
Lemma end_spec s ps ds l :
  menu_holds (scan_menu s) ps (ds ++ [typed_node "DECRYPT ALL (CURRENTLY LOOKING FOR MODULES...)" dumpAllCB_id MENU_WARNING; back_node] ++
    (module_node <$> l)) -> exists m,
  (entry ← scan_in_menu (MenuFindType MENU_WARNING);
   p ← sm_lift (not_null entry);
   _ ← scan_in_menu (update p (set_type MENU_NONE));
   scan_in_menu (update p (set_text (strncpy (str_bytes "DECRYPT ALL(DONE)") text_size)))) s =
    Done (tt, Scan m (polls s) (opened s)) /\
  menu_holds m ps (ds ++ [done_node; back_node] ++ (module_node <$> l)).
Proof.
  intros H. pose proof (find_type_spec _ _ _ MENU_WARNING H) as E. pose proof (holds_lengths _ _ _ H) as Hl.
  rewrite <- Hl, !length_app, length_fmap, Nat.add_assoc in E. cbn [length] in E. rewrite found_again in E.
  destruct (lookup_lt_is_Some_2 ps (length ds)) as [p Hp]; [rewrite <- Hl, length_app; cbn; lia|].
  cbn [mbind option_bind] in E. rewrite Hp in E.
  destruct (update_at (set_type MENU_NONE) _ _ _ _ _ H Hp) as (e & m1 & E1 & Hd & H1); [done|].
  destruct (update_at (set_text (strncpy (str_bytes "DECRYPT ALL(DONE)") text_size)) m1 _ _ _ _ H1 Hp)
    as (e' & m2 & E2 & Hd' & H2); [done|].
  exists m2. rewrite (sm_bind_Done _ _ _ _ _ (scan_in_menu_Done _ s _ _ E)).
  rewrite (sm_bind_Done (sm_lift (not_null (Some p))) _ _ p _ eq_refl).
  rewrite (sm_bind_Done _ _ _ _ _ (scan_in_menu_Done _ (Scan (scan_menu s) (polls s) (opened s)) _ _ E1)).
  split; [exact (scan_in_menu_Done _ (Scan m1 (polls s) (opened s)) _ _ E2)|].
  rewrite list_lookup_insert_eq in Hd' by (by apply lookup_lt_Some in Hd). rewrite list_insert_insert_eq in H2.
  rewrite insert_app_r_alt, Nat.sub_diag in H2 by lia. cbn [app list_insert] in H2.
  rewrite lookup_app_r, Nat.sub_diag in Hd by lia. cbn in Hd.
  injection Hd as D1 D2 D3 D4 D5. injection Hd' as F1 F2 F3 F4 F5.
  unfold data in H2. cbn [set_text set_type draw_type FagMenu.type entry_active text click_cb] in *.
  rewrite <- F1, <- F2, <- F3, <- F5, <- D1, <- D3, <- D5 in H2. exact H2.
Qed.

Lemma scan_folders_spec type title titleid mounted : (String.length titleid <= 100)%nat ->
  (forall p, p ∈ roots type title titleid mounted -> fs_at p (tree p) /\ (depth (tree p) < fuel)%nat) ->
  forall s, menu_ok (scan_menu s) ->
  walked (fun _ => True) s ((match type with
     | SELF_SYSTEM => _ ← dumpParseFolder sceIoDopen contents junk stop fuel title; mret tt
     | SELF_NP => if 0 <=? mounted then scan_devices sceIoDopen contents junk stop fuel DEVICES titleid else mret tt
     end) s) (modules_of (roots type title titleid mounted)).
Proof.
  intros Ht Hp s Hs. destruct type; cbn [roots] in *.
  - destruct (0 <=? mounted); [|exists tt, s; split; [done|]; split; [apply entered_refl|by split; [|split; [left|]]]].
    apply scan_devices_spec; [done|apply device_length|done|done].
  - destruct (Hp title ltac:(by left)) as [F D]. destruct (walk_spec fuel _ _ s F D Hs) as (r & s' & E & H & O & _ & Q).
    rewrite (sm_bind_Done _ _ _ _ _ E). exists tt, s'. split; [done|]. cbn [flat_map]. rewrite app_nil_r.
    split; [done|]. split; [done|]. split; [by left|done].
Qed.

(** C29: Whatever the moment at which the user goes back, the thread ends, and
    the menu has been given, behind the entry for all modules and the one to
    go back, modules of the game in the order of the folders without a gap;
    when nobody goes back these are all of them, and every folder is closed
    again. *)
Theorem scan_lists_modules type title titleid mounted s ps ds : (String.length titleid <= 100)%nat ->
  (forall p, p ∈ roots type title titleid mounted -> fs_at p (tree p) /\ (depth (tree p) < fuel)%nat) ->
  menu_holds (scan_menu s) ps ds ->
  exists s' ps' l, dumpPopulateThread sceIoDopen contents junk stop fuel type title titleid mounted s = Done (tt, s') /\
    menu_holds (scan_menu s') ps' (ds ++ [done_node; back_node] ++ (module_node <$> l)) /\
    l `prefix_of` modules_of (roots type title titleid mounted) /\
    (l = modules_of (roots type title titleid mounted) \/ stop (polls s') = true) /\
    (quiet -> opened s' = opened s).
Proof.
  intros Ht Hroots H0. unfold dumpPopulateThread.
  match goal with |- context [(_ ← scan_in_menu (MenuAddEntry _ _ _); _ ← _; ?k) s] =>
    destruct (typed_entry_spec "DECRYPT ALL (CURRENTLY LOOKING FOR MODULES...)" dumpAllCB_id MENU_WARNING s ps ds k H0)
      as (p1 & m1 & -> & H1) end.
  match goal with |- context [(_ ← scan_in_menu (MenuAddEntry _ _ _); _ ← _; ?k) ?s1] =>
    destruct (typed_entry_spec "Back to main menu" dumpModuleEntryBackCB_id MENU_BACK s1 _ _ k H1)
      as (p2 & m2 & -> & H2) end. cbn [polls opened scan_menu] in *.
  rewrite <- !app_assoc in H2. cbn [app] in H2. set (s2 := Scan m2 _ _).
  destruct (scan_folders_spec type title titleid mounted Ht Hroots s2) as ([] & s3 & E3 & Hent & _ & _ & Hq); [by eexists _, _|].
  rewrite (sm_bind_Done _ _ _ _ _ E3).
  destruct (ent_menu _ _ _ Hent _ _ H2) as (ps3 & l & H3 & Hpre & Hall & _).
  rewrite <- !app_assoc in H3. cbn [app] in H3.
  destruct (end_spec s3 _ ds l H3) as (m & -> & Hm).
  eexists _, _, l. split; [reflexivity|]. split; [exact Hm|]. split; [done|]. split; [done|].
  intros Hquiet. cbn [opened]. by rewrite Hq.
Qed.
End Tree.

(** ** The theorem on a small tree

    One module in the folder of the application and one in a folder of it, and
    a file that is none *)

Definition sample_self_file : mem + Z := inl [0x53; 0x43; 0x45; 0; 3].
Definition sample_app : fnode :=
  NDir [("eboot.bin"%string, NFile sample_self_file); ("param.sfo"%string, NFile (inl [0; 1]));
        ("mod"%string, NDir [("a.suprx"%string, NFile sample_self_file)])].
Definition sample_dopen (path : string) : option (list (string * bool)) :=
  if bool_decide (path = "vs0:app"%string) then Some [("eboot.bin"%string, false); ("param.sfo"%string, false); ("mod"%string, true)]
  else if bool_decide (path = "vs0:app/mod"%string) then Some [("a.suprx"%string, false)]
  else None.
Definition sample_file (path : string) : mem + Z :=
  if bool_decide (path = "vs0:app/param.sfo"%string) then inl [0; 1] else sample_self_file.

Lemma sample_fs_at : fs_at sample_dopen sample_file "vs0:app" sample_app.
Proof.
  assert (forall n, (n <= 900)%nat -> (n <= PATH_MAX - 2)%nat) as Hmax by (intros n; pose proof PATH_MAX_large; lia).
  apply at_dir; [done|reflexivity|..].
  - apply Forall_forall. repeat (constructor; [apply Hmax, Nat.leb_le; reflexivity|]). constructor.
  - apply Forall_forall. constructor; [by apply at_file|]. constructor; [by apply at_file|]. constructor; [|constructor].
    apply at_dir; [done|reflexivity|..]; apply Forall_forall; (constructor; [|constructor]); [apply Hmax, Nat.leb_le; reflexivity|by apply at_file].
Qed.

Lemma scan_lists_modules_witness : exists s' ps' l,
  dumpPopulateThread sample_dopen sample_file [0; 0; 0; 0] (fun _ => false) 3 SELF_SYSTEM "vs0:app" "SYSTEM" 0
    (Scan (MenuCreate PANE_LEFT) 0 0) = Done (tt, s') /\
  menu_holds (scan_menu s') ps' ([] ++ [done_node; back_node] ++ (module_node <$> l)) /\
  l `prefix_of` ["vs0:app/eboot.bin"; "vs0:app/mod/a.suprx"]%string /\
  (l = ["vs0:app/eboot.bin"; "vs0:app/mod/a.suprx"]%string \/ false = true) /\
  (quiet (fun _ => false) -> opened s' = 0).
Proof.
  refine (scan_lists_modules sample_dopen sample_file [0; 0; 0; 0] (fun _ => false) _ (fun _ => sample_app) 3
    SELF_SYSTEM "vs0:app" "SYSTEM" 0 (Scan (MenuCreate PANE_LEFT) 0 0) [] [] _ _ _).
  - done.
  - cbn. lia.
  - intros p Hp. cbn [roots] in Hp. apply elem_of_cons in Hp as [->|Hp]; [|by apply elem_of_nil in Hp].
    split; [exact sample_fs_at|cbn; lia].
  - apply (represents_create PANE_LEFT).
Defined.
