(* ===== verification/FagDump.v ===== *)
(** * The dumping thread of FAGDec (FAGDec/src/app/dump.c, inflate.c)

    While the kernel plugin decrypts a module, it leaves each finished segment
    in a file of its own; a second thread takes these files, inflates them,
    writes them into the ELF file and removes them.  When the plugin is done,
    headers and digest are added.  The files are a map; zlib is the class
    [Zlib], with [uncompress], [compress] and [inflateEnd] as functions of
    their own.  Errors of the disk and of [malloc] are given by functions. *)

From stdpp Require Import prelude gmap strings pretty.
From S2P Require Import Prelude Bytes CString Yaml Hoare Sha256 ElfTools Zlib FagMenu FagGame.
Import ElfTools.Layout.

(** ** inflate.c *)

Section Inflate.
Context {D I : Type} `{!Zlib D I} (inflateEnd : I -> Z).

(** [for (;;)]: the output starts at the beginning of the buffer each time. *)
Fixpoint inflate_loop (fuel : nat) (d_stream : I) (compr uncompr : mem) : run (Z * mem) :=
  match fuel with
  | O => OutOfFuel
  | S fuel' =>
      let r := inflate d_stream compr (length uncompr) in
      uncompr ← blit uncompr 0 (out r);
      if ret r =? Z_STREAM_END then Done (inflateEnd (Zlib.next r), uncompr)
      else if negb (ret r =? Z_OK) then Done (ret r, uncompr)
      else inflate_loop fuel' (Zlib.next r) (drop (used r) compr) uncompr
  end.

Definition test_large_inflate (fuel : nat) (compr uncompr : mem) : run (Z * mem) :=
  let '(err, d_stream) := inflateInit in
  if negb (err =? Z_OK) then Done (err, uncompr) else inflate_loop fuel d_stream compr uncompr.

(** What the buffer holds behind the bytes stays. *)
Definition over (dest bs : mem) : mem := bs ++ drop (length bs) dest.

Lemma blit_start dest bs : (length bs <= length dest)%nat -> blit dest 0 bs = Done (over dest bs).
Proof.
  intros Hl. unfold blit, mlen. by rewrite (proj2 (Z.leb_le (0 + Z.of_nat (length bs)) (Z.of_nat (length dest)))) by lia.
Qed.
Lemma length_over dest bs : (length bs <= length dest)%nat -> length (over dest bs) = length dest.
Proof. intros Hl. unfold over. rewrite length_app, length_drop. lia. Qed.
Lemma over_full dest bs : length bs = length dest -> over dest bs = bs.
Proof. intros Hl. unfold over. by rewrite drop_ge, app_nil_r by lia. Qed.

Context `{!ZlibLaws D I} (inflateEnd_ok : forall st, inflateEnd st = Z_OK).

(** A whole stream, with exactly the room it needs, takes at most two turns. *)
Lemma test_large_inflate_ok fuel src o dest : inflates inflateInit.2 src o -> length o = length dest ->
  (0 < length dest)%nat -> (2 <= fuel)%nat -> test_large_inflate fuel src dest = Done (Z_OK, o).
Proof.
  intros Hi Ho Hl Hf. unfold test_large_inflate. pose proof inflateInit_ok as E0.
  destruct inflateInit as [err st]. cbn [fst snd] in *. subst err. cbn [negb Z.eqb Z_OK].
  destruct fuel as [|[|fuel]]; [lia..|]. cbn [inflate_loop].
  destruct (inflate_stream st src [] o (length dest)) as (o' & -> & H1 & H2 & H3 & H4); [by rewrite app_nil_r|done|].
  set (r := inflate st src (length dest)) in *. rewrite length_app in Ho. rewrite app_nil_r in H1.
  rewrite blit_start by done. cbn [mbind run_bind].
  destruct (decide (length (out r) < length dest)%nat) as [Hlt|Hge].
  - destruct (H4 Hlt) as [_ E]. specialize (E eq_refl).
    destruct H3 as [(_ & -> & _)|[H3|[H3 _]]]; [|by rewrite E in H3..]. cbn in Ho. lia.
  - assert (o' = []) as -> by (apply length_zero_iff_nil; lia). rewrite app_nil_r.
    rewrite over_full by (cbn in Ho; lia).
    destruct H3 as [(E & _)|[E|(_ & E & _)]]; [| |rewrite E in Ho; cbn in Ho; lia].
    { rewrite E. cbn [Z.eqb Z_STREAM_END]. by rewrite inflateEnd_ok. }
    rewrite E. cbn [Z.eqb Z_OK Z_STREAM_END negb].
    destruct (inflate_stream (Zlib.next r) (drop (used r) src) [] [] (length (out r)))
      as (o2 & E2 & K1 & K2 & K3 & K4); [by rewrite app_nil_r|cbn in Ho; lia|].
    set (r2 := inflate _ _ _) in *. symmetry in E2. apply app_nil in E2 as [E2 ->]. rewrite E2 in *.
    rewrite blit_start by (cbn; lia). cbn [mbind run_bind]. change (over (out r) []) with (out r).
    destruct K4 as [_ K4]; [cbn in *; lia|]. rewrite (K4 eq_refl). cbn [Z.eqb Z_STREAM_END]. by rewrite inflateEnd_ok.
Qed.
End Inflate.

(** ** The state *)

Inductive DumpType := DUMP_SELF | DUMP_ELF.
#[export] Instance DumpType_eq_dec : EqDecision DumpType.
Proof. solve_decision. Defined.

(** The files; [current_self]; how many blocks were asked for; the levels of
    the lines shown, the last one first *)
Record dumping := Dumping { disk : gmap string mem; current_self : mem; mallocs : nat; shown : list MenuType }.
Abbreviation D := (SM dumping).

Definition set_disk (f : gmap string mem) s := Dumping f (current_self s) (mallocs s) (shown s).
Definition set_self (m : mem) s := Dumping (disk s) m (mallocs s) (shown s).

Definition cut (path : string) : string := str_take (PATH_MAX - 1) path.
Definition SCE_ENOENT : Z := s32 0x80010002.

(** What opening a file for reading gives *)
Definition on_disk (f : gmap string mem) (path : string) : mem + Z :=
  match f !! path with Some c => inl c | None => inr SCE_ENOENT end.

Definition statusAddLog (level : MenuType) : D unit :=
  sm_modify (fun s => Dumping (disk s) (current_self s) (mallocs s) (level :: shown s)).
Definition log_if (b : bool) (level : MenuType) : D unit := if b then statusAddLog level else mret tt.

Definition sizeof_Elf32_Ehdr : nat := 52.
Definition OUT_FOLDER : string := "ux0:/FAGDec".

Section Dump.
Context {Dz Iz : Type} `{!Zlib Dz Iz}.
(** result, and what is put into a buffer of that size *)
Context (uncompress compress : Z -> mem -> Z * mem) (inflateEnd : Iz -> Z).
(** the error of opening a file for writing, removing or renaming it, or
    something not negative; whether [malloc] succeeds for the [n]th time; what
    fresh memory holds *)
Context (open_w remove_r rename_r : string -> Z) (mem_ok : nat -> bool) (junk : nat -> mem).
Context (fuel : nat).

Definition try_malloc : D bool := fun s =>
  Done (mem_ok (mallocs s), Dumping (disk s) (current_self s) (S (mallocs s)) (shown s)).

(** The first [size] bytes of [buf], at [seek] of the file *)
Definition WriteFileSeek (file : string) (buf : mem) (seek size : Z) : D Z :=
  if open_w file <? 0 then mret (open_w file)
  else
    bs ← sm_lift (slice buf 0 (Z.to_nat size));
    f ← sm_gets disk;
    _ ← sm_modify (set_disk (<[file := fwrite_at (default [] (f !! file)) seek bs]> f));
    mret (s32 size).

(** At the end of the file *)
Definition WriteFile (file : string) (buf : mem) (size : Z) : D Z :=
  if open_w file <? 0 then mret (open_w file)
  else
    bs ← sm_lift (slice buf 0 (Z.to_nat size));
    f ← sm_gets disk;
    _ ← sm_modify (set_disk (<[file := default [] (f !! file) ++ bs]> f));
    mret (s32 size).

Definition sceIoRemove (file : string) : D Z :=
  f ← sm_gets disk;
  if bool_decide (f !! file = None) then mret SCE_ENOENT
  else if remove_r file <? 0 then mret (remove_r file)
  else _ ← sm_modify (set_disk (delete file f)); mret 0.

Definition sceIoRename (old new : string) : D Z :=
  f ← sm_gets disk;
  match f !! old with
  | None => mret SCE_ENOENT
  | Some c =>
      if rename_r new <? 0 then mret (rename_r new)
      else _ ← sm_modify (set_disk (<[new := c]> (delete old f))); mret 0
  end.

(** ** The decompressing thread *)

Section Decompress.
Context (current_elf current_file : string) (dump_type : DumpType).

Definition segment_file (i : Z) : string := cut (current_elf +:+ ".seg" +:+ fmt_d i).

(** [if(i > 0)]: zeros for the gap before a segment without bytes *)
Definition fill_gap (phdrs i : Z) : D unit :=
  if 0 <? i then
    hdr ← sm_gets current_self;
    before ← sm_lift (p_offset hdr phdrs (i - 1));
    sz ← sm_lift (p_filesz hdr phdrs (i - 1));
    off ← sm_lift (p_offset hdr phdrs i);
    let padding_off := u32 (before + sz) in
    let padding_sz := u32 (off - padding_off) in
    if 0 <? padding_sz then
      ok ← try_malloc;
      if ok : bool then
        res ← WriteFileSeek current_elf (replicate (Z.to_nat padding_sz) 0) padding_off padding_sz;
        log_if (res <? 0) MENU_BAD
      else statusAddLog MENU_BAD
    else mret tt
  else mret tt.

Definition skip_empty (path : string) (phdrs i : Z) : D unit :=
  _ ← statusAddLog MENU_WARNING;
  _ ← fill_gap phdrs i;
  _ ← sceIoRemove path;
  mret tt.

(** [dest_buf] and [seg_sz] when one of the two decompressions succeeds *)
Definition inflate_segment (file_buf : mem) (filesz : Z) : D (option (mem * Z)) :=
  let '(res, bs) := uncompress filesz file_buf in
  dest_buf ← sm_lift (blit (junk (Z.to_nat filesz)) 0 bs);
  if res =? Z_OK then mret (Some (dest_buf, mlen bs))
  else
    _ ← statusAddLog MENU_BAD;
    '(res, dest_buf) ← sm_lift (test_large_inflate inflateEnd fuel file_buf dest_buf);
    if res =? Z_OK then mret (Some (dest_buf, filesz)) else mret None.

(** [if(dump_type == DUMP_SELF)]; [false] stands for the [break]. *)
Definition recompress (file_buf dest_buf : mem) (seg_sz i : Z) : D bool :=
  _ ← statusAddLog MENU_NONE;
  src ← sm_lift (slice dest_buf 0 (Z.to_nat seg_sz));
  let '(res, bs) := compress (mlen file_buf) src in
  if negb (res =? Z_OK) then _ ← statusAddLog MENU_BAD; mret false
  else
    hdr ← sm_gets current_self;
    segs ← sm_lift (section_info_offset hdr);
    hdr ← sm_lift (store_le 8 hdr (segs + 32 * i + 24) 2);
    _ ← sm_modify (set_self hdr);
    off ← sm_lift (seg_offset hdr segs i);
    file_buf ← sm_lift (blit file_buf 0 bs);
    res ← WriteFileSeek current_file file_buf (u32 off) (mlen bs);
    _ ← log_if (res <? 0) MENU_BAD;
    mret true.

(** The body of the loop over the segments; [false] stands for a [break]. *)
Definition decompress_segment (i : Z) : D bool :=
  let path := segment_file i in
  f ← sm_gets disk;
  if bool_decide (f !! path = None) then mret true
  else
    hdr ← sm_gets current_self;
    phdrs ← sm_lift (phdr_offset hdr);
    filesz ← sm_lift (p_filesz hdr phdrs i);
    if filesz <=? 0 then _ ← skip_empty path phdrs i; mret true
    else
      let sz := u32 (getFileSize (on_disk f) path) in
      ok ← try_malloc;
      if negb ok then _ ← statusAddLog MENU_BAD; mret false
      else
        ok ← try_malloc;
        if negb ok then _ ← statusAddLog MENU_BAD; mret false
        else
          let '(res, file_buf) := ReadFile (on_disk f) path (s32 sz) in
          if res <? 0 then _ ← statusAddLog MENU_BAD; mret false
          else
            off ← sm_lift (p_offset hdr phdrs i);
            inflated ← inflate_segment file_buf filesz;
            match inflated with
            | None =>
                _ ← statusAddLog MENU_BAD;
                res ← WriteFileSeek current_elf file_buf off filesz;
                _ ← log_if (res <? 0) MENU_BAD;
                mret false
            | Some (dest_buf, seg_sz) =>
                ok ← (match dump_type with
                      | DUMP_SELF => recompress file_buf dest_buf seg_sz i
                      | DUMP_ELF => mret true
                      end);
                if negb ok then mret false
                else
                  res ← WriteFileSeek current_elf dest_buf off filesz;
                  _ ← log_if (res <? 0) MENU_BAD;
                  res ← sceIoRemove path;
                  _ ← log_if (res <? 0) MENU_BAD;
                  _ ← statusAddLog MENU_NONE;
                  mret true
            end.

(** [for(int i = 0; i < ehdr->e_phnum; i++)]; [n]: more than [e_phnum] *)
Fixpoint decompress_loop (n : nat) (ehdr i : Z) : D unit :=
  match n with
  | O => fun _ => OutOfFuel
  | S n' =>
      hdr ← sm_gets current_self;
      phnum ← sm_lift (e_phnum hdr ehdr);
      if i <? phnum then
        go_on ← decompress_segment i;
        if go_on : bool then decompress_loop n' ehdr (i + 1) else mret tt
      else mret tt
  end.

(** One turn of [decompressThread] *)
Definition decompress_pass (n : nat) : D unit :=
  hdr ← sm_gets current_self;
  ehdr ← sm_lift (elf_offset hdr);
  decompress_loop n ehdr 0.
End Decompress.
End Dump.

(** ** Steps *)

Ltac dstep :=
  match goal with
  | |- context [@mbind (SM dumping) _ _ _ ?k ?op ?s] =>
      let r := eval hnf in (op s) in
      match r with Done (?a, ?s') => rewrite (sm_bind_Done op k s a s' eq_refl) end; cbv beta
  end.
Ltac dsteps := repeat dstep.


Section Steps.
Context (open_w remove_r : string -> Z).

Lemma WriteFileSeek_Done file buf seek size bs s : 0 <= open_w file -> slice buf 0 (Z.to_nat size) = Done bs ->
  WriteFileSeek open_w file buf seek size s =
    Done (s32 size, set_disk (<[file := fwrite_at (default [] (disk s !! file)) seek bs]> (disk s)) s).
Proof.
  intros Ho Hb. unfold WriteFileSeek. rewrite (proj2 (Z.ltb_ge _ _) Ho), Hb. by dsteps.
Qed.

Lemma sceIoRemove_Done file c s : 0 <= remove_r file -> disk s !! file = Some c ->
  sceIoRemove remove_r file s = Done (0, set_disk (delete file (disk s)) s).
Proof.
  intros Hr Hc. unfold sceIoRemove. dstep. rewrite bool_decide_eq_false_2 by (by rewrite Hc).
  by rewrite (proj2 (Z.ltb_ge _ _) Hr).
Qed.

Lemma log_if_Done b l s : exists s', log_if b l s = Done (tt, s') /\ disk s' = disk s /\ current_self s' = current_self s.
Proof. destruct b; by eexists. Qed.
End Steps.

Ltac log_step :=
  match goal with |- context [@mbind (SM dumping) _ _ _ _ (log_if ?b ?l) ?s] =>
    let s' := fresh "s" in let E := fresh "E" in let Hd := fresh "Hdisk" in let Hs := fresh "Hself" in
    destruct (log_if_Done b l s) as (s' & E & Hd & Hs); rewrite (sm_bind_Done _ _ _ _ _ E); clear E
  end.

(** ** Specification: what a module consists of *)

Definition add_writes (file : string) (ws : list (Z * mem)) (f : gmap string mem) : gmap string mem :=
  match ws with [] => f | _ => <[file := fwrite_all (default [] (f !! file)) ws]> f end.

Section Collect.
Context {Dz Iz : Type} `{!Zlib Dz Iz} `{!ZlibLaws Dz Iz}.
Context (uncompress compress : Z -> mem -> Z * mem) (inflateEnd : Iz -> Z).
Context (open_w remove_r rename_r : string -> Z) (mem_ok : nat -> bool) (junk : nat -> mem).
Context (fuel : nat) (current_elf current_file : string) (dump_type : DumpType).

(** The header [hdr0], of which only the table of the segments changes: [n] segments, segment [i] with the data [data i], to be
    written at [off i] of the ELF, and with the stream [stream i] at [soff i] of
    the SELF, where the plugin has decrypted it to [stream i]; [packed i]: what
    it is compressed to again *)
Context (hdr0 : mem) (elf ph si n : Z) (off soff : Z -> Z) (data stream packed : Z -> mem).

Abbreviation seg := (segment_file current_elf).

Record tables (hdr : mem) : Prop := {
  tab_elf : elf_offset hdr = Done elf;
  tab_phnum : e_phnum hdr elf = Done n;
  tab_ph : phdr_offset hdr = Done ph;
  tab_si : section_info_offset hdr = Done si;
  tab_offset i : 0 <= i < n -> p_offset hdr ph i = Done (off i);
  tab_filesz i : 0 <= i < n -> p_filesz hdr ph i = Done (mlen (data i));
  tab_seg i : 0 <= i < n -> seg_offset hdr si i = Done (soff i);
  tab_fits : si + 32 * n <= mlen hdr;
  tab_same : differ_in si (32 * n) hdr0 hdr;
}.

(** The table of the segments, which is written to, lies apart from the others. *)
Record apart : Prop := {
  apart_head : 128 <= si;
  apart_elf : elf + 52 <= si \/ si + 32 * n <= elf;
  apart_ph : ph + 32 * n <= si \/ si + 32 * n <= ph;
}.

(** Names of files that are not cut off and differ *)
Record names : Prop := {
  names_fit i : 0 <= i < n -> (String.length (current_elf +:+ ".seg" +:+ fmt_d i) < PATH_MAX)%nat;
  names_few : n < 2 ^ 16;
  names_self : dump_type = DUMP_SELF -> current_file <> current_elf /\ forall i, 0 <= i < n -> seg i <> current_file;
}.

(** What the segments and the two libraries give *)
Record unpacks : Prop := {
  unp_stream i : 0 <= i < n -> data i <> [] -> inflates inflateInit.2 (stream i) (data i);
  unp_small i : 0 <= i < n -> mlen (stream i) < 2 ^ 31;
  unp_sound cap src o bs : inflates inflateInit.2 src o -> mlen o = cap -> uncompress cap src = (Z_OK, bs) -> bs = o;
  unp_room cap src : 0 <= cap -> mlen (uncompress cap src).2 <= cap;
  unp_end st : inflateEnd st = Z_OK;
  unp_pack i : dump_type = DUMP_SELF -> 0 <= i < n -> data i <> [] ->
    compress (mlen (stream i)) (data i) = (Z_OK, packed i) /\ mlen (packed i) <= mlen (stream i);
}.

(** A disk and a heap without errors *)
Record no_errors : Prop := {
  ok_elf : 0 <= open_w current_elf;
  ok_file : 0 <= open_w current_file;
  ok_remove i : 0 <= i < n -> 0 <= remove_r (seg i);
  ok_mem k : mem_ok k = true;
  ok_junk k : length (junk k) = k;
  ok_fuel : (2 <= fuel)%nat;
}.

(** What segment [i] adds to the ELF: its data, or zeros in the gap before it
    when it has none; and to the SELF *)
Definition elf_writes (i : Z) : list (Z * mem) :=
  if decide (data i = []) then
    (if 0 <? i then
       let from := u32 (off (i - 1) + mlen (data (i - 1))) in
       let sz := u32 (off i - from) in
       if 0 <? sz then [(from, replicate (Z.to_nat sz) 0)] else []
     else [])
  else [(off i, data i)].
Definition self_writes (i : Z) : list (Z * mem) :=
  if decide (dump_type = DUMP_SELF /\ data i <> []) then [(u32 (soff i), packed i)] else [].

Lemma tables_encryption hdr i hdr' : apart -> tables hdr -> 0 <= i < n ->
  store_le 8 hdr (si + 32 * i + 24) 2 = Done hdr' -> tables hdr'.
Proof.
  intros [A1 A2 A3] [T1 T2 T3 T4 T5 T6 T7 T8 T9] Hi E.
  assert (forall k o, (o + Z.of_nat k <= si + 32 * i + 24 \/ si + 32 * i + 32 <= o) ->
    load_le k hdr' o = load_le k hdr o) as HL.
  { intros k o Ho. eapply load_le_store_le_other; [exact E|simpl; lia]. }
  split.
  - rewrite <- T1. apply (HL 8%nat). simpl. lia.
  - rewrite <- T2. apply (HL 2%nat). simpl. lia.
  - rewrite <- T3. apply (HL 8%nat). simpl. lia.
  - rewrite <- T4. apply (HL 8%nat). simpl. lia.
  - intros j Hj. rewrite <- (T5 j Hj). apply (HL 4%nat). simpl. lia.
  - intros j Hj. rewrite <- (T6 j Hj). apply (HL 4%nat). simpl. lia.
  - intros j Hj. rewrite <- (T7 j Hj). apply (HL 8%nat). destruct (Z.lt_trichotomy j i) as [?|[->|?]]; simpl; lia.
  - rewrite (store_le_mlen _ _ _ _ _ E). done.
  - eapply differ_in_trans; [exact T9|]. eapply differ_in_weaken; [| |by eapply store_differ]; simpl; lia.
Qed.

Lemma slice_replicate k (b : Z) : slice (replicate k b) 0 k = Done (replicate k b).
Proof. rewrite <- (length_replicate k b) at 2. apply slice_all. Qed.

Lemma fill_gap_spec i s : no_errors -> tables (current_self s) -> 0 <= i < n -> data i = [] -> exists s',
  fill_gap open_w mem_ok current_elf ph i s = Done (tt, s') /\
  current_self s' = current_self s /\ disk s' = add_writes current_elf (elf_writes i) (disk s).
Proof.
  intros [E1 _ _ E4 _ _] T Hi Hd. unfold fill_gap, elf_writes. rewrite decide_True by done.
  destruct (Z.ltb_spec 0 i) as [H0|]; [|by exists s].
  dstep. rewrite (tab_offset _ T (i - 1)), (tab_filesz _ T (i - 1)), (tab_offset _ T i) by lia. do 3 dstep.
  set (sz := u32 (off i - _)). set (from := u32 (off (i - 1) + _)). destruct (0 <? sz) eqn:Esz; [|by exists s].
  dstep. rewrite E4.
  rewrite (sm_bind_Done _ _ _ _ _ (WriteFileSeek_Done open_w current_elf _ from sz _ _ E1 (slice_replicate _ 0))).
  destruct (log_if_Done (s32 sz <? 0) MENU_BAD (set_disk (<[current_elf := fwrite_at (default [] (disk s !! current_elf))
    from (replicate (Z.to_nat sz) 0)]> (disk s)) (Dumping (disk s) (current_self s) (S (mallocs s)) (shown s))))
    as (s' & E & H1 & H2). exists s'. split; [exact E|]. by rewrite H1, H2.
Qed.

Lemma skip_empty_spec i s c : no_errors -> tables (current_self s) -> 0 <= i < n -> data i = [] ->
  seg i <> current_elf -> disk s !! seg i = Some c -> exists s',
  skip_empty open_w remove_r mem_ok current_elf (seg i) ph i s = Done (tt, s') /\
  current_self s' = current_self s /\ disk s' = delete (seg i) (add_writes current_elf (elf_writes i) (disk s)).
Proof.
  intros Herr T Hi Hd Hne Hc. unfold skip_empty. dstep. set (s1 := Dumping _ _ _ _).
  destruct (fill_gap_spec i s1 Herr T Hi Hd) as (s2 & E2 & H2 & D2). rewrite (sm_bind_Done _ _ _ _ _ E2).
  assert (disk s2 !! seg i = Some c) as Hc2.
  { rewrite D2. unfold add_writes. destruct (elf_writes i); [done|]. by rewrite lookup_insert_ne by congruence. }
  rewrite (sm_bind_Done _ _ _ _ _ (sceIoRemove_Done remove_r _ c s2 (ok_remove Herr i Hi) Hc2)).
  eexists. split; [done|]. cbn [set_disk current_self disk]. by rewrite H2, D2.
Qed.

Lemma slice_start (bs rest : mem) : slice (bs ++ rest) 0 (length bs) = Done bs.
Proof.
  unfold slice. rewrite (proj2 (Z.leb_le (0 + Z.of_nat (length bs)) (mlen (bs ++ rest))))
    by (unfold mlen; rewrite length_app; lia). cbn. by rewrite drop_0, take_app_length.
Qed.

Lemma inflate_segment_spec i s : no_errors -> unpacks -> 0 <= i < n -> data i <> [] -> exists s',
  inflate_segment uncompress inflateEnd junk fuel (stream i) (mlen (data i)) s =
    Done (Some (data i, mlen (data i)), s') /\
  current_self s' = current_self s /\ disk s' = disk s.
Proof.
  intros [_ _ _ _ E5 E6] [U1 _ U3 U4 U5 _] Hi Hd. unfold inflate_segment.
  pose proof (U4 (mlen (data i)) (stream i) ltac:(unfold mlen; lia)) as Hroom.
  assert (Z.to_nat (mlen (data i)) = length (data i)) as Hn by (unfold mlen; lia).
  destruct (uncompress (mlen (data i)) (stream i)) as [res bs] eqn:Eu. cbn [snd] in Hroom.
  rewrite blit_start by (rewrite E5, Hn; unfold mlen in Hroom; lia). dstep.
  destruct (res =? Z_OK) eqn:Er.
  - apply Z.eqb_eq in Er as ->. assert (bs = data i) as -> by (by eapply U3; [apply U1| |exact Eu]).
    rewrite over_full by (rewrite E5, Hn; done). by eexists.
  - dstep. rewrite (test_large_inflate_ok inflateEnd U5 fuel (stream i) (data i)).
    + dstep. by eexists.
    + by apply U1.
    + rewrite length_over, E5, Hn by (rewrite E5, Hn; unfold mlen in Hroom; lia). done.
    + rewrite length_over, E5, Hn by (rewrite E5, Hn; unfold mlen in Hroom; lia). destruct (data i); [done|cbn; lia].
    + done.
Qed.

Lemma recompress_spec i s : no_errors -> unpacks -> apart -> tables (current_self s) -> 0 <= i < n -> data i <> [] ->
  dump_type = DUMP_SELF -> exists s',
  recompress compress open_w current_file (stream i) (data i) (mlen (data i)) i s = Done (true, s') /\
  tables (current_self s') /\ disk s' = <[current_file := fwrite_at (default [] (disk s !! current_file)) (u32 (soff i)) (packed i)]> (disk s).
Proof.
  intros [_ E2 _ _ _ _] [_ _ _ _ _ U6] A T Hi Hd Hself. unfold recompress.
  destruct (U6 i Hself Hi Hd) as [Ep Hp].
  assert (Z.to_nat (mlen (data i)) = length (data i)) as Hn by (unfold mlen; lia).
  rewrite Hn, slice_all. do 2 dstep. rewrite Ep. cbn [Z.eqb Z_OK negb]. dstep.
  cbn [current_self]. rewrite (tab_si _ T). dstep.
  destruct (store_le_total 8 (current_self s) (si + 32 * i + 24) 2) as [hdr' Eh].
  { pose proof (apart_head A). lia. }
  { pose proof (tab_fits _ T). simpl. lia. }
  rewrite Eh. do 2 dstep. pose proof (tables_encryption _ _ _ A T Hi Eh) as T'.
  rewrite (tab_seg _ T' i Hi). dstep.
  rewrite blit_start by (unfold mlen in Hp; lia). dstep.
  assert (slice (over (stream i) (packed i)) 0 (Z.to_nat (mlen (packed i))) = Done (packed i)) as Es.
  { unfold mlen. rewrite Nat2Z.id. apply slice_start. }
  rewrite (sm_bind_Done _ _ _ _ _ (WriteFileSeek_Done open_w current_file _ (u32 (soff i)) _ _ _ E2 Es)).
  log_step. eexists. split; [done|]. rewrite Hself0, Hdisk. by split.
Qed.

Definition after (i : Z) (f : gmap string mem) : gmap string mem :=
  delete (seg i) (add_writes current_elf (elf_writes i) (add_writes current_file (self_writes i) f)).

Abbreviation body := (decompress_segment uncompress compress inflateEnd open_w remove_r mem_ok junk fuel
  current_elf current_file dump_type).

(** A segment whose file is there is written and its file removed. *)
Lemma body_spec i s : no_errors -> unpacks -> apart -> names -> tables (current_self s) -> 0 <= i < n ->
  seg i <> current_elf -> disk s !! seg i = Some (stream i) -> exists s',
  body i s = Done (true, s') /\ tables (current_self s') /\ disk s' = after i (disk s).
Proof.
  intros Herr U A N T Hi Hne Hc. unfold decompress_segment, after. dstep.
  rewrite bool_decide_eq_false_2 by (by rewrite Hc). dstep. rewrite (tab_ph _ T). dstep. rewrite (tab_filesz _ T i Hi). dstep.
  unfold self_writes. destruct (decide (data i = [])) as [Hd|Hd].
  { replace (mlen (data i) <=? 0) with true by (by rewrite Hd). cbv iota.
    destruct (skip_empty_spec i s _ Herr T Hi Hd Hne Hc) as (s' & E & H1 & H2). rewrite (sm_bind_Done _ _ _ _ _ E).
    exists s'. rewrite H1. split; [done|]. split; [done|]. rewrite H2, decide_False by (by intros []). done. }
  assert (0 < mlen (data i)) as Hpos by (unfold mlen; destruct (data i); [done|cbn; lia]).
  rewrite (proj2 (Z.leb_gt _ _) Hpos).
  pose proof (unp_small U i Hi) as Hsmall. assert (0 <= mlen (stream i)) as Hs0 by (unfold mlen; lia).
  unfold getFileSize, ReadFile, on_disk. rewrite Hc. rewrite (s32_small (mlen (stream i))), (u32_small (mlen (stream i))) by lia.
  do 2 (dstep; rewrite (ok_mem Herr); cbn [negb]).
  rewrite (s32_small (mlen (stream i))) by lia. replace (Z.to_nat (mlen (stream i))) with (length (stream i)) by (unfold mlen; lia).
  rewrite firstn_all.
  rewrite (proj2 (Z.ltb_ge _ _) Hs0). rewrite (tab_offset _ T i Hi). dstep.
  set (s1 := Dumping _ _ _ _).
  destruct (inflate_segment_spec i s1 Herr U Hi Hd) as (s2 & E2 & S2 & D2). rewrite (sm_bind_Done _ _ _ _ _ E2).
  assert (exists s3, (match dump_type with
      | DUMP_SELF => recompress compress open_w current_file (stream i) (data i) (mlen (data i)) i
      | DUMP_ELF => mret true end) s2 = Done (true, s3) /\ tables (current_self s3) /\
      disk s3 = add_writes current_file (self_writes i) (disk s)) as (s3 & E3 & T3 & D3).
  { unfold self_writes. assert (tables (current_self s2)) as T2 by (by rewrite S2).
    destruct dump_type eqn:Et.
    - destruct (recompress_spec i s2 Herr U A T2 Hi Hd Et) as (s3 & E3 & T3 & D3). exists s3. split; [exact E3|].
      split; [done|]. rewrite decide_True by done. by rewrite D3, D2.
    - exists s2. split; [done|]. split; [done|]. rewrite decide_False by (by intros []). by rewrite D2. }
  rewrite (sm_bind_Done _ _ _ _ _ E3). cbn [negb]. fold (self_writes i).
  assert (slice (data i) 0 (Z.to_nat (mlen (data i))) = Done (data i)) as Es.
  { unfold mlen. rewrite Nat2Z.id. apply slice_all. }
  rewrite (sm_bind_Done _ _ _ _ _ (WriteFileSeek_Done open_w current_elf _ (off i) _ _ s3 (ok_elf Herr) Es)).
  log_step. rewrite D3 in Hdisk. cbn [set_disk disk] in Hdisk.
  assert (disk s0 !! seg i = Some (stream i)) as Hc4.
  { rewrite Hdisk. rewrite lookup_insert_ne by congruence. unfold add_writes, self_writes.
    destruct (decide _) as [[Hself' _]|]; [|done]. rewrite lookup_insert_ne; [done|].
    intros E. by apply (proj2 (names_self N Hself') i Hi). }
  rewrite (sm_bind_Done _ _ _ _ _ (sceIoRemove_Done remove_r _ _ s0 (ok_remove Herr i Hi) Hc4)).
  log_step. dstep. eexists. split; [done|]. cbn [disk current_self].
  rewrite Hself0, Hdisk0. cbn [set_disk current_self disk]. rewrite Hself, Hdisk. cbn [set_disk current_self disk].
  split; [done|]. unfold elf_writes. by rewrite decide_False by done.
Qed.

(** *** Names *)

Lemma cut_id p : (String.length p < PATH_MAX)%nat -> cut p = p.
Proof. intros H. unfold cut. apply str_take_all. lia. Qed.

Lemma string_app_inj (a b c : string) : a +:+ b = a +:+ c -> b = c.
Proof. induction a as [|x a IH]; [done|]. rewrite !string_app_cons. intros [= H]. by apply IH. Qed.

Lemma seg_inj i j : names -> 0 <= i < n -> 0 <= j < n -> seg i = seg j -> i = j.
Proof.
  intros [N1 N2 _] Hi Hj. unfold segment_file. rewrite !cut_id by (by apply N1).
  intros E%string_app_inj%string_app_inj. unfold fmt_d in E. rewrite !s32_small in E by lia. by apply (inj pretty) in E.
Qed.

Lemma seg_ne_elf i : names -> 0 <= i < n -> seg i <> current_elf.
Proof.
  intros [N1 _ _] Hi. unfold segment_file. rewrite cut_id by (by apply N1). intros E.
  apply (f_equal String.length) in E. rewrite !string_length_app in E. cbn in E. lia.
Qed.

(** *** What is in place *)

Record separate : Prop := {
  sep_elf i j v w : 0 <= i < n -> 0 <= j < n -> i <> j -> v ∈ elf_writes i -> w ∈ elf_writes j -> disjoint_writes v w;
  sep_self i j v w : 0 <= i < n -> 0 <= j < n -> i <> j -> v ∈ self_writes i -> w ∈ self_writes j -> disjoint_writes v w;
}.

Definition content (f : gmap string mem) (file : string) : mem := default [] (f !! file).
Definition placed (f : gmap string mem) (i : Z) : Prop :=
  Forall (holds_at (content f current_elf)) (elf_writes i) /\
  Forall (holds_at (content f current_file)) (self_writes i).

Lemma content_writes file ws f : content (add_writes file ws f) file = fwrite_all (content f file) ws.
Proof. unfold content, add_writes. destruct ws as [|w ws]; [done|]. by rewrite lookup_insert_eq. Qed.
Lemma lookup_writes file ws f p : p <> file -> add_writes file ws f !! p = f !! p.
Proof. intros H. unfold add_writes. destruct ws; [done|]. by rewrite lookup_insert_ne. Qed.
Lemma content_delete p f file : p <> file -> content (delete p f) file = content f file.
Proof. intros H. unfold content. by rewrite lookup_delete_ne. Qed.

Lemma content_elf i f : names -> 0 <= i < n ->
  content (after i f) current_elf = fwrite_all (content f current_elf) (elf_writes i).
Proof.
  intros N Hi. unfold after. rewrite content_delete by (by apply seg_ne_elf). rewrite content_writes. f_equal.
  unfold self_writes. destruct (decide _) as [[Hs _]|]; [|done].
  unfold content. rewrite lookup_writes; [done|]. intros E. by apply (names_self N Hs).
Qed.

Lemma content_file i f : names -> 0 <= i < n -> dump_type = DUMP_SELF ->
  content (after i f) current_file = fwrite_all (content f current_file) (self_writes i).
Proof.
  intros N Hi Hs. destruct (names_self N Hs) as [H1 H2]. unfold after. rewrite content_delete by (by apply H2).
  rewrite <- content_writes. unfold content. by rewrite lookup_writes.
Qed.

Lemma self_writes_elf i : dump_type = DUMP_ELF -> self_writes i = [].
Proof. intros E. unfold self_writes. by rewrite decide_False by (rewrite E; by intros []). Qed.

Lemma short_disjoint (ws : list (Z * mem)) : (length ws <= 1)%nat -> pairwise_disjoint ws.
Proof. destruct ws as [|w [|]]; cbn; [done| |lia]. by repeat constructor. Qed.

Lemma placed_now i f : names -> 0 <= i < n -> placed (after i f) i.
Proof.
  intros N Hi. split.
  - rewrite content_elf by done. apply fwrite_all_holds, short_disjoint. unfold elf_writes. repeat case_decide; cbn; repeat case_match; cbn; lia.
  - destruct dump_type eqn:Et; [|rewrite self_writes_elf by done; constructor]. rewrite content_file by done.
    apply fwrite_all_holds, short_disjoint. unfold self_writes. case_decide; cbn; lia.
Qed.

Lemma placed_after i j f : names -> separate -> 0 <= i < n -> 0 <= j < n -> placed f j -> placed (after i f) j.
Proof.
  intros N [S1 S2] Hi Hj [P1 P2]. destruct (decide (i = j)) as [->|Hne]; [by apply placed_now|]. split.
  - rewrite content_elf by done. rewrite Forall_forall in P1 |- *. intros w Hw.
    apply fwrite_all_other; [|by apply P1]. apply Forall_forall. intros v Hv. by apply (S1 j i).
  - destruct dump_type eqn:Et; [|rewrite self_writes_elf by done; constructor]. rewrite content_file by done.
    rewrite Forall_forall in P2 |- *. intros w Hw.
    apply fwrite_all_other; [|by apply P2]. apply Forall_forall. intros v Hv. by apply (S2 j i).
Qed.

Lemma after_seg i j f : names -> 0 <= i < n -> 0 <= j < n -> i <> j -> after i f !! seg j = f !! seg j.
Proof.
  intros N Hi Hj Hne. unfold after. rewrite lookup_delete_ne by (intros E; by apply seg_inj in E).
  rewrite lookup_writes by (by apply seg_ne_elf). unfold self_writes.
  destruct (decide _) as [[Hs _]|]; [|done]. apply lookup_writes, (proj2 (names_self N Hs) j Hj).
Qed.
Lemma after_gone i f : after i f !! seg i = None.
Proof. unfold after. by rewrite lookup_delete_eq. Qed.

Lemma placed_appear i j f c : names -> 0 <= i < n -> 0 <= j < n -> placed f j -> placed (<[seg i := c]> f) j.
Proof.
  intros N Hi Hj [P1 P2]. unfold placed, content. rewrite lookup_insert_ne by (by apply seg_ne_elf).
  split; [done|]. destruct dump_type eqn:Et; [|rewrite self_writes_elf by done; constructor].
  by rewrite lookup_insert_ne by (by apply (names_self N Et)).
Qed.

(** *** The plugin and the thread side by side *)

(** The plugin finishes segment [i], or the thread looks at it. *)
Inductive event := Appear (i : Z) | Look (i : Z).
Definition event_segment (e : event) : Z := match e with Appear i | Look i => i end.

Definition run_event (e : event) : D bool :=
  match e with
  | Appear i => _ ← sm_modify (fun s => set_disk (<[seg i := stream i]> (disk s)) s); mret true
  | Look i => body i
  end.
Fixpoint run_events (es : list event) : D bool :=
  match es with
  | [] => mret true
  | e :: es' => ok ← run_event e; if ok : bool then run_events es' else mret false
  end.

Definition appeared (es : list event) : list Z :=
  omap (fun e => match e with Appear i => Some i | Look _ => None end) es.

(** Every segment of [A] waits in its file or is in place. *)
Definition collected (A : list Z) (s : dumping) : Prop :=
  tables (current_self s) /\ forall j, 0 <= j < n ->
    (disk s !! seg j = None \/ disk s !! seg j = Some (stream j)) /\
    (j ∈ A -> disk s !! seg j = Some (stream j) \/ placed (disk s) j).

Abbreviation good := (no_errors /\ unpacks /\ apart /\ names /\ separate).

Lemma look_collected A i s : good -> 0 <= i < n -> collected A s -> exists s',
  body i s = Done (true, s') /\ collected A s' /\ disk s' !! seg i = None /\
  forall j, 0 <= j < n -> disk s !! seg j = None -> disk s' !! seg j = None.
Proof.
  intros (Herr & U & Ha & N & Hsep) Hi [T H]. destruct (H i Hi) as [[Hno|Hc] _].
  - exists s. split; [|split; [by split|by split]]. unfold decompress_segment. dstep. by rewrite bool_decide_eq_true_2 by done.
  - destruct (body_spec i s Herr U Ha N T Hi (seg_ne_elf i N Hi) Hc) as (s' & E & T' & D). exists s'.
    split; [done|]. rewrite D. split; [split; [done|]|split; [apply after_gone|]].
    + intros j Hj. rewrite D. destruct (decide (i = j)) as [<-|Hne].
      * split; [left; apply after_gone|]. intros _. right. by apply placed_now.
      * rewrite after_seg by done. destruct (H j Hj) as [H1 H2]. split; [done|]. intros Hin.
        destruct (H2 Hin) as [?|?]; [by left|right; by apply placed_after].
    + intros j Hj Hno. destruct (decide (i = j)) as [<-|Hne]; [apply after_gone|by rewrite after_seg].
Qed.

Lemma run_events_collected es : good -> forall A s, collected A s ->
  (forall e, e ∈ es -> 0 <= event_segment e < n) -> exists s',
  run_events es s = Done (true, s') /\ collected (A ++ appeared es) s'.
Proof.
  intros Hg. induction es as [|e es IH]; intros A s Hs He; cbn [run_events].
  { exists s. unfold appeared. cbn [omap list_omap]. by rewrite app_nil_r. }
  pose proof (He e ltac:(by left)) as Hi.
  assert (forall e', e' ∈ es -> 0 <= event_segment e' < n) as Hes by (intros e' ?; apply He; by right).
  destruct e as [i|i]; cbn [run_event event_segment] in *.
  - unfold appeared. cbn [omap list_omap]. fold (appeared es).
    destruct (IH (A ++ [i]) (set_disk (<[seg i := stream i]> (disk s)) s)) as (s' & E & H'); [|done|].
    { destruct Hs as [T H], Hg as (_ & _ & _ & N & _). split; [done|]. intros j Hj. cbn [set_disk disk].
      destruct (decide (i = j)) as [<-|Hne]; [rewrite lookup_insert_eq; split; [by right|by left]|].
      rewrite lookup_insert_ne by (intros Es; by apply seg_inj in Es). destruct (H j Hj) as [H1 H2]. split; [done|].
      intros [Hin|Hin]%elem_of_app; [|apply elem_of_cons in Hin as [->|Hin]; [done|by apply elem_of_nil in Hin]].
      destruct (H2 Hin) as [?|?]; [by left|right; by apply placed_appear]. }
    exists s'. rewrite <- app_assoc in H'. split; [exact E|exact H'].
  - destruct (look_collected A i s Hg Hi Hs) as (s1 & E & H1 & _). rewrite (sm_bind_Done _ _ _ _ _ E).
    destruct (IH A s1 H1 Hes) as (s' & E' & H'). by exists s'.
Qed.

Abbreviation pass_loop := (decompress_loop uncompress compress inflateEnd open_w remove_r mem_ok junk fuel
  current_elf current_file dump_type).

Lemma pass_loop_collected A : good -> forall m i s, collected A s -> 0 <= i <= n -> (Z.to_nat (n - i) < m)%nat ->
  exists s', pass_loop m elf i s = Done (tt, s') /\ collected A s' /\
    (forall j, i <= j < n -> disk s' !! seg j = None) /\
    forall j, 0 <= j < n -> disk s !! seg j = None -> disk s' !! seg j = None.
Proof.
  intros Hg m. induction m as [|m IH]; intros i s Hs Hi Hm; [lia|]. cbn [decompress_loop]. dstep.
  rewrite (tab_phnum _ (proj1 Hs)). dstep. destruct (Z.ltb_spec i n) as [Hlt|Hge].
  - destruct (look_collected A i s Hg ltac:(lia) Hs) as (s1 & E & H1 & Hi1 & Hk1). rewrite (sm_bind_Done _ _ _ _ _ E).
    destruct (IH (i + 1) s1 H1 ltac:(lia) ltac:(lia)) as (s2 & E2 & H2 & Hi2 & Hk2). exists s2.
    split; [done|]. split; [done|]. split.
    + intros j Hj. destruct (decide (j = i)) as [->|Hne]; [apply Hk2; [lia|done]|]. apply Hi2. lia.
    + intros j Hj Hno. by apply Hk2, Hk1.
  - exists s. split; [done|]. split; [done|]. split; [lia|done].
Qed.

Lemma collect_spec es s m : good -> 0 <= n -> (Z.to_nat n < m)%nat -> tables (current_self s) ->
  (forall j, 0 <= j < n -> disk s !! seg j = None) ->
  (forall e, e ∈ es -> 0 <= event_segment e < n) -> exists s',
  (_ ← run_events es; decompress_pass uncompress compress inflateEnd open_w remove_r mem_ok junk fuel
    current_elf current_file dump_type m) s = Done (tt, s') /\
  tables (current_self s') /\ (forall j, j ∈ appeared es -> placed (disk s') j) /\
  (forall j, 0 <= j < n -> disk s' !! seg j = None).
Proof.
  intros Hg Hn Hm T Hno He.
  destruct (run_events_collected es Hg [] s) as (s1 & E1 & H1); [|done|].
  { split; [done|]. intros j Hj. split; [left; by apply Hno|]. intros Hin. by apply elem_of_nil in Hin. }
  rewrite (sm_bind_Done _ _ _ _ _ E1). unfold decompress_pass. dstep. rewrite (tab_elf _ (proj1 H1)). dstep.
  destruct (pass_loop_collected _ Hg m 0 s1 H1) as (s2 & E2 & [T2 H2] & Hgone & _); [lia|by rewrite Z.sub_0_r|].
  exists s2. split; [exact E2|]. split; [done|]. split; [|exact Hgone]. intros j Hj.
  assert (0 <= j < n) as Hjn.
  { apply list_elem_of_omap in Hj as (e & Hin & Hej). apply He in Hin. destruct e; by simplify_eq/=. }
  destruct (proj2 (H2 j Hjn) Hj) as [Hc|]; [|done]. by rewrite (Hgone j Hjn) in Hc.
Qed.

(** C10: When nothing fails ([no_errors]) and every segment with bytes is a
    zlib stream of them, which for a SELF can be compressed again in the room
    of the stream ([unpacks]), then, whatever the order in which the plugin
    finishes segments and the thread looks at them, after one more complete
    turn of the thread the ELF holds the data of every finished segment at the
    offset that its program header gives (and zeros in the gap before a
    segment without bytes), in the SELF the segments stand compressed again,
    and no segment file is left.  The ranges written are disjoint and the
    names not cut off ([good]).  A segment that is not compressed is the
    excluded case: [raw_segment_blocks]. *)
Theorem segments_collected es s m : good -> 0 <= n -> (Z.to_nat n < m)%nat -> tables (current_self s) ->
  (forall j, 0 <= j < n -> disk s !! seg j = None) ->
  (forall e, e ∈ es -> 0 <= event_segment e < n) -> exists s',
  (_ ← run_events es; decompress_pass uncompress compress inflateEnd open_w remove_r mem_ok junk fuel
    current_elf current_file dump_type m) s = Done (tt, s') /\
  (forall j, j ∈ appeared es -> placed (disk s') j) /\
  (forall j, 0 <= j < n -> disk s' !! seg j = None).
Proof.
  intros Hg Hn Hm T Hno He. destruct (collect_spec es s m Hg Hn Hm T Hno He) as (s' & E & _ & H). by exists s'.
Qed.
(** *** A segment that is not compressed *)

(** What neither [uncompress] nor [inflate] takes *)
Definition raw (i : Z) (c : mem) : Prop :=
  (uncompress (mlen (data i)) c).1 <> Z_OK /\ mlen (uncompress (mlen (data i)) c).2 <= mlen (data i) /\
  forall dest, length dest = length (data i) -> exists e dest',
    test_large_inflate inflateEnd fuel c dest = Done (e, dest') /\ e <> Z_OK.

Lemma raw_body i s c : no_errors -> tables (current_self s) -> 0 <= i < n -> data i <> [] -> raw i c ->
  mlen (data i) <= mlen c < 2 ^ 31 -> disk s !! seg i = Some c -> exists s',
  body i s = Done (false, s') /\
  disk s' = <[current_elf := fwrite_at (content (disk s) current_elf) (off i) (take (length (data i)) c)]> (disk s).
Proof.
  intros Herr T Hi Hd (R1 & R2 & R3) Hl Hc. unfold decompress_segment. dstep.
  rewrite bool_decide_eq_false_2 by (by rewrite Hc). dstep. rewrite (tab_ph _ T). dstep. rewrite (tab_filesz _ T i Hi). dstep.
  assert (0 < mlen (data i)) as Hpos by (unfold mlen; destruct (data i); [done|cbn; lia]).
  rewrite (proj2 (Z.leb_gt _ _) Hpos). unfold getFileSize, ReadFile, on_disk. rewrite Hc.
  rewrite (s32_small (mlen c)), (u32_small (mlen c)) by lia.
  do 2 (dstep; rewrite (ok_mem Herr); cbn [negb]).
  rewrite (s32_small (mlen c)) by lia. replace (Z.to_nat (mlen c)) with (length c) by (unfold mlen; lia).
  rewrite firstn_all, (proj2 (Z.ltb_ge (mlen c) 0)) by lia. rewrite (tab_offset _ T i Hi). dstep.
  assert (Z.to_nat (mlen (data i)) = length (data i)) as Hn by (unfold mlen; lia).
  set (s1 := Dumping _ _ _ _).
  assert (exists s2, inflate_segment uncompress inflateEnd junk fuel c (mlen (data i)) s1 = Done (None, s2) /\
    disk s2 = disk s) as (s2 & E2 & D2).
  { unfold inflate_segment. destruct (uncompress (mlen (data i)) c) as [res bs]. cbn [fst snd] in *.
    assert (length bs <= length (junk (Z.to_nat (mlen (data i)))))%nat as Hb by (rewrite (ok_junk Herr), Hn; unfold mlen in R2; lia).
    rewrite blit_start by done. dstep. rewrite (proj2 (Z.eqb_neq _ _) R1). dstep.
    destruct (R3 (over (junk (Z.to_nat (mlen (data i)))) bs)) as (e & dest' & -> & He).
    { by rewrite length_over, (ok_junk Herr), Hn. }
    dstep. rewrite (proj2 (Z.eqb_neq _ _) He). by eexists. }
  rewrite (sm_bind_Done _ _ _ _ _ E2). dstep.
  assert (slice c 0 (Z.to_nat (mlen (data i))) = Done (take (length (data i)) c)) as Es.
  { rewrite Hn. unfold slice. rewrite (proj2 (Z.leb_le (0 + Z.of_nat (length (data i))) (mlen c))) by (unfold mlen in *; lia).
    cbn. by rewrite drop_0. }
  rewrite (sm_bind_Done _ _ _ _ _ (WriteFileSeek_Done open_w current_elf _ (off i) _ _ _ (ok_elf Herr) Es)).
  log_step. eexists. split; [done|]. rewrite Hdisk. cbn [set_disk disk]. by rewrite D2.
Qed.

(** A segment that turns out not to be compressed is written, but the turn
    of the thread ends there with its file still on the disk: so does every
    later turn, and no segment behind it is ever taken. *)
Theorem raw_segment_blocks s m i c : no_errors -> names -> tables (current_self s) -> 0 <= i < n -> (Z.to_nat n < m)%nat ->
  (forall j, 0 <= j < i -> disk s !! seg j = None) ->
  data i <> [] -> raw i c -> mlen (data i) <= mlen c < 2 ^ 31 -> disk s !! seg i = Some c -> exists s',
  decompress_pass uncompress compress inflateEnd open_w remove_r mem_ok junk fuel
    current_elf current_file dump_type m s = Done (tt, s') /\
  holds_at (content (disk s') current_elf) (off i, take (length (data i)) c) /\
  forall j, 0 <= j < n -> disk s' !! seg j = disk s !! seg j.
Proof.
  intros Herr N T Hi Hm Hbefore Hd Hraw Hl Hc. destruct (raw_body i s c Herr T Hi Hd Hraw Hl Hc) as (s' & E & D).
  exists s'. split; [|rewrite D; split].
  - unfold decompress_pass. dstep. rewrite (tab_elf _ T). dstep.
    assert (forall d k m', (Z.to_nat k + d = Z.to_nat i)%nat -> 0 <= k -> (Z.to_nat (n - k) < m')%nat ->
      pass_loop m' elf k s = Done (tt, s')) as H.
    { induction d as [|d IH]; intros k [|m'] Hk Hk0 Hm'; try lia; cbn [decompress_loop]; dstep;
        rewrite (tab_phnum _ T); dstep; rewrite (proj2 (Z.ltb_lt k n)) by lia.
      - assert (k = i) as -> by lia. by rewrite (sm_bind_Done _ _ _ _ _ E).
      - assert (body k s = Done (true, s)) as Ek.
        { unfold decompress_segment. dstep. by rewrite bool_decide_eq_true_2 by (apply Hbefore; lia). }
        rewrite (sm_bind_Done _ _ _ _ _ Ek). apply IH; lia. }
    apply (H (Z.to_nat i)); lia.
  - unfold content. rewrite lookup_insert_eq. apply fwrite_at_same.
  - intros j Hj. rewrite lookup_insert_ne; [done|]. intros Ej. by apply (seg_ne_elf j N Hj).
Qed.
End Collect.

(** ** The theorems on a small module

    The segment table at 128, the ELF header at 192, the program headers at
    244: a segment of four bytes at 116, and one without bytes at 124. *)

Import Stored.

Definition sample_data (i : Z) : mem := if i =? 0 then [1; 2; 3; 4] else [].
Definition sample_off (i : Z) : Z := if i =? 0 then 116 else 124.
Definition sample_stream (i : Z) : mem := Stored.enc (sample_data i) ++ [0].
Definition sample_uncompress (cap : Z) (src : mem) : Z * mem :=
  let st := Stored.feed (Stored.Ist 0 []) src in
  if (Stored.phase st =? 2) && (mlen (Stored.pend st) =? cap) then (Z_OK, Stored.pend st) else (Z_DATA_ERROR, []).
Definition sample_module : mem :=
  replicate 64 0 ++ le 8 192 ++ le 8 244 ++ le 8 0 ++ le 8 128 ++ replicate 32 0 ++
  (le 8 512 ++ le 8 9 ++ le 8 2 ++ le 8 1) ++ (le 8 521 ++ le 8 1 ++ le 8 2 ++ le 8 1) ++
  (replicate 28 0 ++ le 4 52 ++ le 4 0 ++ le 4 0 ++ le 2 52 ++ le 2 32 ++ le 2 2 ++ le 2 0 ++ le 4 0) ++
  (le 4 1 ++ le 4 116 ++ le 8 0 ++ le 4 4 ++ le 12 0) ++ (le 4 1 ++ le 4 124 ++ le 8 0 ++ le 4 0 ++ le 12 0).
Definition sample_soff (i : Z) : Z := if i =? 0 then 512 else 521.

Lemma sample_range i : 0 <= i < 2 -> i = 0 \/ i = 1.
Proof. lia. Qed.

Lemma sample_tables : tables sample_module 192 244 128 2 sample_off sample_soff sample_data sample_module.
Proof. split; try reflexivity; try (intros i [-> | ->]%sample_range; reflexivity); [done|by split]. Qed.

Lemma sample_names : names "a" "b" DUMP_ELF 2.
Proof.
  split; [|done|done]. intros i [-> | ->]%sample_range; pose proof PATH_MAX_large;
    eapply Nat.lt_le_trans; [|eassumption| |eassumption]; apply Nat.ltb_lt; reflexivity.
Qed.

Lemma sample_no_errors : no_errors (fun _ => 0) (fun _ => 0) (fun _ => true) (fun k => replicate k 0) 2 "a" "b" 2.
Proof. split; try done; try lia. intros k. apply length_replicate. Qed.

Lemma sample_unpacks fail_all : unpacks (Dz := Stored.dst) (Iz := Stored.ist) (if fail_all : bool then fun _ _ => (Z_DATA_ERROR, []) else sample_uncompress)
  (fun _ _ => (Z_OK, [])) (fun _ => Z_OK) DUMP_ELF 2 sample_data sample_stream (fun _ => []).
Proof.
  split; [| | | |done|done].
  - intros i _ _. apply (Stored.feed_enc (sample_data i) []).
  - intros i [-> | ->]%sample_range; done.
  - intros cap src o bs Hi Hl. destruct fail_all; [done|]. unfold sample_uncompress.
    change (Stored.feed (Stored.Ist 0 []) src = Stored.Ist 2 o) in Hi. rewrite Hi. cbn [Stored.phase Stored.pend].
    destruct (_ && _); [|done]. by intros [= <-].
  - intros cap src Hcap. destruct fail_all; [done|]. unfold sample_uncompress. destruct (_ && _) eqn:E; [|done].
    apply andb_prop in E as [_ E%Z.eqb_eq]. cbn [snd]. lia.
Qed.

Lemma sample_separate : separate DUMP_ELF 2 sample_off sample_soff sample_data (fun _ => []).
Proof.
  split.
  - intros i j v w [-> | ->]%sample_range [-> | ->]%sample_range Hne Hv Hw; try done;
      vm_compute in Hv, Hw; apply list_elem_of_In in Hv, Hw; cbn in Hv, Hw;
      destruct Hv as [<-|[]], Hw as [<-|[]]; vm_compute; lia.
  - intros i j v w _ _ _ Hv. rewrite self_writes_elf in Hv by done. by apply elem_of_nil in Hv.
Qed.

(** The same module dumped as a SELF, into a file of its own: its first
    segment is stored again. *)
Definition sample_compress (cap : Z) (src : mem) : Z * mem := (Z_OK, Stored.enc src ++ [0]).

Lemma self_names : names "a" "b" DUMP_SELF 2.
Proof.
  destruct sample_names as [H1 H2 _]. split; [done|done|]. intros _. split; [done|].
  intros i [-> | ->]%sample_range; done.
Qed.

Lemma self_unpacks : unpacks (Dz := Stored.dst) (Iz := Stored.ist) sample_uncompress sample_compress
  (fun _ => Z_OK) DUMP_SELF 2 sample_data sample_stream sample_stream.
Proof. destruct (sample_unpacks false) as [H1 H2 H3 H4 H5 _]. by split. Qed.

Lemma self_separate : separate DUMP_SELF 2 sample_off sample_soff sample_data sample_stream.
Proof.
  destruct sample_separate as [H1 _]. split; [exact H1|].
  intros i j v w [-> | ->]%sample_range [-> | ->]%sample_range Hne Hv Hw; try done;
    vm_compute in Hv, Hw; by apply elem_of_nil in Hv || apply elem_of_nil in Hw.
Qed.

Lemma segments_collected_witness : exists s',
  (_ ← run_events sample_uncompress sample_compress (fun _ => Z_OK) (fun _ => 0) (fun _ => 0) (fun _ => true)
         (fun k => replicate k 0) 2 "a" "b" DUMP_SELF sample_stream [Appear 1; Look 0; Look 1; Appear 0];
   decompress_pass sample_uncompress sample_compress (fun _ => Z_OK) (fun _ => 0) (fun _ => 0) (fun _ => true)
     (fun k => replicate k 0) 2 "a" "b" DUMP_SELF 3) (Dumping ∅ sample_module 0 []) = Done (tt, s') /\
  (forall j, j ∈ appeared [Appear 1; Look 0; Look 1; Appear 0] ->
     placed "a" "b" DUMP_SELF sample_off sample_soff sample_data sample_stream (disk s') j) /\
  (forall j, 0 <= j < 2 -> disk s' !! segment_file "a" j = None).
Proof.
  refine (segments_collected sample_uncompress sample_compress (fun _ => Z_OK) (fun _ => 0) (fun _ => 0)
    (fun _ => true) (fun k => replicate k 0) 2 "a" "b" DUMP_SELF sample_module 192 244 128 2 sample_off sample_soff sample_data
    sample_stream sample_stream _ (Dumping ∅ sample_module 0 []) 3 _ _ _ _ _ _).
  - split; [exact sample_no_errors|]. split; [exact self_unpacks|]. split; [by split; lia|].
    split; [exact self_names|exact self_separate].
  - lia.
  - lia.
  - exact sample_tables.
  - intros j _. apply lookup_empty.
  - intros e He. apply list_elem_of_In in He. cbn in He. by destruct He as [<-|[<-|[<-|[<-|[]]]]].
Defined.

Lemma sample_raw : raw sample_uncompress (fun _ => Z_OK) 2 sample_data 0 [7; 7; 7; 7].
Proof.
  split; [done|]. split; [done|]. intros dest Hd. exists Z_DATA_ERROR, dest. split; [|done].
  unfold test_large_inflate. cbn [inflateInit zlib Z.eqb negb inflate_loop].
  change (inflate (Ist 0 []) [7; 7; 7; 7] (length dest)) with (ZStep Z_DATA_ERROR [] 4 (Ist 3 [])). cbn [out].
  rewrite blit_start by (cbn; lia). done.
Qed.

Lemma raw_segment_blocks_witness : exists s',
  decompress_pass sample_uncompress (fun _ _ => (Z_OK, [])) (fun _ => Z_OK) (fun _ => 0) (fun _ => 0) (fun _ => true)
    (fun k => replicate k 0) 2 "a" "b" DUMP_ELF 3
    (Dumping {[ segment_file "a" 0 := [7; 7; 7; 7]; segment_file "a" 1 := [0] ]} sample_module 0 []) = Done (tt, s') /\
  holds_at (content (disk s') "a") (116, [7; 7; 7; 7]) /\
  forall j, 0 <= j < 2 -> disk s' !! segment_file "a" j =
    ({[ segment_file "a" 0 := [7; 7; 7; 7]; segment_file "a" 1 := [0] ]} : gmap string mem) !! segment_file "a" j.
Proof.
  refine (raw_segment_blocks sample_uncompress (fun _ _ => (Z_OK, [])) (fun _ => Z_OK) (fun _ => 0) (fun _ => 0)
    (fun _ => true) (fun k => replicate k 0) 2 "a" "b" DUMP_ELF sample_module 192 244 128 2 sample_off sample_soff sample_data
    (Dumping _ sample_module 0 []) 3 0 [7; 7; 7; 7] sample_no_errors sample_names sample_tables _ _ _ _ sample_raw _ _).
  - lia.
  - lia.
  - lia.
  - done.
  - done.
  - apply lookup_insert_eq.
Defined.
