(* ===== verification/FagFinish.v ===== *)
(** * The end of a module in FAGDec (FAGDec/src/app/dump.c)

    When the plugin is done, the dumping thread clears the section fields of
    the ELF header, writes the two headers, takes the digest out of the
    control information while it strips it, and either renames the finished
    ELF or writes the SELF header and compares the digest.  The state and the
    files are those of [FagDump]. *)

From stdpp Require Import prelude gmap strings.
From S2P Require Import Prelude Bytes CString Yaml Hoare Sha256 ElfTools Zlib FagMenu FagGame FagDump.
Import ElfTools.Layout.

Section Finish.
Context (open_w remove_r rename_r : string -> Z) (mem_ok : nat -> bool) (junk : nat -> mem).
Context (fuel : nat).

(** One turn of the loop over the control information at [p]: [orig_elf_digest] *)
Definition strip_entry (p : Z) (digest : mem) : D mem :=
  hdr ← sm_gets current_self;
  type ← sm_lift (load32 hdr p);
  if type =? 4 then
    hdr ← sm_lift (store32 hdr (p + 76) 0);
    _ ← sm_modify (set_self hdr);
    digest ← sm_lift (slice hdr (p + 36) 32);
    _ ← statusAddLog MENU_NONE;
    mret digest
  else if type =? 5 then
    hdr ← sm_lift (blit hdr (p + 16) (replicate sizeof_npdrm_info 0));
    _ ← sm_modify (set_self hdr);
    mret digest
  else mret digest.

(** [while(control_info->next)] *)
Fixpoint strip_loop (n : nat) (p : Z) (digest : mem) : D mem :=
  match n with
  | O => fun _ => OutOfFuel
  | S n' =>
      hdr ← sm_gets current_self;
      next ← sm_lift (load64 hdr (p + 8));
      if next =? 0 then mret digest
      else
        digest ← strip_entry p digest;
        hdr ← sm_gets current_self;
        size ← sm_lift (load32 hdr (p + 4));
        strip_loop n' (p + size) digest
  end.

(** Whether the file has the digest; [uninit]: the context before [sha256_init] *)
Definition dumpVerifyElf (uninit : SHA256_CTX) (path : string) (orig_elf_digest : mem) : D bool :=
  f ← sm_gets disk;
  let sz := u32 (getFileSize (on_disk f) path) in
  ok ← try_malloc mem_ok;
  if ok : bool then
    let '(res, elf) := ReadFile (on_disk f) path (s32 sz) in
    if res <? 0 then mret false
    else
      ctx ← sm_lift (sha256_update (sha256_init uninit) elf sz);
      let '(_, elf_digest) := sha256_final ctx in
      mret (bool_decide (take 32 orig_elf_digest = elf_digest))
  else mret false.

(** The writes of the two headers; [false]: an error, which ends the module *)
Definition write_headers (file : string) (base : Z) : D bool :=
  hdr ← sm_gets current_self;
  ehdr ← sm_lift (elf_offset hdr);
  bs ← sm_lift (slice hdr ehdr sizeof_Elf32_Ehdr);
  res ← WriteFileSeek open_w file bs (u32 base) (Z.of_nat sizeof_Elf32_Ehdr);
  if res <? 0 then _ ← statusAddLog MENU_BAD; mret false
  else
    phdrs ← sm_lift (phdr_offset hdr);
    phoff ← sm_lift (e_phoff hdr ehdr);
    phentsize ← sm_lift (e_phentsize hdr ehdr);
    phnum ← sm_lift (e_phnum hdr ehdr);
    bs ← sm_lift (slice hdr phdrs (Z.to_nat (phentsize * phnum)));
    res ← WriteFileSeek open_w file bs (u32 (base + phoff)) (phentsize * phnum);
    if res <? 0 then _ ← statusAddLog MENU_BAD; mret false else mret true.

(** [ehdr->e_shnum = 0; ehdr->e_shoff = 0;] *)
Definition clear_sections : D unit :=
  hdr ← sm_gets current_self;
  ehdr ← sm_lift (elf_offset hdr);
  hdr ← sm_lift (store16 hdr (ehdr + 48) 0);
  hdr ← sm_lift (store32 hdr (ehdr + 32) 0);
  sm_modify (set_self hdr).

(** [if(dump_type == DUMP_SELF)], with the fields [version] of the
    application information and [sdk_type] *)
Definition finish_self (uninit : SHA256_CTX) (temp_elf current_file : string) (digest : mem) : D bool :=
  hdr ← sm_gets current_self;
  hlen ← sm_lift (header_len hdr);
  ok ← write_headers current_file hlen;
  if negb ok then mret false
  else
    hdr ← sm_gets current_self;
    appinfo ← sm_lift (load64 hdr 56);
    hdr ← sm_lift (store_le 8 hdr (appinfo + 16) 0);
    hdr ← sm_lift (store16 hdr 8 0xc0);
    _ ← sm_modify (set_self hdr);
    res ← WriteFileSeek open_w current_file hdr 0 0x600;
    if res <? 0 then _ ← statusAddLog MENU_BAD; mret false
    else
      good ← dumpVerifyElf uninit temp_elf digest;
      _ ← (if good : bool then
             _ ← statusAddLog MENU_NONE;
             res ← sceIoRemove remove_r temp_elf;
             log_if (res <? 0) MENU_BAD
           else statusAddLog MENU_BAD);
      mret true.

(** the other branch *)
Definition finish_elf (temp_elf elf_path : string) (digest : mem) : D bool :=
  res ← sceIoRename rename_r temp_elf elf_path;
  if res <? 0 then _ ← statusAddLog MENU_BAD; mret false
  else
    _ ← statusAddLog MENU_NONE;
    res ← WriteFile open_w (cut (elf_path +:+ ".sha256")) digest 32;
    _ ← log_if (res <? 0) MENU_BAD;
    mret true.

(** From the last [sceKernelWaitEventFlag] to the end of the module; [auth]:
    the file of the plugin with the authentication information, and where it
    goes; [false]: a [continue] after an error *)
Definition finish_module (uninit : SHA256_CTX) (dump_type : DumpType) (temp_elf elf_path current_file : string)
    (auth : option (string * string)) : D bool :=
  _ ← clear_sections;
  ok ← write_headers temp_elf 0;
  if negb ok then mret false
  else
    _ ← (match auth with
         | Some (old, new) => res ← sceIoRename rename_r old new; statusAddLog (if res <? 0 then MENU_BAD else MENU_NONE)
         | None => mret tt
         end);
    _ ← statusAddLog MENU_NONE;
    hdr ← sm_gets current_self;
    control_info ← sm_lift (controlinfo_offset hdr);
    digest ← strip_loop fuel control_info (junk 32);
    ok ← (match dump_type with
          | DUMP_SELF => finish_self uninit temp_elf current_file digest
          | DUMP_ELF => finish_elf temp_elf elf_path digest
          end);
    if negb ok then mret false else _ ← statusAddLog MENU_NONE; mret true.
End Finish.

(** ** The control information *)

(** The digest of the last entry of type 4 that the loop visits *)
Fixpoint control_digest (m : mem) (p : Z) (es : list (Z * Z)) (d : mem) : mem :=
  match es with
  | [] => d
  | (type, size) :: es' =>
      control_digest m (p + size) es' (if type =? 4 then take 32 (drop (Z.to_nat (p + 36)) m) else d)
  end.

(** Entries of type 4 have their field [min_required_fw]. *)
Definition has_fw (es : list (Z * Z)) : Prop := Forall (fun e => e.1 = 4 -> 80 <= e.2) es.

Lemma part_differ s n m m' off k : differ_in s n m m' -> 0 <= off ->
  off + Z.of_nat k <= s \/ s + n <= off ->
  take k (drop (Z.to_nat off) m') = take k (drop (Z.to_nat off) m).
Proof.
  intros [L D] Ho Hk. apply list_eq. intros i. destruct (decide (i < k)%nat) as [Hi|Hi].
  - rewrite !lookup_take_lt, !lookup_drop by done.
    replace (Z.to_nat off + i)%nat with (Z.to_nat (off + Z.of_nat i)) by lia.
    apply load8_lookup; [lia|]. apply D. lia.
  - by rewrite !lookup_take_ge by lia.
Qed.

Lemma control_digest_differ s n m m' es : differ_in s n m m' -> forall p d, 0 <= p -> s + n <= p ->
  control_chain m p es -> control_digest m' p es d = control_digest m p es d.
Proof.
  intros D. induction es as [|[ty sz] es IH]; intros p d Hp Hs Hc; [done|]. cbn [control_digest control_chain] in *.
  destruct Hc as (_ & _ & _ & Hpl & _ & Hc). apply payload_min in Hpl.
  rewrite (part_differ _ _ _ _ _ _ D) by lia. apply IH; [lia|lia|done].
Qed.

Lemma slice_differ s n m m' off k : differ_in s n m m' ->
  off + Z.of_nat k <= s \/ s + n <= off -> slice m' off k = slice m off k.
Proof.
  intros D Ho. unfold slice. rewrite (proj1 D). destruct (0 <=? off) eqn:E; [|done]. cbn [andb].
  case_match; [|done]. by rewrite (part_differ _ _ _ _ _ _ D) by lia.
Qed.

Lemma slice_part m off k bs : slice m off k = Done bs -> bs = take k (drop (Z.to_nat off) m).
Proof. by intros (_ & _ & ->)%slice_inv. Qed.

Lemma strip_entry_spec p ty sz d s : 0 <= p -> load32 (current_self s) p = Done ty ->
  payload ty <= sz -> (ty = 4 -> 80 <= sz) -> p + sz <= mlen (current_self s) -> exists s',
  strip_entry p d s = Done (if ty =? 4 then take 32 (drop (Z.to_nat (p + 36)) (current_self s)) else d, s') /\
  differ_in (p + 16) (sz - 16) (current_self s) (current_self s') /\ disk s' = disk s.
Proof.
  intros Hp Ht Hpl H4 Hl. pose proof (payload_min _ _ Hpl) as Hmin. unfold strip_entry. dstep. rewrite Ht. dstep.
  unfold payload in Hpl. destruct (Z.eqb_spec ty 4) as [->|]; [|destruct (Z.eqb_spec ty 5) as [->|]].
  - specialize (H4 eq_refl). destruct (store_le_total 4 (current_self s) (p + 76) 0) as [m E]; [lia|simpl; lia|].
    rewrite E. pose proof (store_differ _ _ _ _ _ E) as D. do 2 dstep.
    destruct (slice_total m (p + 36) 32) as [bs Eb]; [lia|rewrite (proj1 D); lia|].
    rewrite Eb. do 2 dstep. eexists. split; [|split].
    + rewrite (slice_part _ _ _ _ Eb), (part_differ _ _ _ _ _ _ D) by (simpl; lia). done.
    + eapply differ_in_weaken; [| |exact D]; simpl; lia.
    + done.
  - destruct (blit_total (current_self s) (p + 16) (replicate sizeof_npdrm_info 0)) as [m E];
      [lia|unfold mlen at 1; rewrite length_replicate; unfold sizeof_npdrm_info; lia|].
    rewrite E. do 2 dstep. eexists. split; [done|]. split; [|done].
    eapply differ_in_weaken; [| |by eapply blit_differ]; unfold mlen; rewrite ?length_replicate; unfold sizeof_npdrm_info; lia.
  - exists s. split; [done|]. split; [by repeat split|done].
Qed.

Lemma strip_loop_spec es : forall m p d s, control_chain (current_self s) p es -> has_fw es -> 0 <= p ->
  (length es < m)%nat -> exists s',
  strip_loop m p d s = Done (control_digest (current_self s) p es d, s') /\
  differ_in p (control_size es) (current_self s) (current_self s') /\ disk s' = disk s.
Proof.
  induction es as [|[ty sz] es IH]; intros [|m] p d s Hc Hfw Hp Hm; try (cbn in Hm; lia);
    cbn [strip_loop control_chain control_digest] in *; dstep.
  - rewrite Hc. dstep. exists s. split; [done|]. by repeat split.
  - destruct Hc as ((nx & -> & Hnz) & Hty & Hsz & Hpl & Hb & Hc). dstep. rewrite (proj2 (Z.eqb_neq _ _) Hnz).
    apply Forall_cons in Hfw as [Hfw Hfws]. pose proof (payload_min _ _ Hpl).
    destruct (strip_entry_spec p ty sz d s Hp Hty Hpl Hfw Hb) as (s1 & E1 & D1 & K1).
    rewrite (sm_bind_Done _ _ _ _ _ E1). dstep.
    rewrite (differ_in_load 4 _ _ _ _ (p + 4) D1), Hsz by (simpl; lia). dstep.
    destruct (IH m (p + sz) (if ty =? 4 then take 32 (drop (Z.to_nat (p + 36)) (current_self s)) else d) s1)
      as (s2 & E2 & D2 & K2); [|done|lia|cbn in Hm; lia|].
    { eapply control_chain_differ; [exact D1|left; lia|done]. }
    exists s2. split; [|split; [|congruence]].
    + rewrite E2. rewrite (control_digest_differ _ _ _ _ _ D1) by (done || lia). done.
    + pose proof (control_size_nonneg _ _ _ Hc). cbn [control_size foldr snd]. eapply differ_in_trans;
        (eapply differ_in_weaken; [| |eassumption]; unfold control_size in *; lia).
Qed.

(** ** The headers *)

Definition sections_cleared (elf : Z) (hdr hdr' : mem) : Prop :=
  mlen hdr' = mlen hdr /\ load16 hdr' (elf + 48) = Done 0 /\ load32 hdr' (elf + 32) = Done 0 /\
  forall o, o < elf + 32 \/ elf + 36 <= o < elf + 48 \/ elf + 50 <= o -> load8 hdr' o = load8 hdr o.

Lemma clear_sections_spec elf s : elf_offset (current_self s) = Done elf -> 0 <= elf ->
  elf + 52 <= mlen (current_self s) -> exists hdr',
  clear_sections s = Done (tt, set_self hdr' s) /\ sections_cleared elf (current_self s) hdr'.
Proof.
  intros He H0 Hl. unfold clear_sections. dstep. rewrite He. dstep.
  destruct (store_le_total 2 (current_self s) (elf + 48) 0) as [m1 E1]; [lia|simpl; lia|].
  pose proof (store_le_mlen _ _ _ _ _ E1) as L1.
  destruct (store_le_total 4 m1 (elf + 32) 0) as [m2 E2]; [lia|simpl; lia|].
  rewrite E1. dstep. rewrite E2. dstep. exists m2. split; [done|].
  split; [by rewrite (store_le_mlen _ _ _ _ _ E2)|]. split; [|split].
  - rewrite (load_le_store_le_other 2 _ _ _ _ _ _ E2) by (simpl; lia). exact (load_le_store_le_same _ _ _ _ _ E1).
  - exact (load_le_store_le_same _ _ _ _ _ E2).
  - intros o Ho. rewrite (proj2 (store_differ _ _ _ _ _ E2)), (proj2 (store_differ _ _ _ _ _ E1)) by (simpl; lia). done.
Qed.

Lemma cleared_differ elf m m' : sections_cleared elf m m' -> differ_in (elf + 32) 18 m m'.
Proof. intros (L & _ & _ & H). split; [done|]. intros o Ho. apply H. lia. Qed.

(** What the header [hdr] says of the ELF *)
Record headers (hdr : mem) (elf ph n pes phoff : Z) : Prop := {
  hd_elf : elf_offset hdr = Done elf;
  hd_ph : phdr_offset hdr = Done ph;
  hd_phoff : e_phoff hdr elf = Done phoff;
  hd_phentsize : e_phentsize hdr elf = Done pes;
  hd_phnum : e_phnum hdr elf = Done n;
  hd_fits : 0 <= elf /\ elf + 52 <= mlen hdr < 2 ^ 31;
  hd_table : 0 <= ph /\ 0 <= pes * n /\ ph + pes * n <= mlen hdr;
}.

Lemma headers_differ hdr hdr' elf ph n pes phoff s k : differ_in s k hdr hdr' ->
  (128 <= s) -> (elf + 52 <= s \/ s + k <= elf) -> headers hdr elf ph n pes phoff -> headers hdr' elf ph n pes phoff.
Proof.
  intros D Hs He [H1 H2 H3 H4 H5 H6 H7]. pose proof (proj1 D) as L. unfold elf_offset, phdr_offset, e_phoff, e_phentsize, e_phnum in *.
  split; unfold elf_offset, phdr_offset, e_phoff, e_phentsize, e_phnum; rewrite ?L; try done;
    (rewrite (differ_in_load _ _ _ _ _ _ D) by (simpl; lia)); done.
Qed.

(** Clearing the sections leaves these fields, although it writes between them. *)
Lemma headers_cleared hdr hdr' elf ph n pes phoff : sections_cleared elf hdr hdr' -> 128 <= elf ->
  headers hdr elf ph n pes phoff -> headers hdr' elf ph n pes phoff.
Proof.
  intros (L & _ & _ & C) He [H1 H2 H3 H4 H5 H6 H7].
  assert (forall k o, o + Z.of_nat k <= elf + 32 \/ elf + 36 <= o /\ o + Z.of_nat k <= elf + 48 ->
    load_le k hdr' o = load_le k hdr o) as HL by (intros k o Ho; apply load_le_ext; intros x Hx; apply C; lia).
  unfold elf_offset, phdr_offset, e_phoff, e_phentsize, e_phnum in *.
  split; unfold elf_offset, phdr_offset, e_phoff, e_phentsize, e_phnum; rewrite ?L; try done;
    (rewrite HL by (simpl; lia)); done.
Qed.

Section Spec.
Context (open_w remove_r rename_r : string -> Z) (mem_ok : nat -> bool) (junk : nat -> mem).
Context (fuel : nat).

Lemma write_headers_spec file base elf ph n pes phoff s : 0 <= open_w file ->
  headers (current_self s) elf ph n pes phoff -> exists H P,
  slice (current_self s) elf sizeof_Elf32_Ehdr = Done H /\ slice (current_self s) ph (Z.to_nat (pes * n)) = Done P /\
  write_headers open_w file base s = Done (true,
    set_disk (<[file := fwrite_at (fwrite_at (content (disk s) file) (u32 base) H) (u32 (base + phoff)) P]> (disk s)) s).
Proof.
  intros Ho [H1 H2 H3 H4 H5 H6 H7].
  destruct (slice_total (current_self s) elf sizeof_Elf32_Ehdr) as [H EH]; [lia|unfold sizeof_Elf32_Ehdr; lia|].
  destruct (slice_total (current_self s) ph (Z.to_nat (pes * n))) as [P EP]; [lia|lia|].
  exists H, P. split; [done|]. split; [done|]. unfold write_headers. dstep. rewrite H1. dstep. rewrite EH. dstep.
  assert (forall k off bs, slice (current_self s) off k = Done bs -> slice bs 0 k = Done bs) as Hsl.
  { intros k off bs Hb. apply slice_inv in Hb as (Hb1 & Hb2 & ->). unfold mlen in Hb2.
    pose proof (slice_all (take k (drop (Z.to_nat off) (current_self s)))) as E.
    rewrite length_take, length_drop in E. by replace (k `min` _)%nat with k in E by lia. }
  assert (slice H 0 (Z.to_nat (Z.of_nat sizeof_Elf32_Ehdr)) = Done H) as EH' by (rewrite Nat2Z.id; by eapply Hsl).
  rewrite (sm_bind_Done _ _ _ _ _ (WriteFileSeek_Done open_w file H (u32 base) _ _ s Ho EH')). change (s32 (Z.of_nat sizeof_Elf32_Ehdr) <? 0) with false. cbv iota.
  rewrite H2. dstep. rewrite H3. dstep. rewrite H4. dstep. rewrite H5. dstep. rewrite EP. dstep.
  rewrite (sm_bind_Done _ _ _ _ _ (WriteFileSeek_Done open_w file P (u32 (base + phoff)) (pes * n) _ _ Ho (Hsl _ _ _ EP))).
  rewrite (s32_small (pes * n)), (proj2 (Z.ltb_ge (pes * n) 0)) by lia.
  cbn [set_disk disk]. rewrite lookup_insert_eq, insert_insert_eq. done.
Qed.

(** ** The finished file *)

Definition auth_files (auth : option (string * string)) : list string :=
  match auth with Some (old, new) => [old; new] | None => [] end.

Lemma auth_spec auth s : exists s',
  (match auth with
   | Some (old, new) => res ← sceIoRename rename_r old new; statusAddLog (if res <? 0 then MENU_BAD else MENU_NONE)
   | None => mret tt
   end) s = Done (tt, s') /\ current_self s' = current_self s /\
  forall p, p ∉ auth_files auth -> disk s' !! p = disk s !! p.
Proof.
  destruct auth as [[old new]|]; [|by exists s].
  assert (exists r s1, sceIoRename rename_r old new s = Done (r, s1) /\ current_self s1 = current_self s /\
    forall p, p <> old -> p <> new -> disk s1 !! p = disk s !! p) as (r & s1 & E & H1 & H2).
  { unfold sceIoRename. dstep. destruct (disk s !! old) as [c|]; [|by eexists _, s].
    destruct (rename_r new <? 0); [by eexists _, s|]. dstep. eexists _, _. split; [done|]. split; [done|].
    intros p Ho Hn. cbn [set_disk disk]. by rewrite lookup_insert_ne, lookup_delete_ne. }
  rewrite (sm_bind_Done _ _ _ _ _ E). eexists. split; [done|]. split; [done|]. intros p Hp. cbn [auth_files] in Hp.
  apply not_elem_of_cons in Hp as [Ho Hp]. apply not_elem_of_cons in Hp as [Hn _]. by apply H2.
Qed.

Lemma finish_elf_spec temp_elf elf_path digest c s : disk s !! temp_elf = Some c -> 0 <= rename_r elf_path ->
  0 <= open_w (cut (elf_path +:+ ".sha256")) -> length digest = 32%nat ->
  cut (elf_path +:+ ".sha256") <> elf_path -> cut (elf_path +:+ ".sha256") <> temp_elf -> exists s',
  finish_elf open_w rename_r temp_elf elf_path digest s = Done (true, s') /\
  disk s' = <[cut (elf_path +:+ ".sha256") := content (disk s) (cut (elf_path +:+ ".sha256")) ++ digest]>
    (<[elf_path := c]> (delete temp_elf (disk s))).
Proof.
  set (sha := cut _). intros Hc Hr Ho Hd H1 H2. unfold finish_elf. fold sha.
  assert (sceIoRename rename_r temp_elf elf_path s = Done (0, set_disk (<[elf_path := c]> (delete temp_elf (disk s))) s)) as E.
  { unfold sceIoRename. dstep. rewrite Hc, (proj2 (Z.ltb_ge _ _) Hr). by dstep. }
  rewrite (sm_bind_Done _ _ _ _ _ E). change (0 <? 0) with false. cbv iota. dstep.
  set (s1 := Dumping _ _ _ _).
  assert (WriteFile open_w sha digest 32 s1 = Done (32, set_disk (<[sha := content (disk s1) sha ++ digest]> (disk s1)) s1)) as E1.
  { unfold WriteFile. rewrite (proj2 (Z.ltb_ge _ _) Ho). replace (Z.to_nat 32) with (length digest) by (by rewrite Hd).
    rewrite slice_all. by dsteps. }
  rewrite (sm_bind_Done _ _ _ _ _ E1). log_step. eexists. split; [done|]. rewrite Hdisk. cbn [set_disk disk s1].
  unfold content. by rewrite lookup_insert_ne, lookup_delete_ne by done.
Qed.

Lemma load8_slice m off k bs o : slice m off k = Done bs -> 0 <= o < Z.of_nat k -> load8 bs o = load8 m (off + o).
Proof.
  intros Hs Ho. apply slice_inv in Hs as (H1 & H2 & ->). unfold load8.
  rewrite (proj2 (Z.ltb_ge o 0)), (proj2 (Z.ltb_ge (off + o) 0)) by lia.
  rewrite lookup_take_lt, lookup_drop by lia. by replace (Z.to_nat off + Z.to_nat o)%nat with (Z.to_nat (off + o)) by lia.
Qed.
Lemma load_le_slice j m off k bs o : slice m off k = Done bs -> 0 <= o -> o + Z.of_nat j <= Z.of_nat k ->
  load_le j bs o = load_le j m (off + o).
Proof.
  intros Hs. revert o. induction j as [|j IH]; intros o Ho Hj; [done|]. cbn [load_le].
  rewrite (load8_slice _ _ _ _ _ Hs) by lia. rewrite IH by lia. by rewrite Z.add_assoc.
Qed.

Lemma control_digest_length m es : forall p d, 0 <= p -> control_chain m p es -> length d = 32%nat ->
  length (control_digest m p es d) = 32%nat.
Proof.
  induction es as [|[ty sz] es IH]; intros p d Hp Hc Hd; [done|]. cbn [control_chain control_digest] in *.
  destruct Hc as (_ & _ & _ & Hpl & Hb & Hc). pose proof (payload_min _ _ Hpl). unfold payload in Hpl. apply IH; [lia|done|].
  destruct (ty =? 4); [|done]. rewrite length_take, length_drop. unfold mlen in Hb. lia.
Qed.

(** The header of the finished ELF is that of the SELF but for its sections,
    and the program headers stand where it says. *)
Record elf_headed (hdr : mem) (elf ph n phoff : Z) (f : mem) : Prop := {
  head_elf : exists H, holds_at f (0, H) /\ length H = 52%nat /\ load16 H 48 = Done 0 /\ load32 H 32 = Done 0 /\
    forall o, 0 <= o < 32 \/ 36 <= o < 48 \/ 50 <= o < 52 -> load8 H o = load8 hdr (elf + o);
  head_phdrs : exists P, slice hdr ph (Z.to_nat (32 * n)) = Done P /\ holds_at f (phoff, P);
}.

(** The control information and the names at the end of a module *)
Record ending (hdr : mem) (elf ph n phoff ci : Z) (es : list (Z * Z)) (temp_elf elf_path : string)
    (auth : option (string * string)) : Prop := {
  en_headers : headers hdr elf ph n 32 phoff;
  en_control : controlinfo_offset hdr = Done ci /\ control_chain hdr ci es /\ has_fw es /\ (length es < fuel)%nat;
  en_apart : 128 <= elf /\ elf + 52 <= ci /\ (elf + 52 <= ph \/ ph + 32 * n <= elf);
  en_phoff : 52 <= phoff < 2 ^ 32;
  en_open : 0 <= open_w temp_elf /\ 0 <= open_w (cut (elf_path +:+ ".sha256")) /\ 0 <= rename_r elf_path;
  en_names : cut (elf_path +:+ ".sha256") <> elf_path /\ cut (elf_path +:+ ".sha256") <> temp_elf /\ temp_elf <> elf_path;
  en_auth : forall p, p ∈ auth_files auth -> p <> temp_elf /\ p <> elf_path /\ p <> cut (elf_path +:+ ".sha256");
  en_junk : length (junk 32) = 32%nat;
}.

Lemma en_auth_not hdr elf ph n phoff ci es temp elf_path auth p :
  ending hdr elf ph n phoff ci es temp elf_path auth ->
  p = temp \/ p = elf_path \/ p = cut (elf_path +:+ ".sha256") -> p ∉ auth_files auth.
Proof. intros E Hp Hin. destruct (en_auth _ _ _ _ _ _ _ _ _ _ E p Hin) as (? & ? & ?). by destruct Hp as [->|[->| ->]]. Qed.

Lemma finish_module_elf uninit elf ph n phoff ci es temp elf_path current_file auth s :
  ending (current_self s) elf ph n phoff ci es temp elf_path auth -> exists s' H P,
  finish_module open_w remove_r rename_r mem_ok junk fuel uninit DUMP_ELF temp elf_path current_file auth s = Done (true, s') /\
  slice (current_self s) ph (Z.to_nat (32 * n)) = Done P /\
  (length H = 52%nat /\ load16 H 48 = Done 0 /\ load32 H 32 = Done 0 /\
   forall o, 0 <= o < 32 \/ 36 <= o < 48 \/ 50 <= o < 52 -> load8 H o = load8 (current_self s) (elf + o)) /\
  disk s' !! elf_path = Some (fwrite_at (fwrite_at (content (disk s) temp) 0 H) phoff P) /\
  disk s' !! temp = None /\
  content (disk s') (cut (elf_path +:+ ".sha256")) =
    content (disk s) (cut (elf_path +:+ ".sha256")) ++ control_digest (current_self s) ci es (junk 32).
Proof.
  intros En. pose proof En as [Hh (Hci & Hch & Hfw & Hfuel) (Ha1 & Ha2 & Ha3) Hpo (Ho1 & Ho2 & Ho3) (Hn1 & Hn2 & Hn3) _ Hj].
  destruct (hd_fits _ _ _ _ _ _ Hh) as (He0 & He & Hsmall).
  destruct (clear_sections_spec elf s (hd_elf _ _ _ _ _ _ Hh)) as (m & E1 & C); [lia|lia|].
  unfold finish_module. rewrite (sm_bind_Done _ _ _ _ _ E1).
  pose proof (headers_cleared _ _ _ _ _ _ _ C Ha1 Hh) as Hh1. pose proof (cleared_differ _ _ _ C) as D.
  destruct (write_headers_spec temp 0 elf ph n 32 phoff (set_self m s) Ho1 Hh1) as (H & P & EH & EP & E2).
  rewrite (sm_bind_Done _ _ _ _ _ E2). cbn [negb]. set (s2 := set_disk _ _) in *.
  destruct (auth_spec auth s2) as (s3 & E3 & S3 & K3). rewrite (sm_bind_Done _ _ _ _ _ E3). do 2 dstep.
  cbn [set_disk set_self current_self s2] in S3. rewrite S3. cbn [current_self].
  assert (controlinfo_offset m = Done ci) as -> by (rewrite <- Hci; apply (differ_in_load 8 _ _ _ _ _ D); simpl; lia).
  dstep. set (s4 := Dumping _ _ _ _).
  assert (control_chain (current_self s4) ci es) as Hch4.
  { cbn [current_self s4]. eapply control_chain_differ; [exact D|left; lia|done]. }
  destruct (strip_loop_spec es fuel ci (junk 32) s4 Hch4 Hfw) as (s5 & E5 & _ & D5); [lia|done|].
  rewrite (sm_bind_Done _ _ _ _ _ E5). cbn [current_self s4].
  rewrite (control_digest_differ _ _ _ _ _ D) by (done || lia).
  set (digest := control_digest _ _ _ _). set (F := fwrite_at (fwrite_at (content (disk s) temp) 0 H) phoff P).
  assert (forall p, p = temp \/ p = elf_path \/ p = cut (elf_path +:+ ".sha256") -> disk s5 !! p = disk s2 !! p) as K5.
  { intros p Hp. rewrite D5. cbn [disk s4]. apply K3. by eapply en_auth_not. }
  assert (disk s5 !! temp = Some F) as Hc5.
  { rewrite K5 by (by left). cbn [disk set_disk s2]. rewrite lookup_insert_eq. unfold F. rewrite (u32_small (0 + phoff)) by lia. done. }
  destruct (finish_elf_spec temp elf_path digest F s5 Hc5 Ho3 Ho2) as (s6 & E6 & D6); [by apply control_digest_length; [lia|..]|done|done|].
  rewrite (sm_bind_Done _ _ _ _ _ E6). cbn [negb]. dstep. eexists _, H, P. split; [done|].
  split; [|split; [|split; [|split]]].
  - rewrite <- EP. cbn [set_self current_self]. symmetry. destruct (hd_table _ _ _ _ _ _ Hh) as (? & ? & ?).
    apply (slice_differ _ _ _ _ _ _ D). lia.
  - cbn [set_self current_self] in EH. destruct C as (_ & C1 & C2 & C3).
    split; [|split; [|split]].
    + apply slice_inv in EH as (_ & Hl & ->). rewrite length_take, length_drop. unfold mlen, sizeof_Elf32_Ehdr in *. lia.
    + rewrite (load_le_slice 2 _ _ _ _ _ EH) by (unfold sizeof_Elf32_Ehdr; simpl; lia). exact C1.
    + rewrite (load_le_slice 4 _ _ _ _ _ EH) by (unfold sizeof_Elf32_Ehdr; simpl; lia). exact C2.
    + intros o Ho. rewrite (load8_slice _ _ _ _ _ EH) by (unfold sizeof_Elf32_Ehdr; lia). apply C3. lia.
  - cbn [disk]. rewrite D6, lookup_insert_ne, lookup_insert_eq by done. done.
  - cbn [disk]. rewrite D6, !lookup_insert_ne, lookup_delete_eq by done. done.
  - cbn [disk]. unfold content. rewrite D6, lookup_insert_eq. cbn [default]. f_equal. unfold content.
    rewrite K5 by (by right; right). cbn [s2 set_disk disk]. by rewrite lookup_insert_ne.
Qed.
End Spec.

(** ** A whole module *)

Section Module.
Context {Dz Iz : Type} `{!Zlib Dz Iz} `{!ZlibLaws Dz Iz}.
Context (uncompress compress : Z -> mem -> Z * mem) (inflateEnd : Iz -> Z).
Context (open_w remove_r rename_r : string -> Z) (mem_ok : nat -> bool) (junk : nat -> mem).
Context (fuel : nat) (temp elf_path : string).
Context (hdr0 : mem) (elf ph si n : Z) (off soff : Z -> Z) (data stream packed : Z -> mem).

(** The plugin and the decompressing thread, one more turn of the thread, and
    the end of the module *)
Definition dump_module (es : list event) (m : nat) (uninit : SHA256_CTX) (auth : option (string * string)) : D bool :=
  _ ← run_events uncompress compress inflateEnd open_w remove_r mem_ok junk fuel temp elf_path DUMP_ELF stream es;
  _ ← decompress_pass uncompress compress inflateEnd open_w remove_r mem_ok junk fuel temp elf_path DUMP_ELF m;
  finish_module open_w remove_r rename_r mem_ok junk fuel uninit DUMP_ELF temp elf_path elf_path auth.

Lemma sm_bind_assoc {S A B C} (m : SM S A) (f : A -> SM S B) (g : B -> SM S C) s :
  (x ← m; y ← f x; g y) s = (y ← (x ← m; f x); g y) s.
Proof. unfold mbind, sm_bind. by destruct (m s) as [[]| |]. Qed.

Lemma ending_differ hdr hdr' phoff ci ces auth s k : differ_in s k hdr hdr' -> 128 <= s -> 0 <= k ->
  (elf + 52 <= s \/ s + k <= elf) -> s + k <= ci ->
  ending open_w rename_r junk fuel hdr elf ph n phoff ci ces temp elf_path auth ->
  ending open_w rename_r junk fuel hdr' elf ph n phoff ci ces temp elf_path auth.
Proof.
  intros D Hs Hk He Hci [E1 (E2 & E3 & E4 & E5) E6 E7 E8 E9 E10 E11]. split; try done.
  - by eapply headers_differ.
  - split; [|split; [|done]].
    + rewrite <- E2. apply (differ_in_load 8 _ _ _ _ _ D). simpl. lia.
    + eapply control_chain_differ; [exact D|by left|done].
Qed.

End Module.

(** ** The digest of a finished ELF *)

(** The check of a dumped SELF compares the digest of the control
    information with the SHA-256 of the temporary ELF, read whole. *)
Theorem verify_compares (mem_ok : nat -> bool) uninit path digest c s : length (Sha256.data uninit) = 64%nat ->
  mem_ok (mallocs s) = true -> disk s !! path = Some c -> mlen c < 2 ^ 31 -> length digest = 32%nat ->
  dumpVerifyElf mem_ok uninit path digest s =
    Done (bool_decide (digest = sha256 c), Dumping (disk s) (current_self s) (S (mallocs s)) (shown s)).
Proof.
  intros Hu Hm Hc Hl Hd. assert (0 <= mlen c) as H0 by (unfold mlen; lia).
  unfold dumpVerifyElf. dstep. dstep. rewrite Hm. unfold getFileSize, ReadFile, on_disk. rewrite Hc.
  rewrite (s32_small (mlen c)), (u32_small (mlen c)) by lia. rewrite (s32_small (mlen c)) by lia.
  replace (Z.to_nat (mlen c)) with (length c) by (unfold mlen; lia). rewrite firstn_all, (proj2 (Z.ltb_ge (mlen c) 0)) by lia.
  destruct (sha256_update_done uninit c Hu) as (ctx & E & Hf); [lia|]. rewrite u32_small in E by lia. rewrite E. dstep.
  destruct (sha256_final ctx) as [ctx' dg]. cbn [snd] in Hf. subst dg. by rewrite firstn_all2 by lia.
Qed.

(** ** The theorems on a small module

    That of [FagDump] with control information behind it: the digest, and a
    last entry *)

Import Stored.

Definition sample_control : mem :=
  (le 4 4 ++ le 4 80 ++ le 8 1 ++ replicate 20 7 ++ replicate 32 9 ++ replicate 8 0 ++ le 4 0x363) ++
  (le 4 5 ++ le 4 272 ++ le 8 0).
Definition sample_self_module : mem :=
  take 104 sample_module ++ le 8 308 ++ drop 112 sample_module ++ sample_control.

Lemma sample_self_tables : tables sample_self_module 192 244 128 2 sample_off sample_soff sample_data sample_self_module.
Proof. split; try reflexivity; try (intros i [-> | ->]%sample_range; reflexivity); [done|by split]. Qed.

Lemma sample_cut : cut ("b" +:+ ".sha256") = "b.sha256"%string.
Proof. apply cut_id. pose proof PATH_MAX_large. eapply Nat.lt_le_trans; [|eassumption]. apply Nat.ltb_lt. reflexivity. Qed.

Lemma sample_ending : ending (fun _ => 0) (fun _ => 0) (fun k => replicate k 0) 2 sample_self_module 192 244 2 52 308 [(4, 80)]
  "a" "b" None.
Proof.
  split; rewrite ?sample_cut.
  - by split.
  - split; [reflexivity|]. split; [|split; [|cbn; lia]].
    + split; [exists 1; by split|]. split; [reflexivity|]. split; [reflexivity|]. split; [done|]. split; [done|reflexivity].
    + repeat constructor. done.
  - lia.
  - lia.
  - done.
  - done.
  - intros p Hp. by apply elem_of_nil in Hp.
  - done.
Qed.


Lemma verify_compares_witness :
  dumpVerifyElf (fun _ => true) (Ctx (replicate 64 0) 0 0 0 []) "a" (replicate 32 0) (Dumping {[ "a"%string := [1] ]} [] 0 []) =
    Done (bool_decide (replicate 32 0 = sha256 [1]), Dumping {[ "a"%string := [1] ]} [] 1 []).
Proof.
  refine (verify_compares (fun _ => true) (Ctx (replicate 64 0) 0 0 0 []) "a" (replicate 32 0) [1]
    (Dumping {[ "a"%string := [1] ]} [] 0 []) _ _ _ _ _).
  - done.
  - done.
  - apply lookup_insert_eq.
  - done.
  - done.
Defined.
