(* ===== verification/FagSync.v ===== *)
(** * Three threads dump one module (FAGDec/src/app/dump.c, kplugin/kentente.c)

    The thread of the kernel plugin reports through a status word, the dumping
    thread polls it, and the decompressing thread is woken through an event
    flag, whose bit [DECOMPRESS_SEGOK] tells that it has gone through the
    segments.  A state is where each of the three stands; a step is a step of
    one of them, and every call on the event flag is a step of its own.  The
    event flag of the kernel is an interface.  What the decompressing thread
    does with one segment is in [FagDump]; here a segment that is there is
    taken, or taken without its file being removed, or it ends the pass early
    (the [break]s of the loop).  The plugin renames a segment's file to its
    name when it is whole (kentente.c:165), so a file appears in one step. *)

From stdpp Require Import prelude gmap relations.
From S2P Require Import Prelude.

Definition STATUS_NONE : Z := 0.
Definition STATUS_UPDATE : Z := 1.
Definition STATUS_DONE : Z := 2.
Definition STATUS_DONESEG : Z := 3.

Definition DECOMPRESS_NEW : Z := 1.
Definition DECOMPRESS_DONE : Z := 2.
Definition DECOMPRESS_SEGOK : Z := 4.

(** ** The event flag

    The pattern after setting bits, after clearing, and after a satisfied
    wait with [SCE_EVENT_WAITCLEAR]. *)
Class EventFlag := {
  sceKernelSetEventFlag : Z -> Z -> Z;
  sceKernelClearEventFlag : Z -> Z -> Z;
  evf_waitclear : Z -> Z;
}.

(** Setting adds bits, clearing keeps the bits it is given, and a wait that
    clears leaves no bit. *)
Class EventFlagOk {E : EventFlag} : Prop := {
  set_ok p b : sceKernelSetEventFlag p b = Z.lor p b;
  clear_ok p b : sceKernelClearEventFlag p b = Z.land p b;
  waitclear_ok p : evf_waitclear p = 0;
}.
Arguments EventFlagOk : clear implicits.

(** A bit of a pattern is up. *)
Definition has (b p : Z) : bool := negb (Z.land p b =? 0).

(** ** The three threads *)

(** What the plugin has yet to do: write the status, finish a segment *)
Inductive kop := KLog (s : Z) | KSeg (i : Z).

(** dumpThread, from the request on *)
Inductive dump_pc :=
  | TInit     (** [while(userAlliedStatus() != ENTENTE_UPDATE);] *)
  | TPoll1    (** [if(userAlliedStatus() == ENTENTE_DONESEG)] *)
  | TSeg      (** [sceKernelSetEventFlag(.., DECOMPRESS_NEW)] *)
  | TGet1     (** [userAlliedGetLogs] behind it *)
  | TPoll2    (** [if(userAlliedStatus() == ENTENTE_UPDATE)] *)
  | TGet2
  | TPoll3    (** [else if(userAlliedStatus() == ENTENTE_DONE)] *)
  | TGetEnd   (** [userAlliedGetLogs] behind the loop *)
  | TWait1    (** [sceKernelWaitEventFlag(.., DECOMPRESS_SEGOK)] *)
  | TSet      (** [sceKernelSetEventFlag(.., DECOMPRESS_NEW)] *)
  | TWait2    (** [sceKernelWaitEventFlag(.., DECOMPRESS_SEGOK)] *)
  | TFinish.  (** the headers are written *)
#[export] Instance dump_pc_eq_dec : EqDecision dump_pc.
Proof. solve_decision. Defined.

(** decompressThread *)
Inductive dec_pc :=
  | DWait         (** [sceKernelWaitEventFlag(.., NEW | DONE, ..)] *)
  | DClear        (** [sceKernelClearEventFlag(.., DECOMPRESS_SEGOK)] *)
  | DPass (i : Z) (** the loop, at segment [i] *)
  | DSegok        (** [sceKernelSetEventFlag(.., DECOMPRESS_SEGOK)] behind it *)
  | DLeave        (** the same behind [break] *)
  | DExit.

(** What becomes of a segment whose file is there *)
Inductive seg_end :=
  | Taken        (** written, or skipped because it is empty; the file removed *)
  | NotRemoved   (** the same, but [sceIoRemove] failed *)
  | Broken.      (** the loop is left: no memory, no data, not compressed *)

Record sync := Sync {
  flag : Z;               (** pattern of [decompress_flag] *)
  kstatus : Z;            (** [status] of the plugin *)
  kernel : list kop;
  dump : dump_pc;
  dec : dec_pc;
  files : gset Z;         (** segments whose files are there *)
  untaken : gset Z;       (** those that were not taken since they were finished *)
  woken : bool;           (** the decompressing thread was woken at [TWait2] *)
  stopped : option Z;     (** the segment at which the last pass broke off *)
}.

Definition at_pc (p : dump_pc) s :=
  Sync (flag s) (kstatus s) (kernel s) p (dec s) (files s) (untaken s) (woken s) (stopped s).
Definition set_status (v : Z) s :=
  Sync (flag s) v (kernel s) (dump s) (dec s) (files s) (untaken s) (woken s) (stopped s).
Definition set_flag (p : Z) s :=
  Sync p (kstatus s) (kernel s) (dump s) (dec s) (files s) (untaken s) (woken s) (stopped s).
Definition at_dec (d : dec_pc) s :=
  Sync (flag s) (kstatus s) (kernel s) (dump s) d (files s) (untaken s) (woken s) (stopped s).
Definition set_left (fs us : gset Z) s :=
  Sync (flag s) (kstatus s) (kernel s) (dump s) (dec s) fs us (woken s) (stopped s).
Definition set_pass (w : bool) (st : option Z) s :=
  Sync (flag s) (kstatus s) (kernel s) (dump s) (dec s) (files s) (untaken s) w st.

Section Threads.
Context {E : EventFlag}.

(** [sceKernelSetEventFlag(decompress_flag, DECOMPRESS_NEW)] *)
Definition set_new s := set_flag (sceKernelSetEventFlag (flag s) DECOMPRESS_NEW) s.

(** One step of the dumping thread; [None]: it waits.  [userAlliedGetLogs]
    ends with [status = ENTENTE_NONE]. *)
Definition dump_step (s : sync) : option sync :=
  match dump s with
  | TInit => if kstatus s =? STATUS_UPDATE then Some (at_pc TPoll1 s) else None
  | TPoll1 => Some (at_pc (if kstatus s =? STATUS_DONESEG then TSeg else TPoll2) s)
  | TSeg => Some (at_pc TGet1 (set_new s))
  | TGet1 => Some (at_pc TPoll2 (set_status STATUS_NONE s))
  | TPoll2 => Some (at_pc (if kstatus s =? STATUS_UPDATE then TGet2 else TPoll3) s)
  | TGet2 => Some (at_pc TPoll1 (set_status STATUS_NONE s))
  | TPoll3 => Some (at_pc (if kstatus s =? STATUS_DONE then TGetEnd else TPoll1) s)
  | TGetEnd => Some (at_pc TWait1 (set_status STATUS_NONE s))
  | TWait1 => if has DECOMPRESS_SEGOK (flag s) then Some (at_pc TSet s) else None
  | TSet => Some (at_pc TWait2 (set_new s))
  | TWait2 => if has DECOMPRESS_SEGOK (flag s) then Some (at_pc TFinish s) else None
  | TFinish => None
  end.

(** One step of the decompressing thread in a module of [n] segments; [o] is
    what becomes of the segment it is at, if its file is there. *)
Definition decompress_step (n : Z) (o : seg_end) (s : sync) : option sync :=
  match dec s with
  | DWait =>
      let outbits := flag s in
      if has (Z.lor DECOMPRESS_NEW DECOMPRESS_DONE) outbits then
        let s := set_flag (evf_waitclear outbits) s in
        let s := set_pass (woken s || bool_decide (dump s = TWait2)) None s in
        Some (at_dec (if has DECOMPRESS_DONE outbits then DLeave else DClear) s)
      else None
  | DClear =>
      Some (at_dec (DPass 0) (set_flag (sceKernelClearEventFlag (flag s) DECOMPRESS_SEGOK) s))
  | DPass i =>
      if i <? n then
        if bool_decide (i ∈ files s) then
          match o with
          | Taken => Some (at_dec (DPass (i + 1)) (set_left (files s ∖ {[i]}) (untaken s ∖ {[i]}) s))
          | NotRemoved => Some (at_dec (DPass (i + 1)) (set_left (files s) (untaken s ∖ {[i]}) s))
          | Broken => Some (at_dec DSegok (set_pass (woken s) (Some i) s))
          end
        else Some (at_dec (DPass (i + 1)) s)
      else Some (at_dec DSegok s)
  | DSegok => Some (at_dec DWait (set_flag (sceKernelSetEventFlag (flag s) DECOMPRESS_SEGOK) s))
  | DLeave => Some (at_dec DExit (set_flag (sceKernelSetEventFlag (flag s) DECOMPRESS_SEGOK) s))
  | DExit => None
  end.

Definition kernel_step (s : sync) : option sync :=
  match kernel s with
  | [] => None
  | KLog v :: q => Some (Sync (flag s) v q (dump s) (dec s) (files s) (untaken s) (woken s) (stopped s))
  | KSeg i :: q =>
      Some (Sync (flag s) (kstatus s) q (dump s) (dec s) ({[i]} ∪ files s) ({[i]} ∪ untaken s)
              (woken s) (stopped s))
  end.

Inductive sync_step (n : Z) : sync -> sync -> Prop :=
  | step_dump s s' : dump_step s = Some s' -> sync_step n s s'
  | step_decompress o s s' : decompress_step n o s = Some s' -> sync_step n s s'
  | step_kernel s s' : kernel_step s = Some s' -> sync_step n s s'.

(** The request was made; the pattern is left from the module before, and so
    may be files of segments. *)
Definition sync_start (p : Z) (status : Z) (q : list kop) (old : gset Z) : sync :=
  Sync p status q TInit DWait old ∅ false None.

(** The plugin reports [ENTENTE_DONE] as the last thing. *)
Definition ends_done (q : list kop) : Prop := forall q1 q2, q = q1 ++ KLog STATUS_DONE :: q2 -> q2 = [].

(** ** What is sure *)

Lemma rtc_invariant {A} (R : A -> A -> Prop) (I : A -> Prop) x y :
  (forall a b, I a -> R a b -> I b) -> I x -> rtc R x y -> I y.
Proof. intros Hpres Hx Hr. induction Hr as [|x y z Hxy _ IH]; [done|]. eapply IH, Hpres; done. Qed.

Definition past_done (p : dump_pc) : Prop :=
  p = TGetEnd \/ p = TWait1 \/ p = TSet \/ p = TWait2 \/ p = TFinish.

(** How far the last pass came: every segment, or up to the one it broke at. *)
Definition pass_took (s : sync) : Prop :=
  match stopped s with
  | None => untaken s = ∅
  | Some i => forall j, j ∈ untaken s -> i <= j
  end.

(** A finished segment that was not taken has its file there. *)
Record sync_inv (n : Z) (s : sync) : Prop := {
  inv_ends : ends_done (kernel s);
  inv_status : dump s <> TInit -> kstatus s = STATUS_DONE -> kernel s = [];
  inv_past : past_done (dump s) -> kernel s = [];
  inv_segments i : KSeg i ∈ kernel s -> 0 <= i < n;
  inv_untaken i : i ∈ untaken s -> 0 <= i < n /\ i ∈ files s;
  inv_done : Z.land (flag s) DECOMPRESS_DONE = 0 /\ dec s <> DLeave /\ dec s <> DExit;
  inv_woken : woken s = true ->
    match dec s with
    | DWait => (dump s = TWait2 \/ dump s = TFinish) /\ Z.land (flag s) DECOMPRESS_NEW = 0 /\ pass_took s
    | DClear => dump s = TWait2 /\ Z.land (flag s) 5 = 0 /\ stopped s = None
    | DPass i => dump s = TWait2 /\ Z.land (flag s) 5 = 0 /\ stopped s = None /\
        forall j, j ∈ untaken s -> i <= j
    | DSegok => dump s = TWait2 /\ Z.land (flag s) 5 = 0 /\ pass_took s
    | _ => False
    end;
}.

(** *** Bits of the pattern *)

Lemma land_sub p m b : Z.land p m = 0 -> Z.land m b = b -> Z.land p b = 0.
Proof. intros H E0. by rewrite <- E0, Z.land_assoc, H. Qed.

Lemma land_none m : Z.land 0 m = 0.
Proof. done. Qed.

Lemma has_false b p : Z.land p b = 0 -> has b p = false.
Proof. unfold has. by intros ->. Qed.

Lemma land_lor_0 p a b : Z.land p b = 0 -> Z.land a b = 0 -> Z.land (Z.lor p a) b = 0.
Proof. intros H1 H2. by rewrite Z.land_lor_distr_l, H1, H2. Qed.

Lemma land_keep p a b : Z.land p b = 0 -> Z.land (Z.land p a) b = 0.
Proof. intros H. by rewrite <- Z.land_assoc, (Z.land_comm a), Z.land_assoc, H. Qed.

Context {Eok : EventFlagOk E}.

Ltac not_past := let H := fresh in intros [H|[H|[H|[H|H]]]]; discriminate H.
Ltac fields := cbn [dump kernel kstatus files untaken woken stopped flag dec at_pc set_status set_flag at_dec
  set_left set_pass set_new] in *.

(** Once woken by the last request, the dumping thread is at its second wait
    or behind it. *)
Lemma woken_at n s : sync_inv n s -> woken s = true -> dump s = TWait2 \/ dump s = TFinish.
Proof. intros H Hw. pose proof (inv_woken _ _ H Hw) as H0. destruct (dec s); destruct H0 as [H0 _] || done; auto. Qed.

Lemma dump_step_inv n s s' : sync_inv n s -> dump_step s = Some s' -> sync_inv n s'.
Proof.
  intros I Es. pose proof (woken_at n s I) as Hk. destruct I as [I1 I2 I3 I4 I5 [I6 I6'] I7].
  unfold dump_step, past_done in *. destruct s as [f st q p d fs us k sp]. fields.
  destruct p; try (destruct k; [by destruct (Hk eq_refl)|]);
    repeat match type of Es with context [if ?b then _ else _] => let Eb := fresh "Eb" in destruct b eqn:Eb end;
    try discriminate Es; injection Es as <-; split; unfold past_done; fields; try done; try not_past;
    try (intros _; by apply I2); try (intros _; apply I3; auto 10; fail);
    try (split; [|done]; rewrite set_ok; by apply land_lor_0).
  - intros _ ->. discriminate Eb.
  - intros _. apply I2; [done|by apply Z.eqb_eq].
  - intros ->. specialize (I7 eq_refl). destruct d as [| |i| | |]; try done.
    + split; [by right|apply I7].
    + destruct I7 as (_ & H & _). by rewrite (has_false _ f) in Eb by by apply (land_sub _ 5).
    + destruct I7 as (_ & H & _). by rewrite (has_false _ f) in Eb by by apply (land_sub _ 5).
    + destruct I7 as (_ & H & _). by rewrite (has_false _ f) in Eb by by apply (land_sub _ 5).
Qed.

(** The pass at one segment *)
Lemma pass_step_inv n o i s s' : sync_inv n s -> dec s = DPass i ->
  decompress_step n o s = Some s' -> sync_inv n s'.
Proof.
  intros [I1 I2 I3 I4 I5 [I6 I6'] I7] Ed Es. unfold decompress_step in Es. rewrite Ed in *.
  destruct s as [f st q p d fs us k sp]. fields. subst d.
  assert (forall j, j ∈ us -> j <> i -> k = true -> i + 1 <= j) as Hnext.
  { intros j Hj Hne Hw. destruct (I7 Hw) as (_ & _ & _ & H). specialize (H j Hj). lia. }
  destruct (Z.ltb_spec i n) as [Hi|Hi].
  - case_bool_decide as Hf; [destruct o|]; injection Es as <-; split; fields; try done.
    + intros j [Hj Hne]%elem_of_difference. destruct (I5 j Hj). split; [done|]. by apply elem_of_difference.
    + intros Hw. destruct (I7 Hw) as (-> & H5 & -> & _). split_and!; [done..|].
      intros j [Hj Hne]%elem_of_difference. apply Hnext; [done| |done]. set_solver.
    + intros j [Hj Hne]%elem_of_difference. by apply I5.
    + intros Hw. destruct (I7 Hw) as (-> & H5 & -> & _). split_and!; [done..|].
      intros j [Hj Hne]%elem_of_difference. apply Hnext; [done| |done]. set_solver.
    + intros Hw. destruct (I7 Hw) as (-> & H5 & -> & H). split_and!; [done..|]. unfold pass_took. by fields.
    + intros Hw. destruct (I7 Hw) as (-> & H5 & -> & _). split_and!; [done..|].
      intros j Hj. apply Hnext; [done| |done]. intros ->. by destruct (I5 i Hj).
  - injection Es as <-; split; fields; try done.
    intros Hw. destruct (I7 Hw) as (-> & H5 & -> & H). split_and!; [done..|]. unfold pass_took. fields.
    apply set_eq. intros j. split; [|set_solver]. intros Hj. specialize (H j Hj). destruct (I5 j Hj). lia.
Qed.

Lemma decompress_step_inv n o s s' : sync_inv n s -> decompress_step n o s = Some s' -> sync_inv n s'.
Proof.
  intros I Es. destruct (dec s) as [| |i| | |] eqn:Ed; [|..|by eapply pass_step_inv| | |];
    destruct I as [I1 I2 I3 I4 I5 [I6 I6'] I7]; unfold decompress_step in Es; rewrite Ed in *;
    destruct s as [f st q p d fs us k sp]; fields; subst d.
  - destruct (has (Z.lor _ _) f) eqn:Eb; [|done]. injection Es as <-.
    rewrite (has_false DECOMPRESS_DONE f I6), waitclear_ok. split; fields; try done.
    intros Hw. destruct k; cbn [orb] in Hw.
    + destruct (I7 eq_refl) as (_ & H1 & _). unfold has in Eb. rewrite Z.land_lor_distr_r, H1, I6 in Eb. done.
    + by apply bool_decide_eq_true in Hw.
  - injection Es as <-. rewrite clear_ok. split; fields; try done.
    { split; [by apply land_keep|done]. }
    intros Hw. destruct (I7 Hw) as (-> & H5 & ->). split_and!; [done|by apply land_keep|done|].
    intros j Hj. apply (I5 j Hj).
  - injection Es as <-. rewrite set_ok. split; fields; try done.
    { split; [by apply land_lor_0|done]. }
    intros Hw. destruct (I7 Hw) as (-> & H5 & H). split_and!; [by left| |done].
    apply land_lor_0; [|done]. by apply (land_sub _ 5).
  - by destruct I6'.
  - done.
Qed.

Lemma kernel_step_inv n s s' : sync_inv n s -> kernel_step s = Some s' -> sync_inv n s'.
Proof.
  intros I Es. pose proof (woken_at n s I) as Hk. destruct I as [I1 I2 I3 I4 I5 I6 I7].
  unfold kernel_step, past_done in *. destruct s as [f st q p d fs us k sp]. fields.
  destruct q as [|op q]; [done|].
  assert (ends_done q) as Hq by (intros q1 q2 ->; by apply (I1 (op :: q1) q2)).
  assert (k = false) as ->.
  { destruct k; [|done]. assert (op :: q = []) as [=].
    apply I3. destruct (Hk eq_refl) as [-> | ->]; auto 10. }
  destruct op as [v|i]; injection Es as <-; split; fields; try done.
  - intros _ ->. by apply (I1 []).
  - intros Hp. by apply I3 in Hp.
  - intros j Hj. apply I4. by right.
  - intros Hp Hst. by specialize (I2 Hp Hst).
  - intros Hp. by apply I3 in Hp.
  - intros j Hj. apply I4. by right.
  - intros j Hj. apply elem_of_union in Hj as [->%elem_of_singleton|Hj].
    + split; [apply I4; by left|]. apply elem_of_union_l. by apply elem_of_singleton.
    + destruct (I5 j Hj). split; [done|by apply elem_of_union_r].
Qed.

Lemma sync_step_inv n s s' : sync_inv n s -> sync_step n s s' -> sync_inv n s'.
Proof.
  intros H Hs. destruct Hs as [s s1 Es|o s s1 Es|s s1 Es].
  - exact (dump_step_inv _ _ _ H Es).
  - exact (decompress_step_inv _ _ _ _ H Es).
  - exact (kernel_step_inv _ _ _ H Es).
Qed.

Lemma start_inv n p st q old : ends_done q -> (forall i, KSeg i ∈ q -> 0 <= i < n) ->
  Z.land p DECOMPRESS_DONE = 0 -> sync_inv n (sync_start p st q old).
Proof.
  intros H1 H2 H3. split; cbn; try done. by intros [?|[?|[?|[?|?]]]].
Qed.

(** C17: However the three threads are scheduled, and whatever becomes of each
    segment, the headers are written only after the plugin has finished; and
    if the decompressing thread was woken by the last request, only after the
    pass that followed has ended: then every finished segment has been taken,
    or, when the pass broke off at a segment, every one before it. *)
Theorem handshake_safe n p st q old s : ends_done q -> (forall i, KSeg i ∈ q -> 0 <= i < n) ->
  Z.land p DECOMPRESS_DONE = 0 ->
  rtc (sync_step n) (sync_start p st q old) s -> dump s = TFinish ->
  kernel s = [] /\
  (woken s = true -> dec s = DWait /\
    match stopped s with
    | None => untaken s = ∅
    | Some i => forall j, j ∈ untaken s -> i <= j
    end).
Proof.
  intros H1 H2 H3 Hr Hf. assert (sync_inv n s) as [_ _ I3 _ _ _ I7].
  { eapply rtc_invariant; [|by apply start_inv|exact Hr]. intros a b. apply sync_step_inv. }
  split; [apply I3; unfold past_done; auto 10|]. intros Hw. specialize (I7 Hw). rewrite Hf in I7.
  destruct (dec s); try (by destruct I7); try done. split; [done|]. apply I7.
Qed.

(** ** What is not *)

Inductive actor := Dump | Decompress (o : seg_end) | Kernel.
Definition actor_step (n : Z) (a : actor) (s : sync) : option sync :=
  match a with Dump => dump_step s | Decompress o => decompress_step n o s | Kernel => kernel_step s end.
Fixpoint sync_run (n : Z) (schedule : list actor) (s : sync) : option sync :=
  match schedule with [] => Some s | a :: rest => actor_step n a s ≫= sync_run n rest end.

Lemma sync_run_reaches n schedule : forall s s', sync_run n schedule s = Some s' -> rtc (sync_step n) s s'.
Proof.
  clear Eok. induction schedule as [|a rest IH]; intros s s'; cbn [sync_run]; [by intros [= ->]|].
  destruct (actor_step n a s) as [s1|] eqn:Es; [|done]. intros H. apply IH in H.
  eapply rtc_l; [|exact H].
  destruct a; [by apply step_dump|by eapply step_decompress|by apply step_kernel].
Qed.

Record lost (s : sync) : Prop := {
  lost_kernel : kernel s = [];
  lost_status : kstatus s = STATUS_NONE;
  lost_pc : dump s = TPoll1 \/ dump s = TPoll2 \/ dump s = TPoll3;
}.

Lemma decompress_keeps n o s s' : decompress_step n o s = Some s' ->
  kernel s' = kernel s /\ kstatus s' = kstatus s /\ dump s' = dump s.
Proof.
  clear Eok. unfold decompress_step. intros Es. destruct (dec s); try done;
    repeat match type of Es with context [if ?b then _ else _] => destruct b end;
    try (destruct o); try discriminate Es; by injection Es as <-.
Qed.

Lemma lost_step n s s' : lost s -> sync_step n s s' -> lost s'.
Proof.
  clear Eok. intros [L1 L2 L3] Hs. destruct Hs as [s s' Es|o s s' Es|s s' Es].
  - unfold dump_step in Es. rewrite L2 in Es. destruct L3 as [H|[H|H]]; rewrite H in Es; injection Es as <-; split; cbn; auto.
  - destruct (decompress_keeps _ _ _ _ Es) as (E1 & E2 & E3). split; by rewrite ?E1, ?E2, ?E3.
  - unfold kernel_step in Es. by rewrite L1 in Es.
Qed.

(** The plugin can report its end while the dumping thread is between
    reading the status and [userAlliedGetLogs], which sets it to
    [ENTENTE_NONE]: from then on the dumping thread polls for ever, whatever
    the schedule. *)
Theorem done_report_lost n p st old : exists s,
  rtc (sync_step n) (sync_start p st [KLog STATUS_UPDATE; KLog STATUS_DONE] old) s /\
  forall s', rtc (sync_step n) s s' -> dump s' <> TFinish /\ exists s'', dump_step s' = Some s''.
Proof.
  clear Eok. eexists. split.
  - apply (sync_run_reaches n [Kernel; Dump; Dump; Dump; Kernel; Dump]). reflexivity.
  - intros s' Hr. assert (lost s') as [_ _ H].
    { eapply rtc_invariant; [intros a b; apply lost_step| |exact Hr]. split; cbn; auto. }
    unfold dump_step. destruct H as [-> |[-> | ->]]; (split; [done|by eexists]).
Qed.

Record idle (s : sync) : Prop := {
  idle_flag : flag s = 0 /\ dec s = DWait;
  idle_kernel : (KLog STATUS_DONESEG ∉ kernel s) /\ kstatus s <> STATUS_DONESEG;
  idle_pc : dump s <> TSeg /\ dump s <> TGet1 /\ dump s <> TSet /\ dump s <> TWait2 /\ dump s <> TFinish;
}.

Lemma idle_step n s s' : idle s -> sync_step n s s' -> idle s'.
Proof.
  clear Eok. intros [(I1 & I2) (I4 & I5) (P1 & P2 & P3 & P4 & P5)] Hs. destruct Hs as [s s' Es|o s s' Es|s s' Es].
  - unfold dump_step in Es. apply Z.eqb_neq in I5 as I5'. rewrite I1, I5' in Es.
    destruct (dump s); try done;
      repeat match type of Es with context [if ?b then _ else _] => destruct b eqn:? end; try done;
      injection Es as <-; split; cbn; (split; [done|]); try (split; done); repeat (split; [done|]); done.
  - unfold decompress_step in Es. by rewrite I2, I1 in Es.
  - unfold kernel_step in Es. destruct (kernel s) as [|[v|i] q] eqn:Ek; [done|..];
      apply not_elem_of_cons in I4 as [I4 I4']; injection Es as <-; split; cbn; try done.
    split; [done|]. intros ->. by apply I4.
Qed.

(** In the first module, nothing sets the bit that is waited for when no
    segment is reported. *)
Lemma first_module_waits n st q old s : KLog STATUS_DONESEG ∉ q -> st <> STATUS_DONESEG ->
  rtc (sync_step n) (sync_start 0 st q old) s -> dump s <> TFinish.
Proof.
  clear Eok. intros H1 H2 Hr. assert (idle s) as [_ _ (_ & _ & _ & _ & H)]; [|done].
  eapply rtc_invariant; [intros a b; apply idle_step| |exact Hr]. by split.
Qed.
End Threads.

(** ** Concrete runs *)

#[export] Instance word_flag : EventFlag := {
  sceKernelSetEventFlag := Z.lor;
  sceKernelClearEventFlag := Z.land;
  evf_waitclear _ := 0;
}.

#[export] Instance word_flag_ok : EventFlagOk word_flag.
Proof. by split. Qed.

(** The plugin reports a second segment and its end before the dumping thread
    looks: the bit that the first segment has left lets the dumping thread
    through both waits. *)
Lemma handshake_race : exists s,
  rtc (sync_step 2) (sync_start 0 STATUS_DONE
    [KLog STATUS_UPDATE; KSeg 0; KLog STATUS_DONESEG; KSeg 1; KLog STATUS_DONESEG; KLog STATUS_DONE] ∅) s /\
  dump s = TFinish /\ dec s = DWait /\ 1 ∈ untaken s.
Proof.
  eexists. split.
  - apply (sync_run_reaches 2 ([Kernel; Dump; Kernel; Kernel; Dump; Dump; Dump] ++
      replicate 6 (Decompress Taken) ++ [Kernel; Kernel; Kernel] ++
      [Dump; Dump; Dump; Dump; Dump; Dump])). vm_compute. reflexivity.
  - split; [done|]. split; [done|]. apply (bool_decide_unpack _). vm_compute. reflexivity.
Qed.

(** [sceKernelClearEventFlag] keeps the bits it is given and drops the others:
    a request that comes between the wait and it is lost, and nobody wakes the
    decompressing thread for it. *)
Lemma request_dropped : exists s s',
  rtc (sync_step 2) (sync_start 0 STATUS_DONE
    [KLog STATUS_UPDATE; KSeg 0; KLog STATUS_DONESEG; KLog STATUS_DONESEG] ∅) s /\
  has DECOMPRESS_NEW (flag s) = true /\ decompress_step 2 Taken s = Some s' /\
  dec s' = DPass 0 /\ flag s' = 0.
Proof.
  eexists _, _. split.
  - apply (sync_run_reaches 2 ([Kernel; Dump; Kernel; Kernel; Dump; Dump; Decompress Taken] ++
      [Dump; Dump; Dump; Kernel; Dump; Dump])). vm_compute. reflexivity.
  - repeat split.
Qed.

(** *** An undisturbed module *)

Definition sample_start : sync :=
  sync_start 0 STATUS_DONE [KLog STATUS_UPDATE; KSeg 0; KLog STATUS_DONESEG; KLog STATUS_DONE] ∅.
Definition sample_end : sync :=
  Sync DECOMPRESS_SEGOK STATUS_NONE [] TFinish DWait ∅ ∅ true None.

Lemma sample_reaches : rtc (sync_step 1) sample_start sample_end.
Proof.
  apply (sync_run_reaches 1 ([Kernel; Dump; Kernel; Kernel; Dump; Dump; Dump] ++ replicate 5 (Decompress Taken) ++
    [Kernel; Dump; Dump; Dump; Dump; Dump] ++ replicate 5 (Decompress Taken) ++ [Dump])). vm_compute. reflexivity.
Qed.

Lemma handshake_safe_witness : rtc (sync_step 1) sample_start sample_end /\ woken sample_end = true /\
  kernel sample_end = [] /\ (woken sample_end = true -> dec sample_end = DWait /\ untaken sample_end = ∅).
Proof.
  split; [exact sample_reaches|]. split; [reflexivity|].
  refine (handshake_safe 1 0 _ _ _ sample_end _ _ eq_refl sample_reaches eq_refl).
  - intros [|? [|? [|? [|? [|? q1]]]]] q2 H; try discriminate H; try (by injection H); by injection H as ? ? ? ? ?; destruct q1.
  - intros i Hi. apply list_elem_of_In in Hi. cbn in Hi. destruct Hi as [[=]|[[= <-]|[[=]|[[=]|[]]]]]. lia.
Defined.
