(* ===== verification/FagQueue.v ===== *)
(** * The list of modules to be dumped (FAGDec/src/app/dump.c, status.c)

    The callbacks of the menu of a game put its modules into a second menu,
    under a heading with the title of the game, from which the dumping thread
    takes them.  Both menus are those of [FagMenu]. *)

From stdpp Require Import prelude gmap strings.
From S2P Require Import Prelude Bytes CString Hoare FagMenu FagGame FagScan.

Record menus := Menus { game_menu : Menu; dump_menu : Menu }.
Abbreviation Q := (SM menus).

Definition in_game {A} (op : SM Menu A) : Q A := fun s =>
  match op (game_menu s) with
  | Done (x, m) => Done (x, Menus m (dump_menu s))
  | Fault f => Fault f
  | OutOfFuel => OutOfFuel
  end.
Definition in_dump {A} (op : SM Menu A) : Q A := fun s =>
  match op (dump_menu s) with
  | Done (x, m) => Done (x, Menus (game_menu s) m)
  | Fault f => Fault f
  | OutOfFuel => OutOfFuel
  end.

Definition dumpModuleEntryCB_id : Z := 7.

Definition dumpGenerateMenu : run Menu :=
  '(_, m) ← MenuAddEntry MENU_TITLE (str_bytes "Modules to be decrypted") None (MenuCreate PANE_RIGHT);
  Done m.

(** The menu of a game; the thread of [FagScan] fills it. *)
Definition dumpGenerateModuleMenu (title : mem) : run Menu :=
  '(_, m) ← (_ ← MenuAddEntry MENU_TITLE title None;
             MenuAddEntry MENU_SUBTITLE (str_bytes "Choose a module to decypt") None) (MenuCreate PANE_LEFT);
  Done m.

(** [title->prev->index] and the like *)
Definition prev_index (p : positive) : SM Menu Z :=
  e ← read p; q ← sm_lift (not_null (prev e)); e ← read q; mret (index e).

(** The selection goes to the new last entry when it stood on the one before
    it, or before its heading. *)
Definition follow_end (title : option positive) : SM Menu unit :=
  s ← sm_gets entry_selected;
  s ← sm_lift (not_null s);
  e ← read s;
  last ← sm_gets entry_end;
  last ← sm_lift (not_null last);
  i ← prev_index last;
  hit ← (if index e =? i then mret true
         else match title with Some t => j ← prev_index t; mret (index e =? j) | None => mret false end);
  if hit : bool then sm_modify (set_selected (Some last)) else mret tt.

(** [titleid]: that of [current_game] *)
Definition dumpAddEntry (titleid : mem) (index : Z) : Q unit :=
  p ← in_dump (MenuFindType MENU_DISABLE);
  p ← sm_lift (not_null p);
  heading ← in_dump (read p);
  title ← (if bool_decide (until_nul (text heading) = until_nul titleid) then mret None
           else p ← in_dump (MenuAddEntry MENU_SUBTITLE titleid None); mret (Some p));
  g ← in_game (MenuFindEntry index);
  g ← sm_lift (not_null g);
  e ← in_game (read g);
  _ ← in_dump (MenuAddEntry MENU_NORMAL (text e) (Some dumpModuleEntryCB_id));
  in_dump (follow_end title).

Definition dumpModuleMenuEntryCB (titleid : mem) : Q unit :=
  s ← in_game (sm_gets entry_selected);
  s ← sm_lift (not_null s);
  e ← in_game (read s);
  dumpAddEntry titleid (index e).

Fixpoint all_loop (fuel : nat) (titleid : mem) (p : option positive) : Q unit :=
  match fuel with
  | O => fun _ => OutOfFuel
  | S fuel' =>
      match p with
      | None => mret tt
      | Some p =>
          e ← in_game (read p);
          _ ← (if bool_decide (FagMenu.type e = MENU_NONE) then dumpAddEntry titleid (index e) else mret tt);
          all_loop fuel' titleid (next e)
      end
  end.
Definition dumpAllCB (titleid : mem) : Q unit :=
  s ← in_game (sm_gets entry_selected);
  s ← sm_lift (not_null s);
  e ← in_game (read s);
  h ← in_game (sm_gets entries);
  all_loop (rounds h) titleid (next e).

(** The mark that [handleSpecInput] sets is taken back. *)
Definition dumpModuleEntryCB : SM Menu unit :=
  s ← sm_gets entry_selected;
  match s with
  | None => mret tt
  | Some s =>
      e ← read s;
      if bool_decide (FagMenu.type e = MENU_WARNING) then update s (set_type MENU_NONE) else mret tt
  end.

(** [while(menu_entry != NULL && menu_entry->type != MENU_DISABLE)] *)
Fixpoint skip_loop (fuel : nat) (h : heap) (p : option positive) : run (option positive) :=
  match fuel with
  | O => OutOfFuel
  | S fuel' =>
      match p with
      | None => Done None
      | Some p => e ← deref h p; if bool_decide (FagMenu.type e = MENU_DISABLE) then Done (Some p) else skip_loop fuel' h (next e)
      end
  end.
Definition dumpSkipGame (c_entry : positive) : SM Menu (option positive) :=
  e ← read c_entry;
  h ← sm_gets entries;
  sm_lift (skip_loop (rounds h) h (next e)).

(** ** The lines of the log (status.c) *)

Definition statusStartElfCB : Z := 8.
Definition statusStartSelfCB : Z := 9.
Definition statusBackCB : Z := 10.

(** [statusAddLog]; [text] is what [vsprintf] writes into [char log_buffer[128]]. *)
Definition add_log (level : MenuType) (text : string) : SM Menu unit :=
  if (String.length text <? 128)%nat then
    p ← MenuAddEntry MENU_NORMAL (str_bytes text) None;
    _ ← update p (set_type level);
    if bool_decide (level = MENU_NONE) then mret tt else sm_modify (set_selected (Some p))
  else fun _ => Fault FTable.

(** [status_menu] is made once. *)
Definition statusGenerateMenu (status_menu : option Menu) : run Menu :=
  '(_, m) ←
    (_ ← MenuAddEntry MENU_TITLE (str_bytes "FRENCH-AMERICAN GAME DECRYPTER") None;
     _ ← MenuAddEntry MENU_SUBTITLE (str_bytes "REV ENG BY @CelesteBlue123 (LIKE REALLY AMAZING <3)") None;
     _ ← MenuAddEntry MENU_SUBTITLE (str_bytes "DEVELOPED BY @dots_tb") None;
     _ ← MenuAddEntry MENU_NORMAL (str_bytes "START DECRYPT(ELF)") (Some statusStartElfCB);
     p ← MenuAddEntry MENU_NORMAL (str_bytes "START DECRYPT(SELF)") (Some statusStartSelfCB);
     _ ← update p (set_type MENU_START);
     p ← MenuAddEntry MENU_NORMAL (str_bytes "Back to Main") (Some statusBackCB);
     _ ← update p (set_type MENU_BACK);
     MenuAddEntry MENU_TITLE (str_bytes "LOG:") None) (default (MenuCreate PANE_LEFT) status_menu);
  Done m.

(** ** What the dumping thread finds *)

Definition node_text (d : node) : mem := let '(_, _, _, t, _) := d in t.
Definition node_draw (d : node) : MenuDrawType := let '(dt, _, _, _, _) := d in dt.

(** The title and the text of every module, in the order of the list; [cur]:
    the title so far *)
Fixpoint queued (cur : mem) (ds : list node) : list (mem * mem) :=
  match ds with
  | [] => []
  | d :: ds' =>
      match node_draw d with
      | MENU_SUBTITLE => queued (until_nul (node_text d)) ds'
      | MENU_NORMAL => (cur, until_nul (node_text d)) :: queued cur ds'
      | MENU_TITLE => queued cur ds'
      end
  end.

(** The text of the last entry that cannot be selected *)
Fixpoint heading (cur : mem) (ds : list node) : mem :=
  match ds with
  | [] => cur
  | d :: ds' => heading (if bool_decide (node_type d = MENU_DISABLE) then until_nul (node_text d) else cur) ds'
  end.

(** The list: a title, headings and modules *)
Definition dump_list (ds : list node) : Prop :=
  exists t rest, ds = t :: rest /\ node_draw t = MENU_TITLE /\ node_type t = MENU_DISABLE /\
    until_nul (node_text t) = str_bytes "Modules to be decrypted" /\
    Forall (fun d => node_draw d = MENU_SUBTITLE /\ node_type d = MENU_DISABLE \/
                     node_draw d = MENU_NORMAL /\ node_type d <> MENU_DISABLE) rest.

Lemma heading_app cur a b : heading cur (a ++ b) = heading (heading cur a) b.
Proof. revert cur. induction a as [|d a IH]; intros cur; [done|]. apply IH. Qed.

Lemma heading_last ds : heading [] ds =
  match last_of_type ds MENU_DISABLE (length ds) ≫= fun j => ds !! j with
  | Some d => until_nul (node_text d) | None => [] end.
Proof.
  induction ds as [|d ds IH] using rev_ind; [done|]. rewrite heading_app, length_app, Nat.add_1_r. cbn [heading last_of_type].
  rewrite lookup_app_r, Nat.sub_diag by lia. cbn [lookup list_lookup].
  destruct (bool_decide (node_type d = MENU_DISABLE)) eqn:E.
  - cbn. by rewrite lookup_app_r, Nat.sub_diag by lia.
  - rewrite IH. assert (forall n, (n <= length ds)%nat -> last_of_type (ds ++ [d]) MENU_DISABLE n = last_of_type ds MENU_DISABLE n /\
      forall j, last_of_type ds MENU_DISABLE n = Some j -> (j < length ds)%nat) as H.
    { induction n as [|n IHn]; intros Hn; [done|]. cbn [last_of_type]. rewrite lookup_app_l by lia.
      destruct IHn as [E1 E2]; [lia|]. destruct (ds !! n) as [x|]; [|exact (conj E1 E2)].
      destruct (bool_decide (node_type x = MENU_DISABLE)); [|exact (conj E1 E2)]. split; [done|]. intros j [= <-]. lia. }
    destruct (H (length ds) (le_n _)) as [E1 E2]. rewrite E1. destruct (last_of_type ds MENU_DISABLE (length ds)) as [j|]; [|done].
    cbn. by rewrite lookup_app_l by (by apply E2).
Qed.

(** What a list with headings and modules only adds *)
Definition entries_ok (rest : list node) : Prop :=
  Forall (fun d => node_draw d = MENU_SUBTITLE /\ node_type d = MENU_DISABLE \/
                   node_draw d = MENU_NORMAL /\ node_type d <> MENU_DISABLE) rest.

Lemma queued_app cur a b : entries_ok a -> queued cur (a ++ b) = queued cur a ++ queued (heading cur a) b.
Proof.
  intros H. revert cur. induction H as [|d a [[Hd Ht]|[Hd Ht]] _ IH]; intros cur; [done|..]; cbn [app queued heading]; rewrite Hd.
  - rewrite IH. by rewrite bool_decide_eq_true_2.
  - cbn [app]. rewrite IH. by rewrite bool_decide_eq_false_2.
Qed.

Definition heading_node (titleid : mem) : node := new_node MENU_SUBTITLE titleid None.
Definition queue_node (t : mem) : node := new_node MENU_NORMAL t (Some dumpModuleEntryCB_id).

(** What one call of [dumpAddEntry] adds *)
Definition added (ds : list node) (titleid t : mem) : list node :=
  (if bool_decide (heading [] ds = until_nul titleid) then [] else [heading_node titleid]) ++ [queue_node t].

Lemma until_nul_strncpy t n : (length (until_nul t) < n)%nat -> until_nul (strncpy t n) = until_nul t.
Proof.
  intros H. unfold strncpy. rewrite firstn_all2 by lia.
  replace (n - length (until_nul t))%nat with (S (n - length (until_nul t) - 1)) by lia. cbn [replicate].
  apply until_nul_app, until_nul_nonzero.
Qed.

Lemma heading_cur ds c : heading c ds = c \/ forall c', heading c' ds = heading c ds.
Proof.
  revert c. induction ds as [|d ds IH]; intros c; [by left|]. cbn [heading].
  destruct (bool_decide (node_type d = MENU_DISABLE)); [by right|apply IH].
Qed.

(** The dumping thread finds the module under its title. *)
Lemma added_queued ds titleid t : dump_list ds -> (length (until_nul titleid) < text_size)%nat ->
  (length (until_nul t) < text_size)%nat -> until_nul titleid <> str_bytes "Modules to be decrypted" ->
  dump_list (ds ++ added ds titleid t) /\
  queued [] (ds ++ added ds titleid t) = queued [] ds ++ [(until_nul titleid, until_nul t)].
Proof.
  intros (h & rest & -> & H1 & H2 & H3 & H4) Ht Htt Hne. fold (entries_ok rest) in H4.
  assert (entries_ok (added (h :: rest) titleid t)) as Ha.
  { unfold added. apply Forall_app. split; [case_bool_decide; [constructor|]|]; (constructor; [|constructor]); [by left|by right]. }
  split.
  - exists h, (rest ++ added (h :: rest) titleid t). split; [done|]. do 3 (split; [done|]). by apply Forall_app.
  - cbn [app queued]. rewrite H1. rewrite queued_app by done. f_equal. unfold added. cbn [heading].
    rewrite (bool_decide_eq_true_2 _ H2). rewrite H3.
    destruct (heading_cur rest (str_bytes "Modules to be decrypted")) as [E|E].
    + rewrite E, bool_decide_eq_false_2 by congruence. cbn [app queued node_draw heading_node queue_node new_node node_text].
      by rewrite !until_nul_strncpy.
    + rewrite <- (E []). case_bool_decide as Eh; cbn [app queued node_draw heading_node queue_node new_node node_text];
        rewrite !until_nul_strncpy by done; by rewrite ?Eh.
Qed.

(** ** The operations *)

Lemma in_game_Done {A} (op : SM Menu A) s x m : op (game_menu s) = Done (x, m) ->
  in_game op s = Done (x, Menus m (dump_menu s)).
Proof. intros E. unfold in_game. by rewrite E. Qed.
Lemma in_dump_Done {A} (op : SM Menu A) s x m : op (dump_menu s) = Done (x, m) ->
  in_dump op s = Done (x, Menus (game_menu s) m).
Proof. intros E. unfold in_dump. by rewrite E. Qed.

Lemma entry_at m ps ds j p : menu_holds m ps ds -> ps !! j = Some p -> exists e,
  read p m = Done (e, m) /\ next e = ps !! S j /\ prev e = prev_of ps j /\ ds !! j = Some (data e) /\ index e = Z.of_nat j.
Proof.
  intros H Hp. destruct (links_at _ _ _ _ (holds_links _ _ _ H) j p Hp) as (e & He & Hn & Hv & Hd & Hx).
  exists e. split; [by apply read_Done|]. rewrite (proj2 (Nat.ltb_lt _ _)) in Hx by (by apply lookup_lt_Some in Hp). done.
Qed.

Lemma prev_index_spec m ps ds j p : menu_holds m ps ds -> ps !! S j = Some p -> prev_index p m = Done (Z.of_nat j, m).
Proof.
  intros H Hp. destruct (entry_at _ _ _ _ _ H Hp) as (e & E & _ & Hv & _). unfold prev_index.
  rewrite (sm_bind_Done _ _ _ _ _ E), Hv. cbn [prev_of].
  destruct (lookup_lt_is_Some_2 ps j) as [q Hq]; [apply lookup_lt_Some in Hp; lia|]. rewrite Hq.
  destruct (entry_at _ _ _ _ _ H Hq) as (e' & E' & _ & _ & _ & Hx).
  rewrite (sm_bind_Done (sm_lift (not_null (Some q))) _ m q m eq_refl), (sm_bind_Done _ _ _ _ _ E'). by rewrite Hx.
Qed.

Lemma follow_end_spec title m ps ds : menu_holds m ps ds -> (2 <= length ps)%nat -> entry_selected m <> None ->
  (forall t, title = Some t -> exists j, ps !! S j = Some t) -> exists m',
  follow_end title m = Done (tt, m') /\ menu_holds m' ps ds.
Proof.
  intros H Hl Hs Ht. destruct (entry_selected m) as [s|] eqn:Es; [|done].
  pose proof (holds_selected _ _ _ H s Es) as [j Hj]%list_elem_of_lookup.
  destruct (entry_at _ _ _ _ _ H Hj) as (e & E & _). unfold follow_end.
  rewrite (sm_bind_Done (sm_gets entry_selected) _ m _ m eq_refl), Es.
  rewrite (sm_bind_Done (sm_lift (not_null (Some s))) _ m s m eq_refl), (sm_bind_Done _ _ _ _ _ E).
  rewrite (sm_bind_Done (sm_gets entry_end) _ m _ m eq_refl), (holds_end _ _ _ H).
  destruct (length ps) as [|[|k]] eqn:El; [lia..|]. cbn [prev_of].
  destruct (lookup_lt_is_Some_2 ps (S k)) as [q Hq]; [lia|]. rewrite Hq.
  rewrite (sm_bind_Done (sm_lift (not_null (Some q))) _ m q m eq_refl).
  rewrite (sm_bind_Done _ _ _ _ _ (prev_index_spec _ _ _ _ _ H Hq)).
  assert (exists hit : bool, (if index e =? Z.of_nat k then mret true
    else match title with Some t => j ← prev_index t; mret (index e =? j) | None => mret false end) m = Done (hit, m)) as [hit Eh].
  { destruct (index e =? Z.of_nat k); [by eexists|]. destruct title as [t|]; [|by eexists].
    destruct (Ht t eq_refl) as [j' Hj']. rewrite (sm_bind_Done _ _ _ _ _ (prev_index_spec _ _ _ _ _ H Hj')). by eexists. }
  rewrite (sm_bind_Done _ _ _ _ _ Eh). destruct hit; [|by exists m].
  eexists. split; [done|]. apply (set_selected_holds m ps ds q H). apply list_elem_of_lookup. by eexists.
Qed.

Lemma add_entry_queue titleid k s gps gds lps lds d : menu_holds (game_menu s) gps gds ->
  menu_holds (dump_menu s) lps lds -> dump_list lds -> gds !! k = Some d -> exists s' lps',
  dumpAddEntry titleid (Z.of_nat k) s = Done (tt, s') /\ game_menu s' = game_menu s /\
  menu_holds (dump_menu s') lps' (lds ++ added lds titleid (node_text d)).
Proof.
  intros Hg Hl Hq Hd. unfold dumpAddEntry, added. pose proof (heading_last lds) as Hh.
  rewrite (sm_bind_Done _ _ _ _ _ (in_dump_Done _ s _ _ (find_type_spec _ _ _ MENU_DISABLE Hl))).
  rewrite (holds_lengths _ _ _ Hl) in Hh.
  assert (exists j d0, last_of_type lds MENU_DISABLE (length lps) = Some j /\ lds !! j = Some d0) as (j & d0 & Ej & Hd0).
  { destruct Hq as (h & rest & -> & _ & Hh2 & _). rewrite <- (holds_lengths _ _ _ Hl). cbn [length].
    assert (forall n, (n <= length (h :: rest))%nat -> (0 < n)%nat -> exists j d0, last_of_type (h :: rest) MENU_DISABLE n = Some j /\
      (h :: rest) !! j = Some d0) as Hex; [|by apply Hex; [|lia]].
    induction n as [|n IH]; intros Hn Hn0; [lia|]. cbn [last_of_type].
    destruct (lookup_lt_is_Some_2 (h :: rest) n) as [x Hx]; [lia|]. rewrite Hx. case_bool_decide as Hb; [by exists n, x|].
    destruct n as [|n]; [by injection Hx as ->|]. apply IH; lia. }
  rewrite Ej in *. cbn [mbind option_bind] in *. rewrite Hd0 in Hh.
  destruct (lookup_lt_is_Some_2 lps j) as [p Hp]; [rewrite <- (holds_lengths _ _ _ Hl); by eapply lookup_lt_Some|]. rewrite Hp.
  destruct (entry_at _ _ _ _ _ Hl Hp) as (e0 & E0 & _ & _ & Hd0' & _). rewrite Hd0 in Hd0'. injection Hd0' as ->.
  match goal with |- context [sm_lift (not_null (Some p))] => rewrite (sm_bind_Done (sm_lift (not_null (Some p))) _ _ p _ eq_refl) end.
  rewrite (sm_bind_Done _ _ _ _ _ (in_dump_Done (read p) (Menus _ _) _ _ E0)).
  change (node_text (data e0)) with (text e0) in Hh. rewrite Hh.
  set (s0 := Menus _ _).
  assert (exists title m1 ps1, (if bool_decide (until_nul (text e0) = until_nul titleid) then mret None
      else p ← in_dump (MenuAddEntry MENU_SUBTITLE titleid None); mret (Some p)) s0 = Done (title, Menus (game_menu s) m1) /\
    menu_holds m1 ps1 (lds ++ if bool_decide (until_nul (text e0) = until_nul titleid) then [] else [heading_node titleid]) /\
    (1 <= length ps1)%nat /\ forall t, title = Some t -> exists j, ps1 !! S j = Some t) as (title & m1 & ps1 & E1 & H1 & L1 & T1).
  { pose proof (lookup_lt_Some _ _ _ Hp). case_bool_decide.
    - exists None, (dump_menu s), lps. rewrite app_nil_r. split; [done|]. split; [done|]. split; [lia|done].
    - destruct (add_entry_spec (dump_menu s) lps lds MENU_SUBTITLE titleid None Hl) as (t & m1 & E & _ & Hm & _).
      exists (Some t), m1, (lps ++ [t]). rewrite (sm_bind_Done _ _ _ _ _ (in_dump_Done _ s0 _ _ E)).
      split; [done|]. split; [exact Hm|]. split; [rewrite length_app; cbn; lia|]. intros t' [= <-].
      exists (length lps - 1)%nat. replace (S (length lps - 1)) with (length lps) by lia. by rewrite lookup_app_r, Nat.sub_diag by lia. }
  rewrite (sm_bind_Done _ _ _ _ _ E1).
  destruct (lookup_lt_is_Some_2 gps k) as [g Hgp]; [rewrite <- (holds_lengths _ _ _ Hg); by eapply lookup_lt_Some|].
  destruct (entry_at _ _ _ _ _ Hg Hgp) as (e & E & _ & _ & Hde & _). rewrite Hd in Hde. injection Hde as ->.
  pose proof (find_entry_spec _ _ _ k Hg) as Ef. rewrite Hgp in Ef.
  rewrite (sm_bind_Done _ _ _ _ _ (in_game_Done _ (Menus (game_menu s) m1) _ _ Ef)).
  rewrite (sm_bind_Done (sm_lift (not_null (Some g))) _ _ g _ eq_refl).
  rewrite (sm_bind_Done _ _ _ _ _ (in_game_Done (read g) (Menus (game_menu s) m1) _ _ E)).
  destruct (add_entry_spec m1 ps1 _ MENU_NORMAL (text e) (Some dumpModuleEntryCB_id) H1) as (q & m2 & E2 & _ & H2 & S2).
  rewrite (sm_bind_Done _ _ _ _ _ (in_dump_Done _ (Menus (game_menu s) m1) _ _ E2)).
  destruct (follow_end_spec title m2 _ _ H2) as (m3 & E3 & H3).
  - rewrite length_app. cbn. lia.
  - rewrite S2. destruct (entry_selected m1); [done|]. by rewrite bool_decide_eq_false_2 by (intros []; done).
  - intros t Et. destruct (T1 t Et) as [j' Hj']. exists j'. by apply lookup_app_l_Some.
  - exists (Menus (game_menu s) m3), (ps1 ++ [q]). split; [exact (in_dump_Done _ (Menus (game_menu s) m2) _ _ E3)|].
    split; [done|]. rewrite <- app_assoc in H3. exact H3.
Qed.

(** After an error the dumping thread goes on behind the modules of the game. *)
Lemma skip_game_finds m ps ds k p : menu_holds m ps ds -> ps !! k = Some p ->
  dumpSkipGame p m = Done (list_find (fun d => node_type d = MENU_DISABLE) (drop (S k) ds) ≫= (fun x => ps !! (S k + x.1)%nat), m).
Proof.
  intros H Hp. destruct (entry_at _ _ _ _ _ H Hp) as (e & E & Hn & _). unfold dumpSkipGame.
  rewrite (sm_bind_Done _ _ _ _ _ E), (sm_bind_Done (sm_gets entries) _ m _ m eq_refl), Hn.
  pose proof (holds_lengths _ _ _ H) as Hlen.
  assert (forall fuel i, (length ps - i < fuel)%nat -> skip_loop fuel (entries m) (ps !! i) =
    Done (list_find (fun d => node_type d = MENU_DISABLE) (drop i ds) ≫= (fun x => ps !! (i + x.1)%nat))) as Hloop.
  { induction fuel as [|fuel IH]; intros i Hi; [lia|]. cbn [skip_loop]. destruct (ps !! i) as [q|] eqn:Eq.
    - pose proof (lookup_lt_Some _ _ _ Eq). destruct (links_deref _ _ _ _ _ _ (holds_links _ _ _ H) Eq) as (e' & -> & Hn' & _ & Hd' & _).
      cbn [mbind run_bind]. rewrite (drop_S _ _ _ Hd'). cbn [list_find]. change (node_type (data e')) with (FagMenu.type e').
      case_bool_decide as Ht; [rewrite decide_True by done; cbn; by rewrite Nat.add_0_r, Eq|]. rewrite decide_False by done.
      rewrite Hn', IH by lia. f_equal. destruct (list_find _ (drop (S i) ds)) as [[j d]|]; [|done]. cbn. f_equal. lia.
    - apply lookup_ge_None in Eq. by rewrite drop_ge by lia. }
  unfold sm_lift. rewrite Hloop by (unfold rounds; rewrite (links_size _ _ _ _ (holds_links _ _ _ H)); lia). done.
Qed.

(** A line that fits the buffer is added; only a plain one leaves the selection. *)
Lemma add_log_ok level t m ps ds : menu_holds m ps ds -> (String.length t < 128)%nat -> exists m' p,
  add_log level t m = Done (tt, m') /\
  menu_holds m' (ps ++ [p]) (ds ++ [(MENU_NORMAL, level, 0, strncpy (str_bytes t) text_size, None)]) /\
  (level <> MENU_NONE -> entry_selected m' = Some p).
Proof.
  intros H Ht. unfold add_log. rewrite (proj2 (Nat.ltb_lt _ _) Ht).
  destruct (add_entry_spec m ps ds MENU_NORMAL (str_bytes t) None H) as (p & m1 & E & _ & H1 & _).
  rewrite (sm_bind_Done _ _ _ _ _ E).
  assert ((ps ++ [p]) !! length ps = Some p) as Hp by (by rewrite lookup_app_r, Nat.sub_diag by lia).
  destruct (update_at (set_type level) m1 _ _ _ _ H1 Hp) as (e & m2 & E2 & Hd & H2); [done|].
  rewrite (sm_bind_Done _ _ _ _ _ E2). rewrite <- (holds_lengths _ _ _ H) in Hd, H2.
  rewrite lookup_app_r, Nat.sub_diag in Hd by lia. injection Hd as D1 D2 D3 D4 D5.
  rewrite insert_app_r_alt, Nat.sub_diag in H2 by lia. unfold data in H2.
  cbn [draw_type entry_active text click_cb FagMenu.type set_type list_insert] in H2. rewrite <- D1, <- D3, <- D4, <- D5 in H2.
  case_bool_decide as Hl; [by exists m2, p|]. exists (set_selected (Some p) m2), p. split; [done|]. split; [|done].
  apply set_selected_holds; [exact H2|]. apply list_elem_of_lookup. by eexists.
Qed.

Definition selectable (ds : list node) : list mem := node_text <$> filter (fun d => node_type d = MENU_NONE) ds.
Definition fits (t : mem) : Prop := (length (until_nul t) < text_size)%nat.

Lemma all_loop_spec titleid gps gds fuel : forall i s lps lds, menu_holds (game_menu s) gps gds ->
  menu_holds (dump_menu s) lps lds -> dump_list lds -> fits titleid -> Forall fits (selectable gds) ->
  until_nul titleid <> str_bytes "Modules to be decrypted" -> (length gps - i < fuel)%nat -> exists s' lps' lds',
  all_loop fuel titleid (gps !! i) s = Done (tt, s') /\ game_menu s' = game_menu s /\
  menu_holds (dump_menu s') lps' lds' /\ dump_list lds' /\
  queued [] lds' = queued [] lds ++ ((fun t => (until_nul titleid, until_nul t)) <$> selectable (drop i gds)).
Proof.
  induction fuel as [|fuel IH]; intros i s lps lds Hg Hl Hq Ht Hf Hne Hi; [lia|]. cbn [all_loop].
  pose proof (holds_lengths _ _ _ Hg) as Hlen. destruct (gps !! i) as [p|] eqn:Ep.
  2: { apply lookup_ge_None in Ep. exists s, lps, lds. rewrite drop_ge by lia. unfold selectable. cbn. rewrite app_nil_r. done. }
  pose proof (lookup_lt_Some _ _ _ Ep) as Hlt. destruct (entry_at _ _ _ _ _ Hg Ep) as (e & E & Hn & _ & Hd & Hx).
  rewrite (sm_bind_Done _ _ _ _ _ (in_game_Done (read p) s _ _ E)). set (s0 := Menus _ _).
  assert (exists s1 lps1 lds1, (if bool_decide (FagMenu.type e = MENU_NONE) then dumpAddEntry titleid (index e) else mret tt) s0 =
      Done (tt, s1) /\ game_menu s1 = game_menu s /\ menu_holds (dump_menu s1) lps1 lds1 /\ dump_list lds1 /\
      queued [] lds1 = queued [] lds ++ ((fun t => (until_nul titleid, until_nul t)) <$> selectable [data e]))
    as (s1 & lps1 & lds1 & E1 & G1 & H1 & Q1 & K1).
  { unfold selectable. rewrite filter_cons. change (node_type (data e)) with (FagMenu.type e). case_bool_decide as Ht0.
    - rewrite decide_True by done. rewrite Hx.
      destruct (add_entry_queue titleid i s0 gps gds lps lds (data e) Hg Hl Hq Hd) as (s1 & lps1 & E1 & G1 & H1).
      destruct (added_queued lds titleid (node_text (data e)) Hq Ht) as [Q1 K1]; [|done|by exists s1, lps1, (lds ++ added lds titleid (node_text (data e)))].
      rewrite Forall_forall in Hf. apply Hf. unfold selectable. apply list_elem_of_fmap. exists (data e). split; [done|].
      apply list_elem_of_filter. split; [exact Ht0|]. apply list_elem_of_lookup. by exists i.
    - rewrite decide_False by done. exists s0, lps, lds. cbn. by rewrite app_nil_r. }
  rewrite (sm_bind_Done _ _ _ _ _ E1), Hn. destruct (IH (S i) s1 lps1 lds1) as (s2 & lps2 & lds2 & E2 & G2 & H2 & Q2 & K2);
    [by rewrite G1|done..|lia|].
  exists s2, lps2, lds2. split; [exact E2|]. split; [congruence|]. split; [done|]. split; [done|].
  rewrite K2, K1, <- app_assoc, <- fmap_app. do 2 f_equal. unfold selectable. rewrite <- fmap_app, <- filter_app.
  by rewrite (drop_S _ _ _ Hd).
Qed.

(** Choosing the entry for all modules puts every module below it into
    the list of the dumping thread, in order and under the title of the game,
    behind what was there; no null or freed pointer is followed and the menu
    of the game stays as it is. *)
Theorem dump_all_queued titleid s gps gds lps lds k p : menu_holds (game_menu s) gps gds ->
  menu_holds (dump_menu s) lps lds -> dump_list lds -> fits titleid -> Forall fits (selectable gds) ->
  until_nul titleid <> str_bytes "Modules to be decrypted" ->
  gps !! k = Some p -> entry_selected (game_menu s) = Some p -> exists s' lps' lds',
  dumpAllCB titleid s = Done (tt, s') /\ game_menu s' = game_menu s /\
  menu_holds (dump_menu s') lps' lds' /\ dump_list lds' /\
  queued [] lds' = queued [] lds ++ ((fun t => (until_nul titleid, until_nul t)) <$> selectable (drop (S k) gds)).
Proof.
  intros Hg Hl Hq Ht Hf Hne Hp Hs. unfold dumpAllCB.
  rewrite (sm_bind_Done _ _ _ _ _ (in_game_Done (sm_gets entry_selected) s _ _ eq_refl)), Hs.
  rewrite (sm_bind_Done (sm_lift (not_null (Some p))) _ _ p _ eq_refl).
  destruct (entry_at _ _ _ _ _ Hg Hp) as (e & E & Hn & _).
  rewrite (sm_bind_Done _ _ _ _ _ (in_game_Done (read p) (Menus _ _) _ _ E)).
  rewrite (sm_bind_Done _ _ _ _ _ (in_game_Done (sm_gets entries) (Menus _ _) _ _ eq_refl)), Hn.
  destruct (all_loop_spec titleid gps gds (rounds (entries (game_menu s))) (S k) (Menus (game_menu s) (dump_menu s)) lps lds)
    as (s' & lps' & lds' & H); [done..| |by exists s', lps', lds'].
  unfold rounds. rewrite (links_size _ _ _ _ (holds_links _ _ _ Hg)). lia.
Qed.

(** ** The theorem on a menu with two modules *)

Definition sample_game : run Menu :=
  '(_, m) ← (_ ← MenuAddEntry MENU_NORMAL (str_bytes "DECRYPT ALL") (Some dumpAllCB_id);
             _ ← MenuAddEntry MENU_NORMAL (str_bytes "app0:a") (Some dumpModuleMenuEntryCB_id);
             MenuAddEntry MENU_NORMAL (str_bytes "app0:b") (Some dumpModuleMenuEntryCB_id)) (MenuCreate PANE_LEFT);
  Done m.

Lemma sample_menus : exists g gps l lps,
  sample_game = Done g /\ dumpGenerateMenu = Done l /\
  menu_holds g gps [new_node MENU_NORMAL (str_bytes "DECRYPT ALL") (Some dumpAllCB_id);
    new_node MENU_NORMAL (str_bytes "app0:a") (Some dumpModuleMenuEntryCB_id);
    new_node MENU_NORMAL (str_bytes "app0:b") (Some dumpModuleMenuEntryCB_id)] /\
  entry_selected g = gps !! 0%nat /\ menu_holds l lps [new_node MENU_TITLE (str_bytes "Modules to be decrypted") None].
Proof.
  assert (forall pane, menu_holds (MenuCreate pane) [] []) as H0 by (intros pane; apply (represents_create pane)).
  destruct (add_entry_spec _ _ _ MENU_NORMAL (str_bytes "DECRYPT ALL") (Some dumpAllCB_id) (H0 PANE_LEFT)) as (p1 & m1 & E1 & _ & H1 & S1).
  destruct (add_entry_spec _ _ _ MENU_NORMAL (str_bytes "app0:a") (Some dumpModuleMenuEntryCB_id) H1) as (p2 & m2 & E2 & _ & H2 & S2).
  destruct (add_entry_spec _ _ _ MENU_NORMAL (str_bytes "app0:b") (Some dumpModuleMenuEntryCB_id) H2) as (p3 & m3 & E3 & _ & H3 & S3).
  destruct (add_entry_spec _ _ _ MENU_TITLE (str_bytes "Modules to be decrypted") None (H0 PANE_RIGHT)) as (q & l & E & _ & H & _).
  exists m3, [p1; p2; p3], l, [q]. unfold sample_game, dumpGenerateMenu.
  rewrite (sm_bind_Done _ _ _ _ _ E1), (sm_bind_Done _ _ _ _ _ E2), E3, E. split; [done|]. split; [done|]. split; [exact H3|].
  split; [|exact H]. rewrite S3, S2, S1. rewrite bool_decide_eq_false_2 by (intros []; done). done.
Qed.

Lemma dump_all_queued_witness : exists g l s' lps' lds',
  sample_game = Done g /\ dumpGenerateMenu = Done l /\
  dumpAllCB (str_bytes "PCSE00000") (Menus g l) = Done (tt, s') /\ game_menu s' = g /\
  menu_holds (dump_menu s') lps' lds' /\ dump_list lds' /\
  queued [] lds' = [(str_bytes "PCSE00000", str_bytes "app0:a"); (str_bytes "PCSE00000", str_bytes "app0:b")].
Proof.
  destruct sample_menus as (g & gps & l & lps & Eg & El & Hg & Hs & Hl). destruct gps as [|p gps].
  { apply holds_lengths in Hg. discriminate Hg. }
  destruct (dump_all_queued (str_bytes "PCSE00000") (Menus g l) (p :: gps) _ lps _ 0 p Hg Hl) as (s' & lps' & lds' & H1 & H2 & H3 & H4 & H5).
  - eexists _, []. split; [done|]. split; [done|]. split; [done|]. split; [reflexivity|constructor].
  - unfold fits. apply Nat.ltb_lt. reflexivity.
  - apply Forall_forall. intros t Ht. apply list_elem_of_In in Ht. unfold fits. apply Nat.ltb_lt.
    cbn in Ht. by destruct Ht as [<-|[<-|[<-|[]]]].
  - done.
  - done.
  - exact Hs.
  - exists g, l, s', lps', lds'. split; [exact Eg|]. split; [exact El|]. split; [exact H1|]. split; [exact H2|].
    split; [exact H3|]. split; [exact H4|]. rewrite H5. reflexivity.
Defined.
