(* ===== verification/FagPaths.v ===== *)
(** * Paths in FAGDec (FAGDec/src/app/dump.c, utils.c)

    The output of a module goes to its path without the device, below the
    output folder; the folders on the way are made first.  A C string is a
    [string]; what is behind a null pointer from [strchr] is a fault. *)

From stdpp Require Import prelude strings.
From Stdlib Require Import Ascii.
From S2P Require Import Prelude Bytes CString FagGame FagDump.

(** The index of the first [c] *)
Fixpoint str_find (s : string) (c : ascii) : option nat :=
  match s with
  | EmptyString => None
  | String d s' => if Ascii.eqb d c then Some 0%nat else option_map S (str_find s' c)
  end.

(** [strchr(s, c) + 1] *)
Definition behind (s : string) (c : ascii) : run string :=
  match str_find s c with Some k => Done (str_drop (S k) s) | None => Fault FNull end.

Definition skip_slash (s : string) : string :=
  match s with String "/" s' => s' | _ => s end.

Definition dumpFindPath (path : string) : run string :=
  p ← behind path ":"; Done (skip_slash p).

(** Both copies of the path are as large as the longest path. *)
Definition strcpy_path (path : string) : run string :=
  if (String.length path <? PATH_MAX)%nat then Done path else Fault FTable.

Definition dumpExtractTitleId (path : string) : run mem :=
  temp ← strcpy_path path;
  folder ← behind temp ":";
  folder ← behind (skip_slash folder) "/";
  match str_find folder "/" with
  | None => Fault FNull
  | Some k => Done (strncpy (str_bytes (str_take k folder)) 20)
  end.

(** [while((end_path = strchr(folder, '/')) != NULL)]: the folders made *)
Fixpoint folder_loop (fuel : nat) (current folder : string) : run (list string) :=
  match fuel with
  | O => OutOfFuel
  | S fuel' =>
      match str_find folder "/" with
      | None => Done []
      | Some k =>
          let current := cut (current +:+ "/" +:+ str_take k folder) in
          rest ← folder_loop fuel' current (str_drop (S k) folder);
          Done (current :: rest)
      end
  end.

(** One turn removes a character at least. *)
Definition generateFolders (path dest_path : string) : run (list string) :=
  temp ← strcpy_path path;
  folder ← behind temp ":";
  current ← strcpy_path dest_path;
  folder_loop (S (String.length path)) current (skip_slash folder).

(** [snprintf(elf_path, PATH_MAX, OUT_FOLDER"/%s.elf", dumpFindPath(text))] *)
Definition elf_path_of (text : string) : run string :=
  p ← dumpFindPath text; Done (cut (OUT_FOLDER +:+ "/" +:+ p +:+ ".elf")).

(** *** What a module is decrypted with (dumpThread) *)

Definition contains (s sub : string) : bool := bool_decide (is_Some (strstr s sub)).

(** [param.self_type] and [param.path_id] *)
Definition param_self_type (system : bool) (text : string) : Z :=
  if system && contains text "os0" && contains text ".skprx" then 0 else 1.
Definition param_path_id (system : bool) (text : string) : Z :=
  if system then
    if contains text "app_em" then 23
    else if contains text "patch_em" then 24
    else if contains text "vs0_em" then 3
    else if contains text "os0_em" then 2
    else -1
  else -1.

Section Rif.
(** [sceIoGetstat]; for a folder that opens, its first name or the result of
    reading it *)
Context (sceIoGetstat : string -> Z) (first_name : string -> option (string + Z)).

(** The license by its fixed name, on the first device that has it; [rif_path]
    is left with the last one tried. *)
Fixpoint named_rif (devices : list string) (titleid rif_name : string) (res : Z) (rif_path : string) : Z * string :=
  match devices with
  | [] => (res, rif_path)
  | d :: devices' =>
      let rif_path := cut (d +:+ "license/app/" +:+ titleid +:+ "/" +:+ rif_name) in
      let res := checkExists sceIoGetstat rif_path in
      if res =? 0 then (res, rif_path) else named_rif devices' titleid rif_name res rif_path
  end.
(** else any license of the title; [res] is also the result of the last read. *)
Fixpoint any_rif (devices : list string) (titleid : string) (res : Z) (rif_path : string) : Z * string :=
  match devices with
  | [] => (res, rif_path)
  | d :: devices' =>
      let rif_path := cut (d +:+ "license/app/" +:+ titleid) in
      match first_name rif_path with
      | Some (inl name) => (0, cut (d +:+ "license/app/" +:+ titleid +:+ "/" +:+ name))
      | Some (inr res) => any_rif devices' titleid res rif_path
      | None => any_rif devices' titleid res rif_path
      end
  end.
Definition find_rif (titleid rif_name : string) : Z * string :=
  let '(res, rif_path) := named_rif DEVICES titleid rif_name 0 "" in
  if negb (res =? 0) then any_rif DEVICES titleid res rif_path else (res, rif_path).

(** The license of a module of the system; [None]: none *)
Definition system_rif (text : string) : run (option string) :=
  let id := param_path_id true text in
  if (id =? 24) || (id =? 23) then
    titleid ← dumpExtractTitleId text;
    let rif_path := cut ("ux0:app_em/" +:+ chars (until_nul titleid) +:+ "/sce_sys/package/work.bin") in
    Done (if negb (checkExists sceIoGetstat rif_path =? 0) then None else Some rif_path)
  else Done None.
End Rif.

(** Where the authentication information goes: with the module, or into the
    folder of the title *)
Definition auth_outpath (auth_type : bool) (old_path titleid : string) : run string :=
  if negb auth_type then
    match strstr old_path ".temp" with
    | None => Fault FNull
    | Some k => Done (str_take k old_path +:+ ".auth")
    end
  else
    match strstr old_path titleid with
    | None => Fault FNull
    | Some k => Done (cut (str_take (k + String.length titleid + 1) old_path +:+ "self_auth.bin"))
    end.

(** ** The folders on the way *)

Definition no_char (c : ascii) (s : string) : Prop := str_find s c = None.

(** [c1/c2/.../] *)
Fixpoint joined (cs : list string) : string :=
  match cs with [] => "" | c :: cs' => c +:+ "/" +:+ joined cs' end.

(** [current/c1], [current/c1/c2], ... *)
Fixpoint nested (current : string) (cs : list string) : list string :=
  match cs with
  | [] => []
  | c :: cs' => (current +:+ "/" +:+ c) :: nested (current +:+ "/" +:+ c) cs'
  end.

Lemma str_find_app s t c : no_char c s -> str_find (s +:+ String c t) c = Some (String.length s).
Proof.
  unfold no_char. induction s as [|d s IH]; intros H; [change (str_find (String c t) c = Some 0%nat); cbn; by rewrite Ascii.eqb_refl|].
  rewrite string_app_cons. cbn [str_find String.length] in *. destruct (Ascii.eqb d c); [done|].
  rewrite IH; [done|]. by destruct (str_find s c).
Qed.
Lemma str_drop_behind s d t : str_drop (S (String.length s)) (s +:+ String d t) = t.
Proof. induction s as [|x s IH]; [done|]. rewrite string_app_cons. cbn [str_drop String.length]. apply IH. Qed.
Lemma behind_app s t c : no_char c s -> behind (s +:+ String c t) c = Done t.
Proof. intros H. unfold behind. by rewrite str_find_app, str_drop_behind. Qed.

Lemma folder_loop_spec cs file : Forall (no_char "/") cs -> no_char "/" file -> forall fuel current,
  (length cs < fuel)%nat -> (String.length current + String.length (joined cs) + 1 < PATH_MAX)%nat ->
  folder_loop fuel current (joined cs +:+ file) = Done (nested current cs).
Proof.
  intros Hcs Hf. induction Hcs as [|c cs Hc _ IH]; intros [|fuel] current Hfuel Hl; cbn [length] in Hfuel; try lia; cbn [folder_loop joined nested].
  { change ("" +:+ file) with file. by rewrite Hf. }
  rewrite !string_app_assoc. change ("/" +:+ joined cs +:+ file) with (String "/" (joined cs +:+ file)).
  rewrite str_find_app, str_take_app, str_drop_behind by done.
  cbn [joined] in Hl. rewrite !string_length_app in Hl. cbn [String.length] in Hl.
  rewrite cut_id by (rewrite !string_length_app; cbn; lia).
  rewrite IH; [done|lia|]. rewrite !string_length_app. cbn. lia.
Qed.

Lemma joined_length cs file : (length cs <= String.length (joined cs +:+ file))%nat.
Proof.
  induction cs as [|c cs IH]; [cbn; lia|]. cbn [joined length]. rewrite !string_length_app in *. cbn [String.length]. lia.
Qed.

Lemma last_nested cs file : forall current,
  default current (last (nested current cs)) +:+ "/" +:+ file = current +:+ "/" +:+ joined cs +:+ file.
Proof.
  induction cs as [|c cs IH]; intros current; [done|]. cbn [nested joined]. rewrite last_cons.
  specialize (IH (current +:+ "/" +:+ c)). rewrite !string_app_assoc in IH |- *. rewrite <- IH. by destruct (last _).
Qed.

(** For a module [dev:/c1/.../cn/file] the folders [out/c1] to
    [out/c1/.../cn] are made, the outer ones first, and the ELF goes into the
    last of them. *)
Theorem output_folders_made dev (slash : bool) cs file : no_char ":" dev -> Forall (no_char "/") cs -> no_char "/" file ->
  skip_slash (joined cs +:+ file) = joined cs +:+ file ->
  (String.length dev + String.length (joined cs +:+ file) + 30 < PATH_MAX)%nat ->
  let path := dev +:+ ":" +:+ (if slash then "/" else "") +:+ joined cs +:+ file in
  generateFolders path OUT_FOLDER = Done (nested OUT_FOLDER cs) /\
  elf_path_of path = Done (default OUT_FOLDER (last (nested OUT_FOLDER cs)) +:+ "/" +:+ file +:+ ".elf").
Proof.
  intros Hdev Hcs Hf Hskip Hl path.
  assert (behind path ":" = Done ((if slash then "/" else "") +:+ joined cs +:+ file)) as Eb by (by apply behind_app).
  assert (skip_slash ((if slash then "/" else "") +:+ joined cs +:+ file) = joined cs +:+ file) as Es by (by destruct slash).
  assert (String.length path < PATH_MAX)%nat as Hp.
  { unfold path. rewrite !string_length_app in *. cbn [String.length]. destruct slash; cbn [String.length]; lia. }
  split.
  - unfold generateFolders, strcpy_path. rewrite (proj2 (Nat.ltb_lt _ _) Hp). cbn [mbind run_bind]. rewrite Eb. cbn [mbind run_bind].
    assert ((String.length OUT_FOLDER <? PATH_MAX)%nat = true) as -> by (apply Nat.ltb_lt; cbn; lia). cbn [mbind run_bind].
    rewrite Es. apply folder_loop_spec; [done|done| |].
    + pose proof (joined_length cs file). unfold path. rewrite !string_length_app in *. cbn [String.length]. lia.
    + rewrite !string_length_app in Hl. cbn [OUT_FOLDER String.length]. lia.
  - unfold elf_path_of, dumpFindPath. rewrite Eb. cbn [mbind run_bind]. rewrite Es, last_nested.
    rewrite cut_id by (rewrite !string_length_app in *; cbn [OUT_FOLDER String.length]; lia). by rewrite !string_app_assoc.
Qed.

(** The title is the second folder of the path. *)
Lemma title_id_extracted dev (slash : bool) first titleid rest : no_char ":" dev -> no_char "/" first -> first <> ""%string ->
  no_char "/" titleid ->
  let path := dev +:+ ":" +:+ (if slash then "/" else "") +:+ first +:+ "/" +:+ titleid +:+ "/" +:+ rest in
  (String.length path < PATH_MAX)%nat ->
  dumpExtractTitleId path = Done (strncpy (str_bytes titleid) 20).
Proof.
  intros Hdev Hf Hne Ht path Hl. unfold dumpExtractTitleId, strcpy_path. rewrite (proj2 (Nat.ltb_lt _ _) Hl). cbn [mbind run_bind].
  assert (behind path ":" = Done ((if slash then "/" else "") +:+ first +:+ "/" +:+ titleid +:+ "/" +:+ rest)) as -> by (by apply behind_app).
  cbn [mbind run_bind].
  assert (skip_slash ((if slash then "/" else "") +:+ first +:+ "/" +:+ titleid +:+ "/" +:+ rest) = first +:+ "/" +:+ titleid +:+ "/" +:+ rest) as ->.
  { destruct slash; [done|]. destruct first as [|c first]; [done|]. unfold no_char in Hf. cbn [str_find] in Hf.
    destruct (Ascii.eqb_spec c "/") as [->|Hc]; [done|]. change ("" +:+ ?x) with x. rewrite string_app_cons.
    unfold skip_slash. destruct c as [[][][][][][][][]]; done. }
  assert (behind (first +:+ "/" +:+ titleid +:+ "/" +:+ rest) "/" = Done (titleid +:+ "/" +:+ rest)) as -> by (by apply behind_app).
  cbn [mbind run_bind]. change (titleid +:+ "/" +:+ rest) with (titleid +:+ String "/" rest).
  by rewrite str_find_app, str_take_app.
Qed.

Lemma output_folders_made_witness :
  generateFolders "ux0:/app/PCSE00000/eboot.bin" OUT_FOLDER =
    Done ["ux0:/FAGDec/app"; "ux0:/FAGDec/app/PCSE00000"]%string /\
  elf_path_of "ux0:/app/PCSE00000/eboot.bin" = Done "ux0:/FAGDec/app/PCSE00000/eboot.bin.elf"%string.
Proof.
  refine (output_folders_made "ux0" true ["app"; "PCSE00000"]%string "eboot.bin" _ _ _ _ _).
  - reflexivity.
  - by repeat constructor.
  - reflexivity.
  - reflexivity.
  - eapply Nat.lt_le_trans; [|apply PATH_MAX_large]. apply Nat.ltb_lt. reflexivity.
Defined.

(** A folder without a name in it, on the last device, leaves the result 0 of
    its read: the folder itself is taken for the license. *)
Lemma empty_folder_taken sceIoGetstat first_name titleid rif_name :
  (forall p, sceIoGetstat p <> 0) -> (forall p, first_name p = Some (inr 0)) ->
  find_rif sceIoGetstat first_name titleid rif_name = (0, cut ("grw0:" +:+ "license/app/" +:+ titleid)).
Proof.
  intros H1 H2. unfold find_rif, DEVICES. cbn [named_rif]. unfold checkExists.
  rewrite !(proj2 (Z.eqb_neq _ _)) by apply H1. cbn [negb any_rif].
  by rewrite !H2.
Qed.
