(* ===== verification/FagThread.v ===== *)
(** * The dumping thread of FAGDec (FAGDec/src/app/dump.c)

    The thread goes through the list of modules that [FagQueue] filled: at a
    heading it mounts the game and looks for its license, at a module it asks
    the kernel plugin to decrypt it, and waits.  The files and the header that
    was read are the state of [FagDump]; what the plugin, the decompressing
    thread and the end of the module do with one request is [work], of which
    [module_work] is the one of [FagDump] and [FagFinish]; its threads are in
    [FagSync].  Mounts and requests are recorded in the order they are made. *)

From stdpp Require Import prelude gmap strings.
From Stdlib Require Import Ascii.
From S2P Require Import Prelude Bytes CString Hoare Sha256 ElfTools Zlib FagMenu FagGame FagDump FagFinish FagQueue FagPaths.
Import ElfTools.Layout.

(** [ententeParams] *)
Record alliedParams := Allied {
  rq_path : string;
  rq_outpath : string;
  rq_rif : option string;
  rq_path_id : Z;
  rq_self_type : Z;
  rq_self_auth : bool;
}.

Inductive action :=
  | AMount (path : string) (res : Z)        (** [sceAppMgrGameDataMount] *)
  | AUmount (mount_point : option mem)      (** [sceAppMgrUmount] *)
  | AMkdirs (folders : list string)         (** [sceIoMkdir] of each *)
  | ARequest (r : alliedParams).                 (** [userAlliedDecryptSelf] *)

(** The variables of [dumpThread]; [mount_point] and [rif_path] are not set at
    first. *)
Record thread := Thread {
  dmenu : Menu;
  files : dumping;
  titleid : mem;
  rif_path : option string;
  auth_type : bool;
  system : bool;
  mount_point : option mem;
  trace : list action;
}.
Abbreviation T := (SM thread).

Definition set_files f s := Thread (dmenu s) f (titleid s) (rif_path s) (auth_type s) (system s) (mount_point s) (trace s).
Definition put_menu m s := Thread m (files s) (titleid s) (rif_path s) (auth_type s) (system s) (mount_point s) (trace s).
Definition put_titleid t s := Thread (dmenu s) (files s) t (rif_path s) (auth_type s) (system s) (mount_point s) (trace s).
Definition set_rif r s := Thread (dmenu s) (files s) (titleid s) r (auth_type s) (system s) (mount_point s) (trace s).
Definition set_auth a s := Thread (dmenu s) (files s) (titleid s) (rif_path s) a (system s) (mount_point s) (trace s).
Definition set_system b s := Thread (dmenu s) (files s) (titleid s) (rif_path s) (auth_type s) b (mount_point s) (trace s).
Definition set_mount p s := Thread (dmenu s) (files s) (titleid s) (rif_path s) (auth_type s) (system s) p (trace s).
Definition record_action a s := Thread (dmenu s) (files s) (titleid s) (rif_path s) (auth_type s) (system s) (mount_point s) (trace s ++ [a]).

Definition on_menu {A} (op : SM Menu A) : T A := fun s =>
  match op (dmenu s) with Done (x, m) => Done (x, put_menu m s) | Fault f => Fault f | OutOfFuel => OutOfFuel end.
Definition on_files {A} (op : SM dumping A) : T A := fun s =>
  match op (files s) with Done (x, f) => Done (x, set_files f s) | Fault f => Fault f | OutOfFuel => OutOfFuel end.
Definition crash {A} (f : fault) : T A := fun _ => Fault f.
Definition log (level : MenuType) : T unit := on_files (statusAddLog level).

Definition HEADER_BYTES : nat := 0x1000.

Section Thread.
(** The result of mounting a path, and the name of the mount point *)
Context (mount_res : string -> Z) (mount_name : string -> mem).
(** the title of [current_game] *)
Context (current_game : string).
(** the fixed name of a license, and what there is for each title *)
Context (rif_name : string) (sceIoGetstat : string -> Z) (first_name : string -> option (string + Z)).
(** the modules, as far as they can be opened; whether [malloc] succeeds; what
    fresh memory holds *)
Context (source : string -> mem + Z) (mem_ok : nat -> bool) (junk : nat -> mem).
Context (dump_type : DumpType).
(** the request, [elf_path], [current_file] and the authentication files *)
Context (work : alliedParams -> string -> string -> option (string * string) -> D bool).

(** [for(int i = 0; i < DEVICES_AMT; i++)] of [gamePfsDecrypt]: the game that
    is mounted is the one of [current_game]. *)
Fixpoint mount_loop (devices : list string) (res : Z) : T Z :=
  match devices with
  | [] => mret res
  | d :: devices' =>
      let current_path := cut (d +:+ "/app/" +:+ current_game) in
      let res := mount_res current_path in
      _ ← sm_modify (record_action (AMount current_path res));
      if 0 <=? res then _ ← sm_modify (set_mount (Some (mount_name current_path))); mret res
      else mount_loop devices' res
  end.
Definition gamePfsDecrypt : T Z := mount_loop DEVICES 0.

(** [if(menu_entry->draw_type == MENU_SUBTITLE)]; [Some q]: [continue] at [q] *)
Definition at_heading (p : positive) (e : MenuEntry) : T (option (option positive)) :=
  _ ← sm_modify (set_auth true);
  let t := strncpy (text e) 20 in
  _ ← sm_modify (put_titleid t);
  _ ← log MENU_NONE;
  if bool_decide (until_nul t = str_bytes "SYSTEM") then
    _ ← log MENU_NONE;
    _ ← sm_modify (set_auth false);
    _ ← sm_modify (set_system true);
    mret (Some (next e))
  else
    _ ← sm_modify (set_system false);
    res ← gamePfsDecrypt;
    if res <? 0 then
      _ ← log MENU_BAD;
      q ← on_menu (dumpSkipGame p);
      mret (Some q)
    else
      _ ← log MENU_NONE;
      title ← sm_lift (read_str t 0);
      let '(res, rif) := find_rif sceIoGetstat first_name title rif_name in
      _ ← sm_modify (set_rif (Some rif));
      if negb (res =? 0) then
        _ ← log MENU_BAD;
        q ← on_menu (dumpSkipGame p);
        mret (Some q)
      else
        _ ← log MENU_NONE;
        mret None.

Definition out_path_of (text : string) : run string :=
  p ← dumpFindPath text; Done (cut (OUT_FOLDER +:+ "/" +:+ p)).

(** [if(system)]: [param.rifpath]; the license of an emulated application is
    that of its own title. *)
Definition system_params (text : string) : T (option string) :=
  s ← sm_get;
  if system s then
    let id := param_path_id true text in
    _ ← (if (id =? 24) || (id =? 23) then
           _ ← sm_modify (set_auth true);
           t ← sm_lift (dumpExtractTitleId text);
           sm_modify (put_titleid t)
         else mret tt);
    sm_lift (system_rif sceIoGetstat text)
  else mret (rif_path s).

(** [appinfo->self_type] *)
Definition appinfo_self_type (self : mem) : run Z :=
  off ← load64 self 56; load32 self (off + 12).

(** From the header to the end of the module; [Some q]: [continue] at [q] *)
Definition decrypt (entry_text : string) (elf_path current_file : string) (behind : option positive) : T (option (option positive)) :=
  let temp := cut (elf_path +:+ ".temp") in
  rif ← system_params entry_text;
  s ← sm_get;
  let old_path := cut (temp +:+ ".auth") in
  needed ← (if auth_type s then
              self_type ← sm_lift (appinfo_self_type (current_self (files s)));
              mret (self_type =? 8)
            else mret true);
  if negb needed then _ ← log MENU_NONE; mret (Some behind)
  else
    title ← (if auth_type s then sm_lift (read_str (titleid s) 0) else mret ""%string);
    auth ← sm_lift (auth_outpath (auth_type s) old_path title);
    let self_auth := bool_decide (disk (files s) !! auth = None) in
    let r := Allied entry_text temp rif (param_path_id (system s) entry_text) (param_self_type (system s) entry_text) self_auth in
    _ ← sm_modify (record_action (ARequest r));
    _ ← log MENU_NONE;
    ok ← on_files (work r elf_path current_file (if self_auth then Some (old_path, auth) else None));
    if ok : bool then _ ← log MENU_NONE; mret None else mret (Some behind).

(** [if(menu_entry->draw_type == MENU_NORMAL)].  Without memory the header is
    read through a null pointer; without the file the freed header is used,
    after the next entry has been looked at. *)
Definition at_module (e : MenuEntry) : T (option (option positive)) :=
  entry_text ← sm_lift (read_str (text e) 0);
  _ ← log MENU_NONE;
  folders ← sm_lift (generateFolders entry_text OUT_FOLDER);
  _ ← sm_modify (record_action (AMkdirs folders));
  elf_path ← sm_lift (elf_path_of entry_text);
  current_file ← (match dump_type with
                  | DUMP_SELF => sm_lift (out_path_of entry_text)
                  | DUMP_ELF => mret elf_path
                  end);
  _ ← log MENU_NONE;
  ok ← on_files (try_malloc mem_ok);
  if negb ok then crash FNull
  else
    let '(res, bs) := ReadFile source entry_text (Z.of_nat HEADER_BYTES) in
    if res <? 0 then
      match next e with None => crash FNull | Some _ => crash FMem end
    else
      _ ← on_files (sm_modify (FagDump.set_self (over (junk HEADER_BYTES) bs)));
      decrypt entry_text elf_path current_file (next e).

(** What ends a turn of the loop *)
Definition advance (e : MenuEntry) : T (option positive) :=
  s ← sm_get;
  last ← (match next e with
          | None => mret true
          | Some q => n ← on_menu (read q); mret (bool_decide (draw_type n = MENU_SUBTITLE))
          end);
  _ ← (if last : bool then
         _ ← sm_modify (record_action (AUmount (mount_point s))); log MENU_NONE
       else mret tt);
  _ ← (match next e with Some q => on_menu (sm_modify (set_selected (Some q))) | None => mret tt end);
  mret (next e).

(** [while(menu_entry != NULL)] *)
Fixpoint thread_loop (fuel : nat) (p : option positive) : T unit :=
  match fuel with
  | O => fun _ => OutOfFuel
  | S fuel' =>
      match p with
      | None => mret tt
      | Some p =>
          e ← on_menu (read p);
          _ ← on_menu (sm_modify (set_active 0));
          go ← (match draw_type e with
                | MENU_SUBTITLE => at_heading p e
                | MENU_NORMAL => at_module e
                | MENU_TITLE => mret None
                end);
          match go with
          | Some q => thread_loop fuel' q
          | None => q ← advance e; thread_loop fuel' q
          end
      end
  end.

(** From [menu_entry = dump_menu->entry_start] on; every turn goes on to an
    entry further down. *)
Definition dumpThread : T unit :=
  m ← sm_gets dmenu;
  _ ← thread_loop (rounds (entries m)) (entry_start m);
  log MENU_WARNING.
End Thread.

(** One request: the plugin and the decompressing thread side by side, the
    last turn of the thread, and the end of the module *)
Section Work.
Context {Dz Iz : Type} `{!Zlib Dz Iz}.
Context (uncompress compress : Z -> mem -> Z * mem) (inflateEnd : Iz -> Z).
Context (open_w remove_r rename_r : string -> Z) (mem_ok : nat -> bool) (junk : nat -> mem).
Context (fuel : nat) (stream : alliedParams -> Z -> mem) (events : alliedParams -> list event) (uninit : SHA256_CTX) (dump_type : DumpType).

Definition module_work (r : alliedParams) (elf_path current_file : string) (auth : option (string * string)) : D bool :=
  let temp := rq_outpath r in
  _ ← run_events uncompress compress inflateEnd open_w remove_r mem_ok junk fuel temp current_file dump_type (stream r) (events r);
  _ ← decompress_pass uncompress compress inflateEnd open_w remove_r mem_ok junk fuel temp current_file dump_type fuel;
  finish_module open_w remove_r rename_r mem_ok junk fuel uninit dump_type temp elf_path current_file auth.
End Work.

(** ** What the thread asks for *)

Ltac tstep :=
  match goal with
  | |- context [@mbind (SM thread) _ _ _ ?k ?op ?s] =>
      let r := eval hnf in (op s) in
      match r with Done (?a, ?s') => rewrite (sm_bind_Done op k s a s' eq_refl) end; cbv beta
  end.

Lemma on_menu_Done {A} (op : SM Menu A) s x m : op (dmenu s) = Done (x, m) -> on_menu op s = Done (x, put_menu m s).
Proof. intros E. unfold on_menu. by rewrite E. Qed.
Lemma on_files_Done {A} (op : SM dumping A) s x f : op (files s) = Done (x, f) -> on_files op s = Done (x, set_files f s).
Proof. intros E. unfold on_files. by rewrite E. Qed.

Definition requests (tr : list action) : list alliedParams :=
  omap (fun a => match a with ARequest r => Some r | _ => None end) tr.
Definition mounts (tr : list action) : list string :=
  omap (fun a => match a with AMount p _ => Some p | _ => None end) tr.

Lemma requests_snoc tr a : requests (tr ++ [a]) = requests tr ++ match a with ARequest r => [r] | _ => [] end.
Proof. unfold requests. rewrite omap_app. by destruct a. Qed.

Definition is_system (title : mem) : bool := bool_decide (title = str_bytes "SYSTEM").

(** A text that ends in its array *)
Definition ended (m : mem) : Prop := (length (until_nul m) < length m)%nat.

Lemma until_nul_split m : ended m -> exists post, m = until_nul m ++ 0 :: post /\ Forall (fun b => b <> 0) (until_nul m).
Proof.
  unfold ended. induction m as [|b m IH]; cbn [until_nul length]; [lia|]. destruct (Z.eqb_spec b 0) as [->|Hb].
  - intros _. by exists m.
  - cbn [length]. intros H. destruct IH as (post & E & Hf); [lia|]. exists post. split; [by rewrite E at 1|by constructor].
Qed.

Lemma read_str_ended m : ended m -> read_str m 0 = Done (chars (until_nul m)).
Proof. intros H. destruct (until_nul_split m H) as (post & E & Hf). rewrite E at 1. by apply read_str_chars. Qed.

Section Served.
Context (mount_res : string -> Z) (mount_name : string -> mem) (current_game rif_name : string).
Context (sceIoGetstat : string -> Z) (first_name : string -> option (string + Z)).
Context (source : string -> mem + Z) (mem_ok : nat -> bool) (junk : nat -> mem) (dump_type : DumpType).
Context (work : alliedParams -> string -> string -> option (string * string) -> D bool).

Abbreviation loop := (thread_loop mount_res mount_name current_game rif_name sceIoGetstat first_name source mem_ok junk dump_type work).

(** The header that is read, and the type it has *)
Definition header_of (t : string) : mem := over (junk HEADER_BYTES) (ReadFile source t (Z.of_nat HEADER_BYTES)).2.
Definition self_type_of (t : string) : Z := match appinfo_self_type (header_of t) with Done ty => ty | _ => 0 end.
Definition license (title : mem) : Z * string := find_rif sceIoGetstat first_name (chars title) rif_name.

Definition mounted : bool := existsb (fun d => 0 <=? mount_res (cut (d +:+ "/app/" +:+ current_game))) DEVICES.
(** The modules of this title are looked at. *)
Definition served (title : mem) : bool := is_system title || mounted && ((license title).1 =? 0).
(** This module is decrypted. *)
Definition wanted (x : mem * mem) : bool := served x.1 && (is_system x.1 || (self_type_of (chars x.2) =? 8)).

(** The request for a module under its title *)
Definition answers (x : mem * mem) (r : alliedParams) : Prop :=
  let t := chars x.2 in
  rq_path r = t /\ (exists elf, elf_path_of t = Done elf /\ rq_outpath r = cut (elf +:+ ".temp")) /\
  rq_rif r = (if is_system x.1 then None else Some (license x.1).2) /\
  rq_path_id r = param_path_id (is_system x.1) t /\ rq_self_type r = param_self_type (is_system x.1) t.

(** A module that can be read, with an output path *)
Record readable (x : mem * mem) : Prop := {
  rd_folders : is_done (generateFolders (chars x.2) OUT_FOLDER) = true;
  rd_paths : exists elf, elf_path_of (chars x.2) = Done elf /\ is_done (out_path_of (chars x.2)) = true /\
    is_done (auth_outpath (negb (is_system x.1)) (cut (cut (elf +:+ ".temp") +:+ ".auth")) (chars x.1)) = true;
  rd_source : 0 <= (ReadFile source (chars x.2) (Z.of_nat HEADER_BYTES)).1 /\ is_done (appinfo_self_type (header_of (chars x.2))) = true;
  rd_system : is_system x.1 = true -> param_path_id true (chars x.2) <> 24 /\ param_path_id true (chars x.2) <> 23;
}.

(** There is memory, and the work on a module whose header was read ends. *)
Definition works : Prop := (forall k, mem_ok k = true) /\
  forall r elf file auth s, current_self s = header_of (rq_path r) -> is_done (work r elf file auth s) = true.

(** The variables after the heading [title] *)
Record on_title (title : mem) (s : thread) : Prop := {
  ot_title : is_system title = false -> read_str (titleid s) 0 = Done (chars title);
  ot_system : system s = is_system title;
  ot_auth : auth_type s = negb (is_system title);
  ot_rif : is_system title = false -> rif_path s = Some (license title).2;
}.

(** Nothing but the files and the record changes *)
Record same_title (s s' : thread) : Prop := {
  st_menu : dmenu s' = dmenu s;
  st_title : titleid s' = titleid s;
  st_rif : rif_path s' = rif_path s;
  st_auth : auth_type s' = auth_type s;
  st_system : system s' = system s;
}.
Lemma on_title_same title s s' : same_title s s' -> on_title title s -> on_title title s'.
Proof. intros [H0 H1 H2 H3 H4] [O1 O2 O3 O4]. split; by rewrite ?H1, ?H2, ?H3, ?H4. Qed.

Lemma gamePfsDecrypt_spec s : exists res s', gamePfsDecrypt mount_res mount_name current_game s = Done (res, s') /\
  (res <? 0) = negb mounted /\ same_title s s' /\ requests (trace s') = requests (trace s).
Proof.
  unfold gamePfsDecrypt, mounted, DEVICES. cbn [mount_loop existsb].
  repeat (tstep; match goal with |- context [0 <=? mount_res ?p] => destruct (Z.leb_spec 0 (mount_res p)) end;
    [tstep; do 2 eexists; split; [done|]; cbn [orb negb]; split; [lia|]; split; [by split|];
     cbn [trace set_mount record_action]; by rewrite !requests_snoc, !app_nil_r|]).
  do 2 eexists. split; [done|]. cbn [orb negb]. split; [lia|]. split; [by split|].
  cbn [trace record_action]. by rewrite !requests_snoc, !app_nil_r.
Qed.

(** A heading that is served leaves its variables; any other leads behind its
    modules. *)
Lemma heading_spec s ps ds i p e : menu_holds (dmenu s) ps ds -> ps !! i = Some p ->
  (length (until_nul (text e)) < 20)%nat -> exists go s',
  at_heading mount_res mount_name current_game rif_name sceIoGetstat first_name p e s = Done (go, s') /\
  dmenu s' = dmenu s /\ requests (trace s') = requests (trace s) /\
  let title := until_nul (text e) in
  if served title then on_title title s' /\ go = (if is_system title then Some (next e) else None)
  else go = Some (list_find (fun d => node_type d = MENU_DISABLE) (drop (S i) ds) ≫= (fun x => ps !! (S i + x.1)%nat)).
Proof.
  intros Hm Hp Hl. unfold at_heading. do 3 tstep.
  assert (until_nul (strncpy (text e) 20) = until_nul (text e)) as Ht by (by apply until_nul_strncpy).
  assert (read_str (strncpy (text e) 20) 0 = Done (chars (until_nul (text e)))) as Hr.
  { rewrite read_str_ended; [by rewrite Ht|]. unfold ended. by rewrite Ht, strncpy_length. }
  rewrite Ht. unfold served, is_system. cbv zeta. case_bool_decide as Hsys; cbn [orb].
  { do 3 tstep. do 2 eexists. split; [done|]. split; [done|]. split; [done|]. split; [|done].
    split; cbn; unfold is_system; rewrite ?bool_decide_eq_true_2 by done; done. }
  tstep. match goal with |- context [(gamePfsDecrypt _ _ _ ≫= _) ?s0] => set (s1 := s0) end.
  destruct (gamePfsDecrypt_spec s1) as (res & s2 & E2 & Hres & F2 & R2). rewrite (sm_bind_Done _ _ _ _ _ E2), Hres.
  assert (forall s3, dmenu s3 = dmenu s -> on_menu (dumpSkipGame p) s3 = Done (list_find (fun d => node_type d = MENU_DISABLE) (drop (S i) ds) ≫= (fun x => ps !! (S i + x.1)%nat), s3)) as Hskip.
  { intros s3 H3. erewrite on_menu_Done; [|rewrite H3; by apply (skip_game_finds _ ps ds)]. rewrite <- H3. by destruct s3. }
  destruct mounted; cbn [negb andb].
  - tstep. rewrite Hr. tstep. fold (license (until_nul (text e))).
    destruct (license (until_nul (text e))) as [r rif] eqn:El. tstep. cbn [fst].
    destruct (r =? 0); cbn [negb].
    + tstep. do 2 eexists. split; [done|]. cbn. split; [apply (st_menu _ _ F2)|]. split; [exact R2|]. split; [|done].
      assert (is_system (until_nul (text e)) = false) as Hs by (by apply bool_decide_eq_false_2).
      split; cbn; [rewrite (st_title _ _ F2); done|by rewrite (st_system _ _ F2), Hs|by rewrite (st_auth _ _ F2), Hs|].
      by rewrite El.
    + tstep. match goal with |- context [(on_menu _ ≫= _) ?s0] => set (s3 := s0) end.
      rewrite (sm_bind_Done _ _ _ _ _ (Hskip s3 (st_menu _ _ F2))). do 2 eexists. split; [done|].
      split; [apply (st_menu _ _ F2)|]. by split.
  - tstep. match goal with |- context [(on_menu _ ≫= _) ?s0] => set (s3 := s0) end.
    rewrite (sm_bind_Done _ _ _ _ _ (Hskip s3 (st_menu _ _ F2))). do 2 eexists. split; [done|].
    split; [apply (st_menu _ _ F2)|]. by split.
Qed.

Lemma system_params_spec title t s : on_title title s ->
  (is_system title = true -> param_path_id true t <> 24 /\ param_path_id true t <> 23) ->
  system_params sceIoGetstat t s = Done (if is_system title then None else Some (license title).2, s).
Proof.
  intros [_ O2 _ O4] Hid. unfold system_params. tstep. rewrite O2. destruct (is_system title) eqn:Es; [|by rewrite O4].
  destruct (Hid eq_refl) as [H1 H2]. rewrite (proj2 (Z.eqb_neq _ _) H1), (proj2 (Z.eqb_neq _ _) H2). cbn [orb]. tstep.
  unfold system_rif. by rewrite (proj2 (Z.eqb_neq _ _) H1), (proj2 (Z.eqb_neq _ _) H2).
Qed.

Lemma decrypt_spec title t elf file behind s : works -> on_title title s -> readable (title, t) ->
  current_self (files s) = header_of (chars t) -> elf_path_of (chars t) = Done elf -> exists go s',
  decrypt sceIoGetstat work (chars t) elf file behind s = Done (go, s') /\ same_title s s' /\
  (go = None \/ go = Some behind) /\
  exists rs, requests (trace s') = requests (trace s) ++ rs /\ Forall2 answers (if is_system title || (self_type_of (chars t) =? 8) then [(title, t)] else []) rs.
Proof.
  intros [_ Hwork] Ho [R1 (elf' & R2 & R3 & R4) [_ R5] R6] Hself Helf. cbn [fst snd] in *.
  assert (elf' = elf) as -> by congruence.
  unfold decrypt. rewrite (sm_bind_Done _ _ _ _ _ (system_params_spec title (chars t) s Ho R6)). tstep.
  destruct (is_done_Done _ R4) as [auth Eauth]. destruct (is_done_Done _ R5) as [ty Ety].
  pose proof Ho as [O1 O2 O3 O4].
  assert ((if auth_type s then self_type ← sm_lift (appinfo_self_type (current_self (files s))); mret (self_type =? 8) else mret true) s
    = Done (is_system title || (self_type_of (chars t) =? 8), s)) as E1.
  { rewrite O3, Hself. unfold self_type_of. rewrite Ety. by destruct (is_system title). }
  rewrite (sm_bind_Done _ _ _ _ _ E1). destruct (is_system title || (self_type_of (chars t) =? 8)) eqn:En; cbn [negb].
  - assert (exists x, (if auth_type s then sm_lift (read_str (titleid s) 0) else mret ""%string) s = Done (x, s) /\
      auth_outpath (auth_type s) (cut (cut (elf +:+ ".temp") +:+ ".auth")) x = Done auth) as (x & E2 & E3).
    { rewrite O3 in *. destruct (is_system title); cbn [negb] in *.
      - eexists. split; [done|]. exact Eauth.
      - eexists. rewrite O1 by done. split; [done|]. exact Eauth. }
    rewrite (sm_bind_Done _ _ _ _ _ E2), E3. do 3 tstep.
    match goal with |- context [(on_files (work ?r ?a ?b ?c) ≫= _) ?s0] =>
      set (s1 := s0); destruct (is_done_Done _ (Hwork r a b c (files s1) Hself)) as [[ok f] Ew] end.
    rewrite (sm_bind_Done _ _ _ _ _ (on_files_Done _ s1 _ _ Ew)).
    assert (requests (trace s1) = requests (trace s) ++ [Allied (chars t) (cut (elf +:+ ".temp")) (if is_system title then None else Some (license title).2)
      (param_path_id (system s) (chars t)) (param_self_type (system s) (chars t)) (bool_decide (disk (files s) !! auth = None))]) as Er by (by apply requests_snoc).
    assert (exists s', (if ok then _ ← log MENU_NONE; mret None else mret (Some behind)) (set_files f s1) =
      Done (if ok then None else Some behind, s') /\ same_title s s' /\ requests (trace s') = requests (trace s1)) as (s' & E4 & F4 & R).
    { destruct ok; [tstep|]; eexists; (split; [done|]); (split; [by split|done]). }
    do 2 eexists. split; [exact E4|]. split; [done|]. split; [destruct ok; auto|]. eexists. rewrite R, Er. split; [done|].
    constructor; [|constructor]. split; [done|]. split; [by exists elf|]. cbn. rewrite O2. done.
  - tstep. do 2 eexists. split; [done|]. split; [by split|]. split; [by right|]. exists []. cbn. by rewrite app_nil_r.
Qed.

Lemma module_spec title e s : works -> on_title title s -> readable (title, until_nul (text e)) -> ended (text e) -> exists go s',
  at_module sceIoGetstat source mem_ok junk dump_type work e s = Done (go, s') /\ same_title s s' /\
  (go = None \/ go = Some (next e)) /\
  exists rs, requests (trace s') = requests (trace s) ++ rs /\
    Forall2 answers (if is_system title || (self_type_of (chars (until_nul (text e))) =? 8) then [(title, until_nul (text e))] else []) rs.
Proof.
  intros Hw Ho Hr He. pose proof Hr as [R1 (elf & R2 & R3 & _) [R5 _] _]. cbn [fst snd] in *.
  unfold at_module. rewrite (read_str_ended _ He). do 2 tstep. set (t := chars (until_nul (text e))) in *.
  destruct (is_done_Done _ R1) as [folders Ef]. destruct (is_done_Done _ R3) as [out Eo]. rewrite Ef. do 2 tstep.
  rewrite R2. tstep.
  match goal with |- context [(?op ≫= _) ?s0] => assert (exists file, op s0 = Done (file, s0)) as [file Efile] end.
  { destruct dump_type; [rewrite Eo|]; by eexists. }
  rewrite (sm_bind_Done _ _ _ _ _ Efile). do 2 tstep. rewrite (proj1 Hw). cbn [negb].
  destruct (ReadFile source t (Z.of_nat HEADER_BYTES)) as [res bs] eqn:Erd. cbn [fst] in R5.
  rewrite (proj2 (Z.ltb_ge _ _) R5). tstep.
  match goal with |- context [decrypt _ _ _ _ _ _ ?s0] => set (s1 := s0) end.
  destruct (decrypt_spec title (until_nul (text e)) elf file (next e) s1) as (go & s' & E & F & G & rs & Er & Ha); [done| |done| |done|].
  - by destruct Ho; split.
  - cbn. unfold header_of. fold t. by rewrite Erd.
  - exists go, s'. split; [exact E|]. split; [by destruct F; split|]. split; [done|]. exists rs. split; [|done].
    rewrite Er. f_equal. cbn. by rewrite requests_snoc, app_nil_r.
Qed.

Lemma advance_spec s ps ds i p e : menu_holds (dmenu s) ps ds -> ps !! i = Some p -> next e = ps !! S i -> exists s',
  advance e s = Done (next e, s') /\ menu_holds (dmenu s') ps ds /\ requests (trace s') = requests (trace s) /\
  titleid s' = titleid s /\ rif_path s' = rif_path s /\ auth_type s' = auth_type s /\ system s' = system s.
Proof.
  intros Hm Hp Hn. unfold advance. tstep.
  assert (exists last : bool, (match next e with
          | None => mret true
          | Some q => n ← on_menu (FagMenu.read q); mret (bool_decide (draw_type n = MENU_SUBTITLE))
          end) s = Done (last, s)) as [last El].
  { destruct (next e) as [q|]; [|by eexists]. destruct (entry_at _ _ _ _ _ Hm (eq_sym Hn)) as (n & En & _).
    rewrite (sm_bind_Done _ _ _ _ _ (on_menu_Done _ _ _ _ En)). eexists. unfold mret, sm_ret. do 2 f_equal. by destruct s. }
  rewrite (sm_bind_Done _ _ _ _ _ El).
  assert (exists s1, (if last then _ ← sm_modify (record_action (AUmount (mount_point s))); log MENU_NONE else mret tt) s = Done (tt, s1) /\
    same_title s s1 /\ requests (trace s1) = requests (trace s)) as (s1 & E1 & [F1 F2 F3 F4 F5] & R1).
  { destruct last; [tstep|]; eexists; (split; [done|]); (split; [by split|]); [|done]. cbn. by rewrite requests_snoc, app_nil_r. }
  rewrite (sm_bind_Done _ _ _ _ _ E1). rewrite <- F1 in Hm. destruct (next e) as [q|] eqn:Eq.
  - tstep. eexists. split; [done|]. cbn. split; [apply set_selected_holds; [done|]|by auto].
    apply list_elem_of_lookup. by exists (S i).
  - tstep. eexists. split; [done|]. by auto.
Qed.

(** The entries behind the title of the list *)
Definition listed (d : node) : Prop :=
  (node_draw d = MENU_SUBTITLE /\ node_type d = MENU_DISABLE /\ (length (until_nul (node_text d)) < 20)%nat \/
   node_draw d = MENU_NORMAL /\ node_type d <> MENU_DISABLE) /\ ended (node_text d).

(** Behind the heading of a game that is not served, nothing is wanted up to
    the next heading. *)
Lemma queued_unserved cur l : served cur = false -> Forall listed l ->
  filter (fun x => wanted x = true) (queued cur l) =
  filter (fun x => wanted x = true) (queued cur (default [] ((fun x => drop x.1 l) <$> list_find (fun d => node_type d = MENU_DISABLE) l))) /\
  forall x, x ∈ queued cur (default [] ((fun x => drop x.1 l) <$> list_find (fun d => node_type d = MENU_DISABLE) l)) -> x ∈ queued cur l.
Proof.
  intros Hc Hl. induction Hl as [|d l [Hd _] _ [IH1 IH2]]; [by split|]. cbn [list_find].
  destruct Hd as [(Hd & Ht & _)|[Hd Ht]].
  - rewrite decide_True by done. by split.
  - rewrite decide_False by done. cbn [queued]. rewrite Hd, filter_cons.
    rewrite decide_False by (unfold wanted; cbn; by rewrite Hc). rewrite IH1.
    destruct (list_find _ l) as [[j y]|]; cbn in *; (split; [done|]); [|by intros x Hx%elem_of_nil]. intros x Hx. right. by apply IH2.
Qed.

Lemma loop_spec ps ds : works -> forall fuel i cur s, (length ps - i < fuel)%nat -> menu_holds (dmenu s) ps ds ->
  Forall listed (drop i ds) ->
  (forall x, x ∈ queued cur (drop i ds) -> served x.1 = true -> readable x) ->
  (forall d, ds !! i = Some d -> node_draw d = MENU_NORMAL -> served cur = true /\ on_title cur s) -> exists s',
  loop fuel (ps !! i) s = Done (tt, s') /\ menu_holds (dmenu s') ps ds /\
  exists rs, requests (trace s') = requests (trace s) ++ rs /\
    Forall2 answers (filter (fun x => wanted x = true) (queued cur (drop i ds))) rs.
Proof.
  intros Hw. induction fuel as [|fuel IH]; intros i cur s Hf Hm Hl Hr Hn; [lia|]. cbn [thread_loop].
  pose proof (holds_lengths _ _ _ Hm) as Hlen.
  destruct (ps !! i) as [p|] eqn:Hp.
  2:{ apply lookup_ge_None in Hp. rewrite drop_ge by lia. exists s. split; [done|]. split; [done|]. exists []. by rewrite app_nil_r. }
  destruct (entry_at _ _ _ _ _ Hm Hp) as (e & Ee & Hnext & _ & Hd & _).
  rewrite (sm_bind_Done _ _ _ _ _ (on_menu_Done _ _ _ _ Ee)). tstep.
  match goal with |- context [(_ ≫= _) ?s0] => set (s1 := s0) end.
  assert (menu_holds (dmenu s1) ps ds) as Hm1 by (eapply holds_frame; [exact Hm|done..]).
  rewrite (drop_S _ _ _ Hd) in Hl, Hr |- *. inversion Hl as [|x l [Hshape Hend] Hl']; subst x l.
  change (node_draw (data e)) with (draw_type e) in *. change (node_text (data e)) with (text e) in *.
  pose proof (lookup_lt_Some _ _ _ Hp) as Hlt.
  cbn [queued] in *. change (node_draw (data e)) with (draw_type e) in *. change (node_text (data e)) with (text e) in *.
  destruct Hshape as [(Hdt & _ & Hsh)|[Hdt Hty]]; rewrite Hdt in Hr |- *.
  - set (title := until_nul (text e)) in *.
    destruct (heading_spec s1 ps ds i p e Hm1 Hp Hsh) as (go & s2 & E2 & M2 & R2 & Hgo).
    rewrite (sm_bind_Done _ _ _ _ _ E2). rewrite <- M2 in Hm1. change (requests (trace s1)) with (requests (trace s)) in R2.
    fold title in Hgo. cbv zeta in Hgo. destruct (served title) eqn:Esv.
    + destruct Hgo as [Ho Hgo].
      assert (exists s3, (match go with Some q => loop fuel q | None => q ← advance e; loop fuel q end) s2 = loop fuel (ps !! S i) s3 /\
        menu_holds (dmenu s3) ps ds /\ requests (trace s3) = requests (trace s) /\ on_title title s3) as (s3 & E3 & M3 & R3 & O3).
      { subst go. destruct (is_system title).
        - exists s2. by rewrite Hnext.
        - destruct (advance_spec s2 ps ds i p e Hm1 Hp Hnext) as (s3 & E3 & M3 & R3 & A1 & A2 & A3 & A4).
          exists s3. rewrite (sm_bind_Done _ _ _ _ _ E3), Hnext. split; [done|]. split; [done|]. split; [congruence|].
          destruct Ho; split; congruence || (by rewrite ?A1, ?A2, ?A3, ?A4). }
      rewrite E3. destruct (IH (S i) title s3) as (s' & E & M & rs & Er & Ha); [lia|done|done|done|by auto|].
      exists s'. split; [done|]. split; [done|]. exists rs. by rewrite Er, R3.
    + subst go. destruct (queued_unserved title (drop (S i) ds) Esv Hl') as [Q1 Q2].
      set (j := match list_find (fun d => node_type d = MENU_DISABLE) (drop (S i) ds) with Some x => (S i + x.1)%nat | None => length ps end).
      assert ((list_find (fun d => node_type d = MENU_DISABLE) (drop (S i) ds) ≫= (fun x => ps !! (S i + x.1)%nat)) = ps !! j) as ->.
      { unfold j. destruct (list_find _ _); [done|]. cbn. symmetry. by apply lookup_ge_None. }
      assert (default [] ((fun x => drop x.1 (drop (S i) ds)) <$> list_find (fun d => node_type d = MENU_DISABLE) (drop (S i) ds)) = drop j ds) as Ej.
      { unfold j. destruct (list_find _ _); cbn; [by rewrite drop_drop|]. by rewrite drop_ge by lia. }
      rewrite Ej in Q1, Q2. assert (i < j)%nat as Hij by (unfold j; destruct (list_find _ _); lia).
      destruct (IH j title s2) as (s' & E & M & rs & Er & Ha); [lia|done| | | |].
      * replace j with (S i + (j - S i))%nat by lia. rewrite <- drop_drop. by apply Forall_drop.
      * intros x Hx. by apply Hr, Q2.
      * intros d Hdj Hnorm. exfalso. unfold j in Hdj. destruct (list_find _ _) as [[k y]|] eqn:Ef.
        -- apply list_find_Some in Ef as (Hk & Hky & _). rewrite <- lookup_drop in Hdj. cbn in *. simplify_eq.
           rewrite Forall_forall in Hl'. destruct (Hl' y) as [[(? & _)|[_ ?]] _]; [by eapply list_elem_of_lookup_2|congruence|done].
        -- rewrite <- Hlen in Hdj. apply lookup_lt_Some in Hdj. lia.
      * exists s'. split; [exact E|]. split; [done|]. exists rs. rewrite Er, R2. split; [done|]. by rewrite Q1.
  - destruct (Hn _ Hd Hdt) as [Hsv Ho].
    set (x := (cur, until_nul (text e))) in *.
    destruct (module_spec cur e s1) as (go & s2 & E2 & F2 & Hgo & rs1 & R2 & A2); [done|by destruct Ho; split| |done|].
    { apply (Hr x); [left|done]. }
    rewrite (sm_bind_Done _ _ _ _ _ E2). rewrite <- (st_menu _ _ F2) in Hm1.
    assert (on_title cur s2) as Ho2 by (eapply on_title_same; [exact F2|by destruct Ho; split]).
    assert (exists s3, (match go with Some q => loop fuel q | None => q ← advance e; loop fuel q end) s2 = loop fuel (ps !! S i) s3 /\
      menu_holds (dmenu s3) ps ds /\ requests (trace s3) = requests (trace s2) /\ on_title cur s3) as (s3 & E3 & M3 & R3 & O3).
    { destruct Hgo as [-> | ->].
      - destruct (advance_spec s2 ps ds i p e Hm1 Hp Hnext) as (s3 & E3 & M3 & R3 & B1 & B2 & B3 & B4).
        exists s3. rewrite (sm_bind_Done _ _ _ _ _ E3), Hnext. split; [done|]. split; [done|]. split; [done|].
        destruct Ho2; split; by rewrite ?B1, ?B2, ?B3, ?B4.
      - exists s2. by rewrite Hnext. }
    rewrite E3. destruct (IH (S i) cur s3) as (s' & E & M & rs & Er & Ha); [lia|done|done|intros y Hy; apply Hr; by right|by auto|].
    exists s'. split; [done|]. split; [done|]. exists (rs1 ++ rs). rewrite Er, R3, R2, app_assoc. split; [done|].
    rewrite filter_cons. change (wanted x) with (served cur && (is_system cur || (self_type_of (chars (until_nul (text e))) =? 8))).
    rewrite Hsv. cbn [andb].
    destruct (is_system cur || _).
    + rewrite decide_True by done. exact (Forall2_app A2 Ha).
    + rewrite decide_False by done. inversion A2. done.
Qed.

(** C13: In a list that begins with its title and a heading ([listed]), when
    there is memory and the work on every request ends ([works]), and every
    module under a heading that is served can be read and is not of an
    emulated application, path ids 23 and 24 ([readable]), the thread ends,
    the list is as it was, and the modules handed to the kernel plugin are
    exactly those under a served heading that need it, each once, in the order
    of the list, with the license and the parameters of its own heading.  A
    heading is served when it is that of the system, or when its license was
    found and [current_game], the game opened last, could be mounted: the code
    does not mount the title of the heading.  That a request may not end is in
    [FagSync.done_report_lost]; an unreadable module is
    [unreadable_module_faults]. *)
Theorem queue_requested_in_order s ps ds : works -> menu_holds (dmenu s) ps ds ->
  Forall listed (drop 1 ds) -> (forall d, ds !! 0%nat = Some d -> node_draw d = MENU_TITLE) ->
  (forall d, ds !! 1%nat = Some d -> node_draw d = MENU_SUBTITLE) ->
  (forall x, x ∈ queued [] ds -> served x.1 = true -> readable x) -> exists s',
  dumpThread mount_res mount_name current_game rif_name sceIoGetstat first_name source mem_ok junk dump_type work s = Done (tt, s') /\
  menu_holds (dmenu s') ps ds /\
  exists rs, requests (trace s') = requests (trace s) ++ rs /\
    Forall2 answers (filter (fun x => wanted x = true) (queued [] ds)) rs.
Proof.
  intros Hw Hm Hl H0 H1 Hr. unfold dumpThread. tstep. rewrite (holds_start _ _ _ Hm).
  pose proof (holds_lengths _ _ _ Hm) as Hlen.
  assert (exists s', loop (rounds (entries (dmenu s))) (ps !! 0%nat) s = Done (tt, s') /\ menu_holds (dmenu s') ps ds /\
    exists rs, requests (trace s') = requests (trace s) ++ rs /\
    Forall2 answers (filter (fun x => wanted x = true) (queued [] ds)) rs) as (s' & E & M & H).
  { unfold rounds. rewrite (links_size _ _ _ _ (holds_links _ _ _ Hm)). cbn [thread_loop].
    destruct (ps !! 0%nat) as [p|] eqn:Hp.
    2:{ apply lookup_ge_None in Hp. destruct ds; [|cbn in Hlen; lia]. exists s. split; [done|]. split; [done|]. exists []. by rewrite app_nil_r. }
    destruct (entry_at _ _ _ _ _ Hm Hp) as (e & Ee & Hnext & _ & Hd & _).
    rewrite (sm_bind_Done _ _ _ _ _ (on_menu_Done _ _ _ _ Ee)). tstep.
    match goal with |- context [(_ ≫= _) ?s0] => set (s1 := s0) end.
    assert (menu_holds (dmenu s1) ps ds) as Hm1 by (eapply holds_frame; [exact Hm|done..]).
    pose proof (H0 _ Hd) as Hdt. change (draw_type e = MENU_TITLE) in Hdt. rewrite Hdt. tstep.
    destruct (advance_spec s1 ps ds 0 p e Hm1 Hp Hnext) as (s2 & E2 & M2 & R2 & _).
    rewrite (sm_bind_Done _ _ _ _ _ E2), Hnext.
    destruct ds as [|d ds']; [done|]. cbn [lookup list_lookup] in Hd. injection Hd as ->.
    cbn [queued] in Hr |- *. change (node_draw (data e)) with (draw_type e) in *. rewrite Hdt in Hr |- *.
    destruct (loop_spec ps (data e :: ds') Hw (length ps) 1 [] s2) as (s' & E & M & rs & Er & Ha); [|done|done|done| |].
    - apply lookup_lt_Some in Hp. lia.
    - intros d Hd Hn. rewrite (H1 d Hd) in Hn. done.
    - exists s'. split; [done|]. split; [done|]. exists rs. rewrite Er, R2. by split. }
  rewrite (sm_bind_Done _ _ _ _ _ E). eexists. split; [done|]. by split.
Qed.
End Served.

(** A module that cannot be opened is not passed over: the thread uses the
    header that it has just freed, or what is behind the list. *)
Lemma unreadable_module_faults mount_res mount_name current_game rif_name sceIoGetstat first_name source mem_ok junk dump_type work e s fuel p :
  ended (text e) -> entries (dmenu s) !! p = Some e -> draw_type e = MENU_NORMAL ->
  is_done (generateFolders (chars (until_nul (text e))) OUT_FOLDER) = true ->
  is_done (elf_path_of (chars (until_nul (text e)))) = true -> is_done (out_path_of (chars (until_nul (text e)))) = true ->
  (ReadFile source (chars (until_nul (text e))) (Z.of_nat HEADER_BYTES)).1 < 0 ->
  exists f, thread_loop mount_res mount_name current_game rif_name sceIoGetstat first_name source mem_ok junk dump_type work (S fuel) (Some p) s = Fault f.
Proof.
  intros He Hp Hdt [folders Ef]%is_done_Done [elf Ee]%is_done_Done [out Eo]%is_done_Done Hr. cbn [thread_loop].
  rewrite (sm_bind_Done _ _ _ _ _ (on_menu_Done _ _ _ _ (read_Done _ _ _ Hp))), Hdt. tstep.
  match goal with |- context [(_ ≫= _) ?s0] => set (s1 := s0) end.
  assert (exists f, at_module sceIoGetstat source mem_ok junk dump_type work e s1 = Fault f) as [f E]; [|exists f; unfold mbind, sm_bind; by rewrite E].
  unfold at_module. rewrite (read_str_ended _ He). do 2 tstep. set (t := chars (until_nul (text e))) in *. rewrite Ef. do 2 tstep.
  rewrite Ee. tstep.
  match goal with |- context [(?op ≫= _) ?s0] => assert (exists file, op s0 = Done (file, s0)) as [file Efile] end.
  { destruct dump_type; [rewrite Eo|]; by eexists. }
  rewrite (sm_bind_Done _ _ _ _ _ Efile). do 2 tstep. destruct (mem_ok _); cbn [negb]; [|by exists FNull].
  destruct (ReadFile source t (Z.of_nat HEADER_BYTES)) as [res bs]. cbn [fst] in Hr.
  rewrite (proj2 (Z.ltb_lt _ _) Hr). destruct (next e); by eexists.
Qed.

(** ** Starting the thread *)

(** [dumpThread_tid], [uplugin_modid] and the static [dump_type] *)
Record launcher := Launcher { dumpThread_tid : Z; uplugin_modid : Z; type_chosen : DumpType }.

(** [created]: the result of [sceKernelCreateThread]; whether a thread starts *)
Definition dumpStart (type : DumpType) (created : Z) : SM launcher bool :=
  s ← sm_get;
  if dumpThread_tid s <? 0 then
    _ ← sm_put (Launcher created (uplugin_modid s) type);
    mret (0 <? created)
  else mret false.

(** From the start of [dumpThread] to the name of the license; [loaded]: the
    result of loading userAllied, [aid] and [rif]: of the two calls; [false]:
    [return 0] *)
Definition dump_begin (loaded aid rif : Z) : SM launcher bool :=
  s ← sm_get;
  _ ← (if uplugin_modid s <? 0 then sm_put (Launcher (dumpThread_tid s) loaded (type_chosen s)) else mret tt);
  s ← sm_get;
  if uplugin_modid s <? 0 then mret false
  else if aid <? 0 then mret false
  else if rif <? 0 then mret false
  else mret true.

(** [dumpThread_tid = -1] *)
Definition dump_end : SM launcher unit :=
  sm_modify (fun s => Launcher (-1) (uplugin_modid s) (type_chosen s)).

(** The whole thread, as the launcher sees it *)
Definition dump_life (loaded aid rif : Z) : SM launcher bool :=
  ok ← dump_begin loaded aid rif;
  if ok : bool then _ ← dump_end; mret true else mret false.

(** A thread that could not begin leaves its number behind: no thread is ever
    started again. *)
Lemma failed_begin_blocks type created loaded aid rif s s1 s2 : dumpStart type created s = Done (true, s1) ->
  dump_life loaded aid rif s1 = Done (false, s2) ->
  forall type' created', dumpStart type' created' s2 = Done (false, s2).
Proof.
  intros H1 H2 type' created'. unfold dumpStart, sm_bind, mbind, sm_get, sm_put, mret, sm_ret in H1.
  destruct (dumpThread_tid s <? 0); [|done]. injection H1 as Hc <-.
  unfold dump_life, dump_begin, dump_end, mbind, sm_bind, sm_get, sm_put, sm_modify, mret, sm_ret in H2.
  cbn [uplugin_modid dumpThread_tid type_chosen] in H2.
  assert (dumpThread_tid s2 = created) as Ht.
  { repeat match type of H2 with context [if ?b then _ else _] => destruct b eqn:? end; by simplify_eq. }
  apply Z.ltb_lt in Hc. unfold dumpStart, mbind, sm_bind, sm_get, mret, sm_ret. rewrite Ht.
  by rewrite (proj2 (Z.ltb_ge created 0)) by lia.
Qed.

(** One that ends does not. *)
Lemma ended_thread_restarts type created loaded aid rif s s1 s2 : dumpStart type created s = Done (true, s1) ->
  dump_life loaded aid rif s1 = Done (true, s2) ->
  forall type' created', 0 < created' -> dumpStart type' created' s2 = Done (true, Launcher created' (uplugin_modid s2) type').
Proof.
  intros _ H2 type' created' Hc. unfold dump_life, dump_begin, dump_end, mbind, sm_bind, sm_get, sm_put, sm_modify, mret, sm_ret in H2.
  assert (dumpThread_tid s2 = -1) as Ht.
  { repeat match type of H2 with context [if ?b then _ else _] => destruct b eqn:? end; cbn in H2; by simplify_eq. }
  unfold dumpStart, mbind, sm_bind, sm_get, sm_put, mret, sm_ret. rewrite Ht. cbn.
  by rewrite (proj2 (Z.ltb_lt _ _) Hc).
Qed.

(** ** A list of one module *)

Definition sample_header : mem := replicate 56 0 ++ le 8 128 ++ replicate 76 0 ++ le 4 8.
Definition sample_list : list node :=
  [new_node MENU_TITLE (str_bytes "Modules to be decrypted") None;
   new_node MENU_SUBTITLE (str_bytes "PCSE00000") None;
   new_node MENU_NORMAL (str_bytes "ux0:app/PCSE00000/eboot.bin") (Some dumpModuleEntryCB_id)].

Lemma sample_list_menu : exists m ps, menu_holds m ps sample_list.
Proof.
  assert (menu_holds (MenuCreate PANE_RIGHT) [] []) as H0 by apply (represents_create PANE_RIGHT).
  destruct (add_entry_spec _ _ _ MENU_TITLE (str_bytes "Modules to be decrypted") None H0) as (p1 & m1 & _ & _ & H1 & _).
  destruct (add_entry_spec _ _ _ MENU_SUBTITLE (str_bytes "PCSE00000") None H1) as (p2 & m2 & _ & _ & H2 & _).
  destruct (add_entry_spec _ _ _ MENU_NORMAL (str_bytes "ux0:app/PCSE00000/eboot.bin") (Some dumpModuleEntryCB_id) H2) as (p3 & m3 & _ & _ & H3 & _).
  by exists m3, [p1; p2; p3].
Qed.

Lemma sample_cut_short t : (String.length t < 1000)%nat -> cut t = t.
Proof. intros H. apply cut_id. pose proof PATH_MAX_large. lia. Qed.

Lemma sample_module_readable : readable (fun _ => inl sample_header) (fun k => replicate k 0)
  (str_bytes "PCSE00000", str_bytes "ux0:app/PCSE00000/eboot.bin").
Proof.
  assert (chars (str_bytes "ux0:app/PCSE00000/eboot.bin") = "ux0:app/PCSE00000/eboot.bin"%string) as E by reflexivity.
  assert (forall t, (String.length t < 1000)%nat -> (String.length t <? PATH_MAX)%nat = true) as Hlen.
  { intros t Ht. apply Nat.ltb_lt. pose proof PATH_MAX_large. lia. }
  split; cbn [fst snd]; rewrite E.
  - unfold generateFolders, strcpy_path. rewrite !Hlen by (apply Nat.ltb_lt; reflexivity).
    cbn [mbind run_bind]. change (behind "ux0:app/PCSE00000/eboot.bin" ":"%char) with (Done "app/PCSE00000/eboot.bin"%string). cbn [mbind run_bind].
    change (skip_slash "app/PCSE00000/eboot.bin") with (joined ["app"; "PCSE00000"]%string +:+ "eboot.bin").
    rewrite folder_loop_spec; [done|by repeat constructor|done|cbn; lia|].
    eapply Nat.lt_le_trans; [|apply PATH_MAX_large]. apply Nat.ltb_lt. reflexivity.
  - exists "ux0:/FAGDec/app/PCSE00000/eboot.bin.elf"%string. split; [|split].
    + unfold elf_path_of. change (dumpFindPath "ux0:app/PCSE00000/eboot.bin") with (Done "app/PCSE00000/eboot.bin"%string). cbn [mbind run_bind].
      rewrite sample_cut_short by (apply Nat.ltb_lt; reflexivity). done.
    + reflexivity.
    + rewrite !sample_cut_short by (apply Nat.ltb_lt; reflexivity). unfold auth_outpath. reflexivity.
  - split; [done|]. unfold header_of, ReadFile. cbn [snd]. reflexivity.
  - done.
Qed.

Lemma queue_requested_in_order_witness : exists m ps s' r,
  menu_holds m ps sample_list /\
  dumpThread (fun _ => 0) (fun _ => []) "PCSE00000" "fixed" (fun _ => 0) (fun _ => None) (fun _ => inl sample_header) (fun _ => true)
    (fun k => replicate k 0) DUMP_ELF (fun _ _ _ _ => mret true) (Thread m (Dumping ∅ [] 0 []) [] None false false None []) = Done (tt, s') /\
  menu_holds (dmenu s') ps sample_list /\ requests (trace s') = [r] /\ rq_path r = "ux0:app/PCSE00000/eboot.bin"%string.
Proof.
  destruct sample_list_menu as (m & ps & H).
  destruct (queue_requested_in_order (fun _ => 0) (fun _ => []) "PCSE00000" "fixed" (fun _ => 0) (fun _ => None) (fun _ => inl sample_header) (fun _ => true)
    (fun k => replicate k 0) DUMP_ELF (fun _ _ _ _ => mret true) (Thread m (Dumping ∅ [] 0 []) [] None false false None []) ps sample_list)
    as (s' & E & M & rs & Er & Ha).
  - by split.
  - exact H.
  - constructor; [|constructor; [|constructor]]; (split; [|unfold ended; apply Nat.ltb_lt; reflexivity]); [left|right]; (split; [done|]); [|done].
    split; [done|]. apply Nat.ltb_lt. reflexivity.
  - by intros d [= <-].
  - by intros d [= <-].
  - intros x Hx _. change (queued [] sample_list) with [(str_bytes "PCSE00000", str_bytes "ux0:app/PCSE00000/eboot.bin")] in Hx.
    apply list_elem_of_singleton in Hx as ->. exact sample_module_readable.
  - change (queued [] sample_list) with [(str_bytes "PCSE00000", str_bytes "ux0:app/PCSE00000/eboot.bin")] in Ha.
    rewrite filter_cons_True in Ha by reflexivity. inversion Ha as [|x r l1 l2 (Hr & _) Hl]; subst. inversion Hl; subst.
    exists m, ps, s', r. split; [exact H|]. split; [exact E|]. split; [exact M|]. split; [exact Er|]. exact Hr.
Defined.
